(* ===== verification/_CoqProject ===== *)
-Q . S2P
Prelude.v
Ring.v
Spinlock.v
Sched.v
SchedInv.v
SchedStep.v
SchedThms.v
SchedWake.v
SchedLive.v
Pipe.v
Uart.v
Printf.v
Console.v
Grep.v
Sh.v
ShSpec.v
ShPrint.v
Riscv.v
Mem.v
Kalloc.v
Vm.v
VmSpec.v
VmDemo.v
VmMap.v
VmCopy.v
VmUser.v
VmFree.v
AddrSpace.v
ProcMem.v
ProcFork.v
Request.v
MinHeap.v
Sstf.v
Deadline.v
DeadlineIdle.v
VirtioDisk.v
VirtioChain.v
IoSched.v
VirtioSafety.v
DiskRw.v
SchedDispatch.v
Disk.v
Sleeplock.v
Bio.v
BioRing.v
BioSpec.v
BioThms.v
Cache.v
BioCache.v
Bytes.v
Log.v
LogSpec.v
LogCrash.v
LogTx.v
LogSpace.v
Store.v
FsLog.v
Fs.v
FsAlloc.v
FsFile.v
FsMap.v
FsRw.v
FsInode.v
FsThms.v
FsDemo.v
Exec.v
ExecLoad.v
ExecStack.v
ExecThms.v
ExecRead.v
Umalloc.v
UmallocSpec.v
UmallocThms.v
File.v
FileRest.v
FileWrite.v
FileRefs.v
FileFd.v
FileExit.v
FileDemo.v
