(* ===== verification/Prelude.v ===== *)
(** * Verification of xv6 with I/O scheduling

    The program is xv6 for RISC-V with a layer of I/O schedulers between the
    buffer cache and the disk driver.  This library translates its kernel, and
    some of its user programs, into Rocq functions and proves what makes them
    correct.  Paths below are relative to src/.

    ** The program and the files of the library

    From the bottom up:

    - The processor's address arithmetic (kernel/riscv.h, kernel/memlayout.h)
      is in Riscv; memory, with loads and stores of bytes and words, and
      kernel/string.c in Mem.
    - Spin locks (kernel/spinlock.c): Spinlock, as functions on one hart and
      cut at every memory access for any number of harts.
    - Processes and the CPU scheduler (kernel/proc.c): Sched cuts every
      function that changes a process's state at its lock operations and
      context switches and interleaves them on any number of harts; SchedInv
      is the invariant, SchedStep its preservation, SchedThms, SchedWake and
      SchedLive the theorems.
    - Pages (kernel/kalloc.c): Kalloc, with the free list kept inside the free
      pages.
    - Page tables (kernel/vm.c): Vm has the functions, VmSpec what a
      three-level table in memory means, VmMap [mappages] and [uvmunmap],
      VmCopy [uvmcopy], VmUser [copyout] and [copyin], VmFree [freewalk],
      VmDemo a concrete table.  AddrSpace puts these together to address
      spaces: user pages, tables and free pages are conserved.
    - The memory of processes (kernel/proc.c again): ProcMem has
      [proc_pagetable], [allocproc], [freeproc], [growproc], [fork],
      [userinit], and ProcFork the theorem on [fork].
    - Programs (kernel/exec.c): Exec has [exec] and [loadseg]; ExecLoad,
      ExecStack and ExecThms prove what they do; ExecRead ties them to [readi].
    - The disk driver (kernel/virtio_disk.c): VirtioDisk, with the descriptor
      chains of VirtioChain and the safety theorems of VirtioSafety; the
      device is an argument.
    - The I/O schedulers (kernel/virtio_disk.c): Request has requests, MinHeap
      the heap by block number, Sstf shortest seek first, Deadline and
      DeadlineIdle the red-black trees with deadlines; IoSched is the layer
      [rw_queue] with the interrupt handler, SchedDispatch and DiskRw its
      theorems.
    - Sleep locks (kernel/sleeplock.c): Sleeplock.
    - The buffer cache (kernel/bio.c): Bio has the functions over the circular
      list of BioRing; BioSpec is the invariant, BioThms the theorems.  Disk is
      the interface to the disk below, Cache that to the log above, BioCache
      the proof that bio.c implements it.
    - The log (kernel/log.c): Log has the functions over any cache, LogSpec
      their specifications, LogCrash crashes at every disk write, LogTx
      transactions, LogSpace the space [begin_op] reserves.  Store is the
      interface to the file system, FsLog the proof that the log implements it.
    - The file system (kernel/fs.c): Fs has every function over any block
      store; FsAlloc blocks, FsFile, FsMap and FsRw file contents, FsInode
      inodes on disk, FsThms the theorems, FsDemo a small disk through all
      layers.  Bytes has integers inside blocks.
    - Open files and descriptors (kernel/file.c, and of kernel/sysfile.c,
      kernel/syscall.c and kernel/proc.c what works on descriptors): File has
      the functions; FileRest is a file between transactions and FileWrite
      [filewrite] down to the disk; FileRefs counts references, FileFd and
      FileExit prove that the system calls keep them; FileDemo has examples.
    - Pipes (kernel/pipe.c): Pipe; the UART (kernel/uart.c): Uart; the console
      (kernel/console.c): Console; all three on the ring buffers of Ring.
    - printf of kernel and user library (kernel/printf.c, user/printf.c):
      Printf.
    - User programs: Grep is user/grep.c; Sh the parser of user/sh.c, with its
      specification ShSpec and the printer of ShPrint.
      Umalloc is user/umalloc.c, with the invariant of UmallocSpec and the
      theorems of UmallocThms.

    Prelude, this file, has the outcomes of C code, the state monad, integers
    at their width, arrays with checked indices, the tactics and the lemmas on
    lists the files share.

    ** How code is translated

    A C function is a function in the monad [M S A := S -> res (A * S)], with
    [S] the state it works on.  The result is a value and the new state,
    [Panic] for the kernel's panic, [Fault] for a memory error of C (a null
    pointer, an index outside an array) or [Hang] when a loop has used up its
    fuel.  Machine integers are [Z] with the wrap-around written out ([u8],
    [u32], [s32], [u64]).  Where several harts or an interrupt can interleave,
    the code is cut at the points where this can be seen (lock operations,
    context switches, single memory accesses) and the pieces are steps of a
    relation.  Code between [acquire] and [release] of the same lock is one
    step.

    Components meet at interfaces: [Disk], [BufferCache] and [BlockStore] are
    classes with the operations of the lower component and their laws.  A
    client is proved against the class, and the lower component's files have
    the instance.

    ** What the theorems show

    - Storage: a transaction of the file system is on disk completely or not
      at all after a crash at any disk write ([transaction_atomic],
      [initlog_recovers]); operations that stay within what [begin_op]
      reserves find room in the log, all but the last block of a log of
      [LOGSIZE] blocks ([log_space_reserved]); [writei] and [readi] change and
      return just the bytes they should, and [balloc] panics on the way only
      when the disk has fewer free blocks than the file lacks
      ([writei_correct], [writei_readi], [filewrite_correct]); blocks are
      allocated once ([block_allocator_correct]); the cache returns what the
      disk holds ([bread_correct]).
    - Disk driver and schedulers: under the default scheduler ([IO_type] 0) the
      driver never faults and owns its descriptors ([driver_never_fails],
      [driver_descriptors_owned], [driver_completion_is_final]), and a written
      block is read back ([disk_write_then_read]); the instance of [Disk] is
      for this scheduler, the only one under which [rw_queue] transfers the
      buffer of its caller; the order each scheduler serves requests in
      ([heap_serves_in_block_order], [sstf_serves_greedily],
      [deadline_serves_one_at_a_time], [rw_queue_heap_submits_least]) and where
      two of them break ([insertMinHeap_overflows_when_full],
      [deadline_second_completion_fails]).
    - Memory: the page allocator is a stack of pages
      ([page_allocator_correct]); page tables map what they should
      ([mappages_correct], [uvmcopy_correct], [copyout_copyin]); [fork],
      [growproc] and [exec] are all or nothing and lose no page
      ([fork_correct], [growproc_correct], [exec_correct]).
    - Processes: at most one hart runs a process and locks are held as the
      code expects ([kernel_threads_exclusive], [spinlock_correct],
      [sleeplock_exclusive]), wake-ups are not lost ([no_lost_wakeup]), states
      change only along the life cycle ([process_life_cycle]), and an idle
      hart finds work ([idle_hart_runs_process]).
    - Byte streams: pipe, UART and console deliver bytes in order
      ([pipe_is_queue], [uart_fifo], [console_line_discipline]), with one
      exception ([killed_writer_strands_reader]).
    - Open files: [write] goes from the descriptor to the disk in transactions,
      and a crash leaves a prefix ([filewrite_correct]); counts of files and
      ends of pipes follow the descriptors ([sys_dup_correct],
      [sys_close_correct], [fork_files_correct], [exit_files_correct],
      [pipealloc_correct]).
    - User programs: grep prints the lines that match
      ([match_decides_language], [grep_prints_matching_lines]); the shell's
      parser is total and reads back what is printed ([parsecmd_total],
      [parsecmd_print]); malloc and free neither lose memory nor hand it out
      twice ([malloc_correct], [free_correct]); the two printf agree
      ([printf_equivalent]).

    ** Fuel and bounds

    Every loop that is not structural takes fuel.  The theorems have the bound
    as a hypothesis on the fuel, and it is the number of steps the loop can
    take: pages for the loops of vm.c, the length of a list or of an array for
    those of kalloc.c, bio.c and virtio_disk.c, bytes for the string loops, the
    rest of the line for the parser.  So "returns" never means "if it
    returns".  Sizes of arrays are those of kernel/param.h.

    ** Not modelled

    - Code in assembly (entry.S, kernelvec.S, trampoline.S, swtch.S,
      initcode.S) and the set-up of the machine around it (start.c, main.c,
      kvminithart): it acts on registers the C model does not have.  swtch is
      the transfer of control it documents.
    - Traps and the interrupt controller (trap.c, plic.c): they read and write
      control registers; that an interrupt may come between any two steps is
      part of the step relations.
    - The system calls that take a path (in sysfile.c) and those of sysproc.c,
      and the table of system calls (syscall.c): they fetch arguments and call
      functions that are modelled.
    - The shell beyond its parser, the small user programs and the tests: they
      are sequences of system calls.  mkfs runs on the build host; ramdisk.c is
      not built.
    - Memory is sequentially consistent; time, and the speed of devices, are
      left out. *)

From Stdlib Require Export ZArith Lia Sorted.
From stdpp Require Export functions.
From stdpp Require Export base numbers list strings gmap relations.

#[global] Set Default Goal Selector "!".

Declare Scope kernel_scope.
Delimit Scope kernel_scope with K.
#[global] Open Scope Z_scope.

(** ** Outcomes of C code

    [Ok] is a normal return; [Panic m] is the kernel's [panic(m)]; [Fault m]
    is a C-level memory error (a NULL dereference, an index outside its
    array); [Hang] is a loop that has used up its fuel. *)

Inductive res (A : Type) : Type :=
| Ok (a : A)
| Panic (msg : string)
| Fault (msg : string)
| Hang.

Arguments Ok {A} a.
Arguments Panic {A} msg.
Arguments Fault {A} msg.
Arguments Hang {A}.

#[global] Instance res_ret : MRet res := fun A a => Ok a.

#[global] Instance res_bind : MBind res := fun A B f m =>
  match m with
  | Ok a => f a
  | Panic s => Panic s
  | Fault s => Fault s
  | Hang => Hang
  end.

Definition is_ok {A} (r : res A) : bool :=
  match r with Ok _ => true | _ => false end.

(** The value of a computation known to succeed. *)
Definition ok_or {A} (d : A) (r : res A) : A :=
  match r with Ok a => a | _ => d end.

Lemma ok_or_eq {A} (d : A) r : is_ok r = true -> r = Ok (ok_or d r).
Proof. by destruct r. Qed.

Lemma bind_ok {A B} (a : A) (f : A -> res B) : (Ok a ≫= f) = f a.
Proof. reflexivity. Qed.

Lemma bind_inv {A B} (m : res A) (f : A -> res B) b :
  (m ≫= f) = Ok b -> exists a, m = Ok a /\ f a = Ok b.
Proof. destruct m; simpl; try discriminate. eauto. Qed.

(** ** Stateful code: state passing over [res] *)

Definition M (S A : Type) : Type := S -> res (A * S).

#[global] Instance M_ret {S} : MRet (M S) := fun A a s => Ok (a, s).

#[global] Instance M_bind {S} : MBind (M S) := fun A B f m s =>
  match m s with
  | Ok (a, s') => f a s'
  | Panic e => Panic e
  | Fault e => Fault e
  | Hang => Hang
  end.

(** A computation that does not touch the state. *)
Definition lift {S A} (r : res A) : M S A := fun s =>
  match r with
  | Ok a => Ok (a, s)
  | Panic e => Panic e
  | Fault e => Fault e
  | Hang => Hang
  end.

Definition gets {S A} (f : S -> A) : M S A := fun s => Ok (f s, s).
Definition modify {S} (f : S -> S) : M S unit := fun s => Ok (tt, f s).
Definition panic {S A} (msg : string) : M S A := fun _ => Panic msg.
Definition fault {S A} (msg : string) : M S A := fun _ => Fault msg.
Definition hang {S A} : M S A := fun _ => Hang.
Definition when {S} (b : bool) (m : M S unit) : M S unit :=
  if b then m else mret tt.

Lemma M_bind_Ok {S A B} (m : M S A) (f : A -> M S B) s a s' :
  m s = Ok (a, s') -> (m ≫= f) s = f a s'.
Proof. unfold mbind, M_bind. by intros ->. Qed.

Lemma M_bind_gets {S A B} (f : S -> A) (k : A -> M S B) s : (gets f ≫= k) s = k (f s) s.
Proof. done. Qed.

Lemma M_bind_modify {S B} (f : S -> S) (k : unit -> M S B) s : (modify f ≫= k) s = k tt (f s).
Proof. done. Qed.

Lemma M_bind_ret {S A B} (a : A) (k : A -> M S B) s : (mret a ≫= k) s = k a s.
Proof. done. Qed.

Lemma M_bind_lift {S A B} (r : res A) a (k : A -> M S B) s :
  r = Ok a -> (lift r ≫= k) s = k a s.
Proof. by intros ->. Qed.

Lemma M_bind_assoc {S A B C} (m : M S A) (f : A -> M S B) (g : B -> M S C) s :
  ((m ≫= f) ≫= g) s = (m ≫= fun a => f a ≫= g) s.
Proof. unfold mbind, M_bind. by destruct (m s) as [[]| | |]. Qed.

Lemma M_bind_inv {S A B} (m : M S A) (f : A -> M S B) s b s' :
  (m ≫= f) s = Ok (b, s') ->
  exists a s1, m s = Ok (a, s1) /\ f a s1 = Ok (b, s').
Proof.
  unfold mbind, M_bind. destruct (m s) as [[a s1]| | |]; try discriminate. eauto.
Qed.

(** ** C integers at their width *)

Definition u8 (z : Z) : Z := z mod 2 ^ 8.
Definition u16 (z : Z) : Z := z mod 2 ^ 16.
Definition u32 (z : Z) : Z := z mod 2 ^ 32.
Definition u64 (z : Z) : Z := z mod 2 ^ 64.

(** Conversion to a two's complement signed type (gcc's behaviour). *)
Definition s8 (z : Z) : Z := (z + 2 ^ 7) mod 2 ^ 8 - 2 ^ 7.
Definition s16 (z : Z) : Z := (z + 2 ^ 15) mod 2 ^ 16 - 2 ^ 15.
Definition s32 (z : Z) : Z := (z + 2 ^ 31) mod 2 ^ 32 - 2 ^ 31.

Lemma u8_small z : 0 <= z < 2 ^ 8 -> u8 z = z.
Proof. apply Z.mod_small. Qed.

Lemma u16_small z : 0 <= z < 2 ^ 16 -> u16 z = z.
Proof. apply Z.mod_small. Qed.

Lemma u32_small z : 0 <= z < 2 ^ 32 -> u32 z = z.
Proof. apply Z.mod_small. Qed.

Lemma u64_small z : 0 <= z < 2 ^ 64 -> u64 z = z.
Proof. apply Z.mod_small. Qed.

Lemma u8_range z : 0 <= u8 z < 2 ^ 8.
Proof. apply Z.mod_pos_bound. lia. Qed.

Lemma u16_range z : 0 <= u16 z < 2 ^ 16.
Proof. apply Z.mod_pos_bound. lia. Qed.

Lemma u32_range z : 0 <= u32 z < 2 ^ 32.
Proof. apply Z.mod_pos_bound. lia. Qed.

Lemma s32_small z : - 2 ^ 31 <= z < 2 ^ 31 -> s32 z = z.
Proof. intros. unfold s32. rewrite Z.mod_small; lia. Qed.

(** ** Arrays

    An array is a list; an access is checked, and an index outside the array
    is a [Fault].  (C has no such check: it is the model that stops.) *)

Definition zidx {A} (l : list A) (i : Z) : option A :=
  if 0 <=? i then l !! Z.to_nat i else None.

Definition rd {A} (l : list A) (i : Z) : res A :=
  match zidx l i with Some a => Ok a | None => Fault "array read" end.

Definition wr {A} (l : list A) (i : Z) (v : A) : res (list A) :=
  if (0 <=? i) && (i <? Z.of_nat (length l))
  then Ok (<[Z.to_nat i := v]> l) else Fault "array write".

Lemma zidx_Some {A} (l : list A) i a :
  zidx l i = Some a <-> 0 <= i /\ l !! Z.to_nat i = Some a.
Proof.
  unfold zidx. destruct (Z.leb_spec 0 i); split; intros H'; try tauto;
    [discriminate | lia].
Qed.

Lemma zidx_lt {A} (l : list A) i a :
  zidx l i = Some a -> 0 <= i < Z.of_nat (length l).
Proof. rewrite zidx_Some. intros [? Hl%lookup_lt_Some]. lia. Qed.

Lemma zidx_is_Some {A} (l : list A) i :
  0 <= i < Z.of_nat (length l) -> exists a, zidx l i = Some a.
Proof.
  intros H. destruct (lookup_lt_is_Some_2 l (Z.to_nat i)) as [a Ha]; [lia |].
  exists a. apply zidx_Some. split; [lia | done].
Qed.

Lemma rd_Ok {A} (l : list A) i a : zidx l i = Some a -> rd l i = Ok a.
Proof. unfold rd. by intros ->. Qed.

Lemma rd_inv {A} (l : list A) i a : rd l i = Ok a -> zidx l i = Some a.
Proof. unfold rd. destruct (zidx l i); congruence. Qed.

Lemma rd_Fault {A} (l : list A) i :
  ~ 0 <= i < Z.of_nat (length l) -> rd l i = Fault "array read".
Proof.
  intros H. unfold rd. destruct (zidx l i) eqn:E; [|done].
  apply zidx_lt in E. lia.
Qed.

Lemma wr_Ok {A} (l : list A) i v :
  0 <= i < Z.of_nat (length l) -> wr l i v = Ok (<[Z.to_nat i := v]> l).
Proof.
  intros H. unfold wr. destruct (Z.leb_spec 0 i); [|lia].
  destruct (Z.ltb_spec i (Z.of_nat (length l))); [done | lia].
Qed.

Lemma wr_Fault {A} (l : list A) i v :
  ~ 0 <= i < Z.of_nat (length l) -> wr l i v = Fault "array write".
Proof.
  intros H. unfold wr. destruct (Z.leb_spec 0 i); simpl; [|done].
  destruct (Z.ltb_spec i (Z.of_nat (length l))); [lia | done].
Qed.

Lemma zidx_insert_eq {A} (l : list A) i v :
  0 <= i < Z.of_nat (length l) -> zidx (<[Z.to_nat i := v]> l) i = Some v.
Proof.
  intros H. apply zidx_Some. split; [lia |].
  apply list_lookup_insert_eq. lia.
Qed.

Lemma zidx_insert_ne {A} (l : list A) i j v :
  0 <= i -> i <> j -> zidx (<[Z.to_nat i := v]> l) j = zidx l j.
Proof.
  intros H Hne. unfold zidx. destruct (Z.leb_spec 0 j); [|done].
  apply list_lookup_insert_ne. lia.
Qed.

(** Reads and writes of an array that is a field of the state: [proj] reads
    the field, [set] replaces it. *)
Definition M_rd {S A} (proj : S -> list A) (i : Z) : M S A := fun s =>
  lift (rd (proj s) i) s.

Definition M_alter {S A} (proj : S -> list A) (set : list A -> S -> S)
    (i : Z) (f : A -> A) : M S unit := fun s =>
  if (0 <=? i) && (i <? Z.of_nat (length (proj s)))
  then Ok (tt, set (alter f (Z.to_nat i) (proj s)) s) else Fault "array write".

Definition M_wr {S A} (proj : S -> list A) (set : list A -> S -> S)
    (i : Z) (v : A) : M S unit := M_alter proj set i (fun _ => v).

Lemma M_rd_Ok {S A} (proj : S -> list A) i s a :
  zidx (proj s) i = Some a -> M_rd proj i s = Ok (a, s).
Proof. intros H. unfold M_rd. by rewrite (rd_Ok _ _ _ H). Qed.

Lemma M_alter_Ok {S A} (proj : S -> list A) set i f s :
  0 <= i < Z.of_nat (length (proj s)) ->
  M_alter proj set i f s = Ok (tt, set (alter f (Z.to_nat i) (proj s)) s).
Proof.
  intros H. unfold M_alter. destruct (Z.leb_spec 0 i); [|lia].
  destruct (Z.ltb_spec i (Z.of_nat (length (proj s)))); [done | lia].
Qed.

Lemma M_rd_inv {S A} (proj : S -> list A) i s a s' :
  M_rd proj i s = Ok (a, s') -> s' = s /\ zidx (proj s) i = Some a.
Proof.
  unfold M_rd, lift. destruct (rd (proj s) i) eqn:E; try discriminate.
  intros [= <- <-]. split; [done | by apply rd_inv].
Qed.

Lemma M_alter_inv {S A} (proj : S -> list A) set i f s u s' :
  M_alter proj set i f s = Ok (u, s') ->
  0 <= i < Z.of_nat (length (proj s)) /\ s' = set (alter f (Z.to_nat i) (proj s)) s.
Proof.
  unfold M_alter. destruct (Z.leb_spec 0 i); simpl; [|discriminate].
  destruct (Z.ltb_spec i (Z.of_nat (length (proj s)))); [|discriminate].
  intros [= <- <-]. split; [lia | done].
Qed.

Lemma M_alter_insert {S A} (proj : S -> list A) set i f s a :
  zidx (proj s) i = Some a -> M_alter proj set i f s = Ok (tt, set (<[Z.to_nat i := f a]> (proj s)) s).
Proof.
  intros H. rewrite M_alter_Ok by (by eapply zidx_lt). do 3 f_equal. apply zidx_Some in H as [_ H].
  apply list_eq. intros j. destruct (decide (j = Z.to_nat i)) as [->|].
  - rewrite list_lookup_alter_eq, H, list_lookup_insert_eq; [done|]. by eapply lookup_lt_Some.
  - by rewrite list_lookup_alter_ne, list_lookup_insert_ne.
Qed.

Lemma alter_alter {A} (l : list A) (i : nat) (f g : A -> A) :
  alter g i (alter f i l) = alter (fun x => g (f x)) i l.
Proof.
  revert i. induction l as [|x l IH]; intros [|i]; cbn; [done..|]. f_equal. apply IH.
Qed.

Lemma zidx_alter_eq {A} (l : list A) i f a :
  zidx l i = Some a -> zidx (alter f (Z.to_nat i) l) i = Some (f a).
Proof.
  rewrite !zidx_Some. intros [? H]. split; [done|].
  by rewrite list_lookup_alter_eq, H.
Qed.

Lemma zidx_alter_fmap {A} (l : list A) i f :
  zidx (alter f (Z.to_nat i) l) i = f <$> zidx l i.
Proof. unfold zidx. destruct (Z.leb_spec 0 i); [apply list_lookup_alter_eq|done]. Qed.

Lemma zidx_alter_ne {A} (l : list A) i j f :
  0 <= i -> i <> j -> zidx (alter f (Z.to_nat i) l) j = zidx l j.
Proof.
  intros ? ?. unfold zidx. destruct (Z.leb_spec 0 j); [|done].
  apply list_lookup_alter_ne. lia.
Qed.

(** Run a computation on a part of the state. *)
Definition zoom {S T A} (get : S -> T) (put : T -> S -> S) (m : M T A) : M S A := fun s =>
  match m (get s) with
  | Ok (a, t) => Ok (a, put t s)
  | Panic e => Panic e
  | Fault e => Fault e
  | Hang => Hang
  end.

Lemma zoom_Ok {S T A} (get : S -> T) (put : T -> S -> S) (m : M T A) s a t :
  m (get s) = Ok (a, t) -> zoom get put m s = Ok (a, put t s).
Proof. unfold zoom. by intros ->. Qed.

Lemma zoom_inv {S T A} (get : S -> T) (put : T -> S -> S) (m : M T A) s a s' :
  zoom get put m s = Ok (a, s') -> exists t, m (get s) = Ok (a, t) /\ s' = put t s.
Proof.
  unfold zoom. destruct (m (get s)) as [[a' t]| | |]; try discriminate.
  intros [= <- <-]. eauto.
Qed.

(** ** Automation *)

Create HintDb kernel.
#[export] Hint Resolve rd_Ok wr_Ok zidx_lt zidx_insert_eq : kernel.

(** Run one monadic step whose head is known to succeed. *)
Ltac mstep H := rewrite H; cbn [mbind res_bind].

(** Run the state reads and updates at the head of a computation. *)
Ltac mgo := repeat (first
  [ rewrite M_bind_gets | rewrite M_bind_modify | rewrite M_bind_ret
  | rewrite M_bind_assoc ]; cbv beta).

(** Run the head of a computation, [H] being its equation. *)
Ltac mrun H := rewrite (M_bind_Ok _ _ _ _ _ H); cbv beta.

(** Take a successful run [H : m s = Ok (a, s')] apart: one hypothesis for
    every step that is not a bare read or update of the state. *)
Ltac mdestruct H :=
  lazymatch type of H with
  | (_ ≫= _) _ = Ok _ =>
      let a := fresh "a" in let s1 := fresh "s" in let H1 := fresh "H" in
      apply M_bind_inv in H; destruct H as (a & s1 & H1 & H);
      mdestruct H1; cbv beta in H; mdestruct H
  | gets _ _ = Ok _ => unfold gets in H; injection H as <- <-
  | modify _ _ = Ok _ => unfold modify in H; injection H as <- <-
  | mret _ _ = Ok _ => unfold mret, M_ret in H; injection H as <- <-
  | M_rd _ _ _ = Ok _ => apply M_rd_inv in H; destruct H as [-> H]
  | M_alter _ _ _ _ _ = Ok _ => apply M_alter_inv in H; destruct H as [? ->]
  | M_wr _ _ _ _ _ = Ok _ => unfold M_wr in H; apply M_alter_inv in H; destruct H as [? ->]
  | lift ?r _ = Ok _ =>
      let E := fresh "E" in
      unfold lift in H; destruct r eqn:E; [|discriminate H..]; injection H as <- <-
  | panic _ _ = Ok _ => discriminate H
  | fault _ _ = Ok _ => discriminate H
  | hang _ = Ok _ => discriminate H
  | when ?b _ _ = Ok _ => unfold when in H; destruct b eqn:?; mdestruct H
  | (let '(_, _) := ?x in _) _ = Ok _ => destruct x eqn:?; cbv beta in H; mdestruct H
  | (if true then _ else _) _ = Ok _ => cbv iota in H; mdestruct H
  | (if false then _ else _) _ = Ok _ => cbv iota in H; mdestruct H
  | (if ?b then _ else _) _ = Ok _ => destruct b eqn:?; cbv beta in H; mdestruct H
  | _ => idtac
  end.
