(* ===== verification/Ring.v ===== *)
(** * Ring buffers

    The pipe, the console's input buffer and the UART's transmit buffer are
    arrays of [N] bytes indexed by free-running counters modulo [N]; the
    counters wrap around at a multiple of [N]. *)

From S2P Require Import Prelude.

Section ring.
Context (N W : Z) (HN : 0 < N) (HW : exists q, W = N * q) (HW0 : 0 < W).

(** The [k] bytes from counter [a] on. *)
Definition ring (d : list Z) (a k : Z) : list Z :=
  (fun j => d !!! Z.to_nat ((a + j) mod N)) <$> seqZ 0 k.

Lemma mod_ring z : (z mod W) mod N = z mod N.
Proof.
  destruct HW as [q ->]. destruct (Z.eq_dec q 0) as [->|Hq]; [by rewrite Z.mul_0_r, Zmod_0_r|].
  rewrite (Z.mod_eq z (N * q)) by lia.
  replace (z - N * q * (z / (N * q))) with (z + - (q * (z / (N * q))) * N) by lia. apply Z_mod_plus_full.
Qed.

Lemma length_ring d a k : length (ring d a k) = Z.to_nat k.
Proof. unfold ring. by rewrite length_fmap, length_seqZ. Qed.

Lemma ring_nil d a : ring d a 0 = [].
Proof. done. Qed.

(** The start counter matters modulo [N] only. *)
Lemma ring_start d a a' k : a mod N = a' mod N -> ring d a k = ring d a' k.
Proof.
  intros E. unfold ring. apply list_fmap_ext. intros i j _. cbn. do 2 f_equal.
  by rewrite <- (Zplus_mod_idemp_l a), E, Zplus_mod_idemp_l.
Qed.

Lemma ring_wrap d a k : ring d (a mod W) k = ring d a k.
Proof. apply ring_start, mod_ring. Qed.

Lemma ring_app d a k1 k2 : 0 <= k1 -> 0 <= k2 -> ring d a (k1 + k2) = ring d a k1 ++ ring d (a + k1) k2.
Proof.
  intros H1 H2. unfold ring. rewrite seqZ_app by lia. rewrite fmap_app. f_equal. rewrite Z.add_0_l.
  replace (seqZ k1 k2) with (Z.add k1 <$> seqZ 0 k2) by (rewrite fmap_add_seqZ; f_equal; lia).
  rewrite <- list_fmap_compose. apply list_fmap_ext. intros i j _. cbn. do 3 f_equal. lia.
Qed.

Lemma ring_one d a : ring d a 1 = [d !!! Z.to_nat (a mod N)].
Proof. unfold ring. rewrite (seqZ_cons 0) by lia. cbn. by rewrite Z.add_0_r. Qed.

Lemma ring_pop d a k : 0 < k -> ring d a k = d !!! Z.to_nat (a mod N) :: ring d (a + 1) (k - 1).
Proof. intros H. replace k with (1 + (k - 1)) at 1 by lia. by rewrite ring_app, ring_one by lia. Qed.

Lemma ring_last d a k : 0 < k -> ring d a k = ring d a (k - 1) ++ [d !!! Z.to_nat ((a + k - 1) mod N)].
Proof.
  intros H. replace k with ((k - 1) + 1) at 1 by lia. rewrite ring_app, ring_one by lia. do 5 f_equal. lia.
Qed.

Lemma slot_ne a j k : 0 <= j < k -> k < N -> (a + j) mod N <> (a + k) mod N.
Proof.
  intros Hj Hk E.
  assert (H : ((a + k) - (a + j)) mod N = 0) by (rewrite Zminus_mod, E, Z.sub_diag; apply Zmod_0_l).
  replace (a + k - (a + j)) with (k - j) in H by lia. rewrite Z.mod_small in H; lia.
Qed.

Lemma ring_push d a k ch :
  length d = Z.to_nat N -> 0 <= k < N ->
  ring (<[Z.to_nat ((a + k) mod N) := ch]> d) a (k + 1) = ring d a k ++ [ch].
Proof.
  intros Hd Hk. pose proof (Z.mod_pos_bound (a + k) N HN) as Hb.
  rewrite ring_app, ring_one, list_lookup_total_insert_eq by lia. f_equal.
  unfold ring. apply list_fmap_ext. intros i j Hj. apply lookup_seqZ in Hj as [-> Hlt]. cbn.
  rewrite list_lookup_total_insert_ne; [done|]. intros E. symmetry in E.
  apply Z2Nat.inj in E; [|apply Z.mod_pos_bound; done|lia]. revert E. apply slot_ne; lia.
Qed.

(** Two counters and the distance between them. *)
Definition dist (a b : Z) : Z := (b - a) mod W.

Lemma dist_range a b : 0 <= dist a b < W.
Proof. apply Z.mod_pos_bound. done. Qed.

Lemma dist_end a b : 0 <= b < W -> b = (a + dist a b) mod W.
Proof.
  intros Hb. unfold dist. rewrite Zplus_mod_idemp_r. replace (a + (b - a)) with b by lia. by rewrite Z.mod_small.
Qed.

Lemma dist_add a k : 0 <= k < W -> dist a ((a + k) mod W) = k.
Proof.
  intros Hk. unfold dist. rewrite Zminus_mod_idemp_l. replace (a + k - a) with k by lia. by rewrite Z.mod_small.
Qed.

Lemma dist_eq a b k : 0 <= b < W -> 0 <= k < W -> b = (a + k) mod W <-> dist a b = k.
Proof.
  intros Hb Hk. split; [intros ->; by apply dist_add|]. intros <-. by apply dist_end.
Qed.

Lemma dist_inc a b : dist a b + 1 < W -> dist a ((b + 1) mod W) = dist a b + 1.
Proof.
  intros H. pose proof (dist_range a b). unfold dist in *. rewrite Zminus_mod_idemp_l.
  replace (b + 1 - a) with ((b - a) + 1) by lia. rewrite <- Zplus_mod_idemp_l. apply Z.mod_small. lia.
Qed.

Lemma dist_dec a b : 0 < dist a b -> dist a ((b - 1) mod W) = dist a b - 1.
Proof.
  intros H. pose proof (dist_range a b). unfold dist in *. rewrite Zminus_mod_idemp_l.
  replace (b - 1 - a) with ((b - a) - 1) by lia. rewrite <- Zminus_mod_idemp_l. apply Z.mod_small. lia.
Qed.

Lemma dist_start a b : 0 < dist a b -> dist ((a + 1) mod W) b = dist a b - 1.
Proof.
  intros H. pose proof (dist_range a b). unfold dist in *. rewrite Zminus_mod_idemp_r.
  replace (b - (a + 1)) with ((b - a) - 1) by lia. rewrite <- Zminus_mod_idemp_l. apply Z.mod_small. lia.
Qed.

Lemma dist_trans a b c : dist a b + dist b c < W -> dist a c = dist a b + dist b c.
Proof.
  intros H. pose proof (dist_range a b). pose proof (dist_range b c).
  rewrite <- (Z.mod_small (dist a b + dist b c) W) by lia. unfold dist. rewrite <- Zplus_mod. f_equal. lia.
Qed.

(** Three counters in order. *)
Lemma dist_split a b c : dist a b <= dist a c -> dist a c = dist a b + dist b c.
Proof.
  intros H. pose proof (dist_range a b) as H1. pose proof (dist_range a c) as H2. pose proof (dist_range b c) as H3.
  assert (E : dist b c = (dist a c - dist a b) mod W).
  { unfold dist. rewrite <- Zminus_mod. f_equal. lia. }
  rewrite Z.mod_small in E; lia.
Qed.
End ring.
