(* ===== verification/Spinlock.v ===== *)
(** * Spin locks and interrupt nesting (kernel/spinlock.c, intr_* of kernel/riscv.h)

    The functions of spinlock.c on the state of all harts: each hart's [noff],
    [intena] and sstatus register, and every lock's fields.  [c] is the hart
    that runs the code (its [r_tp()], the index of its [struct cpu]).

    The second half is the lock under true concurrency.  [sp_step] cuts
    [acquire] and [release] at every access to a field another hart can write,
    any number of harts run interleaved, and the ghost fields of [sp_sys]
    record what each hart's code believes: the locks it has acquired, and
    whether it wants interrupts outside critical sections. *)

From S2P Require Import Prelude.

Definition SSTATUS_SIE : Z := Z.shiftl 1 1.

Record spinlock : Type := mklk { locked : Z; lk_name : string; lk_cpu : option Z }.

Record cpu : Type := mkcpu { c_proc : option Z; noff : Z; intena : bool; sstatus : Z }.

Definition set_sstatus x c := mkcpu (c_proc c) (noff c) (intena c) x.
Definition set_noff n c := mkcpu (c_proc c) n (intena c) (sstatus c).
Definition set_intena b c := mkcpu (c_proc c) (noff c) b (sstatus c).
Definition set_proc p c := mkcpu p (noff c) (intena c) (sstatus c).

(** Is the interrupt-enable bit of an sstatus value set? *)
Definition sie (x : Z) : bool := negb (Z.land x SSTATUS_SIE =? 0).

Section spinlock.
Context {L : Type} `{EqDecision L}.

Record lst : Type := mklst { cpus : Z -> cpu; locks : L -> spinlock }.

Definition upd_cpu (c : Z) (f : cpu -> cpu) : M lst unit :=
  modify (fun s => mklst (<[c := f (cpus s c)]> (cpus s)) (locks s)).
Definition upd_lk (l : L) (f : spinlock -> spinlock) : M lst unit :=
  modify (fun s => mklst (cpus s) (<[l := f (locks s l)]> (locks s))).

Definition r_sstatus (c : Z) : M lst Z := gets (fun s => sstatus (cpus s c)).
Definition w_sstatus (c x : Z) : M lst unit := upd_cpu c (set_sstatus x).

Definition intr_on (c : Z) : M lst unit :=
  x ← r_sstatus c; w_sstatus c (Z.lor x SSTATUS_SIE).

Definition intr_off (c : Z) : M lst unit :=
  x ← r_sstatus c; w_sstatus c (Z.land x (Z.lnot SSTATUS_SIE)).

Definition intr_get (c : Z) : M lst bool :=
  x ← r_sstatus c; mret (negb (Z.land x SSTATUS_SIE =? 0)).

Definition push_off (c : Z) : M lst unit :=
  old ← intr_get c;
  intr_off c;;
  n ← gets (fun s => noff (cpus s c));
  when (n =? 0) (upd_cpu c (set_intena old));;
  upd_cpu c (fun k => set_noff (noff k + 1) k).

Definition pop_off (c : Z) : M lst unit :=
  i ← intr_get c;
  if i : bool then panic "pop_off - interruptible" else
  n ← gets (fun s => noff (cpus s c));
  if n <? 1 then panic "pop_off" else
  upd_cpu c (fun k => set_noff (noff k - 1) k);;
  k ← gets (fun s => cpus s c);
  when ((noff k =? 0) && intena k) (intr_on c).

(** The accesses to a lock's fields. *)
Definition rd_locked (l : L) : M lst Z := gets (fun s => locked (locks s l)).
Definition rd_cpu (l : L) : M lst (option Z) := gets (fun s => lk_cpu (locks s l)).
Definition wr_cpu (l : L) (c : option Z) : M lst unit :=
  upd_lk l (fun k => mklk (locked k) (lk_name k) c).
Definition sync_lock_test_and_set (l : L) (v : Z) : M lst Z :=
  o ← rd_locked l; upd_lk l (fun k => mklk v (lk_name k) (lk_cpu k));; mret o.
Definition sync_lock_release (l : L) : M lst unit :=
  upd_lk l (fun k => mklk 0 (lk_name k) (lk_cpu k)).

Definition initlock (l : L) (name : string) : M lst unit :=
  upd_lk l (fun _ => mklk 0 name None).

Definition holding (l : L) (c : Z) : M lst bool :=
  x ← rd_locked l;
  if x =? 0 then mret false else
  y ← rd_cpu l; mret (bool_decide (y = Some c)).

Fixpoint acquire_spin (fuel : nat) (l : L) : M lst unit :=
  match fuel with
  | O => hang
  | S k => o ← sync_lock_test_and_set l 1; if o =? 0 then mret tt else acquire_spin k l
  end.

Definition acquire (fuel : nat) (l : L) (c : Z) : M lst unit :=
  push_off c;;
  h ← holding l c;
  if h : bool then panic "acquire" else
  acquire_spin fuel l;;
  wr_cpu l (Some c).

Definition release (l : L) (c : Z) : M lst unit :=
  h ← holding l c;
  if negb h then panic "release" else
  wr_cpu l None;;
  sync_lock_release l;;
  pop_off c.

(** ** Interleaved execution *)

(** Where a hart is: outside, or before an access of [acquire] or [release].
    [AStuck] and [RStuck] are the two panics. *)
Inductive sp_pc : Type :=
| Out
| ALocked (l : L) | ACpu (l : L) | ASwap (l : L) | AOwn (l : L)
| RLocked (l : L) | RCpu (l : L) | RClear (l : L) | RSwap (l : L) | RPop
| AStuck (l : L) | RStuck (l : L).

Definition sp_step (c : Z) (pc : sp_pc) : M lst sp_pc :=
  match pc with
  | Out => mret Out
  | ALocked l => x ← rd_locked l; mret (if x =? 0 then ASwap l else ACpu l)
  | ACpu l => y ← rd_cpu l; mret (if bool_decide (y = Some c) then AStuck l else ASwap l)
  | ASwap l => o ← sync_lock_test_and_set l 1; mret (if o =? 0 then AOwn l else ASwap l)
  | AOwn l => wr_cpu l (Some c);; mret Out
  | RLocked l => x ← rd_locked l; mret (if x =? 0 then RStuck l else RCpu l)
  | RCpu l => y ← rd_cpu l; mret (if bool_decide (y = Some c) then RClear l else RStuck l)
  | RClear l => wr_cpu l None;; mret (RSwap l)
  | RSwap l => sync_lock_release l;; mret RPop
  | RPop => pop_off c;; mret Out
  | AStuck l => mret (AStuck l)
  | RStuck l => mret (RStuck l)
  end.

(** What the hart's code believes it holds, after a step from [pc]. *)
Definition sp_ghost (pc : sp_pc) (held : list L) : list L :=
  match pc with
  | AOwn l => l :: held
  | RSwap l => filter (fun k => k <> l) held
  | _ => held
  end.

Record sp_sys : Type := mksp {
  sp_ls : lst;
  sp_at : Z -> sp_pc;
  sp_held : Z -> list L;
  sp_want : Z -> bool
}.

Inductive sp_sys_step : sp_sys -> sp_sys -> Prop :=
| sp_acquire s at_ held want c l s' : at_ c = Out ->
    push_off c s = Ok (tt, s') ->
    sp_sys_step (mksp s at_ held want) (mksp s' (<[c := ALocked l]> at_) held want)
| sp_release s at_ held want c l : at_ c = Out ->
    sp_sys_step (mksp s at_ held want) (mksp s (<[c := RLocked l]> at_) held want)
| sp_run s at_ held want c pc' s' :
    sp_step c (at_ c) s = Ok (pc', s') ->
    sp_sys_step (mksp s at_ held want)
      (mksp s' (<[c := pc']> at_) (<[c := sp_ghost (at_ c) (held c)]> held) want)
| sp_intr_on s at_ held want c s' : at_ c = Out -> held c = [] ->
    intr_on c s = Ok (tt, s') ->
    sp_sys_step (mksp s at_ held want) (mksp s' at_ held (<[c := true]> want))
| sp_intr_off s at_ held want c s' : at_ c = Out -> held c = [] ->
    intr_off c s = Ok (tt, s') ->
    sp_sys_step (mksp s at_ held want) (mksp s' at_ held (<[c := false]> want)).

(** Every lock initialised, no hart inside a critical section. *)
Definition sp_start (s : sp_sys) : Prop :=
  (forall l, locked (locks (sp_ls s) l) = 0 /\ lk_cpu (locks (sp_ls s) l) = None) /\
  (forall c, sp_at s c = Out /\ sp_held s c = [] /\ noff (cpus (sp_ls s) c) = 0 /\
             sie (sstatus (cpus (sp_ls s) c)) = sp_want s c).

Definition sp_reachable (s : sp_sys) : Prop := exists s0, sp_start s0 /\ rtc sp_sys_step s0 s.

(** [c] has the lock word: from its swap in [acquire] to its swap in [release]. *)
Definition owns_lock (s : sp_sys) (c : Z) (l : L) : Prop := l ∈ sp_held s c \/ sp_at s c = AOwn l.

(** [push_off]s not undone by a lock that is held. *)
Definition pending (pc : sp_pc) : Z :=
  match pc with
  | ALocked _ | ACpu _ | ASwap _ | AOwn _ | AStuck _ | RPop => 1
  | _ => 0
  end.

Definition pc_ok (pc : sp_pc) (held : list L) : Prop :=
  match pc with
  | ASwap l | AOwn l | RStuck l => l ∉ held
  | RClear l | RSwap l | AStuck l => l ∈ held
  | _ => True
  end.

(** The invariant of one hart, then of the locks. *)
Definition hart_ok (k : cpu) (pc : sp_pc) (held : list L) (want : bool) : Prop :=
  NoDup held /\ pc_ok pc held /\ noff k = Z.of_nat (length held) + pending pc /\
  (if noff k =? 0 then sie (sstatus k) = want else sie (sstatus k) = false /\ intena k = want).

Record sp_inv (s : sp_sys) : Prop := {
  sp_hart : forall c, hart_ok (cpus (sp_ls s) c) (sp_at s c) (sp_held s c) (sp_want s c);
  sp_word : forall l, locked (locks (sp_ls s) l) = 0 /\ (forall c, ~ owns_lock s c l) \/
                      locked (locks (sp_ls s) l) = 1 /\ exists c, owns_lock s c l;
  sp_one : forall l c c', owns_lock s c l -> owns_lock s c' l -> c = c';
  sp_cpu : forall l c, lk_cpu (locks (sp_ls s) l) = Some c <->
                       l ∈ sp_held s c /\ sp_at s c <> RSwap l
}.

(** ** The invariant is preserved *)

Lemma sie_on x : sie (Z.lor x SSTATUS_SIE) = true.
Proof.
  unfold sie, SSTATUS_SIE. apply negb_true_iff, Z.eqb_neq. intros E.
  apply (f_equal (fun z => Z.testbit z 1)) in E.
  rewrite Z.land_spec, Z.lor_spec, Z.bits_0 in E. by destruct (Z.testbit x 1).
Qed.

Lemma sie_off x : sie (Z.land x (Z.lnot SSTATUS_SIE)) = false.
Proof.
  unfold sie. rewrite <- Z.land_assoc, (Z.land_comm (Z.lnot _)), Z.land_lnot_diag, Z.land_0_r. done.
Qed.

(** The hart's own part of [push_off] and [pop_off]. *)
Definition pushed (k : cpu) : cpu :=
  mkcpu (c_proc k) (noff k + 1) (if noff k =? 0 then sie (sstatus k) else intena k)
        (Z.land (sstatus k) (Z.lnot SSTATUS_SIE)).

Definition popped (k : cpu) : cpu :=
  mkcpu (c_proc k) (noff k - 1) (intena k)
        (if (noff k - 1 =? 0) && intena k then Z.lor (sstatus k) SSTATUS_SIE else sstatus k).

(** A state with hart [c] replaced, up to the order of the updates. *)
Definition with_cpu (s : lst) (c : Z) (k : cpu) (s' : lst) : Prop :=
  cpus s' c = k /\ (forall c', c' <> c -> cpus s' c' = cpus s c') /\ locks s' = locks s.

Lemma with_cpu_intro s c k : with_cpu s c k (mklst (<[c := k]> (cpus s)) (locks s)).
Proof.
  repeat split; cbn; [apply fn_lookup_insert|]. intros c' ?. by apply fn_lookup_insert_ne.
Qed.

Lemma push_off_run c s : exists s', push_off c s = Ok (tt, s') /\ with_cpu s c (pushed (cpus s c)) s'.
Proof.
  unfold push_off, intr_get, intr_off, r_sstatus, w_sstatus, upd_cpu, when, pushed. mgo.
  cbn [cpus locks]. rewrite !fn_lookup_insert. cbn [set_sstatus noff].
  destruct (noff (cpus s c) =? 0) eqn:E.
  all: eexists; split; [reflexivity|]; repeat split; cbn; intros;
    by rewrite ?fn_lookup_insert, ?fn_lookup_insert_ne.
Qed.

Lemma pop_off_run c s :
  sie (sstatus (cpus s c)) = false -> 1 <= noff (cpus s c) ->
  exists s', pop_off c s = Ok (tt, s') /\ with_cpu s c (popped (cpus s c)) s'.
Proof.
  intros Hi Hn. unfold pop_off, intr_get, intr_on, r_sstatus, w_sstatus, upd_cpu, when, popped. mgo.
  fold (sie (sstatus (cpus s c))). rewrite Hi. mgo. destruct (Z.ltb_spec (noff (cpus s c)) 1); [lia|].
  mgo. cbn [cpus locks]. rewrite !fn_lookup_insert. cbn [set_noff noff intena].
  destruct ((noff (cpus s c) - 1 =? 0) && intena (cpus s c)) eqn:E; mgo.
  all: eexists; split; [reflexivity|]; repeat split; cbn; intros;
    by rewrite ?fn_lookup_insert, ?fn_lookup_insert_ne.
Qed.

Lemma hart_pushed k held want l :
  hart_ok k Out held want -> hart_ok (pushed k) (ALocked l) held want.
Proof.
  intros (Hd & _ & Hn & Hi). unfold hart_ok, pushed. cbn in *. rewrite sie_off.
  repeat split; [done|lia|]. destruct (Z.eqb_spec (noff k + 1) 0); [lia|].
  destruct (noff k =? 0); naive_solver.
Qed.

Lemma hart_popped k held want :
  hart_ok k RPop held want -> hart_ok (popped k) Out held want.
Proof.
  intros (Hd & _ & Hn & Hi). unfold hart_ok, popped. cbn in *.
  destruct (Z.eqb_spec (noff k) 0); [lia|]. destruct Hi as [Hs Hw].
  repeat split; [done|lia|]. destruct (Z.eqb_spec (noff k - 1) 0); cbn; [|done].
  destruct (intena k); [by rewrite sie_on|congruence].
Qed.

(** Everything but hart [c] is as it was. *)
Definition same_harts (c : Z) (s s' : sp_sys) : Prop :=
  forall c', c' <> c -> cpus (sp_ls s') c' = cpus (sp_ls s) c' /\ sp_at s' c' = sp_at s c' /\
    sp_held s' c' = sp_held s c' /\ sp_want s' c' = sp_want s c'.

Lemma inv_hart c s s' :
  sp_inv s -> same_harts c s s' ->
  hart_ok (cpus (sp_ls s') c) (sp_at s' c) (sp_held s' c) (sp_want s' c) ->
  forall c', hart_ok (cpus (sp_ls s') c') (sp_at s' c') (sp_held s' c') (sp_want s' c').
Proof.
  intros I Hs Hc c'. destruct (decide (c' = c)) as [->|Hne]; [done|].
  destruct (Hs c' Hne) as (-> & -> & -> & ->). apply I.
Qed.

Lemma same_owns c s s' c' l : same_harts c s s' -> c' <> c -> owns_lock s' c' l <-> owns_lock s c' l.
Proof. intros Hs Hne. unfold owns_lock. by destruct (Hs c' Hne) as (_ & -> & -> & _). Qed.

(** A step of hart [c] that leaves the lock fields and the locks it has alone. *)
Lemma inv_local c s s' :
  sp_inv s -> same_harts c s s' ->
  (forall l, locks (sp_ls s') l = locks (sp_ls s) l) -> sp_held s' c = sp_held s c ->
  (forall l, sp_at s' c = AOwn l <-> sp_at s c = AOwn l) ->
  (forall l, sp_at s' c = RSwap l <-> sp_at s c = RSwap l) ->
  hart_ok (cpus (sp_ls s') c) (sp_at s' c) (sp_held s' c) (sp_want s' c) -> sp_inv s'.
Proof.
  intros I Hs Hl Hh HA HR Hc.
  assert (Ho : forall c' l, owns_lock s' c' l <-> owns_lock s c' l).
  { intros c' l. destruct (decide (c' = c)) as [->|]; [|by eapply same_owns].
    unfold owns_lock. by rewrite Hh, HA. }
  split.
  - by eapply inv_hart.
  - intros l. rewrite Hl. setoid_rewrite Ho. apply I.
  - intros l c1 c2 H1 H2. rewrite Ho in H1, H2. by eapply I.
  - intros l c'. rewrite Hl. destruct (decide (c' = c)) as [->|Hne].
    + rewrite Hh. rewrite HR. apply I.
    + destruct (Hs c' Hne) as (_ & -> & -> & _). apply I.
Qed.

Lemma filter_notin (l : L) (held : list L) : l ∉ held -> filter (fun k => k <> l) held = held.
Proof.
  induction held as [|x held IH]; [done|]. rewrite not_elem_of_cons. intros [? ?].
  rewrite filter_cons_True by done. by rewrite IH.
Qed.

Lemma filter_out_length (l : L) (held : list L) : NoDup held -> l ∈ held ->
  Z.of_nat (length held) = Z.of_nat (length (filter (fun k => k <> l) held)) + 1.
Proof.
  induction 1 as [|x held Hx Hd IH]; [by intros ?%elem_of_nil|]. intros [<-|Hin]%elem_of_cons.
  - rewrite filter_cons_False by tauto. rewrite filter_notin by done. cbn; lia.
  - rewrite filter_cons_True by (intros ->; done). rewrite !length_cons.
    pose proof (IH Hin). lia.
Qed.

(** The four steps that change a lock. *)
Lemma inv_take c l s s' :
  sp_inv s -> same_harts c s s' -> sp_at s c = ASwap l -> locked (locks (sp_ls s) l) = 0 ->
  cpus (sp_ls s') c = cpus (sp_ls s) c -> sp_at s' c = AOwn l -> sp_held s' c = sp_held s c ->
  sp_want s' c = sp_want s c ->
  locked (locks (sp_ls s') l) = 1 -> (forall l', lk_cpu (locks (sp_ls s') l') = lk_cpu (locks (sp_ls s) l')) ->
  (forall l', l' <> l -> locks (sp_ls s') l' = locks (sp_ls s) l') -> sp_inv s'.
Proof.
  intros I Hs Hpc H0 Hc Ha Hh Hw H1 Hcpu Hl.
  assert (Hno : forall c', ~ owns_lock s c' l).
  { destruct (sp_word _ I l) as [[_ H]|[? _]]; [done|lia]. }
  assert (Ho : forall c' l', owns_lock s' c' l' <-> owns_lock s c' l' \/ c' = c /\ l' = l).
  { intros c' l'. destruct (decide (c' = c)) as [->|]; [|rewrite (same_owns c s s') by done; naive_solver].
    unfold owns_lock. rewrite Hh, Ha, Hpc. naive_solver. }
  split.
  - eapply inv_hart; [done..|]. pose proof (sp_hart _ I c) as Hk. rewrite Hpc in Hk.
    rewrite Hc, Ha, Hh, Hw. exact Hk.
  - intros l'. setoid_rewrite Ho. destruct (decide (l' = l)) as [->|Hne]; [right; split; [done|]; exists c; by right|].
    rewrite (Hl l' Hne). destruct (sp_word _ I l') as [[? H]|[? [c' H]]]; naive_solver.
  - intros l' c1 c2. rewrite !Ho. intros [H1'|[-> ->]] [H2|[-> Hx]]; subst; try done; [by eapply I|..].
    + by apply Hno in H1'.
    + by apply Hno in H2.
  - intros l' c'. rewrite Hcpu, (sp_cpu _ I). destruct (decide (c' = c)) as [->|Hne].
    + rewrite Hh, Ha, Hpc. naive_solver.
    + by destruct (Hs c' Hne) as (_ & -> & -> & _).
Qed.

Lemma lk_inv_own c l s s' :
  sp_inv s -> same_harts c s s' -> sp_at s c = AOwn l ->
  cpus (sp_ls s') c = cpus (sp_ls s) c -> sp_at s' c = Out -> sp_held s' c = l :: sp_held s c ->
  sp_want s' c = sp_want s c ->
  lk_cpu (locks (sp_ls s') l) = Some c -> (forall l', locked (locks (sp_ls s') l') = locked (locks (sp_ls s) l')) ->
  (forall l', l' <> l -> locks (sp_ls s') l' = locks (sp_ls s) l') -> sp_inv s'.
Proof.
  intros I Hs Hpc Hc Ha Hh Hw H1 Hw' Hl.
  assert (Ho : forall c' l', owns_lock s' c' l' <-> owns_lock s c' l').
  { intros c' l'. destruct (decide (c' = c)) as [->|]; [|by eapply same_owns].
    unfold owns_lock. rewrite Hh, Ha, Hpc, elem_of_cons. naive_solver. }
  assert (Hcl : owns_lock s c l) by (by right).
  split.
  - eapply inv_hart; [done..|]. pose proof (sp_hart _ I c) as (Hd & Hp & Hn & Hi). rewrite Hpc in Hp, Hn.
    rewrite Hc, Ha, Hh, Hw. cbn in *. split_and!; [by constructor|done|cbn; lia|done].
  - intros l'. rewrite Hw'. setoid_rewrite Ho. apply I.
  - intros l' c1 c2. rewrite !Ho. apply I.
  - intros l' c'. destruct (decide (l' = l)) as [->|Hne].
    + rewrite H1. split.
      * intros [= <-]. rewrite Hh, Ha. split; [left|done].
      * intros [Hin _]. f_equal. apply (sp_one _ I l); [done|]. rewrite <- Ho. by left.
    + rewrite (Hl l' Hne), (sp_cpu _ I). destruct (decide (c' = c)) as [->|Hne'].
      * rewrite Hh, Ha, Hpc, elem_of_cons. naive_solver.
      * by destruct (Hs c' Hne') as (_ & -> & -> & _).
Qed.

Lemma inv_clear c l s s' :
  sp_inv s -> same_harts c s s' -> sp_at s c = RClear l ->
  cpus (sp_ls s') c = cpus (sp_ls s) c -> sp_at s' c = RSwap l -> sp_held s' c = sp_held s c ->
  sp_want s' c = sp_want s c ->
  lk_cpu (locks (sp_ls s') l) = None -> (forall l', locked (locks (sp_ls s') l') = locked (locks (sp_ls s) l')) ->
  (forall l', l' <> l -> locks (sp_ls s') l' = locks (sp_ls s) l') -> sp_inv s'.
Proof.
  intros I Hs Hpc Hc Ha Hh Hw H1 Hw' Hl.
  assert (Ho : forall c' l', owns_lock s' c' l' <-> owns_lock s c' l').
  { intros c' l'. destruct (decide (c' = c)) as [->|]; [|by eapply same_owns].
    unfold owns_lock. rewrite Hh, Ha, Hpc. naive_solver. }
  pose proof (sp_hart _ I c) as Hk. rewrite Hpc in Hk.
  assert (Hcl : owns_lock s c l) by (left; apply Hk).
  split.
  - eapply inv_hart; [done..|]. rewrite Hc, Ha, Hh, Hw. exact Hk.
  - intros l'. rewrite Hw'. setoid_rewrite Ho. apply I.
  - intros l' c1 c2. rewrite !Ho. apply I.
  - intros l' c'. destruct (decide (l' = l)) as [->|Hne].
    + rewrite H1. split; [done|]. intros [Hin Hat].
      assert (c' = c) as -> by (apply (sp_one _ I l); [rewrite <- Ho; by left|done]). congruence.
    + rewrite (Hl l' Hne), (sp_cpu _ I). destruct (decide (c' = c)) as [->|Hne'].
      * rewrite Hh, Ha, Hpc. naive_solver.
      * by destruct (Hs c' Hne') as (_ & -> & -> & _).
Qed.

Lemma inv_free c l s s' :
  sp_inv s -> same_harts c s s' -> sp_at s c = RSwap l ->
  cpus (sp_ls s') c = cpus (sp_ls s) c -> sp_at s' c = RPop ->
  sp_held s' c = filter (fun k => k <> l) (sp_held s c) -> sp_want s' c = sp_want s c ->
  locked (locks (sp_ls s') l) = 0 -> (forall l', lk_cpu (locks (sp_ls s') l') = lk_cpu (locks (sp_ls s) l')) ->
  (forall l', l' <> l -> locks (sp_ls s') l' = locks (sp_ls s) l') -> sp_inv s'.
Proof.
  intros I Hs Hpc Hc Ha Hh Hw H0 Hcpu Hl.
  pose proof (sp_hart _ I c) as (Hd & Hp & Hn & Hi). rewrite Hpc in Hp, Hn. cbn in Hp, Hn.
  assert (Hcl : owns_lock s c l) by (by left).
  assert (Ho : forall c' l', owns_lock s' c' l' <-> owns_lock s c' l' /\ l' <> l).
  { intros c' l'. destruct (decide (c' = c)) as [->|].
    - unfold owns_lock. rewrite Hh, Ha, Hpc, list_elem_of_filter. naive_solver.
    - rewrite (same_owns c s s') by done. split; [|by intros []]. intros H. split; [done|].
      intros ->. assert (c' = c) by (by eapply (sp_one _ I l)). done. }
  split.
  - eapply inv_hart; [done..|]. rewrite Hc, Ha, Hh, Hw. cbn.
    assert (Hlen : Z.of_nat (length (sp_held s c)) = Z.of_nat (length (filter (fun k => k <> l) (sp_held s c))) + 1).
    { apply (filter_out_length _ _ Hd Hp). }
    split_and!; [by apply list.NoDup_filter|done|cbn; lia|done].
  - intros l'. setoid_rewrite Ho. destruct (decide (l' = l)) as [->|Hne]; [left; naive_solver|].
    rewrite (Hl l' Hne). destruct (sp_word _ I l') as [[? H]|[? [c' H]]]; naive_solver.
  - intros l' c1 c2. rewrite !Ho. intros [? _] [? _]. by eapply I.
  - intros l' c'. rewrite Hcpu, (sp_cpu _ I). destruct (decide (c' = c)) as [->|Hne].
    + rewrite Hh, Ha, Hpc, list_elem_of_filter. naive_solver.
    + by destruct (Hs c' Hne) as (_ & -> & -> & _).
Qed.

Lemma same_harts_intro c s s' at_ held want pc h :
  (forall c', c' <> c -> cpus s' c' = cpus s c') ->
  same_harts c (mksp s at_ held want) (mksp s' (<[c := pc]> at_) (<[c := h]> held) want).
Proof. intros H c' Hne. cbn. by rewrite !fn_lookup_insert_ne, H. Qed.

Lemma same_harts_pc c s s' at_ held want pc :
  (forall c', c' <> c -> cpus s' c' = cpus s c') ->
  same_harts c (mksp s at_ held want) (mksp s' (<[c := pc]> at_) held want).
Proof. intros H c' Hne. cbn. by rewrite !fn_lookup_insert_ne, H. Qed.

(** A step that changes no lock field, no hart field and no ownership. *)
Lemma inv_move c ls ls' at_ held want pc :
  sp_inv (mksp ls at_ held want) -> ls' = ls -> (forall l, pc <> AOwn l /\ pc <> RSwap l) ->
  (forall l, at_ c <> AOwn l /\ at_ c <> RSwap l) ->
  pc_ok pc (held c) -> pending pc = pending (at_ c) ->
  sp_inv (mksp ls' (<[c := pc]> at_) (<[c := held c]> held) want).
Proof.
  intros I -> Hp Ha Hok Hpe. eapply (inv_local c); [done|by apply same_harts_intro|done|..]; cbn.
  - apply fn_lookup_insert.
  - intros l. rewrite fn_lookup_insert. split; intros E; exfalso; [by destruct (Hp l)|by destruct (Ha l)].
  - intros l. rewrite fn_lookup_insert. split; intros E; exfalso; [by destruct (Hp l)|by destruct (Ha l)].
  - rewrite !fn_lookup_insert. pose proof (sp_hart _ I c) as (Hd & _ & Hn & Hi). cbn in *.
    rewrite <- Hpe in Hn. done.
Qed.

Lemma inv_spin c l ls at_ held want :
  sp_inv (mksp ls at_ held want) -> at_ c = ASwap l -> locked (locks ls l) <> 0 ->
  sp_inv (mksp (mklst (cpus ls) (<[l := mklk 1 (lk_name (locks ls l)) (lk_cpu (locks ls l))]> (locks ls)))
               (<[c := ASwap l]> at_) (<[c := held c]> held) want).
Proof.
  intros I Hpc H1. eapply (inv_local c); [done|by apply same_harts_intro|..]; cbn; rewrite ?fn_lookup_insert; [|done| | |].
  - intros l'. destruct (decide (l' = l)) as [->|]; [|by rewrite fn_lookup_insert_ne].
    rewrite fn_lookup_insert. destruct (sp_word _ I l) as [[? _]|[E _]]; [done|]. cbn in E.
    destruct (locks ls l) as [w n k]; cbn in *. by subst w.
  - intros l'. by rewrite Hpc.
  - intros l'. by rewrite Hpc.
  - pose proof (sp_hart _ I c) as Hk. cbn in Hk. by rewrite Hpc in Hk.
Qed.

(** The lock fields after an update of [l]. *)
#[local] Ltac at_lock l := intros l'; cbn; destruct (decide (l' = l)) as [->|?];
  [rewrite ?fn_lookup_insert|rewrite ?fn_lookup_insert_ne by done]; done.

Lemma sp_run_inv c ls at_ held want pc' ls' :
  sp_inv (mksp ls at_ held want) -> sp_step c (at_ c) ls = Ok (pc', ls') ->
  sp_inv (mksp ls' (<[c := pc']> at_) (<[c := sp_ghost (at_ c) (held c)]> held) want).
Proof.
  intros I H. pose proof (sp_hart _ I c) as (Hd & Hp & Hn & Hi). cbn in Hd, Hp, Hn, Hi.
  destruct (at_ c) as [|l|l|l|l|l|l|l|l| |l|l] eqn:Hpc; cbn in H, Hp, Hn |- *.
  - mdestruct H. eapply inv_move; [exact I|..]; rewrite ?Hpc; done.
  - unfold rd_locked in H. mdestruct H. eapply inv_move; [exact I|..]; rewrite ?Hpc; try done; destruct (Z.eqb_spec (locked (locks ls l)) 0); try done.
    cbn. destruct (sp_word _ I l) as [[_ Hno]|[? _]]; [|cbn in *; lia]. intros Hin. apply (Hno c). by left.
  - unfold rd_cpu in H. mdestruct H. eapply inv_move; [exact I|..]; rewrite ?Hpc; try done; case_bool_decide as E; try done; cbn.
    + by apply (sp_cpu _ I l c) in E as [? _].
    + intros Hin. apply E, (sp_cpu _ I l c). cbn. by rewrite Hpc.
  - unfold sync_lock_test_and_set, rd_locked, upd_lk in H. mdestruct H. destruct (Z.eqb_spec (locked (locks ls l)) 0).
    + eapply (inv_take c l); [done|by apply same_harts_intro|done..| | | | | | |]; cbn; rewrite ?fn_lookup_insert; try done; at_lock l.
    + by apply inv_spin.
  - unfold wr_cpu, upd_lk in H. mdestruct H.
    eapply (lk_inv_own c l); [done|by apply same_harts_intro|done..| | | | | |]; cbn; rewrite ?fn_lookup_insert; try done; at_lock l.
  - unfold rd_locked in H. mdestruct H. eapply inv_move; [exact I|..]; rewrite ?Hpc; try done; destruct (Z.eqb_spec (locked (locks ls l)) 0); try done.
    cbn. destruct (sp_word _ I l) as [[_ Hno]|[? _]]; [|cbn in *; lia]. intros Hin. apply (Hno c). by left.
  - unfold rd_cpu in H. mdestruct H. eapply inv_move; [exact I|..]; rewrite ?Hpc; try done; case_bool_decide as E; try done; cbn.
    + by apply (sp_cpu _ I l c) in E as [? _].
    + intros Hin. apply E, (sp_cpu _ I l c). cbn. by rewrite Hpc.
  - unfold wr_cpu, upd_lk in H. mdestruct H.
    eapply (inv_clear c l); [done|by apply same_harts_intro|done..| | | | | |]; cbn; rewrite ?fn_lookup_insert; try done; at_lock l.
  - unfold sync_lock_release, upd_lk in H. mdestruct H.
    eapply (inv_free c l); [done|by apply same_harts_intro|done..| | | | | |]; cbn; rewrite ?fn_lookup_insert; try done; at_lock l.
  - apply M_bind_inv in H as (? & ? & H & H'). mdestruct H'. destruct (Z.eqb_spec (noff (cpus ls c)) 0); [lia|].
    destruct (pop_off_run c ls) as (s1 & E & Hc & Ho & Hl); [tauto|lia|]. rewrite E in H. injection H as <- <-.
    eapply (inv_local c); [done|by apply same_harts_intro|..]; cbn; rewrite ?fn_lookup_insert; rewrite ?Hpc; try done.
    + by rewrite Hl.
    + rewrite Hc. apply hart_popped. pose proof (sp_hart _ I c) as Hk. cbn in Hk. by rewrite Hpc in Hk.
  - mdestruct H. eapply inv_move; [exact I|..]; rewrite ?Hpc; done.
  - mdestruct H. eapply inv_move; [exact I|..]; rewrite ?Hpc; done.
Qed.

Lemma lk_inv_intr c b ls ls' at_ held want x :
  sp_inv (mksp ls at_ held want) -> at_ c = Out -> held c = [] ->
  with_cpu ls c (set_sstatus x (cpus ls c)) ls' -> sie x = b ->
  sp_inv (mksp ls' at_ held (<[c := b]> want)).
Proof.
  intros I Ha Hh (Hc & Ho & Hl) Hx. eapply (inv_local c); [done|..]; cbn; try done.
  - intros c' Hne. cbn. by rewrite fn_lookup_insert_ne, Ho.
  - by rewrite Hl.
  - pose proof (sp_hart _ I c) as (Hd & Hp & Hn & _). cbn in *. rewrite Hc, fn_lookup_insert, Ha, Hh in *.
    split_and!; [done..|]. cbn in *. by rewrite Hn.
Qed.

Lemma sp_step_inv s s' : sp_sys_step s s' -> sp_inv s -> sp_inv s'.
Proof.
  destruct 1 as [ls at_ held want c l ls' Ha H|ls at_ held want c l Ha|ls at_ held want c pc' ls' H
                |ls at_ held want c ls' Ha Hh H|ls at_ held want c ls' Ha Hh H]; intros I.
  - destruct (push_off_run c ls) as (s1 & E & Hc & Ho & Hl). rewrite E in H. injection H as <-.
    eapply (inv_local c); [done|by apply same_harts_pc|..]; cbn; rewrite ?fn_lookup_insert, ?Ha; try done.
    + by rewrite Hl.
    + rewrite Hc. apply hart_pushed. pose proof (sp_hart _ I c) as Hk. cbn in Hk. by rewrite Ha in Hk.
  - eapply (inv_local c); [done|by apply same_harts_pc|..]; cbn; rewrite ?fn_lookup_insert, ?Ha; try done.
    pose proof (sp_hart _ I c) as Hk. cbn in Hk. by rewrite Ha in Hk.
  - by eapply sp_run_inv.
  - injection H as <-.
    eapply lk_inv_intr; [done..|apply with_cpu_intro|apply sie_on].
  - injection H as <-.
    eapply lk_inv_intr; [done..|apply with_cpu_intro|apply sie_off].
Qed.

Lemma sp_reachable_inv s : sp_reachable s -> sp_inv s.
Proof.
  intros (s0 & [Hl Hc] & Hs). assert (I : sp_inv s0).
  { assert (Hno : forall c l, ~ owns_lock s0 c l).
    { intros c l. destruct (Hc c) as (Ha & Hh & _). unfold owns_lock. rewrite Ha, Hh, elem_of_nil. naive_solver. }
    split.
    - intros c. destruct (Hc c) as (-> & -> & Hn & Hi). unfold hart_ok. rewrite Hn. cbn.
      split_and!; [constructor|done..].
    - intros l. left. split; [apply Hl|]. auto.
    - intros l c c' H. by apply Hno in H.
    - intros l c. destruct (Hl l) as [_ ->]. split; [done|]. intros [H _]. exfalso. apply (Hno c l). by left. }
  clear -Hs I. induction Hs as [|? ? ? H _ IH]; [done|]. apply IH. by eapply sp_step_inv.
Qed.

Lemma sp_step_total s c : sp_inv s -> is_ok (sp_step c (sp_at s c) (sp_ls s)) = true.
Proof.
  intros I. pose proof (sp_hart _ I c) as (_ & _ & Hn & Hi). destruct (sp_at s c) eqn:Ha; try done.
  cbn in Hn |- *. destruct (Z.eqb_spec (noff (cpus (sp_ls s) c)) 0); [lia|].
  destruct (pop_off_run c (sp_ls s)) as (s1 & E & _); [tauto|lia|]. by mrun E.
Qed.

Lemma holding_exact s c l : sp_inv s -> sp_at s c <> RSwap l ->
  holding l c (sp_ls s) = Ok (bool_decide (l ∈ sp_held s c), sp_ls s).
Proof.
  intros I Hne. unfold holding, rd_locked, rd_cpu. mgo.
  destruct (Z.eqb_spec (locked (locks (sp_ls s) l)) 0) as [E|E].
  - rewrite bool_decide_eq_false_2; [done|]. intros Hin.
    destruct (sp_word _ I l) as [[_ Hno]|[? _]]; [|lia]. apply (Hno c). by left.
  - mgo. unfold mret, M_ret. f_equal. f_equal. apply bool_decide_ext. rewrite (sp_cpu _ I). tauto.
Qed.

(** One step of hart [c] of the interleaved system. *)
Lemma run_one c ls at_ held want pc pc' ls' :
  at_ c = pc -> sp_step c pc ls = Ok (pc', ls') ->
  sp_sys_step (mksp ls at_ held want)
    (mksp ls' (<[c := pc']> at_) (<[c := sp_ghost pc (held c)]> held) want).
Proof. intros <-. apply sp_run. Qed.

(** Hart [c] has acquired or released locks; the rest is as it was. *)
Definition hart_moved (c : Z) (held : list L) (s s' : sp_sys) : Prop :=
  rtc sp_sys_step s s' /\ sp_at s' c = Out /\ sp_held s' c = held /\ same_harts c s s' /\
  sp_want s' c = sp_want s c /\ c_proc (cpus (sp_ls s') c) = c_proc (cpus (sp_ls s) c).

(** [acquire] of a free lock is a run of these steps, and so is [release]. *)
Lemma acquire_steps s c l :
  sp_inv s -> sp_at s c = Out -> locked (locks (sp_ls s) l) = 0 ->
  exists s', acquire 1 l c (sp_ls s) = Ok (tt, sp_ls s') /\ hart_moved c (l :: sp_held s c) s s'.
Proof.
  destruct s as [ls at_ held want]. intros I Ha H0. cbn in Ha, H0.
  destruct (push_off_run c ls) as (s1 & E & Hc & Ho & Hl).
  eexists. split; [|split; [|split_and!]].
  - unfold acquire. mrun E. unfold holding, rd_locked. mgo. rewrite Hl, H0. cbn [Z.eqb]. mgo.
    cbn [acquire_spin]. unfold sync_lock_test_and_set, rd_locked, upd_lk. mgo. rewrite Hl, H0. cbn [Z.eqb]. mgo.
    instantiate (1 := mksp _ _ _ _). reflexivity.
  - eapply rtc_l; [by eapply sp_acquire|].
    eapply rtc_l; [eapply (run_one c _ _ _ _ (ALocked l) (ASwap l)); [apply fn_lookup_insert|]; cbn [sp_step]; unfold rd_locked; by rewrite M_bind_gets, Hl, H0|].
    eapply rtc_l; [eapply (run_one c _ _ _ _ (ASwap l) (AOwn l)); [apply fn_lookup_insert|]; cbn [sp_step]; unfold sync_lock_test_and_set, rd_locked, upd_lk;
      mgo; by rewrite Hl, H0|].
    eapply rtc_l; [eapply (run_one c _ _ _ _ (AOwn l) Out); [apply fn_lookup_insert|reflexivity]|]. apply rtc_refl.
  - cbn. by rewrite !fn_lookup_insert.
  - cbn. by rewrite !fn_lookup_insert.
  - intros c' Hne. cbn. rewrite !fn_lookup_insert_ne by done. split_and!; [by apply Ho|done..].
  - done.
  - cbn. rewrite Hc. done.
Qed.

Lemma release_steps s c l :
  sp_inv s -> sp_at s c = Out -> l ∈ sp_held s c ->
  exists s', release l c (sp_ls s) = Ok (tt, sp_ls s') /\ hart_moved c (filter (fun k => k <> l) (sp_held s c)) s s'.
Proof.
  intros I Ha Hin. pose proof (holding_exact s c l I) as Hh. rewrite Ha, bool_decide_eq_true_2 in Hh by done.
  specialize (Hh ltac:(done)). pose proof (sp_hart _ I c) as (_ & _ & Hn & Hi). rewrite Ha in Hn. cbn in Hn.
  assert (Hlen : 1 <= noff (cpus (sp_ls s) c)).
  { destruct (sp_held s c) as [|? k]; [by apply elem_of_nil in Hin|]. rewrite Hn. cbn. lia. }
  destruct (Z.eqb_spec (noff (cpus (sp_ls s) c)) 0); [lia|]. destruct Hi as [Hi _].
  assert (Hw : locked (locks (sp_ls s) l) <> 0).
  { destruct (sp_word _ I l) as [[_ Hno]|[-> _]]; [|done]. exfalso. apply (Hno c). by left. }
  assert (Hk : lk_cpu (locks (sp_ls s) l) = Some c) by (apply (sp_cpu _ I); by rewrite Ha).
  destruct s as [ls at_ held want]. cbn [sp_ls sp_at sp_held sp_want] in *.
  set (s1 := mklst (cpus ls) (<[l := mklk (locked (locks ls l)) (lk_name (locks ls l)) None]> (locks ls))).
  set (s2 := mklst (cpus ls) (<[l := mklk 0 (lk_name (locks s1 l)) (lk_cpu (locks s1 l))]> (locks s1))).
  destruct (pop_off_run c s2) as (s3 & E & Hs); [done|done|].
  eexists. split; [|split; [|split_and!]].
  - unfold release. mrun Hh. cbn [negb]. unfold wr_cpu, sync_lock_release, upd_lk. mgo.
    match goal with |- pop_off c ?x = _ => change x with s2 end. rewrite E. instantiate (1 := mksp _ _ _ _). reflexivity.
  - eapply rtc_l; [by eapply (sp_release _ _ _ _ c l)|].
    eapply rtc_l; [eapply (run_one c _ _ _ _ (RLocked l) (RCpu l)); [apply fn_lookup_insert|]; cbn [sp_step]; unfold rd_locked; rewrite M_bind_gets;
      by destruct (Z.eqb_spec (locked (locks ls l)) 0)|].
    eapply rtc_l; [eapply (run_one c _ _ _ _ (RCpu l) (RClear l)); [apply fn_lookup_insert|]; cbn [sp_step]; unfold rd_cpu; rewrite M_bind_gets, Hk;
      by rewrite bool_decide_eq_true_2|].
    eapply rtc_l; [eapply (run_one c _ _ _ _ (RClear l) (RSwap l)); [apply fn_lookup_insert|reflexivity]|].
    eapply rtc_l; [eapply (run_one c _ _ _ _ (RSwap l) RPop); [apply fn_lookup_insert|reflexivity]|].
    eapply rtc_l; [eapply (run_one c _ _ _ _ RPop Out); [apply fn_lookup_insert|cbn [sp_step]; by mrun E]|]. apply rtc_refl.
  - cbn. by rewrite !fn_lookup_insert.
  - cbn. by rewrite !fn_lookup_insert.
  - intros c' Hne. cbn. rewrite !fn_lookup_insert_ne by done. split_and!; [by apply Hs|done..].
  - done.
  - cbn. rewrite (proj1 Hs). done.
Qed.

(** C17: In every interleaving of any number of harts: at most one hart is
    between the return of [acquire(l)] and its [release(l)]; [holding] tells a
    hart exactly the locks it has, so the two panics are calls that acquire a
    lock the hart has or release one it has not; interrupts are off on a hart
    that holds a lock and are what its code asked for when it holds none; no
    step fails; and [acquire] of a free lock and [release] of a held one, run
    as functions, are runs of those steps. *)
Theorem spinlock_correct s (Hr : sp_reachable s) :
  (forall l c c', l ∈ sp_held s c -> l ∈ sp_held s c' -> c = c') /\
  (forall l c, sp_at s c = Out -> holding l c (sp_ls s) = Ok (bool_decide (l ∈ sp_held s c), sp_ls s)) /\
  (forall l c, (sp_at s c = AStuck l -> l ∈ sp_held s c) /\ (sp_at s c = RStuck l -> l ∉ sp_held s c)) /\
  (forall c, sp_held s c <> [] -> sie (sstatus (cpus (sp_ls s) c)) = false) /\
  (forall c, sp_at s c = Out -> sp_held s c = [] ->
     noff (cpus (sp_ls s) c) = 0 /\ sie (sstatus (cpus (sp_ls s) c)) = sp_want s c) /\
  (forall c, is_ok (sp_step c (sp_at s c) (sp_ls s)) = true) /\
  (forall c l, sp_at s c = Out -> locked (locks (sp_ls s) l) = 0 ->
     exists s', acquire 1 l c (sp_ls s) = Ok (tt, sp_ls s') /\ rtc sp_sys_step s s' /\
       sp_at s' c = Out /\ sp_held s' c = l :: sp_held s c) /\
  (forall c l, sp_at s c = Out -> l ∈ sp_held s c ->
     exists s', release l c (sp_ls s) = Ok (tt, sp_ls s') /\ rtc sp_sys_step s s' /\
       sp_at s' c = Out /\ sp_held s' c = filter (fun k => k <> l) (sp_held s c)).
Proof.
  apply sp_reachable_inv in Hr as I. split_and!.
  - intros l c c' H H'. apply (sp_one _ I l); by left.
  - intros l c Ha. apply holding_exact; [done|]. by rewrite Ha.
  - intros l c. pose proof (sp_hart _ I c) as (_ & Hp & _). split; intros E; by rewrite E in Hp.
  - intros c Hh. pose proof (sp_hart _ I c) as (_ & _ & Hn & Hi).
    destruct (Z.eqb_spec (noff (cpus (sp_ls s) c)) 0) as [E|]; [|tauto].
    destruct (sp_held s c); [done|]. cbn in Hn. destruct (sp_at s c); cbn in Hn; lia.
  - intros c Ha Hh. pose proof (sp_hart _ I c) as (_ & _ & Hn & Hi). rewrite Ha, Hh in Hn. cbn in Hn.
    rewrite Hn in Hi. done.
  - intros c. by apply sp_step_total.
  - intros c l Ha Hl. destruct (acquire_steps s c l I Ha Hl) as (s' & E & R & A & H & _). eauto.
  - intros c l Ha Hl. destruct (release_steps s c l I Ha Hl) as (s' & E & R & A & H & _). eauto.
Qed.

(** ** Locks between steps

    For code that is cut at its calls of [acquire] and [release]: the state
    of the locks is given by the list of locks each hart holds. *)
Definition lockinv (ls : lst) (h : Z -> list L) : Prop :=
  exists want, sp_inv (mksp ls (fun _ => Out) h want).

Lemma sp_inv_ext ls ls' at1 at2 h h' want want' :
  (forall c, cpus ls' c = cpus ls c) -> locks ls' = locks ls ->
  (forall c, at2 c = at1 c) -> (forall c, h' c ≡ₚ h c) -> (forall c, want' c = want c) ->
  sp_inv (mksp ls at1 h want) -> sp_inv (mksp ls' at2 h' want').
Proof.
  intros Hc Hl Ha Hh Hw I.
  assert (Ho : forall c l, owns_lock (mksp ls' at2 h' want') c l <-> owns_lock (mksp ls at1 h want) c l).
  { intros c l. unfold owns_lock. cbn. by rewrite Ha, Hh. }
  split; cbn.
  - intros c. rewrite Hc, Ha, Hw. destruct (sp_hart _ I c) as (Hd & Hp & Hn & Hi). cbn in *.
    split; [by rewrite Hh|]. split; [|by rewrite Hh].
    destruct (at1 c); cbn in *; try done; by rewrite Hh.
  - intros l. rewrite Hl. setoid_rewrite Ho. apply (sp_word _ I).
  - intros l c c'. rewrite !Ho. apply (sp_one _ I).
  - intros l c. rewrite Hl, Ha, Hh. apply (sp_cpu _ I).
Qed.

Lemma lockinv_perm ls h h' : (forall c, h' c ≡ₚ h c) -> lockinv ls h -> lockinv ls h'.
Proof. intros Hh [want I]. exists want. by eapply sp_inv_ext, I. Qed.

(** What a change of the locks leaves alone. *)
Definition same_procs (ls ls' : lst) : Prop := forall c, c_proc (cpus ls' c) = c_proc (cpus ls c).

Lemma lockinv_moved c held ls h want s' :
  sp_inv (mksp ls (fun _ => Out) h want) -> hart_moved c held (mksp ls (fun _ => Out) h want) s' ->
  lockinv (sp_ls s') (<[c := held]> h) /\ same_procs ls (sp_ls s').
Proof.
  intros I (R & Ha & Hh & Hs & Hw & Hp).
  assert (I' : sp_inv s') by (clear -I R; induction R; eauto using sp_step_inv).
  destruct s' as [ls' at' h' want']. cbn in *. split.
  - exists want'. eapply sp_inv_ext, I'; try done.
    + intros c'. destruct (decide (c' = c)) as [->|Hne]; [by rewrite Ha|]. destruct (Hs c' Hne) as (_ & E & _). by cbn in E.
    + intros c'. destruct (decide (c' = c)) as [->|Hne]; [by rewrite fn_lookup_insert, Hh|].
      rewrite fn_lookup_insert_ne by done. destruct (Hs c' Hne) as (_ & _ & E & _). cbn in E. by rewrite E.
  - intros c'. destruct (decide (c' = c)) as [->|Hne]; [done|]. destruct (Hs c' Hne) as (E & _). cbn in E. by rewrite E.
Qed.

Lemma lockinv_word ls h l : lockinv ls h ->
  locked (locks ls l) = 0 /\ (forall c, l ∉ h c) \/ locked (locks ls l) = 1 /\ exists c, l ∈ h c.
Proof.
  intros [want I]. destruct (sp_word _ I l) as [[H Ho]|[H [c Ho]]]; [left|right]; (split; [done|]).
  - intros c Hin. apply (Ho c). by left.
  - exists c. by destruct Ho.
Qed.

Lemma lockinv_one ls h l c c' : lockinv ls h -> l ∈ h c -> l ∈ h c' -> c = c'.
Proof. intros [want I] H H'. apply (sp_one _ I l); by left. Qed.

Lemma lockinv_NoDup ls h c : lockinv ls h -> NoDup (h c).
Proof. intros [want I]. apply (sp_hart _ I c). Qed.

Lemma lockinv_noff ls h c : lockinv ls h -> noff (cpus ls c) = Z.of_nat (length (h c)).
Proof. intros [want I]. destruct (sp_hart _ I c) as (_ & _ & H & _). cbn in H. lia. Qed.

Lemma lockinv_sie ls h c : lockinv ls h -> h c <> [] -> sie (sstatus (cpus ls c)) = false.
Proof.
  intros [want I] Hne. destruct (sp_hart _ I c) as (_ & _ & Hn & Hi). cbn in *.
  destruct (h c); [done|]. destruct (Z.eqb_spec (noff (cpus ls c)) 0); [cbn in Hn; lia|]. tauto.
Qed.

Lemma lockinv_holding ls h l c : lockinv ls h -> holding l c ls = Ok (bool_decide (l ∈ h c), ls).
Proof. intros [want I]. by apply (holding_exact _ c l I). Qed.

(** Three outcomes of an attempt at a lock: taken, busy, already held. *)
Lemma lockinv_acquire ls h l c : lockinv ls h ->
  match acquire 1 l c ls with
  | Ok (_, ls') => lockinv ls' (<[c := l :: h c]> h) /\ same_procs ls ls' /\ (forall c', l ∉ h c')
  | Hang => exists c', l ∈ h c'
  | Panic _ => l ∈ h c
  | Fault _ => False
  end.
Proof.
  intros Hi. destruct (lockinv_word ls h l Hi) as [[H0 Hno]|[H1 Hin]].
  - destruct Hi as [want I]. destruct (acquire_steps (mksp ls (fun _ => Out) h want) c l I eq_refl H0) as (s' & E & Hm).
    cbn in E. rewrite E. destruct (lockinv_moved _ _ _ _ _ _ I Hm). done.
  - unfold acquire. destruct (push_off_run c ls) as (s1 & E & _ & _ & Hl). mrun E.
    pose proof (lockinv_holding ls h l c Hi) as Hh. unfold holding, rd_locked, rd_cpu in Hh |- *. mgo.
    rewrite Hl, H1. rewrite M_bind_gets, H1 in Hh. cbn [Z.eqb] in *. mgo. rewrite Hl. rewrite M_bind_gets in Hh.
    injection Hh as ->. case_bool_decide as Hd; [done|].
    cbn [acquire_spin]. unfold sync_lock_test_and_set, rd_locked, upd_lk. mgo. rewrite Hl, H1. done.
Qed.

Lemma lockinv_release ls h l c rest : lockinv ls h -> h c ≡ₚ l :: rest ->
  exists ls', release l c ls = Ok (tt, ls') /\ lockinv ls' (<[c := rest]> h) /\ same_procs ls ls'.
Proof.
  intros [want I] Hp. assert (Hd : NoDup (h c)) by (apply (sp_hart _ I c)).
  destruct (release_steps (mksp ls (fun _ => Out) h want) c l I eq_refl) as (s' & E & Hm).
  { cbn. rewrite Hp. by left. }
  cbn in E. destruct (lockinv_moved _ _ _ _ _ _ I Hm) as [Hi Hs]. exists (sp_ls s'). split_and!; [done| |done].
  eapply lockinv_perm, Hi. intros c'. destruct (decide (c' = c)) as [->|Hne]; [|by rewrite !fn_lookup_insert_ne].
  rewrite !fn_lookup_insert. cbn. rewrite Hp in Hd |- *. apply list.NoDup_cons in Hd as [Hl _].
  rewrite filter_cons_False by tauto. by rewrite filter_notin.
Qed.

(** Changes of a hart's own fields. *)
Lemma lockinv_cpu ls h c f :
  (forall k, noff (f k) = noff k /\ sstatus (f k) = sstatus k) -> h c <> [] -> lockinv ls h ->
  exists ls', upd_cpu c f ls = Ok (tt, ls') /\ lockinv ls' h /\ ls' = mklst (<[c := f (cpus ls c)]> (cpus ls)) (locks ls).
Proof.
  intros Hf Hne [want I]. eexists. split_and!; [reflexivity| |reflexivity].
  exists (<[c := intena (f (cpus ls c))]> want). eapply (inv_local c); [exact I|..]; cbn; try done.
  - intros c' Hn. cbn. by rewrite !fn_lookup_insert_ne.
  - rewrite !fn_lookup_insert. destruct (Hf (cpus ls c)) as [H1 H2].
    destruct (sp_hart _ I c) as (Hd & Hp & Hn & Hi). cbn in *. unfold hart_ok. rewrite H1, H2. cbn.
    split_and!; [done..|]. destruct (Z.eqb_spec (noff (cpus ls c)) 0); [|tauto]. destruct (h c); [done|cbn in Hn; lia].
Qed.

Lemma lockinv_pushpop ls h c : lockinv ls h ->
  exists ls1 ls2, push_off c ls = Ok (tt, ls1) /\ pop_off c ls1 = Ok (tt, ls2) /\
    lockinv ls2 h /\ same_procs ls ls1 /\ same_procs ls ls2.
Proof.
  intros [want I]. destruct (push_off_run c ls) as (ls1 & E1 & H1 & Ho1 & Hl1).
  pose proof (sp_hart _ I c) as Hk. cbn in Hk.
  assert (Hn : 0 <= noff (cpus ls c)) by (destruct Hk as (_ & _ & -> & _); cbn; lia).
  assert (Hk1 : hart_ok (pushed (cpus ls c)) RPop (h c) (want c)).
  { destruct (h c) as [|l0 h0] eqn:Eh.
    - destruct Hk as (Hd & _ & Hn' & Hi). unfold hart_ok, pushed. cbn in *. rewrite sie_off, Hn' in *.
      split_and!; [constructor|done..].
    - by pose proof (hart_pushed _ _ _ l0 Hk). }
  destruct (pop_off_run c ls1) as (ls2 & E2 & H2 & Ho2 & Hl2); [rewrite H1; apply sie_off|rewrite H1; cbn; lia|].
  assert (Hp : forall c', c_proc (cpus ls1 c') = c_proc (cpus ls c') /\ c_proc (cpus ls2 c') = c_proc (cpus ls c')).
  { intros c'. destruct (decide (c' = c)) as [->|Hne]; [by rewrite H2, H1|by rewrite Ho2, Ho1]. }
  exists ls1, ls2. split_and!; [done|done| |intros c'; apply Hp..].
  exists want. eapply (inv_local c); [exact I|..]; cbn; try done.
  - intros c' Hne. cbn. by rewrite Ho2, Ho1.
  - by rewrite Hl2, Hl1.
  - rewrite H2, H1. by apply hart_popped.
Qed.

Lemma lockinv_intr_on ls h c : lockinv ls h -> h c = [] ->
  exists ls', intr_on c ls = Ok (tt, ls') /\ lockinv ls' h /\ same_procs ls ls'.
Proof.
  intros [want I] Hh. eexists. split_and!; [reflexivity| |].
  - eexists. eapply lk_inv_intr; [exact I|done..|apply with_cpu_intro|apply sie_on].
  - intros c'. cbn. destruct (decide (c' = c)) as [->|]; [by rewrite fn_lookup_insert|by rewrite fn_lookup_insert_ne].
Qed.

End spinlock.
Arguments lst L : clear implicits.
Arguments sp_pc L : clear implicits.
Arguments sp_sys L : clear implicits.

(** Two harts of the kernel after [initlock], interrupts on: hart 1 acquires
    lock 7. *)
Definition sp_demo0 : sp_sys Z :=
  mksp (mklst (fun _ => mkcpu None 0 false SSTATUS_SIE) (fun _ => mklk 0 "lock" None))
       (fun _ => Out) (fun _ => []) (fun _ => true).

Lemma sp_demo0_start : sp_start sp_demo0.
Proof. split; [done|]. intros c. done. Qed.

Lemma spinlock_correct_witness :
  exists s', acquire 1 7 1 (sp_ls sp_demo0) = Ok (tt, sp_ls s') /\ rtc sp_sys_step sp_demo0 s' /\
    sp_at s' 1 = Out /\ sp_held s' 1 = 7 :: sp_held sp_demo0 1.
Proof.
  destruct (spinlock_correct sp_demo0) as (_ & _ & _ & _ & _ & _ & H & _).
  - exists sp_demo0. split; [apply sp_demo0_start|apply rtc_refl].
  - exact (H 1 7 eq_refl eq_refl).
Defined.
