(* ===== verification/Sched.v ===== *)
(** * Processes and the scheduler (kernel/proc.c)

    The process table, the per-hart scheduler and every function of proc.c
    that changes a process's state: [scheduler], [sched], [yield], [forkret],
    [sleep], [wakeup], [kill], [exit], [reparent], [wait], [fork] with
    [allocproc], [allocpid] and [freeproc].

    The functions run concurrently on all harts and on all kernel threads, so
    each is cut at its calls of [acquire], [release] and [swtch]: a [pc] says
    where a kernel thread is, with the point its function returns to, and
    [yield_step], [sleep_step] and so on execute the code from one such point
    to the next.  A process's [context] holds its thread's position, whether
    the thread runs or was switched away from; [cur c] is the process whose
    thread hart [c] runs, [None] for the hart's scheduler thread.

    The memory of a process (its page table, trap frame and kernel stack) and
    its files are not part of this model: an argument [io] of the step says
    whether the allocations and copies of [fork] and [wait] succeed. *)

From S2P Require Import Prelude Spinlock.

Definition NPROC : Z := 64.

Inductive procstate : Type := UNUSED | USED | SLEEPING | RUNNABLE | RUNNING | ZOMBIE.

#[global] Instance procstate_eq_dec : EqDecision procstate.
Proof. solve_decision. Defined.

(** [p->lock] of [proc[i]], [wait_lock], [pid_lock], and the lock a caller of
    [sleep] passes (a driver's, a pipe's, ...). *)
Inductive lockid : Type := PL (i : Z) | WaitLock | PidLock | CondLock (k : Z).

#[global] Instance lockid_eq_dec : EqDecision lockid.
Proof. solve_decision. Defined.

(** A sleep channel: the address of [proc[i]] ([wait]), or any other one. *)
Inductive channel : Type := CProc (i : Z) | CAddr (a : Z).

#[global] Instance channel_eq_dec : EqDecision channel.
Proof. solve_decision. Defined.

(** Where a kernel thread is; [r] is where the function returns to. *)
Inductive pc : Type :=
| Run (hs : list Z) (rv : Z)          (* other kernel code, holding locks [hs]; last return value *)
| YieldAcq (r : pc) | YieldSet (r : pc) | YieldRel (r : pc)
| SchedChk (r : pc) | SchedSwtch (ia : bool) (r : pc) | SchedBack (ia : bool) (r : pc)
| SleepAcq (ch : channel) (lk : lockid) (r : pc) | SleepUnlk (ch : channel) (lk : lockid) (r : pc)
| SleepSet (ch : channel) (lk : lockid) (r : pc) | SleepTidy (lk : lockid) (r : pc)
| SleepRel (lk : lockid) (r : pc) | SleepLk (lk : lockid) (r : pc)
| WakeLoop (ch : channel) (i : Z) (r : pc) | WakeTest (ch : channel) (i : Z) (r : pc)
| WakeRel (ch : channel) (i : Z) (r : pc)
| KillLoop (pid i : Z) | KillTest (pid i : Z) | KillRel (pid i : Z) (found : bool)
| ExitWL (status : Z) | Reparent (status i : Z) | ExitPL (status : Z) | ExitSet (status : Z)
| ExitUnWL | ExitDead
| WaitWL (addr : Z) | WaitLoop (addr i : Z) (havekids : bool) | WaitTest (addr i : Z)
| WaitNext (addr i : Z) | WaitUnKid (i rv : Z) | WaitUnWL (rv : Z)
| ForkLoop (i : Z) | ForkTest (i : Z) | ForkMem (i : Z) | ForkFail (i : Z) | ForkUnlk (i : Z)
| ForkWL (i pid : Z) | ForkParent (i pid : Z) | ForkUnWL (i pid : Z) | ForkAcq (i pid : Z)
| ForkPub (i pid : Z) | ForkRel (i pid : Z)
| ForkRet
| Intr (x : pc) (r : pc).             (* an interrupt handler at [x], interrupted code at [r] *)

Record proc : Type := mkproc {
  state : procstate; chan : option channel; killed : Z; xstate : Z; pid : Z;
  parent : option Z; context : pc
}.

Definition set_state v p := mkproc v (chan p) (killed p) (xstate p) (pid p) (parent p) (context p).
Definition set_chan v p := mkproc (state p) v (killed p) (xstate p) (pid p) (parent p) (context p).
Definition set_killed v p := mkproc (state p) (chan p) v (xstate p) (pid p) (parent p) (context p).
Definition set_xstate v p := mkproc (state p) (chan p) (killed p) v (pid p) (parent p) (context p).
Definition set_pid v p := mkproc (state p) (chan p) (killed p) (xstate p) v (parent p) (context p).
Definition set_parent v p := mkproc (state p) (chan p) (killed p) (xstate p) (pid p) v (context p).
Definition set_context v p := mkproc (state p) (chan p) (killed p) (xstate p) (pid p) (parent p) v.

Record kst : Type := mkk { k_ls : lst lockid; k_procs : Z -> proc; k_nextpid : Z }.

(** ** State access *)

Definition on_ls {A} (m : M (lst lockid) A) : M kst A :=
  zoom k_ls (fun l s => mkk l (k_procs s) (k_nextpid s)) m.
Definition getp {A} (i : Z) (f : proc -> A) : M kst A := gets (fun s => f (k_procs s i)).
Definition updp (i : Z) (f : proc -> proc) : M kst unit :=
  modify (fun s => mkk (k_ls s) (<[i := f (k_procs s i)]> (k_procs s)) (k_nextpid s)).

(** One attempt at the lock: [Hang] while another hart has it. *)
Definition lock (l : lockid) (c : Z) : M kst unit := on_ls (acquire 1 l c).
Definition unlock (l : lockid) (c : Z) : M kst unit := on_ls (release l c).

Definition myproc (c : Z) : M kst (option Z) :=
  on_ls (push_off c);;
  p ← gets (fun s => c_proc (cpus (k_ls s) c));
  on_ls (pop_off c);;
  mret p.

Definition allocpid (c : Z) : M kst Z :=
  lock PidLock c;;
  n ← gets k_nextpid;
  modify (fun s => mkk (k_ls s) (k_procs s) (s32 (n + 1)));;
  unlock PidLock c;;
  mret n.

(** The fields of [freeproc] that are part of this model. *)
Definition freeproc (i : Z) : M kst unit :=
  updp i (fun p => mkproc UNUSED None 0 0 0 None (context p)).

(** ** Scheduling *)

(** [sched]: the checks, [swtch] (a step of the machine below), and the
    restored [intena]. *)
Definition sched_step (c p : Z) (x : pc) : M kst pc :=
  match x with
  | SchedChk r =>
      h ← on_ls (holding (PL p) c);
      if negb h then panic "sched p->lock" else
      n ← gets (fun s => noff (cpus (k_ls s) c));
      if negb (n =? 1) then panic "sched locks" else
      st ← getp p state;
      if decide (st = RUNNING) then panic "sched running" else
      i ← on_ls (intr_get c);
      if i : bool then panic "sched interruptible" else
      ia ← gets (fun s => intena (cpus (k_ls s) c));
      mret (SchedSwtch ia r)
  | SchedBack ia r => on_ls (upd_cpu c (set_intena ia));; mret r
  | _ => fault "sched"
  end.

Definition yield_step (c p : Z) (x : pc) : M kst pc :=
  match x with
  | YieldAcq r => lock (PL p) c;; mret (YieldSet r)
  | YieldSet r => updp p (set_state RUNNABLE);; mret (SchedChk (YieldRel r))
  | YieldRel r => unlock (PL p) c;; mret r
  | _ => fault "yield"
  end.

Definition forkret_step (c p : Z) (x : pc) : M kst pc :=
  match x with
  | ForkRet => unlock (PL p) c;; mret (Run [] 0)
  | _ => fault "forkret"
  end.

Definition sleep_step (c p : Z) (x : pc) : M kst pc :=
  match x with
  | SleepAcq ch lk r => lock (PL p) c;; mret (SleepUnlk ch lk r)
  | SleepUnlk ch lk r => unlock lk c;; mret (SleepSet ch lk r)
  | SleepSet ch lk r =>
      updp p (set_chan (Some ch));;
      updp p (set_state SLEEPING);;
      mret (SchedChk (SleepTidy lk r))
  | SleepTidy lk r => updp p (set_chan None);; mret (SleepRel lk r)
  | SleepRel lk r => unlock (PL p) c;; mret (SleepLk lk r)
  | SleepLk lk r => lock lk c;; mret r
  | _ => fault "sleep"
  end.

Definition wakeup_step (c : Z) (x : pc) : M kst pc :=
  match x with
  | WakeLoop ch i r =>
      if NPROC <=? i then mret r else
      me ← myproc c;
      if decide (Some i = me) then mret (WakeLoop ch (i + 1) r) else
      lock (PL i) c;;
      mret (WakeTest ch i r)
  | WakeTest ch i r =>
      st ← getp i state;
      ch' ← getp i chan;
      when (bool_decide (st = SLEEPING /\ ch' = Some ch)) (updp i (set_state RUNNABLE));;
      mret (WakeRel ch i r)
  | WakeRel ch i r => unlock (PL i) c;; mret (WakeLoop ch (i + 1) r)
  | _ => fault "wakeup"
  end.

Definition kill_step (c : Z) (x : pc) : M kst pc :=
  match x with
  | KillLoop n i =>
      if NPROC <=? i then mret (Run [] (-1)) else
      lock (PL i) c;;
      mret (KillTest n i)
  | KillTest n i =>
      q ← getp i pid;
      if q =? n then
        updp i (set_killed 1);;
        st ← getp i state;
        when (bool_decide (st = SLEEPING)) (updp i (set_state RUNNABLE));;
        mret (KillRel n i true)
      else mret (KillRel n i false)
  | KillRel n i found =>
      unlock (PL i) c;;
      mret (if found : bool then Run [] 0 else KillLoop n (i + 1))
  | _ => fault "kill"
  end.

(** [initproc] of proc.c, set by [userinit]. *)
Section proc.
Context (initproc : Z).

(** [exit], from [acquire(&wait_lock)] on, with [reparent] inlined. *)
Definition exit_step (c p : Z) (x : pc) : M kst pc :=
  match x with
  | ExitWL status =>
      if p =? initproc then panic "init exiting" else
      lock WaitLock c;; mret (Reparent status 0)
  | Reparent status i =>
      if NPROC <=? i then
        pp ← getp p parent;
        match pp with
        | Some q => mret (WakeLoop (CProc q) 0 (ExitPL status))
        | None => mret (WakeLoop (CAddr 0) 0 (ExitPL status))
        end
      else
        pp ← getp i parent;
        if decide (pp = Some p) then
          updp i (set_parent (Some initproc));;
          mret (WakeLoop (CProc initproc) 0 (Reparent status (i + 1)))
        else mret (Reparent status (i + 1))
  | ExitPL status => lock (PL p) c;; mret (ExitSet status)
  | ExitSet status =>
      updp p (set_xstate status);;
      updp p (set_state ZOMBIE);;
      mret ExitUnWL
  | ExitUnWL => unlock WaitLock c;; mret (SchedChk ExitDead)
  | ExitDead => panic "zombie exit"
  | _ => fault "exit"
  end.

Definition wait_step (io : bool) (c p : Z) (x : pc) : M kst pc :=
  match x with
  | WaitWL addr => lock WaitLock c;; mret (WaitLoop addr 0 false)
  | WaitLoop addr i havekids =>
      if NPROC <=? i then
        k ← getp p killed;
        if negb havekids || negb (k =? 0) then mret (WaitUnWL (-1))
        else mret (SleepAcq (CProc p) WaitLock (WaitLoop addr 0 false))
      else
        pp ← getp i parent;
        if decide (pp = Some p) then lock (PL i) c;; mret (WaitTest addr i)
        else mret (WaitLoop addr (i + 1) havekids)
  | WaitTest addr i =>
      st ← getp i state;
      if decide (st = ZOMBIE) then
        n ← getp i pid;
        if negb (addr =? 0) && negb io then mret (WaitUnKid i (-1))
        else freeproc i;; mret (WaitUnKid i n)
      else mret (WaitNext addr i)
  | WaitNext addr i => unlock (PL i) c;; mret (WaitLoop addr (i + 1) true)
  | WaitUnKid i rv => unlock (PL i) c;; mret (WaitUnWL rv)
  | WaitUnWL rv => unlock WaitLock c;; mret (Run [] rv)
  | _ => fault "wait"
  end.

(** [fork] with [allocproc] inlined. *)
Definition fork_step (io : bool) (c p : Z) (x : pc) : M kst pc :=
  match x with
  | ForkLoop i =>
      if NPROC <=? i then mret (Run [] (-1)) else
      lock (PL i) c;;
      mret (ForkTest i)
  | ForkTest i =>
      st ← getp i state;
      if decide (st = UNUSED) then
        n ← allocpid c;
        updp i (set_pid n);;
        updp i (set_state USED);;
        mret (ForkMem i)
      else
        unlock (PL i) c;; mret (ForkLoop (i + 1))
  | ForkMem i =>
      if io then updp i (set_context ForkRet);; mret (ForkUnlk i)
      else freeproc i;; mret (ForkFail i)
  | ForkFail i => unlock (PL i) c;; mret (Run [] (-1))
  | ForkUnlk i =>
      n ← getp i pid;
      unlock (PL i) c;; mret (ForkWL i n)
  | ForkWL i n => lock WaitLock c;; mret (ForkParent i n)
  | ForkParent i n => updp i (set_parent (Some p));; mret (ForkUnWL i n)
  | ForkUnWL i n => unlock WaitLock c;; mret (ForkAcq i n)
  | ForkAcq i n => lock (PL i) c;; mret (ForkPub i n)
  | ForkPub i n => updp i (set_state RUNNABLE);; mret (ForkRel i n)
  | ForkRel i n => unlock (PL i) c;; mret (Run [] n)
  | _ => fault "fork"
  end.

(** One step of the kernel thread of [p] on hart [c]. *)
Definition thread_step (io : bool) (c p : Z) (x : pc) : M kst pc :=
  match x with
  | Run _ _ | SchedSwtch _ _ | Intr _ _ => hang
  | YieldAcq _ | YieldSet _ | YieldRel _ => yield_step c p x
  | SchedChk _ | SchedBack _ _ => sched_step c p x
  | SleepAcq _ _ _ | SleepUnlk _ _ _ | SleepSet _ _ _ | SleepTidy _ _ | SleepRel _ _
  | SleepLk _ _ => sleep_step c p x
  | WakeLoop _ _ _ | WakeTest _ _ _ | WakeRel _ _ _ => wakeup_step c x
  | KillLoop _ _ | KillTest _ _ | KillRel _ _ _ => kill_step c x
  | ExitWL _ | Reparent _ _ | ExitPL _ | ExitSet _ | ExitUnWL | ExitDead => exit_step c p x
  | WaitWL _ | WaitLoop _ _ _ | WaitTest _ _ | WaitNext _ _ | WaitUnKid _ _
  | WaitUnWL _ => wait_step io c p x
  | ForkRet => forkret_step c p x
  | _ => fork_step io c p x
  end.

(** ** The machine *)

(** The scheduler thread of a hart; [ScIntr i x] is an interrupt handler at [x]
    that interrupted it before [proc[i]]. *)
Inductive sc_pc : Type := ScRound | ScAcquire (i : Z) | ScTest (i : Z) | ScSwtch (i : Z) | ScBack (i : Z)
| ScRelease (i : Z) | ScIntr (i : Z) (x : pc).

Definition scheduler_step (c : Z) (x : sc_pc) : M kst sc_pc :=
  match x with
  | ScRound => on_ls (intr_on c);; mret (ScAcquire 0)
  | ScAcquire i =>
      if NPROC <=? i then mret ScRound else lock (PL i) c;; mret (ScTest i)
  | ScTest i =>
      st ← getp i state;
      if decide (st = RUNNABLE) then
        updp i (set_state RUNNING);;
        on_ls (upd_cpu c (set_proc (Some i)));;
        mret (ScSwtch i)
      else mret (ScRelease i)
  | ScSwtch _ | ScIntr _ _ => hang
  | ScBack i => on_ls (upd_cpu c (set_proc None));; mret (ScRelease i)
  | ScRelease i => unlock (PL i) c;; mret (ScAcquire (i + 1))
  end.

Record mach : Type := mkm { m_k : kst; m_cur : Z -> option Z; m_sc : Z -> sc_pc }.

(** What kernel code outside proc.c may do, interrupt handlers included: take
    and give back locks, and call [wakeup]. *)
Inductive hstep (c : Z) : pc -> kst -> pc -> kst -> Prop :=
| h_acquire hs rv l k k' : l ∉ hs -> lock (CondLock l) c k = Ok (tt, k') ->
    hstep c (Run hs rv) k (Run (l :: hs) rv) k'
| h_release hs rv l k k' : l ∈ hs -> unlock (CondLock l) c k = Ok (tt, k') ->
    hstep c (Run hs rv) k (Run (filter (fun j => j <> l) hs) rv) k'
| h_wakeup hs rv ch k : hstep c (Run hs rv) k (WakeLoop ch 0 (Run hs rv)) k
| h_wake ch i r x' k k' : wakeup_step c (WakeLoop ch i r) k = Ok (x', k') ->
    hstep c (WakeLoop ch i r) k x' k'
| h_test ch i r x' k k' : wakeup_step c (WakeTest ch i r) k = Ok (x', k') ->
    hstep c (WakeTest ch i r) k x' k'
| h_rel ch i r x' k k' : wakeup_step c (WakeRel ch i r) k = Ok (x', k') ->
    hstep c (WakeRel ch i r) k x' k'.

(** The calls that only a process makes, as the comments of proc.c demand:
    [sleep] with one lock, the others with none. *)
Inductive kcall : Type :=
| KYield | KSleep (ch : channel) (k : Z) | KKill (pid : Z) | KExit (status : Z) | KWait (addr : Z) | KFork.

Definition enter (hs : list Z) (rv : Z) (k : kcall) : option pc :=
  match k with
  | KYield => if decide (hs = []) then Some (YieldAcq (Run hs rv)) else None
  | KSleep ch k => if decide (hs = [k]) then Some (SleepAcq ch (CondLock k) (Run hs rv)) else None
  | KKill n => if decide (hs = []) then Some (KillLoop n 0) else None
  | KExit st => if decide (hs = []) then Some (ExitWL st) else None
  | KWait a => if decide (hs = []) then Some (WaitWL a) else None
  | KFork => if decide (hs = []) then Some (ForkLoop 0) else None
  end.

Definition at_ (m : mach) (p : Z) : pc := context (k_procs (m_k m) p).

Definition set_at (p : Z) (x : pc) (s : kst) : kst :=
  mkk (k_ls s) (<[p := set_context x (k_procs s p)]> (k_procs s)) (k_nextpid s).

(** The locks a thread holds at a point of its code. *)
Fixpoint holds (p : Z) (x : pc) : list lockid :=
  match x with
  | Run hs _ => CondLock <$> hs
  | YieldAcq r => holds p r
  | YieldSet _ | YieldRel _ | SchedChk _ | SchedSwtch _ _ | SchedBack _ _ => [PL p]
  | SleepAcq _ lk _ => [lk]
  | SleepUnlk _ lk _ => [PL p; lk]
  | SleepSet _ _ _ | SleepTidy _ _ | SleepRel _ _ => [PL p]
  | SleepLk _ _ => []
  | WakeLoop _ _ r => holds p r
  | WakeTest _ i r | WakeRel _ i r => PL i :: holds p r
  | KillLoop _ _ => []
  | KillTest _ i | KillRel _ i _ => [PL i]
  | ExitWL _ => []
  | Reparent _ _ | ExitPL _ => [WaitLock]
  | ExitSet _ | ExitUnWL => [PL p; WaitLock]
  | ExitDead => [PL p]
  | WaitWL _ => []
  | WaitLoop _ _ _ | WaitUnWL _ => [WaitLock]
  | WaitTest _ i | WaitNext _ i | WaitUnKid i _ => [PL i; WaitLock]
  | ForkLoop _ | ForkWL _ _ | ForkAcq _ _ => []
  | ForkTest i | ForkMem i | ForkFail i | ForkUnlk i | ForkPub i _ | ForkRel i _ => [PL i]
  | ForkParent _ _ | ForkUnWL _ _ => [WaitLock]
  | ForkRet => [PL p]
  | Intr x _ => holds p x
  end.

Definition sc_holds (x : sc_pc) : list lockid :=
  match x with
  | ScRound | ScAcquire _ => []
  | ScTest i | ScSwtch i | ScBack i | ScRelease i => [PL i]
  | ScIntr _ x => holds (-1) x
  end.

Inductive mstep : mach -> mach -> Prop :=
| m_thread k cur sc c p io x k' : cur c = Some p ->
    thread_step io c p (context (k_procs k p)) k = Ok (x, k') ->
    mstep (mkm k cur sc) (mkm (set_at p x k') cur sc)
| m_call k cur sc c p hs rv call x : cur c = Some p ->
    context (k_procs k p) = Run hs rv -> enter hs rv call = Some x ->
    mstep (mkm k cur sc) (mkm (set_at p x k) cur sc)
| m_run k cur sc c p x k' : cur c = Some p ->
    hstep c (context (k_procs k p)) k x k' ->
    mstep (mkm k cur sc) (mkm (set_at p x k') cur sc)
(** an interrupt outside critical sections: its handler runs on the stack of
    the interrupted thread; a timer interrupt makes the thread yield *)
| m_timer k cur sc c p : cur c = Some p ->
    holds p (context (k_procs k p)) = [] ->
    mstep (mkm k cur sc) (mkm (set_at p (YieldAcq (context (k_procs k p))) k) cur sc)
| m_intr k cur sc c p : cur c = Some p ->
    holds p (context (k_procs k p)) = [] ->
    mstep (mkm k cur sc) (mkm (set_at p (Intr (Run [] 0) (context (k_procs k p))) k) cur sc)
| m_intr_run k cur sc c p x x' r k' : cur c = Some p ->
    context (k_procs k p) = Intr x r -> hstep c x k x' k' ->
    mstep (mkm k cur sc) (mkm (set_at p (Intr x' r) k') cur sc)
| m_intr_end k cur sc c p rv r : cur c = Some p ->
    context (k_procs k p) = Intr (Run [] rv) r ->
    mstep (mkm k cur sc) (mkm (set_at p r k) cur sc)
(** [swtch(&p->context, &mycpu()->context)] *)
| m_swtch_out k cur sc c p ia r : cur c = Some p ->
    context (k_procs k p) = SchedSwtch ia r ->
    mstep (mkm k cur sc) (mkm (set_at p (SchedBack ia r) k) (<[c := None]> cur) sc)
| m_scheduler k cur sc c x k' : cur c = None ->
    scheduler_step c (sc c) k = Ok (x, k') ->
    mstep (mkm k cur sc) (mkm k' cur (<[c := x]> sc))
| m_sc_intr k cur sc c i : cur c = None -> sc c = ScAcquire i ->
    mstep (mkm k cur sc) (mkm k cur (<[c := ScIntr i (Run [] 0)]> sc))
| m_sc_run k cur sc c i x x' k' : cur c = None -> sc c = ScIntr i x -> hstep c x k x' k' ->
    mstep (mkm k cur sc) (mkm k' cur (<[c := ScIntr i x']> sc))
| m_sc_end k cur sc c i rv : cur c = None -> sc c = ScIntr i (Run [] rv) ->
    mstep (mkm k cur sc) (mkm k cur (<[c := ScAcquire i]> sc))
(** [swtch(&c->context, &p->context)] *)
| m_swtch_in k cur sc c p : cur c = None -> sc c = ScSwtch p ->
    mstep (mkm k cur sc) (mkm k (<[c := Some p]> cur) (<[c := ScBack p]> sc)).

(** After [userinit]: the first process is runnable and every hart is about
    to enter its scheduler loop with interrupts off. *)
Definition m_start (m : mach) : Prop :=
  0 <= initproc < NPROC /\
  (forall l, locked (locks (k_ls (m_k m)) l) = 0 /\ lk_cpu (locks (k_ls (m_k m)) l) = None) /\
  (forall c, m_cur m c = None /\ m_sc m c = ScRound /\ noff (cpus (k_ls (m_k m)) c) = 0 /\
             c_proc (cpus (k_ls (m_k m)) c) = None /\ sie (sstatus (cpus (k_ls (m_k m)) c)) = false) /\
  (forall p, at_ m p = ForkRet /\
             state (k_procs (m_k m) p) = (if p =? initproc then RUNNABLE else UNUSED)).

Definition m_reachable (m : mach) : Prop := exists m0, m_start m0 /\ rtc mstep m0 m.

End proc.
