(* ===== verification/SchedInv.v ===== *)
(** * The scheduler's invariant (kernel/proc.c)

    Which points of the code a kernel thread can be at, the state its process
    then has, and what a process that no hart runs looks like; the invariant
    [m_inv] of the machine of [Sched] and the lemmas its steps share. *)

From S2P Require Import Prelude Spinlock Sched.

(** The state of the running process at a point of its code. *)
Definition st_of (x : pc) : procstate :=
  match x with
  | SchedChk r | SchedSwtch _ r =>
      match r with YieldRel _ => RUNNABLE | SleepTidy _ _ => SLEEPING | _ => ZOMBIE end
  | ExitUnWL => ZOMBIE
  | _ => RUNNING
  end.

Definition slot (i : Z) : Prop := 0 <= i < NPROC.

(** Where [sched] can have been called from. *)
Definition sched_ret (r : pc) : Prop :=
  match r with YieldRel _ | SleepTidy _ _ | ExitDead => True | _ => False end.

(** Interrupt handlers only take locks and call [wakeup]. *)
Definition handler (x : pc) : Prop :=
  match x with
  | Run _ _ | WakeLoop _ _ (Run _ _) | WakeTest _ _ (Run _ _) | WakeRel _ _ (Run _ _) => True
  | _ => False
  end.

(** The points of the code of a thread of process [p]. *)
Fixpoint wf (p : Z) (x : pc) : Prop :=
  match x with
  | Run hs _ => NoDup hs
  | YieldAcq r | YieldSet r | YieldRel r => wf p r /\ holds p r = [] /\ st_of r = RUNNING
  | SchedChk r | SchedSwtch _ r => match r with ExitDead => True | _ => wf p r /\ sched_ret r end
  | SchedBack _ r => wf p r /\ sched_ret r
  | ExitDead => False
  | SleepAcq _ lk r | SleepUnlk _ lk r | SleepSet _ lk r | SleepTidy lk r | SleepRel lk r
  | SleepLk lk r => wf p r /\ holds p r = [lk] /\ st_of r = RUNNING /\ forall j, lk <> PL j
  | WakeLoop _ i r => wf p r /\ st_of r = RUNNING /\ 0 <= i /\ forall j, PL j ∉ holds p r
  | WakeTest _ i r | WakeRel _ i r =>
      wf p r /\ st_of r = RUNNING /\ slot i /\ i <> p /\ forall j, PL j ∉ holds p r
  | KillLoop _ i | Reparent _ i | WaitLoop _ i _ | ForkLoop i => 0 <= i
  | KillTest _ i | KillRel _ i _ | WaitTest _ i | WaitNext _ i | WaitUnKid i _
  | ForkTest i | ForkMem i | ForkFail i | ForkUnlk i | ForkWL i _ | ForkParent i _ | ForkUnWL i _
  | ForkAcq i _ | ForkPub i _ | ForkRel i _ => slot i
  | Intr y r => wf p y /\ handler y /\ wf p r /\ holds p r = [] /\ st_of r = RUNNING
  | _ => True
  end.

(** The new process of a [fork] in progress, and whether its context is set. *)
Fixpoint forks (x : pc) : option (Z * bool) :=
  match x with
  | ForkMem i => Some (i, false)
  | ForkUnlk i | ForkWL i _ | ForkParent i _ | ForkUnWL i _ | ForkAcq i _ | ForkPub i _ => Some (i, true)
  | YieldAcq r | YieldSet r | YieldRel r | SchedChk r | SchedSwtch _ r | SchedBack _ r => forks r
  | SleepAcq _ _ r | SleepUnlk _ _ r | SleepSet _ _ r | SleepTidy _ r | SleepRel _ r | SleepLk _ r => forks r
  | WakeLoop _ _ r | WakeTest _ _ r | WakeRel _ _ r | Intr _ r => forks r
  | _ => None
  end.

(** The context of a process that is not running. *)
Definition off_ok (p : Z) (s : procstate) (x : pc) : Prop :=
  match s with
  | RUNNABLE | RUNNING =>
      wf p x /\ match x with SchedBack _ (YieldRel _) | SchedBack _ (SleepTidy _ _) | ForkRet => True | _ => False end
  | SLEEPING => wf p x /\ match x with SchedBack _ (SleepTidy _ _) => True | _ => False end
  | ZOMBIE => match x with SchedBack _ ExitDead => True | _ => False end
  | UNUSED | USED => True
  end.

(** The locks each hart holds. *)
Definition hl (m : mach) (c : Z) : list lockid :=
  match m_cur m c with Some p => holds p (at_ m p) | None => sc_holds (m_sc m c) end.

Notation pst m p := (state (k_procs (m_k m) p)).
Notation cproc m c := (c_proc (cpus (k_ls (m_k m)) c)).

Definition run_ok (m : mach) (c p : Z) : Prop :=
  slot p /\ cproc m c = Some p /\ m_sc m c = ScBack p /\ wf p (at_ m p) /\ pst m p = st_of (at_ m p).

Definition sc_ok (m : mach) (c : Z) : Prop :=
  match m_sc m c with
  | ScRound => cproc m c = None
  | ScAcquire i => 0 <= i /\ cproc m c = None
  | ScTest i | ScRelease i => slot i /\ cproc m c = None
  | ScSwtch i => slot i /\ cproc m c = Some i /\ pst m i = RUNNING /\ forall c', m_cur m c' <> Some i
  | ScBack i => slot i /\ cproc m c = Some i
  | ScIntr i x => 0 <= i /\ cproc m c = None /\ wf (-1) x /\ handler x
  end.

(** No hart runs the thread of [p]. *)
Definition off (m : mach) (p : Z) : Prop := forall c, m_cur m c <> Some p.

Record m_inv (m : mach) : Prop := {
  mi_locks : lockinv (k_ls (m_k m)) (hl m);
  mi_run : forall c p, m_cur m c = Some p -> run_ok m c p;
  mi_sc : forall c, m_cur m c = None -> sc_ok m c;
  mi_one : forall c c' p, m_cur m c = Some p -> m_cur m c' = Some p -> c = c';
  mi_off : forall p, slot p -> off m p -> off_ok p (pst m p) (at_ m p) /\
             (pst m p = RUNNING -> exists c, m_cur m c = None /\ m_sc m c = ScSwtch p);
  mi_fork : forall q i b, forks (at_ m q) = Some (i, b) ->
              pst m i = USED /\ (b = true -> at_ m i = ForkRet);
  mi_fork1 : forall q q' i b b', forks (at_ m q) = Some (i, b) -> forks (at_ m q') = Some (i, b') -> q = q'
}.

(** ** Facts about the invariant *)

Lemma st_of_live x : st_of x <> UNUSED /\ st_of x <> USED.
Proof. destruct x; cbn; try done; destruct x; done. Qed.

(** A running process whose state is not RUNNING is inside its own lock. *)
Lemma st_of_locked p x : wf p x -> st_of x <> RUNNING -> PL p ∈ holds p x.
Proof. destruct x; cbn; intros; try done; set_solver. Qed.

(** A hart that holds the lock of a process that is not its own sees a
    process in state SLEEPING, RUNNABLE, ZOMBIE, UNUSED or USED off. *)
Lemma locked_off m c i :
  m_inv m -> PL i ∈ hl m c -> m_cur m c <> Some i -> pst m i <> RUNNING -> off m i.
Proof.
  intros I Hl Hc Hs c' Hc'. destruct (mi_run _ I c' i Hc') as (_ & _ & _ & Hw & Hst).
  assert (c = c') as ->; [|done]. apply (lockinv_one _ _ (PL i) c c' (mi_locks _ I) Hl).
  unfold hl. rewrite Hc'. apply st_of_locked; [done|congruence].
Qed.

Lemma unused_off m i : m_inv m -> pst m i = UNUSED \/ pst m i = USED -> off m i.
Proof.
  intros I Hs c Hc. destruct (mi_run _ I c i Hc) as (_ & _ & _ & _ & Hst).
  destruct (st_of_live (at_ m i)). rewrite <- Hst in *. naive_solver.
Qed.

(** The machine with one process changed. *)
Definition with_proc (i : Z) (pr : proc) (m : mach) : mach :=
  mkm (mkk (k_ls (m_k m)) (<[i := pr]> (k_procs (m_k m))) (k_nextpid (m_k m))) (m_cur m) (m_sc m).

Lemma pst_with i pr m q : pst (with_proc i pr m) q = if decide (q = i) then state pr else pst m q.
Proof. cbn. by unfold insert, fn_insert; repeat case_decide; subst. Qed.

Lemma at_with i pr m q : at_ (with_proc i pr m) q = if decide (q = i) then context pr else at_ m q.
Proof. unfold at_. cbn. by unfold insert, fn_insert; repeat case_decide; subst. Qed.

Lemma hl_with i pr m c : m_cur m c <> Some i \/ context pr = at_ m i -> hl (with_proc i pr m) c = hl m c.
Proof.
  intros H. unfold hl. cbn [m_cur with_proc]. destruct (m_cur m c) as [p|]; [|done]. rewrite at_with.
  case_decide; [|done]. subst. by destruct H as [? | ->].
Qed.

(** ** Changes that keep the invariant *)

(** The locks change and no hart holds others. *)
Lemma inv_ls m ls' n' :
  m_inv m -> lockinv ls' (hl m) -> same_procs (k_ls (m_k m)) ls' ->
  m_inv (mkm (mkk ls' (k_procs (m_k m)) n') (m_cur m) (m_sc m)).
Proof.
  intros [Hl Hr Hs H1 Ho Hf Hf1] Hl' Hp. split; try done.
  - intros c p Hc. destruct (Hr c p Hc) as (? & ? & ?). split; [done|]. cbn. by rewrite Hp.
  - intros c Hc. pose proof (Hs c Hc) as H. unfold sc_ok in *. cbn in *. by destruct (m_sc m c); rewrite Hp.
Qed.

(** Fields of processes other than state and context. *)
Lemma inv_ext m k' :
  m_inv m -> k_ls k' = k_ls (m_k m) ->
  (forall q, state (k_procs k' q) = pst m q /\ context (k_procs k' q) = at_ m q) ->
  m_inv (mkm k' (m_cur m) (m_sc m)).
Proof.
  intros [Hl Hr Hs H1 Ho Hf Hf1] El Ep. set (m' := mkm _ _ _).
  assert (Hst : forall q, pst m' q = pst m q) by (intros q; apply Ep).
  assert (Hat : forall q, at_ m' q = at_ m q) by (intros q; apply Ep).
  split.
  - cbn [m' m_k]. rewrite El. eapply lockinv_perm, Hl. intros c. unfold hl. cbn [m' m_cur m_sc].
    destruct (m_cur m c); [|done]. by rewrite Hat.
  - intros c p Hc. unfold run_ok. rewrite Hst, Hat. cbn [m' m_k m_sc]. rewrite El. apply (Hr c p Hc).
  - intros c Hc. pose proof (Hs c Hc) as H. unfold sc_ok in *. cbn [m' m_sc m_cur m_k] in *. rewrite El.
    destruct (m_sc m c); try done. change (k_procs k' ?j) with (k_procs (m_k m') j). by rewrite Hst.
  - done.
  - intros p Hp Hoff. rewrite Hst, Hat. by apply Ho.
  - intros q j b. rewrite !Hst, !Hat. apply Hf.
  - intros q q' j b b'. rewrite !Hat. apply Hf1.
Qed.

(** Another hart's view of a process that no hart runs. *)
Lemma inv_off m i pr :
  m_inv m -> off m i -> slot i -> pst m i <> RUNNING -> state pr <> RUNNING ->
  off_ok i (state pr) (context pr) ->
  context pr = at_ m i \/ forks (context pr) = None ->
  (state pr = USED \/ forall q b, forks (at_ m q) <> Some (i, b)) ->
  (forall q, forks (at_ m q) = Some (i, true) -> context pr = ForkRet) ->
  m_inv (with_proc i pr m).
Proof.
  intros [Hl Hr Hs H1 Ho Hf Hf1] Hoff Hi Hold Hnew Hok Hctx Hu Hb. split.
  - cbn [with_proc m_k k_ls]. eapply lockinv_perm, Hl. intros c. rewrite hl_with; auto.
  - intros c p Hc. assert (p <> i) by (intros ->; by apply (Hoff c)). unfold run_ok.
    rewrite pst_with, at_with, !decide_False by done. apply (Hr c p Hc).
  - intros c Hc. pose proof (Hs c Hc) as H. unfold sc_ok in *. cbn [with_proc m_sc m_cur m_k k_ls] in *.
    destruct (m_sc m c) as [| | |j| | |]; try done. change (k_procs _ ?j) with (k_procs (m_k (with_proc i pr m)) j).
    rewrite pst_with. case_decide; [|done]. subst. tauto.
  - done.
  - intros p Hp Hop. rewrite pst_with, at_with. case_decide; [by subst|]. by apply Ho.
  - intros q j b. rewrite !at_with, pst_with. intros Hq.
    assert (Hq' : forks (at_ m q) = Some (j, b)).
    { case_decide; [|done]. subst. destruct Hctx as [<-|E]; [done|congruence]. }
    destruct (Hf q j b Hq') as [Hst Hat]. destruct (decide (j = i)) as [->|]; [|done].
    destruct Hu as [Hu|Hu]; [|by apply Hu in Hq']. split; [done|]. intros ->. by eapply Hb.
  - intros q q' j b b'. rewrite !at_with. intros Hq Hq'. apply (Hf1 q q' j b b').
    + clear Hq'. destruct (decide (q = i)) as [->|]; [|done]. destruct Hctx as [<-|E]; [done|congruence].
    + clear Hq. destruct (decide (q' = i)) as [->|]; [|done]. destruct Hctx as [<-|E]; [done|congruence].
Qed.

(** The running thread moves to [x]. *)
Lemma inv_own m c p pr ls' :
  m_inv m -> m_cur m c = Some p -> wf p (context pr) -> state pr = st_of (context pr) ->
  lockinv ls' (<[c := holds p (context pr)]> (hl m)) -> same_procs (k_ls (m_k m)) ls' ->
  (forall i b, forks (context pr) = Some (i, b) -> forks (at_ m p) = Some (i, b) \/
     pst m i = USED /\ (b = true -> at_ m i = ForkRet) /\ forall q b', forks (at_ m q) = Some (i, b') -> q = p) ->
  m_inv (mkm (mkk ls' (<[p := pr]> (k_procs (m_k m))) (k_nextpid (m_k m))) (m_cur m) (m_sc m)).
Proof.
  intros I Hc Hw Hst Hl' Hp Hfk. pose proof I as [Hl Hr Hs H1 Ho Hf Hf1].
  destruct (Hr c p Hc) as (Hsp & _ & _ & _ & Hstp).
  assert (Hnu : pst m p <> USED) by (rewrite Hstp; apply st_of_live).
  set (m' := mkm _ _ _). change (k_procs (m_k m)) with (k_procs (m_k m)) in m'.
  assert (Est : forall q, pst m' q = if decide (q = p) then state pr else pst m q) by (intros q; apply (pst_with p pr m q)).
  assert (Eat : forall q, at_ m' q = if decide (q = p) then context pr else at_ m q) by (intros q; apply (at_with p pr m q)).
  assert (Hnf : forall q b, forks (at_ m q) <> Some (p, b)).
  { intros q b E. by apply Hf in E as [? _]. }
  split.
  - cbn [m' m_k k_ls]. eapply lockinv_perm, Hl'. intros c'. unfold hl. change (m_cur m') with (m_cur m).
    change (m_sc m') with (m_sc m). destruct (decide (c' = c)) as [->|Hne].
    + by rewrite fn_lookup_insert, Hc, Eat, decide_True.
    + rewrite fn_lookup_insert_ne by done. destruct (m_cur m c') as [q|] eqn:Hq; [|done].
      rewrite Eat, decide_False; [done|]. intros ->. by apply Hne, (H1 c' c p).
  - intros c' q Hq. destruct (Hr c' q Hq) as (? & ? & ? & ? & ?). unfold run_ok. rewrite Est, Eat. cbn [m' m_k k_ls m_sc].
    rewrite Hp. case_decide; subst; done.
  - intros c' Hq. pose proof (Hs c' Hq) as H. unfold sc_ok in *. change (m_sc m') with (m_sc m).
    change (m_cur m') with (m_cur m). cbn [m' m_k k_ls]. rewrite Hp. destruct (m_sc m c') as [| | |j| | |]; try done.
    change (k_procs _ ?j) with (k_procs (m_k m') j). rewrite Est. case_decide; [|done].
    subst. destruct H as (_ & _ & _ & H). by apply H in Hc.
  - apply H1.
  - intros q Hq Hoff. assert (q <> p) by (intros ->; by apply (Hoff c)). rewrite Est, Eat, !decide_False by done. by apply Ho.
  - intros q i b. rewrite !Eat, Est. intros Hq. assert (i <> p /\ pst m i = USED /\ (b = true -> at_ m i = ForkRet)) as (Hip & ? & ?).
    { case_decide; [|destruct (Hf q i b Hq); split_and!; try done; intros ->; by apply Hnf in Hq].
      subst. destruct (Hfk i b Hq) as [Hq'|(? & ? & _)]; [destruct (Hf p i b Hq'); split_and!; try done; intros ->; by apply Hnf in Hq'|].
      split_and!; [intros ->; done|done..]. }
    by rewrite !decide_False.
  - intros q q' i b b'. rewrite !Eat. intros Hq Hq'. repeat case_decide; subst; try done.
    + destruct (Hfk i b' Hq') as [E|(_ & _ & E)]; [by eapply Hf1|by rewrite (E _ _ Hq)].
    + destruct (Hfk i b Hq) as [E|(_ & _ & E)]; [by eapply Hf1|by rewrite (E _ _ Hq')].
    + by eapply Hf1.
Qed.
