(* ===== verification/SchedStep.v ===== *)
(** * The scheduler's steps keep its invariant (kernel/proc.c)

    Every step of every function of [Sched] either keeps the invariant or
    waits for a lock another hart holds; none of the panics of proc.c and
    spinlock.c is reached. *)

From S2P Require Import Prelude Spinlock Sched SchedInv.

(** A step of the code: it returns with [Q], or does not go on, and then [w]
    holds. *)
Definition safe {A} (w : Prop) (Q : A -> kst -> Prop) (r : res (A * kst)) : Prop :=
  match r with
  | Ok (x, k) => Q x k
  | Hang => w
  | Panic _ | Fault _ => False
  end.

(** Another hart than [c] holds a lock. *)
Definition waits (h : Z -> list lockid) (c : Z) : Prop := exists l c', c' <> c /\ l ∈ h c'.

Lemma safe_mono {A} (w w' : Prop) (Q Q' : A -> kst -> Prop) r :
  (w -> w') -> (forall x k, Q x k -> Q' x k) -> safe w Q r -> safe w' Q' r.
Proof. destruct r as [[? ?]| | |]; cbn; auto. Qed.

Lemma safe_bind {A B} (w : Prop) (Q : A -> kst -> Prop) (R : B -> kst -> Prop) (f : M kst A) (g : A -> M kst B) k :
  safe w Q (f k) -> (forall a k', Q a k' -> safe w R (g a k')) -> safe w R ((f ≫= g) k).
Proof. unfold mbind, M_bind. destruct (f k) as [[a k']| | |]; cbn; auto. Qed.

(** The state after the locks have become those of [ls']. *)
Definition with_ls (ls' : lst lockid) (k : kst) : kst := mkk ls' (k_procs k) (k_nextpid k).

Lemma lock_safe l c k h :
  lockinv (k_ls k) h -> l ∉ h c ->
  safe (waits h c) (fun _ k' => exists ls', k' = with_ls ls' k /\ lockinv ls' (<[c := l :: h c]> h) /\
                                same_procs (k_ls k) ls') (lock l c k).
Proof.
  intros Hi Hl. pose proof (lockinv_acquire _ _ l c Hi) as H. unfold lock, on_ls, zoom.
  destruct (acquire 1 l c (k_ls k)) as [[u ls']| | |]; cbn; try done; [exists ls'; tauto|].
  destruct H as [c' H]. exists l, c'. split; [by intros ->|done].
Qed.

Lemma unlock_safe l c k h rest :
  lockinv (k_ls k) h -> h c ≡ₚ l :: rest ->
  exists ls', unlock l c k = Ok (tt, with_ls ls' k) /\ lockinv ls' (<[c := rest]> h) /\ same_procs (k_ls k) ls'.
Proof.
  intros Hi Hp. destruct (lockinv_release _ _ l c rest Hi Hp) as (ls' & E & ? & ?).
  exists ls'. split; [|done]. unfold unlock, on_ls. by rewrite (zoom_Ok _ _ _ _ _ _ E).
Qed.

Section step.
Context (initproc : Z).

(** The invariant of the machine in the middle of a step of hart [c]. *)
Section own.
Context (m : mach) (c p : Z) (I : m_inv m) (Hc : m_cur m c = Some p).

Definition moved (x : pc) (k' : kst) : Prop := m_inv (mkm (set_at p x k') (m_cur m) (m_sc m)).

Lemma hl_cur : hl m c = holds p (at_ m p).
Proof. unfold hl. by rewrite Hc. Qed.

Lemma lock_step l x :
  l ∉ holds p (at_ m p) -> wf p x -> st_of x = st_of (at_ m p) ->
  holds p x ≡ₚ l :: holds p (at_ m p) -> forks x = None \/ forks x = forks (at_ m p) ->
  safe (waits (hl m) c) moved ((lock l c;; mret x) (m_k m)).
Proof.
  intros Hl Hw Hs Hh Hf. eapply safe_bind; [apply lock_safe; [apply I|by rewrite hl_cur]|].
  intros _ k' (ls' & -> & Hi & Hp). destruct (mi_run _ I c p Hc) as (_ & _ & _ & _ & Hst).
  apply (inv_own m c p (set_context x (k_procs (m_k m) p)) ls'); try done.
  - cbn. congruence.
  - eapply lockinv_perm, Hi. intros c'. destruct (decide (c' = c)) as [->|];
      [by rewrite !fn_lookup_insert, hl_cur|by rewrite !fn_lookup_insert_ne].
  - cbn. intros i b E. destruct Hf as [Hf|Hf]; [congruence|]. left. congruence.
Qed.

Lemma unlock_step l x :
  wf p x -> st_of x = st_of (at_ m p) ->
  holds p (at_ m p) ≡ₚ l :: holds p x -> forks x = None \/ forks x = forks (at_ m p) ->
  safe (waits (hl m) c) moved ((unlock l c;; mret x) (m_k m)).
Proof.
  intros Hw Hs Hh Hf. destruct (unlock_safe l c (m_k m) (hl m) (holds p x)) as (ls' & E & Hi & Hp);
    [apply I|by rewrite hl_cur|]. mrun E. destruct (mi_run _ I c p Hc) as (_ & _ & _ & _ & Hst).
  apply (inv_own m c p (set_context x (k_procs (m_k m) p)) ls'); try done.
  - cbn. congruence.
  - cbn. intros i b E'. destruct Hf as [Hf|Hf]; [congruence|]. left. congruence.
Qed.

(** The thread moves on to [x]; [k'] is what it did to its own process. *)
Lemma own_to k' x :
  k_ls k' = k_ls (m_k m) ->
  (forall q, q <> p -> state (k_procs k' q) = pst m q /\ context (k_procs k' q) = at_ m q) ->
  wf p x -> state (k_procs k' p) = st_of x -> holds p x ≡ₚ holds p (at_ m p) ->
  (forall i b, forks x = Some (i, b) -> forks (at_ m p) = Some (i, b) \/
     pst m i = USED /\ (b = true -> at_ m i = ForkRet) /\ forall q b', forks (at_ m q) = Some (i, b') -> q = p) ->
  moved x k'.
Proof.
  intros El Ho Hw Hs Hh Hf. set (pr := set_context x (k_procs k' p)).
  apply (inv_ext (mkm (mkk (k_ls (m_k m)) (<[p := pr]> (k_procs (m_k m))) (k_nextpid (m_k m))) (m_cur m) (m_sc m))).
  - apply (inv_own m c p pr (k_ls (m_k m))); try done.
    eapply lockinv_perm, I. intros c'. destruct (decide (c' = c)) as [->|];
      [by rewrite !fn_lookup_insert, hl_cur|by rewrite !fn_lookup_insert_ne].
  - done.
  - intros q. unfold at_. cbn. destruct (decide (q = p)) as [->|];
      [by rewrite !fn_lookup_insert|]. rewrite !fn_lookup_insert_ne by done. by apply Ho.
Qed.

Lemma ret_step x :
  wf p x -> st_of x = st_of (at_ m p) -> holds p x ≡ₚ holds p (at_ m p) ->
  forks x = None \/ forks x = forks (at_ m p) -> safe (waits (hl m) c) moved ((mret x : M kst pc) (m_k m)).
Proof.
  intros Hw Hs Hh Hf. cbn. apply own_to; try done.
  - rewrite Hs. apply (mi_run _ I c p Hc).
  - intros i b E. destruct Hf as [Hf|Hf]; [congruence|]. left. congruence.
Qed.

End own.

(** The same for an other process [i], which no hart runs. *)
Lemma off_to m i k' :
  m_inv m -> off m i -> slot i -> pst m i <> RUNNING ->
  k_ls k' = k_ls (m_k m) ->
  (forall q, q <> i -> state (k_procs k' q) = pst m q /\ context (k_procs k' q) = at_ m q) ->
  let s' := state (k_procs k' i) in let x' := context (k_procs k' i) in
  s' <> RUNNING -> off_ok i s' x' -> x' = at_ m i \/ forks x' = None ->
  (s' = USED \/ forall q b, forks (at_ m q) <> Some (i, b)) ->
  (forall q, forks (at_ m q) = Some (i, true) -> x' = ForkRet) ->
  m_inv (mkm k' (m_cur m) (m_sc m)).
Proof.
  intros I Hoff Hi Hr El Ho s' x' H1 H2 H3 H4 H5.
  apply (inv_ext (with_proc i (k_procs k' i) m)).
  - by apply inv_off.
  - done.
  - intros q. rewrite pst_with, at_with. case_decide; [by subst|by apply Ho].
Qed.

(** An unchanged entry of an updated process table. *)
#[local] Ltac pw := intros ? ?; cbn; rewrite ?fn_lookup_insert_ne by done; done.

Section functions.
Context (m : mach) (c p : Z) (I : m_inv m) (Hc : m_cur m c = Some p).

Lemma sched_safe x : at_ m p = x ->
  match x with SchedChk _ | SchedBack _ _ => True | _ => False end ->
  safe (waits (hl m) c) (moved m p) (sched_step c p x (m_k m)).
Proof.
  intros Hx Hm. destruct (mi_run _ I c p Hc) as (_ & _ & _ & Hw & Hs). rewrite Hx in Hw, Hs.
  pose proof (hl_cur m c p Hc) as Hh. rewrite Hx in Hh.
  destruct x as [| | | |r|ia r|ia r| | | | | | | | | | | | | | | | | | | | | | | | | | | | | | | | | | | | |]; try done; cbn [sched_step].
  - assert (E : on_ls (holding (PL p) c) (m_k m) = Ok (true, m_k m)).
    { unfold on_ls. rewrite (zoom_Ok _ _ _ _ _ _ (lockinv_holding _ _ (PL p) c (mi_locks _ I))), Hh.
      rewrite bool_decide_eq_true_2 by (cbn; set_solver). by destruct (m_k m). }
    mrun E. cbn [negb]. mgo. rewrite (lockinv_noff _ _ c (mi_locks _ I)), Hh. change (Z.of_nat (length (holds p (SchedChk r))) =? 1) with true.
    cbn [negb]. unfold getp. mgo. rewrite Hs. destruct (decide (st_of (SchedChk r) = RUNNING)) as [Er|_].
    { exfalso. cbn in Hw, Er. destruct r; try done; naive_solver. }
    assert (E' : on_ls (intr_get c) (m_k m) = Ok (false, m_k m)).
    { unfold on_ls, zoom, intr_get, r_sstatus. rewrite M_bind_gets.
      pose proof (lockinv_sie _ _ c (mi_locks _ I)) as Hsie. unfold sie in Hsie. rewrite Hsie by (by rewrite Hh).
      by destruct (m_k m). }
    mrun E'. mgo. apply (ret_step m c p I Hc); rewrite ?Hx; auto.
  - destruct (lockinv_cpu _ _ c (set_intena ia) ltac:(done) ltac:(by rewrite Hh) (mi_locks _ I)) as (ls' & E & Hi & ->).
    unfold on_ls. rewrite (M_bind_Ok _ _ _ _ _ (zoom_Ok _ _ _ _ _ _ E)).
    set (ls' := mklst _ _) in *. assert (Hp : same_procs (k_ls (m_k m)) ls').
    { intros c'. cbn. destruct (decide (c' = c)) as [->|]; [by rewrite fn_lookup_insert|by rewrite fn_lookup_insert_ne]. }
    pose proof (inv_ls m ls' (k_nextpid (m_k m)) I Hi Hp) as I1.
    destruct Hw as [Hw Hr]. apply (ret_step _ c p I1); try done; change (at_ _ p) with (at_ m p); rewrite Hx.
    + by destruct r.
    + destruct r; done.
    + by right.
Qed.
(** What is known of the thread at [x]. *)
#[local] Ltac at_x Hx Hw Hs Hh :=
  destruct (mi_run _ I c p Hc) as (_ & Hcp & _ & Hw & Hs); rewrite Hx in Hw, Hs;
  pose proof (hl_cur m c p Hc) as Hh; rewrite Hx in Hh; cbn [wf st_of holds] in Hw, Hs, Hh.

#[local] Ltac lks := apply (lock_step m c p I Hc).
#[local] Ltac unlks := apply (unlock_step m c p I Hc).
#[local] Ltac fin Hx := rewrite ?Hx; cbn; try naive_solver.

Lemma yield_safe x : at_ m p = x ->
  match x with YieldAcq _ | YieldSet _ | YieldRel _ => True | _ => False end ->
  safe (waits (hl m) c) (moved m p) (yield_step c p x (m_k m)).
Proof.
  intros Hx Hm. at_x Hx Hw Hs Hh. destruct x; try done; cbn [yield_step]; destruct Hw as (Hw & Hr & Hst).
  - lks; fin Hx; rewrite Hr; [apply not_elem_of_nil|done].
  - unfold updp. mgo. cbn [safe mret M_ret]. apply (own_to m c p I Hc); fin Hx; [pw|].
    by rewrite fn_lookup_insert.
  - unlks; fin Hx. by rewrite Hr.
Qed.

Lemma forkret_safe : at_ m p = ForkRet -> safe (waits (hl m) c) (moved m p) (forkret_step c p ForkRet (m_k m)).
Proof. intros Hx. cbn. unlks; fin Hx. constructor. Qed.

Lemma sleep_safe x : at_ m p = x ->
  match x with SleepAcq _ _ _ | SleepUnlk _ _ _ | SleepSet _ _ _ | SleepTidy _ _ | SleepRel _ _ | SleepLk _ _ => True
  | _ => False end ->
  safe (waits (hl m) c) (moved m p) (sleep_step c p x (m_k m)).
Proof.
  intros Hx Hm. at_x Hx Hw Hs Hh. destruct x; try done; cbn [sleep_step]; destruct Hw as (Hw & Hr & Hst & Hlk).
  - lks; fin Hx. rewrite list_elem_of_singleton. intros E. by apply (Hlk p).
  - unlks; fin Hx. apply Permutation_swap.
  - unfold updp. mgo. cbn [safe mret M_ret]. apply (own_to m c p I Hc); fin Hx; [pw|].
    by rewrite fn_lookup_insert.
  - unfold updp. mgo. cbn [safe mret M_ret]. apply (own_to m c p I Hc); fin Hx; [pw|].
    by rewrite fn_lookup_insert.
  - unlks; fin Hx.
  - lks; fin Hx; [apply not_elem_of_nil|by rewrite Hr].
Qed.

End functions.

(** A sleeping process becomes runnable: [wakeup] and [kill]. *)
Lemma wake_inv m c i pr :
  m_inv m -> PL i ∈ hl m c -> m_cur m c <> Some i -> slot i -> pst m i = SLEEPING ->
  state pr = RUNNABLE -> context pr = at_ m i -> m_inv (with_proc i pr m).
Proof.
  intros I Hl Hc Hi Hs Es Ec. assert (Hoff : off m i) by (eapply locked_off; eauto; congruence).
  destruct (mi_off _ I i Hi Hoff) as [Hok _]. rewrite Hs in Hok.
  assert (Hn : forall q b, forks (at_ m q) <> Some (i, b)) by (intros q b E; by apply (mi_fork _ I) in E as [? _]; congruence).
  apply inv_off; rewrite ?Es, ?Ec; try done; [congruence|..].
  - destruct Hok as [? Hok]. split; [done|]. by destruct (at_ m i) as [| | | | | |? []| | | | | | | | | | | | | | | | | | | | | | | | | | | | | | | | | | | | |].
  - auto.
  - auto.
  - intros q E. by apply Hn in E.
Qed.

Lemma with_ls_id k : with_ls (k_ls k) k = k.
Proof. by destruct k. Qed.

Lemma myproc_run m c : m_inv m ->
  exists ls', myproc c (m_k m) = Ok (cproc m c, with_ls ls' (m_k m)) /\ lockinv ls' (hl m) /\
    same_procs (k_ls (m_k m)) ls'.
Proof.
  intros I. destruct (lockinv_pushpop _ _ c (mi_locks _ I)) as (l1 & l2 & E1 & E2 & Hl & Hp1 & Hp2).
  exists l2. split; [|done]. unfold myproc, on_ls. rewrite (M_bind_Ok _ _ _ _ _ (zoom_Ok _ _ _ _ _ _ E1)).
  mgo. rewrite (M_bind_Ok _ _ _ _ _ (zoom_Ok k_ls _ _ (mkk l1 (k_procs (m_k m)) (k_nextpid (m_k m))) _ _ E2)).
  cbn [k_ls]. by rewrite Hp1.
Qed.

(** ** [wakeup], called by a process, an interrupt handler on the stack of a
    process, or an interrupt handler on the stack of a scheduler *)

Definition wret (x : pc) : option (channel * pc) :=
  match x with WakeLoop ch _ r | WakeTest ch _ r | WakeRel ch _ r => Some (ch, r) | _ => None end.

Section wakeup.
Context (m : mach) (c p : Z) (x : pc) (Q : pc -> kst -> Prop).
Context (I : m_inv m) (Hw : wf p x) (Hh : hl m c = holds p x).
Context (Hme : forall i, slot i -> cproc m c = Some i <-> p = i).
Context (Hcur : forall i, i <> p -> m_cur m c <> Some i).
Context (Hfin : forall m1 ls' x', m_inv m1 -> m_cur m1 = m_cur m -> m_sc m1 = m_sc m -> at_ m1 p = at_ m p ->
  wf p x' -> (exists ch r, wret x = Some (ch, r) /\ (x' = r \/ wret x' = Some (ch, r))) ->
  lockinv ls' (<[c := holds p x']> (hl m1)) -> same_procs (k_ls (m_k m1)) ls' -> Q x' (with_ls ls' (m_k m1))).

(** No lock changes. *)
Lemma wake_ret m1 x' :
  m_inv m1 -> m_cur m1 = m_cur m -> m_sc m1 = m_sc m -> at_ m1 p = at_ m p ->
  hl m1 c = holds p x' -> wf p x' -> (exists ch r, wret x = Some (ch, r) /\ (x' = r \/ wret x' = Some (ch, r))) ->
  Q x' (m_k m1).
Proof.
  intros I1 H1 H2 H3 H4 H5 H6. rewrite <- (with_ls_id (m_k m1)). apply Hfin; try done.
  eapply lockinv_perm, I1. intros c'. destruct (decide (c' = c)) as [->|];
    [by rewrite fn_lookup_insert, H4|by rewrite fn_lookup_insert_ne].
Qed.

Lemma wakeup_safe y : x = y -> is_Some (wret y) -> safe (waits (hl m) c) Q (wakeup_step c y (m_k m)).
Proof.
  intros Exy Hx. pose proof Hw as Hwy. pose proof Hh as Hhy. rewrite Exy in Hwy, Hhy.
  destruct y as [| | | | | | | | | | | | |ch i r|ch i r|ch i r| | | | | | | | | | | | | | | | | | | | | | | | | | | |];
    try (by destruct Hx); cbn [wakeup_step].
  - destruct Hwy as (Hwr & Hst & Hi & Hpl). destruct (Z.leb_spec NPROC i).
    { cbn [safe mret M_ret]. apply wake_ret; try done. exists ch, r. rewrite Exy. auto. }
    destruct (myproc_run m c I) as (ls' & E & Hl & Hp). mrun E.
    pose proof (inv_ls m ls' (k_nextpid (m_k m)) I Hl Hp) as I1. set (m1 := mkm _ _ _) in I1.
    destruct (decide (Some i = cproc m c)) as [Ei|Ei].
    { apply (wake_ret m1); try done; cbn; [split_and!; try done; lia|]. exists ch, r. rewrite Exy. auto. }
    eapply safe_bind; [apply (lock_safe (PL i) c (m_k m1) (hl m1) Hl); change (hl m1) with (hl m); rewrite Hhy; apply Hpl|].
    intros _ k' (ls2 & -> & Hl2 & Hp2). cbn [safe mret M_ret]. apply (Hfin m1); try done.
    + cbn. split_and!; try done. intros <-. apply Ei. symmetry. by apply Hme.
    + exists ch, r. rewrite Exy. auto.
    + eapply lockinv_perm, Hl2. intros c'. destruct (decide (c' = c)) as [->|]; [|by rewrite !fn_lookup_insert_ne].
      rewrite !fn_lookup_insert. change (hl m1) with (hl m). by rewrite Hhy.
  - destruct Hwy as (Hwr & Hst & Hi & Hne & Hpl). unfold getp, when, updp. mgo. case_bool_decide as Hb.
    + destruct Hb as [Hs Hch]. mgo. cbn [safe mret M_ret].
      assert (I1 : m_inv (with_proc i (set_state RUNNABLE (k_procs (m_k m) i)) m)).
      { eapply (wake_inv m c); eauto. rewrite Hhy. left. }
      apply (wake_ret _ _ I1); try done.
      * rewrite at_with. by rewrite decide_False.
      * rewrite hl_with by auto. by rewrite Hhy.
      * exists ch, r. rewrite Exy. auto.
    + cbn [safe mret M_ret]. apply wake_ret; try done. exists ch, r. rewrite Exy. auto.
  - destruct Hwy as (Hwr & Hst & Hi & Hne & Hpl).
    destruct (unlock_safe (PL i) c (m_k m) (hl m) (holds p r)) as (ls' & E & Hl & Hp); [apply I|by rewrite Hhy|].
    mrun E. cbn [safe mret M_ret]. apply Hfin; try done.
    + cbn. split_and!; try done. destruct Hi. lia.
    + exists ch, r. rewrite Exy. auto.
Qed.
End wakeup.

(** ** The other functions *)

Lemma own_fin m c p ls' y :
  m_inv m -> m_cur m c = Some p -> wf p y -> st_of y = st_of (at_ m p) ->
  forks y = None \/ forks y = forks (at_ m p) ->
  lockinv ls' (<[c := holds p y]> (hl m)) -> same_procs (k_ls (m_k m)) ls' ->
  m_inv (mkm (set_at p y (with_ls ls' (m_k m))) (m_cur m) (m_sc m)).
Proof.
  intros I Hc Hw Hs Hf Hl Hp. apply (inv_own m c p (set_context y (k_procs (m_k m) p)) ls'); try done.
  - cbn. rewrite Hs. apply (mi_run _ I c p Hc).
  - cbn. intros i b E. destruct Hf as [Hf|Hf]; [congruence|]. left. congruence.
Qed.

Lemma wret_st x : is_Some (wret x) -> st_of x = RUNNING.
Proof. destruct x; cbn; try done; by intros [? ?]. Qed.

Lemma wret_succ p x x' : wf p x ->
  (exists ch r, wret x = Some (ch, r) /\ (x' = r \/ wret x' = Some (ch, r))) ->
  st_of x' = RUNNING /\ forks x' = forks x /\ (handler x -> handler x').
Proof.
  intros Hw (ch & r & Hx & Hx'). assert (Hr : st_of r = RUNNING /\ forks r = forks x /\ (handler x -> handler r)).
  { destruct x; try done; cbn in *; injection Hx as <- <-; split_and!; try tauto; by destruct x. }
  destruct Hx' as [->|Hx']; [done|]. split; [apply wret_st; eauto|].
  destruct x; try done; destruct x'; try done; cbn in *; simplify_eq; naive_solver.
Qed.

Section calls.
Context (m : mach) (c p : Z) (I : m_inv m) (Hc : m_cur m c = Some p).

Lemma cur_me i : slot i -> cproc m c = Some i <-> p = i.
Proof. destruct (mi_run _ I c p Hc) as (_ & -> & _). naive_solver. Qed.

Lemma wakeup_thread x : at_ m p = x -> is_Some (wret x) -> safe (waits (hl m) c) (moved m p) (wakeup_step c x (m_k m)).
Proof.
  intros Hx Hr. destruct (mi_run _ I c p Hc) as (_ & _ & _ & Hw & _). rewrite Hx in Hw.
  apply (wakeup_safe m c p x); try done.
  - rewrite (hl_cur m c p Hc). by rewrite Hx.
  - intros i Hi. by apply cur_me.
  - intros i Hi. rewrite Hc. congruence.
  - intros m1 ls' x' I1 E1 E2 E3 Hw' Hs Hl Hp. unfold moved. rewrite <- E1, <- E2.
    destruct (wret_succ p x x' Hw Hs) as (Hst & Hf & _). apply (own_fin m1 c); rewrite ?E3, ?Hx, ?E1; auto.
    by rewrite Hst, wret_st.
Qed.

Lemma wakeup_intr x r : at_ m p = Intr x r -> is_Some (wret x) ->
  safe (waits (hl m) c) (fun x' => moved m p (Intr x' r)) (wakeup_step c x (m_k m)).
Proof.
  intros Hx Hr. destruct (mi_run _ I c p Hc) as (_ & _ & _ & Hw & _). rewrite Hx in Hw. destruct Hw as (Hw & Hhd & Hwr).
  apply (wakeup_safe m c p x); try done.
  - rewrite (hl_cur m c p Hc). by rewrite Hx.
  - intros i Hi. by apply cur_me.
  - intros i Hi. rewrite Hc. congruence.
  - intros m1 ls' x' I1 E1 E2 E3 Hw' Hs Hl Hp. unfold moved. rewrite <- E1, <- E2.
    destruct (wret_succ p x x' Hw Hs) as (Hst & Hf & Hhd'). apply (own_fin m1 c); rewrite ?E3, ?Hx, ?E1; cbn; auto.
Qed.

#[local] Ltac at_x Hx Hw Hs Hh :=
  destruct (mi_run _ I c p Hc) as (Hsl & Hcp & _ & Hw & Hs); rewrite Hx in Hw, Hs;
  pose proof (hl_cur m c p Hc) as Hh; rewrite Hx in Hh; cbn [wf st_of holds] in Hw, Hs, Hh.
#[local] Ltac lks := apply (lock_step m c p I Hc).
#[local] Ltac unlks := apply (unlock_step m c p I Hc).
#[local] Ltac rets := apply (ret_step m c p I Hc).
#[local] Ltac fin Hx := rewrite ?Hx; cbn; auto; try naive_solver.

Lemma kill_safe x : at_ m p = x ->
  match x with KillLoop _ _ | KillTest _ _ | KillRel _ _ _ => True | _ => False end ->
  safe (waits (hl m) c) (moved m p) (kill_step c x (m_k m)).
Proof.
  intros Hx Hm. at_x Hx Hw Hs Hh. destruct x as [| | | | | | | | | | | | | | | |n i|n i|n i found| | | | | | | | | | | | | | | | | | | | | | | | |]; try done; cbn [kill_step].
  - destruct (Z.leb_spec NPROC i); [rets; fin Hx; constructor|]. lks; fin Hx; [apply not_elem_of_nil|by split].
  - unfold getp. mgo. destruct (pid (k_procs (m_k m) i) =? n); [|rets; fin Hx].
    unfold updp. mgo. cbn [k_procs]. rewrite fn_lookup_insert. cbn [set_killed state].
    assert (I1 : m_inv (with_proc i (set_killed 1 (k_procs (m_k m) i)) m)).
    { apply (inv_ext m); try done. intros q. unfold at_. cbn. destruct (decide (q = i)) as [->|];
        [by rewrite fn_lookup_insert|by rewrite fn_lookup_insert_ne]. }
    unfold when. case_bool_decide as Hsl'.
    + mgo. assert (Hip : i <> p) by (intros ->; cbn in Hs; congruence).
      assert (I2 : m_inv (with_proc i (set_state RUNNABLE (set_killed 1 (k_procs (m_k m) i)))
                            (with_proc i (set_killed 1 (k_procs (m_k m) i)) m))).
      { eapply (wake_inv _ c); try done.
        - unfold hl. cbn. rewrite Hc. unfold at_. cbn. rewrite fn_lookup_insert_ne by done.
          unfold at_ in Hx. rewrite Hx. cbn. left.
        - cbn. congruence.
        - cbn. by rewrite fn_lookup_insert.
        - rewrite at_with. by rewrite decide_True. }
      cbn [k_procs k_ls k_nextpid]. rewrite fn_lookup_insert. apply (ret_step _ c p I2); try done; rewrite !at_with, !decide_False by done; fin Hx.
    + apply (ret_step _ c p I1); try done; rewrite ?at_with; destruct (decide (p = i)); cbn;
        try change (context (k_procs (m_k m) i)) with (at_ m i); subst; fin Hx.
  - destruct found; unlks; fin Hx; [constructor|]. destruct Hw. lia.
Qed.
(** A field of a process that the invariant does not mention. *)
Lemma field_inv i pr :
  state pr = pst m i -> context pr = at_ m i -> m_inv (with_proc i pr m).
Proof.
  intros E1 E2. apply (inv_ext m); try done. intros q. unfold at_. cbn. destruct (decide (q = i)) as [->|];
    [by rewrite fn_lookup_insert|by rewrite fn_lookup_insert_ne].
Qed.

Lemma field_at i pr q : context pr = at_ m i -> at_ (with_proc i pr m) q = at_ m q.
Proof. intros E. rewrite at_with. case_decide; congruence. Qed.

Lemma exit_safe x : at_ m p = x ->
  match x with ExitWL _ => p <> initproc | Reparent _ _ | ExitPL _ | ExitSet _ | ExitUnWL | ExitDead => True | _ => False end ->
  safe (waits (hl m) c) (moved m p) (exit_step initproc c p x (m_k m)).
Proof.
  intros Hx Hm. at_x Hx Hw Hs Hh.
  destruct x as [| | | | | | | | | | | | | | | | | | |st|st i|st|st| | | | | | | | | | | | | | | | | | | | |]; try done; cbn [exit_step].
  - destruct (Z.eqb_spec p initproc); [done|]. lks; fin Hx. apply not_elem_of_nil.
  - destruct (Z.leb_spec NPROC i).
    + unfold getp. mgo. destruct (parent (k_procs (m_k m) p)); rets; fin Hx; split_and!; try done; set_solver.
    + unfold getp. mgo. destruct (decide _) as [E|E]; [|rets; fin Hx; cbn in Hw; lia].
      unfold updp. mgo.
      pose proof (field_inv i (set_parent (Some initproc) (k_procs (m_k m) i)) eq_refl eq_refl) as I1.
      apply (ret_step _ c p I1); try done; rewrite ?field_at by done; fin Hx.
      cbn in Hw. split_and!; try done; [lia|]. set_solver.
  - lks; fin Hx. set_solver.
  - unfold updp. mgo. cbn [safe mret M_ret]. apply (own_to m c p I Hc); fin Hx; [pw|].
    by rewrite fn_lookup_insert.
  - unlks; fin Hx. apply Permutation_swap.
Qed.

Lemma wait_safe io x : at_ m p = x ->
  match x with WaitWL _ | WaitLoop _ _ _ | WaitTest _ _ | WaitNext _ _ | WaitUnKid _ _ | WaitUnWL _ => True
  | _ => False end ->
  safe (waits (hl m) c) (moved m p) (wait_step io c p x (m_k m)).
Proof.
  intros Hx Hm. at_x Hx Hw Hs Hh.
  destruct x as [| | | | | | | | | | | | | | | | | | | | | | | | |a|a i kids|a i|a i|i rv|rv| | | | | | | | | | | | |]; try done; cbn [wait_step].
  - lks; fin Hx; apply not_elem_of_nil.
  - cbn in Hw. destruct (Z.leb_spec NPROC i); unfold getp; mgo.
    + destruct (_ || _); rets; fin Hx.
    + destruct (decide _) as [E|E]; [|rets; fin Hx; lia]. lks; fin Hx; [set_solver|by split].
  - unfold getp. mgo. destruct (decide _) as [E|E]; [|rets; fin Hx]. mgo.
    destruct (_ && _); [rets; fin Hx|]. unfold freeproc, updp. mgo.
    assert (Hip : i <> p) by (intros ->; cbn in Hs; congruence).
    assert (Hoff : off m i) by (eapply (locked_off m c); try done; [rewrite Hh; left|congruence|congruence]).
    assert (I1 : m_inv (with_proc i (mkproc UNUSED None 0 0 0 None (context (k_procs (m_k m) i))) m)).
    { assert (Hn : forall q b, forks (at_ m q) <> Some (i, b)) by (intros q b E'; apply (mi_fork _ I) in E' as [? _]; congruence).
      apply inv_off; try done; cbn; auto; [congruence|]. intros q E'. by apply Hn in E'. }
    apply (ret_step _ c p I1); try done; rewrite ?at_with, ?decide_False by done; fin Hx.
  - unlks; fin Hx. destruct Hw. lia.
  - unlks; fin Hx.
  - unlks; fin Hx. constructor.
Qed.

Lemma allocpid_safe : PidLock ∉ hl m c ->
  safe (waits (hl m) c) (fun _ k' => exists ls' n', k' = mkk ls' (k_procs (m_k m)) n' /\ lockinv ls' (hl m) /\
                      same_procs (k_ls (m_k m)) ls') (allocpid c (m_k m)).
Proof.
  intros Hn. unfold allocpid. eapply safe_bind; [apply (lock_safe PidLock c (m_k m) (hl m)); [apply I|done]|].
  intros _ k' (ls' & -> & Hl & Hp). mgo.
  destruct (unlock_safe PidLock c (mkk ls' (k_procs (m_k m)) (s32 (k_nextpid (m_k m) + 1))) (<[c := PidLock :: hl m c]> (hl m))
    (hl m c)) as (ls2 & E & Hl2 & Hp2); [done|by rewrite fn_lookup_insert|]. cbn [with_ls k_ls k_procs k_nextpid].
  mrun E. cbn. eexists _, _. split; [done|]. split.
  - eapply lockinv_perm, Hl2. intros c'. destruct (decide (c' = c)) as [->|];
      [by rewrite fn_lookup_insert|by rewrite !fn_lookup_insert_ne].
  - intros c'. by rewrite Hp2, Hp.
Qed.
(** The process a [fork] works on is off and is not the one that forks. *)
Lemma forked_off i b : forks (at_ m p) = Some (i, b) -> off m i /\ i <> p.
Proof.
  intros E. apply (mi_fork _ I) in E as [E _]. assert (Hoff : off m i) by (apply unused_off; auto).
  split; [done|]. intros ->. by apply (Hoff c).
Qed.

(** The thread leaves [fork]'s claim on [i], whose state then changes. *)
Lemma unclaim_inv i b x f :
  forks (at_ m p) = Some (i, b) -> slot i -> wf p x -> st_of x = st_of (at_ m p) ->
  holds p x ≡ₚ holds p (at_ m p) -> forks x = None ->
  state (f (k_procs (m_k m) i)) <> RUNNING -> context (f (k_procs (m_k m) i)) = at_ m i ->
  off_ok i (state (f (k_procs (m_k m) i))) (at_ m i) ->
  safe (waits (hl m) c) (moved m p) ((updp i f;; mret x) (m_k m)).
Proof.
  intros E Hi Hw Hs Hh Hf H1 H2 H3. destruct (forked_off i b E) as [Hoff Hip].
  pose proof (ret_step m c p I Hc x Hw Hs Hh (or_introl Hf)) as I1. cbn in I1. unfold moved in I1.
  unfold updp. mgo. cbn [safe mret M_ret]. unfold moved.
  assert (Hn : forall q b', forks (at_ (mkm (set_at p x (m_k m)) (m_cur m) (m_sc m)) q) <> Some (i, b')).
  { intros q b' E'. unfold at_ in E'. cbn in E'. destruct (decide (q = p)) as [->|Hq].
    - rewrite fn_lookup_insert in E'. cbn in E'. congruence.
    - rewrite fn_lookup_insert_ne in E' by done. apply Hq. by eapply (mi_fork1 _ I). }
  apply (off_to _ i _ I1); try done; unfold at_; cbn; rewrite ?(fn_lookup_insert_ne _ p i), ?fn_lookup_insert by done; try done.
  - apply (mi_fork _ I) in E as [-> _]. done.
  - intros q Hq. destruct (decide (q = p)) as [->|]; [|by rewrite !fn_lookup_insert_ne].
    by rewrite !fn_lookup_insert, fn_lookup_insert_ne by done.
  - by rewrite H2.
  - auto.
  - auto.
  - intros q E'. by apply Hn in E'.
Qed.

Lemma fork_alloc_safe i : at_ m p = ForkTest i -> pst m i = UNUSED ->
  safe (waits (hl m) c) (moved m p) ((n ← allocpid c; updp i (set_pid n);; updp i (set_state USED);; mret (ForkMem i)) (m_k m)).
Proof.
  intros Hx E. at_x Hx Hw Hs Hh. assert (Hip : i <> p) by (intros ->; congruence).
  assert (Hoff : off m i) by (apply unused_off; auto).
  eapply safe_bind; [apply allocpid_safe; rewrite Hh; set_solver|]. intros n k' (ls' & n' & -> & Hl & Hp).
  pose proof (inv_ls m ls' n' I Hl Hp) as I1. set (m1 := mkm _ _ _) in I1. change (mkk ls' _ n') with (m_k m1).
  unfold updp. mgo. cbn [safe mret M_ret].
  assert (Hn : forall q b, forks (at_ m q) <> Some (i, b)).
  { intros q b E'. apply (mi_fork _ I) in E' as [? _]. congruence. }
  match goal with |- moved _ _ _ ?k => set (k2 := k) end.
  assert (Est : state (k_procs k2 i) = USED) by (unfold k2; cbn; by rewrite fn_lookup_insert).
  assert (Eat : context (k_procs k2 i) = at_ m i) by (unfold k2; cbn; by rewrite !fn_lookup_insert).
  assert (Eo : forall q, q <> i -> k_procs k2 q = k_procs (m_k m) q).
  { intros q Hq. unfold k2. cbn. by rewrite !fn_lookup_insert_ne. }
  assert (El : k_ls k2 = ls') by done. clearbody k2.
  assert (I2 : m_inv (mkm k2 (m_cur m) (m_sc m))).
  { apply (off_to m1 i k2 I1); rewrite ?Est, ?Eat; try done; auto.
    - change (pst m i <> RUNNING). congruence.
    - intros q Hq. by rewrite Eo.
    - intros q E'. by apply Hn in E'. }
  apply (own_to (mkm k2 (m_cur m) (m_sc m)) c p I2 Hc); try done.
  - rewrite Eo by done. by rewrite Hs.
  - unfold at_. cbn. rewrite Eo by done. change (context _) with (at_ m p). by rewrite Hx.
  - cbn. intros i' b [= <- <-]. right. split_and!; [done|done|]. intros q b' E'.
    exfalso. apply (Hn q b'). unfold at_ in E'. cbn in E'. destruct (decide (q = i)) as [->|]; [by rewrite Eat in E'|by rewrite Eo in E'].
Qed.

Lemma fork_safe io x : at_ m p = x ->
  match x with ForkLoop _ | ForkTest _ | ForkMem _ | ForkFail _ | ForkUnlk _ | ForkWL _ _ | ForkParent _ _
  | ForkUnWL _ _ | ForkAcq _ _ | ForkPub _ _ | ForkRel _ _ => True | _ => False end ->
  safe (waits (hl m) c) (moved m p) (fork_step io c p x (m_k m)).
Proof.
  intros Hx Hm. at_x Hx Hw Hs Hh.
  destruct x as [| | | | | | | | | | | | | | | | | | | | | | | | | | | | | | |i|i|i|i|i|i n|i n|i n|i n|i n|i n| |]; try done; cbn [fork_step].
  - destruct (Z.leb_spec NPROC i); [rets; fin Hx; constructor|]. lks; fin Hx; [apply not_elem_of_nil|by split].
  - unfold getp. mgo. destruct (decide _) as [E|E]; [by apply fork_alloc_safe|]. unlks; fin Hx. destruct Hw. lia.
  - assert (Hf : forks (at_ m p) = Some (i, false)) by (by rewrite Hx).
    destruct io; [|unfold freeproc; apply (unclaim_inv i false); fin Hx; done].
    destruct (forked_off i false Hf) as [Hoff Hip]. destruct (mi_fork _ I _ _ _ Hf) as [Hus _].
    unfold updp. mgo. pose (m1 := with_proc i (set_context ForkRet (k_procs (m_k m) i)) m).
    assert (I1 : m_inv m1).
    { apply inv_off; cbn; auto; rewrite ?Hus; done. }
    cbn [safe mret M_ret]. apply (own_to m1 c p I1 Hc); try done; rewrite ?pst_with, ?at_with, ?decide_False by done; fin Hx.
    + by rewrite fn_lookup_insert_ne.
    + unfold m1. rewrite at_with, decide_False by done. by rewrite Hx.
    + intros i' b [= <- <-]. right. unfold m1. rewrite fn_lookup_insert, at_with, decide_True by done. split_and!; [done|done|].
      intros q b'. rewrite at_with. case_decide; [done|]. intros E'. by eapply (mi_fork1 _ I).
  - unlks; fin Hx. constructor.
  - unfold getp. mgo. unlks; fin Hx.
  - lks; fin Hx. apply not_elem_of_nil.
  - unfold updp. mgo. pose proof (field_inv i (set_parent (Some p) (k_procs (m_k m) i)) eq_refl eq_refl) as I1.
    apply (ret_step _ c p I1); try done; rewrite ?field_at by done; fin Hx.
  - unlks; fin Hx.
  - lks; fin Hx. apply not_elem_of_nil.
  - assert (Hf : forks (at_ m p) = Some (i, true)) by (by rewrite Hx).
    destruct (mi_fork _ I _ _ _ Hf) as [_ Hr]. specialize (Hr eq_refl).
    apply (unclaim_inv i true); fin Hx. by rewrite Hr.
  - unlks; fin Hx. constructor.
Qed.
End calls.

End step.
