(* ===== verification/SchedThms.v ===== *)
(** * What the scheduler guarantees (kernel/proc.c)

    The invariant of [SchedInv] holds in every reachable state of the
    machine; from it, mutual exclusion of kernel threads, the absence of
    panics, the life cycle of a process, and that no wake-up is lost. *)

From S2P Require Import Prelude Spinlock Sched SchedInv SchedStep.

Section thms.
Context (initproc : Z).

(** Code outside proc.c, an interrupt handler or [swtch]: no step of a
    function of proc.c. *)
Definition elsewhere (x : pc) : Prop := match x with Run _ _ | SchedSwtch _ _ | Intr _ _ => True | _ => False end.

(** The first process is about to exit. *)
Definition init_exits (p : Z) (x : pc) : Prop := p = initproc /\ exists st, x = ExitWL st.

Lemma thread_safe m c p io :
  m_inv m -> m_cur m c = Some p -> ~ elsewhere (at_ m p) -> ~ init_exits p (at_ m p) ->
  safe (waits (hl m) c) (moved m p) (thread_step initproc io c p (at_ m p) (m_k m)).
Proof.
  intros I Hc He Hi. destruct (at_ m p) eqn:Hx; cbn [thread_step]; try (by destruct (He Logic.I)).
  all: try (by apply exit_safe; [..|intros ->; apply Hi; split; [done|by eexists]]).
  all: first [ by apply yield_safe | by apply sched_safe | by apply sleep_safe
             | by apply wakeup_thread; [..|eexists] | by apply kill_safe | by apply exit_safe | by apply wait_safe
             | by apply fork_safe | by apply forkret_safe ].
Qed.

(** ** Kernel code outside proc.c and interrupt handlers *)

Lemma CondLock_elem (l : Z) (hs : list Z) : CondLock l ∈ CondLock <$> hs <-> l ∈ hs.
Proof.
  rewrite list_elem_of_fmap. split; [|eauto]. by intros (l' & [= <-] & ?).
Qed.

Lemma fmap_filter_out (l : Z) (hs : list Z) : NoDup hs -> l ∈ hs ->
  CondLock <$> hs ≡ₚ CondLock l :: (CondLock <$> filter (fun j => j <> l) hs).
Proof.
  induction 1 as [|j hs Hj Hd IH]; [by intros ?%elem_of_nil|]. intros [<-|Hin]%elem_of_cons.
  - rewrite filter_cons_False by tauto. by rewrite filter_notin.
  - rewrite filter_cons_True by (intros ->; done). cbn. rewrite IH by done. apply Permutation_swap.
Qed.

Section handlers.
Context (m : mach) (c p : Z) (x : pc) (Q : pc -> kst -> Prop).
Context (I : m_inv m) (Hw : wf p x) (Hh : hl m c = holds p x).
Context (Hme : forall i, slot i -> cproc m c = Some i <-> p = i).
Context (Hcur : forall i, i <> p -> m_cur m c <> Some i).
Context (Hfin : forall m1 ls' x', m_inv m1 -> m_cur m1 = m_cur m -> m_sc m1 = m_sc m -> at_ m1 p = at_ m p ->
  wf p x' -> st_of x' = RUNNING -> forks x' = forks x -> (handler x -> handler x') ->
  lockinv ls' (<[c := holds p x']> (hl m1)) -> same_procs (k_ls (m_k m1)) ls' -> Q x' (with_ls ls' (m_k m1))).

Lemma handler_wakeup : is_Some (wret x) -> safe (waits (hl m) c) Q (wakeup_step c x (m_k m)).
Proof.
  intros Hr. apply (wakeup_safe m c p x); try done. intros m1 ls' x' I1 E1 E2 E3 Hw' Hs Hl Hp.
  destruct (wret_succ p x x' Hw Hs) as (? & ? & ?). by apply Hfin.
Qed.

Lemma hstep_inv y x' k' : x = y -> hstep c y (m_k m) x' k' -> Q x' k'.
Proof.
  intros Exy H. pose proof Hw as Hwy. pose proof Hh as Hhy. pose proof handler_wakeup as Hwk. rewrite Exy in Hwy, Hhy, Hwk.
  remember (m_k m) as k eqn:Ek.
  destruct H as [hs rv l k k' Hl E|hs rv l k k' Hl E|hs rv ch k|ch i r x' k k' E|ch i r x' k k' E|ch i r x' k k' E].
  4-6: (specialize (Hwk ltac:(by eexists)); by rewrite E in Hwk).
  - cbn in Hwy, Hhy. pose proof (lock_safe (CondLock l) c k (hl m)) as Hs. rewrite E in Hs. destruct Hs as (ls' & -> & Hi & Hp).
    + subst k. apply I.
    + rewrite Hhy. by rewrite CondLock_elem.
    + subst k. apply (Hfin m); try done; cbn; rewrite ?Exy; try done; [by constructor|].
      by rewrite Hhy in Hi.
  - cbn in Hwy, Hhy. destruct (unlock_safe (CondLock l) c k (hl m) (CondLock <$> filter (fun j => j <> l) hs)) as (ls' & E' & Hi & Hp).
    + subst k. apply I.
    + rewrite Hhy. by apply fmap_filter_out.
    + rewrite E' in E. injection E as <-. subst k. apply (Hfin m); try done; cbn; rewrite ?Exy; try done.
      by apply list.NoDup_filter.
  - subst k. rewrite <- (with_ls_id (m_k m)). apply Hfin; try done; cbn; rewrite ?Exy; try done.
    + split_and!; try done. intros j. rewrite list_elem_of_fmap. naive_solver.
    + eapply lockinv_perm, I. intros c'. destruct (decide (c' = c)) as [->|];
        [by rewrite fn_lookup_insert, Hhy|by rewrite fn_lookup_insert_ne].
Qed.
End handlers.
(** ** The scheduler threads and [swtch] *)

Definition pick_pc (y : sc_pc) : Prop := match y with ScSwtch _ => True | _ => False end.

Lemma inv_sched m c y ls' :
  m_inv m -> m_cur m c = None -> ~ pick_pc (m_sc m c) -> ~ pick_pc y ->
  lockinv ls' (<[c := sc_holds y]> (hl m)) ->
  (forall c', c' <> c -> c_proc (cpus ls' c') = cproc m c') ->
  sc_ok (mkm (with_ls ls' (m_k m)) (m_cur m) (<[c := y]> (m_sc m))) c ->
  m_inv (mkm (with_ls ls' (m_k m)) (m_cur m) (<[c := y]> (m_sc m))).
Proof.
  intros I Hc Hn Hy Hl Hp Hok. pose proof I as [_ Hr Hs H1 Ho Hf Hf1]. split; try done.
  - eapply lockinv_perm, Hl. intros c'. unfold hl. cbn. destruct (decide (c' = c)) as [->|];
      [by rewrite Hc, !fn_lookup_insert|by rewrite !fn_lookup_insert_ne].
  - intros c' q Hq. assert (c' <> c) by (intros ->; cbn in Hq; congruence). destruct (Hr c' q Hq) as (? & ? & ? & ?).
    split; [done|]. cbn. rewrite Hp, fn_lookup_insert_ne by done. done.
  - intros c' Hq. destruct (decide (c' = c)) as [->|Hne]; [done|]. pose proof (Hs c' Hq) as H. unfold sc_ok in *. cbn in *.
    rewrite fn_lookup_insert_ne, Hp by done. done.
  - intros q Hq Hoff. destruct (Ho q Hq Hoff) as [H Hrun]. split; [done|]. intros E. destruct (Hrun E) as (c' & Hc' & Hsc).
    exists c'. split; [done|]. cbn. rewrite fn_lookup_insert_ne; [done|]. intros <-. apply Hn. by rewrite Hsc.
Qed.

Lemma inv_pick m c i ls' n :
  m_inv m -> m_cur m c = None -> m_sc m c = ScTest i -> pst m i = RUNNABLE ->
  lockinv ls' (hl m) -> (forall c', c' <> c -> c_proc (cpus ls' c') = cproc m c') -> c_proc (cpus ls' c) = Some i ->
  m_inv (mkm (mkk ls' (<[i := set_state RUNNING (k_procs (m_k m) i)]> (k_procs (m_k m))) n)
             (m_cur m) (<[c := ScSwtch i]> (m_sc m))).
Proof.
  intros I Hc Hsc Hst Hl Hp Hpc. pose proof I as [_ Hr Hs H1 Ho Hf Hf1].
  assert (Hsl : slot i). { pose proof (Hs c Hc) as H. unfold sc_ok in H. rewrite Hsc in H. tauto. }
  assert (Hoff : off m i).
  { apply (locked_off m c); try done; [unfold hl; rewrite Hc, Hsc; left|congruence|congruence]. }
  destruct (Ho i Hsl Hoff) as [Hok _]. rewrite Hst in Hok.
  set (m' := mkm _ _ _).
  assert (Est : forall q, pst m' q = if decide (q = i) then RUNNING else pst m q) by (intros q; apply (pst_with i (set_state RUNNING (k_procs (m_k m) i)) m q)).
  assert (Eat : forall q, at_ m' q = at_ m q).
  { intros q. pose proof (at_with i (set_state RUNNING (k_procs (m_k m) i)) m q) as E. unfold at_ in E |- *. cbn in E |- *.
    rewrite E. by case_decide; subst. }
  split.
  - eapply lockinv_perm, Hl. intros c'. unfold hl. change (m_cur m') with (m_cur m). destruct (m_cur m c') as [q|] eqn:Hq; [by rewrite Eat|].
    cbn. destruct (decide (c' = c)) as [->|]; [by rewrite fn_lookup_insert, Hsc|by rewrite fn_lookup_insert_ne].
  - intros c' q Hq. change (m_cur m c' = Some q) in Hq. assert (c' <> c) by congruence. assert (q <> i) by (intros ->; by apply (Hoff c')).
    destruct (Hr c' q Hq) as (? & ? & ? & ?). unfold run_ok. rewrite Est, Eat, decide_False by done. cbn. rewrite Hp, fn_lookup_insert_ne by done. done.
  - intros c' Hq. change (m_cur m c' = None) in Hq. pose proof (Hs c' Hq) as H. unfold sc_ok in *. change (m_cur m') with (m_cur m).
    change (cproc m' c') with (c_proc (cpus ls' c')). change (m_sc m') with (<[c := ScSwtch i]> (m_sc m)).
    destruct (decide (c' = c)) as [->|]; [rewrite fn_lookup_insert; by rewrite Est, decide_True|].
    rewrite fn_lookup_insert_ne, Hp by done. destruct (m_sc m c') as [| | |j| | |]; try done. rewrite Est. case_decide; naive_solver.
  - apply H1.
  - intros q Hq Hof. rewrite Est, Eat. case_decide as E; [subst|].
    + split; [done|]. intros _. exists c. split; [done|]. apply fn_lookup_insert.
    + destruct (Ho q Hq Hof) as [H Hrun]. split; [done|]. intros E'. destruct (Hrun E') as (c' & Hc' & Hsc').
      exists c'. split; [done|]. cbn. rewrite fn_lookup_insert_ne; [done|]. congruence.
  - intros q j b. rewrite !Eat, Est. intros E. destruct (Hf q j b E). case_decide; [subst; congruence|done].
  - intros q q' j b b'. rewrite !Eat. apply Hf1.
Qed.

Lemma inv_swtch_out m c p ia r :
  m_inv m -> m_cur m c = Some p -> at_ m p = SchedSwtch ia r ->
  m_inv (mkm (set_at p (SchedBack ia r) (m_k m)) (<[c := None]> (m_cur m)) (m_sc m)).
Proof.
  intros I Hc Hx. pose proof I as [Hl Hr Hs H1 Ho Hf Hf1].
  destruct (Hr c p Hc) as (Hsl & Hcp & Hsc & Hw & Hst). rewrite Hx in Hw, Hst.
  set (pr := set_context (SchedBack ia r) (k_procs (m_k m) p)). set (m' := mkm _ _ _).
  assert (Est : forall q, pst m' q = pst m q).
  { intros q. change (pst m' q) with (pst (with_proc p pr m) q). rewrite pst_with. by case_decide; subst. }
  assert (Eat : forall q, at_ m' q = if decide (q = p) then SchedBack ia r else at_ m q) by (intros q; apply (at_with p pr m q)).
  assert (Ecur : forall c' q, m_cur m' c' = Some q -> c' <> c /\ m_cur m c' = Some q /\ q <> p).
  { intros c' q. cbn. destruct (decide (c' = c)) as [->|Hne]; [by rewrite fn_lookup_insert|].
    rewrite fn_lookup_insert_ne by done. intros E. split_and!; [done|done|]. intros ->. by apply Hne, (H1 c' c p). }
  assert (Efk : forall q, forks (at_ m' q) = forks (at_ m q)).
  { intros q. rewrite Eat. case_decide; [by subst; rewrite Hx|done]. }
  split.
  - eapply lockinv_perm, Hl. intros c'. unfold hl. destruct (decide (c' = c)) as [->|Hne].
    + cbn. by rewrite fn_lookup_insert, Hc, Hx, Hsc.
    + destruct (m_cur m' c') as [q|] eqn:Hq.
      * destruct (Ecur c' q Hq) as (_ & Hq' & Hqp). by rewrite Hq', Eat, decide_False.
      * cbn in Hq. rewrite fn_lookup_insert_ne in Hq by done. by rewrite Hq.
  - intros c' q Hq. destruct (Ecur c' q Hq) as (_ & Hq' & Hqp). unfold run_ok. rewrite Est, Eat, decide_False by done. by apply Hr.
  - intros c' Hq. unfold sc_ok. change (m_sc m') with (m_sc m). destruct (decide (c' = c)) as [->|Hne]; [by rewrite Hsc|].
    cbn in Hq. rewrite fn_lookup_insert_ne in Hq by done. pose proof (Hs c' Hq) as H. unfold sc_ok in H.
    destruct (m_sc m c'); try done. rewrite Est. destruct H as (? & ? & ? & H). split_and!; try done; try apply H0.
    intros c'' E. by destruct (Ecur c'' _ E) as (_ & E' & _); apply H in E'.
  - intros c1 c2 q Hq Hq'. destruct (Ecur _ _ Hq) as (_ & ? & _), (Ecur _ _ Hq') as (_ & ? & _). by eapply H1.
  - intros q Hq Hof. rewrite Est, Eat. case_decide as E.
    + subst q. rewrite Hst. cbn in Hw |- *. destruct r; try done; (split; [tauto|done]).
    + destruct (Ho q Hq) as [H Hrun].
      { intros c' Hc'. apply (Hof c'). cbn. rewrite fn_lookup_insert_ne; [done|]. congruence. }
      split; [done|]. intros E'. destruct (Hrun E') as (c' & Hc' & Hsc'). exists c'. split; [|done].
      cbn. rewrite fn_lookup_insert_ne; [done|]. congruence.
  - intros q j b. rewrite Efk, Est. intros E. destruct (Hf q j b E) as [E1 E2]. split; [done|]. intros Eb.
    rewrite Eat, decide_False; [by apply E2|]. intros ->. rewrite Hst in E1. by destruct (st_of_live (SchedSwtch ia r)).
  - intros q q' j b b'. rewrite !Efk. apply Hf1.
Qed.

Lemma inv_swtch_in m c p :
  m_inv m -> m_cur m c = None -> m_sc m c = ScSwtch p ->
  m_inv (mkm (m_k m) (<[c := Some p]> (m_cur m)) (<[c := ScBack p]> (m_sc m))).
Proof.
  intros I Hc Hsc. pose proof I as [Hl Hr Hs H1 Ho Hf Hf1].
  pose proof (Hs c Hc) as Hok. unfold sc_ok in Hok. rewrite Hsc in Hok. destruct Hok as (Hsl & Hcp & Hst & Hoff).
  destruct (Ho p Hsl Hoff) as [Hok _]. rewrite Hst in Hok. destruct Hok as [Hw Hctx].
  assert (Hholds : holds p (at_ m p) = [PL p] /\ st_of (at_ m p) = RUNNING).
  { destruct (at_ m p) as [| | | | | |? []| | | | | | | | | | | | | | | | | | | | | | | | | | | | | | | | | | | | |]; done. }
  set (m' := mkm _ _ _). change (at_ m) with (at_ m') in *.
  assert (Ecur : forall c', c' <> c -> m_cur m' c' = m_cur m c') by (intros c' ?; cbn; by rewrite fn_lookup_insert_ne).
  assert (Esc : forall c', c' <> c -> m_sc m' c' = m_sc m c') by (intros c' ?; cbn; by rewrite fn_lookup_insert_ne).
  assert (Ec : m_cur m' c = Some p) by apply fn_lookup_insert.
  assert (Es : m_sc m' c = ScBack p) by apply fn_lookup_insert.
  split; try done.
  - eapply lockinv_perm, Hl. intros c'. unfold hl. destruct (decide (c' = c)) as [->|Hne].
    + rewrite Ec, Hc, Hsc. cbn. by destruct Hholds as [-> _].
    + by rewrite Ecur, Esc.
  - intros c' q Hq. destruct (decide (c' = c)) as [->|Hne].
    + rewrite Ec in Hq. injection Hq as <-. unfold run_ok. rewrite Es. split_and!; try done; try apply Hsl.
      change (pst m p = st_of (at_ m' p)). rewrite Hst. symmetry. apply Hholds.
    + rewrite Ecur in Hq by done. unfold run_ok. rewrite Esc by done. by apply Hr.
  - intros c' Hq. destruct (decide (c' = c)) as [->|Hne]; [congruence|]. rewrite Ecur in Hq by done.
    pose proof (Hs c' Hq) as H. unfold sc_ok in *. rewrite Esc by done. destruct (m_sc m c') as [| | |j| | |] eqn:Ej; try done.
    destruct H as (? & ? & ? & Hj). split_and!; try done; try apply H. intros c''. destruct (decide (c'' = c)) as [->|]; [|by rewrite Ecur].
    rewrite Ec. intros [= ->]. apply Hne. apply (lockinv_one _ _ (PL j) c' c Hl); unfold hl.
    + rewrite Hq, Ej. left.
    + rewrite Hc, Hsc. left.
  - intros c1 c2 q Hq Hq'. destruct (decide (c1 = c)) as [->|], (decide (c2 = c)) as [->|]; try done.
    + rewrite Ec in Hq. injection Hq as <-. rewrite Ecur in Hq' by done. by apply Hoff in Hq'.
    + rewrite Ec in Hq'. injection Hq' as <-. rewrite Ecur in Hq by done. by apply Hoff in Hq.
    + rewrite Ecur in Hq, Hq' by done. by eapply H1.
  - intros q Hq Hof. assert (q <> p) by (intros ->; by apply (Hof c)). destruct (Ho q Hq) as [H' Hrun].
    { intros c' Hc'. apply (Hof c'). rewrite Ecur; [done|]. congruence. }
    split; [done|]. intros E'. destruct (Hrun E') as (c' & Hc' & Hsc'). exists c'. assert (c' <> c) by congruence. by rewrite Ecur, Esc.
Qed.

(** The machine after a step of the scheduler thread of [c]. *)
Definition sc_moved (m : mach) (c : Z) (y : sc_pc) (k' : kst) : Prop :=
  m_inv (mkm k' (m_cur m) (<[c := y]> (m_sc m))).

Lemma hl_sched m c : m_cur m c = None -> hl m c = sc_holds (m_sc m c).
Proof. unfold hl. by intros ->. Qed.

(** A change of the scheduler's position that touches no lock. *)
Lemma sc_ret m c y :
  m_inv m -> m_cur m c = None -> ~ pick_pc (m_sc m c) -> ~ pick_pc y -> sc_holds y = sc_holds (m_sc m c) ->
  sc_ok (mkm (m_k m) (m_cur m) (<[c := y]> (m_sc m))) c -> sc_moved m c y (m_k m).
Proof.
  intros I Hc Hn Hy Hh Hok. unfold sc_moved. rewrite <- (with_ls_id (m_k m)) in Hok |- *. apply inv_sched; try done.
  eapply lockinv_perm, I. intros c'. destruct (decide (c' = c)) as [->|];
    [by rewrite fn_lookup_insert, Hh, hl_sched|by rewrite fn_lookup_insert_ne].
Qed.

Definition sc_elsewhere (x : sc_pc) : Prop := match x with ScSwtch _ | ScIntr _ _ => True | _ => False end.

Lemma scheduler_safe m c :
  m_inv m -> m_cur m c = None -> ~ sc_elsewhere (m_sc m c) -> safe (waits (hl m) c) (sc_moved m c) (scheduler_step c (m_sc m c) (m_k m)).
Proof.
  intros I Hc He. pose proof (mi_sc _ I c Hc) as Hok. pose proof (hl_sched m c Hc) as Hh. unfold sc_ok in Hok.
  destruct (m_sc m c) as [|i|i|i|i|i|i x] eqn:Hx; cbn [scheduler_step]; try (by destruct (He Logic.I)); cbn [sc_holds] in Hh.
  - destruct (lockinv_intr_on _ _ c (mi_locks _ I) Hh) as (ls' & E & Hl & Hp).
    unfold on_ls. rewrite (M_bind_Ok _ _ _ _ _ (zoom_Ok _ _ _ _ _ _ E)). cbn [safe mret M_ret].
    apply inv_sched; rewrite ?Hx; try done; try (by intros []).
    + eapply lockinv_perm, Hl. intros c'. destruct (decide (c' = c)) as [->|];
        [by rewrite fn_lookup_insert, Hh|by rewrite fn_lookup_insert_ne].
    + unfold sc_ok. cbn. rewrite fn_lookup_insert. by rewrite Hp.
  - destruct (Z.leb_spec NPROC i).
    { cbn [safe mret M_ret]. apply sc_ret; rewrite ?Hx; try done; try (by intros []). unfold sc_ok. cbn. rewrite fn_lookup_insert. tauto. }
    eapply safe_bind; [apply (lock_safe (PL i) c (m_k m) (hl m) (mi_locks _ I)); rewrite Hh; apply not_elem_of_nil|].
    intros _ k' (ls' & -> & Hl & Hp). cbn [safe mret M_ret]. apply inv_sched; rewrite ?Hx; try done; try (by intros []).
    + by rewrite Hh in Hl.
    + unfold sc_ok. cbn. rewrite fn_lookup_insert, Hp. split; [split; tauto|tauto].
  - unfold getp. mgo. destruct (decide _) as [E|E].
    + unfold updp. mgo. set (k1 := mkk (k_ls (m_k m)) _ _).
      destruct (lockinv_cpu _ _ c (set_proc (Some i)) ltac:(done) ltac:(by rewrite Hh) (mi_locks _ I)) as (ls' & E' & Hl & Els).
      unfold on_ls. rewrite (M_bind_Ok _ _ _ _ _ (zoom_Ok k_ls _ _ k1 _ _ E')). cbn [safe mret M_ret].
      apply inv_pick; try done; rewrite Els; cbn; [intros c' ?; by rewrite fn_lookup_insert_ne|by rewrite fn_lookup_insert].
    + cbn [safe mret M_ret]. apply sc_ret; rewrite ?Hx; try done; try (by intros []). unfold sc_ok. cbn. by rewrite fn_lookup_insert.
  - destruct (lockinv_cpu _ _ c (set_proc None) ltac:(done) ltac:(by rewrite Hh) (mi_locks _ I)) as (ls' & E' & Hl & Els).
    unfold on_ls. rewrite (M_bind_Ok _ _ _ _ _ (zoom_Ok k_ls _ _ _ _ _ E')). cbn [safe mret M_ret].
    apply inv_sched; rewrite ?Hx; try done; try (by intros []).
    + eapply lockinv_perm, Hl. intros c'. destruct (decide (c' = c)) as [->|];
        [by rewrite fn_lookup_insert, Hh|by rewrite fn_lookup_insert_ne].
    + rewrite Els. cbn. intros c' ?. by rewrite fn_lookup_insert_ne.
    + unfold sc_ok. cbn. rewrite fn_lookup_insert, Els. cbn. rewrite fn_lookup_insert. by split; [apply Hok|].
  - destruct (unlock_safe (PL i) c (m_k m) (hl m) []) as (ls' & E & Hl & Hp); [apply I|by rewrite Hh|].
    mrun E. cbn [safe mret M_ret]. apply inv_sched; rewrite ?Hx; try done; try (by intros []).
    unfold sc_ok. cbn. rewrite fn_lookup_insert, Hp. destruct Hok as [[] ?]. split; [lia|done].
Qed.

(** An interrupt handler on the scheduler's stack. *)
Lemma sc_handler m c i x Q :
  m_inv m -> m_cur m c = None -> m_sc m c = ScIntr i x ->
  (forall y k', sc_moved m c (ScIntr i y) k' -> Q y k') ->
  (is_Some (wret x) -> safe (waits (hl m) c) Q (wakeup_step c x (m_k m))) /\
  (forall x' k', hstep c x (m_k m) x' k' -> Q x' k').
Proof.
  intros I Hc Hx HQ. pose proof (mi_sc _ I c Hc) as Hok. unfold sc_ok in Hok. rewrite Hx in Hok.
  destruct Hok as (Hi & Hcp & Hw & Hhd). pose proof (hl_sched m c Hc) as Hh. rewrite Hx in Hh. cbn in Hh.
  assert (Hme : forall j, slot j -> cproc m c = Some j <-> -1 = j).
  { intros j Hj. rewrite Hcp. split; [done|]. intros <-. by destruct Hj. }
  assert (Hcur : forall j, j <> -1 -> m_cur m c <> Some j) by (by rewrite Hc).
  assert (Hfin : forall m1 ls' x', m_inv m1 -> m_cur m1 = m_cur m -> m_sc m1 = m_sc m -> at_ m1 (-1) = at_ m (-1) ->
    wf (-1) x' -> st_of x' = RUNNING -> forks x' = forks x -> (handler x -> handler x') ->
    lockinv ls' (<[c := holds (-1) x']> (hl m1)) -> same_procs (k_ls (m_k m1)) ls' -> Q x' (with_ls ls' (m_k m1))).
  { intros m1 ls' x' I1 E1 E2 _ Hw' _ _ Hhd' Hl Hp. apply HQ. unfold sc_moved. rewrite <- E1, <- E2.
    pose proof (mi_sc _ I1 c ltac:(by rewrite E1)) as Hok1. unfold sc_ok in Hok1. rewrite E2, Hx in Hok1.
    apply inv_sched; rewrite ?E1, ?E2, ?Hx; try done; try (by intros []). unfold sc_ok. cbn. rewrite fn_lookup_insert, Hp. tauto. }
  split.
  - by apply (handler_wakeup m c (-1) x).
  - intros x' k'. by apply (hstep_inv m c (-1) x Q).
Qed.

(** The same on a process's stack, with [K] what is below the handler. *)
Lemma own_handler m c p x K :
  m_inv m -> m_cur m c = Some p -> at_ m p = K x -> is_Some (wret x) \/ (exists hs rv, x = Run hs rv) ->
  K = (fun y => y) \/ (exists r, K = fun y => Intr y r) ->
  (is_Some (wret x) -> safe (waits (hl m) c) (fun y => moved m p (K y)) (wakeup_step c x (m_k m))) /\
  (forall x' k', hstep c x (m_k m) x' k' -> moved m p (K x') k').
Proof.
  intros I Hc Hx Hk HK. destruct (mi_run _ I c p Hc) as (_ & _ & _ & Hw & Hst). rewrite Hx in Hw, Hst.
  assert (HwK : wf p x /\ forall y, holds p (K y) = holds p y /\ (st_of y = RUNNING -> st_of (K y) = RUNNING) /\
    (wf p y -> (handler x -> handler y) -> wf p (K y)) /\ (forks y = forks x -> forks (K y) = forks (K x))).
  { destruct HK as [->|[r ->]]; [done|]. cbn in Hw |- *. split; [tauto|]. intros y. split_and!; tauto. }
  destruct HwK as [Hwx HwK].
  assert (Hsx : st_of x = RUNNING) by (destruct Hk as [?|(? & ? & ->)]; [by apply wret_st|done]).
  assert (Hfin : forall m1 ls' x', m_inv m1 -> m_cur m1 = m_cur m -> m_sc m1 = m_sc m -> at_ m1 p = at_ m p ->
    wf p x' -> st_of x' = RUNNING -> forks x' = forks x -> (handler x -> handler x') ->
    lockinv ls' (<[c := holds p x']> (hl m1)) -> same_procs (k_ls (m_k m1)) ls' -> moved m p (K x') (with_ls ls' (m_k m1))).
  { intros m1 ls' x' I1 E1 E2 E3 Hw' Hs' Hf' Hhd' Hl Hp. unfold moved. rewrite <- E1, <- E2.
    destruct (HwK x') as (Eh & Es & Ew & Ef), (HwK x) as (_ & Esx & _). apply (own_fin m1 c); rewrite ?E3, ?Hx, ?E1; auto.
    - rewrite Es by done. by rewrite Esx.
    - by rewrite Eh. }
  assert (Hhl : hl m c = holds p x) by (rewrite (hl_cur m c p Hc), Hx; apply HwK).
  assert (Hcur : forall i, i <> p -> m_cur m c <> Some i) by (intros i Hi; rewrite Hc; congruence).
  split.
  - apply (handler_wakeup m c p x); try done. intros i Hi. by apply cur_me.
  - intros x' k'. apply (hstep_inv m c p x (fun y => moved m p (K y))); try done. intros i Hi. by apply cur_me.
Qed.

(** ** The invariant holds *)

Lemma st_running p x : wf p x -> holds p x = [] -> st_of x = RUNNING.
Proof.
  intros Hw Hh. destruct (decide (st_of x = RUNNING)) as [|Hn]; [done|].
  pose proof (st_of_locked p x Hw Hn) as H. rewrite Hh in H. by apply not_elem_of_nil in H.
Qed.

Lemma enter_inv m c p hs rv call x :
  m_inv m -> m_cur m c = Some p -> at_ m p = Run hs rv -> enter hs rv call = Some x -> moved m p x (m_k m).
Proof.
  intros I Hc Hx He. destruct (mi_run _ I c p Hc) as (_ & _ & _ & Hw & _). rewrite Hx in Hw. cbn in Hw.
  assert (H : wf p x /\ st_of x = RUNNING /\ holds p x = holds p (Run hs rv) /\ forks x = None).
  { destruct call; cbn in He; case_decide; simplify_eq; cbn; split_and!; try done. }
  destruct H as (H1 & H2 & H3 & H4). apply (ret_step m c p I Hc x); rewrite ?Hx, ?H2, ?H3; auto.
Qed.

Lemma hstep_kind c x k x' k' : hstep c x k x' k' -> is_Some (wret x) \/ exists hs rv, x = Run hs rv.
Proof. destruct 1; cbn; eauto. Qed.

Lemma m_step_inv m m' : mstep initproc m m' -> m_inv m -> m_inv m'.
Proof.
  destruct 1 as [k cur sc c p io x k' Hc H|k cur sc c p hs rv call x Hc Hx He|k cur sc c p x k' Hc H
    |k cur sc c p Hc Hh|k cur sc c p Hc Hh|k cur sc c p x x' r k' Hc Hx H|k cur sc c p rv r Hc Hx
    |k cur sc c p ia r Hc Hx|k cur sc c x k' Hc H|k cur sc c i Hc Hx|k cur sc c i x x' k' Hc Hx H
    |k cur sc c i rv Hc Hx|k cur sc c p Hc Hx]; intros I; set (m := mkm k cur sc) in *.
  - assert (safe (waits (hl m) c) (moved m p) (thread_step initproc io c p (at_ m p) k)) as Hs.
    { apply thread_safe; [done|done|..]; unfold at_; cbn.
      - intros He. by destruct (context (k_procs k p)).
      - intros [-> [st Est]]. rewrite Est in H. cbn in H. by rewrite Z.eqb_refl in H. }
    unfold at_ in Hs. cbn in Hs. by rewrite H in Hs.
  - by apply (enter_inv m c p hs rv call x).
  - by apply (own_handler m c p (at_ m p) (fun y => y) I Hc eq_refl (hstep_kind _ _ _ _ _ H) (or_introl eq_refl)).
  - destruct (mi_run _ I c p Hc) as (_ & _ & _ & Hw & _). assert (Hst := st_running p _ Hw Hh).
    apply (ret_step m c p I Hc (YieldAcq (at_ m p))); cbn; auto.
  - destruct (mi_run _ I c p Hc) as (_ & _ & _ & Hw & _). assert (Hst := st_running p _ Hw Hh).
    apply (ret_step m c p I Hc (Intr (Run [] 0) (at_ m p))); cbn; auto.
    + split_and!; try done. constructor.
    + unfold at_. cbn. by rewrite Hh.
  - apply (own_handler m c p x (fun y => Intr y r) I Hc Hx (hstep_kind _ _ _ _ _ H)); eauto.
  - destruct (mi_run _ I c p Hc) as (_ & _ & _ & Hw & _). unfold at_ in Hw. cbn in Hw. rewrite Hx in Hw.
    destruct Hw as (_ & _ & Hw & Hh & Hst).
    apply (ret_step m c p I Hc r); unfold at_; cbn; rewrite ?Hx; auto. by rewrite Hh.
  - by apply (inv_swtch_out m c p ia r).
  - assert (safe (waits (hl m) c) (sc_moved m c) (scheduler_step c (m_sc m c) k)) as Hs.
    { apply scheduler_safe; [done|done|]. cbn. intros He. by destruct (sc c). }
    cbn in Hs. by rewrite H in Hs.
  - pose proof (mi_sc _ I c Hc) as Hok. unfold sc_ok in Hok. cbn in Hok. rewrite Hx in Hok.
    apply (sc_ret m c); cbn; rewrite ?Hx; try done; try (by intros []).
    unfold sc_ok. cbn. rewrite fn_lookup_insert. split_and!; try tauto; try done. constructor.
  - destruct (sc_handler m c i x (fun y k1 => sc_moved m c (ScIntr i y) k1) I Hc Hx) as [_ Hs]; [done|]. by apply Hs.
  - pose proof (mi_sc _ I c Hc) as Hok. unfold sc_ok in Hok. cbn in Hok. rewrite Hx in Hok.
    apply (sc_ret m c); cbn; rewrite ?Hx; try done; try (by intros []).
    unfold sc_ok. cbn. rewrite fn_lookup_insert. tauto.
  - by apply (inv_swtch_in m c p).
Qed.

Lemma m_start_inv m : m_start initproc m -> m_inv m.
Proof.
  intros (Hsl & Hl & Hc & Hp).
  assert (Hcur : forall c, m_cur m c = None) by (intros c; apply Hc).
  assert (Hf : forall q, forks (at_ m q) = None) by (intros q; by rewrite (proj1 (Hp q))).
  split.
  - exists (fun _ => false). apply sp_reachable_inv. exists (mksp (k_ls (m_k m)) (fun _ => Out) (hl m) (fun _ => false)).
    split; [|apply rtc_refl]. split; [done|]. intros c. cbn. destruct (Hc c) as (E & Es & Hn & _ & Hi).
    unfold hl. by rewrite E, Es.
  - intros c p E. by rewrite Hcur in E.
  - intros c _. unfold sc_ok. destruct (Hc c) as (_ & -> & _ & -> & _). done.
  - intros c c' p E. by rewrite Hcur in E.
  - intros p Hp' _. destruct (Hp p) as [-> ->]. destruct (p =? initproc); done.
  - intros q i b E. by rewrite Hf in E.
  - intros q q' i b b' E. by rewrite Hf in E.
Qed.

Lemma m_reachable_inv m : m_reachable initproc m -> m_inv m.
Proof.
  intros (m0 & H0 & Hs). apply m_start_inv in H0. clear -H0 Hs.
  induction Hs as [|? ? ? H _ IH]; [done|]. apply IH. by eapply m_step_inv.
Qed.

(** C7: In every reachable state of the machine, whatever the interleaving of
    harts, kernel threads and interrupts: no two harts run the thread of the
    same process, and a hart that runs one has it as [myproc()]; no two harts
    are at points of the code that hold the same lock, and a lock is marked as
    held if and only if some hart is at such a point; a process that is
    RUNNABLE, SLEEPING or ZOMBIE and whose lock is free is on no hart, so that
    its kernel stack can be resumed or freed.  Every step of a function of
    proc.c, in a process, in the scheduler thread or in an interrupt handler
    that calls [wakeup], is carried out, or spins while another hart holds a
    lock: it reaches no panic, but when the first process calls [exit]. *)
Theorem kernel_threads_exclusive m (Hr : m_reachable initproc m) :
  (forall c c' p, m_cur m c = Some p -> m_cur m c' = Some p -> c = c') /\
  (forall c p, m_cur m c = Some p -> exists ls', myproc c (m_k m) = Ok (Some p, with_ls ls' (m_k m))) /\
  (forall c c' l, l ∈ hl m c -> l ∈ hl m c' -> c = c') /\
  (forall l, locked (locks (k_ls (m_k m)) l) <> 0 <-> exists c, l ∈ hl m c) /\
  (forall p, pst m p = RUNNABLE \/ pst m p = SLEEPING \/ pst m p = ZOMBIE ->
     locked (locks (k_ls (m_k m)) (PL p)) = 0 -> forall c, m_cur m c <> Some p) /\
  (forall c p io, m_cur m c = Some p -> ~ elsewhere (at_ m p) -> ~ init_exits p (at_ m p) ->
     safe (waits (hl m) c) (fun _ _ => True) (thread_step initproc io c p (at_ m p) (m_k m))) /\
  (forall c, m_cur m c = None -> ~ sc_elsewhere (m_sc m c) ->
     safe (waits (hl m) c) (fun _ _ => True) (scheduler_step c (m_sc m c) (m_k m))) /\
  (forall c p x r, m_cur m c = Some p -> at_ m p = Intr x r -> is_Some (wret x) ->
     safe (waits (hl m) c) (fun _ _ => True) (wakeup_step c x (m_k m))) /\
  (forall c i x, m_cur m c = None -> m_sc m c = ScIntr i x -> is_Some (wret x) ->
     safe (waits (hl m) c) (fun _ _ => True) (wakeup_step c x (m_k m))).
Proof.
  apply m_reachable_inv in Hr as I.
  split_and!.
  - apply I.
  - intros c p Hc. destruct (myproc_run m c I) as (ls' & E & _). destruct (mi_run _ I c p Hc) as (_ & Hp & _).
    rewrite Hp in E. eauto.
  - intros c c' l. apply (lockinv_one _ _ l c c' (mi_locks _ I)).
  - intros l. destruct (lockinv_word _ _ l (mi_locks _ I)) as [[H0 Hno]|[H1 Hin]].
    + rewrite H0. split; [done|]. intros [c Hc]. by apply Hno in Hc.
    + rewrite H1. done.
  - intros p Hs Hl c Hc. destruct (mi_run _ I c p Hc) as (_ & _ & _ & Hw & Hst).
    destruct (lockinv_word _ _ (PL p) (mi_locks _ I)) as [[_ Hno]|[? _]]; [|lia]. apply (Hno c).
    unfold hl. rewrite Hc. apply st_of_locked; [done|]. rewrite <- Hst. by destruct Hs as [-> |[-> | ->]].
  - intros c p io Hc He Hi. eapply safe_mono; [done|done|by apply thread_safe].
  - intros c Hc He. eapply safe_mono; [done|done|by apply scheduler_safe].
  - intros c p x r Hc Hx Hw. destruct (own_handler m c p x (fun y => Intr y r) I Hc Hx (or_introl Hw)) as [Hs _]; [eauto|].
    by eapply safe_mono; [| |apply Hs].
  - intros c i x Hc Hx Hw. destruct (sc_handler m c i x (fun y k1 => sc_moved m c (ScIntr i y) k1) I Hc Hx) as [Hs _]; [done|].
    by eapply safe_mono; [| |apply Hs].
Qed.

End thms.

(** The machine after [userinit], and after hart 2 has picked the first
    process and run it out of [forkret]. *)
Definition demo_start : mach :=
  mkm (mkk (mklst (fun _ => mkcpu None 0 false 0) (fun _ => mklk 0 "lock" None))
           (fun i => mkproc (if i =? 0 then RUNNABLE else UNUSED) None 0 0 0 None ForkRet) 2)
      (fun _ => None) (fun _ => ScRound).

Lemma demo_start_ok : m_start 0 demo_start.
Proof. split_and!; try done. Qed.

Definition demo_sc (m : mach) : mach :=
  match scheduler_step 2 (m_sc m 2) (m_k m) with
  | Ok (y, k') => mkm k' (m_cur m) (<[2 := y]> (m_sc m))
  | _ => m
  end.

Definition demo_in : mach :=
  let m := demo_sc (demo_sc (demo_sc demo_start)) in
  mkm (m_k m) (<[2 := Some 0]> (m_cur m)) (<[2 := ScBack 0]> (m_sc m)).

Definition demo_run : mach :=
  match thread_step 0 true 2 0 (at_ demo_in 0) (m_k demo_in) with
  | Ok (x, k') => mkm (set_at 0 x k') (m_cur demo_in) (m_sc demo_in)
  | _ => demo_in
  end.

Lemma demo_run_reachable : m_reachable 0 demo_run.
Proof.
  exists demo_start. split; [exact demo_start_ok|].
  apply (rtc_l _ _ (demo_sc demo_start)); [by eapply (m_scheduler _ _ _ _ 2)|].
  apply (rtc_l _ _ (demo_sc (demo_sc demo_start))); [by eapply (m_scheduler _ _ _ _ 2)|].
  apply (rtc_l _ _ (demo_sc (demo_sc (demo_sc demo_start)))); [by eapply (m_scheduler _ _ _ _ 2)|].
  apply (rtc_l _ _ demo_in); [by eapply (m_swtch_in _ _ _ _ 2 0)|].
  apply rtc_once. by eapply (m_thread _ _ _ _ 2 0 true).
Qed.

Lemma kernel_threads_exclusive_witness :
  at_ demo_run 0 = Run [] 0 /\ forall c, m_cur demo_run c = Some 0 -> c = 2.
Proof.
  destruct (kernel_threads_exclusive 0 demo_run demo_run_reachable) as (H & _).
  split; [reflexivity|]. intros c E. exact (H c 2 0 E eq_refl).
Defined.
