(* ===== verification/SchedWake.v ===== *)
(** * Process life cycle and wake-ups (kernel/proc.c)

    A process's state only moves along the edges of [life], under its own
    lock; and a process that has begun to sleep on a channel is awake before
    any [wakeup] of that channel that starts afterwards returns. *)

From S2P Require Import Prelude Spinlock Sched SchedInv SchedStep SchedThms.

(** The edges of the state diagram. *)
Definition life (s s' : procstate) : bool :=
  bool_decide (s = s') ||
  match s, s' with
  | UNUSED, USED          (* allocproc *)
  | USED, RUNNABLE        (* fork, userinit *)
  | USED, UNUSED          (* allocproc or fork fails *)
  | RUNNABLE, RUNNING     (* scheduler *)
  | RUNNING, RUNNABLE     (* yield *)
  | RUNNING, SLEEPING     (* sleep *)
  | SLEEPING, RUNNABLE    (* wakeup, kill *)
  | RUNNING, ZOMBIE       (* exit *)
  | ZOMBIE, UNUSED        (* wait *)
    => true
  | _, _ => false
  end.

Lemma life_refl s : life s s = true.
Proof. unfold life. by rewrite bool_decide_eq_true_2. Qed.

Lemma on_ls_procs {A} (f : M (lst lockid) A) k a k' : on_ls f k = Ok (a, k') -> k_procs k' = k_procs k.
Proof. intros H. apply zoom_inv in H as (t & _ & ->). done. Qed.

Lemma lock_procs l c k u k' : lock l c k = Ok (u, k') -> k_procs k' = k_procs k.
Proof. apply on_ls_procs. Qed.

Lemma unlock_procs l c k u k' : unlock l c k = Ok (u, k') -> k_procs k' = k_procs k.
Proof. apply on_ls_procs. Qed.

Lemma myproc_procs c k u k' : myproc c k = Ok (u, k') -> k_procs k' = k_procs k.
Proof.
  unfold myproc. intros H. mdestruct H.
  repeat match goal with E : on_ls _ _ = Ok _ |- _ => apply on_ls_procs in E end. congruence.
Qed.

Lemma allocpid_procs c k n k' : allocpid c k = Ok (n, k') -> k_procs k' = k_procs k.
Proof.
  unfold allocpid. intros H. mdestruct H.
  repeat match goal with
  | E : lock _ _ _ = Ok _ |- _ => apply lock_procs in E
  | E : unlock _ _ _ = Ok _ |- _ => apply unlock_procs in E
  end. cbn in *. congruence.
Qed.

(** Collect what the lock operations of a step leave alone. *)
Ltac procs_eqs := repeat match goal with
  | E : lock _ _ _ = Ok _ |- _ => apply lock_procs in E
  | E : unlock _ _ _ = Ok _ |- _ => apply unlock_procs in E
  | E : on_ls _ _ = Ok _ |- _ => apply on_ls_procs in E
  | E : myproc _ _ = Ok _ |- _ => apply myproc_procs in E
  | E : allocpid _ _ = Ok _ |- _ => apply allocpid_procs in E
  end.

(** A step of a thread that holds the locks [H] moves no process off the
    diagram, changes the state of a process only under its lock, and touches
    the context only of a process that is being created. *)
Definition life_ok (H : list lockid) (k k' : kst) : Prop :=
  forall q, life (state (k_procs k q)) (state (k_procs k' q)) = true /\
            (state (k_procs k' q) = state (k_procs k q) \/ PL q ∈ H) /\
            (context (k_procs k' q) = context (k_procs k q) \/ state (k_procs k q) = USED).

Lemma life_same H k k' : k_procs k' = k_procs k -> life_ok H k k'.
Proof. intros E q. rewrite E. auto using life_refl. Qed.

Lemma life_upd H k k' i pr :
  k_procs k' = <[i := pr]> (k_procs k) -> life (state (k_procs k i)) (state pr) = true ->
  state pr = state (k_procs k i) \/ PL i ∈ H ->
  (context pr = context (k_procs k i) \/ state (k_procs k i) = USED) -> life_ok H k k'.
Proof.
  intros E Hs Hl Hx q. rewrite E. destruct (decide (q = i)) as [->|Hne];
    [by rewrite fn_lookup_insert|]. rewrite fn_lookup_insert_ne by done. auto using life_refl.
Qed.

(** Two updates of the same process. *)
Lemma life_upd2 H k k' i pr0 pr :
  k_procs k' = <[i := pr]> (<[i := pr0]> (k_procs k)) -> life (state (k_procs k i)) (state pr) = true ->
  state pr = state (k_procs k i) \/ PL i ∈ H ->
  (context pr = context (k_procs k i) \/ state (k_procs k i) = USED) -> life_ok H k k'.
Proof.
  intros E Hs Hl Hx q. rewrite E. destruct (decide (q = i)) as [->|Hne];
    [by rewrite fn_lookup_insert|]. rewrite !fn_lookup_insert_ne by done. auto using life_refl.
Qed.

Section life.
Context (initproc : Z).

Lemma wakeup_life p c x k x' k' : wakeup_step c x k = Ok (x', k') -> life_ok (holds p x) k k'.
Proof.
  intros H. destruct x; try done; cbn [wakeup_step] in H; unfold getp, updp in H; mdestruct H; procs_eqs; simplify_eq.
  all: try (apply life_same; congruence).
  eapply life_upd; [reflexivity|..]; [|right; cbn; left|by left]. cbn.
  match goal with H : bool_decide _ = true |- _ => apply bool_decide_eq_true in H as [-> _] end. done.
Qed.

Lemma thread_life m c p io x' k' :
  m_inv m -> m_cur m c = Some p -> thread_step initproc io c p (at_ m p) (m_k m) = Ok (x', k') ->
  life_ok (holds p (at_ m p)) (m_k m) k'.
Proof.
  intros I Hc H. destruct (mi_run _ I c p Hc) as (_ & _ & _ & _ & Hst).
  destruct (at_ m p) eqn:Hx; cbn [thread_step] in H; try done; try (by eapply wakeup_life).
  all: cbn in Hst.
  all: cbn [sched_step yield_step sleep_step kill_step exit_step wait_step fork_step forkret_step] in H.
  all: unfold getp, updp, freeproc, updp in H.
  all: try (mdestruct H; procs_eqs; simplify_eq; first [apply life_same; congruence
     | eapply life_upd; [reflexivity|cbn; rewrite ?Hst; reflexivity|first [by left|right; cbn; left]|by left]
     | eapply life_upd2; [reflexivity|cbn; rewrite ?fn_lookup_insert; cbn; rewrite ?Hst; reflexivity|first [by left|right; cbn; left]|cbn; rewrite ?fn_lookup_insert; by left]]).
  - mdestruct H; cbn in *; simplify_eq; try (by apply life_same).
    + eapply life_upd2; [reflexivity|..]; cbn; rewrite ?fn_lookup_insert; cbn; [|right; left|by left].
      rewrite fn_lookup_insert in *. cbn in *.
      match goal with H : bool_decide _ = true |- _ => apply bool_decide_eq_true in H as -> end. done.
    + eapply life_upd; [reflexivity|apply life_refl|by left..].
  - destruct (NPROC <=? i); mdestruct H; [destruct (parent _); mdestruct H; by apply life_same| |by apply life_same].
    eapply life_upd; [reflexivity|apply life_refl|by left..].
  - mdestruct H; [by apply life_same| |by apply life_same].
    eapply life_upd; [reflexivity|cbn|right; cbn; left|by left]. by match goal with E : state _ = ZOMBIE |- _ => rewrite E end.
  - mdestruct H; procs_eqs; [|apply life_same; congruence]. rename H0 into E'.
    eapply life_upd2; [cbn; by rewrite E'|..]; cbn; rewrite ?fn_lookup_insert, ?E'; cbn; [|right; left|by left].
    by match goal with E : state _ = UNUSED |- _ => rewrite E end.
  - assert (Hu : pst m i = USED) by (apply (mi_fork _ I p i false); by rewrite Hx).
    mdestruct H; eapply life_upd; try reflexivity; cbn; rewrite ?Hu; auto using life_refl. right. left.
  - mdestruct H. eapply life_upd; [reflexivity|apply life_refl|by left..].
  - assert (Hu : pst m i = USED) by (apply (mi_fork _ I p i true); by rewrite Hx).
    mdestruct H. eapply life_upd; [reflexivity|cbn; by rewrite Hu|right; cbn; left|by left].
Qed.
Lemma set_at_state p x k q : state (k_procs (set_at p x k) q) = state (k_procs k q).
Proof. cbn. destruct (decide (q = p)) as [->|]; [by rewrite fn_lookup_insert|by rewrite fn_lookup_insert_ne]. Qed.

Lemma set_at_ctx p x k q : q <> p -> context (k_procs (set_at p x k) q) = context (k_procs k q).
Proof. intros. cbn. by rewrite fn_lookup_insert_ne. Qed.

Lemma hstep_life p c x k x' k' : hstep c x k x' k' -> life_ok (holds p x) k k'.
Proof.
  destruct 1 as [hs rv l k k' _ E|hs rv l k k' _ E|hs rv ch k|ch i r x' k k' E|ch i r x' k k' E|ch i r x' k k' E].
  - apply life_same. by apply lock_procs in E.
  - apply life_same. by apply unlock_procs in E.
  - by apply life_same.
  - by eapply wakeup_life.
  - by eapply wakeup_life.
  - by eapply wakeup_life.
Qed.

Lemma scheduler_life c x k y k' : scheduler_step c x k = Ok (y, k') -> life_ok (sc_holds x) k k'.
Proof.
  intros H. destruct x; try done; cbn [scheduler_step] in H; unfold getp, updp in H; mdestruct H; procs_eqs; simplify_eq.
  all: try (apply life_same; congruence).
  eapply life_upd; [eassumption|..]; [|right; cbn; left|by left]. cbn.
  by match goal with E : state _ = RUNNABLE |- _ => rewrite E end.
Qed.

(** The same for a step of the machine; the last clause: a thread's position
    changes only when it runs, or while its process is being created. *)
Lemma m_life m m' : mstep initproc m m' -> m_inv m -> forall q,
  life (pst m q) (pst m' q) = true /\ (pst m' q = pst m q \/ exists c, PL q ∈ hl m c) /\
  (at_ m' q = at_ m q \/ pst m q = USED \/ exists c, m_cur m c = Some q).
Proof.
  assert (Hown : forall k cur sc k' c p x, cur c = Some p -> life_ok (holds p (context (k_procs k p))) k k' ->
    forall q, let m := mkm k cur sc in let m' := mkm (set_at p x k') cur sc in
    life (pst m q) (pst m' q) = true /\ (pst m' q = pst m q \/ exists c, PL q ∈ hl m c) /\
    (at_ m' q = at_ m q \/ pst m q = USED \/ exists c, m_cur m c = Some q)).
  { intros k cur sc k' c p x Hc Hl q n n'. destruct (Hl q) as (H1 & H2 & H3). unfold n, n'. cbn [m_k]. rewrite set_at_state.
    split_and!; [done| |].
    - destruct H2; [by left|]. right. exists c. unfold hl. cbn. by rewrite Hc.
    - unfold at_. cbn [m_k]. destruct (decide (q = p)) as [->|]; [eauto|]. rewrite set_at_ctx by done. tauto. }
  assert (Hsc : forall k cur sc cur' sc' k' c, cur c = None -> life_ok (sc_holds (sc c)) k k' ->
    forall q, let m := mkm k cur sc in let m' := mkm k' cur' sc' in
    life (pst m q) (pst m' q) = true /\ (pst m' q = pst m q \/ exists c, PL q ∈ hl m c) /\
    (at_ m' q = at_ m q \/ pst m q = USED \/ exists c, m_cur m c = Some q)).
  { intros k cur sc cur' sc' k' c Hc Hl q n n'. destruct (Hl q) as (H1 & H2 & H3). split_and!; [done| |naive_solver].
    destruct H2; [by left|]. right. exists c. unfold hl. cbn. by rewrite Hc. }
  intros Hs I. destruct Hs as [k cur sc c p io x k' Hc H|k cur sc c p hs rv call x Hc Hx He|k cur sc c p x k' Hc H
    |k cur sc c p Hc Hh|k cur sc c p Hc Hh|k cur sc c p x x' r k' Hc Hx H|k cur sc c p rv r Hc Hx
    |k cur sc c p ia r Hc Hx|k cur sc c x k' Hc H|k cur sc c i Hc Hx|k cur sc c i x x' k' Hc Hx H
    |k cur sc c i rv Hc Hx|k cur sc c p Hc Hx].
  - eapply Hown; [done|]. apply (thread_life (mkm k cur sc) c p io x k' I Hc H).
  - eapply Hown; [done|]. by apply life_same.
  - eapply Hown; [done|]. by eapply hstep_life.
  - eapply Hown; [done|]. by apply life_same.
  - eapply Hown; [done|]. by apply life_same.
  - eapply Hown; [done|]. rewrite Hx. exact (hstep_life p _ _ _ _ _ H).
  - eapply Hown; [done|]. by apply life_same.
  - intros q. destruct (Hown k cur sc k c p (SchedBack ia r) Hc (life_same _ _ _ eq_refl) q) as (H1 & H2 & H3). split_and!; done.
  - eapply Hsc; [done|]. by eapply scheduler_life.
  - eapply Hsc; [done|]. by apply life_same.
  - eapply Hsc; [done|]. rewrite Hx. exact (hstep_life (-1) _ _ _ _ _ H).
  - eapply Hsc; [done|]. by apply life_same.
  - eapply Hsc; [done|]. by apply life_same.
Qed.

(** C16: Every step of the machine moves every process along an edge of the state
    diagram or leaves its state alone, and a state only changes while some
    hart holds that process's lock. *)
Theorem process_life_cycle m m' q (Hr : m_reachable initproc m) (Hs : mstep initproc m m') :
  life (pst m q) (pst m' q) = true /\
  (pst m q <> pst m' q -> exists c, lk_cpu (locks (k_ls (m_k m)) (PL q)) = Some c).
Proof.
  apply m_reachable_inv in Hr as I. destruct (m_life m m' Hs I q) as (H1 & H2 & _). split; [done|].
  intros Hne. destruct H2 as [E|[c Hc]]; [by rewrite E in Hne|]. exists c.
  destruct (mi_locks _ I) as [want Hi]. apply (sp_cpu _ Hi). done.
Qed.

(** ** No wake-up is lost *)

(** [p] has given up the condition's lock in [sleep(ch, lk)] and has not been
    woken. *)
Definition dozing (m : mach) (p : Z) (ch : channel) : Prop :=
  slot p /\
  ((exists c lk r, m_cur m c = Some p /\ at_ m p = SleepSet ch lk r) \/
   (pst m p = SLEEPING /\ chan (k_procs (m_k m) p) = Some ch)).

(** Who calls [wakeup]: a process or an interrupt handler on its stack, or a
    handler on the stack of an idle hart. *)
Inductive waker : Type := WProc (q : Z) | WHart (c : Z).

Definition wat (m : mach) (w : waker) : pc :=
  match w with
  | WProc q => at_ m q
  | WHart c => match m_sc m c with ScIntr _ x => x | _ => Run [] 0 end
  end.

(** A call [wakeup(ch)] that returns to [R] is in progress and has not yet
    examined [p]. *)
Fixpoint pend (p : Z) (ch : channel) (R x : pc) : Prop :=
  match x with
  | WakeLoop ch' i r | WakeTest ch' i r => (ch' = ch /\ r = R /\ i <= p) \/ pend p ch R r
  | WakeRel ch' i r => (ch' = ch /\ r = R /\ i < p) \/ pend p ch R r
  | YieldAcq r | YieldSet r | YieldRel r | SchedChk r | SchedSwtch _ r | SchedBack _ r
  | SleepAcq _ _ r | SleepUnlk _ _ r | SleepSet _ _ r | SleepTidy _ r | SleepRel _ r | SleepLk _ r => pend p ch R r
  | Intr y r => pend p ch R y \/ pend p ch R r
  | _ => False
  end.

Fixpoint pc_size (x : pc) : nat :=
  match x with
  | WakeLoop _ _ r | WakeTest _ _ r | WakeRel _ _ r
  | YieldAcq r | YieldSet r | YieldRel r | SchedChk r | SchedSwtch _ r | SchedBack _ r
  | SleepAcq _ _ r | SleepUnlk _ _ r | SleepSet _ _ r | SleepTidy _ r | SleepRel _ r | SleepLk _ r => S (pc_size r)
  | Intr y r => S (pc_size y + pc_size r)
  | _ => O
  end.

Lemma pend_size p ch R x : pend p ch R x -> (pc_size R < pc_size x)%nat.
Proof.
  induction x; cbn; intros H; try done; try (specialize (IHx H); lia).
  1-3: (destruct H as [(_ & -> & _)|H]; [lia|specialize (IHx H); lia]).
  destruct H as [H|H]; [specialize (IHx1 H)|specialize (IHx2 H)]; lia.
Qed.

(** One step of a [wakeup] in progress. *)
Lemma pend_wake m c p0 p ch R x x' k' :
  m_inv m -> hl m c = holds p0 x -> wf p0 x -> (forall i, slot i -> cproc m c = Some i <-> p0 = i) ->
  (forall i, i <> p0 -> m_cur m c <> Some i) ->
  p <> p0 -> dozing m p ch ->
  (state (k_procs k' p) = SLEEPING \/ pst m p <> SLEEPING) ->
  wakeup_step c x (m_k m) = Ok (x', k') -> pend p ch R x -> pend p ch R x'.
Proof.
  intros I Hh Hw Hme Hcur Hp [Hsl Hd] Hst H Hpe. destruct x as [| | | | | | | | | | | | |ch' i r|ch' i r|ch' i r| | | | | | | | | | | | | | | | | | | | | | | | | | | |]; try done;
    cbn [wakeup_step] in H; cbn in Hpe, Hw.
  - destruct Hsl. destruct (Z.leb_spec NPROC i); [mdestruct H; naive_solver lia|].
    destruct (myproc_run m c I) as (ls' & E & _). rewrite (M_bind_Ok _ _ _ _ _ E) in H.
    destruct (decide _) as [Ei|Ei]; mdestruct H; cbn; [|tauto].
    destruct Hpe as [(-> & -> & Hi)|]; [|by right]. left. split_and!; [done|done|].
    symmetry in Ei. apply Hme in Ei; [lia|split; lia].
  - unfold getp, updp in H. mdestruct H; cbn.
    + match goal with H : bool_decide _ = true |- _ => apply bool_decide_eq_true in H as [Hs Hc] end.
      destruct Hpe as [(-> & -> & Hi)|]; [|by right]. left. split_and!; [done|done|].
      destruct (decide (i = p)) as [->|]; [|lia]. exfalso. cbn in Hst. rewrite fn_lookup_insert in Hst. cbn in Hst.
      destruct Hst as [|]; done.
    + match goal with H : bool_decide _ = false |- _ => apply bool_decide_eq_false in H as Hs end.
      destruct Hpe as [(-> & -> & Hi)|]; [|by right]. left. split_and!; [done|done|].
      destruct (decide (i = p)) as [->|]; [|lia]. exfalso. destruct Hd as [(c' & lk & r & Hc' & Hx)|[? ?]]; [|by apply Hs].
      assert (c = c') as <-; [|by apply (Hcur p)]. apply (lockinv_one _ _ (PL p) c c' (mi_locks _ I)).
      * rewrite Hh. left.
      * unfold hl. rewrite Hc', Hx. left.
  - mdestruct H. cbn. destruct Hpe as [(-> & -> & Hi)|]; [|by right]. left. split_and!; [done|done|lia].
Qed.

(** The state of the sleeper after a step that did not wake it. *)
Lemma dozing_after m k' cur' sc' p ch :
  m_inv m -> (forall c, cur' c = Some p -> m_cur m c = Some p) ->
  context (k_procs k' p) = at_ m p \/ pst m p = USED ->
  dozing (mkm k' cur' sc') p ch -> state (k_procs k' p) = SLEEPING \/ pst m p <> SLEEPING.
Proof.
  intros I Hcur Hctx [_ [(c & lk & r & Hc & Hx)|[Hs _]]]; [|by left]. right.
  destruct Hctx as [E|E]; [|congruence]. destruct (mi_run _ I c p (Hcur c Hc)) as (_ & _ & _ & _ & Hst).
  unfold at_ in Hx. cbn in Hx. rewrite <- E, Hx in Hst. by rewrite Hst.
Qed.

Lemma pend_thread m c q io p ch R x' k' :
  m_inv m -> m_cur m c = Some q -> p <> q -> dozing m p ch ->
  dozing (mkm (set_at q x' k') (m_cur m) (m_sc m)) p ch ->
  thread_step initproc io c q (at_ m q) (m_k m) = Ok (x', k') ->
  pend p ch R (at_ m q) -> pend p ch R x'.
Proof.
  intros I Hc Hpq Hd Hd' H Hpe. destruct (mi_run _ I c q Hc) as (_ & _ & _ & Hw & _).
  pose proof (thread_life m c q io x' k' I Hc H p) as (_ & _ & Hctx).
  assert (Hst : state (k_procs k' p) = SLEEPING \/ pst m p <> SLEEPING).
  { rewrite <- (set_at_state q x'). eapply dozing_after; [done| |by rewrite set_at_ctx|exact Hd']. done. }
  destruct (at_ m q) eqn:Hx; try done; cbn [thread_step] in H.
  all: try (eapply (pend_wake m c q p ch R _ x' k'); eauto; [rewrite (hl_cur m c q Hc); by rewrite Hx
    |intros ? ?; by apply cur_me|intros ? ?; rewrite Hc; congruence]).
  all: cbn [sched_step yield_step sleep_step] in H; unfold getp, updp in H; mdestruct H; done.
Qed.

(** [w] is a process that exists, or a hart. *)
Definition live (m : mach) (w : waker) : Prop :=
  match w with WProc q => slot q /\ pst m q <> UNUSED /\ pst m q <> USED | WHart _ => True end.

Lemma pend_alive m q p ch R : m_inv m -> slot q -> pend p ch R (at_ m q) -> pst m q <> ZOMBIE.
Proof.
  intros I Hq Hpe E. assert (Hn : forall c, m_cur m c <> Some q).
  { intros c Hc. destruct (mi_run _ I c q Hc) as (_ & _ & _ & Hw & Hst). rewrite Hst in E.
    destruct (at_ m q) as [| | | |r|? r| | | | | | | | | | | | | | | | | | | | | | | | | | | | | | | | | | | | | |]; try done;
      cbn in *; destruct r; try done; naive_solver. }
  destruct (mi_off _ I q Hq Hn) as [Hok _]. rewrite E in Hok. cbn in Hok.
  by destruct (at_ m q) as [| | | | | |? []| | | | | | | | | | | | | | | | | | | | | | | | | | | | | | | | | | | | |].
Qed.

Lemma live_step m m' w p ch R :
  m_inv m -> mstep initproc m m' -> live m w -> pend p ch R (wat m w) -> live m' w.
Proof.
  destruct w as [q|]; [|done]. intros I Hs (Hq & H1 & H2) Hpe. pose proof (pend_alive m q p ch R I Hq Hpe).
  destruct (m_life m m' Hs I q) as (Hl & _). split; [done|].
  destruct (pst m q), (pst m' q); done.
Qed.

Lemma hstep_wake c p ch R x k x' k' :
  hstep c x k x' k' -> pend p ch R x -> wakeup_step c x k = Ok (x', k').
Proof. by destruct 1. Qed.

(** A handler, or other kernel code, in the middle of [wakeup]. *)
Lemma pend_own_handler m c a p ch R x x' k' K :
  m_inv m -> m_cur m c = Some a -> at_ m a = K x -> K = (fun y => y) \/ (exists r, K = fun y => Intr y r) ->
  p <> a -> dozing m p ch -> dozing (mkm (set_at a (K x') k') (m_cur m) (m_sc m)) p ch ->
  hstep c x (m_k m) x' k' -> pend p ch R x -> pend p ch R x'.
Proof.
  intros I Hc Hx HK Hpa Hd Hd' H Hpe. destruct (mi_run _ I c a Hc) as (_ & _ & _ & Hw & _). rewrite Hx in Hw.
  assert (Hwx : wf a x /\ holds a (K x) = holds a x) by (destruct HK as [->|[r ->]]; [done|]; cbn in Hw |- *; tauto).
  destruct Hwx as [Hwx Hhx]. pose proof (hstep_life a _ _ _ _ _ H p) as (_ & _ & Hctx).
  apply (pend_wake m c a p ch R x x' k'); eauto using hstep_wake.
  - by rewrite (hl_cur m c a Hc), Hx.
  - intros ? ?. by apply cur_me.
  - intros ? ?. rewrite Hc. congruence.
  - rewrite <- (set_at_state a (K x')). eapply dozing_after; [done| |by rewrite set_at_ctx|exact Hd']. done.
Qed.

Lemma pend_sc_handler m c i p ch R x x' k' :
  m_inv m -> m_cur m c = None -> m_sc m c = ScIntr i x -> dozing m p ch ->
  dozing (mkm k' (m_cur m) (<[c := ScIntr i x']> (m_sc m))) p ch ->
  hstep c x (m_k m) x' k' -> pend p ch R x -> pend p ch R x'.
Proof.
  intros I Hc Hx Hd Hd' H Hpe. pose proof (mi_sc _ I c Hc) as Hok. unfold sc_ok in Hok. rewrite Hx in Hok.
  destruct Hok as (_ & Hcp & Hw & _). pose proof (hstep_life (-1) _ _ _ _ _ H p) as (_ & _ & Hctx).
  assert (p <> -1) by (destruct Hd as [[? ?] _]; lia).
  apply (pend_wake m c (-1) p ch R x x' k'); eauto using hstep_wake.
  - by rewrite (hl_sched m c Hc), Hx.
  - intros j Hj. rewrite Hcp. split; [done|]. intros <-. by destruct Hj.
  - intros j ?. by rewrite Hc.
  - eapply dozing_after; [done| |done|exact Hd']. done.
Qed.

Lemma pend_step m m' w p ch R :
  m_inv m -> mstep initproc m m' -> dozing m p ch -> dozing m' p ch -> live m w -> w <> WProc p ->
  pend p ch R (wat m w) -> pend p ch R (wat m' w).
Proof.
  intros I Hs Hd Hd' Hlv Hwp Hpe.
  (* a thread that does not run keeps its place *)
  assert (Hother : forall k' q, w = WProc q -> context (k_procs k' q) = at_ m q \/ pst m q = USED ->
    pend p ch R (context (k_procs k' q))).
  { intros k' q -> [-> |E]; [done|]. destruct Hlv as (_ & _ & ?). done. }
  assert (Hown : forall H k' a x, life_ok H (m_k m) k' -> (w = WProc a -> pend p ch R x) ->
    pend p ch R (wat (mkm (set_at a x k') (m_cur m) (m_sc m)) w)).
  { intros H k' a x Hl Hx. destruct w as [q|c]; [|exact Hpe]. cbn. unfold at_. cbn [m_k].
    destruct (decide (q = a)) as [->|]; [cbn; rewrite fn_lookup_insert; by apply Hx|].
    rewrite set_at_ctx by done. apply (Hother k' q); [done|]. by destruct (Hl q) as (_ & _ & ?). }
  assert (Hsc : forall H k' c y cur', life_ok H (m_k m) k' ->
    (w = WHart c -> pend p ch R (match y with ScIntr _ x => x | _ => Run [] 0 end)) ->
    pend p ch R (wat (mkm k' cur' (<[c := y]> (m_sc m))) w)).
  { intros H k' c y cur' Hl Hy. destruct w as [q|c0]; cbn.
    - apply (Hother k' q); [done|]. by destruct (Hl q) as (_ & _ & ?).
    - destruct (decide (c0 = c)) as [->|]; [rewrite fn_lookup_insert; by apply Hy|]. rewrite fn_lookup_insert_ne by done. exact Hpe. }
  destruct Hs as [k cur sc c a io x k' Hc H|k cur sc c a hs rv call x Hc Hx He|k cur sc c a x k' Hc H
    |k cur sc c a Hc Hh|k cur sc c a Hc Hh|k cur sc c a x x' r k' Hc Hx H|k cur sc c a rv r Hc Hx
    |k cur sc c a ia r Hc Hx|k cur sc c x k' Hc H|k cur sc c i Hc Hx|k cur sc c i x x' k' Hc Hx H
    |k cur sc c i rv Hc Hx|k cur sc c a Hc Hx]; set (m := mkm k cur sc) in *.
  - eapply (Hown _ k' a x (thread_life m c a io x k' I Hc H)). intros ->. apply (pend_thread m c a io p ch R x k'); try done. congruence.
  - apply (Hown [] k a x (life_same _ _ _ eq_refl)). intros ->. cbn in Hpe. unfold at_ in Hpe. cbn in Hpe. by rewrite Hx in Hpe.
  - apply (Hown _ k' a x (hstep_life a _ _ _ _ _ H)). intros ->.
    apply (pend_own_handler m c a p ch R (at_ m a) x k' (fun y => y)); auto. congruence.
  - by apply (Hown [] k a _ (life_same _ _ _ eq_refl)); intros ->.
  - apply (Hown [] k a _ (life_same _ _ _ eq_refl)); intros ->. cbn. by right.
  - apply (Hown _ k' a _ (hstep_life a _ _ _ _ _ H)). intros ->. change (pend p ch R (at_ m a)) in Hpe.
    assert (Hxa : at_ m a = Intr x r) by done. rewrite Hxa in Hpe. destruct Hpe as [Hpe|]; [left|by right].
    apply (pend_own_handler m c a p ch R x x' k' (fun y => Intr y r)); eauto. congruence.
  - apply (Hown [] k a _ (life_same _ _ _ eq_refl)); intros ->. change (pend p ch R (at_ m a)) in Hpe.
    assert (Hxa : at_ m a = Intr (Run [] rv) r) by done. rewrite Hxa in Hpe. by destruct Hpe.
  - assert (Hxa : at_ m a = SchedSwtch ia r) by done.
    destruct w as [q|c']; [|exact Hpe]. cbn in Hpe |- *. unfold at_. cbn [m_k]. destruct (decide (q = a)) as [->|].
    + cbn. rewrite fn_lookup_insert. by rewrite Hxa in Hpe.
    + by rewrite set_at_ctx.
  - apply (Hsc _ k' c x cur (scheduler_life _ _ _ _ _ H)). intros ->. cbn in Hpe. by destruct (sc c).
  - apply (Hsc [] k c _ cur (life_same _ _ _ eq_refl)). intros ->. cbn in Hpe. by rewrite Hx in Hpe.
  - apply (Hsc _ k' c _ cur (hstep_life (-1) _ _ _ _ _ H)). intros ->. cbn in Hpe. rewrite Hx in Hpe.
    by apply (pend_sc_handler m c i p ch R x x' k').
  - apply (Hsc [] k c _ cur (life_same _ _ _ eq_refl)). intros ->. cbn in Hpe. by rewrite Hx in Hpe.
  - apply (Hsc [] k c _ _ (life_same _ _ _ eq_refl)). intros ->. cbn in Hpe. by rewrite Hx in Hpe.
Qed.

Lemma pend_run m0 m1 p ch w R :
  m_inv m0 -> dozing m0 p ch -> live m0 w -> w <> WProc p -> pend p ch R (wat m0 w) ->
  rtc (fun a b => mstep initproc a b /\ dozing b p ch) m0 m1 -> pend p ch R (wat m1 w).
Proof.
  intros I Hd Hl Hw Hpe Hs. induction Hs as [|m0 m m1 [H Hd'] _ IH]; [done|].
  apply IH; [by eapply m_step_inv|done|by eapply live_step|by eapply pend_step].
Qed.

(** C8: [sleep] and [wakeup] lose no wake-up.  The step of [sleep(ch, lk)] that
    releases [lk] already makes the process a sleeper on [ch], so whoever takes
    [lk] next finds it asleep; and a call of [wakeup(ch)] that starts while the
    process [p] is asleep on [ch], made by an other process, by an interrupt
    handler on its stack or by one on an idle hart, has not returned as long
    as [p] has not been woken, whatever all the harts do meanwhile. *)
Theorem no_lost_wakeup m (Hr : m_reachable initproc m) :
  (forall c p ch lk r io x k', m_cur m c = Some p -> at_ m p = SleepUnlk ch lk r ->
     thread_step initproc io c p (at_ m p) (m_k m) = Ok (x, k') ->
     dozing (mkm (set_at p x k') (m_cur m) (m_sc m)) p ch) /\
  (forall p ch w R m1, dozing m p ch -> live m w -> w <> WProc p -> wat m w = WakeLoop ch 0 R ->
     rtc (fun a b => mstep initproc a b /\ dozing b p ch) m m1 -> wat m1 w <> R).
Proof.
  apply m_reachable_inv in Hr as I. split.
  - intros c p ch lk r io x k' Hc Hx H. rewrite Hx in H. cbn [thread_step sleep_step] in H. mdestruct H.
    split; [by apply (mi_run _ I c p Hc)|]. left. exists c, lk, r. split; [done|]. unfold at_. cbn. by rewrite fn_lookup_insert.
  - intros p ch w R m1 Hd Hl Hw Hx Hs E.
    assert (Hp : pend p ch R (wat m1 w)).
    { eapply (pend_run m); try done. rewrite Hx. left. destruct Hd as [[? ?] _]. split_and!; [done|done|lia]. }
    apply pend_size in Hp. rewrite E in Hp. lia.
Qed.

End life.

(** The first process, on hart 2, sleeps on channel 9 with lock 5, and hart 1,
    idle, takes an interrupt whose handler calls [wakeup] on that channel. *)
Definition demo_at (m : mach) (x : pc) (y : sc_pc) : Prop :=
  m_reachable 0 m /\ m_cur m 2 = Some 0 /\ at_ m 0 = x /\ m_sc m 1 = y /\
  (forall c, c <> 2 -> m_cur m c = None) /\ (forall c, c <> 1 -> c <> 2 -> m_sc m c = ScRound).

Lemma demo_next m m' : m_reachable 0 m -> mstep 0 m m' -> m_reachable 0 m'.
Proof. intros (m0 & H0 & Hs) H. exists m0. split; [done|]. by eapply rtc_r. Qed.

(** A lock that nobody holds is there for the taking. *)
Lemma free_lock m c l : m_inv m -> (forall c', l ∉ hl m c') ->
  exists k', lock l c (m_k m) = Ok (tt, k') /\ k_procs k' = k_procs (m_k m).
Proof.
  intros I Hn. pose proof (lockinv_acquire _ _ l c (mi_locks _ I)) as H. unfold lock, on_ls, zoom.
  destruct (acquire 1 l c (k_ls (m_k m))) as [[[] ls']| | |]; [by eexists| |done|].
  - by apply Hn in H.
  - destruct H as [c' H]. by apply Hn in H.
Qed.

Lemma demo_hl m x y c : demo_at m x y -> sc_holds y = [] -> hl m c = if decide (c = 2) then holds 0 x else [].
Proof.
  intros (_ & H2 & Hx & H1 & Hc & Hs) Hy. unfold hl. case_decide as E; [rewrite E; by rewrite H2, Hx|].
  rewrite Hc by done. destruct (decide (c = 1)) as [->|]; [by rewrite H1|by rewrite Hs].
Qed.

Lemma demo_set k' m x x' y : demo_at m x y -> k_procs k' = k_procs (m_k m) ->
  mstep 0 m (mkm (set_at 0 x' k') (m_cur m) (m_sc m)) ->
  demo_at (mkm (set_at 0 x' k') (m_cur m) (m_sc m)) x' y.
Proof.
  intros (Hr & H2 & Hx & H1 & Hc & Hs) Hk Hst. split; [by eapply demo_next|]. split_and!; try done.
Qed.

Lemma demo_run_at : demo_at demo_run (Run [] 0) ScRound.
Proof.
  split; [exact demo_run_reachable|]. split_and!; [reflexivity|reflexivity|reflexivity| |].
  - intros c Hc. change (m_cur demo_run) with (<[2 := Some 0]> (fun _ : Z => @None Z)). by rewrite fn_lookup_insert_ne.
  - intros c _ Hc. change (m_sc demo_run) with
      (<[2 := ScBack 0]> (<[2 := ScSwtch 0]> (<[2 := ScTest 0]> (<[2 := ScAcquire 0]> (fun _ : Z => ScRound))))).
    by rewrite !fn_lookup_insert_ne.
Qed.

Lemma demo_locked : exists m, demo_at m (SleepUnlk (CAddr 9) (CondLock 5) (Run [5] 0)) ScRound.
Proof.
  assert (D : exists m, demo_at m (Run [] 0) ScRound) by (exists demo_run; exact demo_run_at).
  destruct D as [m0 D0]. assert (I0 : m_inv m0) by (by eapply m_reachable_inv, D0).
  destruct (free_lock m0 2 (CondLock 5) I0) as (k1 & E1 & P1).
  { intros c. rewrite (demo_hl _ _ _ c D0) by done. case_decide; apply not_elem_of_nil. }
  eapply (demo_set k1 _ _ (Run [5] 0)) in D0 as D1; [|done|].
  2:{ destruct D0 as (_ & H2 & Hx & _). destruct m0 as [k cur sc]. eapply (m_run _ _ _ _ 2 0); [exact H2|].
      unfold at_ in Hx. cbn in Hx |- *. rewrite Hx. apply (h_acquire _ [] 0 5); [apply not_elem_of_nil|exact E1]. }
  set (m1 := mkm _ _ _) in D1. clearbody m1. clear D0 I0 k1 E1 P1.
  eapply (demo_set (m_k m1) _ _ (SleepAcq (CAddr 9) (CondLock 5) (Run [5] 0))) in D1 as D2; [|done|].
  2:{ destruct D1 as (_ & H2 & Hx & _). destruct m1 as [k cur sc]. by eapply (m_call _ _ _ _ 2 0 [5] 0 (KSleep (CAddr 9) 5)). }
  set (m2 := mkm _ _ _) in D2. clearbody m2. clear D1 m1.
  assert (I2 : m_inv m2) by (by eapply m_reachable_inv, D2).
  destruct (free_lock m2 2 (PL 0) I2) as (k3 & E3 & P3).
  { intros c. rewrite (demo_hl _ _ _ c D2) by done. case_decide; cbn; set_solver. }
  eexists. eapply (demo_set k3 _ _ _ _ D2 P3).
  destruct D2 as (_ & H2 & Hx & _). destruct m2 as [k cur sc]. apply (m_thread _ _ _ _ 2 0 true); [exact H2|].
  unfold at_ in Hx. cbn in Hx, E3 |- *. rewrite Hx. cbn [thread_step sleep_step]. by mrun E3.
Qed.

Lemma demo_dozes : exists m, m_reachable 0 m /\ dozing m 0 (CAddr 9) /\ wat m (WHart 1) = WakeLoop (CAddr 9) 0 (Run [] 0).
Proof.
  destruct demo_locked as [m D]. assert (I : m_inv m) by (by eapply m_reachable_inv, D).
  destruct (unlock_safe (CondLock 5) 2 (m_k m) (hl m) [PL 0]) as (ls' & E & _).
  { apply I. } { rewrite (demo_hl _ _ _ 2 D) by done. cbn. apply Permutation_swap. }
  eapply (demo_set (with_ls ls' (m_k m)) _ _ (SleepSet (CAddr 9) (CondLock 5) (Run [5] 0))) in D as D1; [|done|].
  2:{ destruct D as (_ & H2 & Hx & _). destruct m as [k cur sc]. apply (m_thread _ _ _ _ 2 0 true); [exact H2|].
      unfold at_ in Hx. cbn in Hx, E |- *. rewrite Hx. cbn [thread_step sleep_step]. by mrun E. }
  set (m1 := mkm _ _ _) in D1. clearbody m1. clear D I ls' E m. destruct D1 as (Hr & H2 & Hx & H1 & Hc & _).
  assert (I : m_inv m1) by (by eapply m_reachable_inv). assert (Hc1 : m_cur m1 1 = None) by (by apply Hc).
  destruct (lockinv_intr_on _ _ 1 (mi_locks _ I)) as (ls' & E & _); [by rewrite (hl_sched m1 1 Hc1), H1|].
  destruct m1 as [k cur sc]. cbn in *.
  pose (k' := with_ls ls' k).
  assert (S1 : mstep 0 (mkm k cur sc) (mkm k' cur (<[1 := ScAcquire 0]> sc))).
  { apply (m_scheduler 0 k cur sc 1 (ScAcquire 0) k' Hc1). rewrite H1. cbn [scheduler_step]. unfold on_ls.
    by rewrite (M_bind_Ok _ _ _ _ _ (zoom_Ok _ _ _ _ _ _ E)). }
  pose proof (m_sc_intr 0 k' cur (<[1 := ScAcquire 0]> sc) 1 0 Hc1 (fn_lookup_insert _ _ _)) as S2.
  pose proof (m_sc_run 0 k' cur (<[1 := ScIntr 0 (Run [] 0)]> (<[1 := ScAcquire 0]> sc)) 1 0 _ _ k' Hc1
    (fn_lookup_insert _ _ _) (h_wakeup 1 [] 0 (CAddr 9) k')) as S3.
  eexists. split; [eapply demo_next, S3; eapply demo_next, S2; by eapply demo_next, S1|]. split.
  - split; [by split|]. left. exists 2, (CondLock 5), (Run [5] 0). split; [exact H2|exact Hx].
  - cbn. by rewrite fn_lookup_insert.
Qed.

Lemma no_lost_wakeup_witness :
  exists m, dozing m 0 (CAddr 9) /\
  forall m1, rtc (fun a b => mstep 0 a b /\ dozing b 0 (CAddr 9)) m m1 -> wat m1 (WHart 1) <> Run [] 0.
Proof.
  destruct demo_dozes as (m & Hr & Hd & Hx). exists m. split; [exact Hd|]. intros m1 H.
  destruct (no_lost_wakeup 0 m Hr) as [_ Hw].
  apply (Hw 0 (CAddr 9) (WHart 1) (Run [] 0) m1 Hd Logic.I); [discriminate|exact Hx|exact H].
Defined.

Lemma process_life_cycle_witness : life (pst demo_start 0) (pst (demo_sc demo_start) 0) = true.
Proof.
  apply (process_life_cycle 0 demo_start (demo_sc demo_start) 0).
  - exists demo_start. split; [exact demo_start_ok|apply rtc_refl].
  - eapply (m_scheduler _ _ _ _ 2); reflexivity.
Defined.
