(* ===== verification/SchedLive.v ===== *)
(** * The scheduler finds work (kernel/proc.c)

    An idle hart that is left alone runs a process within one round of the
    process table, if there is a runnable one. *)

From S2P Require Import Prelude Spinlock Sched SchedInv SchedStep SchedThms.

(** A step of the scheduler thread of hart [c]. *)
Inductive sc_step (c : Z) : mach -> mach -> Prop :=
| sc_code k cur sc y k' : cur c = None -> scheduler_step c (sc c) k = Ok (y, k') ->
    sc_step c (mkm k cur sc) (mkm k' cur (<[c := y]> sc))
| sc_swtch k cur sc p : cur c = None -> sc c = ScSwtch p ->
    sc_step c (mkm k cur sc) (mkm k (<[c := Some p]> cur) (<[c := ScBack p]> sc)).

(** Those are steps of the machine. *)
Lemma sc_step_mstep initproc c m m' : sc_step c m m' -> mstep initproc m m'.
Proof. destruct 1; [by eapply m_scheduler|by eapply m_swtch_in]. Qed.

(** No hart holds a process's lock. *)
Definition plocks_free (m : mach) : Prop := forall c i, PL i ∉ hl m c.

Section live.
Context (initproc : Z).

Lemma sc_step_inv c m m' : sc_step c m m' -> m_inv m -> m_inv m'.
Proof. intros H. apply (m_step_inv initproc). by apply (sc_step_mstep initproc c). Qed.

(** Before [proc[i]]: take its lock; the scheduler then runs it, or gives the
    lock back and is before [proc[i + 1]]. *)
Lemma sc_turn c m i :
  m_inv m -> m_cur m c = None -> m_sc m c = ScAcquire i -> 0 <= i < NPROC -> plocks_free m ->
  (exists m', bsteps (sc_step c) 3 m m' /\ m_cur m' c = Some i /\ pst m i = RUNNABLE /\ pst m' i = RUNNING) \/
  (pst m i <> RUNNABLE /\
   exists m', bsteps (sc_step c) 3 m m' /\ m_inv m' /\ m_cur m' c = None /\ m_sc m' c = ScAcquire (i + 1) /\
     plocks_free m' /\ forall q, pst m' q = pst m q).
Proof.
  intros I Hc Hsc Hi Hf. destruct (lockinv_word _ _ (PL i) (mi_locks _ I)) as [[H0 _]|[_ [c' Hin]]]; [|by apply Hf in Hin].
  pose proof (lockinv_acquire _ _ (PL i) c (mi_locks _ I)) as Hacq.
  destruct m as [k cur sc]. cbn [m_k m_cur m_sc] in *.
  destruct (acquire 1 (PL i) c (k_ls k)) as [[[] ls1]|e| |] eqn:Ea; [|by apply Hf in Hacq|done|by destruct Hacq as [c' Hacq]; apply Hf in Hacq].
  assert (S1 : sc_step c (mkm k cur sc) (mkm (with_ls ls1 k) cur (<[c := ScTest i]> sc))).
  { apply sc_code; [done|]. rewrite Hsc. cbn [scheduler_step]. destruct (Z.leb_spec NPROC i); [lia|].
    unfold lock, on_ls. by rewrite (M_bind_Ok _ _ _ _ _ (zoom_Ok _ _ _ _ _ _ Ea)). }
  pose proof (sc_step_inv _ _ _ S1 I) as I1. set (sc1 := <[c := ScTest i]> sc) in *.
  assert (Esc1 : sc1 c = ScTest i) by apply fn_lookup_insert.
  destruct (decide (state (k_procs k i) = RUNNABLE)) as [Hr|Hr].
  - left. pose (k2 := mkk (k_ls (with_ls ls1 k)) (<[i := set_state RUNNING (k_procs k i)]> (k_procs k)) (k_nextpid k)).
    assert (E2 : exists ls2, upd_cpu c (set_proc (Some i)) ls1 = Ok (tt, ls2)) by by eexists.
    destruct E2 as [ls2 E2].
    assert (S2 : sc_step c (mkm (with_ls ls1 k) cur sc1) (mkm (with_ls ls2 k2) cur (<[c := ScSwtch i]> sc1))).
    { apply sc_code; [done|]. rewrite Esc1. cbn [scheduler_step]. unfold getp, updp. mgo. cbn [with_ls k_procs].
      rewrite decide_True by done. mgo. unfold on_ls. by rewrite (M_bind_Ok _ _ _ _ _ (zoom_Ok k_ls _ _ k2 _ _ E2)). }
    eexists. split.
    + eapply bsteps_l; [exact S1|]. eapply bsteps_l; [exact S2|]. eapply bsteps_l; [|apply bsteps_refl].
      apply sc_swtch; [done|apply fn_lookup_insert].
    + split; [apply fn_lookup_insert|]. split; [done|]. cbn. by rewrite fn_lookup_insert.
  - right. split; [done|].
    assert (S2 : sc_step c (mkm (with_ls ls1 k) cur sc1) (mkm (with_ls ls1 k) cur (<[c := ScRelease i]> sc1))).
    { apply sc_code; [done|]. rewrite Esc1. cbn [scheduler_step]. unfold getp. mgo. cbn [with_ls k_procs].
      by rewrite decide_False. }
    pose proof (sc_step_inv _ _ _ S2 I1) as I2. set (sc2 := <[c := ScRelease i]> sc1) in *.
    assert (Esc2 : sc2 c = ScRelease i) by apply fn_lookup_insert.
    destruct (unlock_safe (PL i) c (with_ls ls1 k) (hl (mkm (with_ls ls1 k) cur sc2)) []) as (ls3 & E3 & _).
    { apply I2. } { unfold hl. cbn. by rewrite Hc, Esc2. }
    assert (S3 : sc_step c (mkm (with_ls ls1 k) cur sc2) (mkm (with_ls ls3 (with_ls ls1 k)) cur (<[c := ScAcquire (i + 1)]> sc2))).
    { apply sc_code; [done|]. rewrite Esc2. cbn [scheduler_step]. by mrun E3. }
    eexists. split; [eapply bsteps_l; [exact S1|]; eapply bsteps_l; [exact S2|]; eapply bsteps_l; [exact S3|apply bsteps_refl]|].
    split_and!; [by eapply sc_step_inv|done|apply fn_lookup_insert| |done].
    intros c' j. unfold hl. cbn. destruct (decide (c' = c)) as [->|Hne].
    + rewrite Hc, fn_lookup_insert. apply not_elem_of_nil.
    + rewrite fn_lookup_insert_ne by done. unfold sc2, sc1. rewrite !fn_lookup_insert_ne by done. apply (Hf c' j).
Qed.

Lemma sc_search c p d : forall m i,
  m_inv m -> m_cur m c = None -> m_sc m c = ScAcquire i -> 0 <= i -> p = i + Z.of_nat d -> p < NPROC ->
  plocks_free m -> pst m p = RUNNABLE ->
  exists m' q, bsteps (sc_step c) (3 * (d + 1)) m m' /\ m_cur m' c = Some q /\ pst m q = RUNNABLE /\ pst m' q = RUNNING.
Proof.
  induction d as [|d IH]; intros m i I Hc Hsc Hi Hp Hlt Hf Hr.
  - assert (p = i) as -> by lia. destruct (sc_turn c m i I Hc Hsc ltac:(lia) Hf) as [(m' & H & E)|[Hn _]]; [|done].
    exists m', i. split; [|done]. eapply bsteps_weaken, H. lia.
  - destruct (sc_turn c m i I Hc Hsc ltac:(lia) Hf) as [(m' & H & E)|(_ & m' & H & I' & Hc' & Hsc' & Hf' & Es)].
    + exists m', i. split; [|done]. eapply bsteps_weaken, H. lia.
    + destruct (IH m' (i + 1) I' Hc' Hsc') as (m2 & q & H2 & E2 & E3 & E4); try done; [lia|lia|by rewrite Es|].
      exists m2, q. rewrite Es in E3. split; [|done]. replace (3 * (S d + 1))%nat with (3 + 3 * (d + 1))%nat by lia. by eapply bsteps_trans.
Qed.

(** C15: If a process is runnable and no process's lock is held, a hart at the
    top of its scheduler loop, when only that hart takes steps, runs a process
    that was runnable, and is RUNNING now, after at most [3 * NPROC + 1] of
    its steps. *)
Theorem idle_hart_runs_process m c p (Hr : m_reachable initproc m)
    (Hc : m_cur m c = None) (Hsc : m_sc m c = ScRound) (Hf : plocks_free m)
    (Hp : slot p) (Hs : pst m p = RUNNABLE) :
  exists m' q, bsteps (sc_step c) (3 * 64 + 1) m m' /\ m_cur m' c = Some q /\ pst m q = RUNNABLE /\ pst m' q = RUNNING /\
    m_reachable initproc m'.
Proof.
  apply m_reachable_inv in Hr as I.
  destruct (lockinv_intr_on _ _ c (mi_locks _ I)) as (ls1 & E1 & _); [by rewrite (hl_sched m c Hc), Hsc|].
  destruct m as [k cur sc]. cbn [m_k m_cur m_sc] in *.
  assert (S1 : sc_step c (mkm k cur sc) (mkm (with_ls ls1 k) cur (<[c := ScAcquire 0]> sc))).
  { apply sc_code; [done|]. rewrite Hsc. cbn [scheduler_step]. unfold on_ls.
    by rewrite (M_bind_Ok _ _ _ _ _ (zoom_Ok _ _ _ _ _ _ E1)). }
  destruct Hp as [Hp0 Hp1].
  destruct (sc_search c p (Z.to_nat p) (mkm (with_ls ls1 k) cur (<[c := ScAcquire 0]> sc)) 0) as (m' & q & H & E & E2 & E3); try done;
    [by eapply sc_step_inv|apply fn_lookup_insert|lia| |].
  { intros c' j. unfold hl. cbn. destruct (decide (c' = c)) as [->|Hne];
      [rewrite Hc, fn_lookup_insert; apply not_elem_of_nil|rewrite fn_lookup_insert_ne by done; apply (Hf c' j)]. }
  assert (Hb : bsteps (sc_step c) (3 * 64 + 1) (mkm k cur sc) m').
  { rewrite Nat.add_comm. eapply bsteps_l; [exact S1|]. eapply bsteps_weaken, H. unfold NPROC in Hp1. lia. }
  exists m', q. split_and!; [done|done|done|done|]. destruct Hr as (m0 & H0 & Hs0). exists m0. split; [done|].
  etransitivity; [exact Hs0|]. clear -Hb. induction Hb; [apply rtc_refl|].
  eapply rtc_l; [by apply (sc_step_mstep initproc c)|done].
Qed.
End live.

Lemma idle_hart_runs_process_witness :
  exists m' q, bsteps (sc_step 3) (3 * 64 + 1) demo_start m' /\ m_cur m' 3 = Some q /\ pst demo_start q = RUNNABLE /\ pst m' q = RUNNING /\
    m_reachable 0 m'.
Proof.
  apply (idle_hart_runs_process 0 demo_start 3 0).
  - exists demo_start. split; [exact demo_start_ok|apply rtc_refl].
  - reflexivity.
  - reflexivity.
  - intros c i. apply not_elem_of_nil.
  - split; [discriminate|reflexivity].
  - reflexivity.
Defined.
