(* ===== verification/Pipe.v ===== *)
(** * Pipes (kernel/pipe.c)

    [pipewrite] and [piperead] are the bodies of those functions from the point where [pi->lock] has been acquired to the point
    where it is given up: at the return, or in [sleep].  Between those points
    other processes run; [pstep] is the system of any number of readers and
    writers of one pipe.  What copies a byte from or to user memory is an
    argument ([copyin1], [copyout1]), as is [killed]: [pr->killed] at each
    turn of the loop, which [kill] can set at any time. *)

From S2P Require Import Prelude Ring.

Definition PIPESIZE : Z := 512.

Record pipe : Type := mkpipe {
  data : list Z; nread : Z; nwrite : Z; readopen : Z; writeopen : Z
}.

(** The page [kalloc] returned, after [pipealloc]. *)
Definition pipe_init (page : list Z) : pipe := mkpipe page 0 0 1 1.

Definition put_byte (pi : pipe) (ch : Z) : res pipe :=
  d ← wr (data pi) (nwrite pi mod PIPESIZE) ch;
  mret (mkpipe d (nread pi) (u32 (nwrite pi + 1)) (readopen pi) (writeopen pi)).

Definition get_byte (pi : pipe) : res (Z * pipe) :=
  ch ← rd (data pi) (nread pi mod PIPESIZE);
  mret (ch, mkpipe (data pi) (u32 (nread pi + 1)) (nwrite pi) (readopen pi) (writeopen pi)).

(** [pipeclose]; the second component: are both ends closed, so that the page
    is freed? *)
Definition pipeclose (writable : bool) (pi : pipe) : pipe * bool :=
  let pi' := if writable then mkpipe (data pi) (nread pi) (nwrite pi) (readopen pi) 0
             else mkpipe (data pi) (nread pi) (nwrite pi) 0 (writeopen pi) in
  (pi', (readopen pi' =? 0) && (writeopen pi' =? 0)).

(** How [pipewrite] gives up the lock: it returns, having called
    [wakeup(&pi->nread)] or not, or sleeps on [&pi->nwrite] with [i] bytes
    written (after that wakeup). *)
Inductive wout : Type := WRet (r : Z) (woke : bool) | WSleep (i : Z).

Section code.
Context (copyin1 : Z -> option Z) (copyout1 : Z -> bool) (killed : Z -> bool).

Fixpoint pipewrite_loop (fuel : nat) (addr n i : Z) (pi : pipe) : res (wout * list Z * pipe) :=
  match fuel with
  | O => Hang
  | S f =>
      if i <? n then
        if (readopen pi =? 0) || killed i then Ok (WRet (-1) false, [], pi)
        else if nwrite pi =? u32 (nread pi + PIPESIZE) then Ok (WSleep i, [], pi)
        else
          match copyin1 (u64 (addr + i)) with
          | None => Ok (WRet i true, [], pi)
          | Some ch =>
              pi' ← put_byte pi ch;
              '(o, bs, pi2) ← pipewrite_loop f addr n (i + 1) pi';
              Ok (o, ch :: bs, pi2)
          end
      else Ok (WRet i true, [], pi)
  end.

(** The loop makes at most [n - i] turns before it gives up the lock. *)
Definition pipewrite (addr n i : Z) (pi : pipe) : res (wout * list Z * pipe) :=
  pipewrite_loop (S (Z.to_nat (n - i))) addr n i pi.

(** How [piperead] gives up the lock. *)
Inductive rout : Type := RRet (r : Z) (woke : bool) | RSleep.

(** The copy loop: the bytes consumed, and [i] at its end. *)
Fixpoint piperead_copy (fuel : nat) (addr n i : Z) (pi : pipe) : res (Z * list Z * pipe) :=
  match fuel with
  | O => Hang
  | S f =>
      if i <? n then
        if nread pi =? nwrite pi then Ok (i, [], pi)
        else
          '(ch, pi') ← get_byte pi;
          if copyout1 (u64 (addr + i)) then
            '(i', bs, pi2) ← piperead_copy f addr n (i + 1) pi';
            Ok (i', ch :: bs, pi2)
          else Ok (i, [ch], pi')
      else Ok (i, [], pi)
  end.

Definition piperead (addr n : Z) (pi : pipe) : res (rout * list Z * pipe) :=
  if (nread pi =? nwrite pi) && negb (writeopen pi =? 0) then
    if killed 0 then Ok (RRet (-1) false, [], pi) else Ok (RSleep, [], pi)
  else
    '(i, bs, pi') ← piperead_copy (S (Z.to_nat n)) addr n 0 pi;
    Ok (RRet i true, bs, pi').
End code.

(** ** The abstract pipe: a queue of bytes *)

Definition pcount (pi : pipe) : Z := dist (2 ^ 32) (nread pi) (nwrite pi).

Definition contents (pi : pipe) : list Z := ring PIPESIZE (data pi) (nread pi) (pcount pi).

Record pipe_ok (pi : pipe) : Prop := {
  po_data : length (data pi) = Z.to_nat PIPESIZE;
  po_nread : 0 <= nread pi < 2 ^ 32;
  po_nwrite : 0 <= nwrite pi < 2 ^ 32;
  po_count : pcount pi <= PIPESIZE
}.

Lemma pipe_wraps : exists q, 2 ^ 32 = PIPESIZE * q.
Proof. by exists 8388608. Qed.

Lemma nread_full pi : pipe_ok pi -> nwrite pi = u32 (nread pi + PIPESIZE) <-> pcount pi = PIPESIZE.
Proof. intros [_ _ Hw _]. by apply dist_eq. Qed.

Lemma nread_empty pi : pipe_ok pi -> nread pi = nwrite pi <-> pcount pi = 0.
Proof.
  intros [_ Hr Hw _]. unfold pcount. rewrite <- (dist_eq (2 ^ 32) (nread pi) (nwrite pi) 0) by lia.
  rewrite Z.add_0_r, Z.mod_small by done. split; congruence.
Qed.

Lemma pcount_range pi : 0 <= pcount pi < 2 ^ 32.
Proof. by apply dist_range. Qed.

Lemma length_contents pi : length (contents pi) = Z.to_nat (pcount pi).
Proof. apply length_ring. Qed.

Lemma put_byte_spec pi ch :
  pipe_ok pi -> pcount pi < PIPESIZE ->
  exists pi', put_byte pi ch = Ok pi' /\ pipe_ok pi' /\ contents pi' = contents pi ++ [ch] /\
    pcount pi' = pcount pi + 1 /\ readopen pi' = readopen pi /\ writeopen pi' = writeopen pi.
Proof.
  intros Hok Hc. pose proof Hok as [Hd Hr Hw _]. pose proof (pcount_range pi) as Hp.
  assert (Hb : 0 <= nwrite pi mod PIPESIZE < PIPESIZE) by (apply Z.mod_pos_bound; done).
  assert (Hix : nwrite pi mod PIPESIZE = (nread pi + pcount pi) mod PIPESIZE).
  { rewrite (dist_end (2 ^ 32) (nread pi) (nwrite pi) Hw) at 1. by apply mod_ring; [apply pipe_wraps|]. }
  unfold put_byte. rewrite wr_Ok by lia. rewrite bind_ok.
  eexists. split; [reflexivity|]. set (pi' := mkpipe _ _ _ _ _).
  assert (Hc' : pcount pi' = pcount pi + 1) by (apply dist_inc; [done|]; change (pcount pi + 1 < 2 ^ 32); unfold PIPESIZE in Hc; lia).
  split_and!; try done.
  - split; cbn; [by rewrite length_insert|done|apply u32_range|rewrite Hc'; lia].
  - unfold contents. rewrite Hc'. cbn. rewrite Hix. by apply ring_push; [| |lia].
Qed.

Lemma get_byte_spec pi :
  pipe_ok pi -> 0 < pcount pi ->
  exists ch pi', get_byte pi = Ok (ch, pi') /\ pipe_ok pi' /\ contents pi = ch :: contents pi' /\
    pcount pi' = pcount pi - 1 /\ readopen pi' = readopen pi /\ writeopen pi' = writeopen pi.
Proof.
  intros Hok Hc. pose proof Hok as [Hd Hr Hw Hm]. pose proof (pcount_range pi) as Hp.
  assert (Hb : 0 <= nread pi mod PIPESIZE < PIPESIZE) by (apply Z.mod_pos_bound; done).
  unfold get_byte.
  destruct (zidx_is_Some (data pi) (nread pi mod PIPESIZE)) as [ch E]; [lia|]. rewrite (rd_Ok _ _ _ E), bind_ok.
  eexists _, _. split; [reflexivity|]. set (pi' := mkpipe _ _ _ _ _).
  assert (Hc' : pcount pi' = pcount pi - 1) by (by apply dist_start).
  split_and!; try done.
  - split; cbn; [done|apply u32_range|done|lia].
  - unfold contents. rewrite ring_pop by done. apply zidx_Some in E as [_ E]. f_equal; [by apply list_lookup_total_correct|].
    rewrite Hc'. symmetry. apply ring_wrap; [apply pipe_wraps|done].
Qed.

(** ** The loops *)

Lemma pipewrite_loop_spec copyin1 killed fuel addr n : forall i pi,
  pipe_ok pi -> (Z.to_nat (n - i) < fuel)%nat ->
  exists o bs pi', pipewrite_loop copyin1 killed fuel addr n i pi = Ok (o, bs, pi') /\ pipe_ok pi' /\
    contents pi' = contents pi ++ bs /\ pcount pi' = pcount pi + Z.of_nat (length bs) /\
    readopen pi' = readopen pi /\ writeopen pi' = writeopen pi /\
    match o with
    | WSleep j => pcount pi' = PIPESIZE /\ readopen pi <> 0 /\ j = i + Z.of_nat (length bs) /\ j < n
    | WRet r true => r = i + Z.of_nat (length bs)
    | WRet r false => r = -1 /\ ((forall j, killed j = false) -> bs = [] /\ readopen pi = 0)
    end.
Proof.
  induction fuel as [|f IH]; intros i pi Hok Hf; [lia|]. cbn [pipewrite_loop].
  pose proof (pcount_range pi) as Hp. pose proof (po_count _ Hok) as Hm.
  destruct (Z.ltb_spec i n) as [Hi|Hi].
  2:{ exists (WRet i true), [], pi. rewrite app_nil_r. cbn. split_and!; try done; lia. }
  destruct ((readopen pi =? 0) || killed i) eqn:Ek.
  { exists (WRet (-1) false), [], pi. rewrite app_nil_r. cbn. split_and!; try done; [lia|]. intros Hk. split; [done|].
    rewrite Hk, orb_false_r in Ek. by apply Z.eqb_eq. }
  apply orb_false_iff in Ek as [Hro _]. apply Z.eqb_neq in Hro.
  destruct (Z.eqb_spec (nwrite pi) (u32 (nread pi + PIPESIZE))) as [E|E].
  { exists (WSleep i), [], pi. rewrite app_nil_r. apply (nread_full pi Hok) in E. cbn. split_and!; try done; lia. }
  destruct (copyin1 (u64 (addr + i))) as [ch|].
  2:{ exists (WRet i true), [], pi. rewrite app_nil_r. cbn. split_and!; try done; lia. }
  assert (Hlt : pcount pi < PIPESIZE) by (pose proof (proj2 (nread_full pi Hok)); lia).
  destruct (put_byte_spec pi ch Hok Hlt) as (pi1 & -> & Hok1 & Hc1 & Hn1 & Hr1 & Hw1). rewrite bind_ok.
  destruct (IH (i + 1) pi1 Hok1 ltac:(lia)) as (o & bs & pi2 & -> & Hok2 & Hc2 & Hn2 & Hr2 & Hw2 & Ho).
  exists o, (ch :: bs), pi2. split; [done|]. rewrite Hc2, Hc1, <- app_assoc. cbn [length app].
  split_and!; try done; try congruence; [lia|].
  destruct o as [r [|]|j]; [lia| |rewrite <- Hr1; naive_solver lia].
  destruct Ho as [-> Ho]. split; [done|]. intros Hk. destruct (Ho Hk) as [_ E']. congruence.
Qed.

Lemma piperead_copy_spec copyout1 fuel addr n : forall i pi,
  pipe_ok pi -> (Z.to_nat (n - i) < fuel)%nat ->
  exists i' bs pi', piperead_copy copyout1 fuel addr n i pi = Ok (i', bs, pi') /\ pipe_ok pi' /\
    contents pi = bs ++ contents pi' /\ readopen pi' = readopen pi /\ writeopen pi' = writeopen pi /\
    (i' = i + Z.of_nat (length bs) \/ i' = i + Z.of_nat (length bs) - 1 /\ exists j, copyout1 j = false) /\
    (pcount pi = 0 -> bs = []).
Proof.
  induction fuel as [|f IH]; intros i pi Hok Hf; [lia|]. cbn [piperead_copy].
  pose proof (pcount_range pi) as Hp.
  destruct (Z.ltb_spec i n) as [Hi|Hi].
  2:{ exists i, [], pi. cbn. split_and!; try done; [left; lia]. }
  destruct (Z.eqb_spec (nread pi) (nwrite pi)) as [E|E].
  { exists i, [], pi. cbn. split_and!; try done; [left; lia]. }
  assert (Hlt : 0 < pcount pi) by (pose proof (proj2 (nread_empty pi Hok)); lia).
  destruct (get_byte_spec pi Hok Hlt) as (ch & pi1 & -> & Hok1 & Hc1 & Hn1 & Hr1 & Hw1). rewrite bind_ok.
  destruct (copyout1 (u64 (addr + i))) eqn:Eo.
  - destruct (IH (i + 1) pi1 Hok1 ltac:(lia)) as (i' & bs & pi2 & -> & Hok2 & Hc2 & Hr2 & Hw2 & Hi' & _).
    exists i', (ch :: bs), pi2. rewrite Hc1, Hc2. cbn [length app]. split_and!; try done; try congruence; [|lia].
    destruct Hi' as [->|[-> ?]]; [left; lia|right; split; [lia|done]].
  - exists i, [ch], pi1. rewrite Hc1. cbn. split_and!; try done; [|lia]. right. split; [lia|eauto].
Qed.
(** ** Readers and writers *)

Inductive ppc : Type :=
| PIdle
| PW (addr n i : Z) | PWSleep (addr n i : Z)     (* in pipewrite, [i] bytes written *)
| PR (addr n : Z) | PRSleep (addr n : Z).        (* in piperead *)

Record psys : Type := mkps { ps_pipe : pipe; ps_pcs : gmap Z ppc; ps_in : list Z; ps_out : list Z }.

(** [wakeup(&pi->nread)] and [wakeup(&pi->nwrite)]. *)
Definition wake_r (x : ppc) : ppc := match x with PRSleep a n => PR a n | _ => x end.
Definition wake_w (x : ppc) : ppc := match x with PWSleep a n i => PW a n i | _ => x end.

Definition writing (x : ppc) : bool := match x with PW _ _ _ | PWSleep _ _ _ => true | _ => false end.
Definition reading (x : ppc) : bool := match x with PR _ _ | PRSleep _ _ => true | _ => false end.

(** [kills]: may processes be killed while they use the pipe? *)
Inductive pstep (kills : bool) : psys -> psys -> Prop :=
| ps_wcall s p addr n : ps_pcs s !! p = Some PIdle -> writeopen (ps_pipe s) <> 0 ->
    pstep kills s (mkps (ps_pipe s) (<[p := PW addr n 0]> (ps_pcs s)) (ps_in s) (ps_out s))
| ps_rcall s p addr n : ps_pcs s !! p = Some PIdle -> readopen (ps_pipe s) <> 0 ->
    pstep kills s (mkps (ps_pipe s) (<[p := PR addr n]> (ps_pcs s)) (ps_in s) (ps_out s))
| ps_write s p addr n i copyin1 killed o bs pi' : ps_pcs s !! p = Some (PW addr n i) ->
    (kills = false -> forall j, killed j = false) ->
    pipewrite copyin1 killed addr n i (ps_pipe s) = Ok (o, bs, pi') ->
    pstep kills s
      (mkps pi'
        (match o with
         | WRet _ woke => <[p := PIdle]> ((if woke then wake_r else id) <$> ps_pcs s)
         | WSleep j => <[p := PWSleep addr n j]> (wake_r <$> ps_pcs s)
         end) (ps_in s ++ bs) (ps_out s))
| ps_read s p addr n copyout1 killed o bs pi' : ps_pcs s !! p = Some (PR addr n) ->
    (kills = false -> forall j, killed j = false) ->
    piperead copyout1 killed addr n (ps_pipe s) = Ok (o, bs, pi') ->
    pstep kills s
      (mkps pi'
        (match o with
         | RRet _ woke => <[p := PIdle]> ((if woke then wake_w else id) <$> ps_pcs s)
         | RSleep => <[p := PRSleep addr n]> (ps_pcs s)
         end) (ps_in s) (ps_out s ++ bs))
(** the last file descriptor of an end is closed: nobody is using that end *)
| ps_close s writable : (forall p x, ps_pcs s !! p = Some x -> (if writable : bool then writing x else reading x) = false) ->
    pstep kills s (mkps (fst (pipeclose writable (ps_pipe s)))
      ((if writable then wake_r else wake_w) <$> ps_pcs s) (ps_in s) (ps_out s))
(** [kill] makes a sleeping process runnable *)
| ps_kill s p x : kills = true -> ps_pcs s !! p = Some x ->
    pstep kills s (mkps (ps_pipe s) (<[p := wake_r (wake_w x)]> (ps_pcs s)) (ps_in s) (ps_out s)).

Definition ps_start (s : psys) : Prop :=
  (exists page, length page = Z.to_nat PIPESIZE /\ ps_pipe s = pipe_init page) /\
  ps_in s = [] /\ ps_out s = [] /\ forall p x, ps_pcs s !! p = Some x -> x = PIdle.

Definition ps_reachable (kills : bool) (s : psys) : Prop := exists s0, ps_start s0 /\ rtc (pstep kills) s0 s.

Record ps_inv (kills : bool) (s : psys) : Prop := {
  psi_ok : pipe_ok (ps_pipe s);
  psi_fifo : ps_in s = ps_out s ++ contents (ps_pipe s);
  psi_w : kills = false -> forall p addr n i, ps_pcs s !! p = Some (PWSleep addr n i) ->
            pcount (ps_pipe s) = PIPESIZE /\ readopen (ps_pipe s) <> 0;
  psi_r : kills = false -> forall p addr n, ps_pcs s !! p = Some (PRSleep addr n) ->
            pcount (ps_pipe s) = 0 /\ writeopen (ps_pipe s) <> 0
}.

Lemma wake_lookup (f : ppc -> ppc) (pcs : gmap Z ppc) p y x q :
  <[p := y]> (f <$> pcs) !! q = Some x -> q = p /\ x = y \/ q <> p /\ exists x0, pcs !! q = Some x0 /\ f x0 = x.
Proof.
  destruct (decide (q = p)) as [->|Hne].
  - rewrite lookup_insert_eq. naive_solver.
  - rewrite lookup_insert_ne, lookup_fmap by done. intros (x0 & ? & ?)%fmap_Some. eauto 6.
Qed.

Lemma ps_inv_write kills s p addr n i copyin1 killed o bs pi' :
  ps_inv kills s -> (kills = false -> forall j, killed j = false) ->
  pipewrite copyin1 killed addr n i (ps_pipe s) = Ok (o, bs, pi') ->
  ps_inv kills (mkps pi'
    (match o with
     | WRet _ woke => <[p := PIdle]> ((if woke then wake_r else id) <$> ps_pcs s)
     | WSleep j => <[p := PWSleep addr n j]> (wake_r <$> ps_pcs s)
     end) (ps_in s ++ bs) (ps_out s)).
Proof.
  intros [Hok Hf Hw Hr] Hk H.
  destruct (pipewrite_loop_spec copyin1 killed (S (Z.to_nat (n - i))) addr n i (ps_pipe s) Hok ltac:(lia))
    as (o' & bs' & pi2 & E & Hok2 & Hc & Hn & Hro & Hwo & Ho).
  unfold pipewrite in H. rewrite E in H. injection H as -> -> ->.
  pose proof (po_count _ Hok2) as Hm. pose proof (pcount_range (ps_pipe s)) as Hp.
  assert (Hkeep : forall q a m j, kills = false -> ps_pcs s !! q = Some (PWSleep a m j) -> pcount pi' = PIPESIZE /\ readopen pi' <> 0).
  { intros q a m j Hkf Hq. destruct (Hw Hkf q a m j Hq). rewrite Hro. split; [lia|done]. }
  split; cbn.
  - done.
  - by rewrite Hf, Hc, app_assoc.
  - intros Hkf q a m j. destruct o as [r woke|j0]; intros H; apply wake_lookup in H as [[-> Hx]|(Hne & x0 & Hq & Hx)]; try done.
    + destruct woke, x0; try done; cbn in Hx; simplify_eq; by eapply Hkeep.
    + rewrite Hro. tauto.
    + destruct x0; try done; cbn in Hx; simplify_eq; by eapply Hkeep.
  - intros Hkf q a m. destruct o as [r woke|j0]; intros H; apply wake_lookup in H as [[-> Hx]|(Hne & x0 & Hq & Hx)]; try done.
    + destruct woke; [by destruct x0|]. cbn in Hx. subst x0. destruct Ho as [_ Ho]. destruct (Ho (Hk Hkf)) as [-> _].
      destruct (Hr Hkf q a m Hq). rewrite Hwo, Hn. cbn. split; [lia|done].
    + by destruct x0.
Qed.

Lemma ps_inv_read kills s p addr n copyout1 killed o bs pi' :
  ps_inv kills s -> (kills = false -> forall j, killed j = false) ->
  piperead copyout1 killed addr n (ps_pipe s) = Ok (o, bs, pi') ->
  ps_inv kills (mkps pi'
    (match o with
     | RRet _ woke => <[p := PIdle]> ((if woke then wake_w else id) <$> ps_pcs s)
     | RSleep => <[p := PRSleep addr n]> (ps_pcs s)
     end) (ps_in s) (ps_out s ++ bs)).
Proof.
  intros [Hok Hf Hw Hr] Hk H. unfold piperead in H.
  destruct ((nread (ps_pipe s) =? nwrite (ps_pipe s)) && negb (writeopen (ps_pipe s) =? 0)) eqn:Eb.
  - apply andb_true_iff in Eb as [Ee Ew]. apply Z.eqb_eq in Ee. apply negb_true_iff, Z.eqb_neq in Ew.
    apply (nread_empty _ Hok) in Ee.
    destruct (killed 0) eqn:Ek; injection H as <- <- <-; (split; cbn; [done|by rewrite app_nil_r|..]); intros Hkf;
      try (by rewrite Hk in Ek).
    + intros q a m j. rewrite lookup_insert_Some. intros [[? ?]|[_ Hq]]; [done|by eapply Hw].
  - destruct (piperead_copy_spec copyout1 (S (Z.to_nat n)) addr n 0 (ps_pipe s) Hok ltac:(lia))
      as (i' & bs' & pi2 & E & Hok2 & Hc & Hro & Hwo & _ & Hz).
    rewrite E, bind_ok in H. injection H as <- <- <-. split; cbn.
    + done.
    + by rewrite Hf, Hc, app_assoc.
    + intros Hkf q a m j H. apply wake_lookup in H as [[-> Hx]|(Hne & x0 & Hq & Hx)]; [done|by destruct x0].
    + intros Hkf q a m H. specialize (Hr Hkf). apply wake_lookup in H as [[-> Hx]|(Hne & x0 & Hq & Hx)]; [done|].
      destruct x0; try done. cbn in Hx. simplify_eq. destruct (Hr q a m Hq) as [He Hwr].
      apply andb_false_iff in Eb as [Eb|Eb]; [apply Z.eqb_neq in Eb; by apply (nread_empty _ Hok) in He|].
      apply negb_false_iff, Z.eqb_eq in Eb. done.
Qed.

Lemma ps_step_inv kills s s' : pstep kills s s' -> ps_inv kills s -> ps_inv kills s'.
Proof.
  intros St I. destruct St as [s p addr n Hp Ho|s p addr n Hp Ho|s p addr n i copyin1 killed o bs pi' Hp Hk H
    |s p addr n copyout1 killed o bs pi' Hp Hk H|s writable Hn|s p x Hkt Hp].
  - destruct I as [Hok Hf Hw Hr]. split; cbn; [done|done|..]; intros Hkf q *; rewrite lookup_insert_Some;
      intros [[? ?]|[_ Hq]]; try done; [by eapply Hw|by eapply Hr].
  - destruct I as [Hok Hf Hw Hr]. split; cbn; [done|done|..]; intros Hkf q *; rewrite lookup_insert_Some;
      intros [[? ?]|[_ Hq]]; try done; [by eapply Hw|by eapply Hr].
  - by apply ps_inv_write with (killed := killed) (copyin1 := copyin1) (i := i).
  - by apply ps_inv_read with (killed := killed) (copyout1 := copyout1).
  - destruct I as [[H1 H2 H3 H4] Hf Hw Hr]. destruct writable; (split; cbn; [by split|done|..]);
      intros Hkf q *; rewrite lookup_fmap, fmap_Some; intros (x0 & Hq & Hx); destruct x0; try done; cbn in Hx; simplify_eq.
    + by eapply Hw.
    + by eapply Hr.
  - destruct I as [Hok Hf Hw Hr]. split; cbn; [done|done|..]; by subst kills.
Qed.

Lemma ps_reachable_inv kills s : ps_reachable kills s -> ps_inv kills s.
Proof.
  intros (s0 & ((page & Hl & Hp) & Hi & Ho & Hpc) & Hs). assert (I : ps_inv kills s0).
  { split.
    - rewrite Hp. by split.
    - rewrite Hi, Ho, Hp. done.
    - intros _ p addr n i E. by apply Hpc in E.
    - intros _ p addr n E. by apply Hpc in E. }
  clear -Hs I. induction Hs as [|? ? ? H _ IH]; [done|]. apply IH. by eapply ps_step_inv.
Qed.

(** C21: A pipe is a bounded queue: whatever its readers and writers do, the bytes
    taken out are, in order, the bytes put in, up to the at most [PIPESIZE]
    ones it holds, across the wrap-around of the 32-bit counters; the loops
    end and stay inside [data].  If no process is killed while it uses the
    pipe, a writer only sleeps while the pipe is full and has a reader, and a
    reader only while it is empty and has a writer, so that never both do. *)
Theorem pipe_is_queue kills s (Hr : ps_reachable kills s) :
  ps_in s = ps_out s ++ contents (ps_pipe s) /\
  Z.of_nat (length (contents (ps_pipe s))) <= PIPESIZE /\
  (forall copyin1 killed addr n i, is_ok (pipewrite copyin1 killed addr n i (ps_pipe s)) = true) /\
  (forall copyout1 killed addr n, is_ok (piperead copyout1 killed addr n (ps_pipe s)) = true) /\
  (kills = false ->
   (forall p addr n i, ps_pcs s !! p = Some (PWSleep addr n i) ->
      Z.of_nat (length (contents (ps_pipe s))) = PIPESIZE /\ readopen (ps_pipe s) <> 0) /\
   (forall p addr n, ps_pcs s !! p = Some (PRSleep addr n) ->
      contents (ps_pipe s) = [] /\ writeopen (ps_pipe s) <> 0) /\
   (forall p q addr n i addr' n', ps_pcs s !! p = Some (PWSleep addr n i) ->
      ps_pcs s !! q = Some (PRSleep addr' n') -> False)).
Proof.
  apply ps_reachable_inv in Hr as [Hok Hf Hw Hr]. pose proof (pcount_range (ps_pipe s)) as Hp.
  pose proof (po_count _ Hok) as Hm. assert (Hlen := length_contents (ps_pipe s)).
  split_and!; [done|lia|..].
  - intros copyin1 killed addr n i. unfold pipewrite.
    destruct (pipewrite_loop_spec copyin1 killed (S (Z.to_nat (n - i))) addr n i (ps_pipe s) Hok ltac:(lia))
      as (o & bs & pi' & -> & _). done.
  - intros copyout1 killed addr n. unfold piperead. destruct (_ && _); [by destruct (killed 0)|].
    destruct (piperead_copy_spec copyout1 (S (Z.to_nat n)) addr n 0 (ps_pipe s) Hok ltac:(lia)) as (i' & bs & pi' & -> & _). done.
  - intros Hk. specialize (Hw Hk). specialize (Hr Hk). split_and!.
    + intros p addr n i E. destruct (Hw p addr n i E). split; [lia|done].
    + intros p addr n E. destruct (Hr p addr n E) as [E' ?]. split; [|done]. apply nil_length_inv. rewrite Hlen, E'. done.
    + intros p q addr n i addr' n' E E'. destruct (Hw p addr n i E), (Hr q addr' n' E'). unfold PIPESIZE in *. lia.
Qed.

(** A reader (process 1) and a writer (process 2) of an empty pipe. *)
Definition ps_demo0 : psys := mkps (pipe_init (replicate 512 0)) {[1 := PIdle; 2 := PIdle]} [] [].

Lemma ps_demo0_start : ps_start ps_demo0.
Proof.
  split_and!; try done; [by exists (replicate 512 0)|]. intros p x. cbn. rewrite lookup_insert_Some, lookup_singleton_Some. naive_solver.
Qed.

Lemma pipe_is_queue_witness :
  exists s, ps_pcs s !! 1 = Some (PRSleep 4096 1) /\ contents (ps_pipe s) = [] /\ writeopen (ps_pipe s) <> 0.
Proof.
  assert (Hr : exists s, ps_reachable false s /\ ps_pcs s !! 1 = Some (PRSleep 4096 1)).
  { eexists. split; [exists ps_demo0; split; [apply ps_demo0_start|]|].
    - eapply rtc_l; [apply (ps_rcall _ _ 1 4096 1); done|].
      eapply rtc_l; [|apply rtc_refl]. eapply (ps_read _ _ 1 4096 1 (fun _ => true) (fun _ => false)); [done|done|].
      vm_compute. reflexivity.
    - reflexivity. }
  destruct Hr as (s & Hr & Hs). exists s. split; [exact Hs|].
  destruct (pipe_is_queue false s Hr) as (_ & _ & _ & _ & H). destruct (H eq_refl) as (_ & H' & _). exact (H' 1 4096 1 Hs).
Defined.

(** The early return of [pipewrite] skips [wakeup(&pi->nread)]: a writer that
    is killed between two bytes of one call leaves a reader asleep although the
    pipe holds data, is still open for writing, and no one is writing. *)
Theorem killed_writer_strands_reader :
  exists s addr n, ps_reachable true s /\ ps_pcs s !! 1 = Some (PRSleep addr n) /\
    contents (ps_pipe s) <> [] /\ writeopen (ps_pipe s) <> 0 /\
    forall p x, ps_pcs s !! p = Some x -> writing x = false.
Proof.
  eexists _, 4096, 1. split; [exists ps_demo0; split; [apply ps_demo0_start|]|].
  - eapply rtc_l; [apply (ps_rcall _ _ 1 4096 1); done|].
    eapply rtc_l.
    { eapply (ps_read _ _ 1 4096 1 (fun _ => true) (fun _ => false)); [done|done|]. vm_compute. reflexivity. }
    eapply rtc_l; [apply (ps_wcall _ _ 2 8192 2); done|].
    eapply rtc_l; [|apply rtc_refl].
    eapply (ps_write _ _ 2 8192 2 0 (fun _ => Some 65) (fun j => 1 <=? j)); [done|done|]. vm_compute. reflexivity.
  - cbn. split_and!; [done|done|done|]. intros p x. rewrite lookup_insert_Some, lookup_fmap.
    intros [[_ <-]|[Hp H]]; [done|]. rewrite (lookup_insert_ne _ 2 p) in H by done.
    destruct (decide (p = 1)) as [->|Hp1]; [rewrite lookup_insert_eq in H; cbn in H; by simplify_eq|].
    rewrite !(lookup_insert_ne _ 1 p) in H by done. rewrite lookup_singleton_ne in H by done. discriminate.
Qed.
