(* ===== verification/Uart.v ===== *)
(** * The UART driver (kernel/uart.c)

    The transmit buffer and the functions that fill and drain it.  The device
    is the sequence of values its line status register shows ([lsr k] at the
    [k]-th read of a call); a function returns the bytes it writes to the
    transmit holding register.  [uartputc] is modelled from the acquisition of
    [uart_tx_lock] to the point where it gives it up, as in [Pipe]. *)

From S2P Require Import Prelude Ring.

Definition RHR : Z := 0.
Definition THR : Z := 0.
Definition IER : Z := 1.
Definition IER_RX_ENABLE : Z := Z.shiftl 1 0.
Definition IER_TX_ENABLE : Z := Z.shiftl 1 1.
Definition FCR : Z := 2.
Definition FCR_FIFO_ENABLE : Z := Z.shiftl 1 0.
Definition FCR_FIFO_CLEAR : Z := Z.shiftl 3 1.
Definition LCR : Z := 3.
Definition LCR_EIGHT_BITS : Z := Z.shiftl 3 0.
Definition LCR_BAUD_LATCH : Z := Z.shiftl 1 7.
Definition LSR : Z := 5.
Definition LSR_RX_READY : Z := Z.shiftl 1 0.
Definition LSR_TX_IDLE : Z := Z.shiftl 1 5.
Definition UART_TX_BUF_SIZE : Z := 32.

Record uart : Type := mkuart { tx_buf : list Z; tx_w : Z; tx_r : Z }.

(** The register writes of [uartinit], in order. *)
Definition uartinit : list (Z * Z) :=
  [(IER, 0x00); (LCR, LCR_BAUD_LATCH); (0, 0x03); (1, 0x00); (LCR, LCR_EIGHT_BITS);
   (FCR, Z.lor FCR_FIFO_ENABLE FCR_FIFO_CLEAR); (IER, Z.lor IER_TX_ENABLE IER_RX_ENABLE)].

Section code.
Context (lsr : nat -> Z) (panicked : bool).

Fixpoint uartstart_loop (fuel k : nat) (u : uart) : res (list Z * uart) :=
  match fuel with
  | O => Hang
  | S f =>
      if tx_w u =? tx_r u then Ok ([], u)
      else if Z.land (lsr k) LSR_TX_IDLE =? 0 then Ok ([], u)
      else
        c ← rd (tx_buf u) (tx_r u mod UART_TX_BUF_SIZE);
        '(bs, u') ← uartstart_loop f (S k) (mkuart (tx_buf u) (tx_w u) (u64 (tx_r u + 1)));
        Ok (c :: bs, u')
  end.

(** The buffer empties after at most [UART_TX_BUF_SIZE] bytes. *)
Definition uartstart (u : uart) : res (list Z * uart) := uartstart_loop 33 0 u.

(** [uartputc]: [None] if it sleeps on [&uart_tx_r]. *)
Definition uartputc (c : Z) (u : uart) : res (option (list Z) * uart) :=
  if panicked then Hang
  else if tx_w u =? u64 (tx_r u + UART_TX_BUF_SIZE) then Ok (None, u)
  else
    d ← wr (tx_buf u) (tx_w u mod UART_TX_BUF_SIZE) (u8 c);
    '(bs, u') ← uartstart (mkuart d (u64 (tx_w u + 1)) (tx_r u));
    Ok (Some bs, u').

(** The polling loop of [uartputc_sync]; the byte goes to THR. *)
Fixpoint uartputc_sync (fuel k : nat) (c : Z) : res Z :=
  if panicked then Hang else
  match fuel with
  | O => Hang
  | S f => if Z.land (lsr k) LSR_TX_IDLE =? 0 then uartputc_sync f (S k) c else Ok (u8 c)
  end.

(** [rhr] is the byte in the receive holding register. *)
Definition uartgetc (rhr : Z) : Z :=
  if negb (Z.land (lsr 0) 0x01 =? 0) then rhr else -1.
End code.

(** ** Writers and the interrupt handler *)

Definition txcount (u : uart) : Z := dist (2 ^ 64) (tx_r u) (tx_w u).
Definition txbytes (u : uart) : list Z := ring UART_TX_BUF_SIZE (tx_buf u) (tx_r u) (txcount u).

Record uart_ok (u : uart) : Prop := {
  uo_buf : length (tx_buf u) = Z.to_nat UART_TX_BUF_SIZE;
  uo_w : 0 <= tx_w u < 2 ^ 64;
  uo_r : 0 <= tx_r u < 2 ^ 64;
  uo_count : txcount u <= UART_TX_BUF_SIZE
}.

Inductive upc : Type := UIdle | UPut (c : Z) | USleep (c : Z).
Definition uwake (x : upc) : upc := match x with USleep c => UPut c | _ => x end.

Record usys : Type := mkus { us_u : uart; us_pcs : gmap Z upc; us_in : list Z; us_out : list Z }.

(** [wakeup(&uart_tx_r)], if a byte was sent. *)
Definition uwakes (bs : list Z) (pcs : gmap Z upc) : gmap Z upc := match bs with [] => pcs | _ => uwake <$> pcs end.

Inductive ustep : usys -> usys -> Prop :=
| us_call s p c : us_pcs s !! p = Some UIdle ->
    ustep s (mkus (us_u s) (<[p := UPut c]> (us_pcs s)) (us_in s) (us_out s))
| us_put s p c lsr bs u' : us_pcs s !! p = Some (UPut c) ->
    uartputc lsr false c (us_u s) = Ok (Some bs, u') ->
    ustep s (mkus u' (<[p := UIdle]> (uwakes bs (us_pcs s))) (us_in s ++ [u8 c]) (us_out s ++ bs))
| us_sleep s p c lsr u' : us_pcs s !! p = Some (UPut c) ->
    uartputc lsr false c (us_u s) = Ok (None, u') ->
    ustep s (mkus u' (<[p := USleep c]> (us_pcs s)) (us_in s) (us_out s))
(** the second half of [uartintr] *)
| us_intr s lsr bs u' : uartstart lsr (us_u s) = Ok (bs, u') ->
    ustep s (mkus u' (uwakes bs (us_pcs s)) (us_in s) (us_out s ++ bs)).

Definition us_start (s : usys) : Prop :=
  length (tx_buf (us_u s)) = Z.to_nat UART_TX_BUF_SIZE /\ tx_w (us_u s) = 0 /\ tx_r (us_u s) = 0 /\
  us_in s = [] /\ us_out s = [] /\ forall p x, us_pcs s !! p = Some x -> x = UIdle.

Definition us_reachable (s : usys) : Prop := exists s0, us_start s0 /\ rtc ustep s0 s.

Record us_inv (s : usys) : Prop := {
  usi_ok : uart_ok (us_u s);
  usi_fifo : us_in s = us_out s ++ txbytes (us_u s);
  usi_sleep : forall p c, us_pcs s !! p = Some (USleep c) -> txcount (us_u s) = UART_TX_BUF_SIZE
}.

Lemma uart_wraps : exists q, 2 ^ 64 = UART_TX_BUF_SIZE * q.
Proof. by exists (2 ^ 59). Qed.

Lemma tx_empty u : uart_ok u -> tx_w u = tx_r u <-> txcount u = 0.
Proof.
  intros [_ Hw Hr _]. unfold txcount. rewrite <- (dist_eq (2 ^ 64) (tx_r u) (tx_w u) 0) by lia.
  by rewrite Z.add_0_r, Z.mod_small.
Qed.

Lemma uartstart_spec lsr fuel : forall k u,
  uart_ok u -> txcount u < Z.of_nat fuel ->
  exists bs u', uartstart_loop lsr fuel k u = Ok (bs, u') /\ uart_ok u' /\ txbytes u = bs ++ txbytes u' /\
    txcount u = Z.of_nat (length bs) + txcount u' /\ tx_w u' = tx_w u /\
    (txcount u' = 0 \/ exists j, Z.land (lsr j) LSR_TX_IDLE = 0).
Proof.
  induction fuel as [|f IH]; intros k u Hok Hf; [pose proof (dist_range (2 ^ 64) ltac:(lia) (tx_r u) (tx_w u)); unfold txcount in Hf; lia|].
  cbn [uartstart_loop]. pose proof Hok as [Hb Hw Hr Hc]. assert (Hp : 0 <= txcount u) by (by apply dist_range).
  destruct (Z.eqb_spec (tx_w u) (tx_r u)) as [E|E].
  { exists [], u. apply (tx_empty u Hok) in E. cbn. split_and!; try done; by left. }
  destruct (Z.eqb_spec (Z.land (lsr k) LSR_TX_IDLE) 0) as [Ei|Ei].
  { exists [], u. cbn. split_and!; try done. right. eauto. }
  assert (Hlt : 0 < txcount u) by (pose proof (proj2 (tx_empty u Hok)); lia).
  pose proof (Z.mod_pos_bound (tx_r u) UART_TX_BUF_SIZE ltac:(done)) as Hm.
  destruct (zidx_is_Some (tx_buf u) (tx_r u mod UART_TX_BUF_SIZE)) as [c Ec]; [lia|]. rewrite (rd_Ok _ _ _ Ec), bind_ok.
  set (u1 := mkuart _ _ _).
  assert (Hc1 : txcount u1 = txcount u - 1) by (by apply dist_start).
  assert (Hok1 : uart_ok u1) by (split; cbn; [done|done|apply Z.mod_pos_bound; lia|lia]).
  destruct (IH (S k) u1 Hok1 ltac:(lia)) as (bs & u2 & -> & Hok2 & Hb2 & Hn2 & Hw2 & Hi2). rewrite bind_ok.
  exists (c :: bs), u2. cbn [length app]. split_and!; try done; [|lia].
  unfold txbytes at 1. rewrite ring_pop by done. apply zidx_Some in Ec as [_ Ec].
  f_equal; [by apply list_lookup_total_correct|]. rewrite <- Hb2. unfold txbytes. rewrite Hc1. symmetry.
  apply ring_wrap; [apply uart_wraps|done].
Qed.

Lemma uartstart_ok lsr u :
  uart_ok u ->
  exists bs u', uartstart lsr u = Ok (bs, u') /\ uart_ok u' /\ txbytes u = bs ++ txbytes u' /\
    txcount u = Z.of_nat (length bs) + txcount u' /\
    (txcount u' = 0 \/ exists j, Z.land (lsr j) LSR_TX_IDLE = 0).
Proof.
  intros Hok. destruct (uartstart_spec lsr 33 0 u Hok) as (bs & u' & E & H1 & H2 & H3 & _ & H4); [|by exists bs, u'].
  pose proof (uo_count _ Hok) as H. unfold UART_TX_BUF_SIZE in H. lia.
Qed.

Lemma uartputc_spec lsr c u :
  uart_ok u ->
  txcount u = UART_TX_BUF_SIZE /\ uartputc lsr false c u = Ok (None, u) \/
  txcount u < UART_TX_BUF_SIZE /\ exists bs u', uartputc lsr false c u = Ok (Some bs, u') /\ uart_ok u' /\
    txbytes u ++ [u8 c] = bs ++ txbytes u' /\ txcount u + 1 = Z.of_nat (length bs) + txcount u'.
Proof.
  intros Hok. pose proof Hok as [Hb Hw Hr Hc]. assert (Hp : 0 <= txcount u) by (by apply dist_range). unfold uartputc.
  destruct (Z.eqb_spec (tx_w u) (u64 (tx_r u + UART_TX_BUF_SIZE))) as [E|E].
  { left. split; [|done]. by apply dist_eq. }
  right. assert (Hlt : txcount u < UART_TX_BUF_SIZE).
  { assert (txcount u <> UART_TX_BUF_SIZE); [|lia]. intros E'. apply E. by apply dist_eq. }
  split; [done|]. pose proof (Z.mod_pos_bound (tx_w u) UART_TX_BUF_SIZE ltac:(done)) as Hm.
  assert (Hix : tx_w u mod UART_TX_BUF_SIZE = (tx_r u + txcount u) mod UART_TX_BUF_SIZE).
  { rewrite (dist_end (2 ^ 64) (tx_r u) (tx_w u) Hw) at 1. by apply mod_ring; [apply uart_wraps|]. }
  rewrite wr_Ok by lia. rewrite bind_ok. set (u1 := mkuart _ _ _).
  assert (Hc1 : txcount u1 = txcount u + 1).
  { apply dist_inc; [done|]. change (txcount u + 1 < 2 ^ 64). unfold UART_TX_BUF_SIZE in Hlt. lia. }
  assert (Hok1 : uart_ok u1) by (split; cbn; [by rewrite length_insert|apply Z.mod_pos_bound; lia|done|lia]).
  destruct (uartstart_ok lsr u1 Hok1) as (bs & u2 & E2 & Hok2 & Hb2 & Hn2 & _).
  rewrite E2, bind_ok. exists bs, u2. split_and!; try done; [|lia].
  rewrite <- Hb2. unfold txbytes. rewrite Hc1. cbn. rewrite Hix. symmetry. by apply ring_push; [| |lia].
Qed.

Lemma uwakes_sleep bs pcs p c : uwakes bs pcs !! p = Some (USleep c) -> bs = [] /\ pcs !! p = Some (USleep c).
Proof.
  destruct bs; [done|]. cbn. rewrite lookup_fmap, fmap_Some. intros (x & _ & E). by destruct x.
Qed.

Lemma us_step_inv s s' : ustep s s' -> us_inv s -> us_inv s'.
Proof.
  intros St [Hok Hf Hs]. destruct St as [s p c Hp|s p c lsr bs u' Hp H|s p c lsr u' Hp H|s lsr bs u' H].
  - split; cbn; [done..|]. intros q c'. rewrite lookup_insert_Some. intros [[? ?]|[_ ?]]; [done|by eapply Hs].
  - destruct (uartputc_spec lsr c _ Hok) as [[_ E]|(Hlt & bs' & u2 & E & Hok2 & Hb & Hn)]; rewrite E in H; [done|].
    injection H as -> ->. split; cbn; [done| |].
    + by rewrite Hf, <- app_assoc, Hb, app_assoc.
    + intros q c'. rewrite lookup_insert_Some. intros [[? ?]|[_ E']]; [done|]. apply uwakes_sleep in E' as [-> E'].
      apply Hs in E'. lia.
  - destruct (uartputc_spec lsr c _ Hok) as [[Hfull E]|(Hlt & bs' & u2 & E & _)]; rewrite E in H; [|done].
    injection H as <-. split; cbn; [done..|]. done.
  - destruct (uartstart_ok lsr (us_u s) Hok) as (bs' & u2 & E & Hok2 & Hb & Hn & _). rewrite E in H. injection H as -> ->. split; cbn; [done| |].
    + by rewrite Hf, Hb, app_assoc.
    + intros q c' E'. apply uwakes_sleep in E' as [-> E']. apply Hs in E'. cbn [length Z.of_nat] in Hn. lia.
Qed.

(** The UART sends what is written to it, in order: whatever writers and
    interrupts do, the bytes given to the transmit register are the bytes of
    the completed [uartputc] calls up to the at most [UART_TX_BUF_SIZE] ones in
    the buffer; a writer sleeps only while the buffer is full; [uartputc] and
    [uartstart] return; and [uartstart] stops only when the buffer is empty or
    the device is busy (and will interrupt). *)
Theorem uart_fifo s (Hr : us_reachable s) :
  us_in s = us_out s ++ txbytes (us_u s) /\
  Z.of_nat (length (txbytes (us_u s))) <= UART_TX_BUF_SIZE /\
  (forall p c, us_pcs s !! p = Some (USleep c) -> Z.of_nat (length (txbytes (us_u s))) = UART_TX_BUF_SIZE) /\
  (forall lsr c, is_ok (uartputc lsr false c (us_u s)) = true) /\
  (forall lsr, exists bs u', uartstart lsr (us_u s) = Ok (bs, u') /\
     (txbytes u' = [] \/ exists j, Z.land (lsr j) LSR_TX_IDLE = 0)).
Proof.
  assert (I : us_inv s).
  { destruct Hr as (s0 & (Hb & Hw & Hrr & Hi & Ho & Hp) & Hs). assert (I0 : us_inv s0).
    { assert (Hc : txcount (us_u s0) = 0) by (unfold txcount; by rewrite Hw, Hrr).
      split; [split; rewrite ?Hw, ?Hrr, ?Hc; done|unfold txbytes; by rewrite Hi, Ho, Hc|]. intros p c E. by apply Hp in E. }
    clear -Hs I0. induction Hs as [|? ? ? H _ IH]; [done|]. apply IH. by eapply us_step_inv. }
  destruct I as [Hok Hf Hs]. assert (Hp : 0 <= txcount (us_u s)) by (by apply dist_range).
  pose proof (uo_count _ Hok) as Hm. assert (Hl := length_ring UART_TX_BUF_SIZE (tx_buf (us_u s)) (tx_r (us_u s)) (txcount (us_u s))).
  fold (txbytes (us_u s)) in Hl. split_and!; [done|lia|..].
  - intros p c E. apply Hs in E. lia.
  - intros lsr c. destruct (uartputc_spec lsr c _ Hok) as [[_ E]|(_ & bs & u' & E & _)]; by rewrite E.
  - intros lsr. destruct (uartstart_ok lsr (us_u s) Hok) as (bs & u' & E & Hok2 & Hb & Hn & Hi).
    exists bs, u'. split; [done|]. destruct Hi as [Hi|Hi]; [left|by right]. unfold txbytes. by rewrite Hi.
Qed.

Lemma uart_fifo_witness :
  exists s, us_in s = [72; 105] /\ us_in s = us_out s ++ txbytes (us_u s).
Proof.
  assert (Hr : exists s, us_reachable s /\ us_in s = [72; 105]).
  { eexists. split; [exists (mkus (mkuart (replicate 32 0) 0 0) {[1 := UIdle]} [] []); split; [split_and!; try done|]|].
    - intros p x. cbn. rewrite lookup_singleton_Some. naive_solver.
    - eapply rtc_l; [by apply (us_call _ 1 72)|].
      eapply rtc_l; [eapply (us_put _ 1 72 (fun _ => 0)); [done|vm_compute; reflexivity]|].
      eapply rtc_l; [by apply (us_call _ 1 105)|].
      eapply rtc_l; [eapply (us_put _ 1 105 (fun _ => 32)); [done|vm_compute; reflexivity]|]. apply rtc_refl.
    - reflexivity. }
  destruct Hr as (s & Hr & Hi). exists s. split; [exact Hi|]. apply (uart_fifo s Hr).
Defined.
