(* ===== verification/Printf.v ===== *)
(** * Formatted output (kernel/printf.c, user/printf.c) and [atoi]

    A C string is the list of its bytes, its terminator implied; the
    variable arguments of a call are a list of [varg].  [printf] gives the
    characters it passes to [consputc], [vprintf] those it passes to [putc]. *)

From S2P Require Import Prelude.

(** ** Characters *)

Notation PERCENT := 37.
Notation MINUS := 45.
Notation ZERO := 48.
Notation NINE := 57.

Definition digits : list Z := [48; 49; 50; 51; 52; 53; 54; 55; 56; 57; 97; 98; 99; 100; 101; 102].
Definition udigits : list Z := [48; 49; 50; 51; 52; 53; 54; 55; 56; 57; 65; 66; 67; 68; 69; 70].
Definition null_str : list Z := [40; 110; 117; 108; 108; 41].

Inductive varg : Type := AInt (z : Z) | APtr (z : Z) | AStr (s : option (list Z)).

Definition va_int (ap : list varg) : res (Z * list varg) :=
  match ap with AInt z :: ap' => Ok (s32 z, ap') | _ => Fault "va_arg" end.
Definition va_uint64 (ap : list varg) : res (Z * list varg) :=
  match ap with APtr z :: ap' => Ok (u64 z, ap') | _ => Fault "va_arg" end.
Definition va_str (ap : list varg) : res (option (list Z) * list varg) :=
  match ap with AStr s :: ap' => Ok (s, ap') | _ => Fault "va_arg" end.

(** ** Numbers *)

(** The [do] loop of [printint]. *)
Fixpoint print_digits (dg : list Z) (fuel : nat) (x base : Z) (buf : list Z) (i : Z) : res (list Z * Z) :=
  match fuel with
  | O => Hang
  | S f =>
      d ← rd dg (x mod base);
      buf' ← wr buf i d;
      if negb (x / base =? 0) then print_digits dg f (x / base) base buf' (i + 1)
      else Ok (buf', i + 1)
  end.

(** [while(--i >= 0) consputc(buf[i]);] *)
Fixpoint print_back (buf : list Z) (i : nat) : res (list Z) :=
  match i with
  | O => Ok []
  | S j => c ← rd buf (Z.of_nat j); cs ← print_back buf j; Ok (c :: cs)
  end.

(** [printint] of both files, which differ in the digits they use; [garbage]
    is what the 16 bytes of [buf] hold at its entry. *)
Definition printint_ (dg garbage : list Z) (xx base : Z) (sign : bool) : res (list Z) :=
  let neg := sign && (xx <? 0) in
  let x := if neg then u32 (- xx) else u32 xx in
  '(buf, i) ← print_digits dg 17 x base garbage 0;
  '(buf, i) ← if neg then b ← wr buf i MINUS; Ok (b, i + 1) else Ok (buf, i);
  print_back buf (Z.to_nat i).

Fixpoint print_nibbles (dg : list Z) (n : nat) (x : Z) : res (list Z) :=
  match n with
  | O => Ok []
  | S m => c ← rd dg (Z.shiftr x 60); cs ← print_nibbles dg m (u64 (Z.shiftl x 4)); Ok (c :: cs)
  end.

Definition printptr_ (dg : list Z) (x : Z) : res (list Z) :=
  cs ← print_nibbles dg 16 x; Ok (ZERO :: 120 :: cs).

(** The bytes of a string up to its terminator. *)
Fixpoint cstr (s : list Z) : list Z :=
  match s with
  | [] => []
  | c :: s' => if c =? 0 then [] else c :: cstr s'
  end.

Definition str_or_null (s : option (list Z)) : list Z := cstr (default null_str s).

Section code.
Context (garbage : list Z).

(** ** The kernel's printf *)

Definition printint (xx base : Z) (sign : bool) : res (list Z) := printint_ digits garbage xx base sign.
Definition printptr (x : Z) : res (list Z) := printptr_ digits x.

(** One conversion: the character after the percent sign. *)
Definition printf_conv (c : Z) (ap : list varg) : res (list Z * list varg) :=
  if c =? 100 (* d *) then '(z, ap) ← va_int ap; o ← printint z 10 true; Ok (o, ap)
  else if c =? 120 (* x *) then '(z, ap) ← va_int ap; o ← printint z 16 true; Ok (o, ap)
  else if c =? 112 (* p *) then '(z, ap) ← va_uint64 ap; o ← printptr z; Ok (o, ap)
  else if c =? 115 (* s *) then '(s, ap) ← va_str ap; Ok (str_or_null s, ap)
  else if c =? PERCENT then Ok ([PERCENT], ap)
  else Ok ([PERCENT; c], ap).

Fixpoint printf_loop (fmt : list Z) (ap : list varg) : res (list Z) :=
  match fmt with
  | [] => Ok []
  | c :: fmt' =>
      if c =? 0 then Ok []
      else if negb (c =? PERCENT) then o ← printf_loop fmt' ap; Ok (c :: o)
      else
        match fmt' with
        | [] => Ok []
        | c :: fmt' =>
            if c =? 0 then Ok [] else
            '(o, ap) ← printf_conv c ap;
            o' ← printf_loop fmt' ap;
            Ok (o ++ o')
        end
  end.

(** [printf]; a null format panics. *)
Definition printf (fmt : option (list Z)) (ap : list varg) : res (list Z) :=
  match fmt with None => Panic "null fmt" | Some f => printf_loop f ap end.

(** ** The printf of user programs *)

Definition uprintint (xx base : Z) (sgn : bool) : res (list Z) := printint_ udigits garbage xx base sgn.
Definition uprintptr (x : Z) : res (list Z) := printptr_ udigits x.

Definition vprintf_conv (c : Z) (ap : list varg) : res (list Z * list varg) :=
  if c =? 100 (* d *) then '(z, ap) ← va_int ap; o ← uprintint z 10 true; Ok (o, ap)
  else if c =? 108 (* l *) then '(z, ap) ← va_uint64 ap; o ← uprintint (s32 z) 10 false; Ok (o, ap)
  else if c =? 120 (* x *) then '(z, ap) ← va_int ap; o ← uprintint z 16 false; Ok (o, ap)
  else if c =? 112 (* p *) then '(z, ap) ← va_uint64 ap; o ← uprintptr z; Ok (o, ap)
  else if c =? 115 (* s *) then '(s, ap) ← va_str ap; Ok (str_or_null s, ap)
  else if c =? 99 (* c *) then '(z, ap) ← va_int ap; Ok ([u8 z], ap)
  else if c =? PERCENT then Ok ([c], ap)
  else Ok ([PERCENT; c], ap).

(** [state] is 0, or the percent sign after one has been seen. *)
Fixpoint vprintf_loop (state : Z) (fmt : list Z) (ap : list varg) : res (list Z) :=
  match fmt with
  | [] => Ok []
  | c :: fmt' =>
      if c =? 0 then Ok []
      else if state =? 0 then
        if c =? PERCENT then vprintf_loop PERCENT fmt' ap
        else o ← vprintf_loop state fmt' ap; Ok (c :: o)
      else if state =? PERCENT then
        '(o, ap) ← vprintf_conv c ap;
        o' ← vprintf_loop 0 fmt' ap;
        Ok (o ++ o')
      else vprintf_loop state fmt' ap
  end.

Definition vprintf (fmt : list Z) (ap : list varg) : res (list Z) := vprintf_loop 0 fmt ap.
End code.

(** ** atoi (user/ulib.c) *)

Fixpoint atoi_loop (s : list Z) (n : Z) : Z :=
  match s with
  | [] => n
  | c :: s' => if (ZERO <=? c) && (c <=? NINE) then atoi_loop s' (s32 (s32 (s32 (n * 10) + c) - ZERO)) else n
  end.

Definition atoi (s : list Z) : Z := atoi_loop s 0.

(** ** Positional notation *)

(** The number a string of digits denotes. *)
Fixpoint num_of (base : Z) (ds : list Z) (acc : Z) : Z :=
  match ds with [] => acc | d :: ds' => num_of base ds' (acc * base + d) end.

(** The digits of a number, least significant first. *)
Fixpoint digits_of (fuel : nat) (base x : Z) : list Z :=
  match fuel with
  | O => []
  | S f => x mod base :: (if x / base =? 0 then [] else digits_of f base (x / base))
  end.

Section notation.
Context (base : Z) (Hb : 1 < base).

Lemma num_of_app ds1 : forall ds2 acc, num_of base (ds1 ++ ds2) acc = num_of base ds2 (num_of base ds1 acc).
Proof. induction ds1; intros; cbn; [done|]. by rewrite IHds1. Qed.

Lemma digits_of_range k : forall x, Forall (fun d => 0 <= d < base) (digits_of k base x).
Proof.
  induction k as [|k IH]; intros x; cbn; [done|]. constructor; [apply Z.mod_pos_bound; lia|].
  destruct (x / base =? 0); [done|apply IH].
Qed.

Lemma digits_of_length k : forall x, (length (digits_of k base x) <= k)%nat.
Proof.
  induction k as [|k IH]; intros x; cbn; [lia|]. destruct (x / base =? 0); cbn; [lia|]. specialize (IH (x / base)). lia.
Qed.

Lemma div_lt_pow k x : 0 <= x < base ^ Z.of_nat (S k) -> 0 <= x / base < base ^ Z.of_nat k.
Proof.
  intros H. rewrite Nat2Z.inj_succ, Z.pow_succ_r in H by lia. split; [apply Z.div_pos; lia|].
  apply Z.div_lt_upper_bound; lia.
Qed.

Lemma num_of_digits k : forall x, 0 <= x < base ^ Z.of_nat k -> num_of base (reverse (digits_of k base x)) 0 = x.
Proof.
  induction k as [|k IH]; intros x Hx; [cbn in *; lia|]. cbn [digits_of]. rewrite reverse_cons, num_of_app. cbn.
  assert (E : num_of base (reverse (if x / base =? 0 then [] else digits_of k base (x / base))) 0 = x / base).
  { destruct (Z.eqb_spec (x / base) 0) as [->|]; [done|]. by apply IH, div_lt_pow. }
  rewrite E, Z.mul_comm. symmetry. apply Z.div_mod. lia.
Qed.

(** No leading zero. *)
Lemma digits_of_head k : forall x, 0 <= x < base ^ Z.of_nat k ->
  last (digits_of k base x) = Some 0 -> digits_of k base x = [0].
Proof.
  induction k as [|k IH]; intros x Hx; [done|]. cbn [digits_of]. destruct (Z.eqb_spec (x / base) 0) as [E|E].
  { by intros [= ->]. }
  apply div_lt_pow in Hx. intros H. assert (Hd : digits_of k base (x / base) = [0]).
  { apply IH; [done|]. destruct (digits_of k base (x / base)) eqn:Ed; [|done].
    destruct k; [|done]. cbn in Hx. lia. }
  destruct k; [done|]. cbn in Hd. injection Hd as Hm Hn.
  destruct (Z.eqb_spec (x / base / base) 0) as [E2|E2]; [|destruct k; [|done]].
  - destruct E. rewrite (Z.div_mod (x / base) base) by lia. lia.
  - apply div_lt_pow in Hx. cbn in Hx. lia.
Qed.
End notation.

(** ** printint *)

Lemma print_digits_spec dg base k : 1 < base -> base <= Z.of_nat (length dg) -> forall fuel x buf i,
  (0 < k <= fuel)%nat -> 0 <= x < base ^ Z.of_nat k -> 0 <= i -> i + Z.of_nat k <= Z.of_nat (length buf) ->
  let out := (fun d => dg !!! Z.to_nat d) <$> digits_of k base x in
  print_digits dg fuel x base buf i =
    Ok (take (Z.to_nat i) buf ++ out ++ drop (Z.to_nat i + length out) buf, i + Z.of_nat (length out)).
Proof.
  intros Hb Hd. induction k as [|k IH]; intros fuel x buf i Hf Hx Hi Hl; [lia|].
  destruct fuel as [|f]; [lia|]. cbn [print_digits digits_of].
  pose proof (Z.mod_pos_bound x base ltac:(lia)) as Hm.
  destruct (zidx_is_Some dg (x mod base)) as [d Ed]; [lia|]. rewrite (rd_Ok _ _ _ Ed), bind_ok, wr_Ok, bind_ok by lia.
  apply zidx_Some in Ed as [_ Ed]. cbn [fmap list_fmap length]. rewrite (list_lookup_total_correct _ _ _ Ed).
  assert (Hu : <[Z.to_nat i:=d]> buf = take (Z.to_nat i) buf ++ d :: drop (S (Z.to_nat i)) buf).
  { apply insert_take_drop. lia. }
  destruct (Z.eqb_spec (x / base) 0) as [E|E]; cbn [negb].
  - cbn [fmap list_fmap length app]. rewrite Hu. by rewrite Nat.add_1_r.
  - apply div_lt_pow in Hx; [|done]. assert (0 < k)%nat by (destruct k; [cbn in Hx|]; lia). rewrite IH; [|try lia..]; [|by rewrite length_insert; lia].
    assert (Hi' : Z.to_nat (i + 1) = S (Z.to_nat i)) by lia. rewrite Hi'. f_equal. f_equal; [|lia].
    rewrite Hu. assert (Hlen : length (take (Z.to_nat i) buf) = Z.to_nat i) by (rewrite length_take; lia).
    rewrite take_app_ge by lia. rewrite Hlen, Nat.sub_succ_l, Nat.sub_diag by lia. cbn [take]. rewrite take_0, <- app_assoc.
    cbn [app]. do 3 f_equal. rewrite drop_app_ge by lia. rewrite Hlen.
    replace (S (Z.to_nat i) + _ - Z.to_nat i)%nat with (S (length ((fun d0 => dg !!! Z.to_nat d0) <$> digits_of k base (x / base)))) by lia.
    cbn [drop]. rewrite drop_drop. f_equal. lia.
Qed.

Lemma print_back_spec buf n : (n <= length buf)%nat -> print_back buf n = Ok (reverse (take n buf)).
Proof.
  induction n as [|n IH]; intros Hn; cbn [print_back]; [done|].
  destruct (lookup_lt_is_Some_2 buf n) as [c Ec]; [lia|].
  rewrite (rd_Ok buf (Z.of_nat n) c) by (apply zidx_Some; rewrite Nat2Z.id; split; [lia|done]).
  rewrite bind_ok, IH, bind_ok by lia. by rewrite (take_S_r _ _ _ Ec), reverse_app.
Qed.

(** The most digits a 32-bit number has in base 10 and 16. *)
Definition base_digits (base : Z) : nat := if base =? 10 then 10 else 8.

Lemma base_digits_ok base x : base = 10 \/ base = 16 -> 0 <= x < 2 ^ 32 -> 0 <= x < base ^ Z.of_nat (base_digits base).
Proof. intros [-> | ->] Hx; cbn; lia. Qed.

Lemma printint_spec dg garbage xx base sign :
  length dg = 16%nat -> length garbage = 16%nat -> base = 10 \/ base = 16 -> - 2 ^ 31 <= xx < 2 ^ 31 ->
  let neg := sign && (xx <? 0) in
  let x := if neg then - xx else u32 xx in
  printint_ dg garbage xx base sign =
    Ok ((if neg then [MINUS] else []) ++ ((fun d => dg !!! Z.to_nat d) <$> reverse (digits_of (base_digits base) base x))).
Proof.
  intros Hd Hg Hb Hx neg x. unfold printint_. fold neg.
  assert (Ex : (if neg then u32 (- xx) else u32 xx) = x).
  { unfold x. destruct neg eqn:En; [|done]. apply andb_true_iff in En as [_ En%Z.ltb_lt]. apply u32_small. lia. }
  rewrite Ex. assert (Hr : 0 <= x < 2 ^ 32).
  { unfold x. destruct neg eqn:En; [|apply u32_range]. apply andb_true_iff in En as [_ En%Z.ltb_lt]. lia. }
  assert (Hk : (0 < base_digits base <= 10)%nat) by (unfold base_digits; destruct (base =? 10); lia).
  rewrite (print_digits_spec dg base (base_digits base)); [|try lia..]; [|by apply base_digits_ok].
  rewrite bind_ok. change (Z.to_nat 0) with 0%nat. rewrite take_0. cbn [app Nat.add].
  set (out := _ <$> digits_of _ _ _).
  assert (Hl : (length out <= 10)%nat).
  { unfold out. rewrite length_fmap. pose proof (digits_of_length base (base_digits base) x). lia. }
  rewrite fmap_reverse. fold out. destruct neg; cbn [app].
  - rewrite wr_Ok by (rewrite length_app, length_drop; lia). rewrite !bind_ok.
    replace (Z.to_nat (0 + Z.of_nat (length out) + 1)) with (S (length out)) by lia.
    replace (Z.to_nat (0 + Z.of_nat (length out))) with (length out + 0)%nat by lia.
    rewrite insert_app_r. rewrite print_back_spec by (rewrite length_app, length_insert, length_drop; lia).
    rewrite take_app_ge by lia. rewrite Nat.sub_succ_l, Nat.sub_diag by lia.
    destruct (drop (length out) garbage) eqn:E; [apply (f_equal length) in E; rewrite length_drop in E; cbn in E; lia|].
    cbn [insert list_insert take]. rewrite reverse_app. done.
  - rewrite bind_ok. replace (Z.to_nat (0 + Z.of_nat (length out))) with (length out) by lia.
    rewrite print_back_spec by (rewrite length_app; lia). by rewrite take_app_length.
Qed.

(** The kernel prints every [int], in the bases its callers use, as a minus
    sign for a negative number and then the shortest string of digits that
    denotes its absolute value; whatever the 16 bytes of the local buffer
    held, no access leaves it. *)
Theorem printint_reads_back garbage xx base
  (Hg : length garbage = 16%nat) (Hb : base = 10 \/ base = 16) (Hx : - 2 ^ 31 <= xx < 2 ^ 31) :
  exists ds, printint garbage xx base true =
      Ok ((if xx <? 0 then [MINUS] else []) ++ ((fun d => digits !!! Z.to_nat d) <$> ds)) /\
    Forall (fun d => 0 <= d < base) ds /\ num_of base ds 0 = Z.abs xx /\
    (head ds = Some 0 -> ds = [0]) /\ (length ds <= 10)%nat.
Proof.
  assert (Hb1 : 1 < base) by lia. set (x := Z.abs xx).
  exists (reverse (digits_of (base_digits base) base x)).
  assert (Hr : 0 <= x < base ^ Z.of_nat (base_digits base)) by (apply base_digits_ok; [done|lia]).
  split_and!.
  - unfold printint. rewrite printint_spec by done. cbn [andb]. do 5 f_equal.
    unfold x. destruct (Z.ltb_spec xx 0); [lia|]. rewrite u32_small by lia. lia.
  - apply Forall_reverse, digits_of_range. lia.
  - by apply num_of_digits.
  - rewrite head_reverse. intros H. by rewrite (digits_of_head base Hb1 _ x Hr H).
  - rewrite length_reverse. pose proof (digits_of_length base (base_digits base) x).
    assert (base_digits base <= 10)%nat by (unfold base_digits; destruct (base =? 10); lia). lia.
Qed.

Lemma printint_reads_back_witness :
  printint (replicate 16 7) (-255) 16 true = Ok [45; 102; 102] /\
  exists ds, num_of 16 ds 0 = 255.
Proof.
  split; [reflexivity|].
  destruct (printint_reads_back (replicate 16 7) (-255) 16 eq_refl ltac:(right; reflexivity) ltac:(lia)) as (ds & _ & _ & H & _).
  by exists ds.
Defined.

(** ** atoi reads what printf prints *)

Lemma s32_add a b : s32 (s32 a + b) = s32 (a + b).
Proof.
  unfold s32. replace ((a + 2 ^ 31) mod 2 ^ 32 - 2 ^ 31 + b + 2 ^ 31) with ((a + 2 ^ 31) mod 2 ^ 32 + b) by lia.
  rewrite Zplus_mod_idemp_l. do 2 f_equal. lia.
Qed.

Lemma num_of_ge base ds : 1 < base -> Forall (fun d => 0 <= d < base) ds -> forall acc, 0 <= acc -> acc <= num_of base ds acc.
Proof.
  intros Hb. induction 1 as [|d ds Hd _ IH]; intros acc Ha; cbn; [lia|]. specialize (IH (acc * base + d)). nia.
Qed.

Lemma dec_digit d : 0 <= d < 10 -> udigits !!! Z.to_nat d = ZERO + d /\ digits !!! Z.to_nat d = ZERO + d.
Proof.
  intros H. assert (E : d ∈ seqZ 0 10) by (apply elem_of_seqZ; lia). clear H. revert d E.
  apply Forall_forall. by repeat constructor.
Qed.

Lemma atoi_digits rest ds : (forall c, head rest = Some c -> ~ ZERO <= c <= NINE) ->
  Forall (fun d => 0 <= d < 10) ds -> forall n, 0 <= n -> num_of 10 ds n < 2 ^ 31 ->
  atoi_loop (((fun d => udigits !!! Z.to_nat d) <$> ds) ++ rest) n = num_of 10 ds n.
Proof.
  intros Hr. induction 1 as [|d ds Hd HF IH]; intros n Hn Hlt; cbn [fmap list_fmap app num_of] in *.
  - destruct rest as [|c rest]; [done|]. cbn. specialize (Hr c eq_refl).
    destruct (Z.leb_spec ZERO c), (Z.leb_spec c NINE); try done. lia.
  - destruct (dec_digit d Hd) as [E _].
    cbn [atoi_loop]. rewrite E. destruct (Z.leb_spec ZERO (ZERO + d)), (Z.leb_spec (ZERO + d) NINE); try lia. cbn [andb].
    pose proof (num_of_ge 10 ds ltac:(lia) HF (n * 10 + d) ltac:(lia)).
    rewrite s32_add. unfold Z.sub at 1. rewrite s32_add, s32_small by lia.
    replace (n * 10 + (ZERO + d) + - ZERO) with (n * 10 + d) by lia. apply IH; lia.
Qed.

(** A number printed with [%d] by a user program and read again with [atoi]
    is the number, whatever follows it that is not a digit. *)
Theorem atoi_printf garbage n rest
  (Hg : length garbage = 16%nat) (Hn : 0 <= n < 2 ^ 31)
  (Hr : forall c, head rest = Some c -> ~ ZERO <= c <= NINE) :
  exists out, vprintf garbage [PERCENT; 100] [AInt n] = Ok out /\ atoi (out ++ rest) = n.
Proof.
  unfold vprintf. cbn [vprintf_loop vprintf_conv Z.eqb Pos.eqb va_int]. rewrite bind_ok, (s32_small n) by lia.
  unfold uprintint. rewrite printint_spec; [|done|done|by left|lia]. destruct (Z.ltb_spec n 0); [lia|]. cbn [andb].
  rewrite !bind_ok, u32_small by lia. eexists. split; [done|]. rewrite app_nil_r. cbn [app].
  pose proof (base_digits_ok 10 n ltac:(by left) ltac:(lia)) as Hk. unfold atoi.
  rewrite atoi_digits; [|done|apply Forall_reverse, digits_of_range; lia|lia|]; rewrite num_of_digits by done; lia.
Qed.

Lemma atoi_printf_witness :
  exists out, vprintf (replicate 16 0) [PERCENT; 100] [AInt 2023] = Ok out /\ atoi (out ++ [10]) = 2023.
Proof. apply (atoi_printf (replicate 16 0) 2023 [10]); [reflexivity|lia|]. intros c [= <-]. lia. Defined.

(** ** The two implementations *)

(** The conversions the two [printf]s treat alike. *)
Fixpoint plain (fmt : list Z) : bool :=
  match fmt with
  | [] => true
  | c :: fmt' =>
      if c =? PERCENT then
        match fmt' with
        | [] => true
        | d :: fmt'' => negb ((d =? 120) || (d =? 112) || (d =? 108) || (d =? 99)) && plain fmt''
        end
      else plain fmt'
  end.

Lemma uprintint_eq garbage z :
  length garbage = 16%nat -> uprintint garbage (s32 z) 10 true = printint garbage (s32 z) 10 true.
Proof.
  intros Hg. unfold uprintint, printint.
  assert (Hz : - 2 ^ 31 <= s32 z < 2 ^ 31) by (unfold s32; pose proof (Z.mod_pos_bound (z + 2 ^ 31) (2 ^ 32)); lia).
  rewrite !printint_spec by (done || by left). do 2 f_equal. apply list_fmap_ext. intros i d Hi.
  apply list_elem_of_lookup_2 in Hi.
  assert (Hd : 0 <= d < 10).
  { revert Hi. apply (proj1 (Forall_forall (fun d => 0 <= d < 10) _)). apply Forall_reverse, digits_of_range. lia. }
  by destruct (dec_digit d Hd) as [-> ->].
Qed.

Lemma vprintf_conv_eq garbage c ap :
  length garbage = 16%nat -> (c =? 120) || (c =? 112) || (c =? 108) || (c =? 99) = false ->
  vprintf_conv garbage c ap = printf_conv garbage c ap.
Proof.
  intros Hg Hc. unfold vprintf_conv, printf_conv. rewrite !orb_false_iff in Hc. destruct Hc as [[[-> ->] ->] ->].
  destruct (c =? 100); [|by destruct (Z.eqb_spec c PERCENT) as [->|]].
  destruct ap as [|[z|z|s] ap]; cbn [va_int mbind res_bind]; [reflexivity| |reflexivity..]. by rewrite uprintint_eq.
Qed.

(** The [printf] of the kernel, which looks one character ahead, and that of
    user programs, a state machine, print the same for every format without
    [%x], [%p], [%l] and [%c] (whose output differs by design), for all
    arguments, wrong ones included. *)
Theorem printf_equivalent garbage fmt ap (Hg : length garbage = 16%nat) (Hp : plain fmt = true) :
  vprintf garbage fmt ap = printf garbage (Some fmt) ap.
Proof.
  unfold vprintf, printf. remember (length fmt) as n eqn:En. assert (Hn : (length fmt <= n)%nat) by lia. clear En.
  revert fmt ap Hp Hn. induction n as [|n IH]; intros [|c fmt] ap Hp Hn; try done; [cbn in Hn; lia|].
  cbn [vprintf_loop printf_loop plain length] in *. destruct (c =? 0); [done|]. rewrite Z.eqb_refl.
  destruct (Z.eqb_spec c PERCENT) as [->|]; cbn [negb].
  - destruct fmt as [|d fmt]; [done|]. cbn [vprintf_loop length] in *. destruct (d =? 0); [done|].
    change (PERCENT =? 0) with false. rewrite Z.eqb_refl. cbv iota.
    apply andb_true_iff in Hp as [Hd%negb_true_iff Hp]. rewrite vprintf_conv_eq by done.
    destruct (printf_conv garbage d ap) as [[o ap']| | |]; try done. rewrite !bind_ok. by rewrite IH by (done || lia).
  - by rewrite IH by (done || lia).
Qed.

Lemma printf_equivalent_witness :
  vprintf (replicate 16 0) [65; 61; 37; 100; 37; 115] [AInt (-7); AStr None]
  = printf (replicate 16 0) (Some [65; 61; 37; 100; 37; 115]) [AInt (-7); AStr None].
Proof. apply printf_equivalent; reflexivity. Defined.
