(* ===== verification/Console.v ===== *)
(** * The console (kernel/console.c) and [procdump]

    The input buffer of the console: [consoleintr], which edits the line being
    typed, and [consoleread], which hands out finished lines, with
    [consputc] and [consolewrite].  As in [Pipe], [consoleread] is modelled
    from the acquisition of [cons.lock] to the point where it gives it up, and
    [cstep] is the system of the keyboard and any number of readers. *)

From S2P Require Import Prelude Ring Printf Sched.

Definition BACKSPACE : Z := 0x100.
Definition C (x : Z) : Z := x - 64.
Definition INPUT_BUF : Z := 128.

Notation NL := 10.
Notation CR := 13.
Notation DEL := 127.
Notation CtrlD := 4.
Notation CtrlH := 8.
Notation CtrlP := 16.
Notation CtrlU := 21.

Record cons_t : Type := mkcons { c_buf : list Z; c_r : Z; c_w : Z; c_e : Z }.

(** The bytes [consputc(c)] sends with [uartputc_sync]. *)
Definition consputc (c : Z) : list Z :=
  if c =? BACKSPACE then [8; 32; 8] else [u8 c].

(** ** procdump (kernel/proc.c) *)

Definition states (st : procstate) : option (list Z) :=
  match st with
  | UNUSED => Some [117; 110; 117; 115; 101; 100]
  | USED => None
  | SLEEPING => Some [115; 108; 101; 101; 112; 32]
  | RUNNABLE => Some [114; 117; 110; 98; 108; 101]
  | RUNNING => Some [114; 117; 110; 32; 32; 32]
  | ZOMBIE => Some [122; 111; 109; 98; 105; 101]
  end.

Fixpoint procdump_from (garbage : list Z) (ps : list (procstate * Z * list Z)) : res (list Z) :=
  match ps with
  | [] => Ok []
  | (st, pid, name) :: ps' =>
      if decide (st = UNUSED) then procdump_from garbage ps' else
      o ← printf garbage (Some [37; 100; 32; 37; 115; 32; 37; 115])
            [AInt pid; AStr (Some (default [63; 63; 63] (states st))); AStr (Some name)];
      o2 ← printf garbage (Some [NL]) [];
      o3 ← procdump_from garbage ps';
      Ok (o ++ o2 ++ o3)
  end.

(** [procdump]: the state, pid and name of every entry of [proc], as the
    unlocked loop reads them. *)
Definition procdump (garbage : list Z) (ps : list (procstate * Z * list Z)) : res (list Z) :=
  o ← printf garbage (Some [NL]) []; o' ← procdump_from garbage ps; Ok (o ++ o').

(** ** Input *)

(** The loop of Control-U. *)
Fixpoint kill_line (fuel : nat) (s : cons_t) : res (list Z * cons_t) :=
  match fuel with
  | O => Hang
  | S f =>
      if c_e s =? c_w s then Ok ([], s)
      else
        b ← rd (c_buf s) (u32 (c_e s - 1) mod INPUT_BUF);
        if b =? NL then Ok ([], s)
        else
          '(o, s') ← kill_line f (mkcons (c_buf s) (c_r s) (c_w s) (u32 (c_e s - 1)));
          Ok (consputc BACKSPACE ++ o, s')
  end.

(** [consoleintr]: the bytes it sends to the UART, whether it calls
    [wakeup(&cons.r)], and the new state. *)
Definition consoleintr (garbage : list Z) (ps : list (procstate * Z * list Z)) (c : Z) (s : cons_t)
    : res (list Z * bool * cons_t) :=
  if c =? C 80 then o ← procdump garbage ps; Ok (mjoin (consputc <$> o), false, s)
  else if c =? C 85 then '(o, s') ← kill_line 129 s; Ok (o, false, s')
  else if (c =? C 72) || (c =? DEL) then
    if negb (c_e s =? c_w s)
    then Ok (consputc BACKSPACE, false, mkcons (c_buf s) (c_r s) (c_w s) (u32 (c_e s - 1)))
    else Ok ([], false, s)
  else if negb (c =? 0) && (u32 (c_e s - c_r s) <? INPUT_BUF) then
    let c := if c =? CR then NL else c in
    b ← wr (c_buf s) (c_e s mod INPUT_BUF) (u8 c);
    let e := u32 (c_e s + 1) in
    if (c =? NL) || (c =? C 68) || (e =? u32 (c_r s + INPUT_BUF))
    then Ok (consputc c, true, mkcons b (c_r s) e e)
    else Ok (consputc c, false, mkcons b (c_r s) (c_w s) e)
  else Ok ([], false, s).

(** How [consoleread] gives up the lock: it returns, or sleeps on [&cons.r]
    with [n] bytes still wanted at [dst]. *)
Inductive cout : Type := CRet (r : Z) | CSleep (dst n : Z).

Section code.
Context (copyout1 : Z -> bool) (copyin1 : Z -> option Z) (killed : bool) (target : Z).

(** The loop of [consoleread]; also the bytes copied to [dst] and the bytes
    taken out of the buffer. *)
Fixpoint consoleread_loop (fuel : nat) (dst n : Z) (s : cons_t) : res (cout * list Z * list Z * cons_t) :=
  match fuel with
  | O => Hang
  | S f =>
      if n <=? 0 then Ok (CRet (s32 (u32 target - n)), [], [], s)
      else if c_r s =? c_w s then
        if killed then Ok (CRet (-1), [], [], s) else Ok (CSleep dst n, [], [], s)
      else
        c ← rd (c_buf s) (c_r s mod INPUT_BUF);
        let s1 := mkcons (c_buf s) (u32 (c_r s + 1)) (c_w s) (c_e s) in
        if c =? C 68 then
          if u32 n <? u32 target
          then Ok (CRet (s32 (u32 target - n)), [], [], mkcons (c_buf s1) (u32 (c_r s1 - 1)) (c_w s1) (c_e s1))
          else Ok (CRet (s32 (u32 target - n)), [], [c], s1)
        else if negb (copyout1 dst) then Ok (CRet (s32 (u32 target - n)), [], [c], s1)
        else if c =? NL then Ok (CRet (s32 (u32 target - (n - 1))), [c], [c], s1)
        else
          '(o, bs, ts, s2) ← consoleread_loop f (u64 (dst + 1)) (n - 1) s1;
          Ok (o, c :: bs, c :: ts, s2)
  end.

(** Every turn takes a byte out of the buffer. *)
Definition consoleread (dst n : Z) (s : cons_t) : res (cout * list Z * list Z * cons_t) :=
  consoleread_loop 129 dst n s.

(** [consolewrite]: the arguments of its calls of [uartputc], and its result. *)
Fixpoint consolewrite_from (fuel : nat) (src i : Z) : list Z * Z :=
  match fuel with
  | O => ([], i)
  | S f =>
      match copyin1 (u64 (src + i)) with
      | None => ([], i)
      | Some c => let '(o, r) := consolewrite_from f src (i + 1) in (c :: o, r)
      end
  end.

Definition consolewrite (src n : Z) : list Z * Z := consolewrite_from (Z.to_nat n) src 0.
End code.

(** ** The abstract line discipline

    The console holds the finished input and the line being typed. *)

Definition committed (s : cons_t) : list Z := ring INPUT_BUF (c_buf s) (c_r s) (dist (2 ^ 32) (c_r s) (c_w s)).
Definition typed (s : cons_t) : list Z := ring INPUT_BUF (c_buf s) (c_w s) (dist (2 ^ 32) (c_w s) (c_e s)).

(** What a key other than Control-P does to the line [ed] being typed, with
    [k] bytes of finished input waiting: the new line, what becomes finished,
    and what is echoed. *)
Definition abs_key (c : Z) (k : nat) (ed : list Z) : list Z * list Z * list Z :=
  if c =? CtrlU then ([], [], mjoin ((fun _ => [8; 32; 8]) <$> ed))
  else if (c =? CtrlH) || (c =? DEL) then
    match ed with [] => ([], [], []) | _ => (removelast ed, [], [8; 32; 8]) end
  else if (c =? 0) || (INPUT_BUF <=? Z.of_nat (k + length ed)) then (ed, [], [])
  else
    let c := if c =? CR then NL else c in
    let ed' := ed ++ [c] in
    if (c =? NL) || (c =? CtrlD) || (Z.of_nat (k + length ed') =? INPUT_BUF) then ([], ed', [c])
    else (ed', [], [c]).

(** What a read of [target] bytes does, [n] of them missing, on finished
    input [com]: its outcome, the bytes copied out, the bytes taken. *)
Fixpoint abs_read (copyout1 : Z -> bool) (killed : bool) (target : Z) (com : list Z) (dst n : Z)
    : cout * list Z * list Z :=
  if n <=? 0 then (CRet (target - n), [], []) else
  match com with
  | [] => (if killed then CRet (-1) else CSleep dst n, [], [])
  | c :: com' =>
      if c =? CtrlD then (CRet (target - n), [], if n <? target then [] else [c])
      else if negb (copyout1 dst) then (CRet (target - n), [], [c])
      else if c =? NL then (CRet (target - (n - 1)), [c], [c])
      else
        let '(o, bs, ts) := abs_read copyout1 killed target com' (u64 (dst + 1)) (n - 1) in
        (o, c :: bs, c :: ts)
  end.

(** ** The system *)

Inductive cpc : Type := CIdle | CRead (target dst n : Z) | CWait (target dst n : Z).
Definition cwake (x : cpc) : cpc := match x with CWait t d n => CRead t d n | _ => x end.

Record csys : Type := mkcs { cs_c : cons_t; cs_pcs : gmap Z cpc; cs_in : list Z; cs_taken : list Z }.

Definition cwakes (w : bool) (pcs : gmap Z cpc) : gmap Z cpc := if w then cwake <$> pcs else pcs.

Section system.
Context (garbage : list Z) (ps : list (procstate * Z * list Z)).

(** [cs_in] collects the finished input, [cs_taken] what readers took. *)
Inductive cstep : csys -> csys -> Prop :=
| cs_key s c echo w s' : 0 <= c < 256 -> consoleintr garbage ps c (cs_c s) = Ok (echo, w, s') ->
    cstep s (mkcs s' (cwakes w (cs_pcs s))
                  (cs_in s ++ drop (length (committed (cs_c s))) (committed s')) (cs_taken s))
| cs_call s p dst n : cs_pcs s !! p = Some CIdle -> n < 2 ^ 31 ->
    cstep s (mkcs (cs_c s) (<[p := CRead n dst n]> (cs_pcs s)) (cs_in s) (cs_taken s))
| cs_read s p co killed target dst n r bs ts s' : cs_pcs s !! p = Some (CRead target dst n) ->
    consoleread co killed target dst n (cs_c s) = Ok (CRet r, bs, ts, s') ->
    cstep s (mkcs s' (<[p := CIdle]> (cs_pcs s)) (cs_in s) (cs_taken s ++ ts))
| cs_sleep s p co killed target dst n dst' n' bs ts s' : cs_pcs s !! p = Some (CRead target dst n) ->
    consoleread co killed target dst n (cs_c s) = Ok (CSleep dst' n', bs, ts, s') ->
    cstep s (mkcs s' (<[p := CWait target dst' n']> (cs_pcs s)) (cs_in s) (cs_taken s ++ ts)).

Definition cs_start (s : csys) : Prop :=
  length (c_buf (cs_c s)) = Z.to_nat INPUT_BUF /\ c_r (cs_c s) = 0 /\ c_w (cs_c s) = 0 /\ c_e (cs_c s) = 0 /\
  cs_in s = [] /\ cs_taken s = [] /\ forall p x, cs_pcs s !! p = Some x -> x = CIdle.

Definition cs_reachable (s : csys) : Prop := exists s0, cs_start s0 /\ rtc cstep s0 s.
End system.

(** ** Invariant *)

Record cons_wf (s : cons_t) : Prop := {
  co_buf : length (c_buf s) = Z.to_nat INPUT_BUF;
  co_r : 0 <= c_r s < 2 ^ 32;
  co_w : 0 <= c_w s < 2 ^ 32;
  co_e : 0 <= c_e s < 2 ^ 32;
  co_total : dist (2 ^ 32) (c_r s) (c_w s) + dist (2 ^ 32) (c_w s) (c_e s) <= INPUT_BUF
}.

(** The line being typed has no end of line and no end of file in it. *)
Definition cons_ok (s : cons_t) : Prop := cons_wf s /\ Forall (fun c => c <> NL /\ c <> CtrlD) (typed s).

Lemma cons_wraps : exists q, 2 ^ 32 = INPUT_BUF * q.
Proof. by exists (2 ^ 25). Qed.

Lemma INPUT_BUF_pos : 0 < INPUT_BUF.
Proof. done. Qed.

Lemma dist32 a b : 0 <= dist (2 ^ 32) a b < 2 ^ 32.
Proof. by apply dist_range. Qed.

Lemma length_committed s : Z.of_nat (length (committed s)) = dist (2 ^ 32) (c_r s) (c_w s).
Proof. unfold committed. rewrite length_ring. pose proof (dist32 (c_r s) (c_w s)). lia. Qed.

Lemma length_typed s : Z.of_nat (length (typed s)) = dist (2 ^ 32) (c_w s) (c_e s).
Proof. unfold typed. rewrite length_ring. pose proof (dist32 (c_w s) (c_e s)). lia. Qed.

(** An offset into the buffer from a counter that has wrapped around. *)
Lemma slot_wrap a k : (((a + k) mod 2 ^ 32) mod INPUT_BUF) = (a + k) mod INPUT_BUF.
Proof. apply mod_ring; [apply cons_wraps|done]. Qed.

Lemma e_slot s : cons_wf s -> c_e s = (c_w s + dist (2 ^ 32) (c_w s) (c_e s)) mod 2 ^ 32.
Proof. intros H. apply dist_end, H. Qed.

Lemma e_last s : cons_wf s ->
  u32 (c_e s - 1) mod INPUT_BUF = (c_w s + dist (2 ^ 32) (c_w s) (c_e s) - 1) mod INPUT_BUF.
Proof.
  intros H. rewrite (e_slot s H) at 1. unfold u32. rewrite Zminus_mod_idemp_l. apply mod_ring; [apply cons_wraps|done].
Qed.

Lemma counters_eq a b : 0 <= a < 2 ^ 32 -> 0 <= b < 2 ^ 32 -> b = a <-> dist (2 ^ 32) a b = 0.
Proof.
  intros Ha Hb. rewrite <- (dist_eq (2 ^ 32) a b 0) by lia. by rewrite Z.add_0_r, Z.mod_small.
Qed.

(** ** Editing *)

(** The line without its last character. *)
Lemma erase_ok s : cons_ok s -> c_e s <> c_w s ->
  let s' := mkcons (c_buf s) (c_r s) (c_w s) (u32 (c_e s - 1)) in
  cons_ok s' /\ committed s' = committed s /\
  exists b, rd (c_buf s) (u32 (c_e s - 1) mod INPUT_BUF) = Ok b /\ typed s = typed s' ++ [b] /\ b <> NL.
Proof.
  intros [Hok Hl] Hne s'. pose proof (e_last s Hok) as El. destruct Hok as [Hb Hr Hw He Ht].
  set (k := dist (2 ^ 32) (c_w s) (c_e s)) in *.
  assert (Hk : 0 < k). { pose proof (dist32 (c_w s) (c_e s)). pose proof (proj2 (counters_eq (c_w s) (c_e s) Hw He)). fold k in H, H0. lia. }
  assert (Hd : dist (2 ^ 32) (c_w s) (u32 (c_e s - 1)) = k - 1) by (by apply dist_dec).
  assert (Hty : typed s = typed s' ++ [c_buf s !!! Z.to_nat ((c_w s + k - 1) mod INPUT_BUF)]).
  { unfold typed, s'. cbn [c_buf c_w c_e]. rewrite Hd. apply ring_last. done. }
  pose proof (Z.mod_pos_bound (c_w s + k - 1) INPUT_BUF INPUT_BUF_pos).
  rewrite Hty, Forall_app, Forall_singleton in Hl. destruct Hl as [Hl1 Hl2].
  split; [|split; [done|]].
  - split; [|done]. split; cbn [s' c_buf c_r c_w c_e]; [done..|apply u32_range|rewrite Hd; lia].
  - eexists. split_and!; [|exact Hty|apply Hl2]. rewrite El. apply rd_Ok, zidx_Some. split; [lia|].
    apply list_lookup_lookup_total_lt. rewrite Hb. lia.
Qed.

Lemma join_const {A B} (x : list A) (l : list B) : mjoin ((fun _ => x) <$> l) ++ x = x ++ mjoin ((fun _ => x) <$> l).
Proof. induction l as [|b l IH]; [by rewrite app_nil_r|]. cbn [fmap list_fmap mjoin list_join]. rewrite <- app_assoc. f_equal. apply IH. Qed.

Lemma kill_line_ok fuel : forall s, cons_ok s -> (length (typed s) < fuel)%nat ->
  exists s', kill_line fuel s = Ok (mjoin ((fun _ => [8; 32; 8]) <$> typed s), s') /\
    cons_ok s' /\ committed s' = committed s /\ typed s' = [].
Proof.
  induction fuel as [|f IH]; intros s Hok Hf; [lia|]. cbn [kill_line]. pose proof (length_typed s) as Hlt.
  destruct (Z.eqb_spec (c_e s) (c_w s)) as [E|E].
  - assert (Hn : typed s = []).
    { apply (counters_eq (c_w s) (c_e s)) in E; [|apply Hok..]. apply nil_length_inv. lia. }
    exists s. by rewrite Hn.
  - destruct (erase_ok s Hok E) as (Hok' & Hc & b & -> & Hty & Hb). rewrite bind_ok.
    destruct (Z.eqb_spec b NL); [done|]. rewrite Hty, length_app in Hf. cbn in Hf.
    destruct (IH _ Hok' ltac:(lia)) as (s' & E2 & Hok2 & Hc2 & Ht2). rewrite E2, bind_ok.
    exists s'. rewrite Hty, fmap_app, join_app. cbn [fmap list_fmap mjoin list_join]. rewrite app_nil_r, join_const.
    split_and!; [done..|congruence|done].
Qed.

Lemma ring_at_w b s k : cons_wf s ->
  ring INPUT_BUF b (c_w s) k = ring INPUT_BUF b (c_r s + dist (2 ^ 32) (c_r s) (c_w s)) k.
Proof.
  intros Hok. rewrite (dist_end (2 ^ 32) (c_r s) (c_w s) (co_w _ Hok)) at 1. apply ring_wrap; [apply cons_wraps|done].
Qed.

(** The buffer is the finished input followed by the line. *)
Lemma ring_split b s : cons_wf s ->
  ring INPUT_BUF b (c_r s) (dist (2 ^ 32) (c_r s) (c_w s) + dist (2 ^ 32) (c_w s) (c_e s)) =
  ring INPUT_BUF b (c_r s) (dist (2 ^ 32) (c_r s) (c_w s)) ++
  ring INPUT_BUF b (c_w s) (dist (2 ^ 32) (c_w s) (c_e s)).
Proof.
  intros Hok. pose proof (dist32 (c_r s) (c_w s)). pose proof (dist32 (c_w s) (c_e s)).
  rewrite ring_app by lia. f_equal. symmetry. by apply ring_at_w.
Qed.

(** Storing a character behind the line. *)
Lemma append_ok s c : cons_wf s -> Z.of_nat (length (committed s) + length (typed s)) < INPUT_BUF ->
  let b := <[Z.to_nat (c_e s mod INPUT_BUF) := c]> (c_buf s) in
  let s' := mkcons b (c_r s) (c_w s) (u32 (c_e s + 1)) in
  wr (c_buf s) (c_e s mod INPUT_BUF) c = Ok b /\
  dist (2 ^ 32) (c_w s) (c_e s') = dist (2 ^ 32) (c_w s) (c_e s) + 1 /\
  committed s' = committed s /\ typed s' = typed s ++ [c].
Proof.
  intros Hok Hlt b s'. rewrite Nat2Z.inj_add, length_committed, length_typed in Hlt.
  pose proof (dist32 (c_r s) (c_w s)) as H1. pose proof (dist32 (c_w s) (c_e s)) as H2.
  set (k1 := dist (2 ^ 32) (c_r s) (c_w s)) in *. set (k2 := dist (2 ^ 32) (c_w s) (c_e s)) in *.
  assert (Hd : dist (2 ^ 32) (c_w s) (c_e s') = k2 + 1).
  { apply dist_inc; [done|]. fold k2. unfold INPUT_BUF in Hlt. lia. }
  pose proof (Z.mod_pos_bound (c_e s) INPUT_BUF INPUT_BUF_pos). split; [|split; [done|]].
  { apply wr_Ok. rewrite (co_buf _ Hok). lia. }
  assert (Hix : c_e s mod INPUT_BUF = (c_r s + (k1 + k2)) mod INPUT_BUF).
  { rewrite (dist_end (2 ^ 32) (c_r s) (c_e s) (co_e _ Hok)) at 1. rewrite slot_wrap. do 2 f_equal.
    apply dist_trans; [done|]. fold k1 k2. unfold INPUT_BUF in Hlt. lia. }
  assert (Hp : ring INPUT_BUF b (c_r s) (k1 + (k2 + 1)) = committed s ++ typed s ++ [c]).
  { replace (k1 + (k2 + 1)) with (k1 + k2 + 1) by lia. unfold b. rewrite Hix.
    rewrite ring_push; [|done|apply Hok|lia]. by rewrite (ring_split _ s Hok), app_assoc. }
  rewrite ring_app in Hp by lia.
  apply app_inj_1 in Hp as [E1 E2]; [|unfold committed; rewrite !length_ring; done].
  split; [done|]. rewrite <- E2. unfold typed, s'. cbn [c_buf c_w c_e]. fold (c_e s'). change (u32 (c_e s + 1)) with (c_e s').
  rewrite Hd. by apply ring_at_w.
Qed.

(** All of the line becomes finished input. *)
Lemma commit_ok s : cons_wf s ->
  let s' := mkcons (c_buf s) (c_r s) (c_e s) (c_e s) in
  cons_ok s' /\ committed s' = committed s ++ typed s /\ typed s' = [].
Proof.
  intros Hok s'. pose proof (co_total _ Hok) as Ht. unfold INPUT_BUF in Ht.
  assert (Hd : dist (2 ^ 32) (c_r s) (c_e s) = dist (2 ^ 32) (c_r s) (c_w s) + dist (2 ^ 32) (c_w s) (c_e s)).
  { apply dist_trans; [done|]. lia. }
  assert (H0 : dist (2 ^ 32) (c_e s) (c_e s) = 0) by exact (proj1 (counters_eq _ _ (co_e _ Hok) (co_e _ Hok)) eq_refl).
  assert (Hty : typed s' = []) by (unfold typed; cbn [s' c_w c_e c_buf]; by rewrite H0).
  split; [|split; [|done]].
  - split; [|by rewrite Hty]. split; try apply Hok. cbn [s' c_r c_w c_e]. rewrite H0, Hd. unfold INPUT_BUF. lia.
  - unfold committed. cbn [s' c_r c_w c_e c_buf]. by rewrite Hd, (ring_split _ s Hok).
Qed.

Lemma append_wf s b : cons_wf s -> Z.of_nat (length (committed s) + length (typed s)) < INPUT_BUF ->
  let s' := mkcons b (c_r s) (c_w s) (u32 (c_e s + 1)) in
  length b = Z.to_nat INPUT_BUF -> dist (2 ^ 32) (c_w s) (c_e s') = dist (2 ^ 32) (c_w s) (c_e s) + 1 -> cons_wf s'.
Proof.
  intros Hok Hlt s' Hb Hd. rewrite Nat2Z.inj_add, length_committed, length_typed in Hlt.
  split; try apply Hok; [done|apply u32_range|]. change (dist (2 ^ 32) (c_r s) (c_w s) + dist (2 ^ 32) (c_w s) (c_e s') <= INPUT_BUF). lia.
Qed.

(** [consoleintr] is the abstract editor, for every key but Control-P. *)
Lemma consoleintr_ok garbage ps c s : cons_ok s -> 0 <= c < 256 -> c <> CtrlP ->
  let '(ed, new, echo) := abs_key c (length (committed s)) (typed s) in
  exists w s', consoleintr garbage ps c s = Ok (echo, w, s') /\ cons_ok s' /\
    committed s' = committed s ++ new /\ typed s' = ed /\ (w = false -> new = []).
Proof.
  intros Hok Hc HP. unfold consoleintr, abs_key.
  change (C 80) with CtrlP. change (C 85) with CtrlU. change (C 72) with CtrlH. change (C 68) with CtrlD.
  destruct (Z.eqb_spec c CtrlP); [done|]. destruct (Z.eqb_spec c CtrlU) as [_|HU].
  { destruct (kill_line_ok 129 s Hok) as (s' & -> & H1 & H2 & H3); [|rewrite bind_ok; exists false, s'; rewrite app_nil_r; by split_and!].
    pose proof (co_total _ (proj1 Hok)) as Ht. pose proof (length_typed s). pose proof (dist32 (c_r s) (c_w s)). unfold INPUT_BUF in Ht. lia. }
  destruct ((c =? CtrlH) || (c =? DEL)) eqn:EH.
  { destruct (Z.eqb_spec (c_e s) (c_w s)) as [E|E]; cbn [negb].
    - assert (typed s = []) as Hn.
      { pose proof (length_typed s) as Hl. rewrite (proj1 (counters_eq _ _ (co_w _ (proj1 Hok)) (co_e _ (proj1 Hok))) E) in Hl.
        apply nil_length_inv. lia. }
      rewrite Hn. exists false, s. rewrite app_nil_r. by split_and!.
    - destruct (erase_ok s Hok E) as (H1 & H2 & b & _ & H3 & _). rewrite H3, removelast_last.
      destruct (typed _ ++ [b]) eqn:E'; [by destruct (typed _)|]. eexists false, _. rewrite app_nil_r. by split_and!. }
  assert (Hsum : u32 (c_e s - c_r s) = Z.of_nat (length (committed s) + length (typed s))).
  { rewrite Nat2Z.inj_add, length_committed, length_typed. apply dist_trans; [done|].
    pose proof (co_total _ (proj1 Hok)) as Ht. unfold INPUT_BUF in Ht. lia. }
  rewrite Hsum. destruct (Z.eqb_spec c 0) as [E0|E0]; cbn [negb andb orb].
  { exists false, s. rewrite app_nil_r. by split_and!. }
  rewrite (Z.ltb_antisym INPUT_BUF). destruct (Z.leb_spec INPUT_BUF (Z.of_nat (length (committed s) + length (typed s)))) as [Hf|Hf]; cbn [negb].
  { exists false, s. rewrite app_nil_r. by split_and!. }
  set (c' := if c =? CR then NL else c). assert (Hc' : 0 <= c' < 256) by (unfold c'; destruct (c =? CR); lia).
  rewrite u8_small by lia. destruct (append_ok s c' (proj1 Hok) Hf) as (-> & Hd & Hco & Hty). rewrite bind_ok.
  assert (Hwf := append_wf s _ (proj1 Hok) Hf ltac:(rewrite length_insert; apply Hok) Hd).
  set (s1 := mkcons _ _ _ _) in *.
  assert (Hfull : (u32 (c_e s + 1) =? u32 (c_r s + INPUT_BUF)) = (Z.of_nat (length (committed s) + length (typed s ++ [c'])) =? INPUT_BUF)).
  { apply eq_bool_prop_intro. rewrite !Is_true_true, !Z.eqb_eq. unfold u32. rewrite dist_eq; [|apply u32_range|done].
    rewrite <- Hty, <- Hco, Nat2Z.inj_add, length_committed, length_typed, <- (dist_trans (2 ^ 32)); [done|done|].
    pose proof (co_total _ Hwf) as Ht. unfold INPUT_BUF in Ht. lia. }
  rewrite Hfull. assert (Ecp : consputc c' = [c']).
  { unfold consputc, BACKSPACE. destruct (Z.eqb_spec c' 256); [lia|]. by rewrite u8_small by lia. }
  rewrite Ecp. destruct ((c' =? NL) || (c' =? CtrlD) || _) eqn:Ew.
  - destruct (commit_ok s1 Hwf) as (H1 & H2 & H3). eexists true, _. split; [done|]. split_and!; [exact H1|etrans; [exact H2|by rewrite Hco, Hty]|exact H3|done].
  - rewrite !orb_false_iff, !Z.eqb_neq in Ew. exists false, s1. rewrite app_nil_r. split_and!; try done.
    split; [done|]. rewrite Hty. apply Forall_app. split; [apply Hok|]. constructor; [tauto|done].
Qed.

(** ** Reading *)

Lemma take_byte_ok s : cons_ok s -> c_r s <> c_w s ->
  let s1 := mkcons (c_buf s) (u32 (c_r s + 1)) (c_w s) (c_e s) in
  exists c, rd (c_buf s) (c_r s mod INPUT_BUF) = Ok c /\ cons_ok s1 /\ committed s = c :: committed s1 /\
    typed s1 = typed s /\ u32 (c_r s1 - 1) = c_r s.
Proof.
  intros [Hok Hl] Hne s1. destruct Hok as [Hb Hr Hw He Ht].
  set (k := dist (2 ^ 32) (c_r s) (c_w s)) in *.
  assert (Hk : 0 < k).
  { pose proof (dist32 (c_r s) (c_w s)). pose proof (proj2 (counters_eq (c_r s) (c_w s) Hr Hw)). fold k in H, H0. intuition lia. }
  assert (Hd : dist (2 ^ 32) (u32 (c_r s + 1)) (c_w s) = k - 1) by (by apply dist_start).
  pose proof (Z.mod_pos_bound (c_r s) INPUT_BUF INPUT_BUF_pos).
  destruct (zidx_is_Some (c_buf s) (c_r s mod INPUT_BUF)) as [c Ec]; [lia|]. exists c. split_and!.
  - by apply rd_Ok.
  - split; [|done]. split; cbn [s1 c_buf c_r c_w c_e]; [done|apply u32_range|done..|rewrite Hd; lia].
  - unfold committed, s1. cbn [c_buf c_r c_w]. fold k. rewrite Hd, ring_pop by done. f_equal.
    + apply zidx_Some in Ec as [_ Ec]. by apply list_lookup_total_correct.
    + symmetry. apply ring_wrap; [apply cons_wraps|done].
  - done.
  - cbn [s1 c_r]. unfold u32. rewrite Zminus_mod_idemp_l, Z.add_simpl_r. by apply Z.mod_small.
Qed.

(** [consoleread] is the abstract read. *)
Lemma consoleread_ok co killed target fuel : 0 <= target < 2 ^ 31 -> forall s dst n,
  cons_ok s -> n <= target -> 0 <= n -> (length (committed s) < fuel)%nat ->
  let '(o, bs, ts) := abs_read co killed target (committed s) dst n in
  exists s', consoleread_loop co killed target fuel dst n s = Ok (o, bs, ts, s') /\ cons_ok s' /\
    committed s = ts ++ committed s' /\ typed s' = typed s /\
    (forall dst' n', o = CSleep dst' n' -> committed s' = [] /\ 0 < n' <= target).
Proof.
  intros Htg. induction fuel as [|f IH]; intros s dst n Hok Hn Hp Hf; [lia|].
  assert (Hret : forall m, 0 <= m <= target -> s32 (u32 target - m) = target - m).
  { intros m Hm. rewrite u32_small by lia. apply s32_small. lia. }
  cbn [consoleread_loop]. destruct (Z.leb_spec n 0) as [H0|H0].
  { assert (n = 0) as -> by lia. rewrite Hret by lia. destruct (committed s) eqn:E; cbn; (exists s; by rewrite E; split_and!). }
  destruct (Z.eqb_spec (c_r s) (c_w s)) as [E|E].
  { assert (committed s = []) as Hn0.
    { apply nil_length_inv. pose proof (length_committed s) as Hl.
      rewrite (proj1 (counters_eq _ _ (co_r _ (proj1 Hok)) (co_w _ (proj1 Hok))) (eq_sym E)) in Hl. lia. }
    rewrite Hn0. cbn [abs_read]. destruct (Z.leb_spec n 0); [lia|].
    destruct killed; (exists s; split_and!; [done..|]); [done|]. intros dst' n' [= <- <-]. by split. }
  destruct (take_byte_ok s Hok E) as (c & -> & Hok1 & Hcm & Hty & Hback). rewrite bind_ok. rewrite Hcm. cbn [abs_read].
  change (C 68) with CtrlD. destruct (Z.leb_spec n 0); [lia|]. rewrite !Hret by lia. rewrite (u32_small n), (u32_small target) by lia.
  destruct (c =? CtrlD).
  { destruct (n <? target).
    - eexists. split; [done|]. rewrite Hback. destruct s; cbn in *. by split_and!.
    - eexists. split; [done|]. by split_and!. }
  destruct (co dst); cbn [negb]; [|eexists; split; [done|]; by split_and!].
  destruct (c =? NL); [eexists; split; [done|]; by split_and!|].
  set (s1 := mkcons _ _ _ _) in *. rewrite Hcm in Hf. cbn in Hf.
  specialize (IH s1 (u64 (dst + 1)) (n - 1) Hok1 ltac:(lia) ltac:(lia) ltac:(lia)).
  destruct (abs_read co killed target (committed s1) (u64 (dst + 1)) (n - 1)) as [[o bs] ts].
  destruct IH as (s' & -> & H1 & H2 & H3 & H4). rewrite bind_ok. exists s'. split_and!; try done. by rewrite H2.
Qed.

Section theorem.
Context (garbage : list Z) (ps : list (procstate * Z * list Z)) (Hg : length garbage = 16%nat).

(** Control-P prints the process table and changes nothing. *)
Lemma printf_line pid a b :
  exists o, printf garbage (Some [37; 100; 32; 37; 115; 32; 37; 115]) [AInt pid; AStr a; AStr b] = Ok o.
Proof.
  assert (Hz : - 2 ^ 31 <= s32 pid < 2 ^ 31) by (unfold s32; pose proof (Z.mod_pos_bound (pid + 2 ^ 31) (2 ^ 32)); lia).
  unfold printf. cbn [printf_loop Z.eqb Pos.eqb negb printf_conv va_int]. rewrite bind_ok. unfold printint.
  rewrite printint_spec by (done || by left). rewrite !bind_ok. eexists. reflexivity.
Qed.

Lemma procdump_from_ok l : is_ok (procdump_from garbage l) = true.
Proof.
  induction l as [|[[st pid] name] l IH]; [done|]. cbn [procdump_from]. case_decide; [done|].
  destruct (printf_line pid (Some (default [63; 63; 63] (states st))) (Some name)) as [o ->].
  cbn [mbind res_bind printf printf_loop Z.eqb Pos.eqb negb]. by destruct (procdump_from garbage l).
Qed.

Lemma procdump_ok l : exists o, procdump garbage l = Ok o.
Proof.
  unfold procdump. cbn [printf printf_loop]. rewrite !bind_ok. pose proof (procdump_from_ok l).
  destruct (procdump_from garbage l); try done. eauto.
Qed.

Record cs_inv (s : csys) : Prop := {
  ci_ok : cons_ok (cs_c s);
  ci_fifo : cs_in s = cs_taken s ++ committed (cs_c s);
  ci_read : forall p t d n, cs_pcs s !! p = Some (CRead t d n) -> n <= t < 2 ^ 31 /\ (t < 0 -> n <= 0) /\ (0 <= t -> 0 <= n);
  ci_wait : forall p t d n, cs_pcs s !! p = Some (CWait t d n) -> committed (cs_c s) = [] /\ 0 < n <= t /\ t < 2 ^ 31
}.

Lemma consoleintr_total c s : cons_ok s -> 0 <= c < 256 ->
  exists echo w s' new, consoleintr garbage ps c s = Ok (echo, w, s') /\ cons_ok s' /\ committed s' = committed s ++ new /\
    (w = false -> new = []).
Proof.
  intros Hok Hc. destruct (Z.eq_dec c CtrlP) as [->|HP].
  - destruct (procdump_ok ps) as [o E]. unfold consoleintr. cbn [Z.eqb Pos.eqb C Z.sub]. rewrite E.
    eexists _, false, s, []. rewrite app_nil_r. by split_and!.
  - pose proof (consoleintr_ok garbage ps c s Hok Hc HP) as H. destruct (abs_key _ _ _) as [[ed new] echo].
    destruct H as (w & s' & ? & ? & ? & ? & ?). by exists echo, w, s', new.
Qed.

End theorem.

Lemma consoleread_none co killed target f dst n s : n <= 0 ->
  consoleread_loop co killed target (S f) dst n s = Ok (CRet (s32 (u32 target - n)), [], [], s).
Proof. intros H. cbn [consoleread_loop]. by destruct (Z.leb_spec n 0); [|lia]. Qed.

(** A read of a negative number of bytes returns at once. *)
Lemma consoleread_spec co killed target dst n s : cons_ok s ->
  n <= target < 2 ^ 31 -> (target < 0 -> n <= 0) -> (0 <= target -> 0 <= n) ->
  exists o bs ts s', consoleread co killed target dst n s = Ok (o, bs, ts, s') /\ cons_ok s' /\
    committed s = ts ++ committed s' /\ typed s' = typed s /\
    (forall dst' n', o = CSleep dst' n' -> committed s' = [] /\ 0 < n' <= target) /\
    (0 <= target -> abs_read co killed target (committed s) dst n = (o, bs, ts)).
Proof.
  intros Hok Hn H1 H2. destruct (Z.lt_ge_cases target 0) as [Hneg|Hpos].
  - eexists _, [], [], s. split_and!; [apply (consoleread_none _ _ _ 128); lia|done..|lia].
  - pose proof (consoleread_ok co killed target 129 ltac:(lia) s dst n Hok ltac:(lia) ltac:(lia)) as H.
    destruct (abs_read co killed target (committed s) dst n) as [[o bs] ts]. destruct H as (s' & E & H3 & H4 & H5 & H6);
      [|exists o, bs, ts, s'; split_and!; [exact E|done..]].
    pose proof (co_total _ (proj1 Hok)) as Ht. pose proof (length_committed s). pose proof (dist32 (c_w s) (c_e s)).
    unfold INPUT_BUF in Ht. lia.
Qed.

Section invariant.
Context (garbage : list Z) (ps : list (procstate * Z * list Z)) (Hg : length garbage = 16%nat).

Lemma cwakes_read w pcs p t d n : cwakes w pcs !! p = Some (CRead t d n) ->
  pcs !! p = Some (CRead t d n) \/ pcs !! p = Some (CWait t d n).
Proof.
  destruct w; cbn; [|by left]. rewrite lookup_fmap, fmap_Some. intros (x & E & Ex).
  destruct x; cbn in Ex; simplify_eq; auto.
Qed.

Lemma cwakes_wait w pcs p t d n : cwakes w pcs !! p = Some (CWait t d n) -> w = false /\ pcs !! p = Some (CWait t d n).
Proof.
  destruct w; cbn; [|done]. rewrite lookup_fmap, fmap_Some. intros (x & _ & Ex). by destruct x.
Qed.

Lemma cs_step_inv s s' : cstep garbage ps s s' -> cs_inv s -> cs_inv s'.
Proof.
  intros St [Hok Hf Hr Hw]. destruct St as [s c echo w s' Hc H|s p dst n Hp Hn|s p co killed t d n r bs ts s' Hp H
    |s p co killed t d n d' n' bs ts s' Hp H].
  - destruct (consoleintr_total garbage ps Hg c _ Hok Hc) as (e2 & w2 & s2 & new & E & Hok2 & Hcm & Hnew).
    rewrite E in H. injection H as <- <- <-. split; cbn; [done| | |].
    + rewrite Hcm, drop_app_length, Hf. by rewrite app_assoc.
    + intros p t d n [E'|E']%cwakes_read; [by apply Hr in E'|]. apply Hw in E' as (_ & ? & ?). lia.
    + intros p t d n [-> E']%cwakes_wait. apply Hw in E' as (E0 & ? & ?). by rewrite Hcm, E0, Hnew.
  - split; cbn; [done..| |].
    + intros q t d m. rewrite lookup_insert_Some. intros [[_ [= <- <- <-]]|[_ E]]; [lia|by apply Hr in E].
    + intros q t d m. rewrite lookup_insert_Some. intros [[_ [=]]|[_ E]]. by apply Hw in E.
  - destruct (Hr _ _ _ _ Hp) as (H1 & H2 & H3).
    destruct (consoleread_spec co killed t d n _ Hok H1 H2 H3) as (o & bs2 & ts2 & s2 & E & Hok2 & Hcm & _ & _).
    rewrite E in H. injection H as -> -> -> ->. split; cbn; [done| | |].
    + by rewrite Hf, Hcm, app_assoc.
    + intros q t' d' m. rewrite lookup_insert_Some. intros [[_ [=]]|[_ E']]. by apply Hr in E'.
    + intros q t' d' m. rewrite lookup_insert_Some. intros [[_ [=]]|[_ E']]. apply Hw in E' as (E0 & ?).
      rewrite E0 in Hcm. symmetry in Hcm. by apply app_eq_nil in Hcm as [_ ->].
  - destruct (Hr _ _ _ _ Hp) as (H1 & H2 & H3).
    destruct (consoleread_spec co killed t d n _ Hok H1 H2 H3) as (o & bs2 & ts2 & s2 & E & Hok2 & Hcm & _ & Hsl & _).
    rewrite E in H. injection H as -> -> -> ->. destruct (Hsl _ _ eq_refl) as [Hnil Hn']. split; cbn; [done| | |].
    + by rewrite Hf, Hcm, app_assoc.
    + intros q t' d0 m. rewrite lookup_insert_Some. intros [[_ [=]]|[_ E']]. by apply Hr in E'.
    + intros q t' d0 m. rewrite lookup_insert_Some. intros [[_ [= <- <- <-]]|[_ E']]; [split_and!; [done|lia..]|].
      split; [done|]. by apply Hw in E' as (_ & ?).
Qed.

Lemma cs_reach_inv s : cs_reachable garbage ps s -> cs_inv s.
Proof.
  intros (s0 & (Hb & Hr & Hw & He & Hi & Ht & Hp) & Hs). assert (I0 : cs_inv s0).
  { assert (Hc : committed (cs_c s0) = [] /\ typed (cs_c s0) = []) by (unfold committed, typed; by rewrite Hr, Hw, He).
    destruct Hc as [Hc1 Hc2]. split; [|by rewrite Hi, Ht, Hc1|..]; try (intros p t d n E; by apply Hp in E).
    split; [split; rewrite ?Hr, ?Hw, ?He; done|by rewrite Hc2]. }
  clear -Hs I0 Hg. induction Hs as [|? ? ? H _ IH]; [done|]. apply IH. by eapply cs_step_inv.
Qed.
End invariant.

(** C38: The console is a line editor in front of a queue: in every reachable state
    what readers have been given, followed by the finished input, is all that
    was ever finished, in order; each key is handled as by [abs_key] (end of
    line, end of file and a full buffer finish the line, Control-U and
    backspace edit it) and each read as by [abs_read] (at most one line, an
    end of file met after other bytes is kept for the next read); both
    return; and a reader sleeps only while no finished input is waiting. *)
Theorem console_line_discipline garbage ps s
  (Hg : length garbage = 16%nat) (Hr : cs_reachable garbage ps s) :
  cs_in s = cs_taken s ++ committed (cs_c s) /\
  Z.of_nat (length (committed (cs_c s)) + length (typed (cs_c s))) <= INPUT_BUF /\
  Forall (fun c => c <> NL /\ c <> CtrlD) (typed (cs_c s)) /\
  (forall p t d n, cs_pcs s !! p = Some (CWait t d n) -> committed (cs_c s) = []) /\
  (forall c, 0 <= c < 256 -> c <> CtrlP ->
    let '(ed, new, echo) := abs_key c (length (committed (cs_c s))) (typed (cs_c s)) in
    exists w s', consoleintr garbage ps c (cs_c s) = Ok (echo, w, s') /\
      committed s' = committed (cs_c s) ++ new /\ typed s' = ed) /\
  (forall co killed t d n, 0 <= n <= t -> t < 2 ^ 31 ->
    let '(o, bs, ts) := abs_read co killed t (committed (cs_c s)) d n in
    exists s', consoleread co killed t d n (cs_c s) = Ok (o, bs, ts, s') /\
      committed (cs_c s) = ts ++ committed s' /\ typed s' = typed (cs_c s)).
Proof.
  destruct (cs_reach_inv garbage ps Hg s Hr) as [Hok Hf _ Hw]. split_and!.
  - done.
  - rewrite Nat2Z.inj_add, length_committed, length_typed. apply Hok.
  - apply Hok.
  - intros p t d n E. by apply Hw in E as [? _].
  - intros c Hc HP. pose proof (consoleintr_ok garbage ps c _ Hok Hc HP) as H. destruct (abs_key _ _ _) as [[ed new] echo].
    destruct H as (w & s' & ? & ? & ? & ? & ?). by exists w, s'.
  - intros co killed t d n Hn Ht. destruct (consoleread_spec co killed t d n _ Hok) as (o & bs & ts & s' & E & _ & ? & ? & _ & Ha); [lia..|].
    rewrite Ha by lia. by exists s'.
Qed.

(** Typing [a], [b], backspace, [c], return and reading gives [ac]. *)
Lemma console_line_discipline_witness :
  exists s, cs_in s = [97; 99; 10] /\ cs_in s = cs_taken s ++ committed (cs_c s).
Proof.
  assert (Hr : exists s, cs_reachable (replicate 16 0) [] s /\ cs_in s = [97; 99; 10]).
  { eexists. split; [exists (mkcs (mkcons (replicate 128 0) 0 0 0) ∅ [] []); split; [by split_and!|]|].
    - eapply rtc_l; [eapply (cs_key _ _ _ 97); [lia|vm_compute; reflexivity]|].
      eapply rtc_l; [eapply (cs_key _ _ _ 98); [lia|vm_compute; reflexivity]|].
      eapply rtc_l; [eapply (cs_key _ _ _ 8); [lia|vm_compute; reflexivity]|].
      eapply rtc_l; [eapply (cs_key _ _ _ 99); [lia|vm_compute; reflexivity]|].
      eapply rtc_l; [eapply (cs_key _ _ _ 13); [lia|vm_compute; reflexivity]|].
      apply rtc_refl.
    - reflexivity. }
  destruct Hr as (s & Hr & Hi). exists s. split; [exact Hi|].
  apply (console_line_discipline (replicate 16 0) [] s eq_refl Hr).
Defined.
