(* ===== verification/Grep.v ===== *)
(** * grep (user/grep.c)

    The regular expression matcher and the loop that reads a file through a
    buffer of 1024 bytes.  A C string is the list of its bytes before the
    terminator, so the test for a null character is the test for []. *)

From S2P Require Import Prelude.

Notation CARET := 94.
Notation DOLLAR := 36.
Notation DOT := 46.
Notation STAR := 42.
Notation NEWLINE := 10.

(** ** The matcher *)

(** [matchstar(c, re, text)], given [matchhere(re, .)]. *)
Fixpoint matchstar (here : list Z -> bool) (c : Z) (text : list Z) : bool :=
  if here text then true
  else
    match text with
    | [] => false
    | t :: text' => if (t =? c) || (c =? DOT) then matchstar here c text' else false
    end.

Fixpoint matchhere (re text : list Z) {struct re} : bool :=
  match re with
  | [] => true
  | c :: re1 =>
      let single :=
        match text with
        | [] => false
        | t :: text' => if (c =? DOT) || (c =? t) then matchhere re1 text' else false
        end in
      match re1 with
      | [] => if c =? DOLLAR then match text with [] => true | _ => false end else single
      | s :: re2 => if s =? STAR then matchstar (matchhere re2) c text else single
      end
  end.

(** The [do] loop of [match]. *)
Fixpoint match_from (re text : list Z) : bool :=
  if matchhere re text then true
  else match text with [] => false | _ :: text' => match_from re text' end.

Definition match_ (re text : list Z) : bool :=
  match re with
  | [] => match_from re text
  | c :: re1 => if c =? CARET then matchhere re1 text else match_from re text
  end.

(** ** Reading the file

    [buf] is the part of the buffer in use, the bytes before [buf[m]]. *)

(** [strchr(p, '\n')]: the bytes before it and those after it. *)
Fixpoint strchr_nl (p : list Z) : option (list Z * list Z) :=
  match p with
  | [] => None
  | c :: p' =>
      if c =? 0 then None
      else if c =? NEWLINE then Some ([], p')
      else '(l, r) ← strchr_nl p'; Some (c :: l, r)
  end.

(** The inner loop: what it writes, and the bytes left from [p] on. *)
Fixpoint grep_lines (fuel : nat) (pattern p : list Z) : res (list Z * list Z) :=
  match fuel with
  | O => Hang
  | S f =>
      match strchr_nl p with
      | None => Ok ([], p)
      | Some (l, p') =>
          '(out, rest) ← grep_lines f pattern p';
          Ok ((if match_ pattern l then l ++ [NEWLINE] else []) ++ out, rest)
      end
  end.

(** [read(fd, buf+m, n)] at offset [off] of a file: how many of the bytes
    asked for and available it returns is up to the file. *)
Definition bufsize : Z := 1024.

Section grep.
Context (pattern file : list Z) (chunk : nat -> Z).

(** The [k]-th call of [read] returns [chunk k] bytes, or as many as there are. *)
Definition read_ (k : nat) (off n : Z) : list Z :=
  take (Z.to_nat (Z.min n (Z.max 1 (chunk k)))) (drop (Z.to_nat off) file).

Fixpoint grep_loop (fuel k : nat) (off : Z) (buf : list Z) : res (list Z) :=
  match fuel with
  | O => Hang
  | S f =>
      let bs := read_ k off (bufsize - Z.of_nat (length buf) - 1) in
      match bs with
      | [] => Ok []
      | _ =>
          '(out, rest) ← grep_lines (S (length (buf ++ bs))) pattern (buf ++ bs);
          out' ← grep_loop f (S k) (off + Z.of_nat (length bs)) rest;
          Ok (out ++ out')
      end
  end.

(** Every read makes progress. *)
Definition grep : res (list Z) := grep_loop (S (length file)) 0 0 [].
End grep.

(** ** The language of a pattern *)

Inductive item : Type := One (c : Z) | Many (c : Z).

(** Does the character [c] of a pattern stand for [t]? *)
Definition char_ok (c t : Z) : bool := (c =? DOT) || (c =? t).

(** A pattern without its leading caret: its items, and whether it ends with
    an anchor. *)
Fixpoint parse (re : list Z) : list item * bool :=
  match re with
  | [] => ([], false)
  | c :: re1 =>
      match re1 with
      | [] => if c =? DOLLAR then ([], true) else ([One c], false)
      | s :: re2 =>
          if s =? STAR then let '(l, e) := parse re2 in (Many c :: l, e)
          else let '(l, e) := parse re1 in (One c :: l, e)
      end
  end.

Inductive lang : list item -> list Z -> Prop :=
| lang_nil : lang [] []
| lang_one c t l w : char_ok c t = true -> lang l w -> lang (One c :: l) (t :: w)
| lang_many c ts l w : Forall (fun t => char_ok c t = true) ts -> lang l w -> lang (Many c :: l) (ts ++ w).

#[local] Hint Constructors lang : core.

(** Some prefix of [text] is in the language, all of it if anchored. *)
Definition prefix_matches (re text : list Z) : Prop :=
  exists w rest, text = w ++ rest /\ lang (parse re).1 w /\ ((parse re).2 = true -> rest = []).

Lemma matchstar_spec here c text :
  matchstar here c text = true <->
  exists ts rest, text = ts ++ rest /\ Forall (fun t => char_ok c t = true) ts /\ here rest = true.
Proof.
  induction text as [|t text IH]; cbn.
  - destruct (here []) eqn:E.
    + split; [|done]. intros _. by exists [], [].
    + split; [done|]. intros (ts & rest & H & _ & Hr). symmetry in H. apply app_eq_nil in H as [-> ->]. congruence.
  - destruct (here (t :: text)) eqn:E; [split; [|done]; intros _; by exists [], (t :: text)|].
    assert (Hct : (t =? c) || (c =? DOT) = char_ok c t).
    { unfold char_ok. rewrite orb_comm. by rewrite (Z.eqb_sym t). }
    rewrite Hct. destruct (char_ok c t) eqn:Ec.
    + rewrite IH. split.
      * intros (ts & rest & -> & HF & Hr). exists (t :: ts), rest. split_and!; [done|by constructor|done].
      * intros ([|t' ts] & rest & H & HF & Hr); cbn in H; [by subst; congruence|]. injection H as <- ->.
        apply Forall_cons in HF as [_ HF]. by exists ts, rest.
    + split; [done|]. intros ([|t' ts] & rest & H & HF & Hr); cbn in H; [by subst; congruence|]. injection H as <- ->.
      apply Forall_cons in HF as [HF _]. congruence.
Qed.

(** The cases of [prefix_matches] by the head of the pattern. *)
Lemma prefix_many c re text :
  prefix_matches (c :: STAR :: re) text <->
  exists ts rest, text = ts ++ rest /\ Forall (fun t => char_ok c t = true) ts /\ prefix_matches re rest.
Proof.
  unfold prefix_matches. cbn [parse]. rewrite Z.eqb_refl. destruct (parse re) as [l e]. cbn. split.
  - intros (w & rest & -> & HL & He). inversion HL as [| |c' ts l' w' HF HL']; subst.
    exists ts, (w' ++ rest). rewrite app_assoc. split_and!; [done|done|]. by exists w', rest.
  - intros (ts & rest & -> & HF & w & r2 & -> & HL & He). exists (ts ++ w), r2. rewrite app_assoc. split_and!; auto.
Qed.

Lemma prefix_one l e c re text : parse (c :: re) = (One c :: l, e) -> parse re = (l, e) ->
  prefix_matches (c :: re) text <->
  exists t text', text = t :: text' /\ char_ok c t = true /\ prefix_matches re text'.
Proof.
  intros E1 E2. unfold prefix_matches. rewrite E1, E2. cbn. split.
  - intros (w & rest & -> & HL & He). inversion HL as [|c' t l' w' Hc HL'|]; subst.
    exists t, (w' ++ rest). split_and!; [done|done|]. by exists w', rest.
  - intros (t & text' & -> & Hc & w & rest & -> & HL & He). exists (t :: w), rest. split_and!; auto.
Qed.

Lemma matchhere_spec re : forall text, matchhere re text = true <-> prefix_matches re text.
Proof.
  remember (length re) as n eqn:En. assert (Hn : (length re <= n)%nat) by lia. clear En. revert re Hn.
  assert (Hone : forall c re l e (IH : forall text, matchhere re text = true <-> prefix_matches re text) text,
    parse (c :: re) = (One c :: l, e) -> parse re = (l, e) ->
    match text with [] => false | t :: text' => if (c =? DOT) || (c =? t) then matchhere re text' else false end = true
    <-> prefix_matches (c :: re) text).
  { intros c re l e IH text E1 E2. rewrite (prefix_one l e c re text E1 E2). destruct text as [|t text].
    - split; [done|]. intros (? & ? & ? & _). done.
    - fold (char_ok c t). destruct (char_ok c t) eqn:Ec.
      + rewrite IH. split; [intros H; by exists t, text|]. by intros (? & ? & [= <- <-] & _ & ?).
      + split; [done|]. intros (? & ? & [= <- <-] & ? & _). congruence. }
  induction n as [|n IH]; intros [|c re] Hn text; cbn in Hn; try lia;
    try (split; [intros _; exists [], text; by split_and!|done]).
  cbn [matchhere]. destruct re as [|s re].
  - destruct (Z.eqb_spec c DOLLAR) as [->|Hc].
    + destruct text as [|t text]; split; try done.
      * intros _. by exists [], [].
      * intros (w & rest & E & HL & He). specialize (He eq_refl). inversion HL; subst. done.
    + apply (Hone c [] [] false); [by apply IH; cbn; lia| |done]. cbn. by destruct (Z.eqb_spec c DOLLAR).
  - destruct (Z.eqb_spec s STAR) as [->|Hs].
    + rewrite matchstar_spec, prefix_many. cbn in Hn. setoid_rewrite (IH re ltac:(lia)). done.
    + destruct (parse (s :: re)) as [l e] eqn:E2. apply (Hone c (s :: re) l e); [by apply IH; cbn in *; lia| |done].
      change (parse (c :: s :: re)) with (if s =? STAR then let '(l, e) := parse re in (Many c :: l, e) else let '(l, e) := parse (s :: re) in (One c :: l, e)).
      destruct (Z.eqb_spec s STAR); [done|]. by rewrite E2.
Qed.

Lemma match_from_spec re text :
  match_from re text = true <-> exists pre rest, text = pre ++ rest /\ prefix_matches re rest.
Proof.
  induction text as [|t text IH]; cbn.
  - destruct (matchhere re []) eqn:E.
    + apply matchhere_spec in E. split; [|done]. intros _. by exists [], [].
    + split; [done|]. intros (pre & rest & H & Hp). symmetry in H. apply app_eq_nil in H as [-> ->].
      apply matchhere_spec in Hp. congruence.
  - destruct (matchhere re (t :: text)) eqn:E.
    + apply matchhere_spec in E. split; [|done]. intros _. by exists [], (t :: text).
    + rewrite IH. split.
      * intros (pre & rest & -> & Hp). by exists (t :: pre), rest.
      * intros ([|t' pre] & rest & H & Hp); cbn in H; [subst; apply matchhere_spec in Hp; congruence|].
        injection H as <- ->. by exists pre, rest.
Qed.

(** Is the pattern anchored to the beginning; the pattern without the caret. *)
Definition anchor (re : list Z) : bool * list Z :=
  match re with c :: re1 => if c =? CARET then (true, re1) else (false, re) | [] => (false, []) end.

(** C39: The matcher of grep decides the language of the pattern: [match] succeeds
    exactly when the text is [pre ++ w ++ post] with [w] in the language, [pre]
    empty if the pattern starts with a caret and [post] empty if it ends with
    a dollar sign. *)
Theorem match_decides_language re text :
  match_ re text = true <->
  exists pre w post, text = pre ++ w ++ post /\ lang (parse (anchor re).2).1 w /\
    ((anchor re).1 = true -> pre = []) /\ ((parse (anchor re).2).2 = true -> post = []).
Proof.
  unfold match_. assert (Hf : forall re, match_from re text = true <->
    exists pre w post, text = pre ++ w ++ post /\ lang (parse re).1 w /\ (false = true -> pre = []) /\ ((parse re).2 = true -> post = [])).
  { intros re'. rewrite match_from_spec. unfold prefix_matches. split.
    - intros (pre & rest & -> & w & post & -> & HL & He). by exists pre, w, post.
    - intros (pre & w & post & -> & HL & _ & He). exists pre, (w ++ post). split; [done|]. by exists w, post. }
  destruct re as [|c re]; [apply Hf|]. cbn [anchor]. destruct (c =? CARET); [|apply Hf]. cbn [fst snd].
  rewrite matchhere_spec. split.
  - intros (w & post & -> & HL & He). by exists [], w, post.
  - intros (pre & w & post & -> & HL & Hp & He). rewrite Hp by done. by exists w, post.
Qed.

(** ** The loop prints the matching lines *)

(** The finished lines of a text, and what follows the last of them. *)
Fixpoint split_lines (s : list Z) : list (list Z) * list Z :=
  match s with
  | [] => ([], [])
  | c :: s' =>
      let '(ls, r) := split_lines s' in
      if c =? NEWLINE then ([] :: ls, r)
      else match ls with [] => ([], c :: r) | l :: ls' => ((c :: l) :: ls', r) end
  end.

Fixpoint unlines (ls : list (list Z)) : list Z :=
  match ls with [] => [] | l :: ls' => l ++ NEWLINE :: unlines ls' end.

Definition matching (pattern : list Z) (ls : list (list Z)) : list Z :=
  unlines (filter (fun l => match_ pattern l = true) ls).

Definition no_nl (l : list Z) : Prop := Forall (fun c => c <> NEWLINE) l.

Lemma split_no_nl l : no_nl l -> split_lines l = ([], l).
Proof.
  induction 1 as [|c l Hc _ IH]; [done|]. cbn. rewrite IH. by destruct (Z.eqb_spec c NEWLINE).
Qed.

Lemma split_line l s : no_nl l -> split_lines (l ++ NEWLINE :: s) = (l :: (split_lines s).1, (split_lines s).2).
Proof.
  induction 1 as [|c l Hc _ IH]; cbn; [by destruct (split_lines s)|]. rewrite IH. by destruct (Z.eqb_spec c NEWLINE).
Qed.

Lemma split_spec s : s = unlines (split_lines s).1 ++ (split_lines s).2 /\
  Forall no_nl (split_lines s).1 /\ no_nl (split_lines s).2.
Proof.
  induction s as [|c s (E & H1 & H2)]; [split_and!; [done|constructor|constructor]|]. cbn [split_lines]. destruct (split_lines s) as [ls r]. cbn in E, H1, H2.
  destruct (Z.eqb_spec c NEWLINE) as [->|Hc]; cbn.
  - split_and!; [by rewrite E at 1|constructor; [constructor|done]|done].
  - destruct ls as [|l ls]; cbn in *.
    + split_and!; [by rewrite E at 1|done|by constructor].
    + apply Forall_cons in H1 as [Hl H1]. split_and!; [by rewrite E at 1|constructor; [by constructor|done]|done].
Qed.

(** Reading on: the unfinished line is completed by what follows. *)
Lemma split_app s1 s2 : split_lines (s1 ++ s2) =
  ((split_lines s1).1 ++ (split_lines ((split_lines s1).2 ++ s2)).1, (split_lines ((split_lines s1).2 ++ s2)).2).
Proof.
  destruct (split_spec s1) as (E & H1 & H2). rewrite E at 1. revert H1 H2. generalize (split_lines s1).1 (split_lines s1).2.
  intros ls r H1 Hr. clear E s1. induction H1 as [|l ls Hl _ IH]; [cbn; by destruct (split_lines _)|].
  cbn [unlines]. rewrite <- !app_assoc in *. cbn [app] in *. rewrite split_line by done. by rewrite IH.
Qed.

Lemma strchr_nl_None s : Forall (fun c => c <> 0) s -> strchr_nl s = None -> no_nl s.
Proof.
  induction 1 as [|c s Hc _ IH]; cbn; [by constructor|]. destruct (Z.eqb_spec c 0); [done|].
  destruct (Z.eqb_spec c NEWLINE); [done|]. destruct (strchr_nl s) as [[l r]|]; [done|]. intros _. constructor; [done|by apply IH].
Qed.

Lemma strchr_nl_Some s : forall l r, strchr_nl s = Some (l, r) -> s = l ++ NEWLINE :: r /\ no_nl l.
Proof.
  induction s as [|c s IH]; cbn; [done|]. intros l r. destruct (Z.eqb_spec c 0); [done|].
  destruct (Z.eqb_spec c NEWLINE) as [->|Hc]; [intros [= <- <-]; split; [done|constructor]|].
  destruct (strchr_nl s) as [[l' r']|]; [|done]. intros [= <- <-]. destruct (IH _ _ eq_refl) as [-> Hl]. split; [done|by constructor].
Qed.

Lemma matching_cons pattern l ls :
  matching pattern (l :: ls) = (if match_ pattern l then l ++ [NEWLINE] else []) ++ matching pattern ls.
Proof.
  unfold matching. rewrite filter_cons. case_decide as H.
  - rewrite H. cbn. by rewrite <- app_assoc.
  - by destruct (match_ pattern l).
Qed.

Lemma matching_app pattern l1 l2 : matching pattern (l1 ++ l2) = matching pattern l1 ++ matching pattern l2.
Proof.
  unfold matching. rewrite filter_app. induction (filter _ l1) as [|l ls IH]; cbn; [done|]. by rewrite IH, <- app_assoc.
Qed.

Lemma grep_lines_spec pattern fuel : forall p, Forall (fun c => c <> 0) p -> (length p < fuel)%nat ->
  grep_lines fuel pattern p = Ok (matching pattern (split_lines p).1, (split_lines p).2).
Proof.
  induction fuel as [|f IH]; intros p Hz Hf; [lia|]. cbn [grep_lines]. destruct (strchr_nl p) as [[l r]|] eqn:E.
  - apply strchr_nl_Some in E as [-> Hl]. rewrite split_line by done. apply Forall_app in Hz as [_ Hz].
    apply Forall_cons in Hz as [_ Hz]. rewrite length_app in Hf. cbn in Hf. rewrite IH, bind_ok by (done || lia). cbn [fst snd].
    by rewrite matching_cons.
  - apply strchr_nl_None in E; [|done]. by rewrite split_no_nl.
Qed.

(** Lines that fit the buffer with the byte that is still to be read. *)
Definition short (s : list Z) : Prop :=
  Forall (fun l => Z.of_nat (length l) < bufsize - 1) (split_lines s).1 /\
  Z.of_nat (length (split_lines s).2) < bufsize - 1.

Lemma short_pending buf s : no_nl buf -> short (buf ++ s) -> Z.of_nat (length buf) < bufsize - 1.
Proof.
  intros Hb [H1 H2]. destruct (split_spec s) as (E & Hl & Hr). rewrite E in H1, H2.
  destruct (split_lines s).1 as [|l ls]; cbn [unlines] in *.
  - rewrite split_no_nl in H2 by (apply Forall_app; by split). cbn [snd app] in H2. rewrite length_app in H2. lia.
  - apply Forall_cons in Hl as [Hl _]. rewrite <- app_assoc, app_assoc in H1. cbn [app] in H1.
    rewrite split_line in H1 by (apply Forall_app; by split). apply Forall_cons in H1 as [H1 _]. rewrite length_app in H1. lia.
Qed.

Lemma short_rest s1 s2 : short (s1 ++ s2) -> short ((split_lines s1).2 ++ s2).
Proof. unfold short. rewrite split_app. cbn [fst snd]. rewrite Forall_app. tauto. Qed.

Lemma grep_loop_spec pattern file chunk fuel : Forall (fun c => c <> 0) file -> forall k off buf,
  0 <= off -> (length (drop (Z.to_nat off) file) < fuel)%nat -> no_nl buf -> Forall (fun c => c <> 0) buf ->
  short (buf ++ drop (Z.to_nat off) file) ->
  grep_loop pattern file chunk fuel k off buf = Ok (matching pattern (split_lines (buf ++ drop (Z.to_nat off) file)).1).
Proof.
  intros Hz. induction fuel as [|f IH]; intros k off buf Ho Hf Hb Hbz Hs; [lia|]. cbn [grep_loop]. unfold read_ at 1.
  pose proof (short_pending _ _ Hb Hs) as Hp. set (n := Z.to_nat (Z.min _ _)). assert (Hn : (0 < n)%nat) by lia.
  set (x := drop (Z.to_nat off) file) in *. assert (Hx : Forall (fun c => c <> 0) x) by (by apply Forall_drop).
  destruct (take n x) as [|b bs] eqn:E.
  - assert (x = []) as -> by (destruct x; [done|]; destruct n; [lia|done]). by rewrite app_nil_r, split_no_nl.
  - fold n. unfold read_. fold x n. rewrite E. 
    assert (Ex : x = (b :: bs) ++ drop n x) by (by rewrite <- E, take_drop).
    assert (Hz2 : Forall (fun c => c <> 0) (buf ++ b :: bs)).
    { apply Forall_app. split; [done|]. rewrite <- E. by apply Forall_take. }
    rewrite grep_lines_spec, bind_ok by (done || lia). set (off' := off + _).
    assert (Hd : drop (Z.to_nat off') file = drop n x).
    { unfold x. rewrite drop_drop. unfold off'. 
      destruct (Nat.le_gt_cases n (length x)) as [Hle|Hgt].
      - f_equal. rewrite <- E, length_take. lia.
      - rewrite !drop_ge; [done| |]; unfold x in *; rewrite length_drop in *; rewrite <- ?E, ?length_take, ?length_drop; lia. }
    assert (Hsp : (b :: bs) ++ drop n x = x) by done.
    rewrite Ex, app_assoc in Hs. pose proof (short_rest _ _ Hs) as Hs'.
    assert (Hr : Forall (fun c => c <> 0) (split_lines (buf ++ b :: bs)).2).
    { destruct (split_spec (buf ++ b :: bs)) as (E' & _). rewrite E' in Hz2. by apply Forall_app in Hz2 as [_ ?]. }
    assert (Hl : (length (drop n x) < f)%nat) by (apply (f_equal length) in Ex; rewrite length_app in Ex; cbn in Ex; lia).
    rewrite IH; rewrite ?Hd; [|lia|done|apply split_spec|done|done].
    rewrite bind_ok. replace (buf ++ x) with ((buf ++ b :: bs) ++ drop n x) by (by rewrite Ex at 2; rewrite <- app_assoc). rewrite (split_app (buf ++ b :: bs)). cbn [fst]. by rewrite matching_app.
Qed.

(** C40: [grep] prints exactly the finished lines of the file that match, in order
    and each once, however [read] cuts the file into pieces, as long as no
    line is too long for the buffer and the file has no null bytes; and it
    ends. *)
Theorem grep_prints_matching_lines pattern file chunk
  (Hz : Forall (fun c => c <> 0) file) (Hs : short file) :
  grep pattern file chunk = Ok (matching pattern (split_lines file).1).
Proof.
  unfold grep. rewrite grep_loop_spec; [done|done|lia|rewrite drop_0; lia|constructor|constructor|done].
Qed.

(** Pattern [^a*b$] on the lines [aab], [ab ] and [b], read five bytes at a time. *)
Lemma grep_prints_matching_lines_witness :
  grep [94; 97; 42; 98; 36] [97; 97; 98; 10; 97; 98; 32; 10; 98; 10] (fun _ => 5) = Ok [97; 97; 98; 10; 98; 10].
Proof.
  etrans; [apply grep_prints_matching_lines|reflexivity].
  - apply (bool_decide_unpack _). vm_compute. exact I.
  - split; [apply (bool_decide_unpack _); vm_compute; exact I|reflexivity].
Defined.
