(* ===== verification/Sh.v ===== *)
(** * The command parser of the shell (user/sh.c)

    [gettoken], [peek], the recursive descent parser and [nulterminate].  A
    pointer into the command line is the rest of the line from there to its
    end [es], so [*ps] is the state of the parser and [*s] at [es] is the 0
    that ends the line.  The nodes of the tree are built as the code builds
    them: the node of a simple command has two arrays of [MAXARGS] pointers,
    which [parseexec] fills after redirections have been put around it.
    [malloc] is taken to succeed, as the code takes it. *)

From S2P Require Import Prelude.

Notation str := (list Z).

Definition MAXARGS : Z := 10.
Definition O_RDONLY : Z := 0x000.
Definition O_WRONLY : Z := 0x001.
Definition O_CREATE : Z := 0x200.
Definition O_TRUNC : Z := 0x400.

(** " \t\r\n\v" and "<|>&;()" *)
Definition whitespace : str := [32; 9; 13; 10; 11].
Definition symbols : str := [60; 124; 62; 38; 59; 40; 41].

Notation LT := 60. Notation BAR := 124. Notation GT := 62. Notation AMP := 38.
Notation SEMI := 59. Notation LPAR := 40. Notation RPAR := 41. Notation PLUS := 43. Notation CH_a := 97.

(** user/ulib.c; the characters looked for are not 0. *)
Definition strchr (s : str) (c : Z) : bool := existsb (Z.eqb c) s.

Inductive cmd : Type :=
| EXEC (argv eargv : list (option str))
| REDIR (c : cmd) (file efile : str) (mode fd : Z)
| PIPE (left right : cmd)
| LIST (left right : cmd)
| BACK (c : cmd).

Definition execcmd : cmd := EXEC (replicate 10 None) (replicate 10 None).

(** Assignments to the node of the simple command that [parseexec] has built,
    inside the redirections around it. *)
Fixpoint set_arg (argc : Z) (q eq : option str) (c : cmd) : res cmd :=
  match c with
  | EXEC argv eargv =>
      a ← wr argv argc q;
      e ← wr eargv argc eq;
      Ok (EXEC a e)
  | REDIR c f ef m d => c ← set_arg argc q eq c; Ok (REDIR c f ef m d)
  | _ => Fault "not an execcmd"
  end.

(** ** Tokens *)

Fixpoint skip_white (s : str) : str :=
  match s with
  | c :: s' => if strchr whitespace c then skip_white s' else s
  | [] => []
  end.

Definition wordchar (c : Z) : bool := negb (strchr whitespace c) && negb (strchr symbols c).

Fixpoint skip_word (s : str) : str :=
  match s with
  | c :: s' => if wordchar c then skip_word s' else s
  | [] => []
  end.

Notation P := (M str).

(** The token, and where it begins and ends. *)
Definition gettoken : P (Z * (str * str)) := fun s =>
  let q := skip_white s in
  let '(ret, s) :=
    match q with
    | [] => (0, [])
    | c :: s =>
        if c =? 0 then (0, q)
        else if strchr [BAR; LPAR; RPAR; SEMI; AMP; LT] c then (c, s)
        else if c =? GT then
          match s with
          | c' :: s' => if c' =? GT then (PLUS, s') else (GT, s)
          | [] => (GT, s)
          end
        else (CH_a, skip_word q)
    end in
  Ok ((ret, (q, s)), skip_white s).

Definition peek (toks : str) : P bool := fun s =>
  let s := skip_white s in
  Ok (match s with c :: _ => negb (c =? 0) && strchr toks c | [] => false end, s).

(** ** The parser *)

Definition add_redir (tok : Z) (q eq : str) (c : cmd) : cmd :=
  if tok =? LT then REDIR c q eq O_RDONLY 0
  else if tok =? GT then REDIR c q eq (Z.lor (Z.lor O_WRONLY O_CREATE) O_TRUNC) 1
  else if tok =? PLUS then REDIR c q eq (Z.lor O_WRONLY O_CREATE) 1
  else c.

Fixpoint redirs_loop (n : nat) (c : cmd) : P cmd :=
  match n with
  | O => hang
  | S n =>
      b ← peek [LT; GT];
      if negb b then mret c else
      '(tok, _) ← gettoken;
      '(t, (q, eq)) ← gettoken;
      if negb (t =? CH_a) then panic "missing file for redirection" else
      redirs_loop n (add_redir tok q eq c)
  end.

Definition parseredirs (c : cmd) : P cmd := fun s => redirs_loop (S (length s)) c s.

Fixpoint args_loop (n : nat) (argc : Z) (ret : cmd) : P (Z * cmd) :=
  match n with
  | O => hang
  | S n =>
      b ← peek [BAR; RPAR; AMP; SEMI];
      if b : bool then mret (argc, ret) else
      '(tok, (q, eq)) ← gettoken;
      if tok =? 0 then mret (argc, ret) else
      if negb (tok =? CH_a) then panic "syntax" else
      ret ← lift (set_arg argc (Some q) (Some eq) ret);
      let argc := argc + 1 in
      if MAXARGS <=? argc then panic "too many args" else
      ret ← parseredirs ret;
      args_loop n argc ret
  end.

Fixpoint back_loop (n : nat) (c : cmd) : P cmd :=
  match n with
  | O => hang
  | S n =>
      b ← peek [AMP];
      if b : bool then gettoken;; back_loop n (BACK c) else mret c
  end.

Fixpoint parseline (n : nat) : P cmd :=
  match n with
  | O => hang
  | S n =>
      c ← parsepipe n;
      c ← (fun s => back_loop (S (length s)) c s);
      b ← peek [SEMI];
      if b : bool then gettoken;; r ← parseline n; mret (LIST c r) else mret c
  end
with parsepipe (n : nat) : P cmd :=
  match n with
  | O => hang
  | S n =>
      c ← parseexec n;
      b ← peek [BAR];
      if b : bool then gettoken;; r ← parsepipe n; mret (PIPE c r) else mret c
  end
with parseexec (n : nat) : P cmd :=
  match n with
  | O => hang
  | S n =>
      b ← peek [LPAR];
      if b : bool then parseblock n else
      ret ← parseredirs execcmd;
      '(argc, ret) ← (fun s => args_loop (S (length s)) 0 ret s);
      lift (set_arg argc None None ret)
  end
with parseblock (n : nat) : P cmd :=
  match n with
  | O => hang
  | S n =>
      b ← peek [LPAR];
      if negb b then panic "parseblock" else
      gettoken;;
      c ← parseline n;
      b ← peek [RPAR];
      if negb b then panic "syntax - missing )" else
      gettoken;;
      parseredirs c
  end.

(** ** Termination of the words *)

(** The buffer of the line ends with its 0: the index of a pointer into it. *)
Definition line_index (buf p : str) : Z := Z.of_nat (length buf) - 1 - Z.of_nat (length p).

Definition poke (p : str) (buf : str) : res str := wr buf (line_index buf p) 0.

Fixpoint term_args (n : nat) (argv eargv : list (option str)) (i : Z) (buf : str) : res str :=
  match n with
  | O => Hang
  | S n =>
      a ← rd argv i;
      match a with
      | None => Ok buf
      | Some _ =>
          e ← rd eargv i;
          match e with
          | None => Fault "null pointer"
          | Some e => buf ← poke e buf; term_args n argv eargv (i + 1) buf
          end
      end
  end.

Fixpoint nulterminate (c : cmd) (buf : str) : res str :=
  match c with
  | EXEC argv eargv => term_args (S (length argv)) argv eargv 0 buf
  | REDIR c _ efile _ _ => buf ← nulterminate c buf; poke efile buf
  | PIPE l r | LIST l r => buf ← nulterminate l buf; nulterminate r buf
  | BACK c => nulterminate c buf
  end.

(** The parsed command and the line it points into. *)
Definition parsecmd (line : str) : res (cmd * str) :=
  '(c, s) ← parseline (4 * length line + 4) line;
  '(_, s) ← peek [] s;
  if negb (length s =? 0)%nat then Panic "syntax" else
  buf ← nulterminate c (line ++ [0]);
  Ok (c, buf).
