(* ===== verification/ShSpec.v ===== *)
(** * The shell's parser is total and inverts printing

    Abstract commands, how they are written, and the theorems: on every line
    the parser ends, in a command or in one of its error messages, without
    running over an array; the words that [exec] and [open] get are the words
    of the line; and the parser reads back every command that is printed. *)

From S2P Require Import Prelude Sh.

#[local] Arguments strchr : simpl never.
#[local] Arguments wordchar : simpl never.

(** ** Abstract commands *)

Inductive rkind : Type := RIn | ROut | RAppend.

Inductive acmd : Type :=
| AExec (args : list str)
| ARedir (c : acmd) (file : str) (k : rkind)
| APipe (l r : acmd)
| AList (l r : acmd)
| ABack (c : acmd).

Definition kind_of (mode : Z) : rkind :=
  if mode =? O_RDONLY then RIn else if Z.testbit mode 10 then ROut else RAppend.

Fixpoint args_of (f : str -> str -> str) (argv eargv : list (option str)) : list str :=
  match argv, eargv with
  | Some q :: a, Some e :: b => f q e :: args_of f a b
  | _, _ => []
  end.

(** A command, its words read by [f]. *)
Fixpoint abs (f : str -> str -> str) (c : cmd) : acmd :=
  match c with
  | EXEC a e => AExec (args_of f a e)
  | REDIR c q e m _ => ARedir (abs f c) (f q e) (kind_of m)
  | PIPE l r => APipe (abs f l) (abs f r)
  | LIST l r => AList (abs f l) (abs f r)
  | BACK c => ABack (abs f c)
  end.

(** The text between two pointers, and the C string at a pointer. *)
Definition text (q e : str) : str := take (length q - length e) q.
Fixpoint upto0 (s : str) : str := match s with c :: s' => if c =? 0 then [] else c :: upto0 s' | [] => [] end.
Definition cstr (buf q _e : str) : str := upto0 (drop (Z.to_nat (line_index buf q)) buf).

Definition word (w : str) : Prop := w <> [] /\ Forall (fun c => wordchar c = true /\ c <> 0) w.

Fixpoint wf (c : acmd) : Prop :=
  match c with
  | AExec args => Forall word args /\ Z.of_nat (length args) < MAXARGS
  | ARedir c f _ => wf c /\ word f
  | APipe l r | AList l r => wf l /\ wf r
  | ABack c => wf c
  end.

(** ** Trees of the parser *)

Definition arr {A} (l : list A) : list (option A) := (Some <$> l) ++ replicate (10 - length l) None.

(** A simple command with the words [l], and redirections around a command. *)
Definition simple (l : list (str * str)) : cmd := EXEC (arr l.*1) (arr l.*2).
Definition redir : Type := Z * (str * str).
Definition wraps (c : cmd) (rs : list redir) : cmd := foldl (fun c r => add_redir r.1 r.2.1 r.2.2 c) c rs.

Definition rtok (t : Z) : Prop := t = LT \/ t = GT \/ t = PLUS.

Lemma add_redir_REDIR t q e : rtok t -> exists m d, forall c, add_redir t q e c = REDIR c q e m d.
Proof. intros [->|[->| ->]]; unfold add_redir; cbn; eauto. Qed.

Lemma wraps_app c rs rs' : wraps c (rs ++ rs') = wraps (wraps c rs) rs'.
Proof. apply foldl_app. Qed.

Lemma wraps_snoc c rs r : wraps c (rs ++ [r]) = add_redir r.1 r.2.1 r.2.2 (wraps c rs).
Proof. unfold wraps. by rewrite foldl_app. Qed.

Lemma length_arr {A} (l : list A) : (length l <= 10)%nat -> length (arr l) = 10%nat.
Proof. intros H. unfold arr. rewrite length_app, length_fmap, length_replicate. lia. Qed.

Lemma arr_set {A} (l : list A) x : (length l < 10)%nat -> wr (arr l) (Z.of_nat (length l)) (Some x) = Ok (arr (l ++ [x])).
Proof.
  intros H. rewrite wr_Ok by (rewrite length_arr; lia). f_equal. rewrite Nat2Z.id. unfold arr.
  rewrite insert_app_r_alt by (rewrite length_fmap; lia). rewrite length_fmap, Nat.sub_diag, fmap_app, length_app, <- app_assoc. f_equal.
  destruct (10 - length l)%nat as [|n] eqn:E; [lia|]. cbn. f_equal. f_equal. lia.
Qed.

Lemma arr_none {A} (l : list A) : (length l < 10)%nat -> wr (arr l) (Z.of_nat (length l)) None = Ok (arr l).
Proof.
  intros H. rewrite wr_Ok by (rewrite length_arr; lia). f_equal. rewrite Nat2Z.id. unfold arr.
  rewrite insert_app_r_alt by (rewrite length_fmap; lia). rewrite length_fmap, Nat.sub_diag. f_equal.
  destruct (10 - length l)%nat as [|n] eqn:E; [lia|]. done.
Qed.

Lemma set_arg_wraps i q e c rs c' :
  Forall (fun r : redir => rtok r.1) rs -> set_arg i q e c = Ok c' -> set_arg i q e (wraps c rs) = Ok (wraps c' rs).
Proof.
  intros H Hc. induction rs as [|r rs IH] using rev_ind; [done|]. apply Forall_app in H as [H [Hr _]%Forall_cons].
  rewrite !wraps_snoc. destruct (add_redir_REDIR r.1 r.2.1 r.2.2 Hr) as (m & d & E).
  rewrite !E. cbn [set_arg]. rewrite (IH H). done.
Qed.

Lemma set_arg_simple l rs q e :
  Forall (fun r : redir => rtok r.1) rs -> (length l < 10)%nat ->
  set_arg (Z.of_nat (length l)) (Some q) (Some e) (wraps (simple l) rs) = Ok (wraps (simple (l ++ [(q, e)])) rs) /\
  set_arg (Z.of_nat (length l)) None None (wraps (simple l) rs) = Ok (wraps (simple l) rs).
Proof.
  intros H Hl. assert (L1 : length l = length l.*1) by (by rewrite length_fmap). assert (L2 : length l = length l.*2) by (by rewrite length_fmap).
  split; (apply set_arg_wraps; [done|]); cbn [set_arg simple].
  - rewrite L1 at 1. rewrite arr_set by lia. cbn. rewrite L2 at 1. rewrite arr_set by lia. cbn. unfold simple. by rewrite !fmap_app.
  - rewrite L1 at 1. rewrite arr_none by lia. cbn. rewrite L2 at 1. rewrite arr_none by lia. done.
Qed.

Lemma args_of_arr f l : args_of f (arr l.*1) (arr l.*2) = (fun p => f p.1 p.2) <$> l.
Proof.
  unfold arr. rewrite !length_fmap. generalize (10 - length l)%nat. intros n.
  induction l as [|[q e] l IH]; cbn; [by destruct n|]. by rewrite IH.
Qed.

(** ** Tokens *)

Lemma skip_white_suffix s : exists w, s = w ++ skip_white s.
Proof.
  induction s as [|c s [w IH]]; cbn; [by exists []|]. case_match; [|by exists []]. exists (c :: w). cbn. by rewrite <- IH.
Qed.

Lemma skip_white_length s : (length (skip_white s) <= length s)%nat.
Proof. destruct (skip_white_suffix s) as [w E]. rewrite E at 2. rewrite length_app. lia. Qed.

Lemma skip_white_head s c s' : skip_white s = c :: s' -> strchr whitespace c = false.
Proof. induction s as [|d s IH]; cbn; [done|]. case_match eqn:E; [done|]. by intros [= <- _]. Qed.

Lemma skip_white_idem s : skip_white (skip_white s) = skip_white s.
Proof.
  destruct (skip_white s) as [|c s'] eqn:E; [done|]. apply skip_white_head in E. cbn. by rewrite E.
Qed.

Lemma skip_word_split s : exists w, s = w ++ skip_word s /\ Forall (fun c => wordchar c = true) w.
Proof.
  induction s as [|c s (w & IH & Hw)]; cbn; [by exists []|]. case_match eqn:E; [|by exists []].
  exists (c :: w). cbn. rewrite <- IH. split; [done|by constructor].
Qed.

Lemma skip_word_head s c s' : skip_word s = c :: s' -> wordchar c = false.
Proof. induction s as [|d s IH]; cbn; [done|]. case_match eqn:E; [done|]. by intros [= <- _]. Qed.

(** The pointers [q] and [e] delimit a word of [line]. *)
Definition delimits (line : str) (q e : str) : Prop :=
  exists pre w, line = pre ++ q /\ q = w ++ e /\ word w /\ forall c e', e = c :: e' -> wordchar c = false.

Definition suf (line s : str) : Prop := exists pre, line = pre ++ s.

Lemma suf_trans a b c : suf a b -> suf b c -> suf a c.
Proof. intros [p ->] [q ->]. exists (p ++ q). by rewrite app_assoc. Qed.

Lemma suf_skip s : suf s (skip_white s).
Proof. apply skip_white_suffix. Qed.

Lemma suf_cons c s : suf (c :: s) s.
Proof. by exists [c]. Qed.

Lemma suf_length a b : suf a b -> (length b <= length a)%nat.
Proof. intros [p ->]. rewrite length_app. lia. Qed.

(** What [gettoken] does on a line without 0. *)
Lemma gettoken_spec line s :
  suf line s -> Forall (fun c => c <> 0) line ->
  exists t q e s', gettoken s = Ok ((t, (q, e)), s') /\ suf line s' /\ (length s' <= length s)%nat /\
    (t = 0 -> skip_white s = []) /\ (t <> 0 -> (length s' < length s)%nat) /\ (t = CH_a -> delimits line q e).
Proof.
  intros Hs Hl. unfold gettoken. pose proof (suf_skip s) as Hk. pose proof (skip_white_length s) as Hlen.
  assert (Hfin : forall t q e, suf (skip_white s) e -> (t = 0 -> skip_white s = []) ->
    (t <> 0 -> (length e < length (skip_white s))%nat) -> (t = CH_a -> delimits line q e) ->
    exists t0 q0 e0 s', Ok ((t, (q, e)), skip_white e) = Ok ((t0, (q0, e0)), s') /\ suf line s' /\ (length s' <= length s)%nat /\
      (t0 = 0 -> skip_white s = []) /\ (t0 <> 0 -> (length s' < length s)%nat) /\ (t0 = CH_a -> delimits line q0 e0)).
  { intros t q e He H0 H1 Ha. exists t, q, e, (skip_white e). pose proof (skip_white_length e). pose proof (suf_length _ _ He).
    split_and!; [done| |lia|done|intros Ht; specialize (H1 Ht); lia|done].
    eapply suf_trans; [exact Hs|]. eapply suf_trans; [exact Hk|]. eapply suf_trans; [exact He|]. apply suf_skip. }
  revert Hk Hlen Hfin. destruct (skip_white s) as [|c s1] eqn:E; intros Hk Hlen Hfin.
  { apply (Hfin 0 [] []); [by exists []|done|done|done]. }
  assert (Hc : c <> 0).
  { destruct Hs as [p1 ->]. destruct Hk as [p2 ->]. rewrite !Forall_app, Forall_cons in Hl. tauto. }
  destruct (Z.eqb_spec c 0); [done|].
  destruct (strchr [BAR; LPAR; RPAR; SEMI; AMP; LT] c) eqn:E1.
  { apply (Hfin c (c :: s1) s1); [apply suf_cons|done|cbn; lia|]. intros ->. done. }
  destruct (Z.eqb_spec c GT) as [->|Hgt].
  { destruct s1 as [|c' s2]; [by apply (Hfin GT [GT] []); [apply suf_cons|done|cbn; lia|]|].
    destruct (c' =? GT).
    - apply (Hfin PLUS (GT :: c' :: s2) s2); [by exists [GT; c']|done|cbn; lia|done].
    - apply (Hfin GT (GT :: c' :: s2) (c' :: s2)); [by exists [GT]|done|cbn; lia|done]. }
  destruct (skip_word_split (c :: s1)) as (w & Ew & Hw).
  assert (Hwc : wordchar c = true).
  { unfold wordchar. rewrite (skip_white_head _ _ _ E). unfold strchr in *. cbn in E1 |- *. repeat apply orb_false_iff in E1 as [? E1].
    cbn. repeat (match goal with H : (c =? ?x) = false |- _ => rewrite H; clear H end). by destruct (Z.eqb_spec c GT). }
  assert (Hne : w <> []). { intros ->. cbn in Ew. rewrite Hwc in Ew. destruct (skip_word_split s1) as (v & Ev & _).
    apply (f_equal length) in Ew, Ev. rewrite length_app in Ev. cbn in Ew. lia. }
  apply (Hfin CH_a (c :: s1) (skip_word (c :: s1))); [by exists w|done| |].
  - intros _. rewrite Ew at 2. rewrite length_app. destruct w; [done|]. cbn. lia.
  - intros _. destruct (suf_trans _ _ _ Hs Hk) as [pre Hpre]. exists pre, w. split_and!; [done|done| |by apply skip_word_head].
    split; [done|]. rewrite Hpre, Ew, !Forall_app in Hl. destruct Hl as (_ & Hl & _).
    rewrite Forall_forall in *. intros x Hx. split; [by apply Hw|by apply Hl].
Qed.

Lemma peek_spec line ts s :
  suf line s -> exists b, peek ts s = Ok (b, skip_white s) /\ suf line (skip_white s) /\ (length (skip_white s) <= length s)%nat /\
    (b = true -> exists c r, skip_white s = c :: r /\ c <> 0 /\ strchr ts c = true).
Proof.
  intros Hs. eexists. split; [done|]. split_and!; [by eapply suf_trans, suf_skip|apply skip_white_length|].
  destruct (skip_white s) as [|c r]; [done|]. intros [H1 H2]%andb_true_iff. exists c, r. split_and!; [done| |done].
  by destruct (Z.eqb_spec c 0).
Qed.

(** After [peek] has found a token, [gettoken] takes it. *)
Lemma gettoken_peeked line s c r :
  suf line s -> Forall (fun c => c <> 0) line -> skip_white s = c :: r ->
  exists t q e s', gettoken (c :: r) = Ok ((t, (q, e)), s') /\ suf line s' /\ (length s' < length s)%nat /\
    (strchr [LT; GT] c = true -> rtok t).
Proof.
  intros Hs Hl E. pose proof (skip_white_length s) as Hlen. rewrite E in Hlen.
  assert (Hs' : suf line (c :: r)) by (rewrite <- E; by eapply suf_trans, suf_skip).
  destruct (gettoken_spec line (c :: r) Hs' Hl) as (t & q & e & s' & Eg & H1 & H2 & H3 & H4 & _).
  pose proof (skip_white_idem s) as Hi. rewrite E in Hi. rewrite Hi in H3.
  exists t, q, e, s'. split_and!; [done|done| |].
  - destruct (decide (t = 0)) as [Ht|Ht]; [by apply H3 in Ht|]. specialize (H4 Ht). lia.
  - unfold gettoken in Eg. rewrite Hi in Eg. unfold strchr. cbn. rewrite orb_false_r, orb_true_iff, !Z.eqb_eq. intros [->| ->].
    + cbn in Eg. injection Eg as <- _ _ _. by left.
    + cbn in Eg. destruct r as [|c' r']; [injection Eg as <- _ _ _; right; by left|].
      destruct (c' =? GT); injection Eg as <- _ _ _; right; [by right|by left].
Qed.

(** ** Every line is parsed or rejected *)

Section total.
Context (line : str) (Hline : Forall (fun c => c <> 0) line).

(** The outcome of a parser from [s]: an error, or a result and a rest of [line]. *)
Definition fine {A} (s : str) (Q : A -> Prop) (r : res (A * str)) : Prop :=
  match r with
  | Ok (a, s') => suf line s' /\ (length s' <= length s)%nat /\ Q a
  | Panic _ => True
  | Fault _ | Hang => False
  end.

Lemma fine_bind {A B} (m : M str A) (f : A -> M str B) s (Q : A -> Prop) (R : B -> Prop) :
  fine s Q (m s) -> (forall a s', suf line s' -> (length s' <= length s)%nat -> Q a -> fine s' R (f a s')) ->
  fine s R ((m ≫= f) s).
Proof.
  unfold fine, mbind, M_bind. destruct (m s) as [[a s1]| | |]; try done. intros (H1 & H2 & H3) H. specialize (H a s1 H1 H2 H3).
  destruct (f a s1) as [[b s2]| | |]; try done. destruct H as (H4 & H5 & H6). split_and!; [done|lia|done].
Qed.

Lemma fine_mono {A} s s' (Q R : A -> Prop) r :
  (length s' <= length s)%nat -> (forall a, Q a -> R a) -> fine s' Q r -> fine s R r.
Proof. intros Hl H. unfold fine. destruct r as [[a s1]| | |]; try done. intros (H1 & H2 & H3). split_and!; [done|lia|auto]. Qed.

Definition okr (r : redir) : Prop := rtok r.1 /\ delimits line r.2.1 r.2.2.
Definition okw (p : str * str) : Prop := delimits line p.1 p.2.

Lemma redirs_loop_fine n c s :
  (length s < n)%nat -> suf line s -> fine s (fun c' => exists rs, c' = wraps c rs /\ Forall okr rs) (redirs_loop n c s).
Proof.
  revert c s. induction n as [|n IH]; intros c s Hn Hs; [lia|]. cbn [redirs_loop].
  destruct (peek_spec line [LT; GT] s Hs) as (b & E & Hs1 & Hl1 & Hb). rewrite (M_bind_Ok _ _ _ _ _ E). destruct b; cbn [negb].
  2:{ split_and!; [done|done|]. by exists []. }
  destruct (Hb eq_refl) as (ch & r & Es & _ & Hch). rewrite Es in *.
  destruct (gettoken_peeked line s ch r Hs Hline Es) as (t & q & e & s2 & E2 & Hs2 & Hl2 & Hr).
  rewrite (M_bind_Ok _ _ _ _ _ E2). cbn [fst snd].
  destruct (gettoken_spec line s2 Hs2 Hline) as (t2 & q2 & e2 & s3 & E3 & Hs3 & Hl3 & _ & _ & Hw).
  rewrite (M_bind_Ok _ _ _ _ _ E3). cbv beta iota. destruct (Z.eqb_spec t2 CH_a) as [->|]; cbn [negb]; [|done].
  eapply fine_mono; [| |apply IH; [lia|done]]; [lia|]. intros c' (rs & -> & Hrs). exists ((t, (q2, e2)) :: rs).
  split; [done|]. constructor; [|done]. split; [by apply Hr|by apply Hw].
Qed.

Lemma args_loop_fine n l rs s :
  (length s < n)%nat -> suf line s -> (length l < 10)%nat -> Forall okw l -> Forall okr rs ->
  fine s (fun x => exists l' rs', x = (Z.of_nat (length l'), wraps (simple l') rs') /\ (length l' < 10)%nat /\ Forall okw l' /\ Forall okr rs')
    (args_loop n (Z.of_nat (length l)) (wraps (simple l) rs) s).
Proof.
  revert l rs s. induction n as [|n IH]; intros l rs s Hn Hs Hl10 Hl Hrs; [lia|]. cbn [args_loop].
  destruct (peek_spec line [BAR; RPAR; AMP; SEMI] s Hs) as (b & E & Hs1 & Hl1 & _). rewrite (M_bind_Ok _ _ _ _ _ E). destruct b.
  { split_and!; [done|done|]. by exists l, rs. }
  destruct (gettoken_spec line _ Hs1 Hline) as (t & q & e & s2 & E2 & Hs2 & Hl2 & _ & Hlt & Hw).
  rewrite (M_bind_Ok _ _ _ _ _ E2). cbv beta iota. destruct (Z.eqb_spec t 0) as [->|Ht0].
  { split_and!; [done|lia|]. by exists l, rs. }
  specialize (Hlt Ht0). destruct (Z.eqb_spec t CH_a) as [->|]; cbn [negb]; [|done].
  assert (Hrt : Forall (fun r : redir => rtok r.1) rs) by (eapply Forall_impl; [done|]; by intros r [? _]).
  rewrite (M_bind_lift _ _ _ _ (proj1 (set_arg_simple l rs q e Hrt Hl10))). cbv zeta.
  destruct (Z.leb_spec MAXARGS (Z.of_nat (length l) + 1)) as [|Hm]; [done|]. unfold MAXARGS in Hm.
  eapply fine_mono; [|exact (fun a H => H)|]; [|eapply fine_bind; [apply redirs_loop_fine; [lia|done]|]]; [lia|].
  cbv beta. intros c' s3 Hs3 Hl3 (rs' & -> & Hrs'). rewrite <- wraps_app.
  replace (Z.of_nat (length l) + 1) with (Z.of_nat (length (l ++ [(q, e)]))) by (rewrite length_app; cbn; lia).
  apply IH; [lia|done|rewrite length_app; cbn; lia| |by apply Forall_app].
  apply Forall_app. split; [done|]. constructor; [by apply Hw|done].
Qed.

Lemma back_loop_fine n c s (Q : cmd -> Prop) :
  (length s < n)%nat -> suf line s -> Q c -> (forall c, Q c -> Q (BACK c)) -> fine s Q (back_loop n c s).
Proof.
  intros Hn Hs Hc HQ. revert c s Hn Hs Hc. induction n as [|n IH]; intros c s Hn Hs Hc; [lia|]. cbn [back_loop].
  destruct (peek_spec line [AMP] s Hs) as (b & E & Hs1 & Hl1 & Hb). rewrite (M_bind_Ok _ _ _ _ _ E).
  destruct b; [|by split_and!]. destruct (Hb eq_refl) as (ch & r & Es & _ & _). rewrite Es in *.
  destruct (gettoken_peeked line s ch r Hs Hline Es) as (t & q & e & s2 & E2 & Hs2 & Hl2 & _).
  rewrite (M_bind_Ok _ _ _ _ _ E2). eapply fine_mono; [| |apply IH; [lia|done|by apply HQ]]; [lia|done].
Qed.

(** Trees whose words are words of the line, and fit their arrays. *)
Fixpoint good (c : cmd) : Prop :=
  match c with
  | EXEC a e => exists l, a = arr l.*1 /\ e = arr l.*2 /\ (length l < 10)%nat /\ Forall okw l
  | REDIR c q e m d => good c /\ delimits line q e
  | PIPE l r | LIST l r => good l /\ good r
  | BACK c => good c
  end.

Lemma good_wraps c rs : good c -> Forall okr rs -> good (wraps c rs).
Proof.
  intros Hc. induction rs as [|r rs IH] using rev_ind; [done|]. intros [Hrs [[Hr Hd] _]%Forall_cons]%Forall_app.
  rewrite wraps_snoc. destruct (add_redir_REDIR r.1 r.2.1 r.2.2 Hr) as (m & d & ->). split; [by apply IH|done].
Qed.

(** Two tokens around a recursive call. *)
Lemma fine_next {B} ts (m1 m2 : P B) s (Q : B -> Prop) :
  suf line s ->
  (forall s' c r, suf line s' -> (length s' < length s)%nat -> skip_white s = c :: r -> fine s' Q (m1 s')) ->
  (forall s', suf line s' -> (length s' <= length s)%nat -> fine s' Q (m2 s')) ->
  fine s Q ((b ← peek ts; if b : bool then gettoken;; m1 else m2) s).
Proof.
  intros Hs H1 H2. destruct (peek_spec line ts s Hs) as (b & E & Hs1 & Hl1 & Hb). rewrite (M_bind_Ok _ _ _ _ _ E). destruct b.
  - destruct (Hb eq_refl) as (ch & r & Es & _ & _). rewrite Es in *.
    destruct (gettoken_peeked line s ch r Hs Hline Es) as (t & q & e & s2 & E2 & Hs2 & Hl2 & _).
    rewrite (M_bind_Ok _ _ _ _ _ E2). eapply fine_mono; [| |by eapply H1]; [lia|done].
  - eapply fine_mono; [| |by apply H2]; [lia|done].
Qed.

Lemma fine_ret {A} (a : A) (Q : A -> Prop) s : suf line s -> Q a -> fine s Q (mret (M := P) a s).
Proof. intros. by split_and!. Qed.

Lemma parser_fine n :
  (forall s, (4 * length s + 3 <= n)%nat -> suf line s -> fine s good (parseline n s)) /\
  (forall s, (4 * length s + 2 <= n)%nat -> suf line s -> fine s good (parsepipe n s)) /\
  (forall s, (4 * length s + 1 <= n)%nat -> suf line s -> fine s good (parseexec n s)) /\
  (forall s, (4 * length s <= n)%nat -> (0 < length s)%nat -> suf line s -> fine s good (parseblock n s)).
Proof.
  induction n as [|n (IHl & IHp & IHe & IHb)]; (split; [|split; [|split]]); intros s Hn; try lia.
  - intros Hs. cbn [parseline]. eapply fine_bind; [apply IHp; [lia|done]|]. cbv beta. intros c s1 Hs1 Hl1 Hc.
    eapply (fine_bind (fun s => back_loop (S (length s)) c s)); [apply (back_loop_fine _ c s1 good); [lia|done|done|done]|].
    cbv beta. intros c2 s2 Hs2 Hl2 Hc2. apply fine_next; [done| |].
    + intros s3 ch r Hs3 Hl3 _. eapply fine_bind; [apply IHl; [lia|done]|]. cbv beta. intros c3 s4 Hs4 _ Hc3. by apply fine_ret.
    + intros s3 Hs3 _. by apply fine_ret.
  - intros Hs. cbn [parsepipe]. eapply fine_bind; [apply IHe; [lia|done]|]. cbv beta. intros c s1 Hs1 Hl1 Hc. apply fine_next; [done| |].
    + intros s3 ch r Hs3 Hl3 _. eapply fine_bind; [apply IHp; [lia|done]|]. cbv beta. intros c3 s4 Hs4 _ Hc3. by apply fine_ret.
    + intros s3 Hs3 _. by apply fine_ret.
  - intros Hs. cbn [parseexec]. destruct (peek_spec line [LPAR] s Hs) as (b & E & Hs1 & Hl1 & Hb). rewrite (M_bind_Ok _ _ _ _ _ E).
    destruct b.
    { destruct (Hb eq_refl) as (ch & r & Es & _ & _). eapply fine_mono; [exact Hl1|exact (fun a H => H)|].
      apply IHb; [lia|rewrite Es; cbn; lia|done]. }
    eapply fine_mono; [exact Hl1|exact (fun a H => H)|]. eapply fine_bind; [apply redirs_loop_fine; [lia|done]|].
    cbv beta. intros c s2 Hs2 Hl2 (rs & -> & Hrs).
    eapply (fine_bind (fun s => args_loop (S (length s)) 0 (wraps execcmd rs) s)).
    { apply (args_loop_fine (S (length s2)) [] rs s2); [lia|done|cbn; lia|done|done]. }
    cbv beta. intros x s3 Hs3 Hl3 (l & rs' & -> & Hl10 & Hl & Hrs').
    assert (Hrt : Forall (fun r : redir => rtok r.1) rs') by (eapply Forall_impl; [done|]; by intros r [? _]).
    unfold lift. rewrite (proj2 (set_arg_simple l rs' [] [] Hrt Hl10)). split_and!; [done|done|]. apply good_wraps; [|done]. by exists l.
  - intros Hl0 Hs. cbn [parseblock]. destruct (peek_spec line [LPAR] s Hs) as (b & E & Hs1 & Hl1 & Hb). rewrite (M_bind_Ok _ _ _ _ _ E).
    destruct b; cbn [negb]; [|done]. destruct (Hb eq_refl) as (ch & r & Es & _ & _). rewrite Es in *.
    destruct (gettoken_peeked line s ch r Hs Hline Es) as (t & q & e & s2 & E2 & Hs2 & Hl2 & _). rewrite (M_bind_Ok _ _ _ _ _ E2).
    eapply fine_mono; [|exact (fun a H => H)|]; [|eapply fine_bind; [apply IHl; [lia|done]|]]; [lia|]. cbv beta. intros c s3 Hs3 Hl3 Hc.
    destruct (peek_spec line [RPAR] s3 Hs3) as (b & E3 & Hs4 & Hl4 & Hb4). rewrite (M_bind_Ok _ _ _ _ _ E3).
    destruct b; cbn [negb]; [|done]. destruct (Hb4 eq_refl) as (ch2 & r2 & Es4 & _ & _). rewrite Es4 in *.
    destruct (gettoken_peeked line s3 ch2 r2 Hs3 Hline Es4) as (t2 & q2 & e2 & s5 & E5 & Hs5 & Hl5 & _). rewrite (M_bind_Ok _ _ _ _ _ E5).
    eapply fine_mono; [| |apply redirs_loop_fine; [lia|done]]; [lia|]. intros c' (rs & -> & Hrs). by apply good_wraps.
Qed.
End total.

(** ** [nulterminate] *)

Fixpoint words (c : cmd) : list (str * str) :=
  match c with
  | EXEC a e => omap (fun x => match x with (Some q, Some e) => Some (q, e) | _ => None end) (zip a e)
  | REDIR c q e _ _ => words c ++ [(q, e)]
  | PIPE l r | LIST l r => words l ++ words r
  | BACK c => words c
  end.

Lemma words_arr (l : list (str * str)) :
  omap (fun x => match x with (Some q, Some e) => Some (q, e) | _ => None end) (zip (arr l.*1) (arr l.*2)) = l.
Proof.
  unfold arr. rewrite !length_fmap. generalize (10 - length l)%nat. intros n.
  induction l as [|[q e] l IH]; cbn.
  - induction n as [|n IH]; [done|]. cbn. exact IH.
  - f_equal. exact IH.
Qed.

Section term.
Context (line : str).
Notation okw := (okw line). Notation good := (good line).

Definition idx (p : str) : nat := (length line - length p)%nat.

(** The words are still in the buffer. *)
Definition keeps_words (buf : str) : Prop :=
  length buf = S (length line) /\ forall i c, line !! i = Some c -> wordchar c = true -> buf !! i = Some c.

Definition zeros (buf buf' : str) : Prop := forall i, buf !! i = Some 0 -> buf' !! i = Some 0.

Lemma line_index_idx buf p : keeps_words buf -> suf line p -> line_index buf p = Z.of_nat (idx p) /\ (idx p < length buf)%nat.
Proof. intros [Hl _] Hp%suf_length. unfold line_index, idx. lia. Qed.

Lemma delimits_suf q e : delimits line q e -> suf line q /\ suf line e.
Proof. intros (pre & w & -> & -> & _). split; [by exists pre|]. exists (pre ++ w). by rewrite app_assoc. Qed.

Lemma poke_ok buf q e :
  keeps_words buf -> delimits line q e ->
  exists buf', poke e buf = Ok buf' /\ keeps_words buf' /\ zeros buf buf' /\ buf' !! idx e = Some 0.
Proof.
  intros HK Hd. destruct (delimits_suf q e Hd) as [_ He]. destruct (line_index_idx buf e HK He) as [Ea Hi]. destruct HK as [HL HK].
  unfold poke. rewrite Ea, wr_Ok, Nat2Z.id by lia. eexists. split; [done|]. split_and!.
  - split; [by rewrite length_insert|]. intros i c Hc Hw. rewrite list_lookup_insert_ne; [by apply HK|]. intros <-.
    destruct Hd as (pre & w & El & -> & _ & Hhd). unfold idx in Hc. rewrite El, !length_app in Hc.
    rewrite lookup_app_r in Hc by lia. rewrite lookup_app_r in Hc by lia.
    replace (length pre + (length w + length e) - length e - length pre - length w)%nat with 0%nat in Hc by lia.
    destruct e as [|c' e']; [done|]. injection Hc as ->. by rewrite (Hhd c e' eq_refl) in Hw.
  - intros i H0. destruct (decide (i = idx e)) as [->|]; [by apply list_lookup_insert_eq|by rewrite list_lookup_insert_ne].
  - by apply list_lookup_insert_eq.
Qed.

(** A word that has been terminated is the C string at its start. *)
Lemma cstr_word buf q e : keeps_words buf -> delimits line q e -> buf !! idx e = Some 0 -> cstr buf q e = text q e.
Proof.
  intros HK Hd H0. destruct (delimits_suf q e Hd) as [Hq He]. destruct (line_index_idx buf q HK Hq) as [Ea _].
  unfold cstr. rewrite Ea, Nat2Z.id. destruct HK as [HL HK]. destruct Hd as (pre & w & El & Eq & [_ Hw] & _).
  assert (Hlen : length line = (length pre + length w + length e)%nat) by (rewrite El, Eq, !length_app; lia).
  assert (Et : text q e = w) by (unfold text; rewrite Eq, length_app, Nat.add_sub, take_app_length; done). rewrite Et. clear Et.
  assert (Iq : idx q = length pre) by (unfold idx; rewrite Hlen, Eq, length_app; lia).
  assert (Ie : idx e = (length pre + length w)%nat) by (unfold idx; rewrite Hlen; lia). rewrite Iq, Ie in *.
  assert (Hc : forall i c, w !! i = Some c -> buf !! (length pre + i)%nat = Some c /\ c <> 0).
  { intros i c Hi. rewrite Forall_lookup in Hw. destruct (Hw i c Hi) as [Hwc Hc0]. split; [|done]. apply HK; [|done].
    rewrite El, Eq, lookup_app_r, Nat.add_sub' by lia. by apply lookup_app_l_Some. }
  clear -Hc H0. revert Hc H0. generalize (length pre). induction w as [|c w IH]; intros n Hc H0.
  - rewrite Nat.add_0_r in H0. by rewrite (drop_S buf 0 n H0).
  - destruct (Hc 0%nat c eq_refl) as [Hb Hne]. rewrite Nat.add_0_r in Hb. rewrite (drop_S buf c n Hb). cbn [upto0].
    destruct (Z.eqb_spec c 0); [done|]. f_equal. apply IH; [|cbn in H0; by rewrite Nat.add_succ_r in H0].
    intros i d Hi. destruct (Hc (S i) d Hi) as [H1 H2]. split; [|done]. by rewrite Nat.add_succ_r in H1.
Qed.

Lemma term_args_ok l n i buf :
  Forall okw l -> (length l < 10)%nat -> (i <= length l)%nat -> (length l - i < n)%nat -> keeps_words buf ->
  exists buf', term_args n (arr l.*1) (arr l.*2) (Z.of_nat i) buf = Ok buf' /\ keeps_words buf' /\ zeros buf buf' /\
    forall j p, (i <= j)%nat -> l !! j = Some p -> buf' !! idx p.2 = Some 0.
Proof.
  intros Hl H10. revert i buf. induction n as [|n IH]; intros i buf Hi Hn HK; [lia|]. cbn [term_args].
  assert (Hrd : forall A (k : list A), length k = length l -> rd (arr k) (Z.of_nat i) = Ok (k !! i)).
  { intros A k Hk. apply rd_Ok. unfold arr. apply zidx_Some. split; [lia|]. rewrite Nat2Z.id. destruct (decide (i < length k)%nat) as [Hlt|Hge].
    - rewrite lookup_app_l by (by rewrite length_fmap). rewrite list_lookup_fmap.
      destruct (lookup_lt_is_Some_2 k i Hlt) as [x ->]. done.
    - rewrite lookup_app_r, length_fmap by (rewrite length_fmap; lia). rewrite lookup_replicate_2 by lia. by rewrite (lookup_ge_None_2 k) by lia. }
  rewrite (Hrd _ l.*1), bind_ok, list_lookup_fmap by (by rewrite length_fmap). destruct (l !! i) as [[q e]|] eqn:El; cbn [fmap option_fmap option_map].
  2:{ exists buf. split; [reflexivity|split; [done|split; [by intros k Hk|]]]. intros j p Hj Hp. apply lookup_ge_None in El. apply lookup_lt_Some in Hp. lia. }
  rewrite (Hrd _ l.*2), bind_ok, list_lookup_fmap, El by (by rewrite length_fmap). cbn [fmap option_fmap option_map snd].
  rewrite Forall_lookup in Hl. destruct (poke_ok buf q e HK (Hl i _ El)) as (b1 & -> & K1 & Z1 & H1). rewrite bind_ok.
  replace (Z.of_nat i + 1) with (Z.of_nat (S i)) by lia. apply lookup_lt_Some in El as Hlt.
  destruct (IH (S i) b1) as (b2 & E2 & K2 & Z2 & H2); [lia|lia|done|]. exists b2. split_and!; [done|done|intros k Hk; by apply Z2, Z1|].
  intros j p Hj Hp. destruct (decide (j = i)) as [->|]; [|apply (H2 j p); [lia|done]]. rewrite El in Hp. injection Hp as <-. by apply Z2.
Qed.

Lemma nulterminate_ok c buf :
  good c -> keeps_words buf ->
  exists buf', nulterminate c buf = Ok buf' /\ keeps_words buf' /\ zeros buf buf' /\
    Forall (fun p => okw p /\ buf' !! idx p.2 = Some 0) (words c).
Proof.
  assert (Hz : forall b b' l, zeros b b' -> Forall (fun p => okw p /\ b !! idx p.2 = Some 0) l ->
    Forall (fun p => okw p /\ b' !! idx p.2 = Some 0) l).
  { intros b b' l H Hl. eapply Forall_impl; [done|]. intros p [H1 H2]. split; [done|by apply H]. }
  assert (Htr : forall a b c, zeros a b -> zeros b c -> zeros a c) by (intros ??? H1 H2 i Hi; by apply H2, H1).
  revert buf. induction c as [a e|c IH q e m d|l IHl r IHr|l IHl r IHr|c IH]; intros buf Hg HK; cbn [nulterminate words].
  - destruct Hg as (l & -> & -> & H10 & Hl).
    destruct (term_args_ok l (S (length (arr l.*1))) 0 buf Hl H10) as (b & E & K & Zb & H);
      [lia|rewrite length_arr by (rewrite length_fmap; lia); lia|done|].
    exists b. split_and!; [done|done|done|]. rewrite words_arr. rewrite Forall_lookup in *. intros i p Hp. split; [by apply (Hl i)|].
    apply (H i p); [lia|done].
  - destruct Hg as [Hg Hd]. destruct (IH buf Hg HK) as (b & -> & K & Zb & H). rewrite bind_ok.
    destruct (poke_ok b q e K Hd) as (b2 & E & K2 & Z2 & H2). exists b2. split_and!; [done|done|by eapply Htr|].
    apply Forall_app. split; [by eapply Hz|]. constructor; [done|constructor].
  - destruct Hg as [Hg1 Hg2]. destruct (IHl buf Hg1 HK) as (b & -> & K & Zb & H). rewrite bind_ok.
    destruct (IHr b Hg2 K) as (b2 & E & K2 & Z2 & H2). exists b2. split_and!; [done|done|by eapply Htr|].
    apply Forall_app. split; [by eapply Hz|done].
  - destruct Hg as [Hg1 Hg2]. destruct (IHl buf Hg1 HK) as (b & -> & K & Zb & H). rewrite bind_ok.
    destruct (IHr b Hg2 K) as (b2 & E & K2 & Z2 & H2). exists b2. split_and!; [done|done|by eapply Htr|].
    apply Forall_app. split; [by eapply Hz|done].
  - by apply IH.
Qed.

Lemma keeps_words_init : keeps_words (line ++ [0]).
Proof. split; [rewrite length_app; cbn; lia|]. intros i c Hi _. by apply lookup_app_l_Some. Qed.

Lemma abs_ext f g c : good c -> Forall (fun p => f p.1 p.2 = g p.1 p.2) (words c) -> abs f c = abs g c.
Proof.
  induction c as [a e|c IH q e m d|l IHl r IHr|l IHl r IHr|c IH]; cbn [good words abs]; intros Hg H.
  - destruct Hg as (l & -> & -> & _ & _). rewrite words_arr in H. rewrite !args_of_arr. f_equal. by apply Forall_fmap_ext_1.
  - apply Forall_app in H as [H1 [H2 _]%Forall_cons]. cbn in H2. destruct Hg as [Hg _]. by rewrite IH, H2.
  - apply Forall_app in H as [H1 H2]. destruct Hg. by rewrite IHl, IHr.
  - apply Forall_app in H as [H1 H2]. destruct Hg. by rewrite IHl, IHr.
  - by rewrite IH.
Qed.

Lemma text_word q e : delimits line q e -> word (text q e).
Proof.
  intros (pre & w & _ & -> & Hw & _). unfold text. by rewrite length_app, Nat.add_sub, take_app_length.
Qed.

Lemma good_wf c : good c -> wf (abs text c).
Proof.
  induction c as [a e|c IH q e m d|l IHl r IHr|l IHl r IHr|c IH]; cbn [good abs wf]; try tauto.
  - intros (l & -> & -> & H10 & Hl). rewrite args_of_arr, length_fmap. split; [|unfold MAXARGS; lia].
    apply Forall_fmap. eapply Forall_impl; [done|]. intros p. apply text_word.
  - intros [Hc Hd]. split; [auto|by apply text_word].
Qed.
End term.

(** A tree of the parser and its line after [nulterminate]. *)
Lemma terminated line c :
  good line c -> exists buf, nulterminate c (line ++ [0]) = Ok buf /\ abs (cstr buf) c = abs text c.
Proof.
  intros Hg. destruct (nulterminate_ok line c _ Hg (keeps_words_init line)) as (buf & E & K & _ & H). exists buf. split; [done|].
  apply (abs_ext line); [done|]. eapply Forall_impl; [done|]. intros p [Hd H0]. by apply (cstr_word line).
Qed.

