(* ===== verification/ShPrint.v ===== *)
(** * The shell's parser reads back what is printed

    A command is written with a space before every token, and with
    parentheses around a command where the grammar does not take it as it
    is.  [parsecmd] gives it back, word by word. *)

From S2P Require Import Prelude Sh ShSpec.

#[local] Arguments strchr : simpl never.
#[local] Arguments wordchar : simpl never.

(** ** Printing *)

Definition op (k : rkind) : str := match k with RIn => [LT] | ROut => [GT] | RAppend => [GT; GT] end.

(** Tokens of a command where the grammar has a simple command or a block
    (level 0), a pipeline (1), a pipeline in the background (2), or a line (3). *)
Fixpoint toks (c : acmd) (lvl : nat) : list str :=
  let block (n : nat) (t : list str) := if (lvl <? n)%nat then [LPAR] :: t ++ [[RPAR]] else t in
  match c with
  | AExec args => args
  | ARedir c f k => toks c 0 ++ [op k; f]
  | APipe l r => block 1%nat (toks l 0 ++ [BAR] :: toks r 1)
  | ABack c => block 2%nat (toks c 2 ++ [[AMP]])
  | AList l r => block 3%nat (toks l 2 ++ [SEMI] :: toks r 3)
  end.

Definition rend (ts : list str) : str := mjoin (cons 32 <$> ts).
Definition print (c : acmd) : str := rend (toks c 3).

(** ** Reading tokens *)

Definition tok_ok (t : str) : Prop :=
  word t \/ t ∈ [[LT]; [GT]; [GT; GT]; [BAR]; [AMP]; [SEMI]; [LPAR]; [RPAR]].

Definition R (ts : list str) : str := skip_white (rend ts).

Definition kindof (t : str) : Z :=
  match t with
  | [] => 0
  | c :: t' => if strchr symbols c then match t' with [] => c | _ => PLUS end else CH_a
  end.

Definition hd_in (set : str) (ts : list str) : bool :=
  match ts with (c :: _) :: _ => strchr set c | _ => false end.

Lemma word_head w : word w -> exists c w', w = c :: w' /\ wordchar c = true /\ c <> 0.
Proof. intros [Hn Hw]. destruct w as [|c w]; [done|]. apply Forall_cons in Hw as [[? ?] _]. eauto. Qed.

Lemma wordchar_inv c : wordchar c = true -> strchr whitespace c = false /\ strchr symbols c = false.
Proof. unfold wordchar. by intros [?%negb_true_iff ?%negb_true_iff]%andb_true_iff. Qed.

Lemma tok_head t : tok_ok t -> exists c t', t = c :: t' /\ strchr whitespace c = false /\ c <> 0.
Proof.
  intros [(c & w & -> & [H _]%wordchar_inv & H0)%word_head|H]; [eauto|].
  repeat (apply elem_of_cons in H as [->|H]; [by eexists _, _|]). by apply not_elem_of_nil in H.
Qed.

Lemma rend_cons t ts : rend (t :: ts) = 32 :: t ++ rend ts.
Proof. done. Qed.

Lemma R_cons t ts : tok_ok t -> R (t :: ts) = t ++ rend ts.
Proof.
  intros (c & t' & -> & Hc & _)%tok_head. unfold R. rewrite rend_cons. cbn [skip_white app].
  change (strchr whitespace 32) with true. cbv iota. by rewrite Hc.
Qed.

Lemma R_idem ts : skip_white (R ts) = R ts.
Proof. apply skip_white_idem. Qed.

Lemma peek_R set ts s :
  Forall tok_ok ts -> skip_white s = R ts -> peek set s = Ok (hd_in set ts, R ts).
Proof.
  intros Hts Hs. unfold peek. rewrite Hs. destruct Hts as [|t ts Ht Hts]; [done|].
  rewrite R_cons by done. apply tok_head in Ht as (c & t' & -> & _ & Hc). cbn [app hd_in].
  by destruct (Z.eqb_spec c 0).
Qed.

(** A word is no symbol. *)
Lemma hd_word set a ts : word a -> forallb (strchr symbols) set = true -> hd_in set (a :: ts) = false.
Proof.
  intros (c & w & -> & [_ Hc]%wordchar_inv & _)%word_head Hset. cbn [hd_in]. destruct (strchr set c) eqn:E; [|done].
  unfold strchr in E at 1. apply existsb_exists in E as (d & Hd & ->%Z.eqb_eq). rewrite forallb_forall in Hset. by rewrite Hset in Hc.
Qed.

Lemma kindof_word a : word a -> kindof a = CH_a.
Proof. intros (c & w & -> & [_ Hc]%wordchar_inv & _)%word_head. cbn [kindof]. by rewrite Hc. Qed.

Lemma skip_word_app w s :
  Forall (fun c => wordchar c = true) w -> (forall c s', s = c :: s' -> wordchar c = false) -> skip_word (w ++ s) = s.
Proof.
  intros Hw Hs. induction Hw as [|c w Hc Hw IH]; cbn [app skip_word]; [|by rewrite Hc].
  destruct s as [|c s']; [done|]. cbn [skip_word]. by rewrite (Hs c s' eq_refl).
Qed.

Lemma rend_head ts c s' : rend ts = c :: s' -> c = 32.
Proof. destruct ts; [done|]. rewrite rend_cons. by intros [= <- _]. Qed.

Lemma gettoken_R t ts s :
  tok_ok t -> skip_white s = R (t :: ts) ->
  gettoken s = Ok ((kindof t, (t ++ rend ts, rend ts)), R ts).
Proof.
  intros Ht Hs. unfold gettoken. rewrite Hs, R_cons by done. fold (R ts). destruct Ht as [Hw|Ht].
  - destruct (word_head t Hw) as (c & w & -> & Hwc & Hc). destruct (wordchar_inv c Hwc) as [_ Hsym]. cbn [app kindof].
    destruct (Z.eqb_spec c 0); [done|]. rewrite Hsym. unfold strchr in Hsym. cbn in Hsym. repeat apply orb_false_iff in Hsym as [? Hsym].
    unfold strchr. cbn [existsb]. repeat (match goal with H : (c =? ?x) = false |- _ => rewrite H; clear H end). cbn [orb].
    rewrite app_comm_cons, skip_word_app; [done| |].
    + destruct Hw as [_ Hw]. eapply Forall_impl; [exact Hw|]. by intros x [? _].
    + by intros c' s' ->%rend_head.
  - repeat (apply elem_of_cons in Ht as [->|Ht]; [try done|]); [|by apply not_elem_of_nil in Ht].
    cbn [app kindof]. change (GT =? 0) with false. cbn. destruct (rend ts) as [|c s'] eqn:E; [by unfold R; rewrite E|].
    unfold R. rewrite E. apply rend_head in E as ->. done.
Qed.

(** Lengths. *)
Lemma rend_length ts : (length ts <= length (rend ts))%nat.
Proof. induction ts as [|t ts IH]; [done|]. rewrite rend_cons. cbn. rewrite length_app. lia. Qed.

Lemma R_length us ts : Forall tok_ok us -> (length us + length (R ts) <= length (R (us ++ ts)))%nat.
Proof.
  intros H. induction H as [|t us Ht H IH]; cbn [app length]; [lia|]. rewrite R_cons by done. rewrite length_app.
  apply tok_head in Ht as (c & t' & -> & _). pose proof (skip_white_length (rend (us ++ ts))) as Hl. fold (R (us ++ ts)) in Hl. cbn. lia.
Qed.

Lemma state_length s ts : skip_white s = R ts -> (length (R ts) <= length s)%nat.
Proof. intros <-. apply skip_white_length. Qed.

(** ** Redirections and simple commands *)

Definition rt (r : str * rkind) : list str := [op r.2; r.1].
Definition rts (rs : list (str * rkind)) : list str := mjoin (rt <$> rs).
Definition awrap (c : acmd) (rs : list (str * rkind)) : acmd := foldl (fun c r => ARedir c r.1 r.2) c rs.

Definition reads (r : str * rkind) (p : redir) : Prop := p.1 = kindof (op r.2) /\ text p.2.1 p.2.2 = r.1.

Lemma op_ok k : tok_ok (op k) /\ strchr [LT; GT] (hd 0 (op k)) = true /\ rtok (kindof (op k)).
Proof. split_and!; [right; destruct k; set_solver|by destruct k|]. unfold rtok. destruct k; cbn; auto. Qed.

Lemma text_app t s : text (t ++ s) s = t.
Proof. unfold text. by rewrite length_app, Nat.add_sub, take_app_length. Qed.

Lemma abs_wraps rs ps c : Forall2 reads rs ps -> abs text (wraps c ps) = awrap (abs text c) rs.
Proof.
  intros H. revert c. induction H as [|[f k] [t [q e]] rs ps [Ht Hf] H IH]; intros c; [done|].
  cbn in Ht, Hf. unfold wraps, awrap. cbn [foldl fst snd]. fold (wraps (add_redir t q e c) ps).
  fold (awrap (ARedir (abs text c) f k) rs). rewrite IH. f_equal. subst. by destruct k.
Qed.

Lemma reads_rtok rs ps : Forall2 reads rs ps -> Forall (fun p : redir => rtok p.1) ps.
Proof. intros H. induction H as [|r p rs ps [Hp _] H IH]; constructor; [|done]. rewrite Hp. apply op_ok. Qed.

Lemma rts_ok rs : Forall (fun r => word r.1) rs -> Forall tok_ok (rts rs).
Proof.
  intros H. induction H as [|r rs Hr H IH]; [constructor|]. unfold rts. cbn. constructor; [apply op_ok|]. constructor; [by left|exact IH].
Qed.

Lemma rts_length rs : (length rs <= length (rts rs))%nat.
Proof.
  induction rs as [|r rs IH]; [done|]. change (rts (r :: rs)) with (rt r ++ rts rs). rewrite length_app. cbn. lia.
Qed.

Lemma redirs_R rs n c s ts :
  Forall (fun r => word r.1) rs -> Forall tok_ok ts -> hd_in [LT; GT] ts = false -> (length rs < n)%nat ->
  skip_white s = R (rts rs ++ ts) ->
  exists ps, redirs_loop n c s = Ok (wraps c ps, R ts) /\ Forall2 reads rs ps.
Proof.
  intros Hrs Hts Hhd. revert n c s. induction Hrs as [|[f k] rs Hf Hrs IH]; intros n c s Hn Hs; (destruct n as [|n]; [cbn in Hn; lia|]); cbn [redirs_loop].
  - rewrite (M_bind_Ok _ _ _ _ _ (peek_R _ _ s Hts Hs)). rewrite Hhd. exists []. split; [done|constructor].
  - change (rts ((f, k) :: rs) ++ ts) with (op k :: f :: rts rs ++ ts) in Hs. cbn in Hf. destruct (op_ok k) as (Ho & Hch & _).
    assert (Hok : Forall tok_ok (op k :: f :: rts rs ++ ts)).
    { constructor; [done|]. constructor; [by left|]. apply Forall_app. split; [by apply rts_ok|done]. }
    rewrite (M_bind_Ok _ _ _ _ _ (peek_R _ _ s Hok Hs)).
    assert (hd_in [LT; GT] (op k :: f :: rts rs ++ ts) = true) as -> by (destruct k; exact Hch). cbn [negb].
    rewrite (M_bind_Ok _ _ _ _ _ (gettoken_R _ _ _ Ho (R_idem _))). cbv beta iota.
    rewrite (M_bind_Ok _ _ _ _ _ (gettoken_R f (rts rs ++ ts) _ (or_introl Hf) (R_idem _))). cbv beta iota.
    rewrite (kindof_word f Hf).
    change (negb (CH_a =? CH_a)) with false. cbv iota.
    destruct (IH n (add_redir (kindof (op k)) (f ++ rend (rts rs ++ ts)) (rend (rts rs ++ ts)) c) (R (rts rs ++ ts))) as (ps & E & H);
      [cbn in Hn; lia|apply R_idem|].
    exists ((kindof (op k), (f ++ rend (rts rs ++ ts), rend (rts rs ++ ts))) :: ps). split; [exact E|].
    constructor; [|done]. split; [done|]. apply text_app.
Qed.

(** Tokens that end a simple command. *)
Definition stop (ts : list str) : Prop := ts = [] \/ hd_in [BAR; RPAR; AMP; SEMI] ts = true.

Lemma stop_no_redir ts : stop ts -> hd_in [LT; GT] ts = false.
Proof.
  intros [->|H]; [done|]. destruct ts as [|[|c t] ts]; [done|done|]. cbn [hd_in] in *. unfold strchr in *. cbn in *.
  repeat (apply orb_true_iff in H as [H|H]; [apply Z.eqb_eq in H as ->; done|]). done.
Qed.

Lemma args_stop n argc c s ts :
  Forall tok_ok ts -> stop ts -> skip_white s = R ts -> args_loop (S n) argc c s = Ok ((argc, c), R ts).
Proof.
  intros Hts Hst Hs. cbn [args_loop]. rewrite (M_bind_Ok _ _ _ _ _ (peek_R _ _ s Hts Hs)). destruct Hst as [->| ->]; [|done]. done.
Qed.

Lemma words_ok ws : Forall word ws -> Forall tok_ok ws.
Proof. intros H. eapply Forall_impl; [done|]. by left. Qed.

Lemma args_R args n l s rs ts :
  Forall word args -> args <> [] -> Forall (fun r => word r.1) rs -> Forall tok_ok ts -> stop ts ->
  (length args < n)%nat -> (length l + length args < 10)%nat -> skip_white s = R (args ++ rts rs ++ ts) ->
  exists ws ps, args_loop n (Z.of_nat (length l)) (simple l) s = Ok ((Z.of_nat (length (l ++ ws)), wraps (simple (l ++ ws)) ps), R ts) /\
    (fun p => text p.1 p.2) <$> ws = args /\ Forall2 reads rs ps.
Proof.
  intros Hargs Hne Hrs Hts Hst. revert n l s Hne. induction Hargs as [|a args Ha Hargs IH]; intros n l s Hne Hn H10 Hs; [done|].
  destruct n as [|n]; [cbn in Hn; lia|]. cbn [args_loop app] in *.
  assert (Hrest : Forall tok_ok (args ++ rts rs ++ ts)) by (rewrite !Forall_app; split_and!; [by apply words_ok|by apply rts_ok|done]).
  assert (Hok : Forall tok_ok (a :: args ++ rts rs ++ ts)) by (constructor; [by left|done]).
  rewrite (M_bind_Ok _ _ _ _ _ (peek_R _ _ s Hok Hs)).
  rewrite (hd_word _ a) by done. rewrite (M_bind_Ok _ _ _ _ _ (gettoken_R a _ _ (or_introl Ha) (R_idem _))). cbv beta iota.
  rewrite (kindof_word a Ha).
  change (CH_a =? 0) with false. change (negb (CH_a =? CH_a)) with false. cbv iota.
  set (p := (a ++ rend (args ++ rts rs ++ ts), rend (args ++ rts rs ++ ts))).
  rewrite (M_bind_lift _ _ _ _ (proj1 (set_arg_simple l [] p.1 p.2 (Forall_nil_2 _) ltac:(cbn in H10; lia)))). cbv zeta.
  destruct (Z.leb_spec MAXARGS (Z.of_nat (length l) + 1)) as [Hm|_]; [unfold MAXARGS in Hm; cbn in H10; lia|].
  change (wraps (simple (l ++ [(p.1, p.2)])) []) with (simple (l ++ [p])).
  replace (Z.of_nat (length l) + 1) with (Z.of_nat (length (l ++ [p]))) by (rewrite length_app; cbn; lia).
  assert (Hp : text p.1 p.2 = a) by apply text_app.
  destruct args as [|b args].
  - cbn [app] in *. pose proof (R_length (rts rs) ts (rts_ok rs Hrs)) as HR.
    pose proof (rts_length rs) as Hrl.
    destruct (redirs_R rs (S (length (R (rts rs ++ ts)))) (simple (l ++ [p])) (R (rts rs ++ ts)) ts Hrs Hts (stop_no_redir ts Hst)) as (ps & E & Hps);
      [lia|apply R_idem|].
    rewrite (M_bind_Ok (parseredirs _) _ _ _ _ E). destruct n as [|n]; [cbn in Hn; lia|]. rewrite (args_stop n _ _ _ ts Hts Hst (R_idem ts)).
    exists [p], ps. split_and!; [done|rewrite fmap_cons; f_equal; exact Hp|done].
  - destruct (redirs_R [] (S (length (R ((b :: args) ++ rts rs ++ ts)))) (simple (l ++ [p])) (R ((b :: args) ++ rts rs ++ ts)) ((b :: args) ++ rts rs ++ ts))
      as (ps & E & Hps); [constructor|done| |cbn; lia|apply R_idem|].
    { apply Forall_cons in Hargs as [Hb _]. by apply hd_word. }
    inversion Hps; subst ps. rewrite (M_bind_Ok (parseredirs _) _ _ _ _ E). change (wraps (simple (l ++ [p])) []) with (simple (l ++ [p])).
    destruct (IH n (l ++ [p]) (R ((b :: args) ++ rts rs ++ ts))) as (ws & ps & E2 & Hws & Hps2);
      [done|cbn in *; lia|rewrite length_app; cbn in *; lia|apply R_idem|].
    exists (p :: ws), ps. rewrite <- app_assoc in E2. split_and!; [exact E2|rewrite fmap_cons, Hws; f_equal; exact Hp|done].
Qed.

(** [parseexec] on a simple command. *)
Lemma parseexec_simple args rs n s ts :
  Forall word args -> (length args < 10)%nat -> Forall (fun r => word r.1) rs -> Forall tok_ok ts -> stop ts ->
  skip_white s = R (args ++ rts rs ++ ts) ->
  exists c, parseexec (S n) s = Ok (c, R ts) /\ abs text c = awrap (AExec args) rs.
Proof.
  intros Hargs H10 Hrs Hts Hst Hs. cbn [parseexec]. set (us := args ++ rts rs ++ ts) in *.
  assert (Hus : Forall tok_ok us) by (unfold us; rewrite !Forall_app; split_and!; [by apply words_ok|by apply rts_ok|done]).
  pose proof (R_length (rts rs) ts (rts_ok rs Hrs)) as HR. pose proof (rts_length rs) as Hrl.
  assert (Hnp : hd_in [LPAR] us = false).
  { unfold us. destruct Hargs as [|a args Ha _]; [|by apply hd_word]. destruct rs as [|[f k] rs]; [|by destruct k].
    cbn. destruct Hst as [->|H]; [done|]. destruct ts as [|[|c t] ts]; [done|done|]. cbn [hd_in] in *. unfold strchr in *. cbn in *.
    repeat (apply orb_true_iff in H as [H|H]; [apply Z.eqb_eq in H as ->; done|]). done. }
  rewrite (M_bind_Ok _ _ _ _ _ (peek_R _ _ s Hus Hs)), Hnp.
  assert (Hfin : forall ws ps, (fun p => text p.1 p.2) <$> ws = args -> (length ws < 10)%nat -> Forall2 reads rs ps ->
    exists c, lift (set_arg (Z.of_nat (length ws)) None None (wraps (simple ws) ps)) (R ts) = Ok (c, R ts) /\ abs text c = awrap (AExec args) rs).
  { intros ws ps Hws Hl Hps. exists (wraps (simple ws) ps). split.
    - unfold lift. by rewrite (proj2 (set_arg_simple ws ps [] [] (reads_rtok rs ps Hps) Hl)).
    - rewrite (abs_wraps rs ps) by done. cbn [abs simple]. rewrite args_of_arr. do 2 f_equal. exact Hws. }
  destruct args as [|a args].
  - destruct (redirs_R rs (S (length (R us))) execcmd (R us) ts Hrs Hts (stop_no_redir ts Hst)) as (ps & E & Hps); [unfold us; cbn [app]; lia|apply R_idem|].
    rewrite (M_bind_Ok (parseredirs _) _ _ _ _ E). rewrite (M_bind_Ok (fun s => args_loop (S (length s)) 0 (wraps execcmd ps) s) _ _ _ _ (args_stop (length (R ts)) 0 _ _ ts Hts Hst (R_idem ts))).
    by apply (Hfin [] ps).
  - destruct (redirs_R [] (S (length (R us))) execcmd (R us) us) as (ps & E & Hps); [constructor|done| |cbn; lia|apply R_idem|].
    { apply Forall_cons in Hargs as [Ha _]. by apply hd_word. }
    inversion Hps; subst ps. rewrite (M_bind_Ok (parseredirs _) _ _ _ _ E). cbn [wraps foldl].
    pose proof (R_length (a :: args) (rts rs ++ ts) (words_ok _ Hargs)) as HR2.
    destruct (args_R (a :: args) (S (length (R us))) [] (R us) rs ts Hargs) as (ws & ps & E2 & Hws & Hps2); try done; [unfold us; lia|apply R_idem|].
    cbn [app length] in E2. change (Z.of_nat 0) with 0 in E2. change (simple []) with execcmd in E2.
    rewrite (M_bind_Ok (fun s => args_loop (S (length s)) 0 execcmd s) _ _ _ _ E2). cbv beta iota. apply Hfin; [done| |done].
    rewrite <- Hws, length_fmap in H10. done.
Qed.

(** ** The levels of the grammar *)

Definition stop1 (ts : list str) : Prop := stop ts /\ hd_in [BAR] ts = false.
Definition stop3 (ts : list str) : Prop := ts = [] \/ hd_in [RPAR] ts = true.

(** A parser gives back a command printed at a level. *)
Definition inverts (parse : nat -> P cmd) (k lvl : nat) (follow : list str -> Prop) (c : acmd) : Prop :=
  forall n s ts, Forall tok_ok ts -> follow ts -> (4 * length s + k <= n)%nat -> skip_white s = R (toks c lvl ++ ts) ->
    exists C, parse n s = Ok (C, R ts) /\ abs text C = c.
Notation S0 := (inverts parseexec 1 0 stop).
Notation S1 := (inverts parsepipe 2 1 stop1).
Notation S3 := (inverts parseline 3 3 stop3).

Lemma stop3_1 ts : stop3 ts -> stop1 ts /\ hd_in [AMP] ts = false /\ hd_in [SEMI] ts = false.
Proof.
  intros [->|H]; [by repeat split; left|]. destruct ts as [|[|c t] ts]; [done|done|]. cbn [hd_in] in H. unfold strchr in H. cbn in H.
  rewrite orb_false_r in H. apply Z.eqb_eq in H as ->. split_and!; [split; [by right|done]|done|done].
Qed.

Lemma toks_ok c lvl : wf c -> Forall tok_ok (toks c lvl).
Proof.
  assert (Hs : forall t, t ∈ [[LT]; [GT]; [GT; GT]; [BAR]; [AMP]; [SEMI]; [LPAR]; [RPAR]] -> tok_ok t) by (intros; by right).
  assert (Hb : forall (b : bool) l, Forall tok_ok l -> Forall tok_ok (if b then [LPAR] :: l ++ [[RPAR]] else l)).
  { intros [] l Hl; [|done]. constructor; [apply Hs; set_solver|]. apply Forall_app. split; [done|]. constructor; [apply Hs; set_solver|done]. }
  revert lvl. induction c as [args|c IH f k|l IHl r IHr|l IHl r IHr|c IH]; intros lvl Hw; cbn [toks].
  - destruct Hw. by apply words_ok.
  - destruct Hw as [Hw Hf]. apply Forall_app. split; [by apply IH|]. constructor; [apply op_ok|]. constructor; [by left|done].
  - destruct Hw as [H1 H2]. apply Hb, Forall_app. split; [by apply IHl|]. constructor; [apply Hs; set_solver|by apply IHr].
  - destruct Hw as [H1 H2]. apply Hb, Forall_app. split; [by apply IHl|]. constructor; [apply Hs; set_solver|by apply IHr].
  - apply Hb, Forall_app. split; [by apply IH|]. constructor; [apply Hs; set_solver|done].
Qed.

Lemma sym_ok t : t ∈ [[BAR]; [AMP]; [SEMI]; [LPAR]; [RPAR]] -> tok_ok t.
Proof. intros H. right. set_solver. Qed.

Lemma S0_S1 c : wf c -> toks c 1 = toks c 0 -> S0 c -> S1 c.
Proof.
  intros Hw E H n s ts Hts [Hst Hbar] Hn Hs. destruct n as [|n]; [lia|]. cbn [parsepipe]. rewrite E in Hs.
  destruct (H n s ts Hts Hst ltac:(lia) Hs) as (C & Ec & Ha). rewrite (M_bind_Ok _ _ _ _ _ Ec).
  rewrite (M_bind_Ok _ _ _ _ _ (peek_R _ _ _ Hts (R_idem ts))), Hbar. by exists C.
Qed.

Lemma S1_pipe l r : wf l -> wf r -> S0 l -> S1 r -> S1 (APipe l r).
Proof.
  intros Hl Hr H0 H1 n s ts Hts Hst Hn Hs. destruct n as [|n]; [lia|]. cbn [parsepipe].
  change (toks (APipe l r) 1) with (toks l 0 ++ [BAR] :: toks r 1) in Hs. rewrite <- app_assoc in Hs. cbn [app] in Hs.
  set (us := [BAR] :: toks r 1 ++ ts) in *.
  assert (Hus : Forall tok_ok us) by (constructor; [apply sym_ok; set_solver|apply Forall_app; split; [by apply toks_ok|done]]).
  destruct (H0 n s us Hus ltac:(by right) ltac:(lia) Hs) as (C & Ec & Ha). rewrite (M_bind_Ok _ _ _ _ _ Ec).
  rewrite (M_bind_Ok _ _ _ _ _ (peek_R _ _ _ Hus (R_idem us))). change (hd_in [BAR] us) with true. cbv iota.
  rewrite (M_bind_Ok _ _ _ _ _ (gettoken_R [BAR] (toks r 1 ++ ts) _ ltac:(apply sym_ok; set_solver) (R_idem us))).
  pose proof (state_length s _ Hs) as Hls. pose proof (R_length (toks l 0) us (toks_ok l 0 Hl)) as HR.
  pose proof (R_length [[BAR]] (toks r 1 ++ ts) ltac:(constructor; [apply sym_ok; set_solver|constructor])) as HR2. cbn [app length] in HR2. fold us in HR2.
  destruct (H1 n (R (toks r 1 ++ ts)) ts Hts Hst ltac:(lia) (R_idem _)) as (C2 & Ec2 & Ha2). rewrite (M_bind_Ok _ _ _ _ _ Ec2).
  exists (PIPE C C2). split; [done|]. cbn. by rewrite Ha, Ha2.
Qed.

(** Commands in the background. *)
Lemma back_loop_R k n c s ts :
  Forall tok_ok ts -> hd_in [AMP] ts = false -> (k < n)%nat -> skip_white s = R (replicate k [AMP] ++ ts) ->
  back_loop n c s = Ok (Nat.iter k BACK c, R ts).
Proof.
  intros Hts Hhd. revert n c s. induction k as [|k IH]; intros n c s Hn Hs; (destruct n as [|n]; [lia|]); cbn [back_loop].
  - rewrite (M_bind_Ok _ _ _ _ _ (peek_R _ _ s Hts Hs)). by rewrite Hhd.
  - cbn [replicate app] in Hs. set (us := replicate k [AMP] ++ ts) in *.
    assert (Hus : Forall tok_ok ([AMP] :: us)).
    { constructor; [apply sym_ok; set_solver|]. apply Forall_app. split; [|done]. apply Forall_replicate, sym_ok. set_solver. }
    rewrite (M_bind_Ok _ _ _ _ _ (peek_R _ _ s Hus Hs)). change (hd_in [AMP] ([AMP] :: us)) with true. cbv iota.
    rewrite (M_bind_Ok _ _ _ _ _ (gettoken_R [AMP] us _ ltac:(apply sym_ok; set_solver) (R_idem _))).
    rewrite (IH n (BACK c) (R us)); [|lia|apply R_idem]. by rewrite <- Nat.iter_succ_r.
Qed.

Lemma abs_iter k C : abs text (Nat.iter k BACK C) = Nat.iter k ABack (abs text C).
Proof. induction k as [|k IH]; [done|]. change (ABack (abs text (Nat.iter k BACK C)) = ABack (Nat.iter k ABack (abs text C))). by rewrite IH. Qed.

Lemma line_R b k n s ts (rest : cmd -> P cmd) :
  wf b -> S1 b -> Forall tok_ok ts -> stop1 ts -> hd_in [AMP] ts = false -> (4 * length s + 2 <= n)%nat ->
  skip_white s = R (toks b 1 ++ replicate k [AMP] ++ ts) ->
  exists C, (c ← parsepipe n; c ← (fun s => back_loop (S (length s)) c s); rest c) s = rest C (R ts) /\ abs text C = Nat.iter k ABack b.
Proof.
  intros Hw H1 Hts Hst Hhd Hn Hs. set (us := replicate k [AMP] ++ ts) in *.
  assert (Hk : Forall tok_ok (replicate k [AMP])) by (apply Forall_replicate, sym_ok; set_solver).
  assert (Hus : Forall tok_ok us) by (by apply Forall_app).
  assert (Hst' : stop1 us) by (unfold us; destruct k; [done|split; [by right|done]]).
  destruct (H1 n s us Hus Hst' Hn Hs) as (C & Ec & Ha). rewrite (M_bind_Ok _ _ _ _ _ Ec).
  pose proof (R_length (replicate k [AMP]) ts Hk) as HR. rewrite length_replicate in HR. fold us in HR.
  rewrite (M_bind_Ok (fun s => back_loop (S (length s)) C s) _ _ _ _ (back_loop_R k (S (length (R us))) C (R us) ts Hts Hhd ltac:(lia) (R_idem us))).
  exists (Nat.iter k BACK C). split; [done|]. by rewrite abs_iter, Ha.
Qed.

(** The command under the ampersands. *)
Fixpoint under (c : acmd) : acmd * nat :=
  match c with ABack c => let '(b, k) := under c in (b, S k) | _ => (c, O) end.

Fixpoint size (c : acmd) : nat :=
  match c with
  | AExec _ => 1
  | ARedir c _ _ | ABack c => S (size c)
  | APipe l r | AList l r => S (size l + size r)
  end.

Lemma under_spec c b k : under c = (b, k) ->
  c = Nat.iter k ABack b /\ (forall x, b <> ABack x) /\ toks c 2 = toks b 1 ++ replicate k [AMP] /\ (size b + k <= size c)%nat /\ (wf c -> wf b).
Proof.
  revert k. induction c as [args|c IH f kd|l IHl r IHr|l IHl r IHr|c IH]; intros k; cbn [under].
  5:{ destruct (under c) as [b' k'] eqn:E. intros [= <- <-]. destruct (IH k' eq_refl) as (Ec & H2 & H3 & H4 & H5).
      split_and!; [by rewrite Ec|done| |cbn in *; lia|done]. change (toks (ABack c) 2) with (toks c 2 ++ [[AMP]]).
      rewrite H3, <- app_assoc. f_equal. by rewrite replicate_S_end. }
  all: intros [= <- <-]; split_and!; [done|done|cbn [replicate]; by rewrite app_nil_r|lia|done].
Qed.

Lemma S3_line c : wf c -> (forall l r, c <> AList l r) -> S1 (under c).1 -> S3 c.
Proof.
  intros Hw Hnl H n s ts Hts Hst Hn Hs. destruct n as [|n]; [lia|]. destruct (under c) as [b k] eqn:E.
  destruct (under_spec c b k E) as (Ec & _ & Et & _ & Hwb). destruct (stop3_1 ts Hst) as (Hst1 & Hamp & Hsemi).
  assert (E3 : toks c 3 = toks c 2) by (destruct c; try done; by destruct (Hnl c1 c2)).
  rewrite E3, Et, <- app_assoc in Hs. cbn [parseline].
  destruct (line_R b k n s ts (fun c => b ← peek [SEMI]; if b : bool then gettoken;; r ← parseline n; mret (LIST c r) else mret c)
    (Hwb Hw) H Hts Hst1 Hamp ltac:(lia) Hs) as (C & EC & Ha). rewrite EC. exists C. split; [|by rewrite Ha].
  rewrite (M_bind_Ok _ _ _ _ _ (peek_R _ _ _ Hts (R_idem ts))). by rewrite Hsemi.
Qed.

Lemma S3_list l r : wf l -> wf r -> S1 (under l).1 -> S3 r -> S3 (AList l r).
Proof.
  intros Hl Hr H H3 n s ts Hts Hst Hn Hs. destruct n as [|n]; [lia|]. destruct (under l) as [b k] eqn:E.
  destruct (under_spec l b k E) as (Ec & _ & Et & _ & Hwb).
  change (toks (AList l r) 3) with (toks l 2 ++ [SEMI] :: toks r 3) in Hs. rewrite Et, <- !app_assoc in Hs. cbn [app] in Hs.
  set (us := [SEMI] :: toks r 3 ++ ts) in *.
  assert (Hus : Forall tok_ok us) by (constructor; [apply sym_ok; set_solver|apply Forall_app; split; [by apply toks_ok|done]]).
  cbn [parseline].
  destruct (line_R b k n s us (fun c => b ← peek [SEMI]; if b : bool then gettoken;; r ← parseline n; mret (LIST c r) else mret c)
    (Hwb Hl) H Hus ltac:(split; [by right|done]) ltac:(done) ltac:(lia) Hs) as (C & EC & Ha). rewrite EC.
  rewrite (M_bind_Ok _ _ _ _ _ (peek_R _ _ _ Hus (R_idem us))). change (hd_in [SEMI] us) with true. cbv iota.
  rewrite (M_bind_Ok _ _ _ _ _ (gettoken_R [SEMI] (toks r 3 ++ ts) _ ltac:(apply sym_ok; set_solver) (R_idem us))).
  pose proof (state_length s _ Hs) as Hls. rewrite app_assoc in Hls.
  pose proof (R_length (toks b 1 ++ replicate k [AMP]) us ltac:(rewrite <- Et; by apply toks_ok)) as HR.
  pose proof (R_length [[SEMI]] (toks r 3 ++ ts) ltac:(constructor; [apply sym_ok; set_solver|constructor])) as HR2. cbn [app length] in HR2. fold us in HR2.
  destruct (H3 n (R (toks r 3 ++ ts)) ts Hts Hst ltac:(lia) (R_idem _)) as (C2 & Ec2 & Ha2). rewrite (M_bind_Ok _ _ _ _ _ Ec2).
  exists (LIST C C2). split; [done|]. cbn. by rewrite Ha, Ha2, <- Ec.
Qed.

(** A block with redirections. *)
Lemma S0_block b rs : wf b -> Forall (fun r => word r.1) rs -> toks b 0 = [LPAR] :: toks b 3 ++ [[RPAR]] ->
  toks (awrap b rs) 0 = toks b 0 ++ rts rs -> S3 b -> S0 (awrap b rs).
Proof.
  intros Hb Hrs Eb Et H3 n s ts Hts Hst Hn Hs. rewrite Et, Eb in Hs. cbn [app] in Hs. rewrite <- !app_assoc in Hs. cbn [app] in Hs.
  set (vs := [RPAR] :: rts rs ++ ts) in *. set (us := [LPAR] :: toks b 3 ++ vs) in *.
  assert (Hvs : Forall tok_ok vs) by (constructor; [apply sym_ok; set_solver|apply Forall_app; split; [by apply rts_ok|done]]).
  assert (Hus : Forall tok_ok us) by (constructor; [apply sym_ok; set_solver|apply Forall_app; split; [by apply toks_ok|done]]).
  pose proof (state_length s _ Hs) as Hls.
  pose proof (R_length [[LPAR]] (toks b 3 ++ vs) ltac:(constructor; [apply sym_ok; set_solver|constructor])) as HR. cbn [app length] in HR. fold us in HR.
  pose proof (R_length (rts rs) ts (rts_ok rs Hrs)) as HR2. pose proof (rts_length rs) as Hrl.
  destruct n as [|[|n]]; [lia|lia|]. cbn [parseexec parseblock]. rewrite (M_bind_Ok _ _ _ _ _ (peek_R _ _ s Hus Hs)).
  change (hd_in [LPAR] us) with true. cbv iota. rewrite (M_bind_Ok _ _ _ _ _ (peek_R _ _ _ Hus (R_idem us))).
  change (negb (hd_in [LPAR] us)) with false. cbv iota.
  rewrite (M_bind_Ok _ _ _ _ _ (gettoken_R [LPAR] (toks b 3 ++ vs) _ ltac:(apply sym_ok; set_solver) (R_idem us))).
  destruct (H3 n (R (toks b 3 ++ vs)) vs Hvs ltac:(by right) ltac:(lia) (R_idem _)) as (C & Ec & Ha). rewrite (M_bind_Ok _ _ _ _ _ Ec).
  rewrite (M_bind_Ok _ _ _ _ _ (peek_R _ _ _ Hvs (R_idem vs))). change (negb (hd_in [RPAR] vs)) with false. cbv iota.
  rewrite (M_bind_Ok _ _ _ _ _ (gettoken_R [RPAR] (rts rs ++ ts) _ ltac:(apply sym_ok; set_solver) (R_idem vs))). unfold parseredirs.
  destruct (redirs_R rs (S (length (R (rts rs ++ ts)))) C (R (rts rs ++ ts)) ts Hrs Hts (stop_no_redir ts Hst)) as (ps & E & Hps); [lia|apply R_idem|].
  rewrite E. exists (wraps C ps). split; [done|]. by rewrite (abs_wraps rs ps), Ha.
Qed.

(** The command under the redirections. *)
Lemma redir_base c : wf c ->
  exists b rs, c = awrap b rs /\ (forall x f k, b <> ARedir x f k) /\ toks c 0 = toks b 0 ++ rts rs /\
    Forall (fun r => word r.1) rs /\ wf b /\ (size b + length rs <= size c)%nat.
Proof.
  induction c as [args|c IH f k|l IHl r IHr|l IHl r IHr|c IH]; intros Hw.
  2:{ destruct Hw as [Hw Hf]. destruct (IH Hw) as (b & rs & -> & H2 & H3 & H4 & H5 & H6). exists b, (rs ++ [(f, k)]). split_and!; [|done| | |done|].
      - unfold awrap. by rewrite foldl_app.
      - change (toks (ARedir (awrap b rs) f k) 0) with (toks (awrap b rs) 0 ++ [op k; f]). rewrite H3, <- app_assoc. f_equal.
        unfold rts. rewrite fmap_app, join_app. done.
      - apply Forall_app. split; [done|]. by constructor.
      - rewrite length_app. cbn in *. lia. }
  all: eexists _, []; split_and!; [reflexivity|done|by rewrite app_nil_r|constructor|done|cbn; lia].
Qed.

Lemma parser_inverts c : wf c -> S0 c /\ S1 c /\ S3 c.
Proof.
  remember (size c) as m eqn:Hm. revert c Hm. induction m as [m IH] using lt_wf_ind. intros c -> Hw.
  assert (IHc : forall d, (size d < size c)%nat -> wf d -> S0 d /\ S1 d /\ S3 d) by (intros d Hd; by apply (IH (size d) Hd)). clear IH.
  destruct c as [args|c f k|l r|l r|c].
  - assert (H0 : S0 (AExec args)).
    { intros n s ts Hts Hst Hn Hs. destruct Hw as [Hw H10]. destruct n as [|n]; [lia|]. unfold MAXARGS in H10.
      destruct (parseexec_simple args [] n s ts Hw ltac:(lia) ltac:(constructor) Hts Hst Hs) as (C & E & Ha). by exists C. }
    pose proof (S0_S1 _ Hw eq_refl H0) as H1. split_and!; [done|done|]. by apply S3_line.
  - assert (H0 : S0 (ARedir c f k)).
    { destruct (redir_base (ARedir c f k) Hw) as (b & rs & E & Hb & Et & Hrs & Hwb & Hsz). rewrite E in *.
      destruct rs as [|r rs]; [by destruct (Hb c f k)|]. cbn [length] in Hsz. destruct (IHc b ltac:(lia) Hwb) as (_ & _ & H3).
      destruct b as [args|x f' k'|l' r'|l' r'|x]; [|by destruct (Hb x f' k')|by apply S0_block..].
      intros n s ts Hts Hst Hn Hs. destruct Hwb as [Hwa H10]. destruct n as [|n]; [lia|]. rewrite Et, <- app_assoc in Hs. unfold MAXARGS in H10.
      apply (parseexec_simple args (r :: rs) n s ts); try done; lia. }
    pose proof (S0_S1 _ Hw eq_refl H0) as H1. split_and!; [done|done|]. by apply S3_line.
  - destruct Hw as [Hl Hr]. destruct (IHc l ltac:(cbn; lia) Hl) as (L0 & _). destruct (IHc r ltac:(cbn; lia) Hr) as (_ & R1 & _).
    pose proof (S1_pipe l r Hl Hr L0 R1) as H1. assert (H3 : S3 (APipe l r)) by (by apply S3_line).
    split_and!; [|done|done]. apply (S0_block (APipe l r) []); [done|constructor|done|by rewrite app_nil_r|done].
  - destruct Hw as [Hl Hr]. destruct (IHc r ltac:(cbn; lia) Hr) as (_ & _ & R3).
    assert (L1 : S1 (under l).1).
    { destruct (under l) as [b k] eqn:E. destruct (under_spec l b k E) as (_ & _ & _ & Hsz & Hwb). apply (IHc b); [cbn; lia|by apply Hwb]. }
    pose proof (S3_list l r Hl Hr L1 R3) as H3.
    assert (H0 : S0 (AList l r)) by (apply (S0_block (AList l r) []); [done|constructor|done|by rewrite app_nil_r|done]).
    split_and!; [done|by apply S0_S1|done].
  - assert (L1 : S1 (under (ABack c)).1).
    { cbn [under]. destruct (under c) as [b k] eqn:E. destruct (under_spec c b k E) as (_ & _ & _ & Hsz & Hwb). apply (IHc b); [cbn; lia|by apply Hwb]. }
    assert (H3 : S3 (ABack c)) by (by apply S3_line).
    assert (H0 : S0 (ABack c)) by (apply (S0_block (ABack c) []); [done|constructor|done|by rewrite app_nil_r|done]).
    split_and!; [done|by apply S0_S1|done].
Qed.

Lemma print_no_0 c : wf c -> Forall (fun x => x <> 0) (print c).
Proof.
  intros Hw. unfold print. pose proof (toks_ok c 3 Hw) as H. induction H as [|t ts Ht H IH]; [constructor|].
  rewrite rend_cons. constructor; [done|]. apply Forall_app. split; [|done]. destruct Ht as [[_ Ht]|Ht].
  - eapply Forall_impl; [done|]. by intros x [_ ?].
  - repeat (apply elem_of_cons in Ht as [->|Ht]; [repeat constructor; done|]). by apply not_elem_of_nil in Ht.
Qed.

(** C32: The parser inverts printing: for every well-formed command, [parsecmd] of
    its text succeeds, and the command it returns, with its words read as C
    strings from the line after [nulterminate], is that command. *)
Theorem parsecmd_print c (Hc : wf c) : exists C buf, parsecmd (print c) = Ok (C, buf) /\ abs (cstr buf) C = c.
Proof.
  destruct (parser_inverts c Hc) as (_ & _ & H3). pose proof (print_no_0 c Hc) as H0.
  destruct (H3 (4 * length (print c) + 4)%nat (print c) [] ltac:(constructor) ltac:(by left) ltac:(lia)) as (C & E & Ha).
  { unfold print. by rewrite app_nil_r. }
  destruct (parser_fine (print c) H0 (4 * length (print c) + 4)) as (Hf & _).
  specialize (Hf (print c) ltac:(lia) ltac:(by exists [])). rewrite E in Hf. destruct Hf as (_ & _ & Hg).
  destruct (terminated (print c) C Hg) as (buf & En & Hb). exists C, buf. split; [|by rewrite Hb].
  unfold parsecmd. rewrite E, bind_ok. cbv beta iota. change (peek [] (R [])) with (@Ok (bool * str) (false, [])). rewrite bind_ok.
  cbn [negb length Nat.eqb]. by rewrite En.
Qed.

(** [( ls -l | wc ) > f & ; cat < f] *)
Definition demo_cmd : acmd :=
  AList (ABack (ARedir (APipe (AExec [[108; 115]; [45; 108]]) (AExec [[119; 99]])) [102] ROut)) (ARedir (AExec [[99; 97; 116]]) [102] RIn).

Lemma demo_cmd_wf : wf demo_cmd.
Proof. cbn. unfold word, MAXARGS. repeat split; try done; repeat constructor; try done; cbn; try lia. Qed.

Lemma parsecmd_print_witness : exists C buf, parsecmd (print demo_cmd) = Ok (C, buf) /\ abs (cstr buf) C = demo_cmd.
Proof. exact (parsecmd_print demo_cmd demo_cmd_wf). Defined.

