(* ===== verification/Riscv.v ===== *)
(** * Address arithmetic (kernel/riscv.h, kernel/memlayout.h)

    The macros on addresses and page table entries, on 64-bit words, and the
    facts about them the components share. *)

From S2P Require Import Prelude.

Definition PGSIZE : Z := 4096.
Definition PGSHIFT : Z := 12.

Definition PGROUNDUP (sz : Z) : Z := Z.land (u64 (sz + PGSIZE - 1)) (Z.lnot (PGSIZE - 1)).
Definition PGROUNDDOWN (a : Z) : Z := Z.land a (Z.lnot (PGSIZE - 1)).

Definition PTE_V : Z := Z.shiftl 1 0.
Definition PTE_R : Z := Z.shiftl 1 1.
Definition PTE_W : Z := Z.shiftl 1 2.
Definition PTE_X : Z := Z.shiftl 1 3.
Definition PTE_U : Z := Z.shiftl 1 4.

Definition PA2PTE (pa : Z) : Z := u64 (Z.shiftl (Z.shiftr pa 12) 10).
Definition PTE2PA (pte : Z) : Z := u64 (Z.shiftl (Z.shiftr pte 10) 12).
Definition PTE_FLAGS (pte : Z) : Z := Z.land pte 0x3FF.

Definition PXMASK : Z := 0x1FF.
Definition PXSHIFT (level : Z) : Z := PGSHIFT + 9 * level.
Definition PX (level va : Z) : Z := Z.land (Z.shiftr va (PXSHIFT level)) PXMASK.

Definition MAXVA : Z := Z.shiftl 1 (9 + 9 + 9 + 12 - 1).

Definition UART0 : Z := 0x10000000.
Definition VIRTIO0 : Z := 0x10001000.
Definition CLINT : Z := 0x2000000.
Definition PLIC : Z := 0x0c000000.
Definition KERNBASE : Z := 0x80000000.
Definition PHYSTOP : Z := KERNBASE + 128 * 1024 * 1024.
Definition TRAMPOLINE : Z := MAXVA - PGSIZE.
Definition KSTACK (p : Z) : Z := TRAMPOLINE - (p + 1) * 2 * PGSIZE.
Definition TRAPFRAME : Z := TRAMPOLINE - PGSIZE.

(** Linear arithmetic over the constants above. *)
Ltac mlia := unfold PGSIZE, PHYSTOP, KERNBASE in *; try change MAXVA with (2 ^ 38) in *; lia.

(** ** Masks as arithmetic *)

Lemma land_mask a : 0 <= a -> Z.land a (Z.lnot (PGSIZE - 1)) = a - a mod PGSIZE.
Proof.
  intros Ha. rewrite <- Z.ldiff_land. change (PGSIZE - 1) with (Z.ones 12).
  rewrite Z.ldiff_ones_r, Z.shiftr_div_pow2, Z.shiftl_mul_pow2 by lia.
  change (2 ^ 12) with PGSIZE. unfold PGSIZE. pose proof (Z.div_mod a 4096). lia.
Qed.

Lemma PGROUNDDOWN_spec a : 0 <= a -> PGROUNDDOWN a = a - a mod PGSIZE.
Proof. apply land_mask. Qed.

Lemma PGROUNDDOWN_le a : 0 <= a -> PGROUNDDOWN a <= a < PGROUNDDOWN a + PGSIZE.
Proof. intros Ha. rewrite PGROUNDDOWN_spec by done. pose proof (Z.mod_pos_bound a PGSIZE). unfold PGSIZE in *. lia. Qed.

Lemma PGROUNDDOWN_aligned a : 0 <= a -> PGROUNDDOWN a mod PGSIZE = 0.
Proof.
  intros Ha. rewrite PGROUNDDOWN_spec by done. rewrite Zminus_mod, Z.mod_mod, Z.sub_diag; done.
Qed.

Lemma PGROUNDDOWN_id a : 0 <= a -> a mod PGSIZE = 0 -> PGROUNDDOWN a = a.
Proof. intros Ha E. rewrite PGROUNDDOWN_spec, E by done. lia. Qed.

Lemma PGROUNDUP_spec sz :
  0 <= sz -> sz + PGSIZE - 1 < 2 ^ 64 ->
  sz <= PGROUNDUP sz < sz + PGSIZE /\ PGROUNDUP sz mod PGSIZE = 0.
Proof.
  intros H1 H2. unfold PGROUNDUP. rewrite u64_small by (unfold PGSIZE in *; lia).
  change (Z.land ?a _) with (PGROUNDDOWN a). split; [|apply PGROUNDDOWN_aligned; unfold PGSIZE; lia].
  pose proof (PGROUNDDOWN_le (sz + PGSIZE - 1)). unfold PGSIZE in *. lia.
Qed.

Lemma PGROUNDUP_id sz : 0 <= sz -> sz + PGSIZE - 1 < 2 ^ 64 -> sz mod PGSIZE = 0 -> PGROUNDUP sz = sz.
Proof.
  intros H1 H2 E. destruct (PGROUNDUP_spec sz H1 H2) as [H3 H4]. unfold PGSIZE in *.
  apply Z.mod_divide in E as [p ->]; [|done]. apply Z.mod_divide in H4 as [q Hq]; [|done]. lia.
Qed.

Lemma PX_spec level va : 0 <= level -> 0 <= va -> PX level va = (va / 2 ^ (12 + 9 * level)) mod 512.
Proof.
  intros Hl Hv. unfold PX, PXSHIFT, PGSHIFT. rewrite Z.shiftr_div_pow2 by lia.
  change PXMASK with (Z.ones 9). by rewrite Z.land_ones by lia.
Qed.

Lemma PX_range level va : 0 <= PX level va < 512.
Proof. unfold PX. change PXMASK with (Z.ones 9). rewrite Z.land_ones by lia. by apply Z.mod_pos_bound. Qed.

(** A page aligned physical address fits in an entry, with room for flags. *)
Lemma PTE2PA_PA2PTE pa fl :
  0 <= pa < 2 ^ 56 -> pa mod PGSIZE = 0 -> 0 <= fl < 1024 -> PTE2PA (PA2PTE pa + fl) = pa.
Proof.
  intros Hpa Ha Hf. unfold PTE2PA, PA2PTE. rewrite !Z.shiftr_div_pow2, !Z.shiftl_mul_pow2 by lia.
  apply Z.mod_divide in Ha as [q ->]; [|done]. unfold PGSIZE in *.
  change (2 ^ 12) with 4096. rewrite Z.div_mul by lia. rewrite (u64_small (q * _)) by lia.
  change (2 ^ 10) with 1024. rewrite Z.div_add_l, (Z.div_small fl), Z.add_0_r by lia.
  apply u64_small. lia.
Qed.

Lemma PA2PTE_range pa : 0 <= pa < 2 ^ 56 -> 0 <= PA2PTE pa < 2 ^ 54 /\ PA2PTE pa mod 1024 = 0.
Proof.
  intros Hpa. unfold PA2PTE. rewrite Z.shiftr_div_pow2, Z.shiftl_mul_pow2 by lia.
  assert (0 <= pa / 2 ^ 12 < 2 ^ 44) by (split; [apply Z.div_pos; lia|apply Z.div_lt_upper_bound; lia]).
  rewrite u64_small by lia. split; [lia|]. apply Z.mod_mul. lia.
Qed.

(** The disjoint sum of an address field and flags. *)
Lemma lor_flags x fl : 0 <= x -> x mod 1024 = 0 -> 0 <= fl < 1024 -> Z.lor x fl = x + fl.
Proof.
  intros Hx E Hf. apply Z.mod_divide in E as [q ->]; [|done].
  rewrite Z.add_nocarry_lxor; [symmetry; apply Z.lxor_lor|].
  all: change (q * 1024) with (q * 2 ^ 10); rewrite <- Z.shiftl_mul_pow2 by lia;
    apply Z.bits_inj'; intros n Hn; rewrite Z.land_spec, Z.bits_0;
    destruct (Z.ltb_spec n 10);
    [rewrite Z.shiftl_spec_low by lia; done|].
  all: rewrite (Z.bits_above_log2 fl); [apply andb_false_r|lia|];
    destruct (Z.eq_dec fl 0) as [->|]; [cbn; lia|]; apply Z.log2_lt_pow2; [lia|];
    apply Z.lt_le_trans with (2 ^ 10); [lia|]; apply Z.pow_le_mono_r; lia.
Qed.
