(* ===== verification/Mem.v ===== *)
(** * Memory and kernel/string.c

    Physical memory is a map from addresses to bytes, total by the default 0:
    the kernel runs with all of RAM mapped.  Multi-byte accesses are
    little-endian.  Then one definition per function of kernel/string.c; a
    [char] is unsigned, as in the RISC-V ABI. *)

From stdpp Require Import gmap.
From S2P Require Import Prelude.

Notation mem := (gmap Z Z).

Definition ldb (m : mem) (a : Z) : Z := default 0 (m !! a).
Definition stb (m : mem) (a v : Z) : mem := <[a := u8 v]> m.

Lemma ldb_stb m a v b : ldb (stb m a v) b = if b =? a then u8 v else ldb m b.
Proof.
  unfold ldb, stb. destruct (Z.eqb_spec b a) as [->|Hne].
  - by rewrite lookup_insert_eq.
  - by rewrite lookup_insert_ne.
Qed.

(** All bytes are bytes. *)
Definition mem_ok (m : mem) : Prop := forall a, 0 <= ldb m a < 256.

Lemma stb_ok m a v : mem_ok m -> mem_ok (stb m a v).
Proof. intros H b. rewrite ldb_stb. destruct (b =? a); [apply u8_range|done]. Qed.

(** ** Words *)

Fixpoint ld (k : nat) (m : mem) (a : Z) : Z :=
  match k with
  | O => 0
  | S k' => ldb m a + 256 * ld k' m (a + 1)
  end.

Fixpoint st (k : nat) (m : mem) (a v : Z) : mem :=
  match k with
  | O => m
  | S k' => st k' (stb m a v) (a + 1) (v / 256)
  end.

Definition ld64 : mem -> Z -> Z := ld 8.
Definition st64 : mem -> Z -> Z -> mem := st 8.

Lemma ld_range k m a : mem_ok m -> 0 <= ld k m a < 256 ^ Z.of_nat k.
Proof.
  intros H. revert a. induction k as [|k IH]; intros a; cbn [ld]; [cbn; lia|].
  rewrite Nat2Z.inj_succ, Z.pow_succ_r by lia. specialize (IH (a + 1)). specialize (H a). nia.
Qed.

Lemma ld_ext k m m' a : (forall b, a <= b < a + Z.of_nat k -> ldb m' b = ldb m b) -> ld k m' a = ld k m a.
Proof.
  revert a. induction k as [|k IH]; intros a H; cbn [ld]; [done|].
  rewrite (H a), IH; [done| |lia]. intros b Hb. apply H. lia.
Qed.

Lemma ldb_st_out k m a v b : ~ (a <= b < a + Z.of_nat k) -> ldb (st k m a v) b = ldb m b.
Proof.
  revert m a v. induction k as [|k IH]; intros m a v Hb; cbn [st]; [done|].
  rewrite IH by lia. rewrite ldb_stb. destruct (Z.eqb_spec b a); [lia|done].
Qed.

Lemma st_ok k m a v : mem_ok m -> mem_ok (st k m a v).
Proof. revert m a v. induction k as [|k IH]; intros m a v H; cbn [st]; [done|]. by apply IH, stb_ok. Qed.

Lemma ld_st_eq k m a v : ld k (st k m a v) a = v mod 256 ^ Z.of_nat k.
Proof.
  revert m a v. induction k as [|k IH]; intros m a v; cbn [ld st]; [by rewrite Z.mod_1_r|].
  rewrite IH, ldb_st_out by lia. rewrite ldb_stb, Z.eqb_refl. unfold u8.
  rewrite Nat2Z.inj_succ, Z.pow_succ_r by lia.
  rewrite Z.rem_mul_r by lia. done.
Qed.

Lemma ld_st_ne k m a v b :
  b + Z.of_nat k <= a \/ a + Z.of_nat k <= b -> ld k (st k m a v) b = ld k m b.
Proof. intros H. apply ld_ext. intros c Hc. apply ldb_st_out. lia. Qed.

Lemma st64_ok m a v : mem_ok m -> mem_ok (st64 m a v).
Proof. apply st_ok. Qed.

Lemma ld64_range m a : mem_ok m -> 0 <= ld64 m a < 2 ^ 64.
Proof. intros H. apply (ld_range 8 m a H). Qed.

Lemma ld64_st64 m a v : 0 <= v < 2 ^ 64 -> ld64 (st64 m a v) a = v.
Proof. intros H. unfold ld64, st64. rewrite ld_st_eq. by apply Z.mod_small. Qed.

Lemma ld64_st64_ne m a v b : b + 8 <= a \/ a + 8 <= b -> ld64 (st64 m a v) b = ld64 m b.
Proof. apply (ld_st_ne 8). Qed.

(** ** kernel/string.c *)

Fixpoint memset_from (n : nat) (dst c : Z) (m : mem) : mem :=
  match n with
  | O => m
  | S n' => memset_from n' (dst + 1) c (stb m dst c)
  end.

Definition memset (dst c n : Z) (m : mem) : mem := memset_from (Z.to_nat n) dst c m.

Fixpoint memcmp_from (n : nat) (s1 s2 : Z) (m : mem) : Z :=
  match n with
  | O => 0
  | S n' =>
      if negb (ldb m s1 =? ldb m s2) then ldb m s1 - ldb m s2
      else memcmp_from n' (s1 + 1) (s2 + 1) m
  end.

Definition memcmp (v1 v2 n : Z) (m : mem) : Z := memcmp_from (Z.to_nat n) v1 v2 m.

(** [while(n-- > 0) *--d = *--s;] *)
Fixpoint copy_down (n : nat) (d s : Z) (m : mem) : mem :=
  match n with
  | O => m
  | S n' => copy_down n' (d - 1) (s - 1) (stb m (d - 1) (ldb m (s - 1)))
  end.

(** [while(n-- > 0) *d++ = *s++;] *)
Fixpoint copy_up (n : nat) (d s : Z) (m : mem) : mem :=
  match n with
  | O => m
  | S n' => copy_up n' (d + 1) (s + 1) (stb m d (ldb m s))
  end.

Definition memmove (dst src n : Z) (m : mem) : mem :=
  if n =? 0 then m else
  if (src <? dst) && (dst <? src + n) then copy_down (Z.to_nat n) (dst + n) (src + n) m
  else copy_up (Z.to_nat n) dst src m.

Definition memcpy (dst src n : Z) (m : mem) : mem := memmove dst src n m.

Fixpoint strncmp_from (n : nat) (p q : Z) (m : mem) : Z :=
  match n with
  | O => 0
  | S n' =>
      if negb (ldb m p =? 0) && (ldb m p =? ldb m q) then strncmp_from n' (p + 1) (q + 1) m
      else ldb m p - ldb m q
  end.

Definition strncmp (p q n : Z) (m : mem) : Z := strncmp_from (Z.to_nat n) p q m.

(** [while(n-- > 0) *s++ = 0;] *)
Fixpoint pad_zero (n : nat) (s : Z) (m : mem) : mem :=
  match n with
  | O => m
  | S n' => pad_zero n' (s + 1) (stb m s 0)
  end.

(** [while(n-- > 0 && ( *s++ = *t++) != 0);] and then the padding. *)
Fixpoint strncpy_from (n : nat) (s t : Z) (m : mem) : mem :=
  match n with
  | O => m
  | S n' =>
      let c := ldb m t in
      let m := stb m s c in
      if c =? 0 then pad_zero n' (s + 1) m else strncpy_from n' (s + 1) (t + 1) m
  end.

Definition strncpy (s t n : Z) (m : mem) : mem := strncpy_from (Z.to_nat n) s t m.

(** [while(--n > 0 && ( *s++ = *t++) != 0); *s = 0;] with [k] the value of
    [n - 1]. *)
Fixpoint safestrcpy_from (k : nat) (s t : Z) (m : mem) : mem :=
  match k with
  | O => stb m s 0
  | S k' =>
      let c := ldb m t in
      let m := stb m s c in
      if c =? 0 then stb m (s + 1) 0 else safestrcpy_from k' (s + 1) (t + 1) m
  end.

Definition safestrcpy (s t n : Z) (m : mem) : mem :=
  if n <=? 0 then m else safestrcpy_from (Z.to_nat (n - 1)) s t m.

(** [for(n = 0; s[n]; n++);] *)
Fixpoint strlen_from (fuel : nat) (s n : Z) (m : mem) : res Z :=
  match fuel with
  | O => Hang
  | S k => if ldb m (s + n) =? 0 then Ok n else strlen_from k s (n + 1) m
  end.

Definition strlen (fuel : nat) (s : Z) (m : mem) : res Z := strlen_from fuel s 0 m.

Arguments ld64 : simpl never.
Arguments st64 : simpl never.
Arguments memset : simpl never.
Arguments memmove : simpl never.

(** ** Specifications *)

Ltac ldb_cases :=
  repeat (rewrite ldb_stb || case_decide ||
    match goal with |- context [?a =? ?b] => destruct (Z.eqb_spec a b) end); subst; try lia.

Lemma memset_from_spec n dst c m a :
  ldb (memset_from n dst c m) a = if decide (dst <= a < dst + Z.of_nat n) then u8 c else ldb m a.
Proof.
  revert dst m. induction n as [|n IH]; intros dst m; cbn [memset_from]; [ldb_cases; done|].
  rewrite IH. ldb_cases; done.
Qed.

Lemma memset_spec dst c n m a :
  0 <= n -> ldb (memset dst c n m) a = if decide (dst <= a < dst + n) then u8 c else ldb m a.
Proof. intros Hn. unfold memset. by rewrite memset_from_spec, Z2Nat.id. Qed.

Lemma memset_ok dst c n m : mem_ok m -> mem_ok (memset dst c n m).
Proof.
  intros H a. unfold memset. rewrite memset_from_spec. case_decide; [apply u8_range|apply H].
Qed.

Lemma copy_up_spec n d s m a :
  mem_ok m -> d <= s \/ s + Z.of_nat n <= d ->
  ldb (copy_up n d s m) a = if decide (d <= a < d + Z.of_nat n) then ldb m (s + (a - d)) else ldb m a.
Proof.
  revert d s m. induction n as [|n IH]; intros d s m Hm Ho; cbn [copy_up]; [ldb_cases; done|].
  rewrite IH by (auto using stb_ok || lia).
  case_decide; rewrite ldb_stb.
  - destruct (Z.eqb_spec (s + 1 + (a - (d + 1))) d); rewrite decide_True by lia.
    + exfalso. lia.
    + f_equal. lia.
  - destruct (Z.eqb_spec a d) as [->|].
    + rewrite decide_True by lia. rewrite u8_small by apply Hm. f_equal. lia.
    + rewrite decide_False by lia. done.
Qed.

Lemma copy_down_spec n d s m a :
  mem_ok m -> s <= d \/ d <= s - Z.of_nat n ->
  ldb (copy_down n d s m) a =
    if decide (d - Z.of_nat n <= a < d) then ldb m (s - (d - a)) else ldb m a.
Proof.
  revert d s m. induction n as [|n IH]; intros d s m Hm Ho; cbn [copy_down]; [ldb_cases; done|].
  rewrite IH by (auto using stb_ok || lia). case_decide; rewrite ldb_stb.
  - destruct (Z.eqb_spec (s - 1 - (d - 1 - a)) (d - 1)); rewrite decide_True by lia.
    + exfalso. lia.
    + f_equal. lia.
  - destruct (Z.eqb_spec a (d - 1)) as [->|].
    + rewrite decide_True by lia. rewrite u8_small by apply Hm. f_equal. lia.
    + rewrite decide_False by lia. done.
Qed.

Lemma memmove_spec dst src n m a :
  mem_ok m -> 0 <= n ->
  ldb (memmove dst src n m) a = if decide (dst <= a < dst + n) then ldb m (src + (a - dst)) else ldb m a.
Proof.
  intros Hm Hn. unfold memmove. destruct (Z.eqb_spec n 0) as [->|Hn0]; [by rewrite decide_False by lia|].
  destruct (Z.ltb_spec src dst); destruct (Z.ltb_spec dst (src + n)); cbn [andb].
  all: first [rewrite copy_down_spec by (done || lia) | rewrite copy_up_spec by (done || lia)];
    rewrite Z2Nat.id by lia; repeat case_decide; done || lia || (f_equal; lia).
Qed.

Lemma memmove_ok dst src n m : mem_ok m -> 0 <= n -> mem_ok (memmove dst src n m).
Proof. intros Hm Hn a. rewrite memmove_spec by done. case_decide; apply Hm. Qed.

(** The string at [t] has length [k]. *)
Definition cstr (m : mem) (t k : Z) : Prop :=
  0 <= k /\ ldb m (t + k) = 0 /\ forall i, 0 <= i < k -> ldb m (t + i) <> 0.

Lemma strlen_from_spec fuel s n m k :
  cstr m s k -> 0 <= n <= k -> (Z.to_nat (k - n) < fuel)%nat -> strlen_from fuel s n m = Ok k.
Proof.
  intros (Hk & H0 & Hi). revert n. induction fuel as [|fuel IH]; intros n Hn Hf; [lia|]. cbn.
  destruct (Z.eqb_spec (ldb m (s + n)) 0) as [E|E].
  - destruct (Z.eq_dec n k) as [->|]; [done|]. exfalso. apply (Hi n); [lia|done].
  - destruct (Z.eq_dec n k) as [->|]; [done|]. apply IH; lia.
Qed.

Lemma strlen_spec fuel s m k : cstr m s k -> (Z.to_nat k < fuel)%nat -> strlen fuel s m = Ok k.
Proof. intros H Hf. destruct H as (Hk & H). apply strlen_from_spec; [by split|lia|]. by rewrite Z.sub_0_r. Qed.

Lemma pad_zero_spec n s m a :
  ldb (pad_zero n s m) a = if decide (s <= a < s + Z.of_nat n) then 0 else ldb m a.
Proof.
  revert s m. induction n as [|n IH]; intros s m; cbn [pad_zero]; [ldb_cases; done|].
  rewrite IH. ldb_cases; done.
Qed.

(** Storing a byte away from a string. *)
Lemma cstr_stb m t k s v : cstr m t k -> s < t \/ t + k < s -> cstr (stb m s v) t k.
Proof.
  intros (Hk & H0 & Hi) Ho. split; [done|]. split; [|intros i Hr; specialize (Hi i Hr)].
  all: rewrite ldb_stb; case_match; [lia|done].
Qed.

Lemma cstr_tail m t k : cstr m t k -> ldb m t <> 0 -> 0 < k /\ cstr m (t + 1) (k - 1).
Proof.
  intros (Hk & H0 & Hi) Hne. assert (0 < k).
  { destruct (Z.eq_dec k 0) as [->|]; [|lia]. by rewrite Z.add_0_r in H0. }
  split; [done|]. split; [lia|]. split; [by replace (t + 1 + (k - 1)) with (t + k) by lia|].
  intros i Hr. replace (t + 1 + i) with (t + (i + 1)) by lia. apply Hi. lia.
Qed.

Lemma cstr_nil m t k : cstr m t k -> ldb m t = 0 -> k = 0.
Proof.
  intros (Hk & H0 & Hi) E. destruct (Z.eq_dec k 0); [done|]. exfalso. apply (Hi 0); [lia|].
  by rewrite Z.add_0_r.
Qed.

(** The first [n] bytes of [strncpy]: the string, then zeros. *)
Lemma strncpy_from_spec n s t m k a :
  mem_ok m -> cstr m t k -> s + Z.of_nat n <= t \/ t + k < s ->
  ldb (strncpy_from n s t m) a =
    if decide (s <= a < s + Z.of_nat n)
    then if decide (a - s < k) then ldb m (t + (a - s)) else 0 else ldb m a.
Proof.
  revert s t m k. induction n as [|n IH]; intros s t m k Hm Hc Ho; cbn [strncpy_from].
  { by rewrite decide_False by lia. }
  destruct (Z.eqb_spec (ldb m t) 0) as [E|E].
  - apply cstr_nil in Hc as ->; [|done]. rewrite pad_zero_spec, ldb_stb, E.
    repeat case_decide; try (done || lia). all: destruct (Z.eqb_spec a s); done || lia.
  - destruct (cstr_tail _ _ _ Hc E) as [Hk Hc'].
    rewrite (IH _ _ _ (k - 1)); [|by apply stb_ok|apply cstr_stb; [done|lia]|lia].
    rewrite !ldb_stb. repeat case_decide; try lia.
    + destruct (Z.eqb_spec (t + 1 + (a - (s + 1))) s); [lia|]. f_equal. lia.
    + destruct (Z.eqb_spec a s); [|lia]. subst. rewrite u8_small by apply Hm. f_equal. lia.
    + destruct (Z.eqb_spec a s); [lia|done].
Qed.

Lemma safestrcpy_from_spec n s t m k :
  mem_ok m -> cstr m t k -> s + Z.of_nat n < t \/ t + k < s ->
  let m' := safestrcpy_from n s t m in
  cstr m' s (Z.min k (Z.of_nat n)) /\
  (forall i, 0 <= i < Z.min k (Z.of_nat n) -> ldb m' (s + i) = ldb m (t + i)) /\
  (forall a, ~ (s <= a <= s + Z.of_nat n) -> ldb m' a = ldb m a).
Proof.
  revert s t m k. induction n as [|n IH]; intros s t m k Hm Hc Ho; cbn [safestrcpy_from] in *.
  { destruct Hc as [Hk _]. rewrite Z.min_r by lia. split; [split; [done|split; [|lia]]|split; [lia|]].
    - by rewrite Z.add_0_r, ldb_stb, Z.eqb_refl.
    - intros a Ha. rewrite ldb_stb. destruct (Z.eqb_spec a s); [lia|done]. }
  destruct (Z.eqb_spec (ldb m t) 0) as [E|E].
  - apply cstr_nil in Hc as ->; [|done]. rewrite Z.min_l by lia. rewrite E.
    split; [split; [done|split; [|lia]]|split; [lia|]].
    + rewrite Z.add_0_r, !ldb_stb, Z.eqb_refl. by destruct (Z.eqb_spec s (s + 1)).
    + intros a Ha. rewrite !ldb_stb. destruct (Z.eqb_spec a (s + 1)); [lia|].
      destruct (Z.eqb_spec a s); [lia|done].
  - destruct (cstr_tail _ _ _ Hc E) as [Hk Hc'].
    destruct (IH (s + 1) (t + 1) (stb m s (ldb m t)) (k - 1)) as ((J1 & J2 & J3) & J4 & J5);
      [by apply stb_ok|apply cstr_stb; [done|lia]|lia|].
    assert (ldb (safestrcpy_from n (s + 1) (t + 1) (stb m s (ldb m t))) s = ldb m t) as Es.
    { rewrite J5 by lia. rewrite ldb_stb, Z.eqb_refl. apply u8_small, Hm. }
    split; [split; [lia|split]|split].
    + replace (s + Z.min k (Z.of_nat (S n))) with (s + 1 + Z.min (k - 1) (Z.of_nat n)) by lia. done.
    + intros i Hi. destruct (Z.eq_dec i 0) as [->|]; [by rewrite Z.add_0_r, Es|].
      replace (s + i) with (s + 1 + (i - 1)) by lia. apply J3. lia.
    + intros i Hi. destruct (Z.eq_dec i 0) as [->|]; [by rewrite !Z.add_0_r, Es|].
      replace (s + i) with (s + 1 + (i - 1)) by lia. rewrite J4 by lia. rewrite ldb_stb.
      replace (t + 1 + (i - 1)) with (t + i) by lia. destruct (Z.eqb_spec (t + i) s); [lia|done].
    + intros a Ha. rewrite J5 by lia. rewrite ldb_stb. destruct (Z.eqb_spec a s); [lia|done].
Qed.

Lemma memcmp_spec n s1 s2 m :
  memcmp_from n s1 s2 m = 0 <-> forall i, 0 <= i < Z.of_nat n -> ldb m (s1 + i) = ldb m (s2 + i).
Proof.
  revert s1 s2. induction n as [|n IH]; intros s1 s2; cbn [memcmp_from]; [split; [lia|done]|].
  destruct (Z.eqb_spec (ldb m s1) (ldb m s2)) as [E|E]; cbn [negb].
  - rewrite IH. split; intros H i Hi.
    + destruct (Z.eq_dec i 0) as [->|]; [by rewrite !Z.add_0_r|].
      replace (s1 + i) with (s1 + 1 + (i - 1)) by lia. rewrite H by lia. f_equal. lia.
    + replace (s1 + 1 + i) with (s1 + (i + 1)) by lia. rewrite H by lia. f_equal. lia.
  - split; [lia|]. intros H. specialize (H 0). rewrite !Z.add_0_r in H. lia.
Qed.

(** Strings of lengths [j] and [k] compare equal in [n] characters exactly if
    they agree up to the first terminator or [n]. *)
Lemma strncmp_spec n p q m j k :
  cstr m p j -> cstr m q k ->
  strncmp_from n p q m = 0 <->
    (Z.min j (Z.of_nat n) = Z.min k (Z.of_nat n) /\
     forall i, 0 <= i < Z.min j (Z.of_nat n) -> ldb m (p + i) = ldb m (q + i)).
Proof.
  revert p q j k. induction n as [|n IH]; intros p q j k Hj Hk; cbn [strncmp_from].
  { pose proof (proj1 Hj). pose proof (proj1 Hk). split; [|done]. intros _. split; [lia|intros; lia]. }
  destruct (Z.eqb_spec (ldb m p) 0) as [E|E]; cbn [negb andb].
  - apply cstr_nil in Hj as ->; [|done]. rewrite E. split.
    + intros H. apply cstr_nil in Hk as ->; [|lia]. split; lia.
    + intros [H _]. destruct Hk as (Hk & H0 & _). assert (k = 0) as -> by lia. rewrite Z.add_0_r in H0. lia.
  - destruct (cstr_tail _ _ _ Hj E) as [Hj0 Hj']. destruct (Z.eqb_spec (ldb m p) (ldb m q)) as [E'|E'].
    + rewrite E' in E. destruct (cstr_tail _ _ _ Hk E) as [Hk0 Hk']. rewrite (IH _ _ _ _ Hj' Hk').
      split; (intros [H1 H2]; split; [lia|]; intros i Hi).
      * destruct (Z.eq_dec i 0) as [->|]; [by rewrite !Z.add_0_r|].
        replace (p + i) with (p + 1 + (i - 1)) by lia. rewrite H2 by lia. f_equal. lia.
      * replace (p + 1 + i) with (p + (i + 1)) by lia. rewrite H2 by lia. f_equal. lia.
    + split; [lia|]. intros [H1 H2]. specialize (H2 0). rewrite !Z.add_0_r in H2. lia.
Qed.
