(* ===== verification/Kalloc.v ===== *)
(** * The physical page allocator (kernel/kalloc.c)

    The free pages form a list threaded through the pages themselves: the
    first word of a free page is the address of the next one.  [chain] says
    which pages the list holds; every operation is specified by what it does
    to that list.  [end], the first address after the kernel, is set by the
    linker script and is an argument of the code. *)

From S2P Require Import Prelude Riscv Mem.

(** [kmem] and the memory the pages are in. *)
Record km : Type := mkkm { km_mem : mem; freelist : Z }.

Definition set_mem (m : mem) (k : km) : km := mkkm m (freelist k).

Section kalloc.
Context (end_ : Z).
Notation K := (M km).

Definition kfree (pa : Z) : K unit :=
  if negb (pa mod PGSIZE =? 0) || (pa <? end_) || (PHYSTOP <=? pa) then panic "kfree" else
  modify (fun k => set_mem (memset pa 1 PGSIZE (km_mem k)) k);;
  modify (fun k => mkkm (st64 (km_mem k) pa (freelist k)) pa).

Definition kalloc : K Z :=
  r ← gets freelist;
  when (negb (r =? 0)) (modify (fun k => mkkm (km_mem k) (ld64 (km_mem k) r)));;
  when (negb (r =? 0)) (modify (fun k => set_mem (memset r 5 PGSIZE (km_mem k)) k));;
  mret r.

(** [for(; p + PGSIZE <= pa_end; p += PGSIZE) kfree(p);] *)
Fixpoint freerange_from (fuel : nat) (p pa_end : Z) : K unit :=
  match fuel with
  | O => hang
  | S n => if p + PGSIZE <=? pa_end then kfree p;; freerange_from n (p + PGSIZE) pa_end else mret tt
  end.

Definition freerange (fuel : nat) (pa_start pa_end : Z) : K unit :=
  freerange_from fuel (PGROUNDUP pa_start) pa_end.

Definition kinit (fuel : nat) : K unit := freerange fuel end_ PHYSTOP.

(** [while(temp){ size+=PGSIZE; temp=temp->next; }] *)
Fixpoint count_free (fuel : nat) (temp size : Z) (m : mem) : res Z :=
  match fuel with
  | O => Hang
  | S n => if temp =? 0 then Ok size else count_free n (ld64 m temp) (u64 (size + PGSIZE)) m
  end.

Definition kfree_memory (fuel : nat) : K Z :=
  k ← gets (fun k => k);
  lift (count_free fuel (freelist k) 0 (km_mem k)).

(** ** The free list *)

(** Pages the allocator may own. *)
Definition page_ok (pa : Z) : Prop := pa mod PGSIZE = 0 /\ end_ <= pa < PHYSTOP /\ 0 < pa.

Fixpoint chain (m : mem) (p : Z) (l : list Z) : Prop :=
  match l with
  | [] => p = 0
  | q :: l' => p = q /\ chain m (ld64 m q) l'
  end.

Record km_ok (k : km) (l : list Z) : Prop := {
  ko_mem : mem_ok (km_mem k);
  ko_chain : chain (km_mem k) (freelist k) l;
  ko_pages : Forall page_ok l;
  ko_nodup : NoDup l
}.

(** Different pages do not overlap. *)
Lemma page_disjoint p q : p mod PGSIZE = 0 -> q mod PGSIZE = 0 -> p <> q -> p + PGSIZE <= q \/ q + PGSIZE <= p.
Proof.
  intros Hp Hq Hne. apply Z.mod_divide in Hp as [a ->]; [|done]. apply Z.mod_divide in Hq as [b ->]; [|done].
  unfold PGSIZE in *. lia.
Qed.

Lemma chain_ext m m' p l :
  (forall q, q ∈ l -> ld64 m' q = ld64 m q) -> chain m p l -> chain m' p l.
Proof.
  revert p. induction l as [|q l IH]; intros p H C; [done|]. destruct C as [-> C]. split; [done|].
  rewrite H by left. apply IH; [|done]. intros r Hr. apply H. by right.
Qed.

(** Memory that agrees on the free pages holds the same list. *)
Lemma chain_frame m m' p l :
  (forall a, (exists q, q ∈ l /\ q <= a < q + PGSIZE) -> ldb m' a = ldb m a) -> chain m p l -> chain m' p l.
Proof.
  intros H. apply chain_ext. intros q Hq. apply ld_ext. intros b Hb. apply H. exists q.
  split; [done|]. unfold PGSIZE. lia.
Qed.

Lemma km_ok_frame k l m' :
  km_ok k l -> mem_ok m' ->
  (forall a, (exists q, q ∈ l /\ q <= a < q + PGSIZE) -> ldb m' a = ldb (km_mem k) a) ->
  km_ok (set_mem m' k) l.
Proof. intros [A B C D] Hm H. split; try done. by eapply chain_frame. Qed.

(** ** Specifications *)

Lemma kalloc_empty k : km_ok k [] -> kalloc k = Ok (0, k).
Proof. intros [_ E _ _]. cbn in E. unfold kalloc. mgo. by rewrite E. Qed.

(** The page handed out is filled with 5, nothing else changes. *)
Lemma kalloc_page k p l :
  km_ok k (p :: l) ->
  exists k', kalloc k = Ok (p, k') /\ km_ok k' l /\ p ∉ l /\ page_ok p /\
    forall a, ldb (km_mem k') a = if decide (p <= a < p + PGSIZE) then 5 else ldb (km_mem k) a.
Proof.
  intros [Hm [E C] HP HN]. apply Forall_cons in HP as [Hp HP]. apply NoDup_cons in HN as [Hni HN].
  set (m' := memset p 5 PGSIZE (km_mem k)).
  assert (forall a, ldb m' a = if decide (p <= a < p + PGSIZE) then 5 else ldb (km_mem k) a) as Hm'.
  { intros a. unfold m'. rewrite memset_spec by (unfold PGSIZE; lia). by case_decide. }
  exists (mkkm m' (ld64 (km_mem k) p)). split.
  - unfold kalloc. mgo. rewrite E. destruct Hp as (_ & _ & Hp0). destruct (Z.eqb_spec p 0); [lia|]. done.
  - split; [|done]. split; cbn; [by apply memset_ok| |done|done].
    eapply chain_frame; [|exact C]. intros a (q & Hq & Ha). rewrite Hm'. rewrite decide_False; [done|].
    assert (p <> q) as Hpq by (by intros ->). rewrite Forall_forall in HP. destruct (HP q Hq) as [Hq0 _].
    destruct (page_disjoint p q) as [?|?]; [apply Hp|done|done|lia|lia].
Qed.

Lemma kfree_spec k p l :
  km_ok k l -> page_ok p -> p ∉ l -> 0 <= end_ ->
  exists k', kfree p k = Ok (tt, k') /\ km_ok k' (p :: l) /\
    forall a, ~ (p <= a < p + PGSIZE) -> ldb (km_mem k') a = ldb (km_mem k) a.
Proof.
  intros [Hm C HP HN] Hp Hni He. destruct Hp as (Hal & Hr & H0).
  set (m1 := memset p 1 PGSIZE (km_mem k)). set (m2 := st64 m1 p (freelist k)).
  assert (forall a, ~ (p <= a < p + PGSIZE) -> ldb m2 a = ldb (km_mem k) a) as Hout.
  { intros a Ha. unfold m2, st64. rewrite ldb_st_out by (unfold PGSIZE in Ha; lia).
    unfold m1. rewrite memset_spec by (unfold PGSIZE; lia). by rewrite decide_False. }
  exists (mkkm m2 p). split; [|split; [|done]].
  - unfold kfree. rewrite Hal, Z.eqb_refl. cbn [negb orb].
    destruct (Z.ltb_spec p end_); [lia|]. destruct (Z.leb_spec PHYSTOP p); [lia|]. by mgo.
  - split; cbn.
    + by apply st64_ok, memset_ok.
    + split; [done|]. assert (0 <= freelist k < 2 ^ 64) as Hfl.
      { destruct l as [|q l]; cbn in C; [lia|]. destruct C as [-> _]. apply Forall_cons in HP as [[_ [? ?]] _].
        unfold PHYSTOP, KERNBASE in *. lia. }
      assert (ld64 m2 p = freelist k) as -> by (by apply ld64_st64). eapply chain_frame; [|exact C].
      intros a (q & Hq & Ha). apply Hout. rewrite Forall_forall in HP. destruct (HP q Hq) as [Hq0 _].
      assert (p <> q) as Hpq by (by intros ->). destruct (page_disjoint p q) as [?|?]; [done|done|done|lia|lia].
    + by constructor.
    + by constructor.
Qed.

Lemma kfree_panics k p :
  ~ (p mod PGSIZE = 0 /\ end_ <= p < PHYSTOP) -> kfree p k = Panic "kfree".
Proof.
  intros H. unfold kfree. destruct (Z.eqb_spec (p mod PGSIZE) 0); cbn [negb orb]; [|done].
  destruct (Z.ltb_spec p end_); cbn [orb]; [done|]. destruct (Z.leb_spec PHYSTOP p); [done|]. lia.
Qed.

(** ** Initialisation *)

(** The pages from [p] on, [n] of them, as [freerange] leaves them. *)
Definition pages_from (p : Z) (n : nat) : list Z := reverse ((fun i => p + i * PGSIZE) <$> seqZ 0 (Z.of_nat n)).

Lemma pages_from_S p n : pages_from p (S n) = pages_from (p + PGSIZE) n ++ [p].
Proof.
  unfold pages_from. rewrite seqZ_cons by lia. cbn [fmap list_fmap]. rewrite reverse_cons. f_equal.
  - f_equal. replace (Z.pred (Z.of_nat (S n))) with (Z.of_nat n) by lia. change (Z.succ 0) with (1 + 0). rewrite <- fmap_add_seqZ.
    rewrite <- list_fmap_compose. apply list_fmap_ext. intros i x _. cbn. lia.
  - f_equal. lia.
Qed.

Lemma freerange_spec n fuel k l p e :
  km_ok k l -> (n < fuel)%nat -> p mod PGSIZE = 0 -> end_ <= p -> 0 < p -> 0 <= end_ ->
  p + Z.of_nat n * PGSIZE <= e < p + Z.of_nat n * PGSIZE + PGSIZE -> e <= PHYSTOP ->
  (forall q, q ∈ l -> q < p) ->
  exists k', freerange_from fuel p e k = Ok (tt, k') /\ km_ok k' (pages_from p n ++ l).
Proof.
  revert fuel k l p. induction n as [|n IH]; intros fuel k l p Hk Hf Hp Hep Hp0 He Hr Hphys Hl;
    (destruct fuel as [|fuel]; [lia|]); cbn [freerange_from].
  { destruct (Z.leb_spec (p + PGSIZE) e); [lia|]. by exists k. }
  destruct (Z.leb_spec (p + PGSIZE) e); [|unfold PGSIZE in *; lia].
  assert (page_ok p) as Hpo by (unfold page_ok, PGSIZE in *; split; [done|lia]).
  destruct (kfree_spec k p l Hk Hpo) as (k1 & E1 & Hk1 & _); [intros Hin%Hl; lia|done|].
  destruct (IH fuel k1 (p :: l) (p + PGSIZE)) as (k' & E & Hk'); try done; try (unfold PGSIZE in *; lia).
  { unfold PGSIZE in *. rewrite Zplus_mod, Hp. done. }
  { intros q [->|Hq]%elem_of_cons; [unfold PGSIZE; lia|]. specialize (Hl q Hq). unfold PGSIZE. lia. }
  exists k'. rewrite (M_bind_Ok _ _ _ _ _ E1). split; [done|]. by rewrite pages_from_S, <- app_assoc.
Qed.

(** ** Users of the allocator

    Any interleaving of allocations, writes to pages handed out, and frees of
    pages handed out; [out] is what is in use. *)
Inductive ka_step : km * list Z -> km * list Z -> Prop :=
| ka_alloc k k' p out : kalloc k = Ok (p, k') -> p <> 0 -> ka_step (k, out) (k', p :: out)
| ka_none k k' out : kalloc k = Ok (0, k') -> ka_step (k, out) (k', out)
| ka_use k m' out :
    mem_ok m' ->
    (forall a, ldb m' a <> ldb (km_mem k) a -> exists p, p ∈ out /\ p <= a < p + PGSIZE) ->
    ka_step (k, out) (set_mem m' k, out)
| ka_free k k' p out1 out2 :
    kfree p k = Ok (tt, k') -> ka_step (k, out1 ++ p :: out2) (k', out1 ++ out2).

Definition ka_inv (l0 : list Z) (x : km * list Z) : Prop :=
  exists l, km_ok (fst x) l /\ l ++ snd x ≡ₚ l0.

Lemma ka_step_inv l0 x y :
  0 <= end_ -> NoDup l0 -> Forall page_ok l0 -> ka_inv l0 x -> ka_step x y -> ka_inv l0 y.
Proof.
  intros He HN HF (l & Hk & Hp) St. destruct St as [k k' p out E Hp0|k k' out E|k m' out Hm Hu|k k' p out1 out2 E];
    cbn in *.
  - destruct l as [|q l]; [rewrite (kalloc_empty k Hk) in E; congruence|].
    destruct (kalloc_page k q l Hk) as (k1 & E1 & Hk1 & _). rewrite E1 in E. injection E as <- <-.
    exists l. split; [done|]. cbn. rewrite <- Hp. by rewrite <- Permutation_middle.
  - destruct l as [|q l]; [rewrite (kalloc_empty k Hk) in E; injection E as <-; by exists []|].
    destruct (kalloc_page k q l Hk) as (k1 & E1 & _ & _ & Hq & _). rewrite E1 in E.
    injection E as -> _. destruct Hq as (_ & _ & ?). lia.
  - exists l. split; [|done]. apply km_ok_frame; [done|done|]. intros a (q & Hq & Ha).
    destruct (Z.eq_dec (ldb m' a) (ldb (km_mem k) a)) as [|Hne]; [done|]. exfalso.
    destruct (Hu a Hne) as (p & Hpo & Hpa). rewrite <- Hp in HN. apply NoDup_app in HN as (_ & Hd & _).
    assert (p <> q) as Hpq by (intros ->; by apply (Hd q)). rewrite <- Hp in HF. apply Forall_app in HF as [H1 H2].
    rewrite Forall_forall in H1, H2. destruct (H1 q Hq) as [A1 _]. destruct (H2 p Hpo) as [A2 _].
    destruct (page_disjoint p q); [done|done|done|lia|lia].
  - rewrite <- Hp in HN, HF. apply Forall_app in HF as [H1 H2]. apply Forall_app in H2 as [_ H2].
    apply Forall_cons in H2 as [H2 _]. destruct (kfree_spec k p l Hk H2) as (k1 & E1 & Hk1 & _).
    { intros Hin. apply NoDup_app in HN as (_ & Hd & _). apply (Hd p Hin). set_solver. } { done. }
    rewrite E1 in E. injection E as <-. exists (p :: l). split; [done|]. cbn. rewrite <- Hp.
    rewrite !app_assoc. apply Permutation_middle.
Qed.

Lemma ka_reach_inv l0 x y :
  0 <= end_ -> NoDup l0 -> Forall page_ok l0 -> ka_inv l0 x -> rtc ka_step x y -> ka_inv l0 y.
Proof. intros He HN HF I H. induction H; [done|]. eauto using ka_step_inv. Qed.

Lemma count_free_spec fuel m p l size :
  chain m p l -> Forall page_ok l -> (length l < fuel)%nat -> 0 <= size ->
  size + Z.of_nat (length l) * PGSIZE < 2 ^ 64 ->
  count_free fuel p size m = Ok (size + Z.of_nat (length l) * PGSIZE).
Proof.
  revert fuel p size. induction l as [|q l IH]; intros fuel p size C HF Hf Hs Hb;
    (destruct fuel as [|fuel]; [cbn in Hf; lia|]); cbn [count_free].
  { cbn in C. rewrite C. cbn. f_equal. lia. }
  destruct C as [-> C]. apply Forall_cons in HF as [(_ & _ & Hq) HF]. destruct (Z.eqb_spec q 0); [lia|].
  cbn [length] in *. rewrite u64_small by (unfold PGSIZE in *; lia).
  rewrite IH by (done || (unfold PGSIZE in *; lia)). f_equal. lia.
Qed.

(** C14: [kinit] puts every whole page between [end] and [PHYSTOP] on the list,
    and however the pages are then allocated, written and freed, no page is
    in use twice or both in use and free, none is lost, a free of a page in
    use succeeds, and [kfree_memory] counts what is free. *)
Theorem page_allocator_correct fuel k0 n
    (Hm : mem_ok (km_mem k0)) (H0 : freelist k0 = 0) (He : 0 < end_ < PHYSTOP)
    (Hn : PGROUNDUP end_ + Z.of_nat n * PGSIZE <= PHYSTOP < PGROUNDUP end_ + Z.of_nat n * PGSIZE + PGSIZE)
    (Hf : (n < fuel)%nat) :
  exists k1, kinit fuel k0 = Ok (tt, k1) /\
    forall k out, rtc ka_step (k1, []) (k, out) ->
      exists l, l ++ out ≡ₚ pages_from (PGROUNDUP end_) n /\ NoDup (l ++ out) /\
        (l = [] \/ exists p k', kalloc k = Ok (p, k') /\ p ∈ l) /\
        (forall p, p ∈ out -> exists k', kfree p k = Ok (tt, k')) /\
        kfree_memory fuel k = Ok (Z.of_nat (length l) * PGSIZE, k).
Proof.
  assert (end_ + PGSIZE - 1 < 2 ^ 64) as Hb by (unfold PHYSTOP, KERNBASE, PGSIZE in *; lia).
  destruct (PGROUNDUP_spec end_) as [Hr Hal]; [lia|done|].
  destruct (freerange_spec n fuel k0 [] (PGROUNDUP end_) PHYSTOP) as (k1 & E1 & Hk1); try done; try lia.
  { split; [done|by cbn|constructor|constructor]. } { intros q Hq. by apply not_elem_of_nil in Hq. }
  rewrite app_nil_r in Hk1. exists k1. split; [exact E1|]. intros k out Hreach.
  destruct (ka_reach_inv (pages_from (PGROUNDUP end_) n) (k1, []) (k, out)) as (l & Hk & Hp); try done; try lia.
  { apply Hk1. } { apply Hk1. } { exists (pages_from (PGROUNDUP end_) n). cbn. by rewrite app_nil_r. }
  cbn in Hk, Hp. assert (NoDup (l ++ out)) as HN by (rewrite Hp; apply Hk1).
  assert (Forall page_ok (l ++ out)) as HF by (rewrite Hp; apply Hk1). apply Forall_app in HF as [HF1 HF2].
  exists l. split; [done|]. split; [done|]. split; [|split].
  - destruct l as [|p l]; [by left|]. right. destruct (kalloc_page k p l Hk) as (k' & E & _).
    exists p, k'. split; [done|left].
  - intros p Hin. rewrite Forall_forall in HF2. apply NoDup_app in HN as (_ & Hd & _).
    destruct (kfree_spec k p l Hk (HF2 p Hin)) as (k' & E & _); [intros Hpl; by apply (Hd p)|lia|eauto].
  - unfold kfree_memory. mgo. unfold lift.
    assert (length l <= n)%nat as Hlen.
    { apply Permutation_length in Hp. unfold pages_from in Hp. rewrite length_app, length_reverse, length_fmap, length_seqZ in Hp. lia. }
    rewrite (count_free_spec fuel _ _ l 0); [done|apply Hk|done|lia|lia|].
    unfold PHYSTOP, KERNBASE, PGSIZE in *. lia.
Qed.

End kalloc.

Lemma page_allocator_correct_witness :
  exists k1, kinit (PHYSTOP - 8192) 3 (mkkm ∅ 0) = Ok (tt, k1) /\ kfree_memory 3 k1 = Ok (8192, k1).
Proof.
  destruct (page_allocator_correct (PHYSTOP - 8192) 3 (mkkm ∅ 0) 2) as (k1 & E & H).
  - intros a. vm_compute. split; congruence.
  - reflexivity.
  - vm_compute. split; reflexivity.
  - vm_compute. split; congruence.
  - lia.
  - exists k1. split; [exact E|]. destruct (H k1 [] (rtc_refl _ _)) as (l & Hp & _ & _ & _ & Hc).
    rewrite app_nil_r in Hp. apply Permutation_length in Hp. rewrite Hp in Hc. exact Hc.
Defined.
