(* ===== verification/Vm.v ===== *)
(** * Page tables (kernel/vm.c)

    One definition per function of kernel/vm.c, over the memory and the page
    allocator of Kalloc.  A page table is a physical page of 512 words; a
    pointer to an entry is the address of the word, 0 for NULL.  Loops whose
    bound depends on their arguments take [fuel]. *)

From S2P Require Import Prelude Riscv Mem Kalloc.

Section vm.
Context (end_ : Z) (fuel : nat).
Notation K := (M km).

Definition kld64 (a : Z) : K Z := gets (fun k => ld64 (km_mem k) a).
Definition kst64 (a v : Z) : K unit := modify (fun k => set_mem (st64 (km_mem k) a v) k).
Definition kmemset (dst c n : Z) : K unit := modify (fun k => set_mem (memset dst c n (km_mem k)) k).
Definition kmemmove (dst src n : Z) : K unit := modify (fun k => set_mem (memmove dst src n (km_mem k)) k).

(** Is the bit of [flag] set? *)
Definition has (pte flag : Z) : bool := negb (Z.land pte flag =? 0).

Definition pte_at (pagetable level va : Z) : Z := pagetable + 8 * PX level va.

(** [for(int level = 2; level > 0; level--)] of [walk], [level] to go. *)
Fixpoint walk_from (level : nat) (pagetable va : Z) (alloc : bool) : K Z :=
  match level with
  | O => mret (pte_at pagetable 0 va)
  | S l =>
      let pte := pte_at pagetable (Z.of_nat level) va in
      e ← kld64 pte;
      if has e PTE_V then walk_from l (PTE2PA e) va alloc
      else if negb alloc then mret 0
      else
        pagetable ← kalloc;
        if pagetable =? 0 then mret 0 else
        kmemset pagetable 0 PGSIZE;;
        kst64 pte (Z.lor (PA2PTE pagetable) PTE_V);;
        walk_from l pagetable va alloc
  end.

Definition walk (pagetable va : Z) (alloc : bool) : K Z :=
  if MAXVA <=? va then panic "walk" else walk_from 2 pagetable va alloc.

Definition walkaddr (pagetable va : Z) : K Z :=
  if MAXVA <=? va then mret 0 else
  pte ← walk pagetable va false;
  if pte =? 0 then mret 0 else
  e ← kld64 pte;
  if negb (has e PTE_V) then mret 0 else
  if negb (has e PTE_U) then mret 0 else
  mret (PTE2PA e).

(** The loop of [mappages]. *)
Fixpoint mappages_from (n : nat) (pagetable a last pa perm : Z) : K Z :=
  match n with
  | O => hang
  | S n' =>
      pte ← walk pagetable a true;
      if pte =? 0 then mret (-1) else
      e ← kld64 pte;
      if has e PTE_V then panic "mappages: remap" else
      kst64 pte (Z.lor (Z.lor (PA2PTE pa) perm) PTE_V);;
      if a =? last then mret 0 else
      mappages_from n' pagetable (u64 (a + PGSIZE)) last (u64 (pa + PGSIZE)) perm
  end.

Definition mappages (pagetable va size pa perm : Z) : K Z :=
  if size =? 0 then panic "mappages: size" else
  mappages_from fuel pagetable (PGROUNDDOWN va) (PGROUNDDOWN (u64 (va + size - 1))) pa perm.

Definition kvmmap (kpgtbl va pa sz perm : Z) : K unit :=
  r ← mappages kpgtbl va sz pa perm;
  if negb (r =? 0) then panic "kvmmap" else mret tt.

(** The loop of [uvmunmap]. *)
Fixpoint uvmunmap_from (n : nat) (pagetable a stop : Z) (do_free : bool) : K unit :=
  match n with
  | O => hang
  | S n' =>
      if negb (a <? stop) then mret tt else
      pte ← walk pagetable a false;
      if pte =? 0 then panic "uvmunmap: walk" else
      e ← kld64 pte;
      if negb (has e PTE_V) then panic "uvmunmap: not mapped" else
      if PTE_FLAGS e =? PTE_V then panic "uvmunmap: not a leaf" else
      when do_free (kfree end_ (PTE2PA e));;
      kst64 pte 0;;
      uvmunmap_from n' pagetable (u64 (a + PGSIZE)) stop do_free
  end.

Definition uvmunmap (pagetable va npages : Z) (do_free : bool) : K unit :=
  if negb (va mod PGSIZE =? 0) then panic "uvmunmap: not aligned" else
  uvmunmap_from fuel pagetable va (u64 (va + npages * PGSIZE)) do_free.

Definition uvmcreate : K Z :=
  pagetable ← kalloc;
  if pagetable =? 0 then mret 0 else
  kmemset pagetable 0 PGSIZE;;
  mret pagetable.

Definition uvminit (pagetable src sz : Z) : K unit :=
  if PGSIZE <=? sz then panic "inituvm: more than a page" else
  mem_ ← kalloc;
  kmemset mem_ 0 PGSIZE;;
  mappages pagetable 0 PGSIZE mem_ (Z.lor (Z.lor (Z.lor PTE_W PTE_R) PTE_X) PTE_U);;
  kmemmove mem_ src sz.

Definition uvmdealloc (pagetable oldsz newsz : Z) : K Z :=
  if oldsz <=? newsz then mret oldsz else
  when (PGROUNDUP newsz <? PGROUNDUP oldsz)
    (let npages := s32 ((PGROUNDUP oldsz - PGROUNDUP newsz) / PGSIZE) in
     uvmunmap pagetable (PGROUNDUP newsz) npages true);;
  mret newsz.

(** The loop of [uvmalloc]. *)
Fixpoint uvmalloc_from (n : nat) (pagetable a oldsz newsz : Z) : K Z :=
  match n with
  | O => hang
  | S n' =>
      if negb (a <? newsz) then mret newsz else
      mem_ ← kalloc;
      if mem_ =? 0 then uvmdealloc pagetable a oldsz;; mret 0 else
      kmemset mem_ 0 PGSIZE;;
      r ← mappages pagetable a PGSIZE mem_ (Z.lor (Z.lor (Z.lor PTE_W PTE_X) PTE_R) PTE_U);
      if negb (r =? 0) then
        kfree end_ mem_;;
        uvmdealloc pagetable a oldsz;;
        mret 0
      else uvmalloc_from n' pagetable (u64 (a + PGSIZE)) oldsz newsz
  end.

Definition uvmalloc (pagetable oldsz newsz : Z) : K Z :=
  if newsz <? oldsz then mret oldsz else
  uvmalloc_from fuel pagetable (PGROUNDUP oldsz) (PGROUNDUP oldsz) newsz.

(** The loop of [freewalk]; [fw] is the recursive call. *)
Definition entries (fw : Z -> K unit) (pagetable : Z) : nat -> Z -> K unit :=
  fix entries (n : nat) (i : Z) : K unit :=
    match n with
    | O => mret tt
    | S n' =>
        pte ← kld64 (pagetable + 8 * i);
        (if has pte PTE_V && (Z.land pte (Z.lor (Z.lor PTE_R PTE_W) PTE_X) =? 0) then
           fw (PTE2PA pte);;
           kst64 (pagetable + 8 * i) 0
         else if has pte PTE_V then panic "freewalk: leaf"
         else mret tt);;
        entries n' (i + 1)
    end.

(** [freewalk]; [depth] bounds the levels of the table. *)
Fixpoint freewalk (depth : nat) (pagetable : Z) : K unit :=
  match depth with
  | O => hang
  | S d => entries (freewalk d) pagetable 512 0;; kfree end_ pagetable
  end.

Definition uvmfree (depth : nat) (pagetable sz : Z) : K unit :=
  when (0 <? sz) (uvmunmap pagetable 0 (PGROUNDUP sz / PGSIZE) true);;
  freewalk depth pagetable.

(** The loop of [uvmcopy]: [inl i] is the jump to [err]. *)
Fixpoint uvmcopy_from (n : nat) (old new i sz : Z) : K (Z + unit) :=
  match n with
  | O => hang
  | S n' =>
      if negb (i <? sz) then mret (inr tt) else
      pte ← walk old i false;
      if pte =? 0 then panic "uvmcopy: pte should exist" else
      e ← kld64 pte;
      if negb (has e PTE_V) then panic "uvmcopy: page not present" else
      mem_ ← kalloc;
      if mem_ =? 0 then mret (inl i) else
      kmemmove mem_ (PTE2PA e) PGSIZE;;
      r ← mappages new i PGSIZE mem_ (PTE_FLAGS e);
      if negb (r =? 0) then kfree end_ mem_;; mret (inl i)
      else uvmcopy_from n' old new (u64 (i + PGSIZE)) sz
  end.

Definition uvmcopy (old new sz : Z) : K Z :=
  r ← uvmcopy_from fuel old new 0 sz;
  match r with
  | inr _ => mret 0
  | inl i => uvmunmap new 0 (i / PGSIZE) true;; mret (-1)
  end.

Definition uvmclear (pagetable va : Z) : K unit :=
  pte ← walk pagetable va false;
  if pte =? 0 then panic "uvmclear" else
  e ← kld64 pte;
  kst64 pte (Z.land e (Z.lnot PTE_U)).

(** The loop of [copyout]. *)
Fixpoint copyout_from (n : nat) (pagetable dstva src len : Z) : K Z :=
  match n with
  | O => hang
  | S n' =>
      if len =? 0 then mret 0 else
      let va0 := PGROUNDDOWN dstva in
      pa0 ← walkaddr pagetable va0;
      if pa0 =? 0 then mret (-1) else
      let n := Z.min (PGSIZE - (dstva - va0)) len in
      kmemmove (pa0 + (dstva - va0)) src n;;
      copyout_from n' pagetable (u64 (va0 + PGSIZE)) (u64 (src + n)) (len - n)
  end.

Definition copyout (pagetable dstva src len : Z) : K Z := copyout_from fuel pagetable dstva src len.

(** The loop of [copyin]. *)
Fixpoint copyin_from (n : nat) (pagetable dst srcva len : Z) : K Z :=
  match n with
  | O => hang
  | S n' =>
      if len =? 0 then mret 0 else
      let va0 := PGROUNDDOWN srcva in
      pa0 ← walkaddr pagetable va0;
      if pa0 =? 0 then mret (-1) else
      let n := Z.min (PGSIZE - (srcva - va0)) len in
      kmemmove dst (pa0 + (srcva - va0)) n;;
      copyin_from n' pagetable (u64 (dst + n)) (u64 (va0 + PGSIZE)) (len - n)
  end.

Definition copyin (pagetable dst srcva len : Z) : K Z := copyin_from fuel pagetable dst srcva len.

(** [while(n > 0)] of [copyinstr]: [true] when the terminator was copied; the
    new [dst] and [max] otherwise. *)
Fixpoint copy_until_nul (n : nat) (p dst max : Z) : K (bool * Z * Z) :=
  match n with
  | O => mret (false, dst, max)
  | S n' =>
      c ← gets (fun k => ldb (km_mem k) p);
      if c =? 0 then
        modify (fun k => set_mem (stb (km_mem k) dst 0) k);;
        mret (true, dst, max)
      else
        modify (fun k => set_mem (stb (km_mem k) dst c) k);;
        copy_until_nul n' (p + 1) (dst + 1) (max - 1)
  end.

(** The outer loop of [copyinstr]. *)
Fixpoint copyinstr_from (k : nat) (pagetable dst srcva max : Z) : K Z :=
  match k with
  | O => hang
  | S k' =>
      if max =? 0 then mret (-1) else
      let va0 := PGROUNDDOWN srcva in
      pa0 ← walkaddr pagetable va0;
      if pa0 =? 0 then mret (-1) else
      let n := Z.min (PGSIZE - (srcva - va0)) max in
      r ← copy_until_nul (Z.to_nat n) (pa0 + (srcva - va0)) dst max;
      match r with
      | (true, _, _) => mret 0
      | (false, dst', max') => copyinstr_from k' pagetable dst' (u64 (va0 + PGSIZE)) max'
      end
  end.

Definition copyinstr (pagetable dst srcva max : Z) : K Z := copyinstr_from fuel pagetable dst srcva max.

(** ** The kernel's page table *)

(** [proc_mapstacks] of kernel/proc.c. *)
Fixpoint proc_mapstacks (n : nat) (p kpgtbl : Z) : K unit :=
  match n with
  | O => mret tt
  | S n' =>
      pa ← kalloc;
      if pa =? 0 then panic "kalloc" else
      kvmmap kpgtbl (KSTACK p) pa PGSIZE (Z.lor PTE_R PTE_W);;
      proc_mapstacks n' (p + 1) kpgtbl
  end.

Definition NPROC : Z := 64.

Definition kvmmake (etext trampoline : Z) : K Z :=
  kpgtbl ← kalloc;
  kmemset kpgtbl 0 PGSIZE;;
  kvmmap kpgtbl UART0 UART0 PGSIZE (Z.lor PTE_R PTE_W);;
  kvmmap kpgtbl VIRTIO0 VIRTIO0 PGSIZE (Z.lor PTE_R PTE_W);;
  kvmmap kpgtbl PLIC PLIC 0x400000 (Z.lor PTE_R PTE_W);;
  kvmmap kpgtbl KERNBASE KERNBASE (u64 (etext - KERNBASE)) (Z.lor PTE_R PTE_X);;
  kvmmap kpgtbl etext etext (u64 (PHYSTOP - etext)) (Z.lor PTE_R PTE_W);;
  kvmmap kpgtbl TRAMPOLINE trampoline PGSIZE (Z.lor PTE_R PTE_X);;
  proc_mapstacks (Z.to_nat NPROC) 0 kpgtbl;;
  mret kpgtbl.

End vm.
