(* ===== verification/VmSpec.v ===== *)
(** * Page tables: the invariant and [walk]

    The tables of an address space are described by a map [T] from (level,
    prefix of the virtual address) to the page that holds the table; [pt_ok]
    says that memory holds exactly these tables.  [mp] is the mapping they
    stand for, from virtual page numbers to leaf entries. *)

From S2P Require Import Prelude Riscv Mem Kalloc Vm.

Definition ent (m : mem) (p i : Z) : Z := ld64 m (p + 8 * i).

(** Prefix of the table of level [l] that serves [va]. *)
Definition tpre (l va : Z) : Z := va / 2 ^ (21 + 9 * l).

Lemma tpre_step l va : 1 <= l -> 0 <= va -> tpre l va * 512 + PX l va = tpre (l - 1) va.
Proof.
  intros Hl Hv. rewrite PX_spec by lia. unfold tpre.
  replace (21 + 9 * (l - 1)) with (12 + 9 * l) by lia.
  replace (2 ^ (21 + 9 * l)) with (2 ^ (12 + 9 * l) * 512)
    by (replace (21 + 9 * l) with (12 + 9 * l + 9) by lia; rewrite (Z.pow_add_r 2 (12 + 9 * l) 9) by lia; lia).
  assert (0 < 2 ^ (12 + 9 * l)) by (apply Z.pow_pos_nonneg; lia).
  rewrite <- Z.div_div by lia. pose proof (Z.div_mod (va / 2 ^ (12 + 9 * l)) 512). lia.
Qed.

Lemma tpre_top va : 0 <= va < MAXVA -> tpre 2 va = 0.
Proof. intros Hv. unfold tpre. apply Z.div_small. change MAXVA with (2 ^ 38) in Hv. cbn. lia. Qed.

Lemma tpre_nonneg l va : 0 <= l -> 0 <= va -> 0 <= tpre l va.
Proof. intros. unfold tpre. apply Z.div_pos; [done|]. apply Z.pow_pos_nonneg; lia. Qed.

(** The entry of a table of level 0 for [va]. *)
Lemma vpn_split va : 0 <= va -> tpre 0 va = (va / PGSIZE) / 512 /\ PX 0 va = (va / PGSIZE) mod 512.
Proof.
  intros Hv. unfold tpre. rewrite PX_spec by lia. split; [|done].
  rewrite Z.div_div by (unfold PGSIZE; lia). done.
Qed.

Section inv.
Context (end_ : Z).
Implicit Types (m : mem) (T : gmap (Z * Z) Z).

Record pt_ok m (root : Z) T : Prop := {
  pt_root : T !! (2, 0) = Some root;
  pt_dom : forall l pre p, T !! (l, pre) = Some p -> 0 <= l <= 2 /\ 0 <= pre /\ (l = 2 -> pre = 0);
  pt_page : forall x p, T !! x = Some p -> page_ok end_ p;
  pt_inj : forall x y p, T !! x = Some p -> T !! y = Some p -> x = y;
  pt_up : forall l pre p, T !! (l, pre) = Some p -> l < 2 -> is_Some (T !! (l + 1, pre / 512));
  pt_none : forall l pre p i, T !! (l, pre) = Some p -> 1 <= l -> 0 <= i < 512 ->
    T !! (l - 1, pre * 512 + i) = None -> has (ent m p i) PTE_V = false;
  pt_down : forall l pre p i q, T !! (l, pre) = Some p -> 1 <= l -> 0 <= i < 512 ->
    T !! (l - 1, pre * 512 + i) = Some q -> ent m p i = PA2PTE q + PTE_V
}.

(** The mapping: the valid leaf entry of a virtual page. *)
Definition mp m T (vpn : Z) : option Z :=
  match T !! (0, vpn / 512) with
  | Some p => let e := ent m p (vpn mod 512) in if has e PTE_V then Some e else None
  | None => None
  end.

(** The tables of [T] do not meet the pages of [l]. *)
Definition apart T (l : list Z) : Prop := forall x p, T !! x = Some p -> p ∉ l.

Lemma has_valid x : x mod 1024 = 0 -> 0 <= x -> has (x + PTE_V) PTE_V = true.
Proof.
  intros E Hx. unfold has. change PTE_V with 1. change 1 with (Z.ones 1) at 2.
  rewrite Z.land_ones by lia. change (2 ^ 1) with 2.
  apply Z.mod_divide in E as [q ->]; [|done]. replace (q * 1024 + 1) with (1 + q * 512 * 2) by lia.
  by rewrite Z.mod_add by lia.
Qed.

Lemma page_ok_range p : 0 <= end_ -> page_ok end_ p -> 0 <= p < 2 ^ 56 /\ p mod PGSIZE = 0.
Proof. intros He (A & B & C). unfold PHYSTOP, KERNBASE in *. split; [lia|done]. Qed.

Lemma has_ptr q : 0 <= end_ -> page_ok end_ q ->
  has (PA2PTE q + PTE_V) PTE_V = true /\ PTE2PA (PA2PTE q + PTE_V) = q /\ 0 <= PA2PTE q + PTE_V < 2 ^ 64.
Proof.
  intros He Hq. destruct (page_ok_range q He Hq) as [H1 H2]. destruct (PA2PTE_range q H1) as [H3 H4].
  split; [apply has_valid; [done|lia]|]. split; [by apply PTE2PA_PA2PTE|]. change PTE_V with 1. lia.
Qed.

(** ** Looking up *)

(** One level of [walk] without allocation. *)
Lemma walk_step m root T l va p :
  0 <= end_ -> pt_ok m root T -> 1 <= l -> 0 <= va -> T !! (l, tpre l va) = Some p ->
  match T !! (l - 1, tpre (l - 1) va) with
  | Some q => has (ent m p (PX l va)) PTE_V = true /\ PTE2PA (ent m p (PX l va)) = q
  | None => has (ent m p (PX l va)) PTE_V = false
  end.
Proof.
  intros He H Hl Hv Hp. pose proof (PX_range l va) as Hx. rewrite <- tpre_step by done.
  destruct (T !! (l - 1, tpre l va * 512 + PX l va)) as [q|] eqn:E.
  - rewrite (pt_down _ _ _ H _ _ _ _ _ Hp Hl Hx E).
    destruct (has_ptr q He) as (A & B & _); [by eapply (pt_page _ _ _ H)|]. done.
  - by eapply (pt_none _ _ _ H).
Qed.

Lemma pt_no_table m root T l va :
  pt_ok m root T -> 0 <= l < 2 -> 0 <= va -> T !! (l + 1, tpre (l + 1) va) = None -> T !! (l, tpre l va) = None.
Proof.
  intros H Hl Hv E. destruct (T !! (l, tpre l va)) as [q|] eqn:Eq; [|done]. exfalso.
  destruct (pt_up _ _ _ H _ _ _ Eq) as [r Hr]; [lia|].
  assert (tpre l va = tpre (l + 1) va * 512 + PX (l + 1) va) as E'
    by (rewrite tpre_step by lia; f_equal; lia).
  rewrite E' in Hr. pose proof (PX_range (l + 1) va).
  rewrite Z.div_add_l, Z.div_small, Z.add_0_r in Hr by lia. congruence.
Qed.

(** [walk] without allocation finds the entry, and changes nothing. *)
Lemma walk_lookup k root T va :
  0 <= end_ -> pt_ok (km_mem k) root T -> 0 <= va < MAXVA ->
  walk root va false k =
    Ok (match T !! (0, tpre 0 va) with Some p => p + 8 * PX 0 va | None => 0 end, k).
Proof.
  intros He H Hv. unfold walk. destruct (Z.leb_spec MAXVA va); [lia|].
  pose proof (pt_root _ _ _ H) as H2. rewrite <- (tpre_top va Hv) in H2.
  pose proof (walk_step _ _ _ 2 va _ He H ltac:(lia) ltac:(lia) H2) as S2. cbn [Z.sub] in S2.
  cbn [walk_from]. unfold kld64. mgo. fold (ent (km_mem k) root (PX 2 va)) in *.
  change (ld64 (km_mem k) (pte_at root (Z.of_nat 2) va)) with (ent (km_mem k) root (PX 2 va)).
  change (2 - 1) with 1 in S2. destruct (T !! (1, tpre 1 va)) as [p1|] eqn:E1.
  2:{ rewrite S2. cbn. by rewrite (pt_no_table _ _ _ 0 va H ltac:(lia) ltac:(lia) E1). }
  destruct S2 as [-> ->]. mgo.
  pose proof (walk_step _ _ _ 1 va _ He H ltac:(lia) ltac:(lia) E1) as S1. change (1 - 1) with 0 in S1.
  change (ld64 (km_mem k) (pte_at p1 (Z.of_nat 1) va)) with (ent (km_mem k) p1 (PX 1 va)).
  destruct (T !! (0, tpre 0 va)) as [p0|] eqn:E0; [|by rewrite S1]. by destruct S1 as [-> ->].
Qed.

Lemma mp_lookup m T va :
  0 <= va -> mp m T (va / PGSIZE) =
    match T !! (0, tpre 0 va) with
    | Some p => if has (ent m p (PX 0 va)) PTE_V then Some (ent m p (PX 0 va)) else None
    | None => None
    end.
Proof. intros Hv. unfold mp. by destruct (vpn_split va Hv) as [<- <-]. Qed.

(** [walkaddr] in terms of the mapping. *)
Lemma walkaddr_spec k root T va :
  0 <= end_ -> pt_ok (km_mem k) root T -> 0 <= va < MAXVA ->
  walkaddr root va k =
    Ok (match mp (km_mem k) T (va / PGSIZE) with
        | Some e => if has e PTE_U then PTE2PA e else 0
        | None => 0
        end, k).
Proof.
  intros He H Hv. unfold walkaddr. destruct (Z.leb_spec MAXVA va); [lia|].
  rewrite (M_bind_Ok _ _ _ _ _ (walk_lookup k root T va He H Hv)), mp_lookup by lia.
  destruct (T !! (0, tpre 0 va)) as [p|] eqn:E; [|done].
  destruct (pt_page _ _ _ H _ _ E) as (_ & _ & Hp). pose proof (PX_range 0 va).
  destruct (Z.eqb_spec (p + 8 * PX 0 va) 0); [lia|]. unfold kld64. mgo. fold (ent (km_mem k) p (PX 0 va)).
  destruct (has (ent (km_mem k) p (PX 0 va)) PTE_V); [|done]. cbn [negb]. by destruct (has _ PTE_U).
Qed.

(** ** Changing entries *)

Lemma ent_ext m m' p i :
  0 <= i < 512 -> (forall a, p <= a < p + PGSIZE -> ldb m' a = ldb m a) -> ent m' p i = ent m p i.
Proof. intros Hi H. apply ld_ext. intros b Hb. apply H. unfold PGSIZE. cbn in Hb. lia. Qed.

Lemma ent_st_same m p i v j :
  0 <= v < 2 ^ 64 -> ent (st64 m (p + 8 * i) v) p j = if decide (j = i) then v else ent m p j.
Proof.
  intros Hv. unfold ent. case_decide as E; [subst; by apply ld64_st64|]. apply ld64_st64_ne. lia.
Qed.

Lemma ent_st_other m p q i j v :
  p mod PGSIZE = 0 -> q mod PGSIZE = 0 -> p <> q -> 0 <= i < 512 -> 0 <= j < 512 ->
  ent (st64 m (p + 8 * i) v) q j = ent m q j.
Proof.
  intros Hp Hq Hne Hi Hj. unfold ent. apply ld64_st64_ne.
  destruct (page_disjoint p q Hp Hq Hne); unfold PGSIZE in *; lia.
Qed.

Lemma ent_zeroed m q j : 0 <= j < 512 -> ent (memset q 0 PGSIZE m) q j = 0.
Proof.
  intros Hj. unfold ent, ld64. assert (forall b, q <= b < q + PGSIZE -> ldb (memset q 0 PGSIZE m) b = 0) as Hz.
  { intros b Hb. rewrite memset_spec by (unfold PGSIZE; lia). by rewrite decide_True. }
  cbn [ld]. rewrite !Hz by (unfold PGSIZE; lia). done.
Qed.

(** Memory that agrees on the tables. *)
Lemma pt_frame m m' root T :
  pt_ok m root T -> (forall x p i, T !! x = Some p -> 0 <= i < 512 -> ent m' p i = ent m p i) ->
  pt_ok m' root T /\ forall vpn, mp m' T vpn = mp m T vpn.
Proof.
  intros [A B C D E F G] H. split.
  - split; try done.
    + intros l pre p i Hp Hl Hi Hn. rewrite (H _ _ _ Hp Hi). eauto.
    + intros l pre p i q Hp Hl Hi Hq. rewrite (H _ _ _ Hp Hi). eauto.
  - intros vpn. unfold mp. destruct (T !! (0, vpn / 512)) as [p|] eqn:Ep; [|done].
    rewrite (H _ _ (vpn mod 512) Ep); [done|]. apply Z.mod_pos_bound. lia.
Qed.

(** Linking a fresh table [q] into entry [i] of the table [p] of level [l]. *)
Lemma pt_link m m' root T l pre p i q :
  0 <= end_ -> pt_ok m root T -> T !! (l, pre) = Some p -> 1 <= l -> 0 <= i < 512 ->
  T !! (l - 1, pre * 512 + i) = None -> page_ok end_ q -> (forall x, T !! x <> Some q) ->
  (forall j, 0 <= j < 512 -> ent m' p j = if decide (j = i) then PA2PTE q + PTE_V else ent m p j) ->
  (forall j, 0 <= j < 512 -> ent m' q j = 0) ->
  (forall x r j, T !! x = Some r -> r <> p -> 0 <= j < 512 -> ent m' r j = ent m r j) ->
  let T' := <[(l - 1, pre * 512 + i) := q]> T in
  pt_ok m' root T' /\ forall vpn, 0 <= vpn -> mp m' T' vpn = mp m T vpn.
Proof.
  intros He H Hp Hl Hi Hn Hq Hqn Ep Eq Er T'.
  destruct (pt_dom _ _ _ H _ _ _ Hp) as (Hl2 & Hpre & _).
  assert (forall x r, T !! x = Some r -> T' !! x = Some r) as Hsub.
  { intros x r Hx. unfold T'. rewrite lookup_insert_ne; [done|]. congruence. }
  assert (forall x r, T' !! x = Some r -> (x = (l - 1, pre * 512 + i) /\ r = q) \/ T !! x = Some r) as Hinv.
  { intros x r. unfold T'. rewrite lookup_insert. case_decide; [|by right]. intros [= <-]. by left. }
  assert (forall x r j, T !! x = Some r -> 0 <= j < 512 -> x <> (l, pre) \/ j <> i -> ent m' r j = ent m r j) as Hold.
  { intros x r j Hx Hj Hne. destruct (Z.eq_dec r p) as [->|]; [|by eapply Er].
    rewrite Ep by done. assert (x = (l, pre)) as -> by (by eapply (pt_inj _ _ _ H)).
    rewrite decide_False; [done|]. destruct Hne; congruence. }
  split.
  - split.
    + apply Hsub, H.
    + intros l' pre' r [[[= -> ->] ->]|Hr]%Hinv; [|by eapply (pt_dom _ _ _ H)]. lia.
    + intros x r [[_ ->]|Hr]%Hinv; [done|by eapply (pt_page _ _ _ H)].
    + intros x y r [[-> ->]|Hx]%Hinv [[-> Hy]|Hy]%Hinv; [done|by destruct (Hqn y)| |by eapply (pt_inj _ _ _ H)].
      subst. by destruct (Hqn x).
    + intros l' pre' r [[[= -> ->] ->]|Hr]%Hinv Hl'.
      * replace (l - 1 + 1) with l by lia. rewrite Z.div_add_l, Z.div_small, Z.add_0_r by lia. eauto.
      * destruct (pt_up _ _ _ H _ _ _ Hr Hl') as [u Hu]. eauto.
    + intros l' pre' r j [[[= -> ->] ->]|Hr]%Hinv Hl' Hj Hno; [rewrite Eq by done; reflexivity|].
      assert ((l', pre') <> (l, pre) \/ j <> i) as Hne.
      { destruct (decide (j = i)) as [->|]; [|by right]. left. intros [= -> ->].
        unfold T' in Hno. by rewrite lookup_insert_eq in Hno. }
      rewrite (Hold _ _ _ Hr Hj Hne). eapply (pt_none _ _ _ H); [done|done|done|].
      destruct (T !! (l' - 1, pre' * 512 + j)) eqn:E'; [|done]. apply Hsub in E'. congruence.
    + intros l' pre' r j u [[[= -> ->] ->]|Hr]%Hinv Hl' Hj Hu.
      * exfalso. apply Hinv in Hu as [[[= ? ?] _]|Hu]; [lia|].
        destruct (pt_up _ _ _ H _ _ _ Hu) as [w Hw]; [lia|].
        replace (l - 1 - 1 + 1) with (l - 1) in Hw by lia.
        rewrite Z.div_add_l, Z.div_small, Z.add_0_r in Hw by lia. congruence.
      * apply Hinv in Hu as [[[= E1 E2] ->]|Hu].
        -- assert (l' = l) as -> by lia. assert (pre' = pre /\ j = i) as [-> ->] by lia.
           assert (r = p) as -> by congruence. rewrite Ep by done. by rewrite decide_True.
        -- assert ((l', pre') <> (l, pre) \/ j <> i) as Hne.
           { destruct (decide (j = i)) as [->|]; [|by right]. left. intros [= -> ->]. congruence. }
           rewrite (Hold _ _ _ Hr Hj Hne). by eapply (pt_down _ _ _ H).
  - intros vpn Hv. unfold mp, T'. rewrite lookup_insert. pose proof (Z.mod_pos_bound vpn 512).
    case_decide as Ed.
    + rewrite Ed in Hn. rewrite Hn, Eq by lia. done.
    + destruct (T !! (0, vpn / 512)) as [r|] eqn:Er'; [|done].
      rewrite (Hold _ _ _ Er'); [done|lia|]. left. intros [= ? ?]. lia.
Qed.

(** Writing the leaf entry of a virtual page. *)
Lemma pt_leaf m root T vpn p v :
  pt_ok m root T -> T !! (0, vpn / 512) = Some p -> 0 <= v < 2 ^ 64 ->
  let m' := st64 m (p + 8 * (vpn mod 512)) v in
  pt_ok m' root T /\ forall u, mp m' T u = if decide (u = vpn) then if has v PTE_V then Some v else None
                                        else mp m T u.
Proof.
  intros H Hp Hv m'. pose proof (Z.mod_pos_bound vpn 512 ltac:(lia)) as Hi.
  assert (forall x r j, T !! x = Some r -> 0 <= j < 512 ->
    ent m' r j = if decide (r = p /\ j = vpn mod 512) then v else ent m r j) as He.
  { intros x r j Hx Hj. unfold m'. destruct (Z.eq_dec r p) as [->|Hne].
    - rewrite ent_st_same by done. repeat case_decide; done || lia.
    - rewrite ent_st_other; [by rewrite decide_False by lia|..]; try done; [|].
      + apply (pt_page _ _ _ H _ _ Hp).
      + apply (pt_page _ _ _ H _ _ Hx). }
  split.
  - destruct H as [A B C D E F G]. split; try done.
    + intros l pre r i Hr Hl Hi' Hn. rewrite (He _ _ _ Hr Hi'). rewrite decide_False; [eauto|].
      intros [-> _]. assert ((l, pre) = (0, vpn / 512)) as [= ? ?] by (by eapply D). lia.
    + intros l pre r i q Hr Hl Hi' Hq. rewrite (He _ _ _ Hr Hi'). rewrite decide_False; [eauto|].
      intros [-> _]. assert ((l, pre) = (0, vpn / 512)) as [= ? ?] by (by eapply D). lia.
  - intros u. unfold mp. pose proof (Z.mod_pos_bound u 512 ltac:(lia)) as Hu.
    case_decide as Eu.
    + subst u. rewrite Hp, (He _ _ _ Hp Hi). by rewrite decide_True.
    + destruct (T !! (0, u / 512)) as [r|] eqn:Er; [|done]. rewrite (He _ _ _ Er Hu).
      rewrite decide_False; [done|]. intros [-> E2]. apply Eu.
      assert ((0, u / 512) = (0, vpn / 512)) as [= E1] by (by eapply (pt_inj _ _ _ H)).
      rewrite (Z.div_mod u 512), (Z.div_mod vpn 512) by lia. congruence.
Qed.

(** ** Allocation of tables

    From memory, free list and tables [(k, F, T)] to [(k', F', T')]: tables
    were added from the free list, the mapping is the same, and memory outside
    the tables is untouched. *)
Record grows root k (F : list Z) T k' (F' : list Z) T' : Prop := {
  g_km : km_ok end_ k' F';
  g_pt : pt_ok (km_mem k') root T';
  g_apart : apart T' F';
  g_sub : forall x p, T !! x = Some p -> T' !! x = Some p;
  g_taken : exists l, F = l ++ F' /\ (forall x p, T' !! x = Some p -> T !! x = Some p \/ p ∈ l) /\
    (forall p, p ∈ l -> exists x, T' !! x = Some p);
  g_mp : forall vpn, 0 <= vpn -> mp (km_mem k') T' vpn = mp (km_mem k) T vpn;
  g_mem : forall a, (forall x p, T' !! x = Some p -> ~ (p <= a < p + PGSIZE)) ->
    ldb (km_mem k') a = ldb (km_mem k) a
}.

Lemma grows_refl root k F T :
  km_ok end_ k F -> pt_ok (km_mem k) root T -> apart T F -> grows root k F T k F T.
Proof.
  intros A B C. split; try done. exists []. split; [done|]. split; [by left|].
  intros p Hp. by apply not_elem_of_nil in Hp.
Qed.

Lemma grows_trans root k F T k1 F1 T1 k2 F2 T2 :
  grows root k F T k1 F1 T1 -> grows root k1 F1 T1 k2 F2 T2 -> grows root k F T k2 F2 T2.
Proof.
  intros [A1 B1 C1 D1 (l1 & E1 & E1' & E1'') F1' G1] [A2 B2 C2 D2 (l2 & E2 & E2' & E2'') F2' G2].
  split; try done.
  - intros x p Hx. by apply D2, D1.
  - exists (l1 ++ l2). split; [by rewrite E1, E2, app_assoc|]. split.
    + intros x p [Hx|Hx]%E2'; [|right; apply elem_of_app; by right]. apply E1' in Hx as [Hx|Hx]; [by left|].
      right. apply elem_of_app. by left.
    + intros p [Hp|Hp]%elem_of_app; [|by apply E2'']. destruct (E1'' p Hp) as [x Hx]. exists x. by apply D2.
  - intros vpn Hv. by rewrite F2', F1'.
  - intros a Ha. rewrite G2, G1; [done| |done]. intros x p Hx. eapply Ha, D2, Hx.
Qed.

(** One level of [walk] with allocation, table missing. *)
Lemma alloc_step k q F root T l va p :
  0 <= end_ -> km_ok end_ k (q :: F) -> pt_ok (km_mem k) root T -> apart T (q :: F) ->
  1 <= l -> 0 <= va -> T !! (l, tpre l va) = Some p -> T !! (l - 1, tpre (l - 1) va) = None ->
  exists k1 k', kalloc k = Ok (q, k1) /\ q <> 0 /\
    k' = set_mem (st64 (memset q 0 PGSIZE (km_mem k1)) (pte_at p l va) (Z.lor (PA2PTE q) PTE_V)) k1 /\
    grows root k (q :: F) T k' F (<[(l - 1, tpre (l - 1) va) := q]> T).
Proof.
  intros He Hk H HA Hl Hv Hp Hn. destruct (kalloc_page end_ k q F Hk) as (k1 & E1 & Hk1 & Hqn & Hq & Hm1).
  destruct (has_ptr q He Hq) as (_ & _ & Hqr). destruct (page_ok_range q He Hq) as [Hq56 Hqal].
  destruct (PA2PTE_range q Hq56) as [Hpr Hpm].
  assert (forall x, T !! x <> Some q) as Hqt by (intros x Hx; apply (HA x q Hx); left).
  pose proof (PX_range l va) as Hx. rewrite <- tpre_step in Hn |- * by done.
  assert (Z.lor (PA2PTE q) PTE_V = PA2PTE q + PTE_V) as -> by (apply lor_flags; [lia|done|done]).
  set (m2 := memset q 0 PGSIZE (km_mem k1)). set (m' := st64 m2 (p + 8 * PX l va) (PA2PTE q + PTE_V)).
  assert (forall a, ~ (q <= a < q + PGSIZE) -> ldb m2 a = ldb (km_mem k) a) as Hm2.
  { intros a Ha. unfold m2. rewrite memset_spec by (unfold PGSIZE; lia). rewrite decide_False by done.
    rewrite Hm1. by rewrite decide_False. }
  assert (forall x r j, T !! x = Some r -> 0 <= j < 512 -> ent m2 r j = ent (km_mem k) r j) as Hold.
  { intros x r j Hr Hj. apply ent_ext; [done|]. intros a Ha. apply Hm2. intros Ha'.
    assert (r <> q) by (intros ->; by apply (Hqt x)).
    destruct (page_disjoint r q); [apply (pt_page _ _ _ H _ _ Hr)|done|done|lia|lia]. }
  assert (p <> q) as Hpq by (intros ->; by apply (Hqt _ Hp)).
  pose proof (pt_page _ _ _ H _ _ Hp) as [Hpal _].
  destruct (pt_link (km_mem k) m' root T l (tpre l va) p (PX l va) q He H Hp Hl Hx Hn Hq Hqt) as [Hpt Hmp].
  { intros j Hj. unfold m'. rewrite ent_st_same by done. case_decide; [done|]. by eapply Hold. }
  { intros j Hj. unfold m'. rewrite ent_st_other by done. by apply ent_zeroed. }
  { intros x r j Hr Hrp Hj. unfold m'. rewrite ent_st_other; [by eapply Hold|done| |by apply not_eq_sym|done|done].
    apply (pt_page _ _ _ H _ _ Hr). }
  assert (forall a, ~ (q <= a < q + PGSIZE) -> ~ (p <= a < p + PGSIZE) -> ldb m' a = ldb (km_mem k) a) as Hout.
  { intros a Ha1 Ha2. unfold m', st64. rewrite ldb_st_out by (unfold PGSIZE in *; lia). by apply Hm2. }
  exists k1, (set_mem m' k1). split; [done|]. split; [destruct Hq as (_ & _ & ?); lia|]. split; [reflexivity|].
  assert (mem_ok m') as Hmok by (apply st64_ok, memset_ok, Hk1).
  set (x0 := (l - 1, tpre l va * 512 + PX l va)) in *.
  assert (forall a, (exists r, r ∈ F /\ r <= a < r + PGSIZE) -> ldb m' a = ldb (km_mem k1) a) as HF.
  { intros a (r & Hr & Ha). assert (~ (q <= a < q + PGSIZE) /\ ~ (p <= a < p + PGSIZE)) as [A1 A2].
    { pose proof (ko_pages _ _ _ Hk1) as HP. rewrite Forall_forall in HP. destruct (HP r Hr) as [Hral _].
      assert (r <> q) by (by intros ->). assert (r <> p) by (intros ->; apply (HA _ _ Hp); by right).
      destruct (page_disjoint r q), (page_disjoint r p); try done; lia. }
    rewrite Hout by done. rewrite Hm1. by rewrite decide_False. }
  split.
  - by apply km_ok_frame.
  - exact Hpt.
  - intros x r. rewrite lookup_insert. case_decide; [by intros [= <-]|]. intros Hr Hin.
    apply (HA x r Hr). by right.
  - intros x r Hr. rewrite lookup_insert_ne; [done|]. intros <-. congruence.
  - exists [q]. split; [done|]. split.
    + intros x r. rewrite lookup_insert. case_decide; [intros [= <-]; right; left|by left].
    + intros r ->%list_elem_of_singleton. exists x0. apply lookup_insert_eq.
  - exact Hmp.
  - intros a Ha. apply Hout; [apply (Ha x0), lookup_insert_eq|]. apply (Ha (l, tpre l va)).
    rewrite lookup_insert_ne; [done|]. unfold x0. intros [= ? ?]. lia.
Qed.


Definition found T va (r : Z) : Prop := exists p, T !! (0, tpre 0 va) = Some p /\ r = p + 8 * PX 0 va.

(** [walk] with allocation: the entry, or the free list was too short. *)
Lemma walk_from_alloc (l : nat) k F root T va p :
  0 <= end_ -> km_ok end_ k F -> pt_ok (km_mem k) root T -> apart T F -> 0 <= va ->
  T !! (Z.of_nat l, tpre (Z.of_nat l) va) = Some p ->
  exists r k' F' T', walk_from l p va true k = Ok (r, k') /\ grows root k F T k' F' T' /\
    ((r = 0 /\ F' = []) \/ found T' va r) /\ (length F <= length F' + l)%nat.
Proof.
  intros He. revert k F T p. induction l as [|l IH]; intros k F T p Hk H HA Hv Hp.
  { exists (p + 8 * PX 0 va), k, F, T. split; [done|]. split; [by apply grows_refl|]. split; [right; by exists p|lia]. }
  pose proof (walk_step _ _ _ (Z.of_nat (S l)) va p He H ltac:(lia) Hv Hp) as St.
  replace (Z.of_nat (S l) - 1) with (Z.of_nat l) in St by lia.
  cbn [walk_from]. unfold kld64. mgo. fold (ent (km_mem k) p (PX (Z.of_nat (S l)) va)).
  change (ld64 (km_mem k) (pte_at p (Z.of_nat (S l)) va)) with (ent (km_mem k) p (PX (Z.of_nat (S l)) va)).
  destruct (T !! (Z.of_nat l, tpre (Z.of_nat l) va)) as [q|] eqn:E.
  { destruct St as [-> ->]. destruct (IH k F T q) as (r & k' & F' & T' & E' & G & R & Hc); try done.
    exists r, k', F', T'. split; [done|]. split; [done|]. split; [done|lia]. }
  rewrite St. cbn [negb]. destruct F as [|q F].
  { rewrite (M_bind_Ok _ _ _ _ _ (kalloc_empty end_ k Hk)). exists 0, k, [], T. split; [done|].
    split; [by apply grows_refl|]. split; [by left|cbn; lia]. }
  destruct (alloc_step k q F root T (Z.of_nat (S l)) va p) as (k1 & k2 & E1 & Hq0 & E2 & G); try done; try lia.
  { by replace (Z.of_nat (S l) - 1) with (Z.of_nat l) by lia. }
  replace (Z.of_nat (S l) - 1) with (Z.of_nat l) in G by lia.
  rewrite (M_bind_Ok _ _ _ _ _ E1). destruct (Z.eqb_spec q 0); [done|]. unfold kmemset, kst64. mgo.
  change (set_mem _ _) with
    (set_mem (st64 (memset q 0 PGSIZE (km_mem k1)) (pte_at p (Z.of_nat (S l)) va) (Z.lor (PA2PTE q) PTE_V)) k1).
  rewrite <- E2.
  destruct (IH k2 F _ q (g_km _ _ _ _ _ _ _ G) (g_pt _ _ _ _ _ _ _ G) (g_apart _ _ _ _ _ _ _ G) Hv)
    as (r & k' & F' & T' & E' & G' & R & Hc); [apply lookup_insert_eq|].
  exists r, k', F', T'. split; [done|]. split; [by eapply grows_trans|]. split; [done|cbn; lia].
Qed.

Lemma walk_alloc k F root T va :
  0 <= end_ -> km_ok end_ k F -> pt_ok (km_mem k) root T -> apart T F -> 0 <= va < MAXVA ->
  exists r k' F' T', walk root va true k = Ok (r, k') /\ grows root k F T k' F' T' /\
    ((r = 0 /\ F' = []) \/ (r <> 0 /\ found T' va r)) /\ (length F <= length F' + 2)%nat.
Proof.
  intros He Hk H HA Hv. unfold walk. destruct (Z.leb_spec MAXVA va); [lia|].
  destruct (walk_from_alloc 2 k F root T va root He Hk H HA) as (r & k' & F' & T' & E & G & R & Hc).
  { lia. } { change (Z.of_nat 2) with 2. rewrite tpre_top by done. apply H. }
  exists r, k', F', T'. split; [done|]. split; [done|]. split; [|done]. destruct R as [R|R]; [by left|]. right. split; [|done].
  destruct R as (p & Hp & ->). destruct (pt_page _ _ _ (g_pt _ _ _ _ _ _ _ G) _ _ Hp) as (_ & _ & ?).
  pose proof (PX_range 0 va). lia.
Qed.

End inv.
