(* ===== verification/VmDemo.v ===== *)
(** * A concrete address space

    A small memory with the page table of a parent that maps one user page,
    the empty page table of a child, and four free pages: the input on which
    the theorems on page tables are evaluated. *)

From S2P Require Import Prelude Riscv Mem Kalloc Vm VmSpec.

Definition demo_end : Z := PHYSTOP - 16 * PGSIZE.
Definition P (i : Z) : Z := demo_end + i * PGSIZE.
Definition demo_free : list Z := [P 5; P 6; P 7; P 8].
Definition demo_ent : Z := PA2PTE (P 3) + (PTE_V + PTE_R + PTE_W + PTE_U).

Definition demo_mem : mem :=
  let m := st64 (st64 (st64 ∅ (P 5) (P 6)) (P 6) (P 7)) (P 7) (P 8) in
  let m := st64 (st64 m (P 0) (PA2PTE (P 1) + PTE_V)) (P 1) (PA2PTE (P 2) + PTE_V) in
  stb (st64 m (P 2) demo_ent) (P 3 + 100) 42.

Definition demo_km : km := mkkm demo_mem (P 5).
Definition demo_T1 : gmap (Z * Z) Z := {[(2, 0) := P 0; (1, 0) := P 1; (0, 0) := P 2]}.
Definition demo_T2 : gmap (Z * Z) Z := {[(2, 0) := P 4]}.

(** No valid entry from [i] on. *)
Definition no_entry (m : mem) (p i : Z) : bool := forallb (fun j => negb (has (ent m p j) PTE_V)) (seqZ i (512 - i)).

Lemma no_entry_spec m p i j : no_entry m p i = true -> 0 <= i -> i <= j < 512 -> has (ent m p j) PTE_V = false.
Proof.
  unfold no_entry. rewrite forallb_forall. intros H Hi Hj. apply negb_true_iff, H.
  apply list_elem_of_In, elem_of_seqZ. lia.
Qed.

Lemma demo_page_ok i : 0 <= i < 16 -> page_ok demo_end (P i).
Proof.
  intros Hi. split; [|unfold P, demo_end, PHYSTOP, KERNBASE, PGSIZE; lia]. unfold P, demo_end.
  rewrite Z.mod_add by done. reflexivity.
Qed.

Lemma demo_vm_ok : mem_ok demo_mem.
Proof. apply stb_ok. do 6 apply st64_ok. intros a. vm_compute. split; congruence. Qed.

Lemma demo_km_ok : km_ok demo_end demo_km demo_free.
Proof.
  split.
  - exact demo_vm_ok.
  - vm_compute. repeat split.
  - repeat constructor; by apply demo_page_ok.
  - apply (bool_decide_unpack _). vm_compute. exact I.
Qed.

Lemma demo_T1_inv l pre p :
  demo_T1 !! (l, pre) = Some p ->
  (l = 2 /\ pre = 0 /\ p = P 0) \/ (l = 1 /\ pre = 0 /\ p = P 1) \/ (l = 0 /\ pre = 0 /\ p = P 2).
Proof. unfold demo_T1. rewrite !lookup_insert_Some, lookup_singleton_Some. naive_solver. Qed.

Lemma demo_T2_inv x p : demo_T2 !! x = Some p -> x = (2, 0) /\ p = P 4.
Proof. unfold demo_T2. rewrite lookup_singleton_Some. naive_solver. Qed.

Lemma demo_pt1 : pt_ok demo_end demo_mem (P 0) demo_T1.
Proof.
  split.
  - reflexivity.
  - intros l pre p H%demo_T1_inv. lia.
  - intros [l pre] p H%demo_T1_inv. destruct H as [(_ & _ & ->)|[(_ & _ & ->)|(_ & _ & ->)]]; by apply demo_page_ok.
  - intros [l pre] [l' pre'] p Hx%demo_T1_inv Hy%demo_T1_inv. unfold P, PGSIZE in *. f_equal; lia.
  - intros l pre p H%demo_T1_inv Hl. destruct H as [(-> & -> & _)|[(-> & -> & _)|(-> & -> & _)]]; [lia|by eexists|by eexists].
  - intros l pre p i H%demo_T1_inv Hl Hi Hn. destruct (decide (i = 0)) as [->|].
    { destruct H as [(-> & -> & ->)|[(-> & -> & ->)|(-> & -> & ->)]]; [done|done|lia]. }
    apply no_entry_spec with 1; [|lia|lia].
    destruct H as [(-> & -> & ->)|[(-> & -> & ->)|(-> & -> & ->)]]; [by vm_compute|by vm_compute|lia].
  - intros l pre p i q H%demo_T1_inv Hl Hi Hq%demo_T1_inv. assert (i = 0) as -> by lia.
    assert ((p = P 0 /\ q = P 1) \/ (p = P 1 /\ q = P 2)) as [[-> ->]|[-> ->]] by lia; by vm_compute.
Qed.

Lemma demo_pt2 : pt_ok demo_end demo_mem (P 4) demo_T2.
Proof.
  split.
  - reflexivity.
  - intros l pre p [[= -> ->] _]%demo_T2_inv. lia.
  - intros x p [_ ->]%demo_T2_inv. by apply demo_page_ok.
  - intros x y p [-> _]%demo_T2_inv [-> _]%demo_T2_inv. done.
  - intros l pre p [[= -> ->] _]%demo_T2_inv. lia.
  - intros l pre p i [_ ->]%demo_T2_inv _ Hi _. apply no_entry_spec with 0; [by vm_compute|lia|lia].
  - intros l pre p i q [[= -> ->] _]%demo_T2_inv _ _ [[= ?] _]%demo_T2_inv.
Qed.

Lemma demo_mp2 vpn : mp demo_mem demo_T2 vpn = None.
Proof. unfold mp. destruct (demo_T2 !! _) as [p|] eqn:E; [|done]. by apply demo_T2_inv in E as [[=] _]. Qed.

Lemma demo_apart : apart demo_T1 demo_free /\ apart demo_T2 demo_free.
Proof.
  split.
  - intros [l pre] p H%demo_T1_inv Hf. unfold demo_free, P, PGSIZE in *. set_unfold. lia.
  - intros x p [_ ->]%demo_T2_inv Hf. unfold demo_free, P, PGSIZE in *. set_unfold. lia.
Qed.
