(* ===== verification/VmMap.v ===== *)
(** * Mapping and unmapping

    [mappages] adds exactly the mappings asked for, [uvmunmap] removes them
    and returns the pages to the free list. *)

From S2P Require Import Prelude Riscv Mem Kalloc Vm VmSpec VmDemo.

Lemma has_lor_V x : has (Z.lor x PTE_V) PTE_V = true.
Proof.
  unfold has. rewrite Z.land_lor_distr_l. change (Z.land PTE_V PTE_V) with 1.
  destruct (Z.eqb_spec (Z.lor (Z.land x PTE_V) 1) 0) as [E|]; [|done].
  apply Z.lor_eq_0_iff in E as [_ ?]. done.
Qed.

(** The entry [mappages] writes. *)
Definition leaf (pa perm : Z) : Z := PA2PTE pa + Z.lor perm PTE_V.

Lemma lor_V_range perm : 0 <= perm < 1024 -> 0 <= Z.lor perm PTE_V < 1024.
Proof.
  intros H. split; [apply Z.lor_nonneg; split; [lia|done]|]. change 1024 with (2 ^ 10) in *.
  destruct (Z.eq_dec perm 0) as [->|]; [done|].
  apply Z.log2_lt_pow2; [|rewrite Z.log2_lor by (done || lia); apply Z.max_lub_lt; [apply Z.log2_lt_pow2; lia|done]].
  assert (0 <= Z.lor perm PTE_V) by (apply Z.lor_nonneg; split; [lia|done]).
  destruct (Z.eq_dec (Z.lor perm PTE_V) 0) as [E|]; [|lia]. apply Z.lor_eq_0_iff in E as [? ?]. done.
Qed.

Lemma leaf_eq pa perm :
  0 <= pa < 2 ^ 56 -> 0 <= perm < 1024 -> Z.lor (Z.lor (PA2PTE pa) perm) PTE_V = leaf pa perm.
Proof.
  intros Hpa Hperm. rewrite <- Z.lor_assoc. destruct (PA2PTE_range pa Hpa) as [A B].
  apply lor_flags; [lia|done|]. by apply lor_V_range.
Qed.

Lemma leaf_facts pa perm :
  0 <= pa < 2 ^ 56 -> pa mod PGSIZE = 0 -> 0 <= perm < 1024 ->
  0 <= leaf pa perm < 2 ^ 64 /\ has (leaf pa perm) PTE_V = true /\ PTE2PA (leaf pa perm) = pa /\
  PTE_FLAGS (leaf pa perm) = Z.lor perm PTE_V.
Proof.
  intros Hpa Hal Hperm. pose proof (lor_V_range perm Hperm) as Hf. destruct (PA2PTE_range pa Hpa) as [A B].
  split; [unfold leaf; lia|]. split; [rewrite <- leaf_eq by done; apply has_lor_V|].
  split; [by apply PTE2PA_PA2PTE|]. unfold PTE_FLAGS. change 0x3FF with (Z.ones 10).
  rewrite Z.land_ones by lia. unfold leaf. change (2 ^ 10) with 1024.
  rewrite Zplus_mod, B, Z.add_0_l, Z.mod_mod by done. by apply Z.mod_small.
Qed.

Section map.
Context (end_ : Z) (fuel : nat).
Implicit Types (T : gmap (Z * Z) Z).
Context (He : 0 <= end_).

(** Like [grows], with the new mapping given by [f]. *)
Record evolves root k (F : list Z) T k' (F' : list Z) T' (f : Z -> option Z) : Prop := {
  v_km : km_ok end_ k' F';
  v_pt : pt_ok end_ (km_mem k') root T';
  v_apart : apart T' F';
  v_sub : forall x p, T !! x = Some p -> T' !! x = Some p;
  v_taken : exists l, F = l ++ F' /\ (forall x p, T' !! x = Some p -> T !! x = Some p \/ p ∈ l) /\
    (forall p, p ∈ l -> exists x, T' !! x = Some p);
  v_mp : forall vpn, 0 <= vpn -> mp (km_mem k') T' vpn = f vpn;
  v_mem : forall a, (forall x p, T' !! x = Some p -> ~ (p <= a < p + PGSIZE)) ->
    ldb (km_mem k') a = ldb (km_mem k) a
}.

Lemma grows_evolves root k F T k' F' T' :
  grows end_ root k F T k' F' T' -> evolves root k F T k' F' T' (mp (km_mem k) T).
Proof. intros []. by split. Qed.

Lemma evolves_trans root k F T k1 F1 T1 f k2 F2 T2 g :
  evolves root k F T k1 F1 T1 f -> evolves root k1 F1 T1 k2 F2 T2 g -> evolves root k F T k2 F2 T2 g.
Proof.
  intros [A1 B1 C1 D1 (l1 & E1 & E1' & E1'') F1' G1] [A2 B2 C2 D2 (l2 & E2 & E2' & E2'') F2' G2].
  split; try done.
  - intros x p Hx. by apply D2, D1.
  - exists (l1 ++ l2). split; [by rewrite E1, E2, app_assoc|]. split.
    + intros x p [Hx|Hx]%E2'; [|right; apply elem_of_app; by right]. apply E1' in Hx as [Hx|Hx]; [by left|].
      right. apply elem_of_app. by left.
    + intros p [Hp|Hp]%elem_of_app; [|by apply E2'']. destruct (E1'' p Hp) as [x Hx]. exists x. by apply D2.
  - intros a Ha. rewrite G2, G1; [done| |done]. intros x p Hx. eapply Ha, D2, Hx.
Qed.

Lemma evolves_ext root k F T k' F' T' f g :
  evolves root k F T k' F' T' f -> (forall vpn, 0 <= vpn -> f vpn = g vpn) -> evolves root k F T k' F' T' g.
Proof. intros [] E. split; try done. intros vpn Hv. rewrite <- E by done. auto. Qed.

(** Storing a leaf entry found by [walk]. *)
Lemma store_leaf root k F T va r v :
  km_ok end_ k F -> pt_ok end_ (km_mem k) root T -> apart T F -> 0 <= va -> found T va r -> 0 <= v < 2 ^ 64 ->
  evolves root k F T (set_mem (st64 (km_mem k) r v) k) F T
    (fun vpn => if decide (vpn = va / PGSIZE) then if has v PTE_V then Some v else None else mp (km_mem k) T vpn).
Proof.
  intros Hk H HA Hva (p & Hp & ->) Hv. destruct (vpn_split va Hva) as [E1 E2]. rewrite E1 in Hp. rewrite E2.
  destruct (pt_leaf end_ (km_mem k) root T (va / PGSIZE) p v H Hp Hv) as [Hpt Hmp].
  pose proof (Z.mod_pos_bound (va / PGSIZE) 512 ltac:(lia)) as Hi.
  assert (forall a, ~ (p <= a < p + PGSIZE) -> ldb (st64 (km_mem k) (p + 8 * ((va / PGSIZE) mod 512)) v) a = ldb (km_mem k) a) as Hout.
  { intros a Ha. unfold st64. apply ldb_st_out. unfold PGSIZE in Ha. lia. }
  split; try done.
  - apply km_ok_frame; [done|apply st64_ok, Hk|]. intros a (q & Hq & Ha). apply Hout. intros Ha'.
    assert (q <> p) by (intros ->; by apply (HA _ _ Hp)). pose proof (ko_pages _ _ _ Hk) as HP.
    rewrite Forall_forall in HP. destruct (HP q Hq) as [Hqal _]. destruct (pt_page _ _ _ _ H _ _ Hp) as [Hpal _].
    destruct (page_disjoint q p); [done|done|done|lia|lia].
  - exists []. split; [done|]. split; [by left|]. intros q Hq. by apply not_elem_of_nil in Hq.
  - intros a Ha. apply Hout. by eapply Ha.
Qed.

(** ** [mappages] *)

(** The mapping after [j] pages from [vpn0] on were added. *)
Definition with_pages (f : Z -> option Z) (vpn0 pa perm j vpn : Z) : option Z :=
  if decide (vpn0 <= vpn < vpn0 + j) then Some (leaf (pa + (vpn - vpn0) * PGSIZE) perm) else f vpn.

Lemma with_pages_0 f vpn0 pa perm vpn : with_pages f vpn0 pa perm 0 vpn = f vpn.
Proof. unfold with_pages. rewrite decide_False by lia. done. Qed.

(** One page: the table walk and the store. *)
Lemma map_one k F root T a pa perm :
  km_ok end_ k F -> pt_ok end_ (km_mem k) root T -> apart T F ->
  0 <= a < MAXVA -> 0 <= pa < 2 ^ 56 -> pa mod PGSIZE = 0 -> 0 <= perm < 1024 ->
  mp (km_mem k) T (a / PGSIZE) = None ->
  exists r k1 F1 T1, walk root a true k = Ok (r, k1) /\
    ((r = 0 /\ F1 = [] /\ evolves root k F T k1 F1 T1 (mp (km_mem k) T)) \/
     (r <> 0 /\ has (ld64 (km_mem k1) r) PTE_V = false /\
      evolves root k F T (set_mem (st64 (km_mem k1) r (leaf pa perm)) k1) F1 T1
        (with_pages (mp (km_mem k) T) (a / PGSIZE) pa perm 1))) /\ (length F <= length F1 + 2)%nat.
Proof.
  intros Hk H HA Ha Hpa Hpal Hperm Hno.
  destruct (walk_alloc end_ k F root T a He Hk H HA Ha) as (r & k1 & F1 & T1 & E1 & G & R & Hc).
  exists r, k1, F1, T1. split; [done|]. split; [|done]. pose proof (grows_evolves _ _ _ _ _ _ _ G) as V.
  destruct R as [[-> ->]|[Hr R]]; [by left|]. right. split; [done|].
  assert (0 <= a / PGSIZE) as Hvpn by (apply Z.div_pos; unfold PGSIZE; lia).
  pose proof (g_mp _ _ _ _ _ _ _ _ G (a / PGSIZE) Hvpn) as Hm. rewrite Hno, mp_lookup in Hm by lia.
  split.
  - destruct R as (p & Hp & ->). rewrite Hp in Hm. unfold ent in Hm. by destruct (has _ PTE_V).
  - destruct (leaf_facts pa perm Hpa Hpal Hperm) as (L1 & L2 & _).
    pose proof (store_leaf root k1 F1 T1 a r (leaf pa perm) (g_km _ _ _ _ _ _ _ _ G) (g_pt _ _ _ _ _ _ _ _ G)
      (g_apart _ _ _ _ _ _ _ _ G) ltac:(lia) R L1) as V2.
    eapply evolves_ext; [eapply evolves_trans; [exact V|exact V2]|]. intros vpn Hv. cbv beta.
    unfold with_pages. rewrite L2. case_decide as E.
    + subst. rewrite decide_True by lia. do 2 f_equal. lia.
    + rewrite decide_False by lia. by apply G.
Qed.

Lemma page_next a : 0 <= a -> a mod PGSIZE = 0 -> (a + PGSIZE) mod PGSIZE = 0 /\ (a + PGSIZE) / PGSIZE = a / PGSIZE + 1.
Proof.
  intros Ha E. unfold PGSIZE in *. split; [by rewrite Zplus_mod, E|]. rewrite <- (Z.mul_1_l 4096) at 1.
  by rewrite Z.div_add by lia.
Qed.

Lemma mappages_from_spec n fuel' k F root T a pa perm :
  km_ok end_ k F -> pt_ok end_ (km_mem k) root T -> apart T F ->
  (n < fuel')%nat -> 0 <= a -> a mod PGSIZE = 0 -> a + Z.of_nat n * PGSIZE < MAXVA ->
  0 <= pa -> pa mod PGSIZE = 0 -> pa + Z.of_nat n * PGSIZE < 2 ^ 56 -> 0 <= perm < 1024 ->
  (forall vpn, a / PGSIZE <= vpn <= a / PGSIZE + Z.of_nat n -> mp (km_mem k) T vpn = None) ->
  exists r k' F' T' j, mappages_from fuel' root a (a + Z.of_nat n * PGSIZE) pa perm k = Ok (r, k') /\
    evolves root k F T k' F' T' (with_pages (mp (km_mem k) T) (a / PGSIZE) pa perm j) /\
    ((r = 0 /\ j = Z.of_nat n + 1) \/ (r = -1 /\ F' = [] /\ 0 <= j <= Z.of_nat n)) /\
    (length F <= length F' + 2 * S n)%nat.
Proof.
  revert fuel' k F T a pa. induction n as [|n IH]; intros fuel' k F T a pa Hk H HA Hf Ha Hal Hmax Hpa Hpal Hpmax Hperm Hno;
    (destruct fuel' as [|fuel']; [lia|]); cbn [mappages_from].
  all: destruct (map_one k F root T a pa perm Hk H HA) as (r & k1 & F1 & T1 & E1 & R & Hc);
    [mlia|mlia|done|done|apply Hno; lia|];
    rewrite (M_bind_Ok _ _ _ _ _ E1); destruct R as [(-> & -> & V)|(Hr & Hh & V)].
  1,3: exists (-1), k1, [], T1, 0; split; [done|]; split; [|split; [right; split_and!; done || lia|cbn in *; lia]];
    eapply evolves_ext; [exact V|]; intros; by rewrite with_pages_0.
  all: destruct (Z.eqb_spec r 0); [done|]; unfold kld64, kst64; mgo; rewrite Hh; mgo;
    rewrite leaf_eq by (mlia); set (k2 := set_mem _ k1) in *.
  - rewrite Z.add_0_r, Z.eqb_refl. exists 0, k2, F1, T1, 1. split; [done|]. split; [done|]. split; [left; lia|lia].
  - destruct (Z.eqb_spec a (a + Z.of_nat (S n) * PGSIZE)); [mlia|].
    destruct (page_next a Ha Hal) as [N1 N2]. destruct (page_next pa Hpa Hpal) as [N3 _].
    rewrite !u64_small by mlia.
    destruct (IH fuel' k2 F1 T1 (a + PGSIZE) (pa + PGSIZE) (v_km _ _ _ _ _ _ _ _ V) (v_pt _ _ _ _ _ _ _ _ V)
      (v_apart _ _ _ _ _ _ _ _ V)) as (r' & k' & F' & T' & j & E' & V' & R' & Hc'); try done; try (mlia).
    { intros vpn Hv. rewrite N2 in Hv. rewrite (v_mp _ _ _ _ _ _ _ _ V) by (pose proof (Z.div_pos a PGSIZE); mlia).
      unfold with_pages. rewrite decide_False by lia. apply Hno. lia. }
    replace (a + PGSIZE + Z.of_nat n * PGSIZE) with (a + Z.of_nat (S n) * PGSIZE) in E' by (unfold PGSIZE; lia).
    exists r', k', F', T', (j + 1). split; [done|].
    split; [|split; [destruct R' as [[-> ->]|(-> & -> & ?)]; [left|right]; split_and!; done || lia|lia]].
    eapply evolves_ext; [eapply evolves_trans; [exact V|exact V']|]. intros vpn Hv. unfold with_pages at 1.
    rewrite N2, (v_mp _ _ _ _ _ _ _ _ V) by done. unfold with_pages. repeat case_decide; try lia; try done.
    do 2 f_equal. lia.
Qed.

Lemma mappages_spec k F root T va size pa perm n :
  km_ok end_ k F -> pt_ok end_ (km_mem k) root T -> apart T F ->
  0 <= va -> 0 < size -> va + size <= MAXVA ->
  PGROUNDDOWN (va + size - 1) = PGROUNDDOWN va + Z.of_nat n * PGSIZE -> (n < fuel)%nat ->
  0 <= pa -> pa mod PGSIZE = 0 -> pa + Z.of_nat n * PGSIZE < 2 ^ 56 -> 0 <= perm < 1024 ->
  (forall vpn, va / PGSIZE <= vpn <= va / PGSIZE + Z.of_nat n -> mp (km_mem k) T vpn = None) ->
  exists r k' F' T' j, mappages fuel root va size pa perm k = Ok (r, k') /\
    evolves root k F T k' F' T' (with_pages (mp (km_mem k) T) (va / PGSIZE) pa perm j) /\
    ((r = 0 /\ j = Z.of_nat n + 1) \/ (r = -1 /\ F' = [] /\ 0 <= j <= Z.of_nat n)) /\
    (length F <= length F' + 2 * S n)%nat.
Proof.
  intros Hk H HA Hva Hsz Hmax Hlast Hf Hpa Hpal Hpmax Hperm Hno. unfold mappages.
  destruct (Z.eqb_spec size 0); [lia|]. rewrite (u64_small (va + size - 1)) by mlia. rewrite Hlast.
  assert (PGROUNDDOWN va / PGSIZE = va / PGSIZE) as Ev.
  { rewrite PGROUNDDOWN_spec by done. rewrite (Z.div_mod va PGSIZE) at 1 by done.
    replace (PGSIZE * (va / PGSIZE) + va mod PGSIZE - va mod PGSIZE) with (va / PGSIZE * PGSIZE) by lia.
    by rewrite Z.div_mul. }
  rewrite <- Ev in *. pose proof (PGROUNDDOWN_le va Hva). pose proof (PGROUNDDOWN_le (va + size - 1) ltac:(lia)).
  assert (0 <= PGROUNDDOWN va) by (rewrite PGROUNDDOWN_spec by done; pose proof (Z.mod_le va PGSIZE); mlia).
  apply mappages_from_spec; try done; [by apply PGROUNDDOWN_aligned|lia].
Qed.

(** C9: [mappages] maps exactly the pages asked for.  With the pages unmapped
    before, it either succeeds, and then every page of the range translates to
    its physical page with the given permissions and every other page as
    before, or returns -1 with a prefix of the range mapped, having used up
    the free pages, two per page of the range at most; memory outside the tables is not touched, and what
    [walkaddr] returns is the physical page for user mappings. *)
Theorem mappages_correct k F root T va size pa perm n
    (Hk : km_ok end_ k F) (H : pt_ok end_ (km_mem k) root T) (HA : apart T F)
    (Hva : 0 <= va) (Hsz : 0 < size) (Hmax : va + size <= MAXVA)
    (Hlast : PGROUNDDOWN (va + size - 1) = PGROUNDDOWN va + Z.of_nat n * PGSIZE) (Hf : (n < fuel)%nat)
    (Hpa : 0 <= pa) (Hpal : pa mod PGSIZE = 0) (Hpmax : pa + Z.of_nat n * PGSIZE < 2 ^ 56)
    (Hperm : 0 <= perm < 1024)
    (Hno : forall vpn, va / PGSIZE <= vpn <= va / PGSIZE + Z.of_nat n -> mp (km_mem k) T vpn = None) :
  exists r k' F' T' j, mappages fuel root va size pa perm k = Ok (r, k') /\
    evolves root k F T k' F' T' (with_pages (mp (km_mem k) T) (va / PGSIZE) pa perm j) /\
    ((r = -1 /\ F' = [] /\ 0 <= j <= Z.of_nat n /\ (length F <= 2 * S n)%nat) \/
     (r = 0 /\ j = Z.of_nat n + 1 /\
      forall va', va <= va' < va + size ->
        walkaddr root va' k' =
          Ok (if has (leaf (pa + (va' / PGSIZE - va / PGSIZE) * PGSIZE) perm) PTE_U
              then pa + (va' / PGSIZE - va / PGSIZE) * PGSIZE else 0, k'))).
Proof.
  destruct (mappages_spec k F root T va size pa perm n Hk H HA Hva Hsz Hmax Hlast Hf Hpa Hpal Hpmax Hperm Hno)
    as (r & k' & F' & T' & j & E & V & R & Hc).
  exists r, k', F', T', j. split; [done|]. split; [done|].
  destruct R as [[-> ->]|(-> & -> & Hj)]; [right|left; split_and!; [done|done|lia|lia|cbn in Hc; lia]].
  split; [done|]. split; [done|]. intros va' Hva'.
  rewrite (walkaddr_spec end_ k' root T' va' He (v_pt _ _ _ _ _ _ _ _ V)) by lia.
  assert (va / PGSIZE <= va' / PGSIZE <= va / PGSIZE + Z.of_nat n) as Hr.
  { split; [apply Z.div_le_mono; mlia|]. pose proof (Z.div_le_mono va' (va + size - 1) PGSIZE).
    assert ((va + size - 1) / PGSIZE = va / PGSIZE + Z.of_nat n); [|mlia].
    rewrite !PGROUNDDOWN_spec in Hlast by lia. pose proof (Z.div_mod va PGSIZE). pose proof (Z.div_mod (va + size - 1) PGSIZE).
    mlia. }
  rewrite (v_mp _ _ _ _ _ _ _ _ V) by (apply Z.div_pos; mlia). unfold with_pages. rewrite decide_True by lia.
  destruct (leaf_facts (pa + (va' / PGSIZE - va / PGSIZE) * PGSIZE) perm) as (_ & _ & -> & _); [mlia| |done|done].
  unfold PGSIZE in *. by rewrite Z.mod_add.
Qed.

(** ** [uvmunmap] *)

(** The mapping without [j] pages from [vpn0] on. *)
Definition without_pages (f : Z -> option Z) (vpn0 j vpn : Z) : option Z :=
  if decide (vpn0 <= vpn < vpn0 + j) then None else f vpn.

(** The pages from [vpn0] on are mapped by leaf entries to [pas]. *)
Fixpoint mapped_to (f : Z -> option Z) (vpn0 : Z) (pas : list Z) : Prop :=
  match pas with
  | [] => True
  | pa :: pas' => (exists e, f vpn0 = Some e /\ PTE2PA e = pa /\ PTE_FLAGS e <> PTE_V) /\ mapped_to f (vpn0 + 1) pas'
  end.

Lemma mapped_to_ext f g vpn0 pas :
  (forall vpn, vpn0 <= vpn -> f vpn = g vpn) -> mapped_to f vpn0 pas -> mapped_to g vpn0 pas.
Proof.
  revert vpn0. induction pas as [|pa pas IH]; intros vpn0 E; [done|]. intros [H1 H2]. cbn.
  rewrite <- (E vpn0) by lia. split; [done|]. eapply IH; [|done]. intros vpn Hv. apply E. lia.
Qed.

(** What unmapping does to memory, free list and mapping. *)
Record unmaps root k T k' F' (pas : list Z) (f : Z -> option Z) : Prop := {
  u_km : km_ok end_ k' F';
  u_pt : pt_ok end_ (km_mem k') root T;
  u_apart : apart T F';
  u_mp : forall vpn, 0 <= vpn -> mp (km_mem k') T vpn = f vpn;
  u_mem : forall a, (forall x p, T !! x = Some p -> ~ (p <= a < p + PGSIZE)) ->
    (forall p, p ∈ pas -> ~ (p <= a < p + PGSIZE)) -> ldb (km_mem k') a = ldb (km_mem k) a
}.

(** Freeing a page that is no table. *)
Lemma free_page root k F T pa :
  km_ok end_ k F -> pt_ok end_ (km_mem k) root T -> apart T (pa :: F) -> page_ok end_ pa -> pa ∉ F ->
  exists k', kfree end_ pa k = Ok (tt, k') /\ unmaps root k T k' (pa :: F) [pa] (mp (km_mem k) T).
Proof.
  intros Hk H HA Hpa Hni. destruct (kfree_spec end_ k pa F Hk Hpa Hni He) as (k' & E & Hk' & Hm).
  exists k'. split; [done|].
  destruct (pt_frame end_ (km_mem k) (km_mem k') root T H) as [P1 P2].
  { intros x p i Hx Hi. apply ent_ext; [done|]. intros a Ha. apply Hm. intros Ha'.
    assert (p <> pa) by (intros ->; apply (HA _ _ Hx); left). destruct Hpa as [Hal _].
    destruct (pt_page _ _ _ _ H _ _ Hx) as [Hxal _]. destruct (page_disjoint p pa); [done|done|done|lia|lia]. }
  split; try done. intros a _ Ha. apply Hm, Ha. left.
Qed.

Lemma unmap_one root k F T va pa (b : bool) :
  km_ok end_ k F -> pt_ok end_ (km_mem k) root T -> apart T F -> 0 <= va < MAXVA ->
  (exists e, mp (km_mem k) T (va / PGSIZE) = Some e /\ PTE2PA e = pa /\ PTE_FLAGS e <> PTE_V) ->
  (b = true -> page_ok end_ pa /\ apart T (pa :: F) /\ pa ∉ F) ->
  exists pte e k1 k2, walk root va false k = Ok (pte, k) /\ pte <> 0 /\ ld64 (km_mem k) pte = e /\
    has e PTE_V = true /\ PTE_FLAGS e <> PTE_V /\
    when b (kfree end_ (PTE2PA e)) k = Ok (tt, k1) /\ k2 = set_mem (st64 (km_mem k1) pte 0) k1 /\
    unmaps root k T k2 (if b then pa :: F else F) (if b then [pa] else []) (without_pages (mp (km_mem k) T) (va / PGSIZE) 1).
Proof.
  intros Hk H HA Hva (e & Hm & Hpa & Hfl) Hb.
  rewrite mp_lookup in Hm by lia. destruct (T !! (0, tpre 0 va)) as [p|] eqn:Ep; [|done].
  destruct (has (ent (km_mem k) p (PX 0 va)) PTE_V) eqn:Eh; [|done]. injection Hm as Em.
  pose proof (PX_range 0 va) as Hx. destruct (pt_page _ _ _ _ H _ _ Ep) as (_ & _ & Hp0).
  assert (exists k1, when b (kfree end_ (PTE2PA e)) k = Ok (tt, k1) /\
    unmaps root k T k1 (if b then pa :: F else F) (if b then [pa] else []) (mp (km_mem k) T)) as (k1 & E1 & U).
  { destruct b; cbn [when].
    - destruct (Hb eq_refl) as (B1 & B2 & B3). rewrite Hpa. by apply free_page.
    - exists k. split; [done|]. by split. }
  exists (p + 8 * PX 0 va), e, k1. eexists. split; [by rewrite (walk_lookup end_ k root T va He H Hva), Ep|].
  split; [lia|]. split; [done|]. rewrite <- Em at 1. split; [done|]. split; [done|]. split; [done|].
  split; [reflexivity|]. destruct U as [U1 U2 U3 U4 U5].
  pose proof (store_leaf root k1 _ T va _ 0 U1 U2 U3 ltac:(lia) (ex_intro _ p (conj Ep eq_refl)) ltac:(lia)) as [V1 V2 V3 _ _ V6 V7].
  split; try done.
  - intros vpn Hv. rewrite V6 by done. unfold without_pages. rewrite U4 by done.
    change (has 0 PTE_V) with false. cbv iota. repeat case_decide; done || lia.
  - intros a Ha1 Ha2. rewrite V7 by done. by apply U5.
Qed.

(** The pages to be freed are pages of the allocator in use as user memory. *)
Definition user_pages T (F pas : list Z) : Prop :=
  Forall (page_ok end_) pas /\ NoDup (pas ++ F) /\ apart T (pas ++ F).

Lemma uvmunmap_from_spec pas fuel' k F root T va (b : bool) :
  km_ok end_ k F -> pt_ok end_ (km_mem k) root T -> apart T F ->
  (length pas < fuel')%nat -> 0 <= va -> va mod PGSIZE = 0 -> va + Z.of_nat (length pas) * PGSIZE <= MAXVA ->
  mapped_to (mp (km_mem k) T) (va / PGSIZE) pas -> (b = true -> user_pages T F pas) ->
  exists k', uvmunmap_from end_ fuel' root va (va + Z.of_nat (length pas) * PGSIZE) b k = Ok (tt, k') /\
    unmaps root k T k' (if b then reverse pas ++ F else F) (if b then pas else [])
      (without_pages (mp (km_mem k) T) (va / PGSIZE) (Z.of_nat (length pas))).
Proof.
  revert fuel' k F va. induction pas as [|pa pas IH]; intros fuel' k F va Hk H HA Hf Hva Hal Hmax Hm Hb;
    (destruct fuel' as [|fuel']; [cbn in Hf; lia|]); cbn [uvmunmap_from length] in *.
  { destruct (Z.ltb_spec va (va + Z.of_nat 0 * PGSIZE)); [mlia|]. exists k. split; [done|].
    split; [by destruct b|done|by destruct b| |by destruct b]. intros vpn _. unfold without_pages. by rewrite decide_False by lia. }
  destruct (Z.ltb_spec va (va + Z.of_nat (S (length pas)) * PGSIZE)); [|mlia]. cbn [negb].
  destruct Hm as [Hm1 Hm2].
  destruct (unmap_one root k F T va pa b Hk H HA) as (pte & e & k1 & k2 & E1 & Hp0 & E2 & Hv & Hfl & E3 & E4 & U).
  { mlia. } { done. }
  { intros ->. destruct (Hb eq_refl) as (B1 & B2 & B3). apply Forall_cons in B1 as [B1 _].
    cbn in B2. apply NoDup_cons in B2 as [B2 _]. split; [done|]. split.
    - intros x q Hx Hin. apply (B3 x q Hx). apply elem_of_cons in Hin as [->|Hin]; [left|]. right. apply elem_of_app. by right.
    - intros Hin. apply B2, elem_of_app. by right. }
  destruct U as [U1 U2 U3 U4 U5]. destruct (page_next va Hva Hal) as [N1 N2].
  destruct (IH fuel' k2 (if b then pa :: F else F) (va + PGSIZE) U1 U2 U3) as (k' & E' & W); try done; try mlia.
  { rewrite N2. eapply mapped_to_ext; [|exact Hm2]. intros vpn Hvpn.
    rewrite U4 by (pose proof (Z.div_pos va PGSIZE); mlia). unfold without_pages. by rewrite decide_False by lia. }
  { intros ->. destruct (Hb eq_refl) as (B1 & B2 & B3). apply Forall_cons in B1 as [_ B1].
    assert ((pa :: pas) ++ F ≡ₚ pas ++ pa :: F) as P by (cbn; apply Permutation_middle).
    split; [done|]. split; [by rewrite <- P|]. intros x q Hx Hin. apply (B3 x q Hx). by rewrite P. }
  exists k'. rewrite (M_bind_Ok _ _ _ _ _ E1). destruct (Z.eqb_spec pte 0); [done|].
  unfold kld64. mgo. rewrite E2, Hv. destruct (Z.eqb_spec (PTE_FLAGS e) PTE_V); [done|]. cbn [negb].
  rewrite (M_bind_Ok _ _ _ _ _ E3). unfold kst64. mgo. rewrite <- E4, u64_small by mlia.
  replace (va + PGSIZE + Z.of_nat (length pas) * PGSIZE) with (va + Z.of_nat (S (length pas)) * PGSIZE) in E' by mlia.
  split; [exact E'|]. destruct W as [W1 W2 W3 W4 W5].
  assert ((if b then reverse (pa :: pas) ++ F else F) = (if b then reverse pas ++ (if b then pa :: F else F) else (if b then pa :: F else F))) as ->.
  { destruct b; [|done]. by rewrite reverse_cons, <- app_assoc. }
  split; try done.
  - intros vpn Hvpn. rewrite W4 by done. unfold without_pages at 1. rewrite N2, U4 by done. unfold without_pages.
    repeat case_decide; done || lia.
  - intros a Ha1 Ha2. rewrite W5; [apply U5; [done|]|done|]; intros p Hp; destruct b; set_solver.
Qed.

Lemma uvmunmap_spec pas k F root T va (b : bool) :
  km_ok end_ k F -> pt_ok end_ (km_mem k) root T -> apart T F ->
  (length pas < fuel)%nat -> 0 <= va -> va mod PGSIZE = 0 -> va + Z.of_nat (length pas) * PGSIZE <= MAXVA ->
  mapped_to (mp (km_mem k) T) (va / PGSIZE) pas -> (b = true -> user_pages T F pas) ->
  exists k', uvmunmap end_ fuel root va (Z.of_nat (length pas)) b k = Ok (tt, k') /\
    unmaps root k T k' (if b then reverse pas ++ F else F) (if b then pas else [])
      (without_pages (mp (km_mem k) T) (va / PGSIZE) (Z.of_nat (length pas))).
Proof.
  intros Hk H HA Hf Hva Hal Hmax Hm Hb. unfold uvmunmap. rewrite Hal. cbn [Z.eqb negb].
  rewrite u64_small by mlia. by apply uvmunmap_from_spec.
Qed.

End map.

(** Mapping two pages at address 0 into the empty table. *)
Lemma mappages_correct_witness :
  exists r k' F' T' j, mappages 2 (P 4) 0 (2 * PGSIZE) (P 10) (PTE_R + PTE_U) demo_km = Ok (r, k') /\
    evolves demo_end (P 4) demo_km demo_free demo_T2 k' F' T'
      (with_pages (mp demo_mem demo_T2) 0 (P 10) (PTE_R + PTE_U) j) /\
    ((r = -1 /\ F' = [] /\ 0 <= j <= 1) \/ (r = 0 /\ j = 2 /\ walkaddr (P 4) 5000 k' = Ok (P 11, k'))).
Proof.
  destruct (mappages_correct demo_end 2 ltac:(vm_compute; congruence) demo_km demo_free (P 4) demo_T2 0 (2 * PGSIZE) (P 10)
    (PTE_R + PTE_U) 1 demo_km_ok demo_pt2 (proj2 demo_apart)) as (r & k' & F' & T' & j & E & V & R).
  - lia.
  - reflexivity.
  - vm_compute. congruence.
  - reflexivity.
  - lia.
  - vm_compute. congruence.
  - reflexivity.
  - reflexivity.
  - vm_compute. split; congruence.
  - intros vpn _. apply demo_mp2.
  - exists r, k', F', T', j. split; [exact E|]. split; [exact V|]. destruct R as [(-> & -> & R & _)|(-> & -> & R)]; [left; split_and!; [reflexivity|reflexivity|exact (proj1 R)|exact (proj2 R)]|right].
    split; [reflexivity|]. split; [reflexivity|]. exact (R 5000 ltac:(vm_compute; split; congruence)).
Defined.
