(* ===== verification/VmCopy.v ===== *)
(** * Copying an address space (kernel/vm.c, [uvmcopy])

    What [fork] relies on: the child gets its own pages with the contents and
    permissions of the parent's; the parent is not affected; and when memory
    runs out everything allocated is given back. *)

From S2P Require Import Prelude Riscv Mem Kalloc Vm VmSpec VmDemo VmMap.

Section copy.
Context (end_ : Z) (fuel : nat).
Implicit Types (T : gmap (Z * Z) Z).
Context (He : 0 <= end_).

Definition in_page (p a : Z) : Prop := p <= a < p + PGSIZE.

(** A page allocated and filled with the contents of the page [p]. *)
Lemma alloc_copy k q F p :
  km_ok end_ k (q :: F) -> p mod PGSIZE = 0 -> p <> q ->
  exists k1 k2, kalloc k = Ok (q, k1) /\ q <> 0 /\
    k2 = set_mem (memmove q p PGSIZE (km_mem k1)) k1 /\ km_ok end_ k2 F /\ page_ok end_ q /\ q ∉ F /\
    forall a, ldb (km_mem k2) a = if decide (in_page q a) then ldb (km_mem k) (p + (a - q)) else ldb (km_mem k) a.
Proof.
  intros Hk Hp Hne. destruct (kalloc_page end_ k q F Hk) as (k1 & E1 & Hk1 & Hqn & Hq & Hm1).
  exists k1, (set_mem (memmove q p PGSIZE (km_mem k1)) k1). split; [done|].
  split; [destruct Hq as (_ & _ & ?); lia|]. split; [done|].
  assert (forall a, ldb (memmove q p PGSIZE (km_mem k1)) a =
    if decide (in_page q a) then ldb (km_mem k) (p + (a - q)) else ldb (km_mem k) a) as Hm.
  { intros a. rewrite memmove_spec by (apply Hk1 || mlia). unfold in_page. case_decide as Ha.
    - rewrite Hm1. rewrite decide_False; [done|]. destruct Hq as [Hqal _].
      destruct (page_disjoint p q Hp Hqal Hne); mlia.
    - rewrite Hm1. by rewrite decide_False. }
  split; [|done]. apply km_ok_frame; [done|apply memmove_ok; [apply Hk1|mlia]|].
  intros a (r & Hr & Ha). rewrite Hm, Hm1. unfold in_page.
  assert (~ (q <= a < q + PGSIZE)); [|by rewrite !decide_False].
  pose proof (ko_pages _ _ _ Hk1) as HP. rewrite Forall_forall in HP. destruct (HP r Hr) as [Hral _].
  destruct Hq as [Hqal _]. destruct (page_disjoint r q Hral Hqal); [by intros ->|lia|lia].
Qed.

(** Memory that changed in the page [q] only, which is no table. *)
Lemma pt_frame_page m m' root T q :
  pt_ok end_ m root T -> q mod PGSIZE = 0 -> (forall x, T !! x <> Some q) ->
  (forall a, ~ in_page q a -> ldb m' a = ldb m a) ->
  pt_ok end_ m' root T /\ forall vpn, mp m' T vpn = mp m T vpn.
Proof.
  intros H Hq Hn Hm. apply (pt_frame end_ m m' root T H). intros x p i Hx Hi. apply ent_ext; [done|].
  intros a Ha. apply Hm. intros Ha'. destruct (pt_page _ _ _ _ H _ _ Hx) as [Hp _].
  destruct (page_disjoint p q Hp Hq); [intros ->; by apply (Hn x)|unfold in_page in *; lia|unfold in_page in *; lia].
Qed.

(** The entries of the parent for the pages [pas]. *)
Definition parent_ents (f : Z -> option Z) (es : list Z) : Prop :=
  forall i e, es !! i = Some e -> f (Z.of_nat i) = Some e /\ PTE_FLAGS e <> PTE_V /\
    page_ok end_ (PTE2PA e) /\ 0 <= e.

(** Tables and pages of parent and child do not meet. *)
Record setup k root1 T1 root2 T2 (F es : list Z) : Prop := {
  su_km : km_ok end_ k F;
  su_old : pt_ok end_ (km_mem k) root1 T1;
  su_new : pt_ok end_ (km_mem k) root2 T2;
  su_ents : parent_ents (mp (km_mem k) T1) es;
  su_free : forall i, 0 <= i < Z.of_nat (length es) -> mp (km_mem k) T2 i = None;
  su_a1 : apart T1 F;
  su_a2 : apart T2 F;
  su_a12 : forall x y p, T1 !! x = Some p -> T2 !! y <> Some p;
  su_pages : forall e, e ∈ es -> PTE2PA e ∉ F /\ forall x, T2 !! x <> Some (PTE2PA e)
}.

(** While copying: the pages [qs] are allocated and filled with the contents of
    the first pages of the parent, the child's mapping is [f]. *)
Record copied k root1 T1 root2 T2 (F es : list Z) k' T2' (F' qs : list Z) (f : Z -> option Z) : Prop := {
  cp_km : km_ok end_ k' F';
  cp_old : pt_ok end_ (km_mem k') root1 T1;
  cp_oldmp : forall vpn, mp (km_mem k') T1 vpn = mp (km_mem k) T1 vpn;
  cp_new : pt_ok end_ (km_mem k') root2 T2';
  cp_newmp : forall vpn, 0 <= vpn -> mp (km_mem k') T2' vpn = f vpn;
  cp_data : forall i q e o, qs !! i = Some q -> es !! i = Some e -> 0 <= o < PGSIZE ->
    ldb (km_mem k') (q + o) = ldb (km_mem k) (PTE2PA e + o);
  cp_mem : forall a, (forall x p, T2' !! x = Some p -> ~ in_page p a) ->
    (forall q, q ∈ qs ++ F' -> ~ in_page q a) -> ldb (km_mem k') a = ldb (km_mem k) a;
  cp_acct : exists l, F ≡ₚ l ++ qs ++ F' /\ (forall x p, T2' !! x = Some p -> T2 !! x = Some p \/ p ∈ l) /\
    (forall p, p ∈ l -> exists x, T2' !! x = Some p);
  cp_sub : forall x p, T2 !! x = Some p -> T2' !! x = Some p;
  cp_apart : apart T2' (qs ++ F')
}.

(** Everything the copy owns is disjoint from everything else. *)
Lemma copied_disjoint k root1 T1 root2 T2 F es k' T2' F' qs f :
  setup k root1 T1 root2 T2 F es -> copied k root1 T1 root2 T2 F es k' T2' F' qs f ->
  NoDup (qs ++ F') /\ Forall (page_ok end_) (qs ++ F') /\ apart T1 (qs ++ F') /\
  (forall x y p, T1 !! x = Some p -> T2' !! y <> Some p) /\
  (forall e, e ∈ es -> PTE2PA e ∉ qs ++ F' /\ forall x, T2' !! x <> Some (PTE2PA e)).
Proof.
  intros S C. destruct (cp_acct _ _ _ _ _ _ _ _ _ _ _ _ C) as (l & P & HT & _).
  assert (forall p, p ∈ qs ++ F' -> p ∈ F) as Hin by (intros p Hp; rewrite P; apply elem_of_app; by right).
  assert (forall p, p ∈ l -> p ∈ F) as Hl by (intros p Hp; rewrite P; apply elem_of_app; by left).
  destruct S as [[_ _ SP SN] _ _ _ _ S1 _ S12 SE]. split_and!.
  - rewrite P in SN. by apply NoDup_app in SN as (_ & _ & ?).
  - rewrite Forall_forall in *. auto.
  - intros x p Hx Hp. by apply (S1 x p Hx), Hin.
  - intros x y p Hx [Hy|Hy]%HT; [by apply (S12 x y p)|]. by apply (S1 x p Hx), Hl.
  - intros e He'. destruct (SE e He') as [A B]. split; [by intros ?%Hin|].
    intros x [Hx|Hx]%HT; [by apply (B x)|by apply A, Hl].
Qed.

Lemma copied_init k root1 T1 root2 T2 F es :
  setup k root1 T1 root2 T2 F es -> copied k root1 T1 root2 T2 F es k T2 F [] (mp (km_mem k) T2).
Proof. intros []. split; try done. exists []. split_and!; [done|by left|by intros p Hp%not_elem_of_nil]. Qed.

Lemma in_page_other p q a : p mod PGSIZE = 0 -> q mod PGSIZE = 0 -> p <> q -> in_page p a -> ~ in_page q a.
Proof. intros Hp Hq Hne Ha Ha'. unfold in_page in *. destruct (page_disjoint p q Hp Hq Hne); lia. Qed.

Lemma leaf_pa_aligned e : page_ok end_ (PTE2PA e) -> PTE2PA e mod PGSIZE = 0.
Proof. by intros []. Qed.

(** One more page is allocated and filled. *)
Lemma copied_fill k root1 T1 root2 T2 F es k' T2' q F' qs f e :
  setup k root1 T1 root2 T2 F es -> copied k root1 T1 root2 T2 F es k' T2' (q :: F') qs f ->
  es !! length qs = Some e ->
  exists k1, kalloc k' = Ok (q, k1) /\ q <> 0 /\
    copied k root1 T1 root2 T2 F es (set_mem (memmove q (PTE2PA e) PGSIZE (km_mem k1)) k1) T2' F' (qs ++ [q]) f.
Proof.
  intros S C Ee. destruct (copied_disjoint _ _ _ _ _ _ _ _ _ _ _ _ S C) as (D1 & D2 & D3 & D4 & D5).
  destruct (su_ents _ _ _ _ _ _ _ S _ _ Ee) as (_ & _ & Hpe & _).
  pose proof (list_elem_of_lookup_2 _ _ _ Ee) as Hein. destruct (D5 e Hein) as [De1 De2].
  assert (q ∈ qs ++ q :: F') as Hq by (apply elem_of_app; right; left).
  destruct (alloc_copy k' q F' (PTE2PA e)) as (k1 & k2 & E1 & Hq0 & -> & Hk2 & Hqok & Hqn & Hm);
    [apply C|by apply leaf_pa_aligned|by intros <-|].
  exists k1. split; [done|]. split; [done|]. set (m2 := set_mem _ k1) in *.
  assert (forall a, ~ in_page q a -> ldb (km_mem m2) a = ldb (km_mem k') a) as Hout
    by (intros a Ha; by rewrite Hm, decide_False).
  pose proof Hqok as [Hqal _].
  destruct (pt_frame_page (km_mem k') (km_mem m2) root1 T1 q) as [O1 O2];
    [apply C|done|intros x Hx; by apply (D3 x q)|done|].
  destruct (pt_frame_page (km_mem k') (km_mem m2) root2 T2' q) as [N1 N2];
    [apply C|done|intros x Hx; by apply (cp_apart _ _ _ _ _ _ _ _ _ _ _ _ C x q)|done|].
  destruct C as [C1 C2 C3 C4 C5 C6 C7 C8 C9 C10].
  split; try done.
  - intros vpn. by rewrite O2.
  - intros vpn Hv. rewrite N2. auto.
  - intros i q' e' o Hi He' Ho. destruct (decide (i < length qs)%nat).
    + rewrite lookup_app_l in Hi by done. rewrite Hout; [by apply (C6 i q' e' o)|].
      pose proof (list_elem_of_lookup_2 _ _ _ Hi) as Hq'.
      rewrite Forall_forall in D2. destruct (D2 q') as [Hal' _]; [apply elem_of_app; by left|].
      apply (in_page_other q'); [done|done| |unfold in_page; lia].
      intros ->. apply NoDup_app in D1 as (_ & D1 & _). apply (D1 q Hq'). left.
    + rewrite lookup_app_r in Hi by lia. apply list_lookup_singleton_Some in Hi as [Hi ->].
      assert (i = length qs) as -> by lia. rewrite Ee in He'. injection He' as <-.
      rewrite Hm, decide_True by (unfold in_page; lia). replace (PTE2PA e + (q' + o - q')) with (PTE2PA e + o) by lia.
      apply C7.
      * intros x p Hx Ha. destruct (pt_page _ _ _ _ C4 _ _ Hx) as [Hal _].
        apply (in_page_other (PTE2PA e) p (PTE2PA e + o)); [apply Hpe|done| |unfold in_page; lia|done].
        intros <-. by apply (De2 x).
      * intros r Hr Ha. rewrite Forall_forall in D2. destruct (D2 r Hr) as [Hal _].
        apply (in_page_other (PTE2PA e) r (PTE2PA e + o)); [apply Hpe|done| |unfold in_page; lia|done].
        by intros <-.
  - rewrite <- app_assoc. intros a Ha1 Ha2. rewrite Hout by (by apply Ha2). by apply C7.
  - rewrite <- app_assoc. done.
  - rewrite <- app_assoc. done.
Qed.

(** The child's table grows. *)
Lemma copied_map k root1 T1 root2 T2 F es k' T2' F' qs f k3 F3 T3 g :
  setup k root1 T1 root2 T2 F es -> copied k root1 T1 root2 T2 F es k' T2' F' qs f ->
  evolves end_ root2 k' F' T2' k3 F3 T3 g -> copied k root1 T1 root2 T2 F es k3 T3 F3 qs g.
Proof.
  intros S C V. destruct (copied_disjoint _ _ _ _ _ _ _ _ _ _ _ _ S C) as (D1 & D2 & D3 & D4 & D5).
  destruct V as [V1 V2 V3 V4 (l3 & EF & V5 & V6) V7 V8]. destruct C as [C1 C2 C3 C4 C5 C6 C7 (l & P & C8 & C8') C9 C10].
  assert (forall y p, T3 !! y = Some p -> T2' !! y = Some p \/ p ∈ F') as HT3.
  { intros y p [Hy|Hy]%V5; [by left|right]. rewrite EF. apply elem_of_app. by left. }
  assert (apart T3 qs) as Hqs.
  { intros y p Hy Hp. apply HT3 in Hy as [Hy|Hy].
    - apply (C10 y p Hy), elem_of_app. by left.
    - by apply NoDup_app in D1 as (_ & D1 & _); apply (D1 p). }
  destruct (pt_frame end_ (km_mem k') (km_mem k3) root1 T1 C2) as [O1 O2].
  { intros x p i Hx Hi. apply ent_ext; [done|]. intros a Ha. apply V8. intros y r Hy.
    apply (in_page_other p r a); [by apply (pt_page _ _ _ _ C2 _ _ Hx)|by apply (pt_page _ _ _ _ V2 _ _ Hy)| |done].
    intros <-. apply HT3 in Hy as [Hy|Hy]; [by apply (D4 x y p)|].
    apply (D3 x p Hx), elem_of_app. by right. }
  split; try done.
  - intros vpn. by rewrite O2.
  - intros i q e o Hi He' Ho. rewrite V8; [by apply (C6 i q e o)|]. intros x p Hx.
    pose proof (list_elem_of_lookup_2 _ _ _ Hi) as Hq. rewrite Forall_forall in D2.
    apply (in_page_other q p); [apply D2, elem_of_app; by left|by apply (pt_page _ _ _ _ V2 _ _ Hx)| |unfold in_page; lia].
    intros <-. by apply (Hqs x q).
  - intros a Ha1 Ha2. rewrite V8 by done. apply C7.
    + intros x p Hx. by apply (Ha1 x p), V4.
    + intros q Hq. rewrite EF in Hq. apply elem_of_app in Hq as [Hq|[Hq|Hq]%elem_of_app].
      * apply Ha2, elem_of_app. by left.
      * destruct (V6 q Hq) as [x Hx]. by apply (Ha1 x).
      * apply Ha2, elem_of_app. by right.
  - exists (l ++ l3). split_and!; [rewrite P, EF; solve_Permutation| |].
    + intros x p [Hx|Hx]%V5; [|right; apply elem_of_app; by right].
      apply C8 in Hx as [Hx|Hx]; [by left|]. right. apply elem_of_app. by left.
    + intros p [Hp|Hp]%elem_of_app; [|by apply V6]. destruct (C8' p Hp) as [x Hx]. exists x. by apply V4.
  - intros x p Hx. by apply V4, C9.
  - intros x p Hx [Hp|Hp]%elem_of_app; [by apply (Hqs x p)|by apply (V3 x p)].
Qed.

(** The page allocated last is given back. *)
Lemma copied_free k root1 T1 root2 T2 F es k' T2' F' qs q f :
  setup k root1 T1 root2 T2 F es -> copied k root1 T1 root2 T2 F es k' T2' F' (qs ++ [q]) f ->
  exists k4, kfree end_ q k' = Ok (tt, k4) /\ copied k root1 T1 root2 T2 F es k4 T2' (q :: F') qs f.
Proof.
  intros S C. destruct (copied_disjoint _ _ _ _ _ _ _ _ _ _ _ _ S C) as (D1 & D2 & D3 & D4 & D5).
  rewrite <- app_assoc in *. cbn in D1, D2, D3, D5. rewrite Forall_forall in D2.
  assert (q ∈ qs ++ q :: F') as Hq by (apply elem_of_app; right; left). pose proof (D2 q Hq) as Hqok.
  pose proof D1 as D1'. apply NoDup_app in D1' as (_ & Dq & Dn). apply NoDup_cons in Dn as [Dn _].
  destruct (kfree_spec end_ k' q F' (cp_km _ _ _ _ _ _ _ _ _ _ _ _ C) Hqok Dn He) as (k4 & E4 & Hk4 & Hm).
  exists k4. split; [done|]. pose proof Hqok as [Hqal _]. destruct C as [C1 C2 C3 C4 C5 C6 C7 C8 C9 C10].
  rewrite <- app_assoc in C7, C8, C10.
  destruct (pt_frame_page (km_mem k') (km_mem k4) root1 T1 q C2 Hqal) as [O1 O2]; [intros x Hx; by apply (D3 x q)|done|].
  destruct (pt_frame_page (km_mem k') (km_mem k4) root2 T2' q C4 Hqal) as [N1 N2]; [intros x Hx; by apply (C10 x q)|done|].
  split; try done.
  - intros vpn. by rewrite O2.
  - intros vpn Hv. rewrite N2. auto.
  - intros i r e o Hi He' Ho. pose proof (list_elem_of_lookup_2 _ _ _ Hi) as Hr.
    rewrite Hm; [apply (C6 i r e o); [by apply lookup_app_l_Some|done|done]|].
    apply (in_page_other r); [apply D2, elem_of_app; by left|done| |unfold in_page; lia].
    intros ->. apply (Dq q Hr). left.
  - intros a Ha1 Ha2. rewrite Hm by (by apply Ha2). by apply C7.
Qed.

(** The child's mapping once the pages [qs] are mapped. *)
Definition child_map (f : Z -> option Z) (qs es : list Z) (vpn : Z) : option Z :=
  match qs !! Z.to_nat vpn, es !! Z.to_nat vpn with
  | Some q, Some e => Some (leaf q (PTE_FLAGS e))
  | _, _ => f vpn
  end.

Lemma child_map_snoc f qs es q e vpn :
  0 <= vpn -> es !! length qs = Some e ->
  with_pages (child_map f qs es) (Z.of_nat (length qs)) q (PTE_FLAGS e) 1 vpn = child_map f (qs ++ [q]) es vpn.
Proof.
  intros Hv Ee. unfold with_pages, child_map. case_decide as Hd.
  - assert (vpn = Z.of_nat (length qs)) as -> by lia. rewrite Nat2Z.id, lookup_app_r, Nat.sub_diag, Ee by lia.
    cbn. do 2 f_equal. lia.
  - destruct (decide (Z.to_nat vpn < length qs)%nat); [by rewrite lookup_app_l|].
    rewrite (lookup_ge_None_2 qs), (lookup_ge_None_2 (qs ++ [q])); [done|rewrite length_app; cbn; lia|lia].
Qed.

Lemma PTE_FLAGS_range e : 0 <= PTE_FLAGS e < 1024.
Proof. unfold PTE_FLAGS. change 0x3FF with (Z.ones 10). rewrite Z.land_ones by lia. by apply Z.mod_pos_bound. Qed.

Lemma flags_valid e : has e PTE_V = true -> Z.lor (PTE_FLAGS e) PTE_V = PTE_FLAGS e.
Proof.
  intros H. apply Z.bits_inj'. intros n Hn. rewrite Z.lor_spec. destruct (Z.eq_dec n 0) as [->|].
  - change (Z.testbit PTE_V 0) with true. rewrite orb_true_r. unfold PTE_FLAGS. rewrite Z.land_spec.
    change (Z.testbit 0x3FF 0) with true. rewrite andb_true_r, Z.bit0_odd. unfold has in H.
    change PTE_V with (Z.ones 1) in H. rewrite Z.land_ones in H by lia. change (2 ^ 1) with 2 in H.
    rewrite Zmod_odd in H. by destruct (Z.odd e).
  - change PTE_V with (2 ^ 0). rewrite Z.pow2_bits_false by lia. by rewrite orb_false_r.
Qed.

Lemma mp_valid m T vpn e : mp m T vpn = Some e -> has e PTE_V = true.
Proof. unfold mp. destruct (T !! _) as [p|]; [|done]. cbv zeta. destruct (has (ent _ _ _) _) eqn:E; [|done]. by intros [= <-]. Qed.

(** A page is allocated, filled and mapped into the child. *)
Lemma copy_page k root1 T1 root2 T2 F es k' T2' q F' qs e :
  let f := child_map (mp (km_mem k) T2) in let i := Z.of_nat (length qs) * PGSIZE in
  setup k root1 T1 root2 T2 F es -> copied k root1 T1 root2 T2 F es k' T2' (q :: F') qs (f qs es) ->
  es !! length qs = Some e -> i <= MAXVA - PGSIZE -> (0 < fuel)%nat ->
  exists k1 r k3 T3, kalloc k' = Ok (q, k1) /\ q <> 0 /\
    mappages fuel root2 i PGSIZE q (PTE_FLAGS e) (set_mem (memmove q (PTE2PA e) PGSIZE (km_mem k1)) k1) = Ok (r, k3) /\
    ((r = 0 /\ exists F3, (length F' <= length F3 + 2)%nat /\ copied k root1 T1 root2 T2 F es k3 T3 F3 (qs ++ [q]) (f (qs ++ [q]) es)) \/
     (r = -1 /\ (length F' <= 2)%nat /\ exists k4, kfree end_ q k3 = Ok (tt, k4) /\ copied k root1 T1 root2 T2 F es k4 T3 [q] qs (f qs es))).
Proof.
  intros f i S C Ee Hi Hf. assert (i / PGSIZE = Z.of_nat (length qs)) as Ei by (unfold i; by apply Z.div_mul).
  assert (0 <= i) by (unfold i; mlia).
  destruct (copied_fill _ _ _ _ _ _ _ _ _ _ _ _ _ _ S C Ee) as (k1 & E1 & Hq0 & C1).
  set (k2 := set_mem _ k1) in *.
  destruct (copied_disjoint _ _ _ _ _ _ _ _ _ _ _ _ S C1) as (_ & D2 & _ & _ & _).
  rewrite Forall_forall in D2. pose proof (D2 q ltac:(apply elem_of_app; left; apply elem_of_app; right; left)) as Hqok.
  destruct (page_ok_range end_ q He Hqok) as [Hq1 Hq2].
  destruct (mappages_spec end_ fuel He k2 F' root2 T2' i PGSIZE q (PTE_FLAGS e) 0) as (r & k3 & F3 & T3 & j & E3 & V & R3 & Hc).
  all: try (apply C1 || done || mlia || apply PTE_FLAGS_range).
  { intros x y Hx Hy. apply (cp_apart _ _ _ _ _ _ _ _ _ _ _ _ C1 x y Hx), elem_of_app. by right. }
  { assert (i mod PGSIZE = 0) by (unfold i; by apply Z.mod_mul).
    rewrite (PGROUNDDOWN_id i), PGROUNDDOWN_spec by (done || mlia).
    assert ((i + PGSIZE - 1) mod PGSIZE = PGSIZE - 1); [|mlia].
    replace (i + PGSIZE - 1) with (PGSIZE - 1 + Z.of_nat (length qs) * PGSIZE) by (unfold i; mlia).
    by rewrite Z.mod_add. }
  { intros vpn Hv. rewrite Ei in Hv. assert (vpn = Z.of_nat (length qs)) as -> by lia.
    rewrite (cp_newmp _ _ _ _ _ _ _ _ _ _ _ _ C1) by lia. unfold f, child_map.
    rewrite Nat2Z.id, (lookup_ge_None_2 qs) by lia. apply (su_free _ _ _ _ _ _ _ S).
    apply lookup_lt_Some in Ee. lia. }
  exists k1, r, k3, T3. split; [done|]. split; [done|]. split; [done|]. rewrite Ei in V.
  pose proof (copied_map _ _ _ _ _ _ _ _ _ _ _ _ _ _ _ _ S C1 V) as C3.
  destruct R3 as [[-> ->]|(-> & -> & Hj)]; [left|right]; (split; [done|]).
  - exists F3. split; [lia|]. destruct C3. split; try done. intros vpn Hv. unfold f.
    rewrite cp_newmp0 by done. rewrite <- (child_map_snoc _ _ _ q e) by done. unfold with_pages at 1 2.
    case_decide; [by case_decide|]. case_decide; [done|]. by apply C1.
  - split; [cbn in Hc; lia|]. destruct (copied_free _ _ _ _ _ _ _ _ _ _ _ _ _ S C3) as (k4 & E4 & C4).
    exists k4. split; [done|]. destruct C4. split; try done. intros vpn Hv. rewrite cp_newmp0 by done.
    assert (j = 0) as -> by lia. rewrite with_pages_0. by apply C1.
Qed.

(** One turn of the loop. *)
Lemma copy_turn fuel' k root1 T1 root2 T2 F es k' T2' F' qs e sz :
  let f := child_map (mp (km_mem k) T2) in let i := Z.of_nat (length qs) * PGSIZE in
  setup k root1 T1 root2 T2 F es -> copied k root1 T1 root2 T2 F es k' T2' F' qs (f qs es) ->
  es !! length qs = Some e -> i < sz -> sz <= MAXVA - PGSIZE -> (0 < fuel)%nat ->
  (exists k'' T'' F'', uvmcopy_from end_ fuel (S fuel') root1 root2 i sz k' = Ok (inl i, k'') /\
     (length F' <= 3)%nat /\ copied k root1 T1 root2 T2 F es k'' T'' F'' qs (f qs es)) \/
  (exists k'' T'' F'' q,
     uvmcopy_from end_ fuel (S fuel') root1 root2 i sz k' = uvmcopy_from end_ fuel fuel' root1 root2 (u64 (i + PGSIZE)) sz k'' /\
     (length F' <= length F'' + 3)%nat /\ copied k root1 T1 root2 T2 F es k'' T'' F'' (qs ++ [q]) (f (qs ++ [q]) es)).
Proof.
  intros f i S C Ee Hi Hsz Hf. cbn [uvmcopy_from]. destruct (Z.ltb_spec i sz); [|lia]. cbn [negb].
  destruct (su_ents _ _ _ _ _ _ _ S _ _ Ee) as (Hm & _ & Hpe & _).
  assert (i / PGSIZE = Z.of_nat (length qs)) as Ei by (unfold i; by apply Z.div_mul).
  assert (0 <= i) by (unfold i; mlia).
  rewrite (M_bind_Ok _ _ _ _ _ (walk_lookup end_ k' root1 T1 i He (cp_old _ _ _ _ _ _ _ _ _ _ _ _ C) ltac:(mlia))).
  assert (mp (km_mem k') T1 (i / PGSIZE) = Some e) as Hmp by (by rewrite (cp_oldmp _ _ _ _ _ _ _ _ _ _ _ _ C), Ei).
  rewrite mp_lookup in Hmp by done. destruct (T1 !! (0, tpre 0 i)) as [p|] eqn:Ep; [|done].
  destruct (has (ent (km_mem k') p (PX 0 i)) PTE_V) eqn:Eh; [|done]. injection Hmp as Hent.
  destruct (pt_page _ _ _ _ (cp_old _ _ _ _ _ _ _ _ _ _ _ _ C) _ _ Ep) as (_ & _ & Hp0). pose proof (PX_range 0 i).
  destruct (Z.eqb_spec (p + 8 * PX 0 i) 0); [lia|]. unfold kld64. mgo. fold (ent (km_mem k') p (PX 0 i)).
  rewrite Eh, Hent. cbn [negb]. destruct F' as [|q F'].
  { left. exists k', T2', []. rewrite (M_bind_Ok _ _ _ _ _ (kalloc_empty end_ _ (cp_km _ _ _ _ _ _ _ _ _ _ _ _ C))).
    cbn. split_and!; [done|lia|done]. }
  destruct (copy_page _ _ _ _ _ _ _ _ _ _ _ _ e S C Ee) as (k1 & r & k3 & T3 & E1 & Hq0 & E3 & R); [unfold i in *; mlia|done|].
  rewrite (M_bind_Ok _ _ _ _ _ E1). destruct (Z.eqb_spec q 0); [done|]. unfold kmemmove. mgo.
  rewrite (M_bind_Ok _ _ _ _ _ E3). destruct R as [(-> & F3 & Hc & C3)|(-> & Hc & k4 & E4 & C4)]; cbn [Z.eqb negb].
  - right. exists k3, T3, F3, q. split_and!; [done|cbn; lia|done].
  - left. exists k4, T3, [q]. rewrite (M_bind_Ok _ _ _ _ _ E4). split_and!; [done|cbn; lia|done].
Qed.

(** The loop. *)
Lemma copy_loop n fuel' k root1 T1 root2 T2 F es k' T2' F' qs sz :
  let f := child_map (mp (km_mem k) T2) in
  setup k root1 T1 root2 T2 F es -> copied k root1 T1 root2 T2 F es k' T2' F' qs (f qs es) ->
  length es = (length qs + n)%nat -> (n < fuel')%nat -> (0 < fuel)%nat ->
  sz <= Z.of_nat (length es) * PGSIZE < sz + PGSIZE -> sz <= MAXVA - PGSIZE -> (length F <= length F' + 3 * length qs)%nat ->
  exists r k'' T'' F'' qs'',
    uvmcopy_from end_ fuel fuel' root1 root2 (Z.of_nat (length qs) * PGSIZE) sz k' = Ok (r, k'') /\
    copied k root1 T1 root2 T2 F es k'' T'' F'' qs'' (f qs'' es) /\
    ((r = inr tt /\ length qs'' = length es) \/
     (r = inl (Z.of_nat (length qs'') * PGSIZE) /\ (length qs'' < length es)%nat /\ (length F <= 3 * length es)%nat)).
Proof.
  intros f. revert fuel' k' T2' F' qs. induction n as [|n IH]; intros fuel' k' T2' F' qs S C Hn Hf Hf' Hsz Hmax Hc;
    (destruct fuel' as [|fuel']; [lia|]).
  - exists (inr tt), k', T2', F', qs. cbn [uvmcopy_from].
    destruct (Z.ltb_spec (Z.of_nat (length qs) * PGSIZE) sz); [mlia|]. split; [done|]. split; [done|]. left. split; [done|lia].
  - destruct (lookup_lt_is_Some_2 es (length qs)) as [e Ee]; [lia|].
    destruct (copy_turn fuel' _ _ _ _ _ _ _ _ _ _ _ e sz S C Ee) as [(k2 & T3 & F3 & E & HF & C2)|(k2 & T3 & F3 & q & E & HF & C2)];
      [mlia|done|done| |].
    + exists (inl (Z.of_nat (length qs) * PGSIZE)), k2, T3, F3, qs. split; [done|]. split; [done|]. right.
      split_and!; [done|lia|lia].
    + rewrite E. destruct (IH fuel' k2 T3 F3 (qs ++ [q])) as (r & k4 & T4 & F4 & qs4 & E4 & R4); try done; try lia.
      { rewrite length_app. cbn. lia. }
      { rewrite length_app. cbn. lia. }
      exists r, k4, T4, F4, qs4. rewrite length_app in E4. cbn [length] in E4. rewrite <- E4. split; [|done].
      f_equal. rewrite u64_small by mlia. mlia.
Qed.

(** ** [uvmcopy] *)

Lemma mapped_to_intro f vpn0 pas :
  (forall i pa, pas !! i = Some pa -> exists e, f (vpn0 + Z.of_nat i) = Some e /\ PTE2PA e = pa /\ PTE_FLAGS e <> PTE_V) ->
  mapped_to f vpn0 pas.
Proof.
  revert vpn0. induction pas as [|pa pas IH]; intros vpn0 H; [done|]. split.
  - rewrite <- (Z.add_0_r vpn0). apply (H O pa). done.
  - apply IH. intros i q Hi. replace (vpn0 + 1 + Z.of_nat i) with (vpn0 + Z.of_nat (S i)) by lia. by apply H.
Qed.

(** The pages mapped into the child, as [uvmunmap] expects them. *)
Lemma child_mapped k root1 T1 root2 T2 F es k' T2' F' qs :
  setup k root1 T1 root2 T2 F es ->
  copied k root1 T1 root2 T2 F es k' T2' F' qs (child_map (mp (km_mem k) T2) qs es) ->
  (length qs <= length es)%nat ->
  mapped_to (mp (km_mem k') T2') (0 / PGSIZE) qs /\ user_pages end_ T2' F' qs.
Proof.
  intros S C Hlen. destruct (copied_disjoint _ _ _ _ _ _ _ _ _ _ _ _ S C) as (D1 & D2 & _ & _ & _). split.
  - apply mapped_to_intro. intros i q Hi. change (0 / PGSIZE) with 0. rewrite Z.add_0_l.
    rewrite (cp_newmp _ _ _ _ _ _ _ _ _ _ _ _ C) by lia. unfold child_map. rewrite !Nat2Z.id, Hi.
    destruct (lookup_lt_is_Some_2 es i) as [e Ee]; [apply lookup_lt_Some in Hi; lia|]. rewrite Ee.
    destruct (su_ents _ _ _ _ _ _ _ S _ _ Ee) as (Hm & Hfl & _).
    rewrite Forall_forall in D2. pose proof (D2 q ltac:(apply elem_of_app; left; by eapply list_elem_of_lookup_2)) as Hq.
    destruct (page_ok_range end_ q He Hq) as [Hq1 Hq2].
    destruct (leaf_facts q (PTE_FLAGS e) Hq1 Hq2 (PTE_FLAGS_range e)) as (_ & _ & L3 & L4).
    eexists. split; [reflexivity|]. split; [done|]. rewrite L4. by rewrite flags_valid by (by eapply mp_valid).
  - split; [by apply Forall_app in D2 as [? _]|]. split; [done|apply C].
Qed.

(** The parent's memory is not touched. *)
Lemma copied_parent_data k root1 T1 root2 T2 F es k' T2' F' qs f e o :
  setup k root1 T1 root2 T2 F es -> copied k root1 T1 root2 T2 F es k' T2' F' qs f ->
  e ∈ es -> 0 <= o < PGSIZE -> ldb (km_mem k') (PTE2PA e + o) = ldb (km_mem k) (PTE2PA e + o).
Proof.
  intros S C Hin Ho. destruct (copied_disjoint _ _ _ _ _ _ _ _ _ _ _ _ S C) as (D1 & D2 & D3 & D4 & D5).
  destruct (D5 e Hin) as [De1 De2]. apply list_elem_of_lookup_1 in Hin as [i Hi].
  destruct (su_ents _ _ _ _ _ _ _ S _ _ Hi) as (_ & _ & [Hal _] & _). rewrite Forall_forall in D2.
  apply (cp_mem _ _ _ _ _ _ _ _ _ _ _ _ C).
  - intros x p Hx. apply (in_page_other (PTE2PA e)); [done|by apply (pt_page _ _ _ _ (cp_new _ _ _ _ _ _ _ _ _ _ _ _ C) _ _ Hx)| |unfold in_page; lia].
    intros <-. by apply (De2 x).
  - intros q Hq. apply (in_page_other (PTE2PA e)); [done|by apply D2| |unfold in_page; lia]. by intros <-.
Qed.

(** After a failed copy the child's pages are back on the free list. *)
Lemma copied_undo k root1 T1 root2 T2 F es k' T2' F' qs :
  setup k root1 T1 root2 T2 F es ->
  copied k root1 T1 root2 T2 F es k' T2' F' qs (child_map (mp (km_mem k) T2) qs es) ->
  (length qs < length es)%nat -> Z.of_nat (length qs) * PGSIZE <= MAXVA -> (length qs < fuel)%nat ->
  exists k'', uvmunmap end_ fuel root2 0 (Z.of_nat (length qs)) true k' = Ok (tt, k'') /\
    copied k root1 T1 root2 T2 F es k'' T2' (reverse qs ++ F') [] (mp (km_mem k) T2).
Proof.
  intros S C Hlen Hmax Hf. destruct (child_mapped _ _ _ _ _ _ _ _ _ _ _ S C ltac:(lia)) as [Hm Hu].
  destruct (copied_disjoint _ _ _ _ _ _ _ _ _ _ _ _ S C) as (D1 & D2 & D3 & D4 & D5). rewrite Forall_forall in D2.
  destruct C as [C1 C2 C3 C4 C5 C6 C7 (l & P & C8 & C8') C9 C10].
  destruct (uvmunmap_spec end_ fuel He qs k' F' root2 T2' 0 true C1 C4) as (k'' & E & [U1 U2 U3 U4 U5]);
    try done; [intros x p Hx Hp; apply (C10 x p Hx), elem_of_app; by right|].
  exists k''. split; [done|].
  destruct (pt_frame end_ (km_mem k') (km_mem k'') root1 T1 C2) as [O1 O2].
  { intros x p i Hx Hi. apply ent_ext; [done|]. intros a Ha. pose proof (pt_page _ _ _ _ C2 _ _ Hx) as [Hp _].
    apply U5.
    - intros y r Hy. apply (in_page_other p r a); [done|by apply (pt_page _ _ _ _ C4 _ _ Hy)| |done]. intros <-. by apply (D4 x y p).
    - intros q Hq. apply (in_page_other p q a); [done|apply D2, elem_of_app; by left| |done].
      intros <-. apply (D3 x p Hx), elem_of_app. by left. }
  assert (reverse qs ++ F' ≡ₚ qs ++ F') as Pq by (by rewrite reverse_Permutation).
  split; try done.
  - intros vpn. by rewrite O2.
  - intros vpn Hv. rewrite U4 by done. unfold without_pages. change (0 / PGSIZE) with 0. case_decide as Hd.
    + symmetry. apply (su_free _ _ _ _ _ _ _ S). lia.
    + rewrite C5 by done. unfold child_map. by rewrite (lookup_ge_None_2 qs) by lia.
  - intros a Ha1 Ha2. cbn in Ha2. rewrite U5; [apply C7; [done|]|done|]; intros q Hq; apply Ha2; rewrite Pq; [done|].
    apply elem_of_app. by left.
  - exists l. split; [by rewrite Pq|done].
Qed.

(** The outcome of [uvmcopy], for its callers. *)
Lemma uvmcopy_copied k root1 T1 root2 T2 F es sz :
  setup k root1 T1 root2 T2 F es -> (length es < fuel)%nat ->
  sz <= Z.of_nat (length es) * PGSIZE < sz + PGSIZE -> 0 <= sz <= MAXVA - PGSIZE ->
  exists r k' T2' F' qs, uvmcopy end_ fuel root1 root2 sz k = Ok (r, k') /\
    copied k root1 T1 root2 T2 F es k' T2' F' qs (child_map (mp (km_mem k) T2) qs es) /\
    ((r = 0 /\ length qs = length es) \/ (r = -1 /\ qs = [] /\ (length F <= 3 * length es)%nat)).
Proof.
  intros S Hf Hsz Hmax. unfold uvmcopy.
  destruct (copy_loop (length es) fuel k root1 T1 root2 T2 F es k T2 F [] sz S) as (r & k' & T2' & F' & qs & E & C & R);
    [by apply copied_init|done|done|lia|done|mlia|cbn; lia|].
  change (Z.of_nat (length []) * PGSIZE) with 0 in E. rewrite (M_bind_Ok _ _ _ _ _ E).
  destruct R as [[-> Hlen]|(-> & Hlen & Hc)].
  - exists 0, k', T2', F', qs. split_and!; [done|done|by left].
  - rewrite Z.div_mul by done.
    destruct (copied_undo _ _ _ _ _ _ _ _ _ _ _ S C Hlen) as (k'' & E2 & C2); [mlia|lia|].
    rewrite (M_bind_Ok _ _ _ _ _ E2). exists (-1), k'', T2', (reverse qs ++ F'), []. split_and!; [done| |by right].
    destruct C2. by split.
Qed.

(** C6: [uvmcopy], what [fork] is built on.  With parent and child tables, user
    pages and free pages disjoint, it never panics and never exhausts its
    loop.  The parent's mapping and memory stay as they are.  On success every
    page of the parent is in the child's mapping, with the same permissions,
    on a page of its own taken from the free list and with the same contents;
    on failure, which needs three free pages or fewer per page of the parent,
    it returns -1, the child's mapping is what it was, and every page it took
    for the child's memory is back on the free list.  The pages it took for
    page tables of the child are not: in both cases these, and only these,
    stay in the child's table, for [freewalk] to return. *)
Theorem uvmcopy_correct k root1 T1 root2 T2 F es sz
    (S : setup k root1 T1 root2 T2 F es) (Hf : (length es < fuel)%nat)
    (Hsz : sz <= Z.of_nat (length es) * PGSIZE < sz + PGSIZE) (Hmax : 0 <= sz <= MAXVA - PGSIZE) :
  exists r k' T2' F', uvmcopy end_ fuel root1 root2 sz k = Ok (r, k') /\
    km_ok end_ k' F' /\ pt_ok end_ (km_mem k') root1 T1 /\ pt_ok end_ (km_mem k') root2 T2' /\ apart T2' F' /\
    (forall vpn, mp (km_mem k') T1 vpn = mp (km_mem k) T1 vpn) /\
    (forall e o, e ∈ es -> 0 <= o < PGSIZE -> ldb (km_mem k') (PTE2PA e + o) = ldb (km_mem k) (PTE2PA e + o)) /\
    ((r = 0 /\ exists qs l, length qs = length es /\ F ≡ₚ l ++ qs ++ F' /\
        (forall x p, T2' !! x = Some p -> T2 !! x = Some p \/ p ∈ l) /\
        (forall p, p ∈ l -> exists x, T2' !! x = Some p) /\
        (forall vpn, 0 <= vpn -> mp (km_mem k') T2' vpn = child_map (mp (km_mem k) T2) qs es vpn) /\
        (forall i q e o, qs !! i = Some q -> es !! i = Some e -> 0 <= o < PGSIZE ->
           ldb (km_mem k') (q + o) = ldb (km_mem k') (PTE2PA e + o))) \/
     (r = -1 /\ (length F <= 3 * length es)%nat /\ exists l, F ≡ₚ l ++ F' /\ (forall x p, T2' !! x = Some p -> T2 !! x = Some p \/ p ∈ l) /\
        (forall p, p ∈ l -> exists x, T2' !! x = Some p) /\
        (forall vpn, 0 <= vpn -> mp (km_mem k') T2' vpn = mp (km_mem k) T2 vpn))).
Proof.
  destruct (uvmcopy_copied _ _ _ _ _ _ _ _ S Hf Hsz Hmax) as (r & k' & T2' & F' & qs & E & C & R).
  pose proof (fun e o => copied_parent_data _ _ _ _ _ _ _ _ _ _ _ _ e o S C) as Hpd.
  destruct C as [C1 C2 C3 C4 C5 C6 C7 (l & P & C8 & C8') C9 C10]. exists r, k', T2', F'. split_and!; try done.
  { intros x p Hx Hp. apply (C10 x p Hx), elem_of_app. by right. }
  destruct R as [[-> Hlen]|(-> & -> & Hc)]; [left|right]; (split; [done|]).
  - exists qs, l. split_and!; try done. intros i q e o Hi Hj Ho.
    rewrite (C6 i q e o Hi Hj Ho). symmetry. apply Hpd; [by eapply list_elem_of_lookup_2|done].
  - split; [done|]. by exists l.
Qed.

End copy.

Lemma demo_setup : setup demo_end demo_km (P 0) demo_T1 (P 4) demo_T2 demo_free [demo_ent].
Proof.
  split.
  - exact demo_km_ok.
  - exact demo_pt1.
  - exact demo_pt2.
  - intros [|i] e; [|done]. intros [= <-]. split; [by vm_compute|]. split; [by vm_compute|].
    split; [exact (demo_page_ok 3 ltac:(lia))|by vm_compute].
  - intros i _. apply demo_mp2.
  - apply demo_apart.
  - apply demo_apart.
  - intros [l pre] y p H1%demo_T1_inv [_ ->]%demo_T2_inv. unfold P, PGSIZE in *. lia.
  - intros e He. apply list_elem_of_singleton in He as ->. change (PTE2PA demo_ent) with (P 3). split.
    + unfold demo_free, P, PGSIZE. set_unfold. lia.
    + intros x [_ H]%demo_T2_inv. unfold P, PGSIZE in H. lia.
Qed.

(** The parent's page is copied into the child. *)
Lemma uvmcopy_correct_witness :
  exists r k' T' F', uvmcopy demo_end 2 (P 0) (P 4) 100 demo_km = Ok (r, k') /\
    pt_ok demo_end (km_mem k') (P 4) T' /\ km_ok demo_end k' F' /\
    ldb (km_mem k') (P 3 + 100) = 42.
Proof.
  destruct (uvmcopy_correct demo_end 2 ltac:(vm_compute; congruence) demo_km (P 0) demo_T1 (P 4) demo_T2 demo_free
    [demo_ent] 100 demo_setup) as (r & k' & T' & F' & E & H1 & H2 & H3 & H4 & H5 & H6 & _).
  - cbn. lia.
  - vm_compute. split; congruence.
  - vm_compute. split; congruence.
  - exists r, k', T', F'. split; [exact E|]. split; [exact H3|]. split; [exact H1|].
    change (P 3 + 100) with (PTE2PA demo_ent + 100).
    pose proof (H6 demo_ent 100 ltac:(apply list_elem_of_singleton; reflexivity) ltac:(vm_compute; split; congruence)) as H7.
    transitivity (ldb (km_mem demo_km) (PTE2PA demo_ent + 100)); [exact H7|vm_compute; reflexivity].
Defined.
