(* ===== verification/VmUser.v ===== *)
(** * Copying between user and kernel memory (kernel/vm.c, [copyout], [copyin]) *)

From S2P Require Import Prelude Riscv Mem Kalloc Vm VmSpec VmDemo VmMap.

Section user.
Context (end_ : Z) (fuel : nat) (He : 0 <= end_).
Context (root : Z) (T : gmap (Z * Z) Z) (pg : Z -> Z).

(** The physical address of a user address whose page [v] is at [pg v]. *)
Definition addr (va : Z) : Z := pg (va / PGSIZE) + va mod PGSIZE.

(** The user pages from [va] to [va + len]: mapped for the user, on distinct
    physical pages that hold no table. *)
Record user_range (m : mem) (va len : Z) : Prop := {
  ur_lo : 0 <= va;
  ur_len : 0 <= len;
  ur_hi : va + len <= MAXVA - PGSIZE;
  ur_map : forall v, va <= v < va + len -> exists e, mp m T (v / PGSIZE) = Some e /\ has e PTE_U = true /\
    PTE2PA e = pg (v / PGSIZE) /\ 0 < pg (v / PGSIZE) /\ pg (v / PGSIZE) mod PGSIZE = 0 /\
    forall x p, T !! x = Some p -> p <> pg (v / PGSIZE);
  ur_inj : forall v w, va <= v < va + len -> va <= w < va + len ->
    pg (v / PGSIZE) = pg (w / PGSIZE) -> v / PGSIZE = w / PGSIZE
}.

(** No table is in the bytes of the range. *)
Lemma addr_no_table m va len v x p :
  pt_ok end_ m root T -> user_range m va len -> va <= v < va + len -> T !! x = Some p ->
  ~ (p <= addr v < p + PGSIZE).
Proof.
  intros H R Hv Hx. destruct (ur_map _ _ _ R v Hv) as (e & _ & _ & _ & _ & Hal & Hn).
  destruct (pt_page _ _ _ _ H _ _ Hx) as [Hp _]. pose proof (Z.mod_pos_bound v PGSIZE eq_refl).
  unfold addr. destruct (page_disjoint p (pg (v / PGSIZE)) Hp Hal (Hn x p Hx)); lia.
Qed.

Lemma addr_inj m va len v w :
  user_range m va len -> va <= v < va + len -> va <= w < va + len -> addr v = addr w -> v = w.
Proof.
  intros R Hv Hw E. destruct (ur_map _ _ _ R v Hv) as (_ & _ & _ & _ & _ & Hv' & _).
  destruct (ur_map _ _ _ R w Hw) as (_ & _ & _ & _ & _ & Hw' & _).
  pose proof (Z.mod_pos_bound v PGSIZE eq_refl). pose proof (Z.mod_pos_bound w PGSIZE eq_refl). unfold addr in E.
  destruct (Z.eq_dec (pg (v / PGSIZE)) (pg (w / PGSIZE))) as [Eq|Hne].
  - pose proof (ur_inj _ _ _ R v w Hv Hw Eq). rewrite (Z.div_mod v PGSIZE), (Z.div_mod w PGSIZE) by done. lia.
  - destruct (page_disjoint _ _ Hv' Hw' Hne); lia.
Qed.

Lemma range_sub m va len va' len' :
  user_range m va len -> va <= va' -> 0 <= len' -> va' + len' <= va + len -> user_range m va' len'.
Proof.
  intros [A B C D E] H1 H2 H3. split; try lia.
  - intros v Hv. apply D. lia.
  - intros v w Hv Hw. apply E; lia.
Qed.

(** Memory that keeps the tables keeps the range. *)
Lemma range_frame m m' va len :
  pt_ok end_ m root T -> user_range m va len ->
  (forall a, (exists x p, T !! x = Some p /\ p <= a < p + PGSIZE) -> ldb m' a = ldb m a) ->
  pt_ok end_ m' root T /\ user_range m' va len.
Proof.
  intros H R Hm. destruct (pt_frame end_ m m' root T H) as [H1 H2].
  { intros x p i Hx Hi. apply ent_ext; [done|]. intros a Ha. apply Hm. eauto. }
  split; [done|]. destruct R as [A B C D E]. split; try done. intros v Hv. rewrite H2. by apply D.
Qed.

(** One page of the range: the translation, and the addresses in it. *)
Lemma range_page k va len :
  pt_ok end_ (km_mem k) root T -> user_range (km_mem k) va len -> 0 < len ->
  let va0 := PGROUNDDOWN va in let n := Z.min (PGSIZE - (va - va0)) len in
  walkaddr root va0 k = Ok (pg (va / PGSIZE), k) /\ 0 < pg (va / PGSIZE) /\ 0 < n <= len /\
  (forall i, 0 <= i < n -> addr (va + i) = pg (va / PGSIZE) + (va - va0) + i) /\
  va0 mod PGSIZE = 0 /\ va0 = va - va mod PGSIZE /\ (n = len \/ va + n = va0 + PGSIZE).
Proof.
  intros H R Hl va0 n. destruct (ur_map _ _ _ R va ltac:(lia)) as (e & E1 & E2 & E3 & E4 & E5 & _).
  pose proof (ur_lo _ _ _ R). pose proof (ur_hi _ _ _ R).
  assert (va0 = va - va mod PGSIZE) as Ev by (by apply PGROUNDDOWN_spec).
  assert (va0 mod PGSIZE = 0) as Ea by (by apply PGROUNDDOWN_aligned).
  pose proof (Z.mod_pos_bound va PGSIZE eq_refl) as Hb. pose proof (Z.mod_le va PGSIZE ltac:(done) eq_refl).
  assert (va0 / PGSIZE = va / PGSIZE) as Ed.
  { rewrite Ev. rewrite (Z.div_mod va PGSIZE) at 1 by done.
    replace (PGSIZE * (va / PGSIZE) + va mod PGSIZE - va mod PGSIZE) with (va / PGSIZE * PGSIZE) by lia. by rewrite Z.div_mul. }
  split_and!; try done; try lia.
  - rewrite (walkaddr_spec end_ k root T va0 He H) by mlia. by rewrite Ed, E1, E2, E3.
  - intros i Hi. unfold addr.
    assert (va + i = (va mod PGSIZE + i) + va / PGSIZE * PGSIZE) as -> by (pose proof (Z.div_mod va PGSIZE); mlia).
    rewrite Z.div_add, Z.mod_add, (Z.div_small (_ + i)), (Z.mod_small (_ + i)) by (done || lia). rewrite Z.add_0_l. lia.
Qed.

(** ** [copyout] *)

(** Memory [m'] is [m] with the bytes from [src] at the user addresses from [va]. *)
Definition written (m m' : mem) (va src len : Z) : Prop :=
  (forall i, 0 <= i < len -> ldb m' (addr (va + i)) = ldb m (src + i)) /\
  (forall a, (forall i, 0 <= i < len -> a <> addr (va + i)) -> ldb m' a = ldb m a).

(** The kernel bytes from [b] on are not those of the range. *)
Definition buf_apart (va b len : Z) : Prop :=
  forall i j, 0 <= i < len -> 0 <= j < len -> b + j <> addr (va + i).

Lemma written_app m m1 m2 va src n len :
  user_range m va len -> buf_apart va src len -> 0 <= n <= len ->
  written m m1 va src n -> written m1 m2 (va + n) (src + n) (len - n) -> written m m2 va src len.
Proof.
  intros R B Hn [A1 A2] [B1 B2]. split.
  - intros i Hi. destruct (Z.lt_ge_cases i n).
    + rewrite B2, A1; [done|lia|]. intros j Hj E. apply (addr_inj m va len) in E; [lia|done|lia|lia].
    + replace (va + i) with (va + n + (i - n)) by lia. rewrite B1 by lia.
      replace (src + n + (i - n)) with (src + i) by lia. apply A2. intros j Hj. apply B; lia.
  - intros a Ha. rewrite B2, A2; [done| |].
    + intros i Hi. apply Ha. lia.
    + intros i Hi. replace (va + n + i) with (va + (n + i)) by lia. apply Ha. lia.
Qed.

Lemma copyout_from_spec n fuel' k va src len :
  pt_ok end_ (km_mem k) root T -> user_range (km_mem k) va len -> mem_ok (km_mem k) ->
  buf_apart va src len -> 0 <= src -> src + len < 2 ^ 64 ->
  (n < fuel')%nat -> va mod PGSIZE + len <= Z.of_nat n * PGSIZE ->
  exists m', copyout_from fuel' root va src len k = Ok (0, set_mem m' k) /\ mem_ok m' /\
    written (km_mem k) m' va src len.
Proof.
  revert fuel' k va src len. induction n as [|n IH]; intros fuel' k va src len H R Hm B Hs Hs2 Hf Hn;
    (destruct fuel' as [|fuel']; [lia|]); cbn [copyout_from]; pose proof (ur_len _ _ _ R);
    pose proof (Z.mod_pos_bound va PGSIZE eq_refl).
  all: assert (len = 0 \/ 0 < len) as [->|Hl] by lia; [exists (km_mem k); destruct k; split; [done|]; split; [done|];
    split; [lia|done]|].
  { mlia. }
  destruct (Z.eqb_spec len 0); [lia|].
  destruct (range_page k va len H R Hl) as (E1 & E2 & E3 & E4 & E5 & E6 & E7).
  set (va0 := PGROUNDDOWN va) in *. set (c := Z.min _ len) in *. rewrite (M_bind_Ok _ _ _ _ _ E1).
  destruct (Z.eqb_spec (pg (va / PGSIZE)) 0); [lia|]. unfold kmemmove. mgo. fold c. set (m1 := memmove _ src c _).
  assert (written (km_mem k) m1 va src c) as W1.
  { split.
    - intros i Hi. rewrite E4 by done. unfold m1. rewrite memmove_spec by (done || lia).
      rewrite decide_True by lia. f_equal. lia.
    - intros a Ha. unfold m1. rewrite memmove_spec by (done || lia). rewrite decide_False; [done|].
      intros Hin. apply (Ha (a - (pg (va / PGSIZE) + (va - va0)))); [lia|]. rewrite E4 by lia. lia. }
  assert (mem_ok m1) as Hm1 by (apply memmove_ok; [done|lia]).
  destruct (range_frame (km_mem k) m1 va len H R) as [Hpt1 R1].
  { intros a (x & p & Hx & Ha). apply W1. intros i Hi ->. apply (addr_no_table _ va len (va + i) x p H R); [lia|done|done]. }
  pose proof (ur_lo _ _ _ R). pose proof (ur_hi _ _ _ R). rewrite (u64_small (src + c)) by lia.
  rewrite (u64_small (va0 + PGSIZE)) by (pose proof (Z.mod_le va PGSIZE); mlia).
  destruct E7 as [E7|E7].
  - destruct fuel' as [|fuel']; [lia|]. cbn [copyout_from]. rewrite E7, Z.sub_diag. exists m1. rewrite <- E7. done.
  - rewrite <- E7. destruct (IH fuel' (set_mem m1 k) (va + c) (src + c) (len - c)) as (m2 & E & Hm2 & W2); try done; try lia.
    { eapply range_sub; [exact R1|lia..]. }
    { intros i j Hi Hj. replace (va + c + i) with (va + (c + i)) by lia. rewrite <- Z.add_assoc. apply B; lia. }
    { rewrite E7, Zplus_mod, E5, Z_mod_same_full. change ((0 + 0) mod PGSIZE) with 0. lia. }
    exists m2. split; [done|]. split; [done|]. apply (written_app (km_mem k) m1 m2 va src c len); [exact R|exact B|lia|exact W1|exact W2].
Qed.

(** ** [copyin] *)

(** Memory [m'] is [m] with the bytes of the user addresses from [va] at [dst]. *)
Definition fetched (m m' : mem) (va dst len : Z) : Prop :=
  forall a, ldb m' a = if decide (dst <= a < dst + len) then ldb m (addr (va + (a - dst))) else ldb m a.

(** The kernel bytes from [b] on are in no table. *)
Definition buf_no_table (b len : Z) : Prop :=
  forall x p j, T !! x = Some p -> 0 <= j < len -> ~ (p <= b + j < p + PGSIZE).

Lemma copyin_from_spec n fuel' k va dst len :
  pt_ok end_ (km_mem k) root T -> user_range (km_mem k) va len -> mem_ok (km_mem k) ->
  buf_apart va dst len -> buf_no_table dst len -> 0 <= dst -> dst + len < 2 ^ 64 ->
  (n < fuel')%nat -> va mod PGSIZE + len <= Z.of_nat n * PGSIZE ->
  exists m', copyin_from fuel' root dst va len k = Ok (0, set_mem m' k) /\ fetched (km_mem k) m' va dst len.
Proof.
  revert fuel' k va dst len. induction n as [|n IH]; intros fuel' k va dst len H R Hm B BT Hs Hs2 Hf Hn;
    (destruct fuel' as [|fuel']; [lia|]); cbn [copyin_from]; pose proof (ur_len _ _ _ R);
    pose proof (Z.mod_pos_bound va PGSIZE eq_refl).
  all: assert (len = 0 \/ 0 < len) as [->|Hl] by lia;
    [exists (km_mem k); destruct k; split; [done|]; intros a; by rewrite decide_False by lia|].
  { mlia. }
  destruct (Z.eqb_spec len 0); [lia|].
  destruct (range_page k va len H R Hl) as (E1 & E2 & E3 & E4 & E5 & E6 & E7).
  set (va0 := PGROUNDDOWN va) in *. set (c := Z.min _ len) in *. rewrite (M_bind_Ok _ _ _ _ _ E1).
  destruct (Z.eqb_spec (pg (va / PGSIZE)) 0); [lia|]. unfold kmemmove. mgo. fold c. set (m1 := memmove dst _ c _).
  assert (fetched (km_mem k) m1 va dst c) as W1.
  { intros a. unfold m1. rewrite memmove_spec by (done || lia). case_decide; [|done]. rewrite E4 by lia. f_equal. }
  assert (mem_ok m1) as Hm1 by (apply memmove_ok; [done|lia]).
  destruct (range_frame (km_mem k) m1 va len H R) as [Hpt1 R1].
  { intros a (x & p & Hx & Ha). rewrite W1. rewrite decide_False; [done|]. intros Hin.
    apply (BT x p (a - dst) Hx); [lia|]. by replace (dst + (a - dst)) with a by lia. }
  pose proof (ur_lo _ _ _ R). pose proof (ur_hi _ _ _ R). rewrite (u64_small (dst + c)) by lia.
  rewrite (u64_small (va0 + PGSIZE)) by (pose proof (Z.mod_le va PGSIZE); mlia).
  destruct E7 as [E7|E7].
  - destruct fuel' as [|fuel']; [lia|]. cbn [copyin_from]. rewrite E7, Z.sub_diag. exists m1. rewrite <- E7. done.
  - rewrite <- E7. destruct (IH fuel' (set_mem m1 k) (va + c) (dst + c) (len - c)) as (m2 & E & W2); try done; try lia.
    { eapply range_sub; [exact R1|lia..]. }
    { intros i j Hi Hj. replace (va + c + i) with (va + (c + i)) by lia. rewrite <- Z.add_assoc. apply B; lia. }
    { intros x p j Hx Hj. rewrite <- Z.add_assoc. apply (BT x p); [done|lia]. }
    { rewrite E7, Zplus_mod, E5, Z_mod_same_full. change ((0 + 0) mod PGSIZE) with 0. lia. }
    exists m2. split; [done|]. intros a. rewrite W2. cbn [km_mem set_mem]. case_decide.
    + rewrite W1, (decide_False (P := dst <= addr _ < _)), (decide_True (P := dst <= a < _)) by
        (lia || (intros Hin; apply (B (a - dst) (addr (va + c + (a - (dst + c))) - dst)); [lia|lia|];
          replace (va + (a - dst)) with (va + c + (a - (dst + c))) by lia; lia)).
      f_equal. f_equal. lia.
    + rewrite W1. repeat case_decide; done || lia.
Qed.

(** C10: [copyout] and [copyin] are inverse to each other: for a range of user
    pages of any length and alignment, bytes copied out to user memory and
    copied in again to another kernel buffer are the bytes of the first
    buffer; both calls return 0, and the only bytes that changed are those of
    the user range and of the second buffer. *)
Theorem copyout_copyin k va src dst len
    (H : pt_ok end_ (km_mem k) root T) (R : user_range (km_mem k) va len) (Hm : mem_ok (km_mem k))
    (Bs : buf_apart va src len) (Bd : buf_apart va dst len) (BT : buf_no_table dst len)
    (Hs : 0 <= src /\ src + len < 2 ^ 64) (Hd : 0 <= dst /\ dst + len < 2 ^ 64)
    (Hf : va mod PGSIZE + len <= (Z.of_nat fuel - 1) * PGSIZE) :
  exists k1 k2, copyout fuel root va src len k = Ok (0, k1) /\ copyin fuel root dst va len k1 = Ok (0, k2) /\
    (forall i, 0 <= i < len -> ldb (km_mem k2) (dst + i) = ldb (km_mem k) (src + i)) /\
    (forall a, ~ (dst <= a < dst + len) -> (forall i, 0 <= i < len -> a <> addr (va + i)) ->
       ldb (km_mem k2) a = ldb (km_mem k) a).
Proof.
  pose proof (ur_len _ _ _ R). pose proof (Z.mod_pos_bound va PGSIZE eq_refl).
  assert (1 <= Z.of_nat fuel) as Hfu by mlia.
  destruct (copyout_from_spec (fuel - 1) fuel k va src len) as (m1 & E1 & Hm1 & W1); try done; try mlia.
  destruct (range_frame (km_mem k) m1 va len H R) as [Hpt1 R1].
  { intros a (x & p & Hx & Ha). apply W1. intros i Hi ->. by apply (addr_no_table _ va len (va + i) x p H R); [lia|..]. }
  destruct (copyin_from_spec (fuel - 1) fuel (set_mem m1 k) va dst len) as (m2 & E2 & W2); try done; try mlia.
  exists (set_mem m1 k), (set_mem m2 (set_mem m1 k)). split; [done|]. split; [done|]. cbn [km_mem set_mem]. split.
  - intros i Hi. rewrite W2, decide_True by lia. cbn [km_mem set_mem]. replace (va + (dst + i - dst)) with (va + i) by lia.
    by apply W1.
  - intros a Ha1 Ha2. rewrite W2, decide_False by done. by apply W1.
Qed.

End user.

(** Eight bytes of kernel memory through the parent's user page. *)
Lemma copyout_copyin_witness :
  exists k1 k2, copyout 2 (P 0) 90 (P 12) 8 demo_km = Ok (0, k1) /\ copyin 2 (P 0) (P 13) 90 8 k1 = Ok (0, k2) /\
    ldb (km_mem k2) (P 13 + 3) = ldb demo_mem (P 12 + 3).
Proof.
  assert (forall v, 90 <= v < 90 + 8 -> v / PGSIZE = 0) as Hv by (intros v Hv; apply Z.div_small; unfold PGSIZE; lia).
  assert (forall i, 0 <= i < 8 -> addr (fun _ => P 3) (90 + i) = P 3 + 90 + i) as Ha.
  { intros i Hi. unfold addr. rewrite Z.mod_small by (unfold PGSIZE; lia). lia. }
  destruct (copyout_copyin demo_end 2 ltac:(vm_compute; congruence) (P 0) demo_T1 (fun _ => P 3) demo_km 90 (P 12) (P 13) 8
    demo_pt1) as (k1 & k2 & E1 & E2 & H1 & _).
  - split; [lia|lia|vm_compute; congruence| |].
    + intros v H. exists demo_ent. rewrite (Hv v H). split; [vm_compute; reflexivity|]. split; [vm_compute; reflexivity|].
      split; [vm_compute; reflexivity|]. split; [vm_compute; reflexivity|]. split; [vm_compute; reflexivity|].
      intros [l pre] p Hp%demo_T1_inv. unfold P, PGSIZE in *. lia.
    + intros v w H H' _. rewrite (Hv v H), (Hv w H'). reflexivity.
  - exact demo_vm_ok.
  - intros i j Hi Hj. rewrite Ha by lia. unfold P, PGSIZE. lia.
  - intros i j Hi Hj. rewrite Ha by lia. unfold P, PGSIZE. lia.
  - intros [l pre] p j Hp%demo_T1_inv Hj. unfold P, PGSIZE in *. lia.
  - vm_compute. split; congruence.
  - vm_compute. split; congruence.
  - vm_compute. congruence.
  - exists k1, k2. split; [exact E1|]. split; [exact E2|]. apply H1. lia.
Defined.
