(* ===== verification/VmFree.v ===== *)
(** * Page tables: [freewalk] and [uvmfree]

    [freewalk] gives every page of a page table back to the allocator.  It is
    proved on the tree of tables that memory holds, [pt_tree]; the tables [T]
    of an address space without leaves are such a tree. *)

From S2P Require Import Prelude Riscv Mem Kalloc Vm VmSpec VmMap VmCopy.

Section free.
Context (end_ : Z) (fuel : nat) (He : 0 <= end_).
Notation K := (M km).

Lemma freewalk_S d p : freewalk end_ (S d) p = (entries (freewalk end_ d) p 512 0;; kfree end_ p).
Proof. reflexivity. Qed.

(** ** Trees of tables *)

(** Entry [i] of the table [p] is invalid, or points to a tree. *)
Definition child (m : mem) (tree : Z -> list Z -> Prop) (p i : Z) (S : list Z) : Prop :=
  (S = [] /\ has (ent m p i) PTE_V = false) \/ (exists q, ent m p i = PA2PTE q + PTE_V /\ page_ok end_ q /\ tree q S).

Definition children (m : mem) (tree : Z -> list Z -> Prop) (p i : Z) (Ss : list (list Z)) : Prop :=
  forall j S, Ss !! j = Some S -> child m tree p (i + Z.of_nat j) S.

(** The pages [S] are those of a tree of [l] levels below the table [p]. *)
Fixpoint pt_tree (m : mem) (l : nat) (p : Z) (S : list Z) : Prop :=
  exists Ss, length Ss = 512%nat /\ S = p :: concat Ss /\
    children m (match l with O => fun _ _ => False | Datatypes.S l' => pt_tree m l' end) p 0 Ss.

Definition in_pages (S : list Z) (a : Z) : Prop := exists p, p ∈ S /\ in_page p a.

Lemma in_pages_cons p S a : in_pages (p :: S) a <-> in_page p a \/ in_pages S a.
Proof. unfold in_pages. setoid_rewrite elem_of_cons. naive_solver. Qed.

Lemma in_pages_app S1 S2 a : in_pages (S1 ++ S2) a <-> in_pages S1 a \/ in_pages S2 a.
Proof. unfold in_pages. setoid_rewrite elem_of_app. naive_solver. Qed.

Lemma in_pages_concat (Ss : list (list Z)) S a : S ∈ Ss -> in_pages S a -> in_pages (concat Ss) a.
Proof.
  intros HS (r & Hr & Ha). exists r. split; [|done]. apply list_elem_of_In, in_concat. exists S.
  split; by apply list_elem_of_In.
Qed.

Lemma children_frame m m' (tree tree' : Z -> list Z -> Prop) p i Ss :
  0 <= i -> i + Z.of_nat (length Ss) <= 512 -> (forall a, in_page p a -> ldb m' a = ldb m a) ->
  (forall q S, S ∈ Ss -> tree q S -> tree' q S) -> children m tree p i Ss -> children m' tree' p i Ss.
Proof.
  intros Hi Hl Hm Ht HC j S Hj. pose proof (lookup_lt_Some _ _ _ Hj).
  assert (ent m' p (i + Z.of_nat j) = ent m p (i + Z.of_nat j)) as E by (apply ent_ext; [lia|]; intros a Ha; by apply Hm).
  destruct (HC j S Hj) as [[-> Hv]|(q & Eq & Hq & HT)]; [left; by rewrite E|].
  right. exists q. rewrite E. split_and!; [done|done|]. apply Ht; [by eapply list_elem_of_lookup_2|done].
Qed.

#[export] Instance in_pages_proper : Proper ((≡ₚ) ==> (=) ==> iff) in_pages.
Proof. intros S S' E a _ <-. unfold in_pages. by setoid_rewrite E. Qed.

Lemma pt_tree_frame m m' l : forall p S,
  pt_tree m l p S -> (forall a, in_pages S a -> ldb m' a = ldb m a) -> pt_tree m' l p S.
Proof.
  induction l as [|l IH]; intros p S (Ss & Hl & -> & HC) Hm; exists Ss; (split; [done|split; [done|]]); revert HC;
    (apply children_frame; [lia|lia|intros a Ha; apply Hm, in_pages_cons; by left|]); [done|].
  intros q S HS HT. apply IH; [done|]. intros a Ha. apply Hm, in_pages_cons. right. by eapply in_pages_concat.
Qed.

(** What giving pages back does. *)
Record frees k (F S : list Z) k' (F' : list Z) : Prop := {
  fr_km : km_ok end_ k' F';
  fr_list : F' ≡ₚ S ++ F;
  fr_mem : forall a, ~ in_pages S a -> ldb (km_mem k') a = ldb (km_mem k) a
}.

Lemma frees_trans k F S1 k1 F1 S2 k2 F2 :
  frees k F S1 k1 F1 -> frees k1 F1 S2 k2 F2 -> frees k F (S1 ++ S2) k2 F2.
Proof.
  intros [A1 B1 C1] [A2 B2 C2]. split; [done| |].
  - rewrite B2, B1. rewrite !app_assoc. by rewrite (Permutation_app_comm S2).
  - intros a Ha. rewrite in_pages_app in Ha. rewrite C2, C1; tauto.
Qed.

Lemma frees_km k F S k' F' : frees k F S k' F' -> NoDup (S ++ F).
Proof. intros [A B _]. rewrite <- B. apply A. Qed.

(** A pointer to a table is not a leaf. *)
Lemma ptr_not_leaf q : page_ok end_ q ->
  has (PA2PTE q + PTE_V) PTE_V = true /\ Z.land (PA2PTE q + PTE_V) (Z.lor (Z.lor PTE_R PTE_W) PTE_X) = 0 /\
  PTE2PA (PA2PTE q + PTE_V) = q.
Proof.
  intros Hq. destruct (has_ptr end_ q He Hq) as (A & B & _). split_and!; [done| |done].
  destruct (page_ok_range end_ q He Hq) as [H1 _]. destruct (PA2PTE_range q H1) as [_ H4].
  change (Z.lor (Z.lor PTE_R PTE_W) PTE_X) with 14. change PTE_V with 1.
  assert (E : Z.land (PA2PTE q + 1) 14 = Z.land ((PA2PTE q + 1) mod 2 ^ 10) 14).
  { rewrite <- Z.land_ones by lia. rewrite <- Z.land_assoc. done. }
  rewrite E. change (2 ^ 10) with 1024. by rewrite Zplus_mod, H4.
Qed.

(** ** The loop *)

(** [fw] frees a tree. *)
Definition frees_tree (tree : mem -> Z -> list Z -> Prop) (fw : Z -> K unit) : Prop :=
  forall k F q S, km_ok end_ k F -> page_ok end_ q -> tree (km_mem k) q S -> Forall (page_ok end_) S -> NoDup (S ++ F) ->
    exists k' F', fw q k = Ok (tt, k') /\ frees k F S k' F'.

(** [tree] depends on its pages only. *)
Definition local_tree (tree : mem -> Z -> list Z -> Prop) : Prop :=
  forall m m' q S, tree m q S -> (forall a, in_pages S a -> ldb m' a = ldb m a) -> tree m' q S.

Lemma clear_entry k F p i : km_ok end_ k F -> page_ok end_ p -> p ∉ F -> 0 <= i < 512 ->
  let k' := set_mem (st64 (km_mem k) (p + 8 * i) 0) k in
  km_ok end_ k' F /\ (forall a, ~ in_page p a -> ldb (km_mem k') a = ldb (km_mem k) a) /\
  forall j, j <> i -> ent (km_mem k') p j = ent (km_mem k) p j.
Proof.
  intros Hk [Hal _] Hp Hi k'. assert (Hout : forall a, ~ in_page p a -> ldb (km_mem k') a = ldb (km_mem k) a).
  { intros a Ha. unfold k', st64. apply ldb_st_out. unfold in_page, PGSIZE in Ha. lia. }
  split_and!; [|done|].
  - apply km_ok_frame; [done|apply st64_ok, Hk|]. intros a (q & Hq & Ha). apply Hout. pose proof (ko_pages _ _ _ Hk) as HP.
    rewrite Forall_forall in HP. destruct (HP q Hq) as [Hqal _]. apply (in_page_other q p); [done|done|by intros ->|done].
  - intros j Hj. cbn. rewrite ent_st_same by lia. by rewrite decide_False.
Qed.

Lemma page_not_in r S a : r mod PGSIZE = 0 -> Forall (page_ok end_) S -> r ∉ S -> in_page r a -> ~ in_pages S a.
Proof.
  intros Hr HS Hn Ha (q & Hq & Ha'). rewrite Forall_forall in HS. destruct (HS q Hq) as [Hqal _].
  apply (in_page_other r q a Hr Hqal); [|done|done]. by intros ->.
Qed.

Lemma children_keep tree m m2 p i Ss : local_tree tree -> 0 <= i -> i + Z.of_nat (length Ss) <= 512 ->
  (forall j, i <= j < 512 -> ent m2 p j = ent m p j) -> (forall a, in_pages (concat Ss) a -> ldb m2 a = ldb m a) ->
  children m (tree m) p i Ss -> children m2 (tree m2) p i Ss.
Proof.
  intros HL Hi Hl He2 Hm HC j S Hj. pose proof (lookup_lt_Some _ _ _ Hj). unfold child. rewrite He2 by lia.
  destruct (HC j S Hj) as [?|(q & Eq & Hq & HT)]; [by left|right]. exists q. split_and!; [done|done|].
  eapply HL; [exact HT|]. intros a Ha. apply Hm. eapply in_pages_concat; [|done]. by eapply list_elem_of_lookup_2.
Qed.

Lemma entries_frees tree fw p : local_tree tree -> frees_tree tree fw -> forall Ss n i k F,
  length Ss = n -> 0 <= i -> i + Z.of_nat n = 512 -> km_ok end_ k F -> page_ok end_ p ->
  children (km_mem k) (tree (km_mem k)) p i Ss -> Forall (page_ok end_) (concat Ss) -> NoDup (p :: concat Ss ++ F) ->
  exists k' F', entries fw p n i k = Ok (tt, k') /\ km_ok end_ k' F' /\ F' ≡ₚ concat Ss ++ F /\
    forall a, ~ in_pages (p :: concat Ss) a -> ldb (km_mem k') a = ldb (km_mem k) a.
Proof.
  intros HL HF Ss. induction Ss as [|S Ss IH]; intros n i k F <- Hi Hn Hk Hp HC HP HN; cbn [length entries concat] in *.
  { exists k, F. by split_and!. }
  unfold kld64. mgo. change (ld64 (km_mem k) (p + 8 * i)) with (ent (km_mem k) p i).
  pose proof (HC O S eq_refl) as HS. rewrite Z.add_0_r in HS.
  assert (HC' : children (km_mem k) (tree (km_mem k)) p (i + 1) Ss).
  { intros j S' Hj. specialize (HC (Datatypes.S j) S' Hj). by replace (i + 1 + Z.of_nat j) with (i + Z.of_nat (Datatypes.S j)) by lia. }
  destruct HS as [[-> Hv]|(q & Eq & Hq & HT)].
  - rewrite Hv. cbn [andb app] in *. mgo. apply (IH _ (i + 1) k F); [done|lia|lia|done..].
  - rewrite Eq. destruct (ptr_not_leaf q Hq) as (-> & -> & ->). cbn [Z.eqb andb].
    apply NoDup_cons in HN as [Hpn HN]. apply Forall_app in HP as [HP1 HP2]. rewrite <- app_assoc in HN, Hpn.
    assert (HN1 : NoDup (S ++ F)) by (apply NoDup_app in HN as (? & Hd & HN); apply NoDup_app in HN as (_ & _ & ?);
      apply NoDup_app; split_and!; [done|intros x Hx ?; apply (Hd x Hx), elem_of_app; by right|done]).
    destruct (HF k F q S Hk Hq HT HP1 HN1) as (k1 & F1 & E1 & [Hk1 HF1 Hm1]). mgo. rewrite (M_bind_Ok _ _ _ _ _ E1).
    assert (Hp1 : p ∉ F1) by (rewrite HF1; set_solver).
    destruct (clear_entry k1 F1 p i Hk1 Hp Hp1 ltac:(lia)) as (Hk2 & Hm2 & He2). unfold kst64. mgo.
    set (k2 := set_mem _ k1) in *.
    destruct (IH (length Ss) (i + 1) k2 F1) as (k3 & F3 & E3 & Hk3 & HF3 & Hm3); [done|lia|lia|done|done| |done| |].
    + apply (children_keep tree (km_mem k)); [done|lia|lia| | |done].
      * intros j Hj. rewrite He2 by lia. apply ent_ext; [lia|]. intros a Ha. apply Hm1.
        apply (page_not_in p S a); [apply Hp|done|set_solver|done].
      * intros a (r & Hr & Har). rewrite Forall_forall in HP2. pose proof (HP2 r Hr) as [Hral _]. rewrite Hm2, Hm1; [done| |].
        -- apply (page_not_in r S a); [done|done| |done]. intros Hrs. apply NoDup_app in HN as (_ & Hd & _). apply (Hd r Hrs).
           apply elem_of_app. by left.
        -- apply (in_page_other r p a Hral (proj1 Hp)); [|done]. intros ->. apply Hpn. set_solver.
    + rewrite HF1. apply NoDup_cons. split; [set_solver|]. rewrite app_assoc, (Permutation_app_comm (concat Ss)), <- app_assoc. done.
    + exists k3, F3. split; [done|]. split; [done|]. split.
      * rewrite HF3, HF1, !app_assoc. by rewrite (Permutation_app_comm (concat Ss)).
      * intros a Ha. rewrite in_pages_cons, in_pages_app in Ha. rewrite Hm3, Hm2, Hm1; [done|tauto|tauto|]. rewrite in_pages_cons. tauto.
Qed.

(** The table itself goes last. *)
Lemma free_last k1 F1 p S F :
  km_ok end_ k1 F1 -> F1 ≡ₚ S ++ F -> page_ok end_ p -> NoDup ((p :: S) ++ F) ->
  exists k2, kfree end_ p k1 = Ok (tt, k2) /\ km_ok end_ k2 (p :: F1) /\ p :: F1 ≡ₚ (p :: S) ++ F /\
    forall a, ~ in_page p a -> ldb (km_mem k2) a = ldb (km_mem k1) a.
Proof.
  intros Hk HF Hp HN. cbn in HN. apply NoDup_cons in HN as [Hn _].
  destruct (kfree_spec end_ k1 p F1 Hk Hp) as (k2 & E & Hk2 & Hm); [by rewrite HF|done|].
  exists k2. split_and!; [done|done|by rewrite HF|done].
Qed.

Lemma level_frees tree fw : local_tree tree -> frees_tree tree fw ->
  frees_tree (fun m p S => exists Ss, length Ss = 512%nat /\ S = p :: concat Ss /\ children m (tree m) p 0 Ss)
    (fun p => entries fw p 512 0;; kfree end_ p).
Proof.
  intros HL HF k F p S Hk Hp (Ss & Hl & -> & HC) HP HN. apply Forall_cons in HP as [_ HP].
  destruct (entries_frees tree fw p HL HF Ss 512 0 k F) as (k1 & F1 & E1 & Hk1 & HF1 & Hm1); [done|lia|lia|done..|].
  rewrite (M_bind_Ok _ _ _ _ _ E1). destruct (free_last k1 F1 p (concat Ss) F Hk1 HF1 Hp HN) as (k2 & E2 & H2 & H3 & H4).
  exists k2, (p :: F1). split; [done|]. split; [done|done|]. intros a Ha.
  pose proof Ha as Ha'. rewrite in_pages_cons in Ha'. rewrite H4, Hm1; tauto.
Qed.

Lemma freewalk_frees l : frees_tree (fun m => pt_tree m l) (freewalk end_ (S l)).
Proof.
  induction l as [|l IH].
  - apply (level_frees (fun _ _ _ => False) (freewalk end_ 0)); [by intros m m' q S|by intros k F q S _ _ ?].
  - apply (level_frees (fun m => pt_tree m l) (freewalk end_ (S l))); [|done].
    intros m m' q S HT Hm. by eapply pt_tree_frame.
Qed.

(** ** The tables of an address space *)

Definition tabs (T : gmap (Z * Z) Z) : list Z := (map_to_list T).*2.

Lemma elem_of_tabs T p : p ∈ tabs T <-> exists x, T !! x = Some p.
Proof.
  unfold tabs. rewrite list_elem_of_fmap. split.
  - intros ([x q] & -> & H%elem_of_map_to_list). by exists x.
  - intros [x H]. exists (x, p). split; [done|]. by apply elem_of_map_to_list.
Qed.

(** The pages of the tables below (level [l], prefix [pre]). *)
Fixpoint below (T : gmap (Z * Z) Z) (l : nat) (pre : Z) : list Z :=
  match T !! (Z.of_nat l, pre) with
  | None => []
  | Some p =>
      p :: match l with
           | O => []
           | S l' => concat ((fun i => below T l' (pre * 512 + i)) <$> seqZ 0 512)
           end
  end.

Lemma below_elem T l : forall pre p, p ∈ below T l pre ->
  exists l' pre', T !! (Z.of_nat l', pre') = Some p /\ (l' <= l)%nat /\ pre' / 512 ^ Z.of_nat (l - l') = pre.
Proof.
  induction l as [|l IH]; intros pre p; cbn [below].
  - destruct (T !! (Z.of_nat 0, pre)) as [q|] eqn:E; [|set_solver]. intros ->%list_elem_of_singleton.
    exists O, pre. split_and!; [done|lia|]. cbn. apply Z.div_1_r.
  - destruct (T !! (Z.of_nat (S l), pre)) as [q|] eqn:E; [|set_solver]. intros [->|Hp]%elem_of_cons.
    + exists (S l), pre. split_and!; [done|lia|]. rewrite Nat.sub_diag. apply Z.div_1_r.
    + apply list_elem_of_In, in_concat in Hp as (S & HS%list_elem_of_In & Hp%list_elem_of_In).
      apply list_elem_of_fmap in HS as (i & -> & Hi%elem_of_seqZ).
      destruct (IH _ _ Hp) as (l' & pre' & HT & Hl & Hd). exists l', pre'. split_and!; [done|lia|].
      replace (S l - l')%nat with (S (l - l')) by lia. rewrite Nat2Z.inj_succ, Z.pow_succ_r, Z.mul_comm by lia.
      rewrite <- Z.div_div by lia. rewrite Hd. rewrite Z.div_add_l by lia. rewrite Z.div_small by lia. lia.
Qed.

Lemma below_None T l pre : T !! (Z.of_nat l, pre) = None -> below T l pre = [].
Proof. intros E. destruct l; cbn [below]; by rewrite E. Qed.

Lemma below_head T l pre p : T !! (Z.of_nat l, pre) = Some p -> p ∈ below T l pre.
Proof. intros E. destruct l; cbn [below]; rewrite E; left. Qed.

Lemma concat_replicate_nil n : concat (replicate n (@nil Z)) = [].
Proof. by induction n. Qed.

(** A table without valid leaves is a tree. *)
Lemma below_tree m root T : pt_ok end_ m root T -> (forall vpn, 0 <= vpn -> mp m T vpn = None) -> forall l pre p,
  (l <= 2)%nat -> T !! (Z.of_nat l, pre) = Some p -> pt_tree m l p (below T l pre).
Proof.
  intros H HM. induction l as [|l IH]; intros pre p Hl Hp; cbn [below]; rewrite Hp.
  - exists (replicate 512 []). rewrite length_replicate. split_and!; [done|by rewrite concat_replicate_nil|].
    intros j S [-> Hj]%lookup_replicate. left. split; [done|]. rewrite Z.add_0_l.
    destruct (pt_dom _ _ _ _ H _ _ _ Hp) as (_ & Hpre & _).
    specialize (HM (pre * 512 + Z.of_nat j) ltac:(lia)). unfold mp in HM. change (Z.of_nat 0) with 0 in Hp.
    rewrite Z.div_add_l, Z.div_small, Z.add_0_r, Hp in HM by lia. rewrite Z.add_comm, Z.mod_add, Z.mod_small in HM by lia.
    cbv zeta in HM. by destruct (has (ent m p (Z.of_nat j)) PTE_V).
  - eexists. split_and!; [|done|].
    { by rewrite length_fmap, length_seqZ. }
    intros j S Hj. rewrite list_lookup_fmap, fmap_Some in Hj. destruct Hj as (i & Hi & ->).
    apply lookup_seqZ in Hi as [-> Hi]. rewrite Z.add_0_l.
    destruct (T !! (Z.of_nat l, pre * 512 + Z.of_nat j)) as [q|] eqn:E.
    + right. exists q. split_and!; [|by apply (pt_page _ _ _ _ H _ _ E)|apply IH; [lia|done]].
      apply (pt_down _ _ _ _ H (Z.of_nat (S l)) pre); [done|lia|lia|]. by replace (Z.of_nat (S l) - 1) with (Z.of_nat l) by lia.
    + left. split; [by apply below_None|]. apply (pt_none _ _ _ _ H (Z.of_nat (S l)) pre); [done|lia|lia|].
      by replace (Z.of_nat (S l) - 1) with (Z.of_nat l) by lia.
Qed.

Lemma NoDup_concat_fmap {A} (f : A -> list Z) (l : list A) :
  NoDup l -> (forall i, i ∈ l -> NoDup (f i)) -> (forall i j x, i ∈ l -> j ∈ l -> x ∈ f i -> x ∈ f j -> i = j) ->
  NoDup (concat (f <$> l)).
Proof.
  induction 1 as [|i l Hi HN IH]; intros H1 H2; [constructor|]. cbn. apply NoDup_app. split_and!; [apply H1; left| |].
  - intros x Hx Hc. apply list_elem_of_In, in_concat in Hc as (S & HS%list_elem_of_In & Hc%list_elem_of_In).
    apply list_elem_of_fmap in HS as (j & -> & Hj). destruct Hi. rewrite (H2 i j x); [done|left|by right|done|done].
  - apply IH; [intros j Hj; apply H1; by right|]. intros j j' x Hj Hj'. apply H2; by right.
Qed.

Lemma below_NoDup m root T : pt_ok end_ m root T -> forall l pre, NoDup (below T l pre).
Proof.
  intros H. induction l as [|l IH]; intros pre; cbn [below]; (destruct (T !! _) as [p|] eqn:E; [|constructor]).
  - apply NoDup_singleton.
  - apply NoDup_cons. split.
    + intros Hc. apply list_elem_of_In, in_concat in Hc as (S & HS%list_elem_of_In & Hc%list_elem_of_In).
      apply list_elem_of_fmap in HS as (j & -> & Hj). destruct (below_elem _ _ _ _ Hc) as (l' & pre' & HT & Hl & _).
      pose proof (pt_inj _ _ _ _ H _ _ _ E HT) as Hk. injection Hk as Hk _. lia.
    + apply NoDup_concat_fmap; [apply NoDup_seqZ|intros i _; apply IH|]. intros i j x Hi Hj H1 H2.
      destruct (below_elem _ _ _ _ H1) as (l1 & p1 & T1 & _ & D1). destruct (below_elem _ _ _ _ H2) as (l2 & p2 & T2 & _ & D2).
      pose proof (pt_inj _ _ _ _ H _ _ _ T1 T2) as Hk. injection Hk as Hk <-. apply Nat2Z.inj in Hk as <-. lia.
Qed.

Lemma ancestor m root T : pt_ok end_ m root T -> forall e l pre p,
  T !! (Z.of_nat l, pre) = Some p -> (l + e <= 2)%nat -> is_Some (T !! (Z.of_nat (l + e), pre / 512 ^ Z.of_nat e)).
Proof.
  intros H. induction e as [|e IH]; intros l pre p Hp Hl; [rewrite Nat.add_0_r, Z.div_1_r; eauto|].
  destruct (pt_up _ _ _ _ H _ _ _ Hp) as [q Hq]; [lia|].
  destruct (IH (S l) (pre / 512) q) as [r Hr]; [by replace (Z.of_nat (S l)) with (Z.of_nat l + 1) by lia|lia|].
  exists r. rewrite Nat2Z.inj_succ, Z.pow_succ_r, <- Z.div_div by lia. by replace (l + S e)%nat with (S l + e)%nat by lia.
Qed.

Lemma below_all m root T : pt_ok end_ m root T -> forall d l pre p,
  T !! (Z.of_nat l, pre) = Some p -> (l + d <= 2)%nat -> p ∈ below T (l + d) (pre / 512 ^ Z.of_nat d).
Proof.
  intros H d. induction d as [|d IH]; intros l pre p Hp Hl.
  { rewrite Nat.add_0_r, Z.div_1_r. by apply below_head. }
  destruct (pt_dom _ _ _ _ H _ _ _ Hp) as (_ & Hpre & _).
  destruct (ancestor m root T H (S d) l pre p Hp Hl) as [r Hr]. replace (l + S d)%nat with (S (l + d)) in * by lia. cbn [below].
  rewrite Hr. right. apply list_elem_of_In, in_concat. exists (below T (l + d) (pre / 512 ^ Z.of_nat d)).
  split; apply list_elem_of_In; [|apply IH; [done|lia]]. apply list_elem_of_fmap.
  exists ((pre / 512 ^ Z.of_nat d) mod 512). split; [|apply elem_of_seqZ; pose proof (Z.mod_pos_bound (pre / 512 ^ Z.of_nat d) 512); lia].
  f_equal. rewrite Nat2Z.inj_succ, Z.pow_succ_r, (Z.mul_comm 512), <- Z.div_div by lia.
  pose proof (Z.div_mod (pre / 512 ^ Z.of_nat d) 512). lia.
Qed.

Lemma tabs_below m root T : pt_ok end_ m root T -> tabs T ≡ₚ below T 2 0.
Proof.
  intros H. apply NoDup_Permutation; [|by eapply below_NoDup|].
  - unfold tabs. apply NoDup_fmap_2_strong; [|apply NoDup_map_to_list].
    intros [x p] [y q] Hx%elem_of_map_to_list Hy%elem_of_map_to_list [= <-]. f_equal. by eapply pt_inj.
  - intros p. rewrite elem_of_tabs. split.
    + intros [[l pre] Hp]. destruct (pt_dom _ _ _ _ H _ _ _ Hp) as (Hl & Hpre & H2).
      replace l with (Z.of_nat (Z.to_nat l)) in Hp by lia.
      pose proof (below_all m root T H (2 - Z.to_nat l) (Z.to_nat l) pre p Hp ltac:(lia)) as Hb.
      replace (Z.to_nat l + (2 - Z.to_nat l))%nat with 2%nat in Hb by lia.
      destruct (ancestor m root T H (2 - Z.to_nat l) (Z.to_nat l) pre p Hp ltac:(lia)) as [r Hr].
      replace (Z.to_nat l + (2 - Z.to_nat l))%nat with 2%nat in * by lia.
      destruct (pt_dom _ _ _ _ H _ _ _ Hr) as (_ & _ & E). by rewrite E in Hb.
    + intros (l & pre & Hp & _)%below_elem. eauto.
Qed.

Lemma frees_perm k F S S' k' F' : frees k F S k' F' -> S ≡ₚ S' -> frees k F S' k' F'.
Proof.
  intros [A B C] E. split; [done|by rewrite B, E|]. intros a Ha. apply C. by rewrite E.
Qed.

(** [freewalk] gives all tables of an address space without leaves back. *)
Lemma freewalk_spec k F root T :
  km_ok end_ k F -> pt_ok end_ (km_mem k) root T -> apart T F -> (forall vpn, 0 <= vpn -> mp (km_mem k) T vpn = None) ->
  exists k' F', freewalk end_ 3 root k = Ok (tt, k') /\ frees k F (tabs T) k' F'.
Proof.
  intros Hk H HA HM. pose proof (tabs_below _ _ _ H) as E.
  assert (Hin : forall p, p ∈ below T 2 0 -> exists x, T !! x = Some p) by (intros p; by rewrite <- E, elem_of_tabs).
  destruct (freewalk_frees 2 k F root (below T 2 0)) as (k' & F' & E' & Hf).
  - done.
  - apply (pt_page _ _ _ _ H _ _ (pt_root _ _ _ _ H)).
  - apply (below_tree _ root); [done|done|lia|]. apply H.
  - apply Forall_forall. intros p [x Hx]%Hin. by apply (pt_page _ _ _ _ H _ _ Hx).
  - apply NoDup_app. split_and!; [by eapply below_NoDup| |apply Hk]. intros p [x Hx]%Hin. by apply (HA x).
  - exists k', F'. split; [done|]. eapply frees_perm; [done|]. by symmetry.
Qed.

(** [uvmfree]: the user pages [pas] and the tables. *)
Lemma uvmfree_spec k F root T pas sz :
  km_ok end_ k F -> pt_ok end_ (km_mem k) root T -> apart T F -> 0 <= sz ->
  PGROUNDUP sz / PGSIZE = Z.of_nat (length pas) -> (length pas < fuel)%nat -> Z.of_nat (length pas) * PGSIZE <= MAXVA ->
  mapped_to (mp (km_mem k) T) 0 pas -> user_pages end_ T F pas ->
  (forall vpn, Z.of_nat (length pas) <= vpn -> mp (km_mem k) T vpn = None) ->
  exists k' F', uvmfree end_ fuel 3 root sz k = Ok (tt, k') /\ frees k F (pas ++ tabs T) k' F'.
Proof.
  intros Hk H HA Hsz Hn Hf Hmax Hm Hu Hno. unfold uvmfree, when. rewrite Hn.
  assert (exists k1, (if 0 <? sz then uvmunmap end_ fuel root 0 (Z.of_nat (length pas)) true else mret tt) k = Ok (tt, k1) /\
    unmaps end_ root k T k1 (reverse pas ++ F) pas (fun _ => None)) as (k1 & E1 & [U1 U2 U3 U4 U5]).
  { destruct (Z.ltb_spec 0 sz).
    - destruct (uvmunmap_spec end_ fuel He pas k F root T 0 true) as (k1 & E1 & [U1 U2 U3 U4 U5]); try done.
      exists k1. split; [done|]. split; try done. intros vpn Hv. rewrite U4 by done. unfold without_pages.
      change (0 / PGSIZE) with 0. case_decide; [done|]. apply Hno. lia.
    - assert (sz = 0) as -> by lia. change (PGROUNDUP 0 / PGSIZE) with 0 in Hn. destruct pas; [|cbn [length] in Hn; lia]. exists k. split; [done|].
      by split. }
  rewrite (M_bind_Ok _ _ _ _ _ E1).
  destruct (freewalk_spec k1 _ root T U1 U2 U3 U4) as (k' & F' & E & [A B C]). exists k', F'. split; [done|]. split; [done| |].
  - rewrite B, reverse_Permutation, !app_assoc. by rewrite (Permutation_app_comm (tabs T)).
  - intros a Ha. rewrite in_pages_app in Ha. rewrite C by tauto. apply U5.
    + intros x p Hx Hp. apply Ha. right. exists p. split; [|done]. apply elem_of_tabs. eauto.
    + intros p Hp Hp'. apply Ha. left. by exists p.
Qed.
End free.
