(* ===== verification/AddrSpace.v ===== *)
(** * User address spaces

    What a page table means to the code above kernel/vm.c: the entries [es]
    of the user pages from address 0 on, and the entries [g] of the pages
    above them.  Every operation conserves pages: those of the address space
    (user pages and tables) and the free ones together stay the same. *)

From S2P Require Import Prelude Riscv Mem Kalloc Vm VmSpec VmMap VmCopy VmFree.

(** Virtual page numbers of the trapframe and the trampoline. *)
Definition TRAPN : Z := TRAPFRAME / PGSIZE.
Definition TRAMPN : Z := TRAMPOLINE / PGSIZE.

Definition upages (es : list Z) : list Z := PTE2PA <$> es.

Definition umap (es : list Z) (g : Z -> option Z) (vpn : Z) : option Z :=
  match es !! Z.to_nat vpn with Some e => Some e | None => g vpn end.

Section aspace.
Context (end_ : Z) (fuel : nat) (He : 0 <= end_).
Implicit Types (k : km) (F es : list Z) (T : gmap (Z * Z) Z) (g : Z -> option Z).

Record AS k F (root : Z) T es g : Prop := {
  a_km : km_ok end_ k F;
  a_pt : pt_ok end_ (km_mem k) root T;
  a_mp : forall vpn, 0 <= vpn -> mp (km_mem k) T vpn = umap es g vpn;
  a_ents : Forall (fun e => PTE_FLAGS e <> PTE_V /\ 0 <= e) es;
  a_pages : Forall (page_ok end_) (upages es);
  a_nodup : NoDup (upages es ++ tabs T ++ F);
  a_small : Z.of_nat (length es) <= TRAPN;
  a_sys : forall vpn, vpn < TRAPN -> g vpn = None
}.

(** One operation on the address space. *)
Record astep root k F T es g k' F' T' es' g' : Prop := {
  s_as : AS k' F' root T' es' g';
  s_pages : upages es' ++ tabs T' ++ F' ≡ₚ upages es ++ tabs T ++ F;
  s_mem : forall a, ~ in_pages (upages es ++ tabs T ++ F) a -> ldb (km_mem k') a = ldb (km_mem k) a
}.

Lemma astep_refl root k F T es g : AS k F root T es g -> astep root k F T es g k F T es g.
Proof. by split. Qed.

Lemma astep_trans root k F T es g k1 F1 T1 es1 g1 k2 F2 T2 es2 g2 :
  astep root k F T es g k1 F1 T1 es1 g1 -> astep root k1 F1 T1 es1 g1 k2 F2 T2 es2 g2 ->
  astep root k F T es g k2 F2 T2 es2 g2.
Proof.
  intros [A1 B1 C1] [A2 B2 C2]. split; [done|by rewrite B2|]. intros a Ha. rewrite C2, C1; [done|done|].
  by rewrite B1.
Qed.

(** Contents of pages are kept. *)
Definition keeps k k' (l : list Z) : Prop := forall p a, p ∈ l -> in_page p a -> ldb (km_mem k') a = ldb (km_mem k) a.

Lemma keeps_trans k k1 k2 l : keeps k k1 l -> keeps k1 k2 l -> keeps k k2 l.
Proof. intros H1 H2 p a Hp Ha. by rewrite (H2 p a Hp Ha), (H1 p a Hp Ha). Qed.

Lemma AS_apart k F root T es g : AS k F root T es g -> apart T F.
Proof.
  intros A x p Hx Hp. pose proof (a_nodup _ _ _ _ _ _ A) as HN. apply NoDup_app in HN as (_ & _ & HN).
  apply NoDup_app in HN as (_ & Hd & _). apply (Hd p); [|done]. apply elem_of_tabs. eauto.
Qed.

Lemma tab_ok k F root T es g p : AS k F root T es g -> p ∈ tabs T -> page_ok end_ p.
Proof. intros A [x Hx]%elem_of_tabs. by apply (pt_page _ _ _ _ (a_pt _ _ _ _ _ _ A) _ _ Hx). Qed.

Lemma AS_all_pages k F root T es g : AS k F root T es g -> Forall (page_ok end_) (upages es ++ tabs T ++ F).
Proof.
  intros A. rewrite !Forall_app. split_and!; [apply A| |apply (a_km _ _ _ _ _ _ A)].
  apply Forall_forall. intros p Hp. by eapply tab_ok.
Qed.

Lemma NoDup_tabs m root T : pt_ok end_ m root T -> NoDup (tabs T).
Proof. intros H. rewrite (tabs_below end_ He m root T H). by eapply below_NoDup. Qed.

(** A user page is not touched by changes of tables and free pages. *)
Lemma user_page_apart k F root T es g p a :
  AS k F root T es g -> p ∈ upages es -> in_page p a -> ~ in_pages (tabs T ++ F) a.
Proof.
  intros A Hp Ha. pose proof (a_nodup _ _ _ _ _ _ A) as HN. apply NoDup_app in HN as (_ & Hd & _).
  pose proof (AS_all_pages _ _ _ _ _ _ A) as HP. apply Forall_app in HP as [HP1 HP2]. rewrite Forall_forall in HP1.
  apply (page_not_in end_ p (tabs T ++ F) a); [apply (HP1 p Hp)|done|by apply Hd|done].
Qed.

(** Tables taken from the free list. *)
Lemma tabs_grow m root T T' l :
  pt_ok end_ m root T' -> NoDup (tabs T ++ l) -> (forall x p, T !! x = Some p -> T' !! x = Some p) ->
  (forall x p, T' !! x = Some p -> T !! x = Some p \/ p ∈ l) -> (forall p, p ∈ l -> exists x, T' !! x = Some p) ->
  tabs T' ≡ₚ tabs T ++ l.
Proof.
  intros H HN Hs H1 H2. apply NoDup_Permutation; [by eapply NoDup_tabs|done|].
  intros p. rewrite elem_of_app, !elem_of_tabs. split.
  - intros [x [Hx|Hx]%H1]; [left; eauto|by right].
  - intros [[x Hx]|Hl]; [exists x; by apply Hs|by apply H2].
Qed.

Lemma evolves_pages root k F T k' F' T' f :
  evolves end_ root k F T k' F' T' f -> NoDup (tabs T ++ F) -> tabs T' ++ F' ≡ₚ tabs T ++ F.
Proof.
  intros V HN. destruct (v_taken _ _ _ _ _ _ _ _ _ V) as (l & -> & H1 & H2). rewrite (app_assoc (tabs T)) in *.
  apply NoDup_app in HN as (HN & _). apply Permutation_app_tail.
  eapply tabs_grow; [apply V|done|apply V|done|done].
Qed.

(** Changes of tables: from [evolves] of the page table operations. *)
Lemma evolves_ents root k F T es g k' F' T' f es' g' :
  AS k F root T es g -> evolves end_ root k F T k' F' T' f ->
  (forall vpn, 0 <= vpn -> f vpn = umap es' g' vpn) -> (forall vpn, vpn < TRAPN -> g' vpn = None) ->
  upages es' = upages es -> Forall (fun e => PTE_FLAGS e <> PTE_V /\ 0 <= e) es' ->
  astep root k F T es g k' F' T' es' g' /\ keeps k k' (upages es).
Proof.
  intros A V Hf Hg Eu He'. pose proof (a_nodup _ _ _ _ _ _ A) as HN. apply NoDup_app in HN as (HN1 & HN2 & HN3).
  pose proof (evolves_pages _ _ _ _ _ _ _ _ V HN3) as E.
  assert (Hout : forall a, ~ in_pages (tabs T ++ F) a -> ldb (km_mem k') a = ldb (km_mem k) a).
  { intros a Ha. apply (v_mem _ _ _ _ _ _ _ _ _ V). intros x p Hx Hp. apply Ha. exists p. split; [|done].
    rewrite <- E. apply elem_of_app. left. apply elem_of_tabs. eauto. }
  assert (El : length es' = length es) by (rewrite <- (length_fmap PTE2PA es), <- (length_fmap PTE2PA es'); by f_equal).
  split; [split|].
  - split; try apply V; try done; rewrite ?Eu, ?El; try apply A.
    + intros vpn Hv. rewrite (v_mp _ _ _ _ _ _ _ _ _ V) by done. by apply Hf.
    + rewrite E. apply A.
  - by rewrite Eu, E.
  - intros a Ha. apply Hout. rewrite in_pages_app in Ha. tauto.
  - intros p a Hp Ha. apply Hout. by eapply user_page_apart.
Qed.

Lemma evolves_astep root k F T es g k' F' T' f g' :
  AS k F root T es g -> evolves end_ root k F T k' F' T' f ->
  (forall vpn, 0 <= vpn -> f vpn = umap es g' vpn) -> (forall vpn, vpn < TRAPN -> g' vpn = None) ->
  astep root k F T es g k' F' T' es g' /\ keeps k k' (upages es).
Proof. intros A V Hf Hg. eapply evolves_ents; try done. apply A. Qed.

(** ** Creation *)

Definition T0 (q : Z) : gmap (Z * Z) Z := {[(2, 0) := q]}.

Lemma T0_inv q x p : T0 q !! x = Some p -> x = (2, 0) /\ p = q.
Proof. unfold T0. rewrite lookup_singleton_Some. naive_solver. Qed.

Lemma tabs_T0 q : tabs (T0 q) = [q].
Proof. unfold tabs, T0. by rewrite map_to_list_singleton. Qed.

Lemma fresh_pt m q : page_ok end_ q -> (forall j, 0 <= j < 512 -> ent m q j = 0) ->
  pt_ok end_ m q (T0 q) /\ forall vpn, mp m (T0 q) vpn = None.
Proof.
  intros Hq H0. split.
  - split.
    + unfold T0. apply lookup_singleton_eq.
    + intros l pre p [[= -> ->] _]%T0_inv. lia.
    + by intros x p [_ ->]%T0_inv.
    + by intros x y p [-> _]%T0_inv [-> _]%T0_inv.
    + intros l pre p [[= -> ->] _]%T0_inv. lia.
    + intros l pre p i [_ ->]%T0_inv _ Hi _. by rewrite H0.
    + intros l pre p i q' [[= -> ->] _]%T0_inv _ _ [[= ?] _]%T0_inv.
  - intros vpn. unfold mp. destruct (T0 q !! _) as [p|] eqn:E; [|done]. by apply T0_inv in E as [[=] _].
Qed.

Lemma alloc_zero k q F : km_ok end_ k (q :: F) ->
  exists k1, kalloc k = Ok (q, k1) /\ q <> 0 /\ page_ok end_ q /\ q ∉ F /\
    let k' := set_mem (memset q 0 PGSIZE (km_mem k1)) k1 in
    km_ok end_ k' F /\ (forall a, in_page q a -> ldb (km_mem k') a = 0) /\
    (forall a, ~ in_page q a -> ldb (km_mem k') a = ldb (km_mem k) a).
Proof.
  intros Hk. destruct (kalloc_page end_ k q F Hk) as (k1 & E1 & Hk1 & Hqn & Hq & Hm1).
  exists k1. split; [exact E1|]. split; [destruct Hq as (_ & _ & ?); lia|]. do 2 (split; [assumption|]). cbv zeta.
  pose proof (memset_ok q 0 PGSIZE (km_mem k1) (ko_mem _ _ _ Hk1)) as Hok.
  assert (Hm : forall a, ldb (memset q 0 PGSIZE (km_mem k1)) a = if decide (q <= a < q + PGSIZE) then u8 0 else ldb (km_mem k1) a).
  { intros a. apply memset_spec. unfold PGSIZE. lia. }
  revert Hok Hm. generalize (memset q 0 PGSIZE (km_mem k1)). intros m2 Hok Hm. split_and!; cbn [set_mem km_mem].
  - apply km_ok_frame; [done|done|]. intros a (r & Hr & Ha). rewrite Hm, decide_False; [done|].
    pose proof (ko_pages _ _ _ Hk1) as HP. rewrite Forall_forall in HP. destruct (HP r Hr) as [Hral _].
    apply (in_page_other r q a Hral (proj1 Hq)); [|done]. by intros ->.
  - intros a Ha. rewrite Hm. by rewrite decide_True.
  - intros a Ha. rewrite Hm, decide_False, Hm1, decide_False by done. done.
Qed.

Lemma uvmcreate_spec k F : km_ok end_ k F ->
  (F = [] /\ uvmcreate k = Ok (0, k)) \/
  exists q F' k', F = q :: F' /\ uvmcreate k = Ok (q, k') /\ q <> 0 /\ AS k' F' q (T0 q) [] (fun _ => None) /\
    forall a, ~ in_page q a -> ldb (km_mem k') a = ldb (km_mem k) a.
Proof.
  intros Hk. destruct F as [|q F].
  { left. split; [done|]. unfold uvmcreate. by rewrite (M_bind_Ok _ _ _ _ _ (kalloc_empty end_ k Hk)). }
  right. destruct (alloc_zero k q F Hk) as (k1 & E1 & Hq0 & Hq & Hqn & Hk' & Hz & Hm). cbv zeta in *.
  assert (E : uvmcreate k = Ok (q, set_mem (memset q 0 PGSIZE (km_mem k1)) k1)).
  { unfold uvmcreate. rewrite (M_bind_Ok _ _ _ _ _ E1). destruct (Z.eqb_spec q 0); [done|reflexivity]. }
  assert (H0 : forall j, 0 <= j < 512 -> ent (km_mem (set_mem (memset q 0 PGSIZE (km_mem k1)) k1)) q j = 0)
    by (intros j Hj; exact (ent_zeroed _ _ _ Hj)).
  revert E H0 Hk' Hz Hm. generalize (set_mem (memset q 0 PGSIZE (km_mem k1)) k1). intros k' E H0 Hk' Hz Hm.
  exists q, F, k'. do 3 (split; [done|]). split; [|done].
  destruct (fresh_pt (km_mem k') q Hq H0) as [H1 H2].
  split; [done|done|intros vpn _; by rewrite H2|constructor|constructor| |done|done].
  rewrite tabs_T0. cbn. apply NoDup_cons. split; [done|apply Hk'].
Qed.

(** ** Pages of the kernel in the address space *)

Lemma mappages_one k F root T es g va pa perm :
  AS k F root T es g -> 0 <= va -> va mod PGSIZE = 0 -> va + PGSIZE <= MAXVA -> (0 < fuel)%nat ->
  0 <= pa < 2 ^ 56 -> pa mod PGSIZE = 0 -> 0 <= perm < 1024 -> umap es g (va / PGSIZE) = None ->
  exists r k' F' T', mappages fuel root va PGSIZE pa perm k = Ok (r, k') /\
    ((r = 0 /\ evolves end_ root k F T k' F' T' (with_pages (mp (km_mem k) T) (va / PGSIZE) pa perm 1)) \/
     (r = -1 /\ F' = [] /\ evolves end_ root k F T k' F' T' (mp (km_mem k) T))) /\ (length F <= length F' + 2)%nat.
Proof.
  intros A Hva Hal Hmax Hf Hpa Hpal Hperm Hno.
  destruct (mappages_spec end_ fuel He k F root T va PGSIZE pa perm 0) as (r & k' & F' & T' & j & E & V & R & Hc); try done.
  - apply A.
  - apply A.
  - by eapply AS_apart.
  - rewrite (PGROUNDDOWN_id va) by done. rewrite PGROUNDDOWN_spec by mlia.
    replace (va + PGSIZE - 1) with ((PGSIZE - 1) + va) by lia. rewrite Zplus_mod, Hal, Z.add_0_r, Z.mod_mod by done.
    rewrite (Z.mod_small (PGSIZE - 1)) by mlia. lia.
  - lia.
  - mlia.
  - intros vpn Hv. assert (vpn = va / PGSIZE) as -> by lia. rewrite (a_mp _ _ _ _ _ _ A); [done|]. apply Z.div_pos; mlia.
  - exists r, k', F', T'. split; [done|]. split; [|lia]. destruct R as [[-> ->]|(-> & -> & Hj)]; [by left|right]. split_and!; [done|done|].
    eapply evolves_ext; [done|]. intros vpn Hv. assert (j = 0) as -> by lia. apply with_pages_0.
Qed.

Definition gupd (g : Z -> option Z) (n : Z) (e : option Z) (vpn : Z) : option Z := if decide (vpn = n) then e else g vpn.

Lemma map_sys k F root T es g va pa perm :
  AS k F root T es g -> va mod PGSIZE = 0 -> TRAPN <= va / PGSIZE -> va + PGSIZE <= MAXVA -> (0 < fuel)%nat ->
  0 <= pa < 2 ^ 56 -> pa mod PGSIZE = 0 -> 0 <= perm < 1024 -> g (va / PGSIZE) = None ->
  exists r k' F' T', mappages fuel root va PGSIZE pa perm k = Ok (r, k') /\
    ((r = 0 /\ astep root k F T es g k' F' T' es (gupd g (va / PGSIZE) (Some (leaf pa perm)))) \/
     (r = -1 /\ F' = [] /\ astep root k F T es g k' F' T' es g)) /\ (length F <= length F' + 2)%nat.
Proof.
  intros A Hal Hn Hmax Hf Hpa Hpal Hperm Hno. assert (HT : 0 <= TRAPN) by (vm_compute; congruence).
  assert (Hva : 0 <= va) by (destruct (Z.lt_ge_cases va 0); [|lia]; assert (va / PGSIZE < 0) by (apply Z.div_lt_upper_bound; mlia); lia).
  pose proof (a_small _ _ _ _ _ _ A) as Hs.
  assert (Hbig : forall vpn, TRAPN <= vpn -> forall h, umap es h vpn = h vpn).
  { intros vpn Hv h. unfold umap. by rewrite lookup_ge_None_2 by lia. }
  destruct (mappages_one k F root T es g va pa perm) as (r & k' & F' & T' & E & R & Hc); try done; [by rewrite Hbig|].
  exists r, k', F', T'. split; [done|]. split; [|done]. destruct R as [[-> V]|(-> & -> & V)]; [left|right]; (split; [done|]).
  - eapply evolves_astep; [done|done| |].
    + intros vpn Hv. unfold with_pages. case_decide as Hd.
      * assert (vpn = va / PGSIZE) as -> by lia. rewrite Hbig by lia. unfold gupd. rewrite decide_True by done. do 2 f_equal. lia.
      * rewrite (a_mp _ _ _ _ _ _ A) by done. unfold umap. destruct (es !! _); [done|]. unfold gupd. by rewrite decide_False by lia.
    + intros vpn Hv. unfold gupd. rewrite decide_False by lia. by apply A.
  - split; [done|]. eapply evolves_astep; [done|done| |apply A]. intros vpn Hv. by apply A.
Qed.

(** Removing entries: from [unmaps] of [uvmunmap]. *)
Lemma unmaps_astep root k F T es g k' F' pas f es' g' :
  AS k F root T es g -> unmaps end_ root k T k' F' pas f ->
  upages es ≡ₚ upages es' ++ pas -> F' ≡ₚ pas ++ F -> es' `prefix_of` es ->
  (forall vpn, 0 <= vpn -> f vpn = umap es' g' vpn) -> (forall vpn, vpn < TRAPN -> g' vpn = None) ->
  astep root k F T es g k' F' T es' g' /\ keeps k k' (upages es').
Proof.
  intros A U Hp HF [es2 ->] Hf Hg. pose proof (a_nodup _ _ _ _ _ _ A) as HN. pose proof (a_ents _ _ _ _ _ _ A) as HE.
  pose proof (a_pages _ _ _ _ _ _ A) as HP. pose proof (a_small _ _ _ _ _ _ A) as Hs.
  assert (E : upages es' ++ tabs T ++ F' ≡ₚ upages (es' ++ es2) ++ tabs T ++ F).
  { rewrite HF, Hp, (app_assoc (tabs T)), (Permutation_app_comm (tabs T)), <- !app_assoc. done. }
  assert (Hout : forall a, ~ in_pages (pas ++ tabs T) a -> ldb (km_mem k') a = ldb (km_mem k) a).
  { intros a Ha. rewrite in_pages_app in Ha. apply U; [intros x p Hx Hpa|intros p Hpp Hpa]; apply Ha.
    - right. exists p. split; [apply elem_of_tabs; eauto|done].
    - left. by exists p. }
  split; [split|].
  - split; try apply U; [| | | | |done].
    + intros vpn Hv. rewrite (u_mp _ _ _ _ _ _ _ _ U) by done. by apply Hf.
    + by apply Forall_app in HE as [HE _].
    + unfold upages in *. rewrite fmap_app in HP. by apply Forall_app in HP as [HP _].
    + by rewrite E.
    + rewrite length_app in Hs. lia.
  - done.
  - intros a Ha. apply Hout. rewrite Hp, !in_pages_app in Ha. rewrite in_pages_app. tauto.
  - intros p a Hin Ha. apply Hout. apply (page_not_in end_ p _ a); [| | |done].
    + rewrite Hp in HP. apply Forall_app in HP as [HP _]. rewrite Forall_forall in HP. apply (HP p Hin).
    + pose proof (AS_all_pages _ _ _ _ _ _ A) as HA. rewrite Hp, !Forall_app in HA. apply Forall_app. tauto.
    + rewrite Hp, <- app_assoc in HN. apply NoDup_app in HN as (_ & Hd & _). intros Hc. apply (Hd p Hin).
      rewrite !elem_of_app in *. tauto.
Qed.

Lemma umap_big k F root T es g h vpn : AS k F root T es g -> TRAPN <= vpn -> umap es h vpn = h vpn.
Proof. intros A Hv. pose proof (a_small _ _ _ _ _ _ A). unfold umap. by rewrite lookup_ge_None_2 by lia. Qed.

Lemma unmap_sys k F root T es g va e :
  AS k F root T es g -> va mod PGSIZE = 0 -> TRAPN <= va / PGSIZE -> va + PGSIZE <= MAXVA -> (1 < fuel)%nat ->
  g (va / PGSIZE) = Some e -> PTE_FLAGS e <> PTE_V ->
  exists k', uvmunmap end_ fuel root va 1 false k = Ok (tt, k') /\
    astep root k F T es g k' F T es (gupd g (va / PGSIZE) None) /\ keeps k k' (upages es).
Proof.
  intros A Hal Hn Hmax Hf Hg Hfl. assert (HT : 0 <= TRAPN) by (vm_compute; congruence).
  assert (Hva : 0 <= va) by (destruct (Z.lt_ge_cases va 0); [|lia]; assert (va / PGSIZE < 0) by (apply Z.div_lt_upper_bound; mlia); lia).
  destruct (uvmunmap_spec end_ fuel He [PTE2PA e] k F root T va false) as (k' & E & U); try done.
  - apply A.
  - apply A.
  - by eapply AS_apart.
  - cbn. split; [|done]. exists e. split_and!; [|done|done]. rewrite (a_mp _ _ _ _ _ _ A) by lia. by rewrite (umap_big _ _ _ _ _ _ _ _ A Hn).
  - exists k'. split; [done|]. eapply unmaps_astep; [done|done|by rewrite app_nil_r|done|done| |].
    + intros vpn Hv. cbn [length Z.of_nat]. unfold without_pages. case_decide as Hd.
      * rewrite (umap_big _ _ _ _ _ _ _ _ A) by lia. unfold gupd. by rewrite decide_True by lia.
      * rewrite (a_mp _ _ _ _ _ _ A) by done. unfold umap. destruct (es !! _); [done|]. unfold gupd. by rewrite decide_False by lia.
    + intros vpn Hv. unfold gupd. case_decide; [done|]. by apply A.
Qed.

(** Entries of user pages, as [uvmunmap] expects them. *)
Lemma as_mapped k F root T es1 es2 g :
  AS k F root T (es1 ++ es2) g -> mapped_to (mp (km_mem k) T) (Z.of_nat (length es1)) (upages es2).
Proof.
  intros A. apply mapped_to_intro. intros i pa Hi. unfold upages in Hi. rewrite list_lookup_fmap, fmap_Some in Hi.
  destruct Hi as (e & Ee & ->). exists e. rewrite (a_mp _ _ _ _ _ _ A) by lia.
  assert (Hl : (es1 ++ es2) !! (length es1 + i)%nat = Some e) by (by rewrite lookup_app_r, Nat.add_sub' by lia).
  split_and!; [|done|].
  - unfold umap. replace (Z.to_nat (Z.of_nat (length es1) + Z.of_nat i)) with (length es1 + i)%nat by lia. by rewrite Hl.
  - pose proof (a_ents _ _ _ _ _ _ A) as HE. rewrite Forall_forall in HE. apply HE. by eapply list_elem_of_lookup_2.
Qed.

Lemma as_user_pages k F root T es1 es2 g : AS k F root T (es1 ++ es2) g -> user_pages end_ T F (upages es2).
Proof.
  intros A. pose proof (a_nodup _ _ _ _ _ _ A) as HN. pose proof (a_pages _ _ _ _ _ _ A) as HP.
  unfold upages in *. rewrite fmap_app in HN, HP. apply Forall_app in HP as [_ HP]. rewrite <- app_assoc in HN.
  apply NoDup_app in HN as (_ & _ & HN). split; [done|]. split.
  - rewrite app_assoc, (Permutation_app_comm (PTE2PA <$> es2)), <- app_assoc in HN. by apply NoDup_app in HN as (_ & _ & ?).
  - intros x p Hx Hp. assert (Ht : p ∈ tabs T) by (apply elem_of_tabs; eauto).
    apply NoDup_app in HN as (_ & Hd & HN). apply elem_of_app in Hp as [Hp|Hp].
    + apply (Hd p Hp), elem_of_app. by left.
    + apply NoDup_app in HN as (_ & Hd2 & _). by apply (Hd2 p Ht).
Qed.

Lemma shrink_as k F root T es1 es2 g :
  AS k F root T (es1 ++ es2) g -> (length es2 < fuel)%nat ->
  exists k' F', uvmunmap end_ fuel root (Z.of_nat (length es1) * PGSIZE) (Z.of_nat (length es2)) true k = Ok (tt, k') /\
    astep root k F T (es1 ++ es2) g k' F' T es1 g /\ keeps k k' (upages es1).
Proof.
  intros A Hf. pose proof (a_small _ _ _ _ _ _ A) as Hs. rewrite length_app in Hs.
  assert (HT : TRAPN * PGSIZE <= MAXVA) by (vm_compute; congruence).
  assert (Hd : Z.of_nat (length es1) * PGSIZE / PGSIZE = Z.of_nat (length es1)) by (by apply Z.div_mul).
  destruct (uvmunmap_spec end_ fuel He (upages es2) k F root T (Z.of_nat (length es1) * PGSIZE) true) as (k' & E & U).
  - apply A.
  - apply A.
  - by eapply AS_apart.
  - unfold upages. by rewrite length_fmap.
  - mlia.
  - by apply Z.mod_mul.
  - unfold upages. rewrite length_fmap. mlia.
  - rewrite Hd. by eapply as_mapped.
  - intros _. by eapply as_user_pages.
  - unfold upages in E, U at 3. rewrite length_fmap in E, U. exists k', (reverse (upages es2) ++ F). split; [done|].
    eapply unmaps_astep; [done|done|unfold upages; by rewrite fmap_app|by rewrite reverse_Permutation|by eexists| |apply A].
    intros vpn Hv. rewrite Hd. unfold without_pages. case_decide as Hc.
    + unfold umap. rewrite lookup_ge_None_2 by lia. symmetry. apply (a_sys _ _ _ _ _ _ A). lia.
    + rewrite (a_mp _ _ _ _ _ _ A) by done. unfold umap. destruct (decide (vpn < Z.of_nat (length es1))).
      * by rewrite lookup_app_l by lia.
      * rewrite (lookup_ge_None_2 es1), (lookup_ge_None_2 (es1 ++ es2)); [done|rewrite length_app; lia|lia].
Qed.

(** [uvmfree] gives all pages of the address space back. *)
Lemma free_as k F root T es sz :
  AS k F root T es (fun _ => None) -> 0 <= sz -> PGROUNDUP sz / PGSIZE = Z.of_nat (length es) -> (length es < fuel)%nat ->
  exists k' F', uvmfree end_ fuel 3 root sz k = Ok (tt, k') /\ frees end_ k F (upages es ++ tabs T) k' F'.
Proof.
  intros A Hsz Hn Hf. pose proof (a_small _ _ _ _ _ _ A) as Hs. assert (HT : TRAPN * PGSIZE <= MAXVA) by (vm_compute; congruence).
  assert (Hl : length (upages es) = length es) by (unfold upages; by rewrite length_fmap).
  apply uvmfree_spec; rewrite ?Hl; try done; [apply A|apply A|by eapply AS_apart|mlia|by apply (as_mapped k F root T [] es (fun _ => None))|by apply (as_user_pages k F root T [] es (fun _ => None))|].
  intros vpn Hv. rewrite (a_mp _ _ _ _ _ _ A) by lia. unfold umap. by rewrite lookup_ge_None_2 by lia.
Qed.

(** ** Growing *)

(** A page taken from the free list and written to. *)
Lemma AS_take k q F root T es g k2 :
  AS k (q :: F) root T es g -> km_ok end_ k2 F -> (forall a, ~ in_page q a -> ldb (km_mem k2) a = ldb (km_mem k) a) ->
  AS k2 F root T es g /\ keeps k k2 (upages es) /\ page_ok end_ q /\ q ∉ upages es ++ tabs T ++ F.
Proof.
  intros A Hk2 Hm. pose proof (AS_all_pages _ _ _ _ _ _ A) as HP. rewrite !Forall_app in HP. destruct HP as (HP1 & HP2 & HP3).
  apply Forall_cons in HP3 as [Hq HP3]. pose proof (a_nodup _ _ _ _ _ _ A) as HN.
  assert (E : upages es ++ tabs T ++ q :: F ≡ₚ q :: upages es ++ tabs T ++ F) by (by rewrite <- !Permutation_middle).
  rewrite E in HN. apply NoDup_cons in HN as [Hqn HN]. split_and!; [|intros p a Hp Ha; apply Hm|done|done].
  - destruct (pt_frame_page end_ (km_mem k) (km_mem k2) root T q) as [O1 O2]; [apply A|apply Hq| |done|].
    { intros x Hx. apply Hqn. rewrite !elem_of_app. right. left. apply elem_of_tabs. eauto. }
    split; try apply A; [done|done| |done]. intros vpn Hv. rewrite O2. by apply A.
  - rewrite Forall_forall in HP1. apply (in_page_other p q a); [apply (HP1 p Hp)|apply Hq| |done].
    intros ->. apply Hqn, elem_of_app. by left.
Qed.

(** The page is mapped behind the others. *)
Lemma AS_add k2 F root T es g k3 F3 T3 q perm :
  AS k2 F root T es g -> page_ok end_ q -> q ∉ upages es ++ tabs T ++ F -> 0 <= perm < 1024 -> Z.lor perm PTE_V <> PTE_V ->
  Z.of_nat (length es) < TRAPN ->
  evolves end_ root k2 F T k3 F3 T3 (with_pages (mp (km_mem k2) T) (Z.of_nat (length es)) q perm 1) ->
  AS k3 F3 root T3 (es ++ [leaf q perm]) g /\ tabs T3 ++ F3 ≡ₚ tabs T ++ F /\ upages (es ++ [leaf q perm]) = upages es ++ [q].
Proof.
  intros A Hq Hqn Hperm Hfl Hs V. destruct (page_ok_range end_ q He Hq) as [Hq1 Hq2].
  destruct (leaf_facts q perm Hq1 Hq2 Hperm) as (L1 & L2 & L3 & L4).
  assert (Hu : upages (es ++ [leaf q perm]) = upages es ++ [q]) by (unfold upages; rewrite fmap_app; cbn; by rewrite L3).
  pose proof (a_nodup _ _ _ _ _ _ A) as HN. pose proof HN as HN'. apply NoDup_app in HN' as (_ & _ & HN').
  pose proof (evolves_pages _ _ _ _ _ _ _ _ V HN') as E. split_and!; [|done|done]. split; try apply V.
  - intros vpn Hv. rewrite (v_mp _ _ _ _ _ _ _ _ _ V) by done. unfold with_pages, umap. case_decide as Hd.
    + assert (vpn = Z.of_nat (length es)) as -> by lia. rewrite Nat2Z.id, lookup_app_r, Nat.sub_diag by lia. cbn. do 2 f_equal. lia.
    + rewrite (a_mp _ _ _ _ _ _ A) by done. unfold umap. destruct (decide (vpn < Z.of_nat (length es))).
      * by rewrite lookup_app_l by lia.
      * rewrite (lookup_ge_None_2 es), (lookup_ge_None_2 (es ++ _)); [done|rewrite length_app; cbn; lia|lia].
  - apply Forall_app. split; [apply A|]. constructor; [|done]. rewrite L4. split; [done|lia].
  - rewrite Hu. apply Forall_app. split; [apply A|by constructor].
  - rewrite Hu, E, <- app_assoc. cbn. rewrite <- Permutation_middle. apply NoDup_cons. by split.
  - rewrite length_app. cbn. lia.
  - apply A.
Qed.

Lemma evolves_mem k2 F root T es g k3 F3 T3 f a :
  AS k2 F root T es g -> evolves end_ root k2 F T k3 F3 T3 f -> ~ in_pages (tabs T ++ F) a ->
  ldb (km_mem k3) a = ldb (km_mem k2) a.
Proof.
  intros A V Ha. pose proof (a_nodup _ _ _ _ _ _ A) as HN. apply NoDup_app in HN as (_ & _ & HN).
  apply (v_mem _ _ _ _ _ _ _ _ _ V). intros x p Hx Hp. apply Ha. rewrite <- (evolves_pages _ _ _ _ _ _ _ _ V HN).
  exists p. split; [|done]. apply elem_of_app. left. apply elem_of_tabs. eauto.
Qed.

Lemma grow_mapped k q F root T es g k2 k3 F3 T3 perm :
  AS k (q :: F) root T es g -> AS k2 F root T es g -> keeps k k2 (upages es) -> page_ok end_ q ->
  q ∉ upages es ++ tabs T ++ F -> (forall a, ~ in_page q a -> ldb (km_mem k2) a = ldb (km_mem k) a) ->
  0 <= perm < 1024 -> Z.lor perm PTE_V <> PTE_V -> Z.of_nat (length es) < TRAPN ->
  evolves end_ root k2 F T k3 F3 T3 (with_pages (mp (km_mem k2) T) (Z.of_nat (length es)) q perm 1) ->
  astep root k (q :: F) T es g k3 F3 T3 (es ++ [leaf q perm]) g /\ keeps k k3 (upages es) /\ keeps k2 k3 [q].
Proof.
  intros A A2 K2 Hq Hqn Hm Hperm Hfl Hs V.
  destruct (AS_add _ _ _ _ _ _ _ _ _ _ _ A2 Hq Hqn Hperm Hfl Hs V) as (A3 & E3 & Hu). split; [split|split].
  - done.
  - rewrite Hu, E3, <- app_assoc. cbn. by rewrite <- !Permutation_middle.
  - intros a Ha. rewrite !in_pages_app, in_pages_cons in Ha. rewrite (evolves_mem _ _ _ _ _ _ _ _ _ _ _ A2 V), Hm; [done|tauto|].
    rewrite in_pages_app. tauto.
  - eapply keeps_trans; [done|]. intros p a Hp Ha. apply (evolves_mem _ _ _ _ _ _ _ _ _ _ _ A2 V). by eapply user_page_apart.
  - intros p a Hp Ha. apply list_elem_of_singleton in Hp as ->. apply (evolves_mem _ _ _ _ _ _ _ _ _ _ _ A2 V).
    pose proof (AS_all_pages _ _ _ _ _ _ A2) as HP. apply Forall_app in HP as [_ HP].
    apply (page_not_in end_ q _ a); [apply Hq|done| |done]. intros Hc. apply Hqn, elem_of_app. by right.
Qed.

Lemma grow_failed k q F root T es g k2 k3 T3 :
  AS k (q :: F) root T es g -> AS k2 F root T es g -> keeps k k2 (upages es) -> page_ok end_ q ->
  q ∉ upages es ++ tabs T ++ F -> (forall a, ~ in_page q a -> ldb (km_mem k2) a = ldb (km_mem k) a) ->
  evolves end_ root k2 F T k3 [] T3 (mp (km_mem k2) T) ->
  exists k4, kfree end_ q k3 = Ok (tt, k4) /\ astep root k (q :: F) T es g k4 [q] T3 es g /\ keeps k k4 (upages es).
Proof.
  intros A A2 K2 Hq Hqn Hm V.
  destruct (evolves_astep root k2 F T es g k3 [] T3 _ g A2 V) as [[A3 E3 M3] K3]; [apply A2|apply A2|].
  rewrite app_nil_r in E3. assert (Hq3 : q ∉ upages es ++ tabs T3) by (by rewrite E3).
  destruct (kfree_spec end_ k3 q [] (a_km _ _ _ _ _ _ A3) Hq ltac:(set_solver) He) as (k4 & E4 & Hk4 & M4).
  exists k4. split; [done|]. assert (HP := AS_all_pages _ _ _ _ _ _ A3). rewrite app_nil_r in HP.
  assert (M34 : forall a, in_pages (upages es ++ tabs T3) a -> ldb (km_mem k4) a = ldb (km_mem k3) a).
  { intros a (r & Hr & Ha). apply M4. rewrite Forall_forall in HP. apply (in_page_other r q a); [apply (HP r Hr)|apply Hq| |done].
    by intros ->. }
  split; [split|].
  - destruct (pt_frame_page end_ (km_mem k3) (km_mem k4) root T3 q) as [O1 O2]; [apply A3|apply Hq| |done|].
    { intros x Hx. apply Hq3, elem_of_app. right. apply elem_of_tabs. eauto. }
    split; try apply A3; [done|done| |].
    + intros vpn Hv. rewrite O2. by apply A3.
    + rewrite app_assoc, (Permutation_app_comm (upages es ++ tabs T3)). cbn. apply NoDup_cons. split; [done|].
      pose proof (a_nodup _ _ _ _ _ _ A3) as HN. by rewrite app_nil_r in HN.
  - rewrite app_assoc, E3. rewrite (Permutation_app_comm _ [q]). cbn. by rewrite <- !Permutation_middle.
  - intros a Ha. rewrite !in_pages_app, in_pages_cons in Ha. rewrite M4 by (unfold in_page in Ha; tauto). rewrite M3, Hm; [done|tauto|].
    rewrite !in_pages_app. tauto.
  - eapply keeps_trans; [done|]. eapply keeps_trans; [done|]. intros p a Hp Ha. apply M34. rewrite in_pages_app. left. by exists p.
Qed.

Lemma grow_page k q F root T es g perm k2 :
  AS k (q :: F) root T es g -> Z.of_nat (length es) < TRAPN -> (0 < fuel)%nat -> 0 <= perm < 1024 -> Z.lor perm PTE_V <> PTE_V ->
  km_ok end_ k2 F -> (forall a, ~ in_page q a -> ldb (km_mem k2) a = ldb (km_mem k) a) ->
  exists r k3 F3 T3, mappages fuel root (Z.of_nat (length es) * PGSIZE) PGSIZE q perm k2 = Ok (r, k3) /\
    ((r = 0 /\ (length F3 <= length F <= length F3 + 2)%nat /\
      astep root k (q :: F) T es g k3 F3 T3 (es ++ [leaf q perm]) g /\ keeps k k3 (upages es) /\ keeps k2 k3 [q]) \/
     (r = -1 /\ (length F <= 2)%nat /\ exists k4, kfree end_ q k3 = Ok (tt, k4) /\ astep root k (q :: F) T es g k4 [q] T3 es g /\ keeps k k4 (upages es))).
Proof.
  intros A Hs Hf Hperm Hfl Hk2 Hm. destruct (AS_take _ _ _ _ _ _ _ _ A Hk2 Hm) as (A2 & K2 & Hq & Hqn).
  destruct (page_ok_range end_ q He Hq) as [Hq1 Hq2]. assert (HT : TRAPN * PGSIZE <= MAXVA - PGSIZE) by (vm_compute; congruence).
  assert (Hd : Z.of_nat (length es) * PGSIZE / PGSIZE = Z.of_nat (length es)) by (by apply Z.div_mul).
  destruct (mappages_one k2 F root T es g (Z.of_nat (length es) * PGSIZE) q perm) as (r & k3 & F3 & T3 & E & R & Hc); try done.
  - mlia.
  - by apply Z.mod_mul.
  - mlia.
  - rewrite Hd. unfold umap. rewrite lookup_ge_None_2 by lia. apply A. lia.
  - rewrite Hd in R. exists r, k3, F3, T3. split; [done|]. destruct R as [[-> V]|(-> & -> & V)]; [left|right]; (split; [done|]).
    + split; [destruct (v_taken _ _ _ _ _ _ _ _ _ V) as (l & -> & _); rewrite length_app in *; lia|].
      apply (grow_mapped k q F root T es g k2 k3 F3 T3 perm); done.
    + split; [done|]. apply (grow_failed k q F root T es g k2 k3 T3); done.
Qed.

(** ** uvmdealloc and uvmalloc *)

Lemma pgroundup_pages sz n : 0 <= sz <= MAXVA -> PGROUNDUP sz / PGSIZE = n <-> (n - 1) * PGSIZE < sz <= n * PGSIZE.
Proof.
  intros Hsz. destruct (PGROUNDUP_spec sz) as [H1 H2]; [lia|mlia|]. apply Z.mod_divide in H2 as [q Hq]; [|done].
  rewrite Hq in *. rewrite Z.div_mul by done. mlia.
Qed.

Lemma pgroundup_mul sz n : 0 <= sz <= MAXVA -> PGROUNDUP sz / PGSIZE = n -> PGROUNDUP sz = n * PGSIZE.
Proof.
  intros Hsz <-. destruct (PGROUNDUP_spec sz) as [H1 H2]; [lia|mlia|]. apply Z.mod_divide in H2 as [q Hq]; [|done].
  rewrite Hq. by rewrite Z.div_mul.
Qed.

Lemma uvmdealloc_as k F root T es g oldsz newsz :
  AS k F root T es g -> 0 <= newsz < oldsz -> oldsz <= MAXVA -> PGROUNDUP oldsz / PGSIZE = Z.of_nat (length es) ->
  (length es < fuel)%nat ->
  exists k' F', uvmdealloc end_ fuel root oldsz newsz k = Ok (newsz, k') /\
    let es' := take (Z.to_nat (PGROUNDUP newsz / PGSIZE)) es in
    astep root k F T es g k' F' T es' g /\ keeps k k' (upages es') /\ PGROUNDUP newsz / PGSIZE = Z.of_nat (length es').
Proof.
  intros A Hn Ho Hes Hf. assert (HM : MAXVA < 2 ^ 39) by done. pose proof (a_small _ _ _ _ _ _ A) as Hs.
  assert (HT : TRAPN < 2 ^ 30) by done. set (n := PGROUNDUP newsz / PGSIZE).
  pose proof (proj1 (pgroundup_pages newsz n ltac:(lia)) eq_refl) as H1. pose proof (proj1 (pgroundup_pages oldsz _ ltac:(lia)) Hes) as H2.
  pose proof (pgroundup_mul newsz n ltac:(lia) eq_refl) as E1. pose proof (pgroundup_mul oldsz _ ltac:(lia) Hes) as E2.
  assert (Hle : 0 <= n <= Z.of_nat (length es)) by mlia. cbv zeta.
  assert (Hlt : length (take (Z.to_nat n) es) = Z.to_nat n) by (rewrite length_take; lia).
  assert (Hld : length (drop (Z.to_nat n) es) = (length es - Z.to_nat n)%nat) by apply length_drop.
  unfold uvmdealloc. destruct (Z.leb_spec oldsz newsz); [lia|]. rewrite E1, E2. unfold when.
  destruct (Z.ltb_spec (n * PGSIZE) (Z.of_nat (length es) * PGSIZE)) as [Hc|Hc].
  - replace (Z.of_nat (length es) * PGSIZE - n * PGSIZE) with ((Z.of_nat (length es) - n) * PGSIZE) by lia.
    rewrite Z.div_mul, s32_small by (done || lia).
    rewrite <- (take_drop (Z.to_nat n) es) in A.
    destruct (shrink_as k F root T _ _ g A) as (k' & F' & E & St & Kp); [lia|].
    rewrite Hlt, Hld in E. replace (Z.of_nat (Z.to_nat n)) with n in E by lia.
    replace (Z.of_nat (length es - Z.to_nat n)) with (Z.of_nat (length es) - n) in E by lia.
    rewrite (M_bind_Ok _ _ _ _ _ E). exists k', F'. rewrite take_drop in St. split_and!; [done|done|done|lia].
  - assert (n = Z.of_nat (length es)) as En by mlia. exists k, F. mgo. rewrite En, Nat2Z.id, firstn_all.
    split_and!; [done|by apply astep_refl|done|done].
Qed.

Definition UPERM : Z := Z.lor (Z.lor (Z.lor PTE_W PTE_X) PTE_R) PTE_U.

Definition zeroed k (l : list Z) : Prop := forall p a, p ∈ l -> in_page p a -> ldb (km_mem k) a = 0.

(** Entries [uvmalloc] makes. *)
Definition fresh_ents (es : list Z) : Prop := Forall (fun e => exists q, e = leaf q UPERM /\ PTE2PA e = q) es.

(** What [uvmalloc] does when it runs out of memory. *)
Lemma undo_growth k F root T es news g :
  AS k F root T (es ++ news) g -> Z.of_nat (length (es ++ news)) <= TRAPN -> (length (es ++ news) < fuel)%nat ->
  exists r k' F', uvmdealloc end_ fuel root (Z.of_nat (length (es ++ news)) * PGSIZE) (Z.of_nat (length es) * PGSIZE) k = Ok (r, k') /\
    astep root k F T (es ++ news) g k' F' T es g /\ keeps k k' (upages es).
Proof.
  intros A Hs Hf. assert (HT : TRAPN * PGSIZE <= MAXVA) by (vm_compute; congruence).
  assert (Hd : forall l : list Z, Z.of_nat (length l) <= TRAPN -> PGROUNDUP (Z.of_nat (length l) * PGSIZE) / PGSIZE = Z.of_nat (length l)).
  { intros l Hl. apply pgroundup_pages; mlia. }
  destruct news as [|e news].
  - rewrite app_nil_r in *. unfold uvmdealloc. rewrite Z.leb_refl. eexists _, k, F. split_and!; [done|by apply astep_refl|done].
  - rewrite length_app in Hs. destruct (uvmdealloc_as k F root T (es ++ e :: news) g (Z.of_nat (length (es ++ e :: news)) * PGSIZE)
      (Z.of_nat (length es) * PGSIZE) A) as (k' & F' & E & St & Kp & _).
    + rewrite length_app. cbn [length]. mlia.
    + rewrite length_app. mlia.
    + apply Hd. by rewrite length_app.
    + done.
    + rewrite Hd, Nat2Z.id, take_app_length in St, Kp by lia. eexists _, k', F'. by split_and!.
Qed.

Lemma fresh_leaf q : page_ok end_ q -> PTE2PA (leaf q UPERM) = q.
Proof.
  intros Hq. destruct (page_ok_range end_ q He Hq) as [Hq1 Hq2]. by destruct (leaf_facts q UPERM Hq1 Hq2 ltac:(done)) as (_ & _ & ? & _).
Qed.

(** One page more, then the rest. *)
Lemma grow_more k q F root T es news g k2 k3 F3 T3 r k' F' T' newsz n :
  page_ok end_ q -> (forall a, in_page q a -> ldb (km_mem k2) a = 0) -> (length F <= length F3 + 2)%nat -> keeps k2 k3 [q] ->
  keeps k k3 (upages (es ++ news)) -> AS k3 F3 root T3 (es ++ news ++ [leaf q UPERM]) g ->
  astep root k (q :: F) T (es ++ news) g k3 F3 T3 ((es ++ news) ++ [leaf q UPERM]) g ->
  ((r = newsz /\ exists news', Z.of_nat (length (es ++ (news ++ [leaf q UPERM]) ++ news')) = n /\ fresh_ents news' /\ zeroed k' (upages news') /\
      astep root k3 F3 T3 (es ++ news ++ [leaf q UPERM]) g k' F' T' (es ++ (news ++ [leaf q UPERM]) ++ news') g /\
      keeps k3 k' (upages (es ++ news ++ [leaf q UPERM])) /\
      (length F3 + 3 * length (es ++ news ++ [leaf q UPERM]) <= length F' + 3 * Z.to_nat n)%nat) \/
   (r = 0 /\ astep root k3 F3 T3 (es ++ news ++ [leaf q UPERM]) g k' F' T' es g /\ keeps k3 k' (upages es) /\ (3 * length (es ++ news ++ [leaf q UPERM]) + length F3 <= 3 * Z.to_nat n)%nat)) ->
  (r = newsz /\ exists news', Z.of_nat (length (es ++ news ++ news')) = n /\ fresh_ents news' /\ zeroed k' (upages news') /\
      astep root k (q :: F) T (es ++ news) g k' F' T' (es ++ news ++ news') g /\ keeps k k' (upages (es ++ news)) /\
      (length (q :: F) + 3 * length (es ++ news) <= length F' + 3 * Z.to_nat n)%nat) \/
  (r = 0 /\ astep root k (q :: F) T (es ++ news) g k' F' T' es g /\ keeps k k' (upages es) /\ (3 * length (es ++ news) + length (q :: F) <= 3 * Z.to_nat n)%nat).
Proof.
  intros Hq Hz Hc Kq Kp A3 St R. rewrite <- app_assoc in St. pose proof (fresh_leaf q Hq) as Lq.
  destruct R as [(-> & news' & Hl & Hfr & Hz' & St' & Kp' & Hcc)|(-> & St' & Kp' & Hl)]; [left|right]; (split; [done|]).
  - exists (leaf q UPERM :: news'). rewrite <- (app_assoc news) in *. cbn [app] in *. split_and!; [done| | | | |rewrite !length_app in *; cbn in *; lia].
    + constructor; [eauto|done].
    + intros p a Hp Ha. unfold upages in Hp. cbn in Hp. apply elem_of_cons in Hp as [->|Hp]; [|by apply (Hz' p)].
      rewrite Lq in Ha. rewrite (Kp' q a), (Kq q a), Hz; [done|done|left|done| |done].
      unfold upages. rewrite !fmap_app, !elem_of_app. right. right. rewrite <- Lq at 1. left.
    + by eapply astep_trans.
    + eapply keeps_trans; [done|]. intros p a Hp Ha. apply (Kp' p a); [|done].
      unfold upages in *. rewrite !fmap_app, !elem_of_app in *. tauto.
  - split; [by eapply astep_trans|]. split; [|rewrite !length_app in *; cbn in *; lia]. eapply keeps_trans; [|done]. intros p a Hp Ha. apply (Kp p a); [|done].
    unfold upages. rewrite fmap_app, elem_of_app. by left.
Qed.

Lemma uvmalloc_loop newsz n es root g : 0 < newsz -> (n - 1) * PGSIZE < newsz <= n * PGSIZE -> Z.of_nat (length es) <= n ->
  forall fuel' k F T news,
  AS k F root T (es ++ news) g -> Z.of_nat (length (es ++ news)) <= n -> Z.min (n - Z.of_nat (length (es ++ news))) (Z.of_nat (length F)) < Z.of_nat fuel' ->
  Z.min n (Z.of_nat (length (es ++ news) + length F)) <= TRAPN -> Z.min n (Z.of_nat (length (es ++ news) + length F)) < Z.of_nat fuel ->
  exists r k' F' T', uvmalloc_from end_ fuel fuel' root (Z.of_nat (length (es ++ news)) * PGSIZE) (Z.of_nat (length es) * PGSIZE) newsz k = Ok (r, k') /\
    ((r = newsz /\ exists news', Z.of_nat (length (es ++ news ++ news')) = n /\ fresh_ents news' /\ zeroed k' (upages news') /\
        astep root k F T (es ++ news) g k' F' T' (es ++ news ++ news') g /\ keeps k k' (upages (es ++ news)) /\
        (length F + 3 * length (es ++ news) <= length F' + 3 * Z.to_nat n)%nat) \/
     (r = 0 /\ astep root k F T (es ++ news) g k' F' T' es g /\ keeps k k' (upages es) /\ (3 * length (es ++ news) + length F <= 3 * Z.to_nat n)%nat)).
Proof.
  intros Hns Hb Hes. assert (HT64 : TRAPN * PGSIZE < 2 ^ 64) by done.
  induction fuel' as [|f IH]; intros k F T news A Hle Hfu HT Hf; [lia|]. cbn [uvmalloc_from].
  set (a := Z.of_nat (length (es ++ news)) * PGSIZE). destruct (Z.ltb_spec a newsz) as [Ha|Ha]; cbn [negb].
  2:{ exists newsz, k, F, T. split; [done|]. left. split; [done|]. exists []. rewrite !app_nil_r.
      split_and!; [unfold a in Ha; mlia|constructor|by intros p b Hp%not_elem_of_nil|by apply astep_refl|done|lia]. }
  assert (Hlt : Z.of_nat (length (es ++ news)) < n) by (unfold a in Ha; mlia).
  destruct F as [|q F]; cbn [length] in *.
  { rewrite (M_bind_Ok _ _ _ _ _ (kalloc_empty end_ k (a_km _ _ _ _ _ _ A))). cbn [Z.eqb].
    destruct (undo_growth k [] root T es news g A ltac:(lia) ltac:(lia)) as (r & k' & F' & E & St & Kp). fold a in E.
    rewrite (M_bind_Ok _ _ _ _ _ E). exists 0, k', F', T. split; [done|]. right. split_and!; [done|done|done|].
    cbn [length]. lia. }
  destruct (alloc_zero k q F (a_km _ _ _ _ _ _ A)) as (k1 & E1 & Hq0 & Hq & Hqn & Hk2 & Hz & Hm). cbv zeta in *.
  rewrite (M_bind_Ok _ _ _ _ _ E1). destruct (Z.eqb_spec q 0); [done|]. unfold kmemset. mgo.
  revert Hk2 Hz Hm. generalize (set_mem (memset q 0 PGSIZE (km_mem k1)) k1). intros k2 Hk2 Hz Hm.
  fold UPERM. destruct (grow_page k q F root T (es ++ news) g UPERM k2 A) as (r & k3 & F3 & T3 & E3 & R); try done; [lia|lia|].
  fold a in E3. rewrite (M_bind_Ok _ _ _ _ _ E3). destruct R as [(-> & Hc & St & Kp & Kq)|(-> & Hc & k4 & E4 & St & Kp)]; cbn [Z.eqb negb].
  - pose proof (s_as _ _ _ _ _ _ _ _ _ _ _ St) as A3. rewrite <- app_assoc in A3.
    destruct (IH k3 F3 T3 (news ++ [leaf q UPERM])) as (r & k' & F' & T' & E & R);
      [done|rewrite !length_app in *; cbn; lia|rewrite !length_app in *; cbn [length] in *; lia..|].
    replace (u64 (a + PGSIZE)) with (Z.of_nat (length (es ++ news ++ [leaf q UPERM])) * PGSIZE).
    2:{ unfold a. rewrite u64_small by mlia. rewrite !length_app. cbn [length]. lia. }
    exists r, k', F', T'. split; [exact E|]. apply (grow_more k q F root T es news g k2 k3 F3 T3 r k' F' T' newsz n); try done. lia.
  - rewrite (M_bind_Ok _ _ _ _ _ E4). destruct St as [A4 P4 M4].
    destruct (undo_growth k4 [q] root T3 es news g A4 ltac:(lia) ltac:(lia)) as (r & k' & F' & E & St & Kp'). fold a in E.
    rewrite (M_bind_Ok _ _ _ _ _ E). exists 0, k', F', T3. split; [done|]. right. split; [done|]. split_and!.
    + eapply astep_trans; [by split|exact St].
    + eapply keeps_trans; [|done]. intros p b Hp Hb'. apply (Kp p b); [|done]. unfold upages. rewrite fmap_app, elem_of_app. by left.
    + cbn [length]. lia.
Qed.
End aspace.
