(* ===== verification/ProcMem.v ===== *)
(** * The memory of a process (kernel/proc.c)

    What [allocproc], [freeproc], [proc_pagetable], [proc_freepagetable],
    [growproc] and [fork] do to the memory of a process: its trapframe page,
    its page table and its user pages.  (Their locks and process states are in
    Sched.)  A process is the record of the three fields those functions use;
    a slot of the process table that is not in use has all three 0.

    The theorems say that each function is all or nothing, and that no page
    is lost: the pages of the process and the free pages together are the same
    before and after. *)

From S2P Require Import Prelude Riscv Mem Kalloc Vm VmSpec VmMap VmCopy VmDemo VmFree AddrSpace.

Record pmem : Type := mkpm { trapframe : Z; pagetable : Z; sz : Z }.
Definition nopm : pmem := mkpm 0 0 0.
Definition set_trapframe (v : Z) (p : pmem) : pmem := mkpm v (pagetable p) (sz p).
Definition set_pagetable (v : Z) (p : pmem) : pmem := mkpm (trapframe p) v (sz p).
Definition set_sz (v : Z) (p : pmem) : pmem := mkpm (trapframe p) (pagetable p) v.

(** [struct trapframe]: 36 words. *)
Definition sizeof_trapframe : Z := 288.
Definition off_epc : Z := 24.
Definition off_sp : Z := 48.
Definition off_a0 : Z := 112.

Section procmem.
Context (end_ : Z) (fuel : nat) (trampoline : Z).
Notation K := (M km).

Definition proc_pagetable (p : pmem) : K Z :=
  pt ← uvmcreate;
  if pt =? 0 then mret 0 else
  r ← mappages fuel pt TRAMPOLINE PGSIZE trampoline (Z.lor PTE_R PTE_X);
  if r <? 0 then
    uvmfree end_ fuel 3 pt 0;;
    mret 0
  else
  r ← mappages fuel pt TRAPFRAME PGSIZE (trapframe p) (Z.lor PTE_R PTE_W);
  if r <? 0 then
    uvmunmap end_ fuel pt TRAMPOLINE 1 false;;
    uvmfree end_ fuel 3 pt 0;;
    mret 0
  else mret pt.

Definition proc_freepagetable (pt sz : Z) : K unit :=
  uvmunmap end_ fuel pt TRAMPOLINE 1 false;;
  uvmunmap end_ fuel pt TRAPFRAME 1 false;;
  uvmfree end_ fuel 3 pt sz.

Definition freeproc (p : pmem) : K pmem :=
  when (negb (trapframe p =? 0)) (kfree end_ (trapframe p));;
  when (negb (pagetable p =? 0)) (proc_freepagetable (pagetable p) (sz p));;
  mret nopm.

(** The slot found, and whether it was set up. *)
Definition allocproc (p : pmem) : K (bool * pmem) :=
  tf ← kalloc;
  let p := set_trapframe tf p in
  if tf =? 0 then p ← freeproc p; mret (false, p) else
  pt ← proc_pagetable p;
  let p := set_pagetable pt p in
  if pt =? 0 then p ← freeproc p; mret (false, p) else
  mret (true, p).

Definition growproc (n : Z) (p : pmem) : K (Z * pmem) :=
  let s := u32 (sz p) in
  if 0 <? n then
    r ← uvmalloc end_ fuel (pagetable p) s (u32 (s + n));
    let s := u32 r in
    if s =? 0 then mret (-1, p) else mret (0, set_sz s p)
  else if n <? 0 then
    r ← uvmdealloc end_ fuel (pagetable p) s (u32 (s + n));
    mret (0, set_sz (u32 r) p)
  else mret (0, set_sz s p).

(** [fork] up to the registers of the child; [np] is the slot it gets. *)
Definition fork (p np : pmem) : K (Z * pmem) :=
  '(ok, np) ← allocproc np;
  if negb ok then mret (-1, np) else
  r ← uvmcopy end_ fuel (pagetable p) (pagetable np) (sz p);
  if r <? 0 then np ← freeproc np; mret (-1, np) else
  let np := set_sz (sz p) np in
  kmemmove (trapframe np) (trapframe p) sizeof_trapframe;;
  kst64 (trapframe np + off_a0) 0;;
  mret (0, np).

(** [userinit]: the first process; [initcode] is the address of that array. *)
Definition sizeof_initcode : Z := 52.
Definition userinit (initcode : Z) (p : pmem) : K pmem :=
  '(_, p) ← allocproc p;
  uvminit fuel (pagetable p) initcode sizeof_initcode;;
  let p := set_sz PGSIZE p in
  kst64 (trapframe p + off_epc) 0;;
  kst64 (trapframe p + off_sp) PGSIZE;;
  mret p.

(** ** The memory a process owns *)

Context (He : 0 <= end_) (Htr : 0 <= trampoline < 2 ^ 56) (Hta : trampoline mod PGSIZE = 0).
Implicit Types (k : km) (F es : list Z) (T : gmap (Z * Z) Z) (p np : pmem).

(** The entries above the user's: trampoline and trapframe. *)
Definition sysmap (tf : Z) : Z -> option Z :=
  gupd (gupd (fun _ => None) TRAMPN (Some (leaf trampoline (Z.lor PTE_R PTE_X)))) TRAPN (Some (leaf tf (Z.lor PTE_R PTE_W))).

Definition owned p T es : list Z := trapframe p :: upages es ++ tabs T.

Record PM k F p T es : Prop := {
  pm_as : AS end_ k F (pagetable p) T es (sysmap (trapframe p));
  pm_tf : page_ok end_ (trapframe p);
  pm_own : trapframe p ∉ upages es ++ tabs T ++ F;
  pm_sz : PGROUNDUP (sz p) / PGSIZE = Z.of_nat (length es);
  pm_rng : 0 <= sz p < 2 ^ 32
}.

(** Nothing outside the pages [F] is written. *)
Definition within F k k' : Prop := forall a, ~ in_pages F a -> ldb (km_mem k') a = ldb (km_mem k) a.

Lemma within_trans F k k1 k2 : within F k k1 -> within F k1 k2 -> within F k k2.
Proof. intros H1 H2 a Ha. by rewrite H2, H1. Qed.

Lemma within_mono F F' k k' : (forall q, q ∈ F -> q ∈ F') -> within F k k' -> within F' k k'.
Proof. intros Hs H a Ha. apply H. intros (q & Hq & Hi). apply Ha. exists q. auto. Qed.

Lemma within_perm F F' k k' : F ≡ₚ F' -> within F k k' -> within F' k k'.
Proof. intros E. apply within_mono. intros q. by rewrite E. Qed.

(** An address space does not notice changes outside its tables. *)
Lemma AS_keep k F root T es g k' F' :
  AS end_ k F root T es g -> km_ok end_ k' F' -> (forall a, in_pages (tabs T) a -> ldb (km_mem k') a = ldb (km_mem k) a) ->
  NoDup (upages es ++ tabs T ++ F') -> AS end_ k' F' root T es g.
Proof.
  intros A Hk W HN. pose proof (a_pt _ _ _ _ _ _ _ A) as Hpt.
  destruct (pt_frame end_ (km_mem k) (km_mem k') root T Hpt) as [O1 O2].
  { intros x q i Hx Hi. apply ent_ext; [done|]. intros a Ha. apply W. exists q. split; [|done]. apply elem_of_tabs. eauto. }
  split; try apply A; [done|done| |done]. intros vpn Hv. rewrite O2. by apply A.
Qed.

Lemma AS_move k F root T es g k' F' X :
  AS end_ k F root T es g -> km_ok end_ k' F' -> within X k k' -> Forall (page_ok end_) X ->
  (forall q, q ∈ tabs T -> q ∉ X) -> NoDup (upages es ++ tabs T ++ F') ->
  AS end_ k' F' root T es g.
Proof.
  intros A Hk W HX Hd HN. apply (AS_keep k F); [done|done| |done]. intros a (q & Hq & Ha). apply W.
  apply (page_not_in end_ q X a); [by apply (tab_ok _ _ _ _ _ _ _ _ A Hq)|done|by apply Hd|done].
Qed.

(** Writes that spare the tables and the free pages. *)
Lemma AS_write k F root T es g m' :
  AS end_ k F root T es g -> mem_ok m' -> (forall a, in_pages (tabs T ++ F) a -> ldb m' a = ldb (km_mem k) a) ->
  AS end_ (set_mem m' k) F root T es g.
Proof.
  intros A Hm W. apply (AS_keep k F); [done| | |apply A].
  - apply (km_ok_frame end_ k F); [apply A|done|]. intros a (q & Hq & Ha). apply W. exists q. split; [apply elem_of_app; by right|done].
  - intros a (q & Hq & Ha). apply W. exists q. split; [apply elem_of_app; by left|done].
Qed.

(** ** Page tables of processes *)

(** A page table under construction, made of pages of [F]. *)
Definition built k F root k' F' T g : Prop :=
  AS end_ k' F' root T [] g /\ tabs T ++ F' ≡ₚ F /\ within F k k'.

Lemma built_step k F root k1 F1 T1 g k' F' T g' :
  built k F root k1 F1 T1 g -> astep end_ root k1 F1 T1 [] g k' F' T [] g' -> built k F root k' F' T g'.
Proof.
  intros (A & E & W) [A' E' W']. cbn in E', W'. split_and!; [done|by rewrite E'|]. eapply within_trans; [done|].
  eapply within_perm; [exact E|exact W'].
Qed.

(** Giving it up. *)
Lemma built_free k F root k1 F1 T g :
  built k F root k1 F1 T g -> (forall vpn, g vpn = None) -> (0 < fuel)%nat ->
  exists k' F', uvmfree end_ fuel 3 root 0 k1 = Ok (tt, k') /\ km_ok end_ k' F' /\ F' ≡ₚ F /\ within F k k'.
Proof.
  intros (A & E & W) Hg Hf.
  destruct (free_as end_ fuel He k1 F1 root T [] 0) as (k' & F' & E' & [B1 B2 B3]); [|done|done|done|].
  { split; try apply A; [|done]. intros vpn Hv. rewrite (a_mp _ _ _ _ _ _ _ A) by done. unfold umap. cbn. by rewrite Hg. }
  exists k', F'. split_and!; [done|done|by rewrite B2, <- E|]. eapply within_trans; [done|].
  eapply within_mono; [|exact B3]. cbn. intros q Hq. rewrite <- E. apply elem_of_app. by left.
Qed.

Lemma sys_pages : TRAMPOLINE mod PGSIZE = 0 /\ TRAPFRAME mod PGSIZE = 0 /\ TRAPN <= TRAMPOLINE / PGSIZE /\
  TRAMPOLINE + PGSIZE <= MAXVA /\ TRAPFRAME + PGSIZE <= MAXVA /\ TRAPN <> TRAMPN.
Proof. by vm_compute. Qed.

Lemma gupd_other g n m e : m <> n -> gupd g n e m = g m.
Proof. intros H. unfold gupd. by rewrite decide_False. Qed.

Lemma gupd_same g n e : gupd g n e n = e.
Proof. unfold gupd. by rewrite decide_True. Qed.

Lemma leaf_page_flags pa perm :
  0 <= pa < 2 ^ 56 -> pa mod PGSIZE = 0 -> 0 <= perm < 1024 -> Z.lor perm PTE_V <> PTE_V -> PTE_FLAGS (leaf pa perm) <> PTE_V.
Proof. intros H1 H2 H3 H4. destruct (leaf_facts pa perm H1 H2 H3) as (_ & _ & _ & ->). done. Qed.

Lemma proc_pagetable_spec k F p :
  km_ok end_ k F -> 0 <= trapframe p < 2 ^ 56 -> trapframe p mod PGSIZE = 0 -> (1 < fuel)%nat ->
  exists r k' F', proc_pagetable p k = Ok (r, k') /\
    ((r = 0 /\ km_ok end_ k' F' /\ F' ≡ₚ F /\ within F k k' /\ (length F <= 5)%nat) \/
     (r <> 0 /\ (length F <= length F' + 5)%nat /\ exists T, built k F r k' F' T (sysmap (trapframe p)))).
Proof.
  intros Hk Hp1 Hp2 Hf. destruct sys_pages as (S1 & S2 & S3 & S4 & S5 & S6). unfold proc_pagetable.
  destruct (uvmcreate_spec end_ k F Hk) as [[-> E]|(q & F1 & k1 & -> & E & Hq & A1 & W1)].
  { rewrite (M_bind_Ok _ _ _ _ _ E). exists 0, k, []. split; [done|]. left. split_and!; [done|done|done|done|cbn; lia]. }
  rewrite (M_bind_Ok _ _ _ _ _ E). destruct (Z.eqb_spec q 0); [done|].
  assert (B1 : built k (q :: F1) q k1 F1 (T0 q) (fun _ => None)).
  { split_and!; [done|by rewrite tabs_T0|]. intros a Ha. apply W1. intros Hi. apply Ha. exists q. split; [left|done]. }
  destruct (map_sys end_ fuel He k1 F1 q (T0 q) [] (fun _ => None) TRAMPOLINE trampoline (Z.lor PTE_R PTE_X) A1)
    as (r & k2 & F2 & T2 & E2 & R2 & Hc2); try done; [lia|].
  rewrite (M_bind_Ok _ _ _ _ _ E2). destruct R2 as [(-> & St)|(-> & -> & St)]; cbn [Z.ltb Z.compare];
    pose proof (built_step _ _ _ _ _ _ _ _ _ _ _ B1 St) as B2.
  2:{ destruct (built_free _ _ _ _ _ _ _ B2) as (k' & F' & E' & Hk' & P' & W'); [done|lia|].
      rewrite (M_bind_Ok _ _ _ _ _ E'). exists 0, k', F'. split; [done|]. left. split_and!; [done|done|done|done|cbn [length] in *; lia]. }
  change (TRAMPOLINE / PGSIZE) with TRAMPN in *.
  destruct (map_sys end_ fuel He k2 F2 q T2 [] _ TRAPFRAME (trapframe p) (Z.lor PTE_R PTE_W) (proj1 B2))
    as (r & k3 & F3 & T3 & E3 & R3 & Hc3); try done; [lia|].
  rewrite (M_bind_Ok _ _ _ _ _ E3). destruct R3 as [(-> & St3)|(-> & -> & St3)]; cbn [Z.ltb Z.compare];
    pose proof (built_step _ _ _ _ _ _ _ _ _ _ _ B2 St3) as B3.
  - exists q, k3, F3. split; [done|]. right. split; [done|]. split; [cbn in *; lia|]. exists T3. exact B3.
  - destruct (unmap_sys end_ fuel He k3 [] q T3 [] _ TRAMPOLINE (leaf trampoline (Z.lor PTE_R PTE_X)) (proj1 B3))
      as (k4 & E4 & St4 & _); try done; [by apply leaf_page_flags|].
    rewrite (M_bind_Ok _ _ _ _ _ E4). pose proof (built_step _ _ _ _ _ _ _ _ _ _ _ B3 St4) as B4.
    destruct (built_free _ _ _ _ _ _ _ B4) as (k' & F' & E' & Hk' & P' & W'); [|lia|].
    { intros vpn. unfold gupd. change (TRAMPOLINE / PGSIZE) with TRAMPN. by repeat case_decide. }
    rewrite (M_bind_Ok _ _ _ _ _ E'). exists 0, k', F'. split; [done|]. left. split_and!; [done|done|done|done|cbn [length] in *; lia].
Qed.

(** ** Freeing and allocating a process *)

Lemma proc_freepagetable_spec k F root T es tf sz :
  AS end_ k F root T es (sysmap tf) -> 0 <= tf < 2 ^ 56 -> tf mod PGSIZE = 0 ->
  0 <= sz -> PGROUNDUP sz / PGSIZE = Z.of_nat (length es) -> (S (length es) < fuel)%nat ->
  exists k' F', proc_freepagetable root sz k = Ok (tt, k') /\ km_ok end_ k' F' /\
    F' ≡ₚ upages es ++ tabs T ++ F /\ within (upages es ++ tabs T ++ F) k k'.
Proof.
  intros A Ht1 Ht2 Hsz Hn Hf. destruct sys_pages as (S1 & S2 & S3 & S4 & S5 & S6). unfold proc_freepagetable.
  destruct (unmap_sys end_ fuel He k F root T es _ TRAMPOLINE (leaf trampoline (Z.lor PTE_R PTE_X)) A)
    as (k1 & E1 & [A1 _ W1] & _); try done; [lia|by apply leaf_page_flags|].
  rewrite (M_bind_Ok _ _ _ _ _ E1). change (TRAMPOLINE / PGSIZE) with TRAMPN in *.
  destruct (unmap_sys end_ fuel He k1 F root T es _ TRAPFRAME (leaf tf (Z.lor PTE_R PTE_W)) A1)
    as (k2 & E2 & [A2 _ W2] & _); try done; [lia|by apply leaf_page_flags|].
  rewrite (M_bind_Ok _ _ _ _ _ E2). change (TRAPFRAME / PGSIZE) with TRAPN in *.
  destruct (free_as end_ fuel He k2 F root T es sz) as (k' & F' & E' & [B1 B2 B3]); [|done|done|lia|].
  { split; try apply A2; [|done]. intros vpn Hv. rewrite (a_mp _ _ _ _ _ _ _ A2) by done. unfold umap.
    destruct (es !! _); [done|]. unfold sysmap, gupd. by repeat case_decide. }
  exists k', F'. split_and!; [done|done|by rewrite B2, <- app_assoc|].
  eapply within_trans; [exact W1|]. eapply within_trans; [exact W2|].
  eapply within_mono; [|exact B3]. intros q. rewrite !elem_of_app. tauto.
Qed.

Lemma PM_tf_range k F p T es : PM k F p T es -> 0 <= trapframe p < 2 ^ 56 /\ trapframe p mod PGSIZE = 0 /\ trapframe p <> 0.
Proof.
  intros P. pose proof (pm_tf _ _ _ _ _ P) as H. destruct (page_ok_range end_ _ He H) as [H1 _].
  destruct H as (H2 & _ & H3). split; [done|]; split; [done|lia].
Qed.

Lemma root_ne0 k F root T es g : AS end_ k F root T es g -> root <> 0.
Proof.
  intros A. pose proof (a_pt _ _ _ _ _ _ _ A) as H. destruct (pt_page _ _ _ _ H _ _ (pt_root _ _ _ _ H)) as (_ & _ & ?). lia.
Qed.

Lemma freeproc_spec k F p T es :
  PM k F p T es -> (S (length es) < fuel)%nat ->
  exists k' F', freeproc p k = Ok (nopm, k') /\ km_ok end_ k' F' /\ F' ≡ₚ owned p T es ++ F /\ within (owned p T es ++ F) k k'.
Proof.
  intros P Hf. destruct (PM_tf_range _ _ _ _ _ P) as (Ht1 & Ht2 & Ht3). destruct P as [A Htf Hown Hsz Hrng].
  pose proof (root_ne0 _ _ _ _ _ _ A) as Hr. unfold freeproc, when.
  destruct (Z.eqb_spec (trapframe p) 0); [done|]. destruct (Z.eqb_spec (pagetable p) 0); [done|]. cbn [negb].
  rewrite !elem_of_app in Hown.
  destruct (kfree_spec end_ k (trapframe p) F (a_km _ _ _ _ _ _ _ A) Htf) as (k1 & E1 & Hk1 & W1); [tauto|done|].
  rewrite (M_bind_Ok _ _ _ _ _ E1).
  assert (A1 : AS end_ k1 (trapframe p :: F) (pagetable p) T es (sysmap (trapframe p))).
  { apply (AS_move k F _ _ _ _ k1 _ [trapframe p]); [done|done| |by constructor| |].
    - intros a Ha. apply W1. intros Hi. apply Ha. exists (trapframe p). split; [left|done].
    - intros q Hq Hq'. apply list_elem_of_singleton in Hq' as ->. tauto.
    - rewrite <- !Permutation_middle. constructor; [rewrite !elem_of_app; tauto|apply A]. }
  destruct (proc_freepagetable_spec _ _ _ _ _ _ (sz p) A1) as (k' & F' & E' & Hk' & P' & W'); try done; [lia|].
  rewrite (M_bind_Ok _ _ _ _ _ E'). assert (E : upages es ++ tabs T ++ trapframe p :: F ≡ₚ owned p T es ++ F).
  { unfold owned. cbn [app]. by rewrite <- !Permutation_middle, <- (app_assoc (upages es)). }
  exists k', F'. split_and!; [done|done|by rewrite P'|]. rewrite E in P'.
  apply (within_trans _ _ k1); [|by apply (within_perm _ _ _ _ E)].
  intros a Ha. apply W1. intros Hi. apply Ha. exists (trapframe p). split; [left|done].
Qed.

(** [allocproc] sets a process up from free pages, or leaves the slot unused
    and all pages free. *)
Lemma allocproc_spec k F :
  km_ok end_ k F -> (1 < fuel)%nat ->
  exists ok p k' F', allocproc nopm k = Ok ((ok, p), k') /\ within F k k' /\
    if ok : bool then (length F <= length F' + 6)%nat /\ exists T, PM k' F' p T [] /\ owned p T [] ++ F' ≡ₚ F /\ sz p = 0
    else p = nopm /\ km_ok end_ k' F' /\ F' ≡ₚ F /\ (length F <= 6)%nat.
Proof.
  intros Hk Hf. unfold allocproc. destruct F as [|q F].
  { rewrite (M_bind_Ok _ _ _ _ _ (kalloc_empty end_ k Hk)). exists false, nopm, k, []. split_and!; [done|done|done|done|done|cbn; lia]. }
  destruct (kalloc_page end_ k q F Hk) as (k1 & E1 & Hk1 & Hqn & Hq & W1).
  assert (Hw1 : within (q :: F) k k1).
  { intros a Ha. rewrite W1, decide_False; [done|]. intros Hi. apply Ha. exists q. split; [left|done]. }
  rewrite (M_bind_Ok _ _ _ _ _ E1). destruct (page_ok_range end_ q He Hq) as [Hq1 _]. pose proof Hq as (Hq2 & _ & Hq3).
  cbn zeta. destruct (Z.eqb_spec q 0); [lia|].
  destruct (proc_pagetable_spec k1 F (set_trapframe q nopm) Hk1) as (r & k2 & F2 & E2 & R); [done|done|done|].
  rewrite (M_bind_Ok _ _ _ _ _ E2). destruct R as [(-> & Hk2 & P2 & W2 & Hc)|(Hr & Hc & T & A & P2 & W2)].
  - cbn [Z.eqb]. unfold freeproc, when. cbn [trapframe set_trapframe set_pagetable pagetable nopm].
    destruct (Z.eqb_spec q 0); [lia|]. cbn [negb Z.eqb].
    destruct (kfree_spec end_ k2 q F2 Hk2 Hq) as (k3 & E3 & Hk3 & W3); [by rewrite P2|done|].
    assert (E4 : (kfree end_ q;; mret tt;; mret nopm) k2 = Ok (nopm, k3)) by (rewrite (M_bind_Ok _ _ _ _ _ E3); done).
    rewrite (M_bind_Ok _ _ _ _ _ E4). exists false, nopm, k3, (q :: F2). split_and!; [done| |done|done|by rewrite P2|cbn; lia].
    eapply within_trans; [exact Hw1|]. eapply within_trans; [eapply within_mono; [|exact W2]; by right|].
    intros a Ha. apply W3. intros Hi. apply Ha. exists q. split; [left|done].
  - destruct (Z.eqb_spec r 0); [done|]. exists true, (mkpm q r 0), k2, F2. split; [done|]. split.
    + eapply within_trans; [exact Hw1|]. eapply within_mono; [|exact W2]. by right.
    + split; [cbn; lia|]. exists T. split_and!; [|unfold owned; cbn; by rewrite P2|done]. split; cbn; [done|done| |done|done]. by rewrite P2.
Qed.

(** ** Growing and shrinking *)

Lemma uvmalloc_as k F root T es g oldsz newsz n :
  AS end_ k F root T es g -> 0 <= oldsz <= newsz -> 0 < newsz -> oldsz <= MAXVA -> PGROUNDUP oldsz / PGSIZE = Z.of_nat (length es) ->
  (n - 1) * PGSIZE < newsz <= n * PGSIZE -> Z.min n (Z.of_nat (length es + length F)) <= TRAPN ->
  Z.min n (Z.of_nat (length es + length F)) < Z.of_nat fuel ->
  exists r k' F' T', uvmalloc end_ fuel root oldsz newsz k = Ok (r, k') /\
    ((r = newsz /\ exists news, Z.of_nat (length (es ++ news)) = n /\ fresh_ents news /\ zeroed k' (upages news) /\
        astep end_ root k F T es g k' F' T' (es ++ news) g /\ keeps k k' (upages es) /\
        (length F + 3 * length es <= length F' + 3 * Z.to_nat n)%nat) \/
     (r = 0 /\ astep end_ root k F T es g k' F' T' es g /\ keeps k k' (upages es) /\ (3 * length es + length F <= 3 * Z.to_nat n)%nat)).
Proof.
  intros A Ho Hns Hmax Hes Hn HnT Hf. unfold uvmalloc. destruct (Z.ltb_spec newsz oldsz); [lia|].
  rewrite (pgroundup_mul oldsz _ ltac:(lia) Hes). pose proof (proj1 (pgroundup_pages oldsz _ ltac:(lia)) Hes).
  destruct (uvmalloc_loop end_ fuel He newsz n es root g Hns Hn ltac:(mlia) fuel k F T []) as (r & k' & F' & T' & E & R);
    rewrite ?app_nil_r in *; [done|mlia|lia|done|done|].
  exists r, k', F', T'. split; [exact E|exact R].
Qed.

(** A step of the address space is one of the process. *)
Lemma PM_step k F p T es k' F' T' es' s :
  PM k F p T es -> astep end_ (pagetable p) k F T es (sysmap (trapframe p)) k' F' T' es' (sysmap (trapframe p)) ->
  PGROUNDUP s / PGSIZE = Z.of_nat (length es') -> 0 <= s < 2 ^ 32 ->
  PM k' F' (set_sz s p) T' es' /\ owned (set_sz s p) T' es' ++ F' ≡ₚ owned p T es ++ F.
Proof.
  intros [A Htf Hown _ _] [A' E _] Hs Hr. split.
  - split; try done. cbn [trapframe set_sz]. by rewrite E.
  - unfold owned. cbn [trapframe set_sz app]. by rewrite <- !app_assoc, E.
Qed.

(** There are no more pages than the machine has. *)
Lemma pages_bound (l : list Z) : KERNBASE <= end_ -> NoDup l -> Forall (page_ok end_) l -> Z.of_nat (length l) <= 32768.
Proof.
  intros Hend HN HP. rewrite Forall_forall in HP.
  replace 32768 with (Z.of_nat (length ((fun i => i * PGSIZE) <$> seqZ 524288 32768)))
    by (rewrite length_fmap, length_seqZ; lia).
  apply inj_le, submseteq_length, NoDup_submseteq; [done|]. intros q Hq. destruct (HP q Hq) as (Hal & Hb & _).
  apply Z.mod_divide in Hal as [i ->]; [|done]. apply list_elem_of_fmap. exists i. split; [done|].
  apply elem_of_seqZ. unfold PHYSTOP, KERNBASE, PGSIZE in *. lia.
Qed.

Lemma AS_bound k F root T es g : KERNBASE <= end_ -> AS end_ k F root T es g -> Z.of_nat (length es + length F) <= 32768.
Proof.
  intros Hend A. pose proof (pages_bound _ Hend (a_nodup _ _ _ _ _ _ _ A) (AS_all_pages _ _ _ _ _ _ _ A)) as H.
  unfold upages in H. rewrite !length_app, length_fmap in H. lia.
Qed.

(** User memory is not larger than the machine's: sizes do not overflow. *)
Lemma PM_small k F p T es : KERNBASE <= end_ -> PM k F p T es -> sz p <= PHYSTOP - KERNBASE.
Proof.
  intros Hend P. pose proof (pm_rng _ _ _ _ _ P) as Hr. pose proof (pm_sz _ _ _ _ _ P) as Hs.
  apply pgroundup_pages in Hs; [|assert (2 ^ 32 <= MAXVA) by done; lia].
  pose proof (AS_bound _ _ _ _ _ _ Hend (pm_as _ _ _ _ _ P)) as Hb. unfold PGSIZE, PHYSTOP, KERNBASE in *. lia.
Qed.

(** The new size [growproc] computes: a request to shrink below 0 is ignored. *)
Definition newsize (old n : Z) : Z := if old + n <? 0 then old else old + n.

Lemma growproc_shrinks k F p T es n :
  PM k F p T es -> - 2 ^ 31 <= n <= 0 -> (length es < fuel)%nat ->
  exists k' F', growproc n p k = Ok ((0, set_sz (newsize (sz p) n) p), k') /\
    let es' := take (Z.to_nat (PGROUNDUP (newsize (sz p) n) / PGSIZE)) es in
    astep end_ (pagetable p) k F T es (sysmap (trapframe p)) k' F' T es' (sysmap (trapframe p)) /\
    keeps k k' (upages es') /\ PGROUNDUP (newsize (sz p) n) / PGSIZE = Z.of_nat (length es').
Proof.
  intros P Hn Hf. pose proof (pm_rng _ _ _ _ _ P) as Hr. pose proof (pm_sz _ _ _ _ _ P) as Hs. unfold growproc.
  pose proof (pm_as _ _ _ _ _ P) as A. assert (HM : 2 ^ 32 <= MAXVA) by done.
  rewrite (u32_small (sz p)) by done. destruct (Z.ltb_spec 0 n); [lia|]. unfold newsize.
  assert (Hsame : let es' := take (Z.to_nat (PGROUNDUP (sz p) / PGSIZE)) es in
    astep end_ (pagetable p) k F T es (sysmap (trapframe p)) k F T es' (sysmap (trapframe p)) /\
    keeps k k (upages es') /\ PGROUNDUP (sz p) / PGSIZE = Z.of_nat (length es')).
  { rewrite Hs, Nat2Z.id, firstn_all. split_and!; [by apply astep_refl|done|done]. }
  destruct (Z.ltb_spec n 0) as [Hneg|]; cbn zeta.
  2:{ replace (sz p + n) with (sz p) by lia. destruct (Z.ltb_spec (sz p) 0); [lia|]. exists k, F. done. }
  destruct (Z.ltb_spec (sz p + n) 0) as [Hlow|Hlow].
  - assert (u32 (sz p + n) = sz p + n + 2 ^ 32) as ->.
    { unfold u32. rewrite <- (Z_mod_plus_full _ 1), Z.mod_small; lia. }
    unfold uvmdealloc at 1. destruct (Z.leb_spec (sz p) (sz p + n + 2 ^ 32)); [|lia]. mgo. rewrite u32_small by done. exists k, F. done.
  - rewrite (u32_small (sz p + n)) by lia.
    destruct (uvmdealloc_as end_ fuel He k F (pagetable p) T es _ (sz p) (sz p + n) A) as (k' & F' & E & R); [lia|lia|done|done|].
    rewrite (M_bind_Ok _ _ _ _ _ E). rewrite u32_small by lia. exists k', F'. done.
Qed.

Lemma growproc_grows k F p T es n :
  KERNBASE <= end_ -> PM k F p T es -> 0 < n < 2 ^ 31 -> (Z.to_nat (PGROUNDUP (sz p + n) / PGSIZE) < fuel)%nat ->
  exists k' F' T', 
    (growproc n p k = Ok ((0, set_sz (sz p + n) p), k') /\ exists news,
       Z.of_nat (length (es ++ news)) = PGROUNDUP (sz p + n) / PGSIZE /\ fresh_ents news /\ zeroed k' (upages news) /\
       astep end_ (pagetable p) k F T es (sysmap (trapframe p)) k' F' T' (es ++ news) (sysmap (trapframe p)) /\ keeps k k' (upages es)) \/
    (growproc n p k = Ok ((-1, p), k') /\
       astep end_ (pagetable p) k F T es (sysmap (trapframe p)) k' F' T' es (sysmap (trapframe p)) /\ keeps k k' (upages es) /\
       (3 * length es + length F <= 3 * Z.to_nat (PGROUNDUP (sz p + n) / PGSIZE))%nat).
Proof.
  intros Hend P Hn Hf. pose proof (pm_rng _ _ _ _ _ P) as Hr. pose proof (pm_sz _ _ _ _ _ P) as Hs. unfold growproc.
  pose proof (PM_small _ _ _ _ _ Hend P) as Hb. assert (PHYSTOP - KERNBASE = 2 ^ 27) as HB by done. assert (HM : 2 ^ 33 <= MAXVA) by done.
  rewrite (u32_small (sz p)) by done. destruct (Z.ltb_spec 0 n); [|lia]. rewrite (u32_small (sz p + n)) by lia.
  assert (HnT : PGROUNDUP (sz p + n) / PGSIZE <= TRAPN).
  { pose proof (proj1 (pgroundup_pages (sz p + n) _ ltac:(lia)) eq_refl) as H1.
    assert (TRAPN = MAXVA / PGSIZE - 2) as -> by done. change (MAXVA / PGSIZE) with (2 ^ 26). mlia. }
  destruct (uvmalloc_as k F (pagetable p) T es _ (sz p) (sz p + n) (PGROUNDUP (sz p + n) / PGSIZE) (pm_as _ _ _ _ _ P))
    as (r & k' & F' & T' & E & R); [lia|lia|lia|done|by apply pgroundup_pages; [lia|]|lia|lia|].
  rewrite (M_bind_Ok _ _ _ _ _ E). cbv zeta. exists k', F', T'. destruct R as [(-> & news & R1 & R2 & R3 & R4 & R5 & _)|(-> & R)]; [left|right].
  - rewrite u32_small by lia. destruct (Z.eqb_spec (sz p + n) 0); [lia|]. split; [done|]. by exists news.
  - by split.
Qed.

(** C13: [growproc], what [sbrk] is built on, for every argument an [int] can hold:
    it never panics, the process keeps its memory invariant and no page is
    lost.  To grow, it either adds zeroed pages behind the old ones, which
    keep their contents, or fails and leaves the process as it is, and then
    there were three free pages or fewer for every page to add.  To shrink, it frees the pages above the
    new size; a request below zero is ignored. *)
Theorem growproc_correct k F p T es n
    (Hend : KERNBASE <= end_) (P : PM k F p T es) (Hn : - 2 ^ 31 <= n < 2 ^ 31)
    (Hf : Z.max (Z.of_nat (length es)) (PGROUNDUP (sz p + n) / PGSIZE) < Z.of_nat fuel) :
  exists r p' k' F' T' es', growproc n p k = Ok ((r, p'), k') /\
    PM k' F' p' T' es' /\ owned p' T' es' ++ F' ≡ₚ owned p T es ++ F /\
    within (upages es ++ tabs T ++ F) k k' /\
    ((0 < n /\ r = 0 /\ sz p' = sz p + n /\ exists news, es' = es ++ news /\ fresh_ents news /\
        zeroed k' (upages news) /\ keeps k k' (upages es)) \/
     (0 < n /\ r = -1 /\ p' = p /\ es' = es /\ keeps k k' (upages es) /\
        Z.of_nat (3 * length es + length F) <= 3 * (PGROUNDUP (sz p + n) / PGSIZE)) \/
     (n <= 0 /\ r = 0 /\ sz p' = newsize (sz p) n /\ es' = take (Z.to_nat (PGROUNDUP (sz p') / PGSIZE)) es /\
        keeps k k' (upages es'))).
Proof.
  pose proof (pm_rng _ _ _ _ _ P) as Hr. destruct (Z.lt_ge_cases 0 n) as [Hpos|Hneg].
  - pose proof (PM_small _ _ _ _ _ Hend P) as Hb. assert (PHYSTOP - KERNBASE = 2 ^ 27) as HB by done.
    assert (HM : 2 ^ 33 <= MAXVA) by done.
    pose proof (proj1 (pgroundup_pages (sz p + n) _ ltac:(lia)) eq_refl) as Hpg.
    assert (0 <= PGROUNDUP (sz p + n) / PGSIZE) by mlia.
    destruct (growproc_grows k F p T es n Hend P ltac:(lia) ltac:(lia)) as (k' & F' & T' & [(E & news & Hl & Hfr & Hz & St & Kp)|(E & St & Kp & Hl)]).
    + destruct (PM_step k F p T es k' F' T' (es ++ news) (sz p + n) P St) as [P' Pg]; [done|lia|].
      exists 0, (set_sz (sz p + n) p), k', F', T', (es ++ news). split_and!; [done|done|done|exact (s_mem _ _ _ _ _ _ _ _ _ _ _ _ St)|]. left. split_and!; [done|done|done|].
      exists news. by split_and!.
    + destruct (PM_step k F p T es k' F' T' es (sz p) P St) as [P' Pg]; [apply P|lia|]. destruct p as [tf pt s].
      exists (-1), (mkpm tf pt s), k', F', T', es. split_and!; [done|done|done|exact (s_mem _ _ _ _ _ _ _ _ _ _ _ _ St)|]. right. left. split_and!; try done. cbn in *. lia.
  - destruct (growproc_shrinks k F p T es n P ltac:(lia) ltac:(lia)) as (k' & F' & E & St & Kp & Hl).
    destruct (PM_step k F p T es k' F' T _ (newsize (sz p) n) P St Hl) as [P' Pg].
    { unfold newsize. destruct (Z.ltb_spec (sz p + n) 0); lia. }
    eexists 0, _, k', F', T, _. split_and!; [done|done|done|exact (s_mem _ _ _ _ _ _ _ _ _ _ _ _ St)|]. right. right. by split_and!.
Qed.
End procmem.
