(* ===== verification/ProcFork.v ===== *)
(** * The memory of [fork] and of the first process (kernel/proc.c)

    The child of [fork] owns pages taken from the free list only, and they
    hold what those of the parent hold; when memory runs out everything is
    given back. *)

From S2P Require Import Prelude Riscv Mem Kalloc Vm VmSpec VmMap VmCopy VmDemo VmFree AddrSpace ProcMem.

Section procfork.
Context (end_ : Z) (fuel : nat) (trampoline : Z).
Context (He : 0 <= end_) (Htr : 0 <= trampoline < 2 ^ 56) (Hta : trampoline mod PGSIZE = 0).
Implicit Types (k : km) (F es : list Z) (T : gmap (Z * Z) Z) (p np : pmem).
Notation PM := (PM end_ trampoline).
Notation sysmap := (sysmap trampoline).

(** Writes to pages that belong to nobody else. *)
Lemma PM_move k F p T es k' F' X :
  PM k F p T es -> km_ok end_ k' F' -> within X k k' -> Forall (page_ok end_) X ->
  (forall q, q ∈ owned p T es -> q ∉ X) -> (forall q, q ∈ F' -> q ∈ F) -> PM k' F' p T es.
Proof.
  intros [A H1 H2 H3 H4] Hk W HX Hd HF. split; [|done| |done|done].
  - apply (AS_move end_ k F _ _ _ _ k' F' X); try done.
    + intros q Hq. apply Hd. unfold owned. rewrite elem_of_cons, elem_of_app. tauto.
    + pose proof (a_nodup _ _ _ _ _ _ _ A) as HN. rewrite app_assoc in *. apply NoDup_app in HN as (N1 & N2 & N3).
      apply NoDup_app. split_and!; [done| |apply Hk]. intros q Hq Hq'. by apply (N2 q Hq), HF.
  - rewrite !elem_of_app in *. intros [?|[?|?]]; [tauto|tauto|]. apply H2. auto.
Qed.

Lemma owned_pages k F p T es : PM k F p T es -> Forall (page_ok end_) (owned p T es ++ F) /\ NoDup (owned p T es ++ F).
Proof.
  intros [A H1 H2 _ _]. unfold owned. cbn [app]. rewrite <- app_assoc. split.
  - constructor; [done|]. by eapply AS_all_pages.
  - constructor; [done|apply A].
Qed.

(** The setting of [uvmcopy] in [fork]. *)
Lemma fork_setup k F p T es np T2 :
  PM k F p T es -> PM k F np T2 [] -> (forall q, q ∈ owned p T es -> q ∉ owned np T2 []) ->
  setup end_ k (pagetable p) T (pagetable np) T2 F es.
Proof.
  intros [A _ _ _ _] [A2 _ _ _ _] Hd. unfold owned in Hd.
  pose proof (a_nodup _ _ _ _ _ _ _ A) as HN. apply NoDup_app in HN as (_ & N1 & _).
  split; try apply A; try apply A2; try by eapply AS_apart.
  - intros i e Hi. split; [|split_and!].
    + rewrite (a_mp _ _ _ _ _ _ _ A) by lia. unfold umap. by rewrite Nat2Z.id, Hi.
    + pose proof (a_ents _ _ _ _ _ _ _ A) as H. rewrite Forall_forall in H. apply H. by eapply list_elem_of_lookup_2.
    + pose proof (a_pages _ _ _ _ _ _ _ A) as H. rewrite Forall_forall in H. apply H. apply list_elem_of_fmap_2. by eapply list_elem_of_lookup_2.
    + pose proof (a_ents _ _ _ _ _ _ _ A) as H. rewrite Forall_forall in H. apply H. by eapply list_elem_of_lookup_2.
  - intros i Hi. rewrite (a_mp _ _ _ _ _ _ _ A2) by lia. unfold umap. cbn.
    apply (a_sys _ _ _ _ _ _ _ A2). pose proof (a_small _ _ _ _ _ _ _ A). lia.
  - intros x y q Hx Hy. apply (Hd q); rewrite elem_of_cons, elem_of_app, elem_of_tabs; eauto.
  - intros e Hin. assert (PTE2PA e ∈ upages es) as Hu by (by apply list_elem_of_fmap_2). split.
    + intros Hc. apply (N1 _ Hu). apply elem_of_app. by right.
    + intros x Hx. apply (Hd (PTE2PA e)); rewrite elem_of_cons, elem_of_app; [tauto|]. right. right. apply elem_of_tabs. eauto.
Qed.

(** The entries of the child. *)
Definition child_ents (qs es : list Z) : list Z := zip_with (fun q e => leaf q (PTE_FLAGS e)) qs es.

Lemma child_umap qs es g vpn : umap (child_ents qs es) g vpn = child_map g qs es vpn.
Proof.
  unfold umap, child_ents, child_map. rewrite lookup_zip_with. destruct (qs !! _); cbn; [|done]. by destruct (es !! _).
Qed.

Lemma child_upages qs es :
  Forall (page_ok end_) qs -> (length qs <= length es)%nat -> upages (child_ents qs es) = qs.
Proof.
  intros H. revert es. induction H as [|q qs Hq H IH]; intros [|e es] Hl; cbn in Hl |- *; [done|done|lia|].
  destruct (page_ok_range end_ q He Hq) as [Hq1 Hq2].
  destruct (leaf_facts q (PTE_FLAGS e) Hq1 Hq2 (PTE_FLAGS_range e)) as (_ & _ & -> & _). f_equal. apply IH. lia.
Qed.

Lemma child_flags m T es qs :
  parent_ents end_ (mp m T) es -> Forall (page_ok end_) qs -> (length qs <= length es)%nat ->
  Forall (fun e => PTE_FLAGS e <> PTE_V /\ 0 <= e) (child_ents qs es) /\
  PTE_FLAGS <$> child_ents qs es = take (length qs) (PTE_FLAGS <$> es).
Proof.
  intros He' Hq Hl.
  assert (H : forall i q e, qs !! i = Some q -> es !! i = Some e ->
    PTE_FLAGS (leaf q (PTE_FLAGS e)) = PTE_FLAGS e /\ PTE_FLAGS e <> PTE_V /\ 0 <= leaf q (PTE_FLAGS e)).
  { intros i q e Hi Hj. destruct (He' i e Hj) as (Hm & Hfl & _ & _). rewrite Forall_lookup in Hq.
    destruct (page_ok_range end_ q He (Hq i q Hi)) as [Hq1 Hq2].
    destruct (leaf_facts q (PTE_FLAGS e) Hq1 Hq2 (PTE_FLAGS_range e)) as (L1 & _ & _ & ->).
    split; [|split; [done|lia]]. apply flags_valid. unfold mp in Hm. repeat case_match; congruence. }
  split.
  - apply Forall_lookup. intros i e2 Hi. unfold child_ents in Hi. apply lookup_zip_with_Some in Hi as (q & e & -> & Hi & Hj).
    destruct (H i q e Hi Hj) as (-> & H2 & H3). done.
  - apply list_eq. intros i. destruct (decide (i < length qs)%nat) as [Hlt|Hge].
    + rewrite lookup_take_lt, !list_lookup_fmap by done. unfold child_ents. rewrite lookup_zip_with.
      destruct (lookup_lt_is_Some_2 qs i Hlt) as [q Eq]. destruct (lookup_lt_is_Some_2 es i ltac:(lia)) as [e Ee].
      rewrite Eq, Ee. cbn. f_equal. by apply (H i q e).
    + rewrite lookup_take_ge by lia. apply lookup_ge_None_2. rewrite length_fmap. unfold child_ents. rewrite length_zip_with. lia.
Qed.

Lemma owned_disj k F np T2 (l : list Z) :
  PM k F np T2 [] -> (forall q, q ∈ l -> q ∉ owned np T2 [] ++ F) -> forall q, q ∈ l -> q ∉ tabs T2 ++ F.
Proof. intros _ H q Hq Hc. apply (H q Hq). unfold owned. cbn. rewrite elem_of_cons. by right. Qed.

Lemma fork_copied k F p T es np T2 k' T2' F' qs s :
  PM k F p T es -> PM k F np T2 [] -> (forall q, q ∈ owned p T es -> q ∉ owned np T2 [] ++ F) ->
  copied end_ k (pagetable p) T (pagetable np) T2 F es k' T2' F' qs (child_map (mp (km_mem k) T2) qs es) ->
  (length qs <= length es)%nat -> PGROUNDUP s / PGSIZE = Z.of_nat (length qs) -> 0 <= s < 2 ^ 32 ->
  PM k' F' p T es /\ PM k' F' (set_sz s np) T2' (child_ents qs es) /\
  owned (set_sz s np) T2' (child_ents qs es) ++ F' ≡ₚ owned np T2 [] ++ F /\ within (tabs T2 ++ F) k k' /\
  Forall (page_ok end_) qs /\ parent_ents end_ (mp (km_mem k) T) es.
Proof.
  intros P P2 Hd C Hlen Hs Hsr. pose proof P2 as [A2 Ht2 Ho2 _ _].
  assert (S : setup end_ k (pagetable p) T (pagetable np) T2 F es).
  { apply fork_setup; [done|done|]. intros q Hq Hc. apply (Hd q Hq), elem_of_app. by left. }
  destruct (cp_acct _ _ _ _ _ _ _ _ _ _ _ _ _ C) as (l & PF & H1 & H2).
  assert (Hqs : Forall (page_ok end_) qs).
  { pose proof (AS_all_pages _ _ _ _ _ _ _ A2) as H. cbn in H. rewrite PF, !Forall_app in H. tauto. }
  destruct (child_flags _ _ _ _ (su_ents _ _ _ _ _ _ _ _ S) Hqs Hlen) as [Hfl _].
  pose proof (child_upages qs es Hqs Hlen) as Hup. pose proof (a_nodup _ _ _ _ _ _ _ A2) as HN. cbn in HN.
  assert (Htab : tabs T2' ≡ₚ tabs T2 ++ l).
  { eapply (tabs_grow end_ He); [apply C| |apply C|done|done]. rewrite PF, app_assoc in HN. apply NoDup_app in HN as (HN & _ & _). done. }
  assert (E : qs ++ tabs T2' ++ F' ≡ₚ tabs T2 ++ F) by (rewrite Htab, PF; solve_Permutation).
  assert (W : within (tabs T2 ++ F) k k').
  { intros a Ha. apply (cp_mem _ _ _ _ _ _ _ _ _ _ _ _ _ C).
    - intros x q Hx Hi. apply Ha. exists q. split; [|done]. rewrite <- E, !elem_of_app, elem_of_tabs. eauto.
    - intros q Hq Hi. apply Ha. exists q. split; [|done]. rewrite <- E, !elem_of_app in *. tauto. }
  assert (PA2 : Forall (page_ok end_) (tabs T2 ++ F)) by exact (AS_all_pages _ _ _ _ _ _ _ A2).
  split_and!; [| | |done|done|apply S].
  - apply (PM_move k F p T es k' F' (tabs T2 ++ F)); [done|apply C|done|done|by apply (owned_disj k F np T2)|].
    intros q Hq. rewrite PF, !elem_of_app. tauto.
  - split; cbn; [|done| |unfold child_ents; rewrite length_zip_with; lia|done].
    + split; [apply C|apply C| |done|by rewrite Hup|by rewrite Hup, E| |apply A2].
      * intros vpn Hv. rewrite child_umap, (cp_newmp _ _ _ _ _ _ _ _ _ _ _ _ _ C) by done. unfold child_map.
        rewrite (a_mp _ _ _ _ _ _ _ A2) by done. done.
      * unfold child_ents. rewrite length_zip_with. pose proof (a_small _ _ _ _ _ _ _ (pm_as _ _ _ _ _ _ _ P)). lia.
    + rewrite Hup, E. exact Ho2.
  - unfold owned. cbn [trapframe set_sz app]. constructor. rewrite Hup, <- app_assoc, E. done.
Qed.

(** The registers of the child. *)
Definition child_regs k tf k' tf2 : Prop :=
  (forall o, 0 <= o < sizeof_trapframe -> ~ (off_a0 <= o < off_a0 + 8) -> ldb (km_mem k') (tf2 + o) = ldb (km_mem k) (tf + o)) /\
  ld64 (km_mem k') (tf2 + off_a0) = 0.

Lemma copy_regs k F tf tf2 :
  km_ok end_ k F -> page_ok end_ tf2 -> tf2 ∉ F ->
  exists k', (kmemmove tf2 tf sizeof_trapframe;; kst64 (tf2 + off_a0) 0) k = Ok (tt, k') /\
    km_ok end_ k' F /\ within [tf2] k k' /\ child_regs k tf k' tf2.
Proof.
  intros Hk Hp Hn. unfold kmemmove, kst64. mgo.
  pose proof (fun a => memmove_spec tf2 tf sizeof_trapframe (km_mem k) a (ko_mem _ _ _ Hk) ltac:(done)) as Hm.
  pose proof (memmove_ok tf2 tf sizeof_trapframe (km_mem k) (ko_mem _ _ _ Hk) ltac:(done)) as Hmo.
  revert Hm Hmo. generalize (memmove tf2 tf sizeof_trapframe (km_mem k)). intros m1 Hm Hmo.
  assert (Hout : forall a, ~ in_page tf2 a -> ldb (st64 m1 (tf2 + off_a0) 0) a = ldb (km_mem k) a).
  { intros a Ha. unfold in_page, PGSIZE in Ha. unfold st64. rewrite ldb_st_out by (unfold off_a0; lia).
    rewrite Hm, decide_False; [done|]. unfold sizeof_trapframe. lia. }
  eexists. split; [done|]. split_and!.
  - destruct k as [m fl]. apply (km_ok_frame end_ (mkkm m fl) F); [done|by apply st64_ok|].
    intros a (q & Hq & Ha). apply Hout. apply (in_page_other q); [|apply Hp| |done].
    + pose proof (ko_pages _ _ _ Hk) as HP. rewrite Forall_forall in HP. apply (HP q Hq).
    + by intros ->.
  - intros a Ha. apply Hout. intros Hi. apply Ha. exists tf2. split; [left|done].
  - split; [|cbn; by apply ld64_st64].
    intros o Ho Hne. cbn. unfold st64. rewrite ldb_st_out by (unfold off_a0 in *; lia).
    rewrite Hm, decide_True by lia. f_equal. lia.
Qed.

Lemma data_kept k k' X l : Forall (page_ok end_) (l ++ X) -> NoDup (l ++ X) -> within X k k' -> keeps k k' l.
Proof.
  intros HP HN W q a Hq Ha. apply W. apply NoDup_app in HN as (_ & Hd & _). apply Forall_app in HP as [HP1 HP2].
  rewrite Forall_forall in HP1. apply (page_not_in end_ q X a); [apply (HP1 q Hq)|done|by apply Hd|done].
Qed.

(** The child after [uvmcopy] has succeeded. *)
Lemma fork_child k F p T es np T2 es2 k' :
  PM k F p T es -> PM k F np T2 es2 -> (forall q, q ∈ owned p T es -> q ∉ owned np T2 es2) ->
  km_ok end_ k' F -> within [trapframe np] k k' ->
  PM k' F p T es /\ PM k' F np T2 es2 /\ keeps k k' (upages es) /\ keeps k k' (upages es2).
Proof.
  intros P P2 Hd Hk W. destruct (owned_pages _ _ _ _ _ P) as [HP HN]. destruct (owned_pages _ _ _ _ _ P2) as [HP2 HN2].
  unfold owned in *. cbn [app] in *. apply NoDup_cons in HN2 as [Hn2 HN2]. rewrite !elem_of_app in Hn2.
  apply Forall_cons in HP2 as [Ht2 HP2].
  assert (Hsub : forall X es0, Forall (page_ok end_) (upages es0 ++ X) -> NoDup (upages es0) -> trapframe np ∉ upages es0 -> keeps k k' (upages es0)).
  { intros X es0 H1 H2 H3. apply (data_kept k k' [trapframe np]); [|rewrite <- Permutation_cons_append; by constructor|done].
    apply Forall_app in H1 as [H1 _]. apply Forall_app. split; [done|by constructor]. }
  split_and!.
  - apply (PM_move k F p T es k' F [trapframe np]); [done|done|done|by constructor| |done].
    intros q Hq Hq'. apply list_elem_of_singleton in Hq' as ->. apply (Hd _ Hq). left.
  - pose proof P2 as [A2 H1 H2 H3 H4]. split; try done. apply (AS_move end_ k F _ _ _ _ k' F [trapframe np]); [done|done|done|by constructor| |apply A2].
    intros q Hq Hq'. apply list_elem_of_singleton in Hq' as ->. tauto.
  - apply Forall_cons in HP as [_ HP]. rewrite <- app_assoc in HP. apply (Hsub _ _ HP).
    + apply NoDup_cons in HN as [_ HN]. rewrite <- app_assoc in HN. apply NoDup_app in HN as (HN & _ & _). done.
    + intros Hc. apply (Hd (trapframe np)); [right; apply elem_of_app; by left|left].
  - rewrite <- app_assoc in HP2, HN2. apply (Hsub _ _ HP2); [|tauto]. apply NoDup_app in HN2 as (HN2 & _ & _). done.
Qed.

(** What [fork] ensures. *)
Definition forked k F p T es k' F' r np : Prop :=
  PM k' F' p T es /\ within F k k' /\
  ((r = -1 /\ np = nopm /\ F' ≡ₚ F /\ (length F <= 3 * length es + 6)%nat) \/
   (r = 0 /\ exists T2 es2, PM k' F' np T2 es2 /\ owned np T2 es2 ++ F' ≡ₚ F /\ sz np = sz p /\
      PTE_FLAGS <$> es2 = PTE_FLAGS <$> es /\
      (forall i e e2 o, es !! i = Some e -> es2 !! i = Some e2 -> 0 <= o < PGSIZE ->
         ldb (km_mem k') (PTE2PA e2 + o) = ldb (km_mem k) (PTE2PA e + o)) /\
      child_regs k (trapframe p) k' (trapframe np))).

Lemma disj_F k F p T es (X : list Z) : PM k F p T es -> (forall q, q ∈ X -> q ∈ F) -> forall q, q ∈ owned p T es -> q ∉ X.
Proof.
  intros P HX q Hq Hc. destruct (owned_pages _ _ _ _ _ P) as [_ HN]. apply NoDup_app in HN as (_ & Hd & _). by apply (Hd q Hq), HX.
Qed.

Section fork.
(** [k0]: before [fork]; [k]: after [allocproc] has set up [np]. *)
Context (k0 k : km) (F0 F es : list Z) (p np : pmem) (T T2 : gmap (Z * Z) Z).
Context (P0 : PM k0 F0 p T es) (P : PM k F p T es) (P2 : PM k F np T2 []).
Context (PF : owned np T2 [] ++ F ≡ₚ F0) (HcF : (length F0 <= length F + 6)%nat) (W0 : within F0 k0 k) (Hsz0 : sz np = 0).

Lemma fork_disj q : q ∈ owned p T es -> q ∉ owned np T2 [] ++ F.
Proof. rewrite PF. by apply (disj_F k0 F0 p T es F0 P0). Qed.

Lemma pages_F0 : Forall (page_ok end_) F0.
Proof. destruct (owned_pages _ _ _ _ _ P0) as [[_ H]%Forall_app _]. done. Qed.

Lemma sub_F0 q : q ∈ tabs T2 ++ F -> q ∈ F0.
Proof. intros Hq. rewrite <- PF. unfold owned. cbn. rewrite elem_of_cons. by right. Qed.

Lemma fork_failed k1 T2' F1 :
  copied end_ k (pagetable p) T (pagetable np) T2 F es k1 T2' F1 [] (child_map (mp (km_mem k) T2) [] es) ->
  (length F <= 3 * length es)%nat -> (1 < fuel)%nat ->
  exists k' F', freeproc end_ fuel np k1 = Ok (nopm, k') /\ forked k0 F0 p T es k' F' (-1) nopm.
Proof.
  intros C Hc Hf. destruct (fork_copied k F p T es np T2 k1 T2' F1 [] 0 P P2 fork_disj C) as (P3 & P4 & E4 & W4 & _); [cbn; lia|done|done|].
  cbn [child_ents zip_with] in P4, E4. replace (set_sz 0 np) with np in P4, E4 by (destruct np; cbn in *; by subst).
  destruct (freeproc_spec end_ fuel trampoline He Htr Hta k1 F1 np T2' [] P4) as (k' & F' & E' & Hk' & PF' & W'); [cbn; lia|].
  assert (W : within F0 k0 k').
  { eapply within_trans; [exact W0|]. eapply within_trans; [eapply within_mono; [exact sub_F0|exact W4]|].
    eapply within_perm; [|exact W']. by rewrite E4. }
  rewrite E4, PF in PF'. exists k', F'. split; [done|]. split_and!; [|done|left; split_and!; [done|done|done|lia]].
  apply (PM_move k0 F0 p T es k' F' F0); [done|done|done|apply pages_F0|by apply (disj_F k0 F0 p T es)|]. intros q. by rewrite PF'.
Qed.

Lemma fork_done k1 T2' F1 qs :
  copied end_ k (pagetable p) T (pagetable np) T2 F es k1 T2' F1 qs (child_map (mp (km_mem k) T2) qs es) ->
  length qs = length es ->
  exists k', (kmemmove (trapframe np) (trapframe p) sizeof_trapframe;; kst64 (trapframe np + off_a0) 0) k1 = Ok (tt, k') /\
    forked k0 F0 p T es k' F1 0 (set_sz (sz p) np).
Proof.
  intros C Hlen. destruct (fork_copied k F p T es np T2 k1 T2' F1 qs (sz p) P P2 fork_disj C) as (P3 & P4 & E4 & W4 & Hqs & Hents);
    [lia|rewrite Hlen; apply P|apply P|].
  pose proof P4 as [A4 Ht4 Ho4 _ _]. cbn [trapframe set_sz] in Ht4, Ho4. rewrite !elem_of_app in Ho4.
  destruct (copy_regs k1 F1 (trapframe p) (trapframe np)) as (k' & E' & Hk' & W' & Hregs); [apply A4|done|tauto|].
  exists k'. split; [done|]. rewrite PF in E4.
  destruct (fork_child k1 F1 p T es (set_sz (sz p) np) T2' (child_ents qs es) k') as (P5 & P6 & K5 & K6); try done.
  { intros q Hq Hc. apply (disj_F k0 F0 p T es F0 P0 ltac:(done) q Hq). rewrite <- E4, elem_of_app. by left. }
  assert (W1 : within F0 k0 k1) by (eapply within_trans; [exact W0|eapply within_mono; [exact sub_F0|exact W4]]).
  assert (K0 : forall k2, within F0 k0 k2 -> keeps k0 k2 (owned p T es)).
  { intros k2. destruct (owned_pages _ _ _ _ _ P0) as [HP0 HN0]. by apply data_kept. }
  assert (W : within F0 k0 k').
  { eapply within_trans; [exact W1|]. eapply within_mono; [|exact W']. intros q Hq. apply list_elem_of_singleton in Hq as ->. rewrite <- E4. left. }
  destruct (child_flags _ _ _ _ Hents Hqs ltac:(lia)) as [_ Hfl]. pose proof (child_upages qs es Hqs ltac:(lia)) as Hup.
  split_and!; [done|done|]. right. split; [done|]. exists T2', (child_ents qs es). split_and!; [done|done|done| | |].
  - rewrite Hfl, Hlen. apply firstn_all2. rewrite length_fmap. lia.
  - intros i e e2 o Hi Hi2 Ho. pose proof (f_equal (fun l => l !! i) Hup) as Hq. cbn in Hq. unfold upages in Hq.
    rewrite list_lookup_fmap, Hi2 in Hq. cbn in Hq. symmetry in Hq.
    rewrite (K6 (PTE2PA e2)) by (by unfold in_page; lia || (rewrite Hup; by eapply list_elem_of_lookup_2)).
    rewrite (cp_data _ _ _ _ _ _ _ _ _ _ _ _ _ C i _ e o Hq Hi Ho). apply (K0 k W0 (PTE2PA e)); [|unfold in_page; lia].
    right. apply elem_of_app. left. apply list_elem_of_fmap_2. by eapply list_elem_of_lookup_2.
  - destruct Hregs as [Hr1 Hr2]. split; [|done]. intros o Ho Hne. cbn [trapframe set_sz]. rewrite Hr1 by done.
    apply (K0 k1 W1 (trapframe p)); [left|]. unfold in_page, sizeof_trapframe, PGSIZE in *. lia.
Qed.
End fork.

(** C12: [fork] never panics, leaves the parent's memory alone and writes to pages
    that were free only.  If it succeeds, the child owns pages that were free
    before, no page is lost, and its user memory, permissions, size and
    registers are those of the parent except for a0, which is 0.  If it fails,
    every page it took is free again; and it does not fail when there are six
    free pages and three more for every page of the parent. *)
Theorem fork_correct k F p T es (P : PM k F p T es) (Hf : (2 + length es < fuel)%nat) :
  exists r np k' F', fork end_ fuel trampoline p nopm k = Ok ((r, np), k') /\ forked k F p T es k' F' r np.
Proof.
  pose proof (owned_pages _ _ _ _ _ P) as [[HP HPF]%Forall_app HN]. unfold fork.
  destruct (allocproc_spec end_ fuel trampoline He Htr Hta k F) as (ok & np & k1 & F1 & E1 & W1 & R); [apply P|lia|].
  rewrite (M_bind_Ok _ _ _ _ _ E1). destruct ok; cbn [negb].
  2:{ destruct R as (-> & Hk1 & PF & Hc). exists (-1), nopm, k1, F1. split; [done|]. split_and!; [|done|left; split_and!; [done|done|done|lia]].
      apply (PM_move k F p T es k1 F1 F); [done|done|done|done|by apply (disj_F k F p T es)|]. intros q. by rewrite PF. }
  destruct R as (Hc & T2 & P2 & PF & Hs).
  assert (P1 : PM k1 F1 p T es).
  { apply (PM_move k F p T es k1 F1 F); [done|apply P2|done|done|by apply (disj_F k F p T es)|].
    intros q Hq. rewrite <- PF. apply elem_of_app. by right. }
  pose proof (pm_rng _ _ _ _ _ _ _ P) as Hrng. assert (HM : 2 ^ 32 <= MAXVA - PGSIZE) by done.
  pose proof (proj1 (pgroundup_pages (sz p) _ ltac:(mlia)) (pm_sz _ _ _ _ _ _ _ P)) as Hpg.
  destruct (uvmcopy_copied end_ fuel He k1 (pagetable p) T (pagetable np) T2 F1 es (sz p)) as (r & k2 & T2' & F2 & qs & E2 & C & R);
    [|lia|mlia|lia|].
  { apply fork_setup; [done|done|]. intros q Hq Hc'. apply (fork_disj k F F1 es p np T T2 P PF q Hq), elem_of_app. by left. }
  rewrite (M_bind_Ok _ _ _ _ _ E2). destruct R as [[-> Hlen]|(-> & -> & Hc2)]; cbn [Z.ltb Z.compare].
  - destruct (fork_done k k1 F F1 es p np T T2 P P1 P2 PF Hc W1 k2 T2' F2 qs C Hlen) as (k' & E' & Hfk).
    exists 0, (set_sz (sz p) np), k', F2. split; [|done]. cbv zeta. cbn [trapframe set_sz].
    revert E'. unfold kmemmove, kst64. mgo. intros [= <-]. reflexivity.
  - destruct (fork_failed k k1 F F1 es p np T T2 P P1 P2 PF Hc W1 Hs k2 T2' F2 C Hc2 ltac:(lia)) as (k' & F' & E' & Hfk).
    rewrite (M_bind_Ok _ _ _ _ _ E'). by exists (-1), nopm, k', F'.
Qed.
(** ** The first process *)

(** Writing inside pages of the process that are not tables. *)
Lemma PM_write k F p T es q m' :
  PM k F p T es -> q ∈ trapframe p :: upages es -> mem_ok m' ->
  (forall a, ~ in_page q a -> ldb m' a = ldb (km_mem k) a) -> PM (set_mem m' k) F p T es.
Proof.
  intros P Hq Hm Hout. destruct (owned_pages _ _ _ _ _ P) as [HP HN]. unfold owned in HP, HN.
  rewrite app_comm_cons, <- app_assoc in HP, HN.
  apply NoDup_app in HN as (_ & Hd & _). pose proof (Hd q Hq) as Hq'. rewrite elem_of_app in Hq'.
  apply Forall_app in HP as [HP HPF]. rewrite Forall_forall in HP. pose proof (HP q Hq) as Hqok.
  pose proof P as [A H1 H2 H3 H4]. split; try done. apply AS_write; [done|done|].
  intros a Ha. apply Hout. intros Hi. apply (page_not_in end_ q (tabs T ++ F) a); [apply Hqok|done|by rewrite elem_of_app|done|done].
Qed.

Lemma PM_st64 k F p T es o v :
  PM k F p T es -> 0 <= o <= PGSIZE - 8 ->
  PM (set_mem (st64 (km_mem k) (trapframe p + o) v) k) F p T es /\
  forall a, ~ in_page (trapframe p) a -> ldb (st64 (km_mem k) (trapframe p + o) v) a = ldb (km_mem k) a.
Proof.
  intros P Ho. assert (Hout : forall a, ~ in_page (trapframe p) a -> ldb (st64 (km_mem k) (trapframe p + o) v) a = ldb (km_mem k) a).
  { intros a Ha. unfold st64. apply ldb_st_out. unfold in_page in Ha. cbn. lia. }
  split; [|done]. apply (PM_write k F p T es (trapframe p)); [done|left|apply st64_ok, P|done].
Qed.

(** [uvminit] for a new process. *)
Lemma uvminit_spec k F p T src n :
  PM k F p T [] -> (4 <= length F)%nat -> 0 <= n < PGSIZE -> (0 < fuel)%nat -> 0 <= src -> src + n <= end_ ->
  exists k' F' T' e, uvminit fuel (pagetable p) src n k = Ok (tt, k') /\
    PM k' F' (set_sz PGSIZE p) T' [e] /\ owned (set_sz PGSIZE p) T' [e] ++ F' ≡ₚ owned p T [] ++ F /\
    forall o, 0 <= o < PGSIZE -> ldb (km_mem k') (PTE2PA e + o) = if decide (o < n) then ldb (km_mem k) (src + o) else 0.
Proof.
  intros P Hl Hn Hf Hs0 Hs. unfold uvminit. destruct (Z.leb_spec PGSIZE n); [lia|]. pose proof (pm_as _ _ _ _ _ _ _ P) as A.
  destruct F as [|q F]; [cbn in Hl; lia|].
  destruct (alloc_zero end_ k q F (a_km _ _ _ _ _ _ _ A)) as (k1 & E1 & _ & Hq & Hqn & Hk2 & Hz & Hm). cbv zeta in *.
  rewrite (M_bind_Ok _ _ _ _ _ E1). unfold kmemset. mgo.
  revert Hk2 Hz Hm. generalize (set_mem (memset q 0 PGSIZE (km_mem k1)) k1). intros k2 Hk2 Hz Hm.
  change (Z.lor (Z.lor (Z.lor PTE_W PTE_R) PTE_X) PTE_U) with UPERM.
  destruct (grow_page end_ fuel He k q F (pagetable p) T [] _ UPERM k2 A) as (r & k3 & F3 & T3 & E3 & R); try done.
  change (Z.of_nat (length []) * PGSIZE) with 0 in E3. rewrite (M_bind_Ok _ _ _ _ _ E3).
  destruct R as [(-> & _ & St & _ & Kq)|(_ & Hc & _)]; [|cbn in Hl; lia]. cbn [app] in St.
  destruct (PM_step end_ trampoline k (q :: F) p T [] k3 F3 T3 [leaf q UPERM] PGSIZE P St) as [P3 Pg]; [done|done|].
  pose proof (fresh_leaf end_ He q Hq) as Lq.
  pose proof (fun a => memmove_spec q src n (km_mem k3) a (ko_mem _ _ _ (a_km _ _ _ _ _ _ _ (pm_as _ _ _ _ _ _ _ P3))) ltac:(lia)) as Hmv.
  pose proof (memmove_ok q src n (km_mem k3) (ko_mem _ _ _ (a_km _ _ _ _ _ _ _ (pm_as _ _ _ _ _ _ _ P3))) ltac:(lia)) as Hmo.
  change (kmemmove q src n k3) with (@Ok (unit * km) (tt, set_mem (memmove q src n (km_mem k3)) k3)).
  revert Hmv Hmo. generalize (memmove q src n (km_mem k3)). intros m4 Hmv Hmo.
  exists (set_mem m4 k3), F3, T3, (leaf q UPERM). split; [done|]. split; [|split; [done|]].
  - apply (PM_write k3 F3 _ _ _ q); [done|right; unfold upages; cbn; rewrite Lq; left|done|].
    intros a Ha. rewrite Hmv, decide_False; [done|]. unfold in_page in Ha. lia.
  - intros o Ho. rewrite Lq. cbn. rewrite Hmv. case_decide; case_decide; try lia.
    + assert (Hlow : forall r a, r ∈ q :: F -> a < end_ -> ~ in_page r a).
      { intros r a Hr Ha Hi. pose proof (AS_all_pages _ _ _ _ _ _ _ A) as HP. rewrite Forall_forall in HP.
        destruct (HP r ltac:(rewrite !elem_of_app; auto)) as (_ & ? & _). unfold in_page in Hi. lia. }
      replace (src + (q + o - q)) with (src + o) by lia. apply (s_mem _ _ _ _ _ _ _ _ _ _ _ _ St).
      cbn. intros (r & Hr & Hi). apply elem_of_app in Hr as [Hr|Hr]; [|by apply (Hlow r (src + o) Hr); [lia|]].
      destruct (tab_ok _ _ _ _ _ _ _ _ A Hr) as (_ & ? & _). unfold in_page in Hi. lia.
    + rewrite (Kq q) by (by left || (unfold in_page; lia)). apply Hz. unfold in_page. lia.
Qed.
(** [userinit], given ten free pages: the first process has one page, which
    holds [initcode] and zeroes, and starts at address 0 with its stack
    pointer at the end of the page. *)
Lemma userinit_correct k F initcode :
  km_ok end_ k F -> (10 <= length F)%nat -> (1 < fuel)%nat -> 0 <= initcode -> initcode + sizeof_initcode <= end_ ->
  exists p k' F' T e, userinit end_ fuel trampoline initcode nopm k = Ok (p, k') /\
    PM k' F' p T [e] /\ owned p T [e] ++ F' ≡ₚ F /\ sz p = PGSIZE /\
    (forall o, 0 <= o < PGSIZE -> ldb (km_mem k') (PTE2PA e + o) = if decide (o < sizeof_initcode) then ldb (km_mem k) (initcode + o) else 0) /\
    ld64 (km_mem k') (trapframe p + off_epc) = 0 /\ ld64 (km_mem k') (trapframe p + off_sp) = PGSIZE.
Proof.
  intros Hk Hl Hf H0 Hs. unfold userinit.
  destruct (allocproc_spec end_ fuel trampoline He Htr Hta k F Hk Hf) as ([] & p & k1 & F1 & E1 & W1 & R); [|lia].
  rewrite (M_bind_Ok _ _ _ _ _ E1). destruct R as (Hc & T & P & PF & _).
  destruct (uvminit_spec k1 F1 p T initcode sizeof_initcode P) as (k2 & F2 & T2 & e & E2 & P2 & PF2 & Hd); try done; try lia.
  rewrite (M_bind_Ok _ _ _ _ _ E2). cbv zeta. unfold kst64. mgo. cbn [trapframe set_sz].
  destruct (PM_st64 k2 F2 _ T2 [e] off_epc 0 P2 ltac:(done)) as [P3 W3]. cbn [trapframe set_sz] in *.
  destruct (PM_st64 _ F2 _ T2 [e] off_sp PGSIZE P3 ltac:(done)) as [P4 W4]. cbn [trapframe set_sz km_mem set_mem] in *.
  eexists _, _, F2, T2, e. split; [done|]. split; [exact P4|]. split; [by rewrite PF2|]. split; [done|]. split_and!.
  - intros o Ho. assert (Hne : ~ in_page (trapframe p) (PTE2PA e + o)).
    { destruct (owned_pages _ _ _ _ _ P2) as [HP HN]. unfold owned, upages in HP, HN. cbn in HP, HN.
      apply Forall_cons in HP as [HP1 [HP2 _]%Forall_cons]. apply NoDup_cons in HN as [HN _].
      apply (in_page_other (PTE2PA e)); [apply HP2|apply HP1| |unfold in_page; lia]. intros E. apply HN. rewrite <- E. left. }
    cbn. rewrite W4, W3, Hd by done. case_decide; [|done]. apply W1. intros (r & Hr & Hi).
    pose proof (ko_pages _ _ _ Hk) as HP. rewrite Forall_forall in HP. destruct (HP r Hr) as (_ & ? & _). unfold in_page in Hi. lia.
  - cbn. rewrite ld64_st64_ne by (left; unfold off_epc, off_sp; lia). by apply ld64_st64.
  - cbn. by apply ld64_st64.
Qed.
End procfork.

(** ** A first process on a machine with 32 free pages *)

Definition boot_end : Z := PHYSTOP - 32 * PGSIZE.
Definition boot_trampoline : Z := KERNBASE + 0x7000.

Lemma boot_memory : exists k F, km_ok boot_end k F /\ length F = 32%nat.
Proof.
  destruct (freerange_spec boot_end 32 33 (mkkm ∅ 0) [] boot_end PHYSTOP) as (k & _ & Hk); try done; try lia.
  - split; [|done|done|constructor]. intros a. vm_compute. split; congruence.
  - intros q Hq. by apply not_elem_of_nil in Hq.
  - exists k, (pages_from boot_end 32 ++ []). split; [done|reflexivity].
Qed.

Lemma boot_process :
  exists k F p T, PM boot_end boot_trampoline k F p T [] /\ sz p = 0 /\ (26 <= length F)%nat.
Proof.
  destruct boot_memory as (k & F & Hk & Hl).
  destruct (allocproc_spec boot_end 10 boot_trampoline ltac:(done) ltac:(done) ltac:(done) k F Hk ltac:(lia))
    as ([] & p & k1 & F1 & _ & _ & R); [|lia].
  destruct R as (Hc & T & P & _ & Hs). exists k1, F1, p, T. split_and!; [done|done|lia].
Qed.

(** ... with two pages. *)
Lemma grown_process :
  exists k F p T es, PM boot_end boot_trampoline k F p T es /\ sz p = 5000 /\ length es = 2%nat /\ (20 <= length F)%nat.
Proof.
  destruct boot_process as (k & F & p & T & P & Hs & Hl).
  destruct (uvmalloc_as boot_end 10 ltac:(done) k F (pagetable p) T [] _ 0 5000 2 (pm_as _ _ _ _ _ _ _ P))
    as (r & k' & F' & T' & _ & [(_ & news & Hn & _ & _ & St & _ & Hc)|(_ & _ & _ & Hc)]); try done; try lia; [assert (2 <= TRAPN) by done; lia|].
  destruct (PM_step boot_end boot_trampoline k F p T [] k' F' T' news 5000 P St) as [P' _]; [cbn [app] in Hn; by rewrite Hn|done|].
  exists k', F', (set_sz 5000 p), T', news. split_and!; [done|done|cbn [app] in Hn; lia|cbn [length] in Hc; lia].
Qed.

(** [sbrk(-1000)] of it. *)
Lemma growproc_correct_witness :
  exists k F p T es p' k', PM boot_end boot_trampoline k F p T es /\ sz p = 5000 /\
    growproc boot_end 10 (-1000) p k = Ok ((0, p'), k') /\ sz p' = 4000.
Proof.
  destruct grown_process as (k & F & p & T & es & P & Hs & Hl & _).
  destruct (growproc_correct boot_end 10 boot_trampoline ltac:(done) k F p T es (-1000)) as (r & p' & k' & F' & T' & es' & E & P' & _ & _ & R).
  - done.
  - exact P.
  - lia.
  - rewrite Hs, Hl. reflexivity.
  - rewrite Hs in R. destruct R as [(Hc & _)|[(Hc & _)|(_ & -> & Hs' & _)]]; [lia|lia|].
    exists k, F, p, T, es, p', k'. split_and!; [exact P|exact Hs|exact E|exact Hs'].
Defined.

(** It forks. *)
Lemma fork_correct_witness :
  exists k F p T es np k' F' T2 es2, PM boot_end boot_trampoline k F p T es /\ length es = 2%nat /\
    fork boot_end 10 boot_trampoline p nopm k = Ok ((0, np), k') /\
    PM boot_end boot_trampoline k' F' p T es /\ PM boot_end boot_trampoline k' F' np T2 es2 /\ sz np = 5000.
Proof.
  destruct grown_process as (k & F & p & T & es & P & Hs & Hl & Hfr).
  destruct (fork_correct boot_end 10 boot_trampoline ltac:(done) ltac:(done) ltac:(done) k F p T es P ltac:(rewrite Hl; lia))
    as (r & np & k' & F' & E & P' & _ & R).
  destruct R as [(_ & _ & _ & Hc)|(-> & T2 & es2 & P2 & _ & Hs2 & _)]; [lia|].
  exists k, F, p, T, es, np, k', F', T2, es2. split_and!; [exact P|exact Hl|exact E|exact P'|exact P2|]. rewrite Hs2. exact Hs.
Defined.
