(* ===== verification/Request.v ===== *)
(** * Disk requests: [struct req] and the buffers it points to

    A [struct buf *] is NULL, the static sentinel [temp] of
    kernel/virtio_disk.c, or a cell of [bcache.buf] (kernel/bio.c).  The
    schedulers only read [b->blockno]; the memory they read it from is the
    argument [m : bufmem]. *)

From S2P Require Import Prelude.

Inductive bufptr : Type :=
| BNull
| BTemp
| BBuf (i : nat).

#[global] Instance bufptr_eq_dec : EqDecision bufptr.
Proof. solve_decision. Defined.

(** [struct req] *)
Record req : Type := mkreq { r_b : bufptr; r_write : Z }.

#[global] Instance req_eq_dec : EqDecision req.
Proof. solve_decision. Defined.

(** A zero-initialised [struct req] of a static array. *)
Definition req0 : req := mkreq BNull 0.

(** [blockno] of every buffer ([uint]: 32 bits, unsigned). *)
Definition bufmem : Type := bufptr -> Z.

Definition bufmem_ok (m : bufmem) : Prop := forall b, 0 <= m b < 2 ^ 32.

(** [b->blockno] *)
Definition b_blockno (m : bufmem) (b : bufptr) : res Z :=
  match b with
  | BNull => Fault "NULL struct buf"
  | _ => Ok (m b)
  end.

Lemma b_blockno_Ok m b : b <> BNull -> b_blockno m b = Ok (m b).
Proof. by destruct b. Qed.

#[export] Hint Resolve b_blockno_Ok : kernel.
