(* ===== verification/MinHeap.v ===== *)
(** * The block-number heap of the I/O scheduler (IO_type 1)

    kernel/virtio_disk.c, [insertMinHeap] and [deleteFromMinHeap]: a binary
    min-heap of requests keyed by [b->blockno], cells 1..Size of a 128-cell
    array, cell 0 holding a sentinel of block number 0. *)

From S2P Require Import Prelude Request.

Ltac Zify.zify_post_hook ::= Z.to_euclidean_division_equations.

(** [struct HNode] *)
Record HNode : Type := mkHNode { data : list req; Size : Z; Capacity : Z }.

(** The loop of [insertMinHeap]: move parents down until the hole [p] is the
    place of [x]. *)
Fixpoint sift_up (fuel : nat) (m : bufmem) (d : list req) (x : req) (p : Z)
  : res (list req * Z) :=
  match fuel with
  | O => Hang
  | S fuel =>
      q ← rd d (p ÷ 2);
      kq ← b_blockno m (r_b q);
      kx ← b_blockno m (r_b x);
      if kx <? kq then
        d' ← wr d p q;
        sift_up fuel m d' x (p ÷ 2)
      else Ok (d, p)
  end.

Definition insertMinHeap (fuel : nat) (m : bufmem) (h : HNode) (x : req)
  : res HNode :=
  if Size h =? Capacity h then Panic "queue out of capacity"
  else
    let p := Size h + 1 in
    '(d, p') ← sift_up fuel m (data h) x p;
    d' ← wr d p' x;
    Ok (mkHNode d' (Size h + 1) (Capacity h)).

(** The choice of the child in [deleteFromMinHeap]: the right one if it
    exists and has the smaller block number. *)
Definition pick_child (m : bufmem) (d : list req) (n parent : Z) : res Z :=
  let child := parent * 2 in
  if negb (child =? n) then
    l ← rd d child;
    r ← rd d (child + 1);
    kl ← b_blockno m (r_b l);
    kr ← b_blockno m (r_b r);
    Ok (if kr <? kl then child + 1 else child)
  else Ok child.

(** The loop of [deleteFromMinHeap]; [n] is the size after the decrement. *)
Fixpoint sift_down (fuel : nat) (m : bufmem) (d : list req) (last : req)
    (n parent : Z) : res (list req * Z) :=
  match fuel with
  | O => Hang
  | S fuel =>
      if parent * 2 <=? n then
        child ← pick_child m d n parent;
        c ← rd d child;
        kc ← b_blockno m (r_b c);
        kl ← b_blockno m (r_b last);
        if kl <? kc then Ok (d, parent)
        else
          d' ← wr d parent c;
          sift_down fuel m d' last n child
      else Ok (d, parent)
  end.

Definition deleteFromMinHeap (fuel : nat) (m : bufmem) (h : HNode)
  : res HNode :=
  last ← rd (data h) (Size h);
  let n := Size h - 1 in
  '(d, parent) ← sift_down fuel m (data h) last n 1;
  d' ← wr d parent last;
  Ok (mkHNode d' n (Capacity h)).

(** The sentinel request that [virtio_disk_init] stores in cell 0. *)
Definition heap_sentinel : req := mkreq BTemp 0.

(** The heap as [virtio_disk_init] leaves it. *)
Definition heap_init : HNode :=
  mkHNode (heap_sentinel :: replicate 127 req0) 0 128.

(** ** Specification: what a well-formed heap is *)

Definition keyat (m : bufmem) (d : list req) (i : Z) : Z :=
  match zidx d i with Some r => m (r_b r) | None => 0 end.

Definition cell_ok (d : list req) (i : Z) : Prop :=
  exists r, zidx d i = Some r /\ r_b r <> BNull.

Record heap_wf (m : bufmem) (h : HNode) : Prop := {
  wf_length : length (data h) = 128%nat;
  wf_capacity : Capacity h = 128;
  wf_size : 0 <= Size h <= 127;
  wf_sentinel : zidx (data h) 0 = Some heap_sentinel;
  wf_sentinel_key : m BTemp = 0;
  wf_cells : forall i, 1 <= i <= Size h -> cell_ok (data h) i;
  wf_order : forall i, 2 <= i <= Size h ->
    keyat m (data h) (i / 2) <= keyat m (data h) i;
}.

(** The requests waiting in the heap, in array order. *)
Definition elems (h : HNode) : list req :=
  take (Z.to_nat (Size h)) (drop 1 (data h)).

(** ** Array-view lemmas *)

Lemma keyat_lookup m d i r : zidx d i = Some r -> keyat m d i = m (r_b r).
Proof. unfold keyat. by intros ->. Qed.

Lemma keyat_insert_eq m d i r :
  0 <= i < Z.of_nat (length d) -> keyat m (<[Z.to_nat i := r]> d) i = m (r_b r).
Proof. intros. apply keyat_lookup. by apply zidx_insert_eq. Qed.

Lemma keyat_insert_ne m d i j r :
  0 <= i -> i <> j -> keyat m (<[Z.to_nat i := r]> d) j = keyat m d j.
Proof. intros. unfold keyat. by rewrite zidx_insert_ne. Qed.

Lemma cell_ok_insert d i j r :
  0 <= i < Z.of_nat (length d) -> r_b r <> BNull ->
  (i <> j -> cell_ok d j) -> cell_ok (<[Z.to_nat i := r]> d) j.
Proof.
  intros Hi Hr Hj. destruct (decide (i = j)) as [<-|Hne].
  - exists r. by rewrite zidx_insert_eq.
  - destruct (Hj Hne) as (q & ? & ?). exists q. by rewrite zidx_insert_ne by lia.
Qed.

(** Cells 1..n of the array, as a list. *)
Definition cells (d : list req) (n : Z) : list req :=
  take (Z.to_nat n) (drop 1 d).

Lemma cells_insert d n i r :
  1 <= i <= n -> cells (<[Z.to_nat i := r]> d) n = (<[(Z.to_nat i - 1)%nat := r]> (cells d n)).
Proof.
  intros. unfold cells. rewrite drop_insert_ge by lia.
  by rewrite take_insert_lt by lia.
Qed.

Lemma cells_lookup d n i r :
  1 <= i <= n -> zidx d i = Some r -> cells d n !! (Z.to_nat i - 1)%nat = Some r.
Proof.
  intros Hi [_ Hr]%zidx_Some. unfold cells.
  rewrite lookup_take_lt by lia. rewrite lookup_drop.
  by replace (1 + (Z.to_nat i - 1))%nat with (Z.to_nat i) by lia.
Qed.

(** Moving the hole from [p] to [p'] permutes the cells. *)
Lemma move_hole d n p p' q x :
  1 <= p <= n -> 1 <= p' <= n -> n < Z.of_nat (length d) -> p <> p' ->
  zidx d p' = Some q ->
  cells (<[Z.to_nat p' := x]> (<[Z.to_nat p := q]> d)) n ≡ₚ
  cells (<[Z.to_nat p := x]> d) n.
Proof.
  intros Hp Hp' Hn Hne Hq. rewrite !cells_insert by lia.
  apply (cells_lookup d n) in Hq; [|done].
  assert (length (cells d n) = Z.to_nat n) as Hl
    by (unfold cells; rewrite length_take, length_drop; lia).
  rewrite <- (list_insert_insert_eq (cells d n) (Z.to_nat p - 1) q x).
  apply Permutation_insert_swap.
  - apply list_lookup_insert_eq. lia.
  - rewrite list_lookup_insert_ne by lia. done.
Qed.

Lemma cells_snoc d n r :
  0 <= n -> zidx d (n + 1) = Some r -> cells d (n + 1) = cells d n ++ [r].
Proof.
  intros Hn [_ Hr]%zidx_Some. unfold cells.
  replace (Z.to_nat (n + 1)) with (S (Z.to_nat n)) in * by lia.
  apply take_S_r. by rewrite lookup_drop.
Qed.

Lemma cells_insert_snoc d n r :
  0 <= n -> n + 1 < Z.of_nat (length d) ->
  cells (<[Z.to_nat (n + 1) := r]> d) (n + 1) = cells d n ++ [r].
Proof.
  intros. rewrite (cells_snoc _ _ r); [|done|apply zidx_insert_eq; lia].
  f_equal. unfold cells. rewrite drop_insert_ge by lia.
  by rewrite take_insert_ge by lia.
Qed.

(** ** Insertion *)

(** The array with a hole at [p] that [insertMinHeap] carries: a heap
    everywhere but at [p], whose place in the order [x] could take but for
    its parent. *)
Record up_inv (m : bufmem) (n : Z) (x : req) (d : list req) (p : Z) : Prop := {
  up_len : length d = 128%nat;
  up_n : 1 <= p <= n /\ n <= 127;
  up_sent : zidx d 0 = Some heap_sentinel;
  up_cells : forall i, 1 <= i <= n -> i <> p -> cell_ok d i;
  up_order : forall i, 2 <= i <= n -> i <> p -> i / 2 <> p ->
    keyat m d (i / 2) <= keyat m d i;
  up_child : forall i, 2 <= i <= n -> i / 2 = p -> m (r_b x) <= keyat m d i;
  up_grand : forall i, 2 <= i <= n -> i / 2 = p -> 2 <= p ->
    keyat m d (p / 2) <= keyat m d i;
}.

Lemma up_inv_parent m n x d p :
  up_inv m n x d p -> exists q, zidx d (p ÷ 2) = Some q /\ r_b q <> BNull.
Proof.
  intros []. rewrite Z.quot_div_nonneg by lia.
  destruct (decide (p = 1)) as [->|].
  - exists heap_sentinel. done.
  - apply up_cells0; lia.
Qed.

Lemma up_inv_step m n x d p q :
  up_inv m n x d p -> m BTemp = 0 -> 0 <= m (r_b x) ->
  zidx d (p ÷ 2) = Some q -> r_b q <> BNull -> m (r_b x) < m (r_b q) ->
  2 <= p /\ up_inv m n x (<[Z.to_nat p := q]> d) (p ÷ 2).
Proof.
  intros [] Ht Hx Hq Hqn Hlt. rewrite Z.quot_div_nonneg in * by lia.
  assert (2 <= p).
  { destruct (decide (p = 1)) as [->|]; [|lia].
    change (1 / 2) with 0 in Hq. rewrite up_sent0 in Hq.
    injection Hq as <-. change (r_b heap_sentinel) with BTemp in Hlt. lia. }
  split; [done|].
  pose proof (keyat_lookup m d _ _ Hq) as Hkq.
  assert (forall i, i <> p -> keyat m (<[Z.to_nat p := q]> d) i = keyat m d i) as Hne
    by (intros; apply keyat_insert_ne; lia).
  assert (keyat m (<[Z.to_nat p := q]> d) p = m (r_b q)) as Heq
    by (apply keyat_insert_eq; lia).
  constructor.
  - by rewrite length_insert.
  - lia.
  - rewrite zidx_insert_ne by lia. done.
  - intros i Hi Hip. apply cell_ok_insert; [lia|done|]. intros. apply up_cells0; lia.
  - intros i Hi Hip Hip2. destruct (decide (i = p)) as [->|]; [lia|].
    rewrite (Hne i) by done. destruct (decide (i / 2 = p)) as [E|].
    + rewrite E, Heq, <- Hkq. apply up_grand0; lia.
    + rewrite Hne by done. apply up_order0; lia.
  - intros i Hi Hi2. destruct (decide (i = p)) as [->|].
    + rewrite Heq. lia.
    + rewrite Hne by done. pose proof (up_order0 i). rewrite Hi2 in *. lia.
  - intros i Hi Hi2 Hp2. rewrite (Hne (p / 2 / 2)) by lia.
    pose proof (up_order0 (p / 2)) as Ho. destruct (decide (i = p)) as [->|].
    + rewrite Heq, <- Hkq. apply Ho; lia.
    + rewrite Hne by done. pose proof (up_order0 i) as Ho2. rewrite Hi2 in Ho2. lia.
Qed.

Lemma up_inv_finish m n x d p cap :
  up_inv m n x d p -> m BTemp = 0 -> r_b x <> BNull -> cap = 128 ->
  (forall q, zidx d (p ÷ 2) = Some q -> m (r_b q) <= m (r_b x)) ->
  heap_wf m (mkHNode (<[Z.to_nat p := x]> d) n cap).
Proof.
  intros [] Ht Hx -> Hq. rewrite Z.quot_div_nonneg in * by lia.
  assert (forall i, i <> p -> keyat m (<[Z.to_nat p := x]> d) i = keyat m d i) as Hne
    by (intros; apply keyat_insert_ne; lia).
  assert (keyat m (<[Z.to_nat p := x]> d) p = m (r_b x)) as Heq
    by (apply keyat_insert_eq; lia).
  constructor; simpl; try done; try lia.
  - by rewrite length_insert.
  - rewrite zidx_insert_ne by lia. done.
  - intros i Hi. apply cell_ok_insert; [lia|done|]. intros. apply up_cells0; lia.
  - intros i Hi. destruct (decide (i = p)) as [->|].
    + rewrite Heq, Hne by lia. destruct (up_cells0 (p / 2)) as (q & Hzq & _); [lia|lia|].
      rewrite (keyat_lookup _ _ _ _ Hzq). by apply Hq.
    + rewrite (Hne i) by done. destruct (decide (i / 2 = p)) as [E|].
      * rewrite E, Heq. by apply up_child0.
      * rewrite Hne by done. by apply up_order0.
Qed.

Lemma sift_up_spec m n x fuel d p :
  m BTemp = 0 -> 0 <= m (r_b x) -> r_b x <> BNull ->
  up_inv m n x d p -> p < 2 ^ Z.of_nat fuel ->
  exists d' p',
    sift_up fuel m d x p = Ok (d', p') /\
    length d' = 128%nat /\ 1 <= p' <= n /\
    heap_wf m (mkHNode (<[Z.to_nat p' := x]> d') n 128) /\
    cells (<[Z.to_nat p' := x]> d') n ≡ₚ cells (<[Z.to_nat p := x]> d) n.
Proof.
  intros Ht Hx Hxn. revert d p. induction fuel as [|fuel IH]; intros d p HI Hf.
  { destruct HI. simpl in Hf. lia. }
  destruct (up_inv_parent _ _ _ _ _ HI) as (q & Hq & Hqn).
  cbn [sift_up]. mstep (rd_Ok _ _ _ Hq). mstep (b_blockno_Ok m _ Hqn).
  mstep (b_blockno_Ok m _ Hxn). destruct (Z.ltb_spec (m (r_b x)) (m (r_b q))).
  - destruct (up_inv_step _ _ _ _ _ _ HI Ht Hx Hq Hqn) as [Hp2 HI']; [done|].
    pose proof (up_len _ _ _ _ _ HI). pose proof (up_n _ _ _ _ _ HI).
    rewrite wr_Ok by lia. cbn [mbind res_bind].
    destruct (IH _ _ HI') as (d' & p' & Hrun & Hlen & Hp' & Hwf & Hperm).
    { rewrite Z.quot_div_nonneg by lia. replace (Z.of_nat (S fuel)) with (Z.of_nat fuel + 1) in Hf by lia.
      rewrite Z.pow_add_r in Hf by lia. lia. }
    exists d', p'. repeat (split; [done || lia|]). etrans; [exact Hperm|].
    rewrite Z.quot_div_nonneg in * by lia. apply move_hole; try done; lia.
  - exists d, p. pose proof (up_len _ _ _ _ _ HI). pose proof (up_n _ _ _ _ _ HI).
    split; [done|]. split; [done|]. split; [lia|]. split; [|done].
    eapply up_inv_finish; try done. intros q' Hq'. rewrite Hq in Hq'. by simplify_eq.
Qed.

Lemma heap_wf_up_inv m h x :
  heap_wf m h -> Size h < 127 -> up_inv m (Size h + 1) x (data h) (Size h + 1).
Proof.
  intros [] Hs. constructor; try done; try lia.
  - intros. apply wf_cells0. lia.
  - intros. apply wf_order0. lia.
Qed.

Lemma insertMinHeap_spec fuel m h x :
  heap_wf m h -> Size h < 127 -> r_b x <> BNull -> 0 <= m (r_b x) ->
  (7 <= fuel)%nat ->
  exists h', insertMinHeap fuel m h x = Ok h' /\ heap_wf m h' /\
             Size h' = Size h + 1 /\ elems h' ≡ₚ x :: elems h.
Proof.
  intros Hwf Hs Hxn Hx Hf. pose proof (heap_wf_up_inv m h x Hwf Hs) as HI.
  destruct Hwf. destruct (sift_up_spec m _ x fuel _ _ wf_sentinel_key0 Hx Hxn HI)
    as (d' & p' & Hrun & Hlen & Hp' & Hwf' & Hperm).
  { assert (2 ^ 7 <= 2 ^ Z.of_nat fuel) by (apply Z.pow_le_mono_r; lia). lia. }
  exists (mkHNode (<[Z.to_nat p' := x]> d') (Size h + 1) 128).
  unfold insertMinHeap. destruct (Z.eqb_spec (Size h) (Capacity h)); [lia|].
  mstep Hrun. rewrite wr_Ok by lia. cbn [mbind res_bind].
  rewrite wf_capacity0. repeat (split; [done || lia|]).
  change (cells (<[Z.to_nat p' := x]> d') (Size h + 1) ≡ₚ x :: elems h).
  rewrite Hperm, cells_insert_snoc by lia. apply Permutation_app_comm.
Qed.

(** ** Deletion *)

(** The array with a hole at [p] that [deleteFromMinHeap] carries. *)
Record down_inv (m : bufmem) (n : Z) (x : req) (d : list req) (p : Z) : Prop := {
  dn_len : length d = 128%nat;
  dn_n : 0 <= n <= 126 /\ 1 <= p <= Z.max 1 n;
  dn_sent : zidx d 0 = Some heap_sentinel;
  dn_cells : forall i, 1 <= i <= n -> i <> p -> cell_ok d i;
  dn_order : forall i, 2 <= i <= n -> i <> p -> i / 2 <> p ->
    keyat m d (i / 2) <= keyat m d i;
  dn_parent : 2 <= p -> keyat m d (p / 2) <= m (r_b x);
  dn_grand : forall i, 2 <= i <= n -> i / 2 = p -> 2 <= p ->
    keyat m d (p / 2) <= keyat m d i;
}.

Lemma pick_child_spec m n x d p :
  down_inv m n x d p -> p * 2 <= n ->
  exists ch c, pick_child m d n p = Ok ch /\ p * 2 <= ch <= n /\ ch / 2 = p /\
    zidx d ch = Some c /\ r_b c <> BNull /\
    (forall i, 2 <= i <= n -> i / 2 = p -> m (r_b c) <= keyat m d i).
Proof.
  intros [] Hpn. unfold pick_child.
  destruct (dn_cells0 (p * 2)) as (l & Hl & Hln); [lia|lia|].
  destruct (Z.eqb_spec (p * 2) n) as [E|Hne]; cbn [negb].
  - exists (p * 2), l. repeat (split; [done || lia|]). intros i Hi Hip.
    assert (i = p * 2) as -> by lia. by rewrite (keyat_lookup _ _ _ _ Hl).
  - destruct (dn_cells0 (p * 2 + 1)) as (r & Hr & Hrn); [lia|lia|].
    mstep (rd_Ok _ _ _ Hl). mstep (rd_Ok _ _ _ Hr).
    mstep (b_blockno_Ok m _ Hln). mstep (b_blockno_Ok m _ Hrn).
    assert (forall i, i / 2 = p -> i = p * 2 \/ i = p * 2 + 1) as Hi2 by lia.
    destruct (Z.ltb_spec (m (r_b r)) (m (r_b l))).
    + exists (p * 2 + 1), r. repeat (split; [done || lia|]). intros i Hi Hip.
      destruct (Hi2 i Hip) as [-> | ->]; erewrite keyat_lookup by done; lia.
    + exists (p * 2), l. repeat (split; [done || lia|]). intros i Hi Hip.
      destruct (Hi2 i Hip) as [-> | ->]; erewrite keyat_lookup by done; lia.
Qed.

Lemma down_inv_step m n x d p ch c :
  down_inv m n x d p -> p * 2 <= ch <= n -> ch / 2 = p ->
  zidx d ch = Some c -> r_b c <> BNull -> m (r_b c) <= m (r_b x) ->
  (forall i, 2 <= i <= n -> i / 2 = p -> m (r_b c) <= keyat m d i) ->
  down_inv m n x (<[Z.to_nat p := c]> d) ch.
Proof.
  intros [] Hch Hch2 Hc Hcn Hle Hmin.
  assert (forall i, i <> p -> keyat m (<[Z.to_nat p := c]> d) i = keyat m d i) as Hne
    by (intros; apply keyat_insert_ne; lia).
  assert (keyat m (<[Z.to_nat p := c]> d) p = m (r_b c)) as Heq
    by (apply keyat_insert_eq; lia).
  pose proof (keyat_lookup m d _ _ Hc) as Hkc.
  constructor.
  - by rewrite length_insert.
  - lia.
  - rewrite zidx_insert_ne by lia. done.
  - intros i Hi Hich. apply cell_ok_insert; [lia|done|]. intros. apply dn_cells0; lia.
  - intros i Hi Hich Hich2. destruct (decide (i = p)) as [->|].
    + rewrite Heq, Hne, <- Hkc by lia. apply dn_grand0; lia.
    + rewrite (Hne i) by done. destruct (decide (i / 2 = p)) as [E|].
      * rewrite E, Heq. by apply Hmin.
      * rewrite Hne by done. by apply dn_order0.
  - intros _. rewrite Hch2, Heq. done.
  - intros i Hi Hi2 _. rewrite Hch2, Heq, Hne, <- Hkc, <- Hi2 by lia.
    apply dn_order0; lia.
Qed.

Lemma down_inv_finish m n x d p :
  down_inv m n x d p -> m BTemp = 0 -> r_b x <> BNull ->
  (forall i, 2 <= i <= n -> i / 2 = p -> m (r_b x) <= keyat m d i) ->
  heap_wf m (mkHNode (<[Z.to_nat p := x]> d) n 128).
Proof.
  intros [] Ht Hx Hmin.
  assert (forall i, i <> p -> keyat m (<[Z.to_nat p := x]> d) i = keyat m d i) as Hne
    by (intros; apply keyat_insert_ne; lia).
  assert (keyat m (<[Z.to_nat p := x]> d) p = m (r_b x)) as Heq
    by (apply keyat_insert_eq; lia).
  constructor; simpl; try done; try lia.
  - by rewrite length_insert.
  - rewrite zidx_insert_ne by lia. done.
  - intros i Hi. apply cell_ok_insert; [lia|done|]. intros. apply dn_cells0; lia.
  - intros i Hi. destruct (decide (i = p)) as [->|].
    + rewrite Heq, Hne by lia. apply dn_parent0. lia.
    + rewrite (Hne i) by done. destruct (decide (i / 2 = p)) as [E|].
      * rewrite E, Heq. by apply Hmin.
      * rewrite Hne by done. by apply dn_order0.
Qed.

Lemma sift_down_spec m n x fuel d p :
  m BTemp = 0 -> r_b x <> BNull -> down_inv m n x d p ->
  2 * n + 2 <= p * 2 ^ Z.of_nat fuel ->
  exists d' p',
    sift_down fuel m d x n p = Ok (d', p') /\
    length d' = 128%nat /\ 1 <= p' <= Z.max 1 n /\
    heap_wf m (mkHNode (<[Z.to_nat p' := x]> d') n 128) /\
    cells (<[Z.to_nat p' := x]> d') n ≡ₚ cells (<[Z.to_nat p := x]> d) n.
Proof.
  intros Ht Hxn. revert d p. induction fuel as [|fuel IH]; intros d p HI Hf.
  { destruct HI. simpl in Hf. lia. }
  pose proof (dn_len _ _ _ _ _ HI). pose proof (dn_n _ _ _ _ _ HI).
  cbn [sift_down]. destruct (Z.leb_spec (p * 2) n) as [Hpn|].
  - destruct (pick_child_spec _ _ _ _ _ HI Hpn) as (ch & c & Hpick & Hch & Hch2 & Hc & Hcn & Hmin).
    mstep Hpick. mstep (rd_Ok _ _ _ Hc). mstep (b_blockno_Ok m _ Hcn).
    mstep (b_blockno_Ok m _ Hxn). destruct (Z.ltb_spec (m (r_b x)) (m (r_b c))).
    + exists d, p. repeat (split; [done || lia|]). split; [|done].
      eapply down_inv_finish; try done. intros i Hi Hip. specialize (Hmin i Hi Hip). lia.
    + rewrite wr_Ok by lia. cbn [mbind res_bind].
      destruct (IH _ ch (down_inv_step _ _ _ _ _ _ _ HI Hch Hch2 Hc Hcn ltac:(lia) Hmin))
        as (d' & p' & Hrun & Hlen & Hp' & Hwf & Hperm).
      { replace (Z.of_nat (S fuel)) with (Z.of_nat fuel + 1) in Hf by lia.
        rewrite Z.pow_add_r in Hf by lia. nia. }
      exists d', p'. repeat (split; [done || lia|]). etrans; [exact Hperm|].
      apply move_hole; try done; lia.
  - exists d, p. repeat (split; [done || lia|]). split; [|done].
    eapply down_inv_finish; try done. intros. lia.
Qed.

Lemma heap_wf_down_inv m h last :
  heap_wf m h -> 1 <= Size h -> zidx (data h) (Size h) = Some last ->
  down_inv m (Size h - 1) last (data h) 1.
Proof.
  intros [] Hs Hl. constructor; try done; try lia.
  - intros. apply wf_cells0. lia.
  - intros. apply wf_order0. lia.
Qed.

Lemma deleteFromMinHeap_spec fuel m h top :
  heap_wf m h -> zidx (data h) 1 = Some top -> 1 <= Size h -> (8 <= fuel)%nat ->
  exists h', deleteFromMinHeap fuel m h = Ok h' /\ heap_wf m h' /\
             Size h' = Size h - 1 /\ elems h ≡ₚ top :: elems h'.
Proof.
  intros Hwf Htop Hs Hf.
  destruct (wf_cells _ _ Hwf (Size h)) as (last & Hlast & Hln); [lia|].
  pose proof (heap_wf_down_inv _ _ _ Hwf Hs Hlast) as HI. destruct Hwf.
  destruct (sift_down_spec m (Size h - 1) last fuel _ _ wf_sentinel_key0 Hln HI)
    as (d' & p' & Hrun & Hlen & Hp' & Hwf' & Hperm).
  { assert (2 ^ 8 <= 2 ^ Z.of_nat fuel) by (apply Z.pow_le_mono_r; lia). lia. }
  exists (mkHNode (<[Z.to_nat p' := last]> d') (Size h - 1) 128).
  unfold deleteFromMinHeap. mstep (rd_Ok _ _ _ Hlast). mstep Hrun.
  rewrite wr_Ok by lia. cbn [mbind res_bind]. rewrite wf_capacity0.
  repeat (split; [done || lia|]).
  change (cells (data h) (Size h) ≡ₚ top :: cells (<[Z.to_nat p' := last]> d') (Size h - 1)).
  rewrite Hperm. replace (Size h) with (Size h - 1 + 1) in Hlast |- * by lia.
  rewrite (cells_snoc _ _ last) by (done || lia).
  replace (Size h - 1 + 1 - 1) with (Size h - 1) in * by lia.
  destruct (decide (Size h = 1)) as [E|].
  - replace (Size h - 1 + 1) with 1 in Hlast by lia. simplify_eq.
    replace (Size h - 1) with 0 by lia. done.
  - rewrite cells_insert by lia. pose proof (cells_lookup _ (Size h - 1) 1 _ ltac:(lia) Htop) as Ht.
    destruct (cells (data h) (Size h - 1)) as [|t rest]; [done|].
    simpl in Ht |- *. injection Ht as ->. f_equiv. symmetry. apply Permutation_cons_append.
Qed.

(** ** The heap as a priority queue *)

Lemma heap_top_min m h i :
  heap_wf m h -> 1 <= i <= Size h -> keyat m (data h) 1 <= keyat m (data h) i.
Proof.
  intros Hwf. destruct (decide (0 <= i)); [|lia].
  induction i as [i IH] using (well_founded_induction (Z.lt_wf 0)); intros Hi.
  destruct (decide (i = 1)) as [->|]; [done|].
  etrans; [apply (IH (i / 2)); lia|]. apply (wf_order _ _ Hwf). lia.
Qed.

Lemma elem_of_elems h r :
  Z.of_nat (length (data h)) = 128 -> 0 <= Size h <= 127 ->
  r ∈ elems h <-> exists i, 1 <= i <= Size h /\ zidx (data h) i = Some r.
Proof.
  intros Hl Hs. unfold elems. rewrite list_elem_of_lookup. split.
  - intros (k & Hk). pose proof (lookup_lt_Some _ _ _ Hk) as Hlt.
    rewrite length_take, length_drop in Hlt.
    rewrite lookup_take_lt, lookup_drop in Hk by lia.
    exists (Z.of_nat (1 + k)). split; [lia|]. apply zidx_Some.
    rewrite Nat2Z.id. split; [lia|done].
  - intros (i & Hi & Hz). exists (Z.to_nat i - 1)%nat.
    by apply (cells_lookup _ (Size h)).
Qed.

(** The order in which the completion interrupt takes [k] requests off the
    heap ([virtio_disk_intr] with IO_type 1 pops the top once per run). *)
Fixpoint serve (fuel k : nat) (m : bufmem) (h : HNode) : res (list req) :=
  match k with
  | O => Ok []
  | S k =>
      t ← rd (data h) 1;
      h' ← deleteFromMinHeap fuel m h;
      l ← serve fuel k m h';
      Ok (t :: l)
  end.

Definition by_block (m : bufmem) (a b : req) : Prop := m (r_b a) <= m (r_b b).

Lemma elems_length m h : heap_wf m h -> length (elems h) = Z.to_nat (Size h).
Proof. intros []. unfold elems. rewrite length_take, length_drop. lia. Qed.

Lemma heap_top m h :
  heap_wf m h -> 1 <= Size h ->
  exists t, zidx (data h) 1 = Some t /\ r_b t <> BNull /\
            Forall (by_block m t) (elems h).
Proof.
  intros Hwf Hs. destruct (wf_cells _ _ Hwf 1) as (t & Ht & Htn); [lia|].
  exists t. split; [done|]. split; [done|]. apply Forall_forall. intros r Hr.
  apply elem_of_elems in Hr as (i & Hi & Hz); [|destruct Hwf; lia..].
  unfold by_block. rewrite <- (keyat_lookup m _ _ _ Ht), <- (keyat_lookup m _ _ _ Hz).
  by apply heap_top_min.
Qed.

Lemma heap_init_wf m : m BTemp = 0 -> heap_wf m heap_init.
Proof. intros Ht. constructor; simpl; done || lia. Qed.

(** ** Theorems *)

(** inserting a request into a well-formed heap with a free cell
    terminates, keeps the heap well formed (sentinel, heap order, no NULL
    buffer), and adds exactly that request.  Seven rounds of the loop suffice
    for the 127 usable cells. *)
Theorem insertMinHeap_correct fuel m h x
    (Hwf : heap_wf m h) (Hroom : Size h < 127) (Hx : r_b x <> BNull)
    (Hm : bufmem_ok m) (Hf : (7 <= fuel)%nat) :
  exists h', insertMinHeap fuel m h x = Ok h' /\ heap_wf m h' /\
             Size h' = Size h + 1 /\ elems h' ≡ₚ x :: elems h.
Proof. apply insertMinHeap_spec; try done. apply Hm. Qed.

Definition demo_mem : bufmem := fun b =>
  match b with BBuf i => Z.of_nat (50 - i) | _ => 0 end.

Lemma demo_mem_ok : bufmem_ok demo_mem.
Proof. intros [| |i]; simpl; lia. Qed.

Lemma insertMinHeap_correct_witness :
  exists h', insertMinHeap 7 demo_mem heap_init (mkreq (BBuf 3) 0) = Ok h' /\
    heap_wf demo_mem h' /\ Size h' = 1 /\ elems h' ≡ₚ [mkreq (BBuf 3) 0].
Proof.
  exact (insertMinHeap_correct 7 demo_mem heap_init (mkreq (BBuf 3) 0)
    (heap_init_wf demo_mem eq_refl) eq_refl ltac:(discriminate) demo_mem_ok ltac:(lia)).
Defined.

(** C37: the capacity test of [insertMinHeap] comes one request too late: with
    127 requests waiting (Capacity is 128 and cell 0 is the sentinel) the
    insertion of any request is an access outside [data], not the intended
    [panic]. *)
Theorem insertMinHeap_overflows_when_full fuel m h x
    (Hwf : heap_wf m h) (Hfull : Size h = 127) (Hx : r_b x <> BNull)
    (Hf : (1 <= fuel)%nat) :
  insertMinHeap fuel m h x = Fault "array write".
Proof.
  unfold insertMinHeap. destruct Hwf. rewrite Hfull, wf_capacity0.
  cbn [Z.eqb Pos.eqb]. destruct fuel as [|fuel]; [lia|]. cbn [sift_up].
  destruct (wf_cells0 64) as (q & Hq & Hqn); [lia|].
  change ((127 + 1) ÷ 2) with 64. mstep (rd_Ok _ _ _ Hq).
  mstep (b_blockno_Ok m _ Hqn). mstep (b_blockno_Ok m _ Hx).
  destruct (_ <? _); [rewrite wr_Fault by lia; done|].
  cbn [mbind res_bind]. by rewrite wr_Fault by lia.
Qed.

(** The heap that holds the 127 requests of equal block number. *)
Definition full_heap : HNode :=
  mkHNode (heap_sentinel :: replicate 127 (mkreq (BBuf 50) 0)) 127 128.

Lemma full_heap_wf : heap_wf demo_mem full_heap.
Proof.
  assert (forall i, 1 <= i <= 127 -> zidx (data full_heap) i = Some (mkreq (BBuf 50) 0)) as H.
  { intros i Hi. apply zidx_Some. split; [lia|]. unfold full_heap, data.
    replace (Z.to_nat i) with (S (Z.to_nat (i - 1))) by lia. simpl lookup.
    apply (lookup_replicate_2 127). lia. }
  constructor; try (simpl; done || lia).
  - intros i Hi. exists (mkreq (BBuf 50) 0). split; [by apply H|done].
  - intros i Hi. cbn [Size full_heap] in Hi.
    rewrite (keyat_lookup _ _ _ _ (H (i / 2) ltac:(lia))).
    by rewrite (keyat_lookup _ _ _ _ (H i ltac:(lia))).
Qed.

Lemma insertMinHeap_overflows_when_full_witness :
  insertMinHeap 9 demo_mem full_heap (mkreq (BBuf 0) 0) = Fault "array write".
Proof.
  exact (insertMinHeap_overflows_when_full 9 demo_mem full_heap (mkreq (BBuf 0) 0)
    full_heap_wf eq_refl ltac:(discriminate) ltac:(lia)).
Defined.

(** deleting from a well-formed non-empty heap terminates, keeps the heap
    well formed and removes exactly one request, the one in cell 1, which has
    the smallest block number of all. *)
Theorem deleteFromMinHeap_correct fuel m h
    (Hwf : heap_wf m h) (Hne : 1 <= Size h) (Hf : (8 <= fuel)%nat) :
  exists h' top, deleteFromMinHeap fuel m h = Ok h' /\ heap_wf m h' /\
    Size h' = Size h - 1 /\ rd (data h) 1 = Ok top /\
    elems h ≡ₚ top :: elems h' /\ Forall (by_block m top) (elems h').
Proof.
  destruct (heap_top m h Hwf Hne) as (t & Ht & _ & Hmin).
  destruct (deleteFromMinHeap_spec fuel m h t Hwf Ht Hne Hf) as (h' & ? & ? & ? & Hp).
  exists h', t. repeat (split; [done|]). split; [by apply rd_Ok|]. split; [done|].
  rewrite Hp in Hmin. by inversion Hmin.
Qed.

Lemma deleteFromMinHeap_correct_witness :
  exists h' top, deleteFromMinHeap 8 demo_mem full_heap = Ok h' /\
    heap_wf demo_mem h' /\ Size h' = 126 /\ rd (data full_heap) 1 = Ok top /\
    elems full_heap ≡ₚ top :: elems h' /\ Forall (by_block demo_mem top) (elems h').
Proof.
  exact (deleteFromMinHeap_correct 8 demo_mem full_heap full_heap_wf
    ltac:(simpl; lia) ltac:(lia)).
Defined.

Lemma serve_sorted fuel m k h :
  (8 <= fuel)%nat -> heap_wf m h -> Z.of_nat k = Size h ->
  exists l, serve fuel k m h = Ok l /\ l ≡ₚ elems h /\ StronglySorted (by_block m) l.
Proof.
  intros Hf. revert h. induction k as [|k IH]; intros h Hwf Hk.
  - exists []. split; [done|]. split; [|constructor].
    symmetry. apply Permutation_nil_r. apply nil_length_inv.
    rewrite (elems_length m) by done. lia.
  - destruct (heap_top m h Hwf) as (t & Ht & _ & Hmin); [lia|].
    destruct (deleteFromMinHeap_spec fuel m h t Hwf Ht) as (h' & Hrun & Hwf' & Hs & Hp); [lia|done|].
    destruct (IH h' Hwf') as (l & Hl & Hlp & Hsort); [lia|].
    exists (t :: l). cbn [serve]. mstep (rd_Ok _ _ _ Ht). mstep Hrun. mstep Hl.
    split; [done|]. rewrite Hp in Hmin |- *. split; [by rewrite Hlp|].
    constructor; [done|]. rewrite Hlp. by inversion Hmin.
Qed.

(** C34: the heap is a correct priority queue: draining a well-formed heap
    serves every waiting request exactly once, in ascending block order. *)
Theorem heap_serves_in_block_order fuel m h
    (Hwf : heap_wf m h) (Hf : (8 <= fuel)%nat) :
  exists l, serve fuel (Z.to_nat (Size h)) m h = Ok l /\ l ≡ₚ elems h /\
            StronglySorted (by_block m) l.
Proof. apply serve_sorted; [done..|]. destruct Hwf. lia. Qed.

Lemma heap_serves_in_block_order_witness :
  exists l, serve 8 (Z.to_nat (Size full_heap)) demo_mem full_heap = Ok l /\
    l ≡ₚ elems full_heap /\ StronglySorted (by_block demo_mem) l.
Proof. exact (heap_serves_in_block_order 8 demo_mem full_heap full_heap_wf ltac:(lia)). Defined.

Lemma sift_up_loops fuel m d b a :
  zidx d 0 = Some a -> r_b a <> BNull -> r_b b <> BNull -> m (r_b b) < m (r_b a) ->
  (1 <= length d)%nat -> sift_up fuel m d b 0 = Hang.
Proof.
  intros Ha Han Hbn Hlt Hl. revert d Ha Hl.
  induction fuel as [|fuel IH]; intros d Ha Hl; [done|].
  cbn [sift_up]. change (0 ÷ 2) with 0. mstep (rd_Ok _ _ _ Ha).
  mstep (b_blockno_Ok m _ Han). mstep (b_blockno_Ok m _ Hbn).
  destruct (Z.ltb_spec (m (r_b b)) (m (r_b a))); [|lia].
  rewrite wr_Ok by lia. cbn [mbind res_bind]. apply IH.
  - apply (zidx_insert_eq d 0). lia.
  - by rewrite length_insert.
Qed.

(** [deleteFromMinHeap] has no emptiness test.  On an empty heap it sets
    Size to -1; the next insertion then overwrites the sentinel, and from
    there the insertion of any request with a smaller block number never
    terminates, however much fuel the loop is given. *)
Theorem delete_from_empty_heap_loops_insert m h a b
    (Hwf : heap_wf m h) (Hempty : Size h = 0) (Hm : bufmem_ok m)
    (Ha : r_b a <> BNull) (Hb : r_b b <> BNull) (Hlt : m (r_b b) < m (r_b a)) :
  exists h1 h2, deleteFromMinHeap 1 m h = Ok h1 /\ Size h1 = -1 /\
    insertMinHeap 1 m h1 a = Ok h2 /\ zidx (data h2) 0 = Some a /\
    forall fuel, insertMinHeap fuel m h2 b = Hang.
Proof.
  destruct Hwf. set (d1 := <[1%nat := heap_sentinel]> (data h)).
  exists (mkHNode d1 (-1) 128), (mkHNode (<[0%nat := a]> d1) 0 128).
  assert (length d1 = 128%nat) as Hd1 by (unfold d1; by rewrite length_insert).
  assert (zidx d1 0 = Some heap_sentinel) as H0.
  { unfold d1. rewrite <- wf_sentinel0. by apply (zidx_insert_ne (data h) 1 0). }
  split; [|split; [done|split; [|split]]].
  - unfold deleteFromMinHeap. rewrite Hempty, wf_capacity0.
    mstep (rd_Ok _ _ _ wf_sentinel0). cbn [sift_down].
    change (1 * 2 <=? 0 - 1) with false. cbn [mbind res_bind].
    by rewrite wr_Ok by lia.
  - unfold insertMinHeap. cbn [Size Capacity data Z.eqb sift_up].
    change ((-1 + 1) ÷ 2) with 0. mstep (rd_Ok _ _ _ H0).
    cbn [b_blockno heap_sentinel r_b]. mstep (b_blockno_Ok m _ Ha).
    destruct (Z.ltb_spec (m (r_b a)) (m BTemp)); [destruct (Hm (r_b a)); lia|].
    cbn [mbind res_bind]. by rewrite wr_Ok by lia.
  - apply (zidx_insert_eq d1 0). lia.
  - intros fuel. unfold insertMinHeap. cbn [Size Capacity data Z.eqb Z.add].
    destruct fuel as [|fuel]; [done|]. cbn [sift_up]. change (1 ÷ 2) with 0.
    rewrite (rd_Ok _ 0 a) by (apply (zidx_insert_eq d1 0); lia). cbn [mbind res_bind].
    mstep (b_blockno_Ok m _ Ha). mstep (b_blockno_Ok m _ Hb).
    destruct (Z.ltb_spec (m (r_b b)) (m (r_b a))); [|lia].
    rewrite wr_Ok by (rewrite length_insert; lia). cbn [mbind res_bind].
    rewrite (sift_up_loops _ _ _ _ a); try done.
    + rewrite (zidx_insert_ne _ 1 0) by lia. apply (zidx_insert_eq d1 0). lia.
    + rewrite !length_insert. lia.
Qed.

Lemma delete_from_empty_heap_loops_insert_witness :
  exists h1 h2, deleteFromMinHeap 1 demo_mem heap_init = Ok h1 /\ Size h1 = -1 /\
    insertMinHeap 1 demo_mem h1 (mkreq (BBuf 2) 0) = Ok h2 /\
    zidx (data h2) 0 = Some (mkreq (BBuf 2) 0) /\
    forall fuel, insertMinHeap fuel demo_mem h2 (mkreq (BBuf 7) 1) = Hang.
Proof.
  exact (delete_from_empty_heap_loops_insert demo_mem heap_init
    (mkreq (BBuf 2) 0) (mkreq (BBuf 7) 1) (heap_init_wf demo_mem eq_refl) eq_refl
    demo_mem_ok ltac:(discriminate) ltac:(discriminate) eq_refl).
Defined.
