(* ===== verification/Sstf.v ===== *)
(** * The shortest-seek-first queue of the I/O scheduler (IO_type 2)

    kernel/virtio_disk.c, [distance], [SSTF], [enqueue] and [dequeue]: an
    array whose cell 0 is the request being served and whose cell 1 is kept
    the nearest to it. *)

From S2P Require Import Prelude Request.

(** [struct Queue] *)
Record Queue : Type := mkQueue { q_data : list req; q_size : Z; q_capacity : Z }.

(** [distance]: the difference of two [uint]s stored in an [int]; negating
    the least [int] overflows. *)
Definition distance (m : bufmem) (x y : req) : res Z :=
  kx ← b_blockno m (r_b x);
  ky ← b_blockno m (r_b y);
  let delta := s32 (u32 (kx - ky)) in
  if 0 <=? delta then Ok delta
  else if delta =? - 2 ^ 31 then Fault "signed overflow"
  else Ok (- delta).

(** [k] more rounds of the loop of [SSTF], from index [i]. *)
Fixpoint SSTF_from (k : nat) (m : bufmem) (d : list req) (i : Z) : res (list req) :=
  match k with
  | O => Ok d
  | S k =>
      d0 ← rd d 0;
      di ← rd d i;
      d1 ← rd d 1;
      di0 ← distance m d0 di;
      d10 ← distance m d0 d1;
      d' ← (if di0 <? d10 then d2 ← wr d i d1; wr d2 1 di else Ok d);
      SSTF_from k m d' (i + 1)
  end.

Definition SSTF (m : bufmem) (q : Queue) : res Queue :=
  d ← SSTF_from (Z.to_nat (q_size q - 1)) m (q_data q) 1;
  Ok (mkQueue d (q_size q) (q_capacity q)).

Definition enqueue (m : bufmem) (q : Queue) (x : req) : res Queue :=
  if q_size q =? q_capacity q then Panic "queue out of capacity"
  else
    d ← wr (q_data q) (q_size q) x;
    SSTF m (mkQueue d (q_size q + 1) (q_capacity q)).

(** [k] more rounds of the loop of [dequeue], from index [i]. *)
Fixpoint shift_from (k : nat) (d : list req) (i : Z) : res (list req) :=
  match k with
  | O => Ok d
  | S k =>
      x ← rd d (i + 1);
      d' ← wr d i x;
      shift_from k d' (i + 1)
  end.

Definition dequeue (m : bufmem) (q : Queue) : res Queue :=
  d ← shift_from (Z.to_nat (q_size q - 1)) (q_data q) 0;
  SSTF m (mkQueue d (q_size q - 1) (q_capacity q)).

(** The queue as [virtio_disk_init] leaves it. *)
Definition queue_init : Queue := mkQueue (replicate 128 req0) 0 128.

(** ** Specification *)

(** Block numbers of the disk are far below 2^31. *)
Definition bufmem_small (m : bufmem) : Prop := forall b, 0 <= m b < 2 ^ 31.

Definition dist (m : bufmem) (x y : req) : Z := Z.abs (m (r_b x) - m (r_b y)).

(** The waiting requests, cells 0..size-1. *)
Definition items (q : Queue) : list req := take (Z.to_nat (q_size q)) (q_data q).

Definition nearest (m : bufmem) (x y : req) (l : list req) : Prop :=
  Forall (fun z => dist m x y <= dist m x z) l.

(** Cell 1 is the nearest to cell 0. *)
Definition sstf_order (m : bufmem) (l : list req) : Prop :=
  match l with
  | x :: y :: l' => nearest m x y l'
  | _ => True
  end.

Record queue_wf (m : bufmem) (q : Queue) : Prop := {
  qwf_length : length (q_data q) = 128%nat;
  qwf_capacity : q_capacity q = 128;
  qwf_size : 0 <= q_size q <= 128;
  qwf_cells : Forall (fun r => r_b r <> BNull) (items q);
  qwf_order : sstf_order m (items q);
}.

(** ** Lemmas *)

Lemma distance_abs m x y :
  bufmem_small m -> r_b x <> BNull -> r_b y <> BNull ->
  distance m x y = Ok (dist m x y).
Proof.
  intros Hm Hx Hy. unfold distance, dist. mstep (b_blockno_Ok m _ Hx).
  mstep (b_blockno_Ok m _ Hy). pose proof (Hm (r_b x)). pose proof (Hm (r_b y)).
  assert (s32 (u32 (m (r_b x) - m (r_b y))) = m (r_b x) - m (r_b y)) as ->.
  { unfold s32, u32. rewrite Zplus_mod_idemp_l, Z.mod_small; lia. }
  destruct (Z.leb_spec 0 (m (r_b x) - m (r_b y))); [f_equal; lia|].
  destruct (Z.eqb_spec (m (r_b x) - m (r_b y)) (- 2 ^ 31)); [lia|f_equal; lia].
Qed.

(** The loop on the list [x :: y :: done ++ rest] of waiting requests: a pure
    reading of [SSTF_from]. *)
Fixpoint sstf_pass (m : bufmem) (x y : req) (done rest : list req) : list req :=
  match rest with
  | [] => x :: y :: done
  | z :: rest =>
      if dist m x z <? dist m x y
      then sstf_pass m x z (done ++ [y]) rest
      else sstf_pass m x y (done ++ [z]) rest
  end.

Lemma rd_app_here {A} (l : list A) a l' i :
  i = Z.of_nat (length l) -> rd (l ++ a :: l') i = Ok a.
Proof.
  intros ->. apply rd_Ok, zidx_Some. split; [lia|].
  rewrite Nat2Z.id. by apply list_lookup_middle.
Qed.

Lemma wr_app_here {A} (l : list A) a l' i b :
  i = Z.of_nat (length l) -> wr (l ++ a :: l') i b = Ok (l ++ b :: l').
Proof.
  intros ->. rewrite wr_Ok by (rewrite length_app; simpl; lia).
  rewrite Nat2Z.id. by rewrite insert_app_r_alt, Nat.sub_diag by lia.
Qed.

(** The accesses of one round of [SSTF]. *)
Lemma rd_cell0 {A} (x : A) l : rd (x :: l) 0 = Ok x.
Proof. done. Qed.

Lemma rd_cell1 {A} (x y : A) l : rd (x :: y :: l) 1 = Ok y.
Proof. done. Qed.

Lemma wr_cell1 {A} (x y z : A) l : wr (x :: y :: l) 1 z = Ok (x :: z :: l).
Proof. rewrite wr_Ok by (simpl; lia). done. Qed.

Lemma rd_celli {A} (x y z : A) dn l i :
  i = Z.of_nat (length dn) + 2 -> rd (x :: y :: dn ++ z :: l) i = Ok z.
Proof. intros ->. apply (rd_app_here (x :: y :: dn)). simpl. lia. Qed.

Lemma wr_celli {A} (x y z w : A) dn l i :
  i = Z.of_nat (length dn) + 2 ->
  wr (x :: y :: dn ++ z :: l) i w = Ok (x :: y :: dn ++ w :: l).
Proof. intros ->. apply (wr_app_here (x :: y :: dn)). simpl. lia. Qed.

Lemma SSTF_from_pass m x y dn rest tl i :
  bufmem_small m ->
  Forall (fun r => r_b r <> BNull) (x :: y :: dn ++ rest) ->
  i = Z.of_nat (length dn) + 2 ->
  SSTF_from (length rest) m (x :: y :: dn ++ rest ++ tl) i =
  Ok (sstf_pass m x y dn rest ++ tl).
Proof.
  intros Hm. revert y dn i. induction rest as [|z rest IH]; intros y dn i Hall Hi.
  { done. }
  cbn [length SSTF_from sstf_pass].
  assert (Hsplit : Forall (fun r => r_b r <> BNull) [x; y; z] /\
                   Forall (fun r => r_b r <> BNull) (dn ++ rest)).
  { rewrite !Forall_cons in Hall |- *. rewrite !Forall_app, Forall_cons in *.
    intuition constructor. }
  destruct Hsplit as [Hxyz Hdr]. rewrite !Forall_cons in Hxyz.
  destruct Hxyz as (Hx & Hy & Hz & _).
  cbn [app]. rewrite rd_cell0, (rd_celli _ _ _ _ _ i), rd_cell1 by lia. cbn [mbind res_bind].
  rewrite !distance_abs by done. cbn [mbind res_bind]. destruct (_ <? _).
  - rewrite wr_celli by lia. cbn [mbind res_bind]. rewrite wr_cell1. cbn [mbind res_bind].
    rewrite (cons_middle y dn), app_assoc. apply IH; [|rewrite length_app; simpl; lia].
    rewrite <- app_assoc. rewrite Forall_app in Hdr.
    rewrite !Forall_cons, Forall_app, Forall_app, Forall_singleton. tauto.
  - cbn [mbind res_bind]. rewrite (cons_middle z dn), app_assoc.
    apply IH; [|rewrite length_app; simpl; lia].
    rewrite <- app_assoc. rewrite Forall_app in Hdr.
    rewrite !Forall_cons, Forall_app, Forall_app, Forall_singleton. tauto.
Qed.

Lemma sstf_pass_perm m x y dn rest :
  exists y' l, sstf_pass m x y dn rest = x :: y' :: l /\
               y' :: l ≡ₚ y :: dn ++ rest /\
               (nearest m x y dn -> nearest m x y' l).
Proof.
  revert y dn. induction rest as [|z rest IH]; intros y dn; cbn [sstf_pass].
  { exists y, dn. by rewrite app_nil_r. }
  destruct (Z.ltb_spec (dist m x z) (dist m x y)).
  - destruct (IH z (dn ++ [y])) as (y' & l & -> & Hp & Hn).
    exists y', l. split; [done|]. split; [rewrite Hp; solve_Permutation|].
    intros Hnear. apply Hn. apply Forall_app. split; [|by repeat constructor; lia].
    eapply Forall_impl; [exact Hnear|]. simpl. lia.
  - destruct (IH y (dn ++ [z])) as (y' & l & -> & Hp & Hn).
    exists y', l. split; [done|]. split; [rewrite Hp; solve_Permutation|].
    intros Hnear. apply Hn. apply Forall_app. split; [done|by repeat constructor; lia].
Qed.

Lemma SSTF_spec m l tl cap :
  bufmem_small m -> Forall (fun r => r_b r <> BNull) l ->
  exists l', SSTF m (mkQueue (l ++ tl) (Z.of_nat (length l)) cap) =
               Ok (mkQueue (l' ++ tl) (Z.of_nat (length l)) cap) /\
             l' ≡ₚ l /\ head l' = head l /\ sstf_order m l'.
Proof.
  intros Hm Hl. unfold SSTF. cbn [q_size q_data q_capacity].
  destruct l as [|x [|y rest]]; [by exists []|by exists [x]|].
  destruct (sstf_pass_perm m x y [] rest) as (y' & l' & Hpass & Hp & Hn).
  exists (x :: y' :: l'). replace (Z.to_nat _) with (S (length rest)) by (simpl; lia).
  cbn [SSTF_from app]. rewrite rd_cell0. cbn [mbind res_bind]. rewrite rd_cell1.
  cbn [mbind res_bind]. inversion_clear Hl as [|?? Hx Hl']. inversion_clear Hl' as [|?? Hy Hr].
  rewrite !distance_abs by done. cbn [mbind res_bind]. rewrite Z.ltb_irrefl.
  cbn [mbind res_bind].
  pose proof (SSTF_from_pass m x y [] rest tl 2 Hm ltac:(by repeat constructor) eq_refl) as Hrun.
  cbn [app] in Hrun. change (1 + 1) with 2. mstep Hrun. rewrite Hpass. split; [done|].
  split; [by rewrite Hp|]. split; [done|]. apply Hn. constructor.
Qed.

Lemma shift_from_spec pre x l tl i :
  i = Z.of_nat (length pre) ->
  exists z, shift_from (length l) (pre ++ x :: l ++ tl) i = Ok (pre ++ l ++ z :: tl).
Proof.
  revert pre x i. induction l as [|y l IH]; intros pre x i Hi; cbn [length shift_from].
  { by exists x. }
  rewrite (rd_Ok _ _ y).
  2: { apply zidx_Some. split; [lia|]. rewrite Hi, lookup_app_r by lia.
       by replace (Z.to_nat _ - length pre)%nat with 1%nat by lia. }
  cbn [mbind res_bind]. rewrite wr_app_here by done. cbn [mbind res_bind].
  destruct (IH (pre ++ [y]) y (i + 1)) as (z & Hz); [rewrite length_app; simpl; lia|].
  exists z. rewrite <- !app_assoc in Hz. exact Hz.
Qed.

(** A well-formed queue is its waiting list followed by free cells. *)
Lemma queue_view m q :
  queue_wf m q -> exists tl, q = mkQueue (items q ++ tl) (Z.of_nat (length (items q))) 128 /\
    length (items q ++ tl) = 128%nat.
Proof.
  intros []. exists (drop (Z.to_nat (q_size q)) (q_data q)).
  assert (length (items q) = Z.to_nat (q_size q)) as Hl
    by (unfold items; rewrite length_take; lia).
  unfold items in *. rewrite take_drop. split; [|done].
  rewrite Hl. destruct q. simpl in *. subst. f_equal. lia.
Qed.

Lemma items_app l tl cap : items (mkQueue (l ++ tl) (Z.of_nat (length l)) cap) = l.
Proof. unfold items. simpl. rewrite Nat2Z.id. apply take_app_length. Qed.

Lemma queue_wf_app m l tl :
  length (l ++ tl) = 128%nat -> Forall (fun r => r_b r <> BNull) l -> sstf_order m l ->
  queue_wf m (mkQueue (l ++ tl) (Z.of_nat (length l)) 128).
Proof.
  intros Hlen Hl Ho. constructor; rewrite ?items_app; try done.
  rewrite length_app in Hlen. simpl. lia.
Qed.

Lemma enqueue_spec m q x :
  bufmem_small m -> queue_wf m q -> q_size q < 128 -> r_b x <> BNull ->
  exists q', enqueue m q x = Ok q' /\ queue_wf m q' /\
    items q' ≡ₚ items q ++ [x] /\ head (items q') = head (items q ++ [x]).
Proof.
  intros Hm Hwf Hs Hx. destruct (queue_view m q Hwf) as (tl & Hq & Hlen).
  pose proof (qwf_cells _ _ Hwf) as Hcells. rewrite Hq in Hs |- *. clear Hq Hwf.
  rewrite items_app. set (l := items q) in *. clearbody l. simpl in Hs.
  destruct tl as [|t tl]; [rewrite length_app in Hlen; simpl in Hlen; lia|].
  destruct (SSTF_spec m (l ++ [x]) tl 128 Hm) as (l' & Hrun & Hp & Hh & Ho).
  { apply Forall_app. by repeat constructor. }
  exists (mkQueue (l' ++ tl) (Z.of_nat (length l')) 128).
  assert (length l' = S (length l)) as Hl'
    by (rewrite Hp, length_app; simpl; lia).
  unfold enqueue. cbn [q_size q_capacity q_data].
  destruct (Z.eqb_spec (Z.of_nat (length l)) 128); [lia|].
  rewrite wr_app_here by done. cbn [mbind res_bind].
  rewrite <- app_assoc in Hrun. rewrite length_app in Hrun. simpl in Hrun.
  replace (Z.of_nat (length l) + 1) with (Z.of_nat (length l + 1)) by lia.
  rewrite Hrun, items_app. split; [do 2 f_equal; lia|]. split; [|done].
  apply queue_wf_app; [|rewrite Hp; apply Forall_app; by repeat constructor|done].
  rewrite length_app in *. simpl in *. lia.
Qed.

Lemma dequeue_spec m q x l :
  bufmem_small m -> queue_wf m q -> items q = x :: l ->
  exists q', dequeue m q = Ok q' /\ queue_wf m q' /\
    items q' ≡ₚ l /\ head (items q') = head l.
Proof.
  intros Hm Hwf Hi. destruct (queue_view m q Hwf) as (tl & Hq & Hlen).
  pose proof (qwf_cells _ _ Hwf) as Hcells. rewrite Hi in *. rewrite Hq. clear Hq Hwf.
  inversion_clear Hcells as [|?? Hx Hl].
  destruct (shift_from_spec [] x l tl 0 eq_refl) as (z & Hz).
  destruct (SSTF_spec m l (z :: tl) 128 Hm Hl) as (l' & Hrun & Hp & Hh & Ho).
  exists (mkQueue (l' ++ z :: tl) (Z.of_nat (length l')) 128).
  unfold dequeue. cbn [q_size q_capacity q_data length app].
  replace (Z.to_nat (Z.of_nat (S (length l)) - 1)) with (length l) by lia.
  replace (Z.of_nat (S (length l)) - 1) with (Z.of_nat (length l)) by lia.
  cbn [app] in Hz. mstep Hz. rewrite Hrun, items_app.
  pose proof (Permutation_length Hp) as Hl'. rewrite Hl'. split; [done|]. split; [|done].
  rewrite <- Hl'. apply queue_wf_app; [|by rewrite Hp|done].
  rewrite length_app in *. simpl in *. lia.
Qed.

(** Serving the queue to its end: each completion interrupt calls
    [dequeue] and the request in cell 0 is next. *)
Fixpoint sstf_serve (k : nat) (m : bufmem) (q : Queue) : res (list req) :=
  match k with
  | O => Ok []
  | S k =>
      x ← rd (q_data q) 0;
      q' ← dequeue m q;
      l ← sstf_serve k m q';
      Ok (x :: l)
  end.

(** Every request is followed by one that is nearest to it among all those
    still waiting. *)
Inductive greedy (m : bufmem) : list req -> Prop :=
| greedy_nil : greedy m []
| greedy_one x : greedy m [x]
| greedy_cons x y l : nearest m x y l -> greedy m (y :: l) -> greedy m (x :: y :: l).

Lemma sstf_order_nearest m x l l' :
  sstf_order m (x :: l) -> l' ≡ₚ l -> head l' = head l ->
  match l' with [] => True | y :: r => nearest m x y r end.
Proof.
  destruct l as [|y l]; intros Ho Hp Hh.
  - apply Permutation_nil_r in Hp as ->. done.
  - destruct l' as [|y' r]; [done|]. simpl in Hh. injection Hh as ->.
    apply Permutation_cons_inv in Hp. simpl in Ho. unfold nearest. by rewrite Hp.
Qed.

Lemma sstf_serve_spec m k q :
  bufmem_small m -> queue_wf m q -> k = length (items q) ->
  exists l, sstf_serve k m q = Ok l /\ l ≡ₚ items q /\ head l = head (items q) /\ greedy m l.
Proof.
  intros Hm. revert q. induction k as [|k IH]; intros q Hwf Hk.
  { exists []. symmetry in Hk. apply nil_length_inv in Hk. rewrite Hk. repeat (split; [done|]). constructor. }
  destruct (items q) as [|x l] eqn:Hi; [done|]. injection Hk as Hk.
  destruct (dequeue_spec m q x l Hm Hwf Hi) as (q' & Hrun & Hwf' & Hp & Hh).
  destruct (IH q' Hwf') as (s & Hs & Hsp & Hsh & Hg); [by rewrite Hp|].
  exists (x :: s). destruct (queue_view m q Hwf) as (tl & Hq & _).
  cbn [sstf_serve]. rewrite Hq at 1. cbn [q_data]. rewrite Hi. cbn [app].
  rewrite rd_cell0. cbn [mbind res_bind]. mstep Hrun. mstep Hs. split; [done|].
  split; [by rewrite Hsp, Hp|]. split; [done|].
  pose proof (qwf_order _ _ Hwf) as Ho. rewrite Hi in Ho.
  pose proof (sstf_order_nearest m x l s Ho ltac:(by rewrite Hsp) ltac:(by rewrite Hsh)) as Hn.
  destruct s as [|y s]; constructor; done.
Qed.

(** ** Theorems *)

(** [enqueue] panics exactly when the queue holds [capacity] requests;
    otherwise it succeeds, keeps the queue well formed with cell 1 nearest to
    cell 0, adds exactly the new request, and never displaces the request in
    cell 0 that is being served. *)
Theorem enqueue_correct m q x
    (Hm : bufmem_small m) (Hwf : queue_wf m q) (Hx : r_b x <> BNull) :
  (q_size q = 128 /\ enqueue m q x = Panic "queue out of capacity") \/
  (q_size q < 128 /\ exists q', enqueue m q x = Ok q' /\ queue_wf m q' /\
     items q' ≡ₚ items q ++ [x] /\ head (items q') = head (items q ++ [x])).
Proof.
  pose proof (qwf_size _ _ Hwf). destruct (decide (q_size q = 128)) as [E|].
  - left. split; [done|]. unfold enqueue.
    by rewrite E, (qwf_capacity _ _ Hwf).
  - right. split; [lia|]. apply enqueue_spec; [done..|lia|done].
Qed.

Definition sstf_mem : bufmem := fun b =>
  match b with BBuf i => Z.of_nat (if (i <? 100)%nat then i else 0) | _ => 0 end.

Lemma sstf_mem_small : bufmem_small sstf_mem.
Proof. intros [| |i]; simpl; [lia|lia|]. destruct (Nat.ltb_spec i 100); lia. Qed.

Definition sstf_demo : Queue :=
  mkQueue ([mkreq (BBuf 20) 0; mkreq (BBuf 25) 0; mkreq (BBuf 3) 1; mkreq (BBuf 90) 0]
           ++ replicate 124 req0) 4 128.

Lemma sstf_demo_wf : queue_wf sstf_mem sstf_demo.
Proof.
  constructor; try (simpl; done || lia).
  - unfold items. cbn. repeat constructor; done.
  - unfold items. cbn. repeat constructor; cbv; done.
Qed.

Lemma enqueue_correct_witness :
  (q_size sstf_demo = 128 /\
     enqueue sstf_mem sstf_demo (mkreq (BBuf 22) 0) = Panic "queue out of capacity") \/
  (q_size sstf_demo < 128 /\
     exists q', enqueue sstf_mem sstf_demo (mkreq (BBuf 22) 0) = Ok q' /\
       queue_wf sstf_mem q' /\ items q' ≡ₚ items sstf_demo ++ [mkreq (BBuf 22) 0] /\
       head (items q') = head (items sstf_demo ++ [mkreq (BBuf 22) 0])).
Proof.
  exact (enqueue_correct sstf_mem sstf_demo (mkreq (BBuf 22) 0)
    sstf_mem_small sstf_demo_wf ltac:(discriminate)).
Defined.

(** [dequeue] on a non-empty queue removes exactly the served request
    [x]; the queue stays well formed and the next request to be served has
    the shortest seek distance from [x] of all that wait. *)
Theorem dequeue_correct m q x l
    (Hm : bufmem_small m) (Hwf : queue_wf m q) (Hq : items q = x :: l) :
  exists q', dequeue m q = Ok q' /\ queue_wf m q' /\ items q' ≡ₚ l /\
    match items q' with [] => l = [] | y :: r => nearest m x y r end.
Proof.
  destruct (dequeue_spec m q x l Hm Hwf Hq) as (q' & Hrun & Hwf' & Hp & Hh).
  exists q'. repeat (split; [done|]). pose proof (qwf_order _ _ Hwf) as Ho.
  rewrite Hq in Ho. pose proof (sstf_order_nearest m x l _ Ho Hp Hh).
  destruct (items q'); [|done]. by apply Permutation_nil_l in Hp.
Qed.

Lemma dequeue_correct_witness :
  exists q', dequeue sstf_mem sstf_demo = Ok q' /\ queue_wf sstf_mem q' /\
    items q' ≡ₚ [mkreq (BBuf 25) 0; mkreq (BBuf 3) 1; mkreq (BBuf 90) 0] /\
    match items q' with
    | [] => [mkreq (BBuf 25) 0; mkreq (BBuf 3) 1; mkreq (BBuf 90) 0] = []
    | y :: r => nearest sstf_mem (mkreq (BBuf 20) 0) y r
    end.
Proof.
  exact (dequeue_correct sstf_mem sstf_demo (mkreq (BBuf 20) 0)
    [mkreq (BBuf 25) 0; mkreq (BBuf 3) 1; mkreq (BBuf 90) 0]
    sstf_mem_small sstf_demo_wf eq_refl).
Defined.

(** C35: the queue implements shortest-seek-time-first: draining it serves
    every waiting request exactly once, and each served request is followed
    by one that is nearest to it among all those still waiting. *)
Theorem sstf_serves_greedily m q
    (Hm : bufmem_small m) (Hwf : queue_wf m q) :
  exists l, sstf_serve (length (items q)) m q = Ok l /\ l ≡ₚ items q /\
            head l = head (items q) /\ greedy m l.
Proof. by apply sstf_serve_spec. Qed.

Lemma sstf_serves_greedily_witness :
  exists l, sstf_serve (length (items sstf_demo)) sstf_mem sstf_demo = Ok l /\
    l ≡ₚ items sstf_demo /\ head l = head (items sstf_demo) /\ greedy sstf_mem l.
Proof. exact (sstf_serves_greedily sstf_mem sstf_demo sstf_mem_small sstf_demo_wf). Defined.

(** [dequeue] has no emptiness test: on an empty queue it leaves size -1,
    and the next [enqueue], of any request, writes [data[-1]]. *)
Theorem dequeue_empty_then_enqueue_faults m q x
    (Hwf : queue_wf m q) (Hempty : q_size q = 0) :
  exists q', dequeue m q = Ok q' /\ q_size q' = -1 /\
             enqueue m q' x = Fault "array write".
Proof.
  destruct Hwf. exists (mkQueue (q_data q) (-1) 128).
  unfold dequeue, SSTF. rewrite Hempty, qwf_capacity0. cbn [mbind res_bind].
  split; [done|]. split; [done|]. unfold enqueue. cbn [q_size q_capacity q_data Z.eqb].
  by rewrite wr_Fault by lia.
Qed.

Lemma dequeue_empty_then_enqueue_faults_witness :
  exists q', dequeue sstf_mem queue_init = Ok q' /\ q_size q' = -1 /\
    enqueue sstf_mem q' (mkreq (BBuf 1) 0) = Fault "array write".
Proof.
  refine (dequeue_empty_then_enqueue_faults sstf_mem queue_init (mkreq (BBuf 1) 0) _ eq_refl).
  constructor; try (simpl; done || lia); unfold items; cbn; constructor.
Defined.
