(* ===== verification/Deadline.v ===== *)
(** * The deadline scheduler (IO_type 3): red-black trees and rings

    kernel/virtio_disk.c, [Rotate] to [InsertToRBTree]: one tree and one ring
    for reads (index 0) and one of each for writes (index 1), linked by
    pointers into static arrays.  The model keeps the pointers: a [Node *] is
    NULL, the sentinel [&tree[t].sen] or [&tree[t].node[i]], and an access
    through NULL or outside an array is a [Fault]. *)

From S2P Require Import Prelude Request.

Inductive nptr : Type := NNull | NSen (t : Z) | NNode (t i : Z).

Inductive sptr : Type := SNull | SSen (r : Z) | SSec (r i : Z).

Definition nptr_eqb (a b : nptr) : bool :=
  match a, b with
  | NNull, NNull => true
  | NSen t, NSen t' => t =? t'
  | NNode t i, NNode t' i' => (t =? t') && (i =? i')
  | _, _ => false
  end.

Definition sptr_eqb (a b : sptr) : bool :=
  match a, b with
  | SNull, SNull => true
  | SSen t, SSen t' => t =? t'
  | SSec t i, SSec t' i' => (t =? t') && (i =? i')
  | _, _ => false
  end.

Definition RED : Z := 0.
Definition BLACK : Z := 1.
Definition TREESIZE : Z := 128.

(** [struct Node] *)
Record Node : Type := mkNode {
  n_rank : Z;
  n_color : Z;
  n_data : req;
  n_p : list nptr;      (* p[0] left, p[1] right, p[2] parent *)
  n_pSection : sptr;
}.

(** [struct Section] *)
Record Section_ : Type := mkSection {
  s_rank : Z;
  s_time : Z;
  s_data : req;
  s_pFront : sptr;
  s_pBack : sptr;
  s_pNode : nptr;
}.

(** [disk.tree[2]], [disk.ring[2]] and [disk.readyArea]: the nodes and
    sections by their address, the other fields by tree or ring index. *)
Record ddl : Type := mkddl {
  nmem : nptr -> Node;
  smem : sptr -> Section_;
  t_root : Z -> nptr;
  t_pos : Z -> Z;
  t_avail : Z -> list Z;
  t_size : Z -> Z;
  t_capacity : Z -> Z;
  r_head : Z -> sptr;
  r_rear : Z -> sptr;
  r_pos : Z -> Z;
  r_avail : Z -> list Z;
  r_timeLimit : Z -> Z;
  r_size : Z -> Z;
  r_capacity : Z -> Z;
  readyArea : req;
}.

Definition updn {A} (f : nptr -> A) (p : nptr) (v : A) : nptr -> A :=
  fun q => if nptr_eqb p q then v else f q.
Definition upds {A} (f : sptr -> A) (p : sptr) (v : A) : sptr -> A :=
  fun q => if sptr_eqb p q then v else f q.
Definition updz {A} (f : Z -> A) (k : Z) (v : A) : Z -> A :=
  fun q => if k =? q then v else f q.

Definition set_nmem f s := mkddl f (smem s) (t_root s) (t_pos s) (t_avail s) (t_size s)
  (t_capacity s) (r_head s) (r_rear s) (r_pos s) (r_avail s) (r_timeLimit s) (r_size s)
  (r_capacity s) (readyArea s).
Definition set_smem f s := mkddl (nmem s) f (t_root s) (t_pos s) (t_avail s) (t_size s)
  (t_capacity s) (r_head s) (r_rear s) (r_pos s) (r_avail s) (r_timeLimit s) (r_size s)
  (r_capacity s) (readyArea s).
Definition set_t_pos f s := mkddl (nmem s) (smem s) (t_root s) f (t_avail s) (t_size s)
  (t_capacity s) (r_head s) (r_rear s) (r_pos s) (r_avail s) (r_timeLimit s) (r_size s)
  (r_capacity s) (readyArea s).
Definition set_t_avail f s := mkddl (nmem s) (smem s) (t_root s) (t_pos s) f (t_size s)
  (t_capacity s) (r_head s) (r_rear s) (r_pos s) (r_avail s) (r_timeLimit s) (r_size s)
  (r_capacity s) (readyArea s).
Definition set_t_size f s := mkddl (nmem s) (smem s) (t_root s) (t_pos s) (t_avail s) f
  (t_capacity s) (r_head s) (r_rear s) (r_pos s) (r_avail s) (r_timeLimit s) (r_size s)
  (r_capacity s) (readyArea s).
Definition set_r_rear f s := mkddl (nmem s) (smem s) (t_root s) (t_pos s) (t_avail s)
  (t_size s) (t_capacity s) (r_head s) f (r_pos s) (r_avail s) (r_timeLimit s) (r_size s)
  (r_capacity s) (readyArea s).
Definition set_r_pos f s := mkddl (nmem s) (smem s) (t_root s) (t_pos s) (t_avail s)
  (t_size s) (t_capacity s) (r_head s) (r_rear s) f (r_avail s) (r_timeLimit s) (r_size s)
  (r_capacity s) (readyArea s).
Definition set_r_avail f s := mkddl (nmem s) (smem s) (t_root s) (t_pos s) (t_avail s)
  (t_size s) (t_capacity s) (r_head s) (r_rear s) (r_pos s) f (r_timeLimit s) (r_size s)
  (r_capacity s) (readyArea s).
Definition set_r_size f s := mkddl (nmem s) (smem s) (t_root s) (t_pos s) (t_avail s)
  (t_size s) (t_capacity s) (r_head s) (r_rear s) (r_pos s) (r_avail s) (r_timeLimit s) f
  (r_capacity s) (readyArea s).
Definition set_readyArea f s := mkddl (nmem s) (smem s) (t_root s) (t_pos s) (t_avail s)
  (t_size s) (t_capacity s) (r_head s) (r_rear s) (r_pos s) (r_avail s) (r_timeLimit s)
  (r_size s) (r_capacity s) f.

Abbreviation D := (M ddl).

(** ** Memory accesses *)

Definition idx_ok (n i : Z) : bool := (0 <=? i) && (i <? n).

Definition nvalid (p : nptr) : bool :=
  match p with
  | NNull => false
  | NSen t => idx_ok 2 t
  | NNode t i => idx_ok 2 t && idx_ok TREESIZE i
  end.

Definition svalid (p : sptr) : bool :=
  match p with
  | SNull => false
  | SSen t => idx_ok 2 t
  | SSec t i => idx_ok 2 t && idx_ok TREESIZE i
  end.

Definition getn (p : nptr) : D Node :=
  if nvalid p then gets (fun s => nmem s p) else fault "Node pointer".
Definition putn (p : nptr) (n : Node) : D unit :=
  if nvalid p then modify (fun s => set_nmem (updn (nmem s) p n) s) else fault "Node pointer".
Definition gets_ (p : sptr) : D Section_ :=
  if svalid p then gets (fun s => smem s p) else fault "Section pointer".
Definition puts (p : sptr) (n : Section_) : D unit :=
  if svalid p then modify (fun s => set_smem (upds (smem s) p n) s) else fault "Section pointer".

(** [node->p[k]] and [node->p[k] = v] *)
Definition get_p (p : nptr) (k : Z) : D nptr :=
  n ← getn p; lift (rd (n_p n) k).
Definition put_p (p : nptr) (k : Z) (v : nptr) : D unit :=
  n ← getn p;
  l ← lift (wr (n_p n) k v);
  putn p (mkNode (n_rank n) (n_color n) (n_data n) l (n_pSection n)).
(** [node->color] and [node->color = c] *)
Definition get_color (p : nptr) : D Z := n ← getn p; mret (n_color n).
Definition put_color (p : nptr) (c : Z) : D unit :=
  n ← getn p;
  putn p (mkNode (n_rank n) c (n_data n) (n_p n) (n_pSection n)).
(** [sec->pBack = v] and [sec->pFront = v] *)
Definition put_pBack (p v : sptr) : D unit :=
  n ← gets_ p;
  puts p (mkSection (s_rank n) (s_time n) (s_data n) (s_pFront n) v (s_pNode n)).
Definition put_pFront (p v : sptr) : D unit :=
  n ← gets_ p;
  puts p (mkSection (s_rank n) (s_time n) (s_data n) v (s_pBack n) (s_pNode n)).

(** ** The red-black tree *)

Definition Rotate (node : nptr) (dir : Z) : D unit :=
  newP ← get_p node (1 - dir);
  par ← get_p node 2;
  l ← get_p par 0;
  (if nptr_eqb node l then put_p par 0 newP else put_p par 1 newP);;
  par' ← get_p node 2;
  put_p newP 2 par';;
  c ← get_p newP dir;
  put_p node (1 - dir) c;;
  g ← get_p newP (1 - dir);
  put_p g 2 newP;;
  put_p node 2 newP;;
  put_p newP dir node.

Fixpoint balance_addition_loop (fuel : nat) (node : nptr) : D unit :=
  match fuel with
  | O => hang
  | S fuel =>
      p ← get_p node 2;
      pc ← get_color p;
      if pc =? RED then
        g ← get_p p 2;
        gl ← get_p g 0;
        let dir := if nptr_eqb p gl then 0 else 1 in
        u ← get_p g (1 - dir);
        uc ← get_color u;
        if uc =? RED then
          put_color p BLACK;;
          put_color u BLACK;;
          put_color g RED;;
          balance_addition_loop fuel g
        else
          pr ← get_p p 1;
          if nptr_eqb node pr then
            Rotate p dir;;
            balance_addition_loop fuel p
          else
            put_color p BLACK;;
            put_color g RED;;
            Rotate g (1 - dir);;
            balance_addition_loop fuel node
      else mret tt
  end.

Definition BalanceAfterAddition (fuel : nat) (node : nptr) (t : Z) : D unit :=
  balance_addition_loop fuel node;;
  root ← gets (fun s => t_root s t);
  if nptr_eqb root NNull then mret tt else put_color root BLACK.

(** The search [for (; ; dir++) if (temp->p[dir] == v) break]; index 3 is
    outside [p]. *)
Fixpoint find_dir (k : nat) (temp v : nptr) (dir : Z) : D Z :=
  q ← get_p temp dir;
  if nptr_eqb q v then mret dir
  else match k with
       | O => hang
       | S k => find_dir k temp v (dir + 1)
       end.

Fixpoint BalanceAfterDeletion (fuel : nat) (temp : nptr) (t : Z) : D unit :=
  match fuel with
  | O => hang
  | S fuel =>
      dir ← find_dir 3 temp NNull 0;
      par ← get_p temp 2;
      stop ← (if nptr_eqb par (NSen t) then mret true
              else c ← get_color par; mret (c =? RED));
      if (stop : bool) then put_color temp BLACK
      else
        p ← get_p temp 2;
        b ← get_p p (1 - dir);
        cin ← get_p b dir;
        cout ← get_p b (1 - dir);
        bc ← get_color b;
        if bc =? BLACK then
          '(b, cin, cout) ←
            (if negb (nptr_eqb cin NNull) && nptr_eqb cout NNull then
               put_color cin BLACK;;
               put_color b RED;;
               Rotate b (1 - dir);;
               mret (cin, NNull, b)
             else mret (b, cin, cout));
          if negb (nptr_eqb cout NNull) then
            pc ← get_color p;
            put_color b pc;;
            put_color cout BLACK;;
            put_color p BLACK;;
            Rotate p dir
          else
            put_color p BLACK;;
            put_color b RED;;
            BalanceAfterDeletion fuel p t
        else
          put_color b BLACK;;
          put_color cin RED;;
          Rotate p dir
  end.

(** [while (temp->p[0] != NULL) temp = temp->p[0]] *)
Fixpoint leftmost (fuel : nat) (temp : nptr) : D nptr :=
  match fuel with
  | O => hang
  | S fuel =>
      l ← get_p temp 0;
      if nptr_eqb l NNull then mret temp else leftmost fuel l
  end.

Definition GetFromRBTree (fuel : nat) (t : Z) : D req :=
  sz ← gets (fun s => t_size s t);
  let t := if (t =? 0) && (sz =? 0) then 1 else t in
  temp ← leftmost fuel (NSen t);
  n ← getn temp;
  mret (n_data n).

(** [disk.tree + w], [disk.ring + w]: an index of a two-element array. *)
Definition pair_index (w : Z) : D Z :=
  if idx_ok 2 w then mret w else fault "tree or ring index".

(** [x->pos++; x->avail[x->pos] = rank] for a tree and for a ring *)
Definition tree_free (t rank : Z) : D unit :=
  modify (fun s => set_t_pos (updz (t_pos s) t (t_pos s t + 1)) s);;
  pos ← gets (fun s => t_pos s t);
  av ← gets (fun s => t_avail s t);
  av' ← lift (wr av pos rank);
  modify (fun s => set_t_avail (updz (t_avail s) t av') s).
Definition ring_free (w rank : Z) : D unit :=
  modify (fun s => set_r_pos (updz (r_pos s) w (r_pos s w + 1)) s);;
  pos ← gets (fun s => r_pos s w);
  av ← gets (fun s => r_avail s w);
  av' ← lift (wr av pos rank);
  modify (fun s => set_r_avail (updz (r_avail s) w av') s).

(** The body of [PrimRBTree] once the tree is chosen, first half: count the
    tree down, take its least node off and return its slot. *)
Definition prim_detach (fuel : nat) (t : Z) : D nptr :=
  sz ← gets (fun s => t_size s t);
  when (negb (sz =? 0)) (modify (fun s => set_t_size (updz (t_size s) t (sz - 1)) s));;
  temp ← leftmost fuel (NSen t);
  n ← getn temp;
  tree_free t (n_rank n);;
  par ← get_p temp 2;
  put_p par 0 NNull;;
  mret temp.

(** Second half: free the section of the node in its ring, then rebalance. *)
Definition prim_release (fuel : nat) (t : Z) (temp : nptr) : D unit :=
  n ← getn temp;
  let pSection := n_pSection n in
  w ← pair_index (r_write (n_data n));
  sec ← gets_ pSection;
  ring_free w (s_rank sec);;
  modify (fun s => set_r_size (updz (r_size s) w (r_size s w - 1)) s);;
  put_pBack (s_pFront sec) (s_pBack sec);;
  sec ← gets_ pSection;
  (if sptr_eqb (s_pBack sec) SNull then mret tt
   else put_pFront (s_pBack sec) (s_pFront sec));;
  r ← get_p temp 1;
  if nptr_eqb r NNull then BalanceAfterDeletion fuel temp t
  else
    par ← get_p temp 2;
    put_p par 0 r.

Definition prim_tree (fuel : nat) (t : Z) : D unit :=
  temp ← prim_detach fuel t;
  prim_release fuel t temp.

Definition PrimRBTree (fuel : nat) (t : Z) : D unit :=
  sz ← gets (fun s => t_size s t);
  if (t =? 0) && (sz =? 0) then prim_tree fuel 1 else prim_tree fuel t.

Definition DeleteFromRBTree (fuel : nat) (node : nptr) (t : Z) : D unit :=
  par ← get_p node 2;
  dir ← find_dir 3 par node 0;
  put_p par dir NNull;;
  n ← getn node;
  tree_free t (n_rank n);;
  par ← get_p node 2;
  put_p par 0 NNull;;
  par ← get_p node 2;
  BalanceAfterDeletion fuel par t.

(** ** The ring *)

(** [now] is the value [Nowtime()] returns, the tick counter. *)
Definition InsertToRing (now : Z) (w : Z) (x : req) : D sptr :=
  sz ← gets (fun s => r_size s w);
  cap ← gets (fun s => r_capacity s w);
  if sz =? cap then panic "ring out of capacity"
  else
    modify (fun s => set_r_size (updz (r_size s) w (sz + 1)) s);;
    pos ← gets (fun s => r_pos s w);
    av ← gets (fun s => r_avail s w);
    k ← lift (rd av pos);
    let pSection := SSec w k in
    modify (fun s => set_r_pos (updz (r_pos s) w (pos - 1)) s);;
    rear ← gets (fun s => r_rear s w);
    sec ← gets_ pSection;
    puts pSection (mkSection (s_rank sec) (s32 now) x rear (s_pBack sec) (s_pNode sec));;
    put_pBack rear pSection;;
    modify (fun s => set_r_rear (updz (r_rear s) w pSection) s);;
    mret pSection.

(** One round of the loop of [RenewReadyArea], for ring [i]. *)
Definition renew_ring (fuel : nat) (now : Z) (i : Z) : D unit :=
  sen ← gets_ (SSen i);
  if sptr_eqb (s_pBack sen) SNull then mret tt
  else
    back ← gets_ (s_pBack sen);
    lim ← gets (fun s => r_timeLimit s i);
    if u64 lim <? u64 (now - s_time back) then
      modify (set_readyArea (s_data back));;
      t ← pair_index (r_write (s_data back));
      DeleteFromRBTree fuel (s_pNode back) t;;
      modify (fun s => set_r_size (updz (r_size s) i (r_size s i - 1)) s);;
      ring_free i (s_rank back);;
      put_pBack (SSen i) (s_pBack back);;
      sen' ← gets_ (SSen i);
      put_pFront (s_pBack sen') (SSen i)
    else mret tt.

Definition RenewReadyArea (fuel : nat) (now : Z) : D unit :=
  renew_ring fuel now 0;;
  renew_ring fuel now 1;;
  x ← GetFromRBTree fuel 0;
  modify (set_readyArea x).

(** The descent of [InsertToRBTree] to the parent of the new node. *)
Fixpoint descend (fuel : nat) (m : bufmem) (x : req) (hot tmp : nptr) (dir : Z)
  : D (nptr * Z) :=
  if nptr_eqb tmp NNull then mret (hot, dir)
  else match fuel with
       | O => hang
       | S fuel =>
           n ← getn tmp;
           kt ← lift (b_blockno m (r_b (n_data n)));
           kx ← lift (b_blockno m (r_b x));
           if kx <? kt
           then l ← get_p tmp 0; descend fuel m x tmp l 0
           else r ← get_p tmp 1; descend fuel m x tmp r 1
       end.

Definition InsertToRBTree (fuel : nat) (m : bufmem) (now : Z) (t : Z) (x : req)
  : D nptr :=
  sz ← gets (fun s => t_size s t);
  cap ← gets (fun s => t_capacity s t);
  if sz =? cap then panic "queue out of capacity"
  else
    modify (fun s => set_t_size (updz (t_size s) t (sz + 1)) s);;
    root ← gets (fun s => t_root s t);
    '(hot, dir) ← descend fuel m x (NSen t) root 0;
    pos ← gets (fun s => t_pos s t);
    av ← gets (fun s => t_avail s t);
    k ← lift (rd av pos);
    let tmp := NNode t k in
    modify (fun s => set_t_pos (updz (t_pos s) t (pos - 1)) s);;
    n ← getn tmp;
    p' ← lift (wr (n_p n) 2 hot);
    putn tmp (mkNode (n_rank n) RED x p' (n_pSection n));;
    put_p hot dir tmp;;
    (if nptr_eqb hot (NSen t) then put_color tmp BLACK else put_p hot 1 tmp);;
    BalanceAfterAddition fuel tmp t;;
    RenewReadyArea fuel now;;
    mret tmp.

(** The critical section of [rw_queue] for IO_type 3.  Its calls of
    [Nowtime] return the same tick: no clock interrupt comes between them. *)
Definition ddl_submit (fuel : nat) (m : bufmem) (now : Z) (b : bufptr) (write : Z)
  : D unit :=
  let r := mkreq b write in
  w ← pair_index write;
  pSection ← InsertToRing now w r;
  pNode ← InsertToRBTree fuel m now w r;
  sec ← gets_ pSection;
  puts pSection (mkSection (s_rank sec) (s_time sec) (s_data sec) (s_pFront sec)
                   (s_pBack sec) pNode);;
  n ← getn pNode;
  putn pNode (mkNode (n_rank n) (n_color n) (n_data n) (n_p n) pSection).

(** ** Initial state: the statics are zero, then [virtio_disk_init] runs; its
    loops over [avail] write [disk.tree->avail] and [disk.ring->avail], that
    is tree 0 and ring 0 both times. *)

Definition node0 : Node := mkNode 0 RED req0 [NNull; NNull; NNull] SNull.
Definition section0 : Section_ := mkSection 0 0 req0 SNull SNull NNull.

Definition iota_avail (i : Z) : list Z :=
  if i =? 0 then map Z.of_nat (seq 0 128) else replicate 128 0.

Definition ddl_init : ddl := mkddl
  (fun p => match p with
            | NSen _ => mkNode 0 BLACK req0 [NNull; NNull; NNull] SNull
            | _ => node0
            end)
  (fun _ => section0)
  (fun _ => NNull) (fun _ => TREESIZE - 1) iota_avail (fun _ => 0) (fun _ => TREESIZE)
  SSen SSen (fun _ => TREESIZE - 1) iota_avail (fun _ => 22) (fun _ => 0)
  (fun _ => TREESIZE) req0.

(** ** Invariant: a tree never holds more than one node

    [t_root] is NULL in the initial state and no operation ever assigns it,
    so [InsertToRBTree] always hangs the new node under the sentinel, in the
    place of the one that is there. *)

Definition node_ok (f : nptr -> Node) (t i : Z) : Prop :=
  n_p (f (NNode t i)) = [NNull; NNull; NNull] \/
  n_p (f (NNode t i)) = [NNull; NNull; NSen t].

Definition sen_ok (f : nptr -> Node) (t : Z) : Prop :=
  n_color (f (NSen t)) = BLACK /\
  (n_p (f (NSen t)) = [NNull; NNull; NNull] \/
   exists i, n_p (f (NSen t)) = [NNode t i; NNull; NNull] /\
             n_p (f (NNode t i)) = [NNull; NNull; NSen t]).

Definition flat (f : nptr -> Node) (root : Z -> nptr) : Prop :=
  (forall t, root t = NNull) /\ (forall t i, node_ok f t i) /\ (forall t, sen_ok f t).

Definition ddl_flat (s : ddl) : Prop := flat (nmem s) (t_root s).

(** A computation that leaves the nodes, roots and tree sizes alone. *)
Definition quiet {A} (m : D A) : Prop := forall s a s',
  m s = Ok (a, s') -> nmem s' = nmem s /\ t_root s' = t_root s /\ t_size s' = t_size s.

Lemma quiet_bind {A B} (m : D A) (f : A -> D B) :
  quiet m -> (forall a, quiet (f a)) -> quiet (m ≫= f).
Proof.
  intros Hm Hf s b s' H. apply M_bind_inv in H as (a & s1 & H1 & H2).
  apply Hm in H1 as (? & ? & ?). apply Hf in H2 as (? & ? & ?). repeat split; congruence.
Qed.

Lemma quiet_ret {A} (a : A) : quiet (mret a).
Proof. intros s b s' H. by injection H as _ <-. Qed.

Lemma quiet_lift {A} (r : res A) : quiet (lift r).
Proof. intros s a s' H. unfold lift in H. destruct r; by simplify_eq. Qed.

Lemma quiet_gets {A} (f : ddl -> A) : quiet (gets f).
Proof. intros s a s' H. by injection H as _ <-. Qed.

Lemma quiet_modify (f : ddl -> ddl) :
  (forall s, nmem (f s) = nmem s /\ t_root (f s) = t_root s /\ t_size (f s) = t_size s) ->
  quiet (modify f).
Proof. intros Hf s a s' H. injection H as _ <-. apply Hf. Qed.

Lemma quiet_fault {A} msg : quiet (@fault ddl A msg).
Proof. done. Qed.

Lemma quiet_panic {A} msg : quiet (@panic ddl A msg).
Proof. done. Qed.

Lemma quiet_hang {A} : quiet (@hang ddl A).
Proof. done. Qed.

Lemma quiet_if {A} (b : bool) (m1 m2 : D A) : quiet m1 -> quiet m2 -> quiet (if b then m1 else m2).
Proof. by destruct b. Qed.

Create HintDb quiet.
#[local] Hint Resolve quiet_ret quiet_lift quiet_gets quiet_fault quiet_panic quiet_hang : quiet.

(** Walk through the binds and branches; the leaves come from the database. *)
Ltac quiet := cbv beta zeta; first
  [ solve [auto with quiet nocore]
  | apply quiet_bind; [quiet | intros; quiet]
  | apply quiet_if; quiet
  | apply quiet_modify; done ].

Lemma quiet_gets_ p : quiet (gets_ p).
Proof. unfold gets_. quiet. Qed.

Lemma quiet_puts p v : quiet (puts p v).
Proof. unfold puts. quiet. Qed.

Lemma quiet_getn p : quiet (getn p).
Proof. unfold getn. quiet. Qed.

Lemma quiet_pair_index w : quiet (pair_index w).
Proof. unfold pair_index. quiet. Qed.

#[local] Hint Resolve quiet_gets_ quiet_puts quiet_getn quiet_pair_index : quiet.

Lemma quiet_put_pBack p v : quiet (put_pBack p v).
Proof. unfold put_pBack. quiet. Qed.

Lemma quiet_put_pFront p v : quiet (put_pFront p v).
Proof. unfold put_pFront. quiet. Qed.

Lemma quiet_tree_free t k : quiet (tree_free t k).
Proof. unfold tree_free. quiet. Qed.

Lemma quiet_ring_free t k : quiet (ring_free t k).
Proof. unfold ring_free. quiet. Qed.

Lemma quiet_get_p p k : quiet (get_p p k).
Proof. unfold get_p. quiet. Qed.

Lemma quiet_get_color p : quiet (get_color p).
Proof. unfold get_color. quiet. Qed.

#[local] Hint Resolve quiet_put_pBack quiet_put_pFront quiet_tree_free quiet_ring_free
  quiet_get_p quiet_get_color : quiet.

Lemma quiet_InsertToRing now w x : quiet (InsertToRing now w x).
Proof. unfold InsertToRing. quiet. Qed.

Lemma quiet_leftmost fuel p : quiet (leftmost fuel p).
Proof.
  revert p. induction fuel as [|fuel IH]; intros p; cbn [leftmost]; [quiet|].
  apply quiet_bind; [quiet|]. intros l. apply quiet_if; [quiet|apply IH].
Qed.

#[local] Hint Resolve quiet_InsertToRing quiet_leftmost : quiet.

Lemma quiet_GetFromRBTree fuel t : quiet (GetFromRBTree fuel t).
Proof. unfold GetFromRBTree. quiet. Qed.

#[local] Hint Resolve quiet_GetFromRBTree : quiet.

(** ** Inversion of the memory accesses *)

Lemma nptr_eqb_spec a b : reflect (a = b) (nptr_eqb a b).
Proof.
  destruct a as [|t|t i], b as [|t'|t' i']; simpl; try (constructor; congruence).
  - destruct (Z.eqb_spec t t'); constructor; congruence.
  - destruct (Z.eqb_spec t t'), (Z.eqb_spec i i'); constructor; congruence.
Qed.

Lemma nptr_eqb_refl a : nptr_eqb a a = true.
Proof. by destruct (nptr_eqb_spec a a). Qed.

Lemma updn_eq {A} (f : nptr -> A) p v : updn f p v p = v.
Proof. unfold updn. by rewrite nptr_eqb_refl. Qed.

Lemma updn_ne {A} (f : nptr -> A) p q v : p <> q -> updn f p v q = f q.
Proof. unfold updn. by destruct (nptr_eqb_spec p q). Qed.

Lemma getn_inv p s n s' :
  getn p s = Ok (n, s') -> nvalid p = true /\ n = nmem s p /\ s' = s.
Proof. unfold getn. destruct (nvalid p); [|done]. intros [= <- <-]. done. Qed.

Lemma putn_inv p n s u s' :
  putn p n s = Ok (u, s') -> nvalid p = true /\ s' = set_nmem (updn (nmem s) p n) s.
Proof. unfold putn. destruct (nvalid p); [|done]. intros [= <-]. done. Qed.

Lemma get_p_inv p k s v s' :
  get_p p k s = Ok (v, s') ->
  nvalid p = true /\ s' = s /\ zidx (n_p (nmem s p)) k = Some v.
Proof.
  intros H. unfold get_p in H. mdestruct H.
  apply getn_inv in H0 as (? & -> & ->). split; [done|]. split; [done|]. by apply rd_inv.
Qed.

Lemma put_p_inv p k v s u s' :
  put_p p k v s = Ok (u, s') ->
  exists l, nvalid p = true /\ wr (n_p (nmem s p)) k v = Ok l /\
    s' = set_nmem (updn (nmem s) p (mkNode (n_rank (nmem s p)) (n_color (nmem s p))
           (n_data (nmem s p)) l (n_pSection (nmem s p)))) s.
Proof.
  intros H. unfold put_p in H. mdestruct H. apply getn_inv in H0 as (? & -> & ->).
  apply putn_inv in H as (_ & ->). eauto.
Qed.

Lemma get_color_inv p s c s' :
  get_color p s = Ok (c, s') -> nvalid p = true /\ s' = s /\ c = n_color (nmem s p).
Proof.
  intros H. unfold get_color in H. mdestruct H. by apply getn_inv in H0 as (? & -> & ->).
Qed.

Lemma put_color_inv p c s u s' :
  put_color p c s = Ok (u, s') -> nvalid p = true /\
    s' = set_nmem (updn (nmem s) p (mkNode (n_rank (nmem s p)) c
           (n_data (nmem s p)) (n_p (nmem s p)) (n_pSection (nmem s p)))) s.
Proof.
  intros H. unfold put_color in H. mdestruct H. apply getn_inv in H0 as (? & -> & ->).
  by apply putn_inv in H as (_ & ->).
Qed.

Lemma find_dir_inv k p v d s r s' :
  find_dir k p v d s = Ok (r, s') ->
  nvalid p = true /\ s' = s /\ zidx (n_p (nmem s p)) r = Some v.
Proof.
  revert d. induction k as [|k IH]; intros d H; cbn [find_dir] in H; mdestruct H;
    apply get_p_inv in H0 as (Hv & -> & Hz).
  - destruct (nptr_eqb_spec a v); [subst|done]. done.
  - destruct (nptr_eqb_spec a v); [subst|done]. done.
  - by apply IH in H.
Qed.

(** ** Deleting an expired request always faults *)

(** Below the sentinel nothing can be rebalanced: its parent is NULL. *)
Lemma balance_sentinel_not_ok fuel t0 t s r :
  n_p (nmem s (NSen t0)) = [NNull; NNull; NNull] ->
  BalanceAfterDeletion fuel (NSen t0) t s <> Ok r.
Proof.
  intros Hp H. destruct r as [u s']. destruct fuel as [|fuel]; [done|].
  cbn [BalanceAfterDeletion] in H. mdestruct H;
    apply find_dir_inv in H0 as (_ & -> & _); apply get_p_inv in H1 as (_ & -> & Hz);
    rewrite Hp in Hz; injection Hz as <-; simpl in *; try discriminate;
    apply get_color_inv in H2 as (? & _); done.
Qed.

Lemma DeleteFromRBTree_not_ok fuel node t s r :
  ddl_flat s -> DeleteFromRBTree fuel node t s <> Ok r.
Proof.
  intros (_ & Hn & Hs) H. destruct r as [u s']. unfold DeleteFromRBTree in H. mdestruct H.
  apply get_p_inv in H0 as (Hv & -> & Hpar). apply find_dir_inv in H1 as (Hv' & -> & Hdir).
  destruct node as [|t0|t0 i]; [done| |].
  { destruct (Hs t0) as [_ [Hp|(i & Hp & _)]]; rewrite Hp in Hpar; by injection Hpar as <-. }
  assert (n_p (nmem s (NNode t0 i)) = [NNull; NNull; NSen t0] /\ a = NSen t0) as [Hpn ->].
  { destruct (Hn t0 i) as [Hp|Hp]; rewrite Hp in Hpar; by injection Hpar as <-. }
  apply put_p_inv in H2 as (l & _ & Hw & ->). apply getn_inv in H3 as (_ & -> & ->).
  apply quiet_tree_free in H4 as (Hm & _). apply get_p_inv in H5 as (_ & -> & Hp2).
  rewrite Hm in Hp2. cbn [set_nmem nmem] in Hp2. rewrite updn_ne, Hpn in Hp2 by done.
  injection Hp2 as <-. apply put_p_inv in H6 as (l2 & _ & Hw2 & ->).
  apply get_p_inv in H7 as (_ & -> & Hp3). cbn [set_nmem nmem] in Hp3.
  rewrite updn_ne, Hm in Hp3 by done. cbn [set_nmem nmem] in Hp3.
  rewrite updn_ne, Hpn in Hp3 by done. injection Hp3 as <-.
  eapply balance_sentinel_not_ok; [|exact H]. cbn [set_nmem nmem]. rewrite updn_eq. cbn [n_p].
  rewrite Hm in Hw2. cbn [set_nmem nmem] in Hw2. rewrite updn_eq in Hw2. cbn [n_p] in Hw2.
  apply zidx_lt in Hdir as Hlt. destruct (Hs t0) as [_ [Hp|(j & Hp & _)]]; rewrite Hp in *.
  - simpl in Hlt. assert (a0 = 0 \/ a0 = 1 \/ a0 = 2) as [->|[->| ->]] by lia; done.
  - simpl in Hlt. assert (a0 = 0 \/ a0 = 1 \/ a0 = 2) as [->|[->| ->]] by lia; try done.
    injection Hw as <-. by injection Hw2 as <-.
Qed.

(** ** One step of the scheduler from a flat state *)

Lemma leftmost_inv fuel p s q s' :
  leftmost fuel p s = Ok (q, s') -> s' = s /\ nvalid q = true.
Proof.
  revert p. induction fuel as [|fuel IH]; intros p H; [done|].
  cbn [leftmost] in H. mdestruct H; apply get_p_inv in H0 as (Hv & -> & _).
  - done.
  - by apply IH in H.
Qed.

Lemma gets__inv p s v s' :
  gets_ p s = Ok (v, s') -> svalid p = true /\ v = smem s p /\ s' = s.
Proof. unfold gets_. destruct (svalid p); [|done]. by intros [= <- <-]. Qed.

Lemma puts_inv p n s u s' :
  puts p n s = Ok (u, s') -> svalid p = true /\ s' = set_smem (upds (smem s) p n) s.
Proof. unfold puts. destruct (svalid p); [|done]. intros [= <-]. done. Qed.

(** Invert every access of a run that [mdestruct] has taken apart. *)
Ltac dinv := repeat match goal with
  | H : getn _ _ = Ok _ |- _ => apply getn_inv in H; destruct H as (? & ? & ?); subst
  | H : gets_ _ _ = Ok _ |- _ => apply gets__inv in H; destruct H as (? & ? & ?); subst
  | H : puts _ _ _ = Ok _ |- _ => apply puts_inv in H; destruct H as (? & ?); subst
  | H : putn _ _ _ = Ok _ |- _ => apply putn_inv in H; destruct H as (? & ?); subst
  | H : get_p _ _ _ = Ok _ |- _ => apply get_p_inv in H; destruct H as (? & ? & ?); subst
  | H : get_color _ _ = Ok _ |- _ => apply get_color_inv in H; destruct H as (? & ? & ?); subst
  | H : put_color _ _ _ = Ok _ |- _ => apply put_color_inv in H; destruct H as (? & ?); subst
  | H : put_p _ _ _ _ = Ok _ |- _ => apply put_p_inv in H; destruct H as (? & ? & ? & ?); subst
  | H : find_dir _ _ _ _ _ = Ok _ |- _ => apply find_dir_inv in H; destruct H as (? & ? & ?); subst
  | H : leftmost _ _ _ = Ok _ |- _ => apply leftmost_inv in H; destruct H as (? & ?); subst
  end.

Lemma GetFromRBTree_inv fuel t s x s' : GetFromRBTree fuel t s = Ok (x, s') -> s' = s.
Proof. intros H. unfold GetFromRBTree in H. mdestruct H; by dinv. Qed.

(** The first request of ring [i] has waited longer than the limit. *)
Definition expired (s : ddl) (now i : Z) : Prop :=
  s_pBack (smem s (SSen i)) <> SNull /\
  u64 (r_timeLimit s i) < u64 (now - s_time (smem s (s_pBack (smem s (SSen i))))).

Lemma renew_ring_inv fuel now i s u s' :
  ddl_flat s -> renew_ring fuel now i s = Ok (u, s') -> s' = s /\ ~ expired s now i.
Proof.
  intros HF H. unfold renew_ring in H. apply M_bind_inv in H as (sen & s1 & H1 & H).
  dinv. mdestruct H; dinv.
  - split; [done|]. intros [Hne _]. by destruct (s_pBack (smem s (SSen i))).
  - exfalso. match goal with E : pair_index _ _ = Ok _ |- _ => unfold pair_index in E; mdestruct E end.
    match goal with E : DeleteFromRBTree _ _ _ _ = Ok _ |- _ => 
      eapply DeleteFromRBTree_not_ok; [|exact E] end. exact HF.
  - split; [done|]. intros [_ Hlt]. lia.
Qed.

Lemma RenewReadyArea_inv fuel now s u s' :
  ddl_flat s -> RenewReadyArea fuel now s = Ok (u, s') ->
  (exists x, s' = set_readyArea x s) /\ ~ expired s now 0 /\ ~ expired s now 1.
Proof.
  intros HF H. unfold RenewReadyArea in H. mdestruct H.
  apply renew_ring_inv in H0 as [-> H0]; [|done].
  apply renew_ring_inv in H1 as [-> H1]; [|done].
  apply GetFromRBTree_inv in H2 as ->. eauto.
Qed.

Lemma balance_addition_black fuel node t s u s' :
  t_root s t = NNull -> n_color (nmem s (NSen t)) = BLACK ->
  n_p (nmem s node) = [NNull; NNull; NSen t] ->
  BalanceAfterAddition fuel node t s = Ok (u, s') -> s' = s.
Proof.
  intros Hr Hc Hp H. unfold BalanceAfterAddition in H. apply M_bind_inv in H as (v & s1 & H1 & H2).
  destruct fuel as [|fuel]; [done|]. cbn [balance_addition_loop] in H1.
  apply M_bind_inv in H1 as (q & s2 & H1 & H3). dinv.
  match goal with E : zidx (n_p _) 2 = Some _ |- _ => rewrite Hp in E; injection E as <- end.
  apply M_bind_inv in H3 as (c & s3 & H4 & H3). dinv. rewrite Hc in H3.
  change (BLACK =? RED) with false in H3. mdestruct H3.
  apply M_bind_inv in H2 as (root & s4 & H5 & H2). mdestruct H5. rewrite Hr in H2.
  change (nptr_eqb NNull NNull) with true in H2. by mdestruct H2.
Qed.

Lemma flat_update_node f root t k n :
  flat f root -> n_p n = [NNull; NNull; NSen t] -> flat (updn f (NNode t k) n) root.
Proof.
  intros (Hr & Hn & Hs) Hp. split; [done|]. split.
  - intros t' i. unfold node_ok. destruct (nptr_eqb_spec (NNode t k) (NNode t' i)) as [[= <- <-]|].
    + rewrite updn_eq. by right.
    + rewrite updn_ne by done. apply Hn.
  - intros t'. destruct (Hs t') as [Hc Hsp]. split; [by rewrite updn_ne|].
    rewrite (updn_ne _ _ (NSen t')) by done. destruct Hsp as [?|(i & ? & ?)]; [by left|right].
    exists i. split; [done|]. destruct (nptr_eqb_spec (NNode t k) (NNode t' i)) as [[= <- <-]|].
    + by rewrite updn_eq.
    + by rewrite updn_ne.
Qed.

Lemma flat_update_sen f root t n :
  flat f root -> n_color n = BLACK ->
  n_p n = [NNull; NNull; NNull] \/
  (exists k, n_p n = [NNode t k; NNull; NNull] /\ n_p (f (NNode t k)) = [NNull; NNull; NSen t]) ->
  flat (updn f (NSen t) n) root.
Proof.
  intros (Hr & Hn & Hs) Hc Hp. split; [done|]. split.
  - intros t' i. unfold node_ok. rewrite updn_ne by done. apply Hn.
  - intros t'. unfold sen_ok. destruct (Z.eqb_spec t t') as [<-|].
    + rewrite updn_eq. split; [done|]. destruct Hp as [?|(k & ? & ?)]; [by left|right].
      exists k. by rewrite updn_ne.
    + rewrite updn_ne by congruence. destruct (Hs t') as [? Hsp]. split; [done|].
      destruct Hsp as [?|(i & ? & ?)]; [by left|right]. exists i. by rewrite updn_ne.
Qed.

(** The new node [NNode t k] in place under the sentinel. *)
Definition attach (f : nptr -> Node) (t k : Z) (n1 n3 : Node) : nptr -> Node :=
  let f1 := updn f (NNode t k) n1 in
  let sn := f1 (NSen t) in
  updn (updn f1 (NSen t) (mkNode (n_rank sn) (n_color sn) (n_data sn)
          [NNode t k; NNull; NNull] (n_pSection sn))) (NNode t k) n3.

Lemma flat_attach f root t k n1 n3 :
  flat f root -> n_p n1 = [NNull; NNull; NSen t] -> n_p n3 = [NNull; NNull; NSen t] ->
  flat (attach f t k n1 n3) root.
Proof.
  intros HF H1 H3. unfold attach. apply flat_update_node; [|done].
  apply flat_update_sen.
  - by apply flat_update_node.
  - destruct HF as (_ & _ & Hs). rewrite updn_ne by done. apply Hs.
  - right. exists k. by rewrite updn_eq.
Qed.

Lemma wr_node_parent f t i l :
  node_ok f t i -> wr (n_p (f (NNode t i))) 2 (NSen t) = Ok l -> l = [NNull; NNull; NSen t].
Proof. intros [-> | ->]; by intros [= <-]. Qed.

Lemma wr_sen_left f t v l :
  sen_ok f t -> wr (n_p (f (NSen t))) 0 v = Ok l -> l = [v; NNull; NNull].
Proof. intros [_ [->|(i & -> & _)]]; by intros [= <-]. Qed.

(** What [InsertToRBTree] leaves: the new node alone under the sentinel. *)
Lemma InsertToRBTree_inv fuel m now t x s p s' :
  ddl_flat s -> InsertToRBTree fuel m now t x s = Ok (p, s') ->
  exists k, p = NNode t k /\ nvalid p = true /\ ddl_flat s' /\
    n_p (nmem s' (NSen t)) = [NNode t k; NNull; NNull] /\
    n_data (nmem s' (NNode t k)) = x /\
    t_size s' = updz (t_size s) t (t_size s t + 1).
Proof.
  intros HF H. unfold InsertToRBTree in H. pose proof HF as (Hr & Hn & Hs).
  apply M_bind_inv in H as (sz & s1 & H1 & H). mdestruct H1.
  apply M_bind_inv in H as (cap & s1 & H1 & H). mdestruct H1.
  destruct (_ =? _); [discriminate H|].
  apply M_bind_inv in H as (u & s1 & H1 & H). mdestruct H1.
  apply M_bind_inv in H as (root & s1 & H1 & H). mdestruct H1.
  apply M_bind_inv in H as (hd & s1 & H1 & H). cbn [t_root set_t_size] in H1.
  rewrite (Hr t) in H1. assert (hd = (NSen t, 0) /\ s1 = set_t_size (updz (t_size s) t (t_size s t + 1)) s) as [-> ->].
  { destruct fuel; cbn in H1; injection H1 as <- <-; done. }
  clear H1. cbv beta iota in H. rewrite nptr_eqb_refl in H. mdestruct H. dinv.
  match goal with E : rd _ _ = Ok ?v |- _ => rename v into k end. exists k. cbn [nmem set_t_pos set_t_size set_nmem] in *.
  match goal with E : wr (n_p _) 2 _ = Ok _ |- _ => apply wr_node_parent in E as ->; [|done] end.
  match goal with E : wr (n_p _) 0 _ = Ok _ |- _ =>
    apply wr_sen_left in E as ->; [|by apply (flat_update_node _ _ t k _ HF)] end.
  match goal with E : BalanceAfterAddition _ _ _ ?st = Ok _ |- _ => 
    assert (exists n1 n3, nmem st = attach (nmem s) t k n1 n3 /\
      n_p n1 = [NNull; NNull; NSen t] /\ n_p n3 = [NNull; NNull; NSen t] /\ n_data n3 = x) as (n1 & n3 & Hat & Hn1 & Hn3 & Hd) end.
  { eexists _, _. split; [reflexivity|]. cbn [n_p n_data]. rewrite updn_ne, updn_eq by done. done. }
  match goal with E : BalanceAfterAddition _ _ _ _ = Ok _ |- _ =>
    apply balance_addition_black in E as ->; [| | |]; cbn [t_root nmem set_t_pos set_t_size set_nmem] end.
  - match goal with E : RenewReadyArea _ _ _ = Ok _ |- _ =>
      apply RenewReadyArea_inv in E as [(y & ->) _]; [|unfold ddl_flat; rewrite Hat; by apply flat_attach] end.
    unfold ddl_flat. cbn [set_readyArea nmem t_root t_size] in *. rewrite Hat.
    split; [done|]. split; [done|]. split; [by apply flat_attach|].
    unfold attach. rewrite updn_ne, !updn_eq by done. done.
  - apply Hr.
  - rewrite updn_ne, updn_eq by done. cbn [n_color]. rewrite updn_ne by done. apply Hs.
  - rewrite updn_eq. cbn [n_p]. rewrite updn_ne, updn_eq by done. done.
Qed.

(** [ddl_submit] on a flat state. *)
Lemma ddl_submit_inv fuel m now b w s u s' :
  ddl_flat s -> ddl_submit fuel m now b w s = Ok (u, s') ->
  exists k, nvalid (NNode w k) = true /\ ddl_flat s' /\
    n_p (nmem s' (NSen w)) = [NNode w k; NNull; NNull] /\
    n_data (nmem s' (NNode w k)) = mkreq b w /\
    t_size s' = updz (t_size s) w (t_size s w + 1).
Proof.
  intros HF H. unfold ddl_submit in H.
  apply M_bind_inv in H as (w' & s1 & H1 & H). unfold pair_index in H1. mdestruct H1.
  apply M_bind_inv in H as (ps & s1 & H1 & H). apply quiet_InsertToRing in H1 as (E1 & E2 & E3).
  apply M_bind_inv in H as (pn & s2 & H2 & H).
  apply InsertToRBTree_inv in H2 as (k & -> & Hv & HF2 & Hsen & Hd & Hsz).
  2: { unfold ddl_flat. by rewrite E1, E2. }
  exists k. mdestruct H. dinv. cbn [set_nmem set_smem nmem t_root t_size]. unfold ddl_flat.
  cbn [set_nmem set_smem nmem t_root t_size]. split; [done|].
  assert (n_p (nmem s2 (NNode w k)) = [NNull; NNull; NSen w]) as Hp.
  { destruct HF2 as (_ & _ & Hs2). destruct (Hs2 w) as [_ [E|(i & E & Ep)]]; rewrite Hsen in E; [done|].
    by injection E as <-. }
  split; [by apply flat_update_node|]. rewrite updn_ne, updn_eq by done. by rewrite <- E3.
Qed.

Lemma leftmost_flat fuel t s q s' :
  ddl_flat s -> leftmost fuel (NSen t) s = Ok (q, s') ->
  (n_p (nmem s (NSen t)) = [NNull; NNull; NNull] /\ q = NSen t) \/
  (exists k, n_p (nmem s (NSen t)) = [NNode t k; NNull; NNull] /\
     n_p (nmem s (NNode t k)) = [NNull; NNull; NSen t] /\ q = NNode t k).
Proof.
  intros (_ & _ & Hs) H. destruct fuel as [|fuel]; [done|]. cbn [leftmost] in H.
  apply M_bind_inv in H as (l & s1 & H1 & H). dinv.
  destruct (Hs t) as [_ [E|(k & E & Ep)]]; rewrite E in *; [left|right].
  - match goal with X : zidx _ _ = Some _ |- _ => injection X as <- end. by mdestruct H.
  - exists k. match goal with X : zidx _ _ = Some _ |- _ => injection X as <- end.
    cbn [nptr_eqb] in H. destruct fuel as [|fuel]; [done|]. cbn [leftmost] in H.
    apply M_bind_inv in H as (l & s1 & H1 & H). dinv. rewrite Ep in *.
    match goal with X : zidx _ _ = Some _ |- _ => injection X as <- end. by mdestruct H.
Qed.

Lemma balance_leaf fuel t k s u s' :
  n_p (nmem s (NNode t k)) = [NNull; NNull; NSen t] ->
  BalanceAfterDeletion fuel (NNode t k) t s = Ok (u, s') ->
  exists n, s' = set_nmem (updn (nmem s) (NNode t k) n) s /\
            n_p n = [NNull; NNull; NSen t].
Proof.
  intros Hp R. destruct fuel as [|fuel]; [done|]. cbn [BalanceAfterDeletion] in R.
  apply M_bind_inv in R as (d & s1 & R1 & R). dinv.
  apply M_bind_inv in R as (par & s1 & R1 & R). dinv.
  match goal with X : zidx _ 2 = Some _ |- _ => rewrite Hp in X; injection X as <- end.
  rewrite nptr_eqb_refl in R. apply M_bind_inv in R as (st & s1 & R1 & R).
  mdestruct R1. mdestruct R. dinv. eexists. by split.
Qed.

(** On a flat state the first half only returns when a node hangs under the
    sentinel, and leaves the tree empty. *)
Lemma prim_detach_inv fuel t s q s' :
  ddl_flat s -> prim_detach fuel t s = Ok (q, s') ->
  exists k, q = NNode t k /\ n_p (nmem s (NSen t)) = [NNode t k; NNull; NNull] /\
    ddl_flat s' /\ n_p (nmem s' (NSen t)) = [NNull; NNull; NNull] /\
    n_p (nmem s' (NNode t k)) = [NNull; NNull; NSen t] /\
    t_size s' = (if t_size s t =? 0 then t_size s else updz (t_size s) t (t_size s t - 1)).
Proof.
  intros HF R. unfold prim_detach in R.
  apply M_bind_inv in R as (sz & s1 & R1 & R). mdestruct R1.
  apply M_bind_inv in R as (u1 & s1 & R1 & R).
  assert (nmem s1 = nmem s /\ t_root s1 = t_root s /\ t_size s1 =
    (if t_size s t =? 0 then t_size s else updz (t_size s) t (t_size s t - 1))) as (N1 & Z1 & S1).
  { unfold when in R1. destruct (t_size s t =? 0); cbn in R1; by injection R1 as <- <-. }
  assert (ddl_flat s1) as HF1 by (unfold ddl_flat; by rewrite N1, Z1).
  rewrite <- N1, <- S1. clear HF N1 Z1 S1 R1 s.
  apply M_bind_inv in R as (temp & s2 & R1 & R).
  pose proof (leftmost_flat _ _ _ _ _ HF1 R1) as Hl. dinv.
  apply M_bind_inv in R as (n & s2 & R2 & R). dinv.
  apply M_bind_inv in R as (u2 & s2 & R2 & R). apply quiet_tree_free in R2 as (N2 & Z2 & S2).
  apply M_bind_inv in R as (par & s3 & R3 & R). dinv.
  apply M_bind_inv in R as (u3 & s3 & R3 & R). mdestruct R. dinv.
  destruct Hl as [[Hs ->]|(k & Hs & Hp & ->)].
  { match goal with X : zidx _ 2 = Some _ |- _ => rewrite N2, Hs in X; by injection X as <- end. }
  match goal with X : zidx _ 2 = Some _ |- _ => rewrite N2, Hp in X; injection X as <- end.
  match goal with X : wr _ 0 _ = Ok _ |- _ => rewrite N2, Hs in X; injection X as <- end.
  exists k. unfold ddl_flat. cbn [set_nmem nmem t_root t_size].
  rewrite updn_eq, updn_ne, N2, Z2 by done. do 2 (split; [done|]). split; [|done].
  apply flat_update_sen; [done| |by left]. destruct HF1 as (_ & _ & Hss). apply Hss.
Qed.

Lemma prim_release_inv fuel t k s u s' :
  ddl_flat s -> n_p (nmem s (NNode t k)) = [NNull; NNull; NSen t] ->
  prim_release fuel t (NNode t k) s = Ok (u, s') ->
  ddl_flat s' /\ n_p (nmem s' (NSen t)) = n_p (nmem s (NSen t)) /\ t_size s' = t_size s.
Proof.
  intros HF Hk R. unfold prim_release in R. apply M_bind_inv in R as (n & s4 & R4 & R). dinv.
  apply M_bind_inv in R as (w & s4 & R4 & R). unfold pair_index in R4. mdestruct R4.
  apply M_bind_inv in R as (sec & s4 & R4 & R). dinv.
  apply M_bind_inv in R as (u4 & s4 & R4 & R). apply quiet_ring_free in R4 as (N4 & Z4 & S4).
  apply M_bind_inv in R as (u5 & s5 & R5 & R). mdestruct R5.
  apply M_bind_inv in R as (u5 & s5 & R5 & R). apply quiet_put_pBack in R5 as (N5 & Z5 & S5).
  apply M_bind_inv in R as (sec & s6 & R6 & R). dinv.
  apply M_bind_inv in R as (u6 & s6 & R6 & R).
  assert (nmem s6 = nmem s5 /\ t_root s6 = t_root s5 /\ t_size s6 = t_size s5) as (N6 & Z6 & S6).
  { destruct (sptr_eqb _ _); [by mdestruct R6|]. by apply quiet_put_pFront in R6. }
  cbn [set_r_size nmem t_root t_size] in *. rewrite N5, N4 in N6. rewrite Z5, Z4 in Z6.
  rewrite S5, S4 in S6. apply M_bind_inv in R as (r & s7 & R7 & R). dinv.
  match goal with X : zidx _ 1 = Some _ |- _ => rewrite N6, Hk in X; injection X as <- end.
  change (nptr_eqb NNull NNull) with true in R. cbv iota in R.
  apply balance_leaf in R as (n & -> & Hn); [|by rewrite N6]. unfold ddl_flat.
  cbn [set_nmem nmem t_root t_size]. rewrite N6, Z6, S6, updn_ne by done.
  split; [by apply flat_update_node|done].
Qed.

Lemma prim_tree_inv fuel t s u s' :
  ddl_flat s -> prim_tree fuel t s = Ok (u, s') ->
  (exists k, n_p (nmem s (NSen t)) = [NNode t k; NNull; NNull]) /\ ddl_flat s' /\
  n_p (nmem s' (NSen t)) = [NNull; NNull; NNull] /\
  t_size s' = (if t_size s t =? 0 then t_size s else updz (t_size s) t (t_size s t - 1)).
Proof.
  intros HF R. unfold prim_tree in R. apply M_bind_inv in R as (q & s1 & R1 & R).
  apply prim_detach_inv in R1 as (k & -> & Hs & HF1 & Hs1 & Hk & S1); [|done].
  apply prim_release_inv in R as (HF2 & Hs2 & S2); [|done..].
  split; [by exists k|]. rewrite Hs2, S2. done.
Qed.

(** ** Reachable states: submissions and completions in any order *)

Inductive ddl_step : ddl -> ddl -> Prop :=
| step_submit fuel m now b w s s' :
    ddl_submit fuel m now b w s = Ok (tt, s') -> ddl_step s s'
| step_complete fuel s s' :
    PrimRBTree fuel 0 s = Ok (tt, s') -> ddl_step s s'.

Definition ddl_reachable (s : ddl) : Prop := rtc ddl_step ddl_init s.

Definition ddl_inv (s : ddl) : Prop := ddl_flat s /\ forall t, 0 <= t_size s t.

Lemma ddl_init_inv : ddl_inv ddl_init.
Proof.
  split; [|done]. split; [done|]. split; [by left|]. intros t. split; [done|by left].
Qed.

Lemma PrimRBTree_inv fuel s u s' :
  ddl_inv s -> PrimRBTree fuel 0 s = Ok (u, s') ->
  ddl_inv s' /\
  let t := if t_size s 0 =? 0 then 1 else 0 in
  (exists k, n_p (nmem s (NSen t)) = [NNode t k; NNull; NNull]) /\
  n_p (nmem s' (NSen t)) = [NNull; NNull; NNull] /\
  (t = 0 -> t_size s' 0 = t_size s 0 - 1).
Proof.
  intros [HF Hsz] R. unfold PrimRBTree in R. apply M_bind_inv in R as (sz & s1 & R1 & R).
  mdestruct R1. cbn [Z.eqb andb] in R.
  destruct (Z.eqb_spec (t_size s 0) 0) as [E|E]; cbn [andb] in R.
  - apply prim_tree_inv in R as (Hk & HF' & Hs' & S'); [|done]. split; [|done].
    split; [done|]. intros t. rewrite S'. destruct (Z.eqb_spec (t_size s 1) 0); [apply Hsz|].
    unfold updz. pose proof (Hsz 1). destruct (1 =? t); [lia|apply Hsz].
  - apply prim_tree_inv in R as (Hk & HF' & Hs' & S'); [|done].
    destruct (Z.eqb_spec (t_size s 0) 0); [done|]. split; [split; [done|]|split; [done|split; [done|]]].
    + intros t. rewrite S'. unfold updz. pose proof (Hsz 0). destruct (0 =? t); [lia|apply Hsz].
    + intros _. rewrite S'. done.
Qed.

Lemma ddl_step_inv s s' : ddl_inv s -> ddl_step s s' -> ddl_inv s'.
Proof.
  intros [HF Hsz] Hst. destruct Hst as [fuel m now b w s s' R|fuel s s' R].
  - apply ddl_submit_inv in R as (k & _ & HF' & _ & _ & S'); [|done]. split; [done|].
    intros t. rewrite S'. unfold updz. pose proof (Hsz w). destruct (w =? t); [lia|apply Hsz].
  - by apply PrimRBTree_inv in R as [? _].
Qed.

Lemma ddl_reachable_inv s : ddl_reachable s -> ddl_inv s.
Proof.
  intros H. cut (ddl_inv ddl_init); [|exact ddl_init_inv].
  unfold ddl_reachable in H. induction H; eauto using ddl_step_inv.
Qed.

(** The requests a traversal of tree [t] finds, in order. *)
Fixpoint inorder (k : nat) (s : ddl) (p : nptr) : list req :=
  match k with
  | O => []
  | S k =>
      match p with
      | NNull => []
      | _ =>
          match n_p (nmem s p) with
          | l :: r :: _ => inorder k s l ++ n_data (nmem s p) :: inorder k s r
          | _ => [n_data (nmem s p)]
          end
      end
  end.

Definition tree_reqs (k : nat) (s : ddl) (t : Z) : list req :=
  match n_p (nmem s (NSen t)) with l :: _ => inorder k s l | [] => [] end.

(** ** Theorems *)

(** in every reachable state of the deadline scheduler the root of both
    trees is NULL: [virtio_disk_init] sets it so and no function assigns it. *)
Theorem deadline_root_stays_null s t (Hr : ddl_reachable s) : t_root s t = NNull.
Proof. by apply ddl_reachable_inv in Hr as [(Hroot & _) _]. Qed.

Lemma deadline_root_stays_null_witness : t_root ddl_init 1 = NNull.
Proof. exact (deadline_root_stays_null ddl_init 1 (rtc_refl ddl_step ddl_init)). Defined.

(** after a submission the tree of its direction holds that request and
    no other, however many requests its size counter says are waiting: the
    insertion replaces the node under the sentinel instead of descending. *)
Theorem deadline_tree_keeps_only_last fuel m now b w s s' k
    (Hr : ddl_reachable s) (Hrun : ddl_submit fuel m now b w s = Ok (tt, s'))
    (Hk : (2 <= k)%nat) :
  tree_reqs k s' w = [mkreq b w] /\ t_size s' w = t_size s w + 1.
Proof.
  apply ddl_reachable_inv in Hr as [HF _].
  apply ddl_submit_inv in Hrun as (i & _ & (_ & _ & Hs) & Hsen & Hd & Hsz); [|done].
  split; [|rewrite Hsz; unfold updz; by rewrite Z.eqb_refl].
  assert (n_p (nmem s' (NNode w i)) = [NNull; NNull; NSen w]) as Hp.
  { destruct (Hs w) as [_ [E|(j & E & Ep)]]; rewrite Hsen in E; [done|]. by injection E as <-. }
  unfold tree_reqs. rewrite Hsen. destruct k as [|[|k]]; [lia|lia|].
  cbn [inorder]. rewrite Hp, Hd. done.
Qed.

Definition ddl_run (s : ddl) (r : res (unit * ddl)) : ddl := snd (ok_or (tt, s) r).

(** A read of block 7 at tick 0, then a read of block 3 at tick 1. *)
Definition ddl_mem : bufmem := fun b => match b with BBuf i => Z.of_nat i | _ => 0 end.
Definition ddl_s1 : ddl := ddl_run ddl_init (ddl_submit 4 ddl_mem 0 (BBuf 7) 0 ddl_init).
Definition ddl_s2 : ddl := ddl_run ddl_s1 (ddl_submit 4 ddl_mem 1 (BBuf 3) 0 ddl_s1).
Definition ddl_s3 : ddl := ddl_run ddl_s2 (PrimRBTree 4 0 ddl_s2).

Lemma ddl_run_eq s r : is_ok r = true -> r = Ok (tt, ddl_run s r).
Proof. destruct r as [[[] s']| | |]; done. Qed.

Lemma ddl_s1_run : ddl_submit 4 ddl_mem 0 (BBuf 7) 0 ddl_init = Ok (tt, ddl_s1).
Proof. apply ddl_run_eq. vm_compute. reflexivity. Qed.

Lemma ddl_s2_run : ddl_submit 4 ddl_mem 1 (BBuf 3) 0 ddl_s1 = Ok (tt, ddl_s2).
Proof. apply ddl_run_eq. vm_compute. reflexivity. Qed.

Lemma ddl_s3_run : PrimRBTree 4 0 ddl_s2 = Ok (tt, ddl_s3).
Proof. apply ddl_run_eq. vm_compute. reflexivity. Qed.

Lemma ddl_s1_reachable : ddl_reachable ddl_s1.
Proof. eapply rtc_once, step_submit. exact ddl_s1_run. Qed.

Lemma deadline_tree_keeps_only_last_witness :
  tree_reqs 9 ddl_s2 0 = [mkreq (BBuf 3) 0] /\ t_size ddl_s2 0 = t_size ddl_s1 0 + 1.
Proof.
  exact (deadline_tree_keeps_only_last 4 ddl_mem 1 (BBuf 3) 0 ddl_s1 ddl_s2 9
    ddl_s1_reachable ddl_s2_run ltac:(lia)).
Defined.

(** two reads in flight break the deadline scheduler: after the second
    submission, the completion of the first read empties the tree and the
    completion of the second can never succeed (it follows a NULL parent). *)
Theorem deadline_second_completion_fails f1 m1 now1 b1 f2 m2 now2 b2 f3 s s1 s2 s3
    (Hr : ddl_reachable s)
    (H1 : ddl_submit f1 m1 now1 b1 0 s = Ok (tt, s1))
    (H2 : ddl_submit f2 m2 now2 b2 0 s1 = Ok (tt, s2))
    (H3 : PrimRBTree f3 0 s2 = Ok (tt, s3)) :
  forall fuel r, PrimRBTree fuel 0 s3 <> Ok r.
Proof.
  intros fuel [u s4] H4. apply ddl_reachable_inv in Hr as [HF Hsz].
  apply ddl_submit_inv in H1 as (k1 & _ & HF1 & _ & _ & S1); [|done].
  assert (ddl_inv s2) as HI2.
  { eapply ddl_step_inv; [|eapply step_submit; exact H2]. split; [done|].
    intros t. rewrite S1. unfold updz. pose proof (Hsz 0). destruct (0 =? t); [lia|apply Hsz]. }
  apply ddl_submit_inv in H2 as (k2 & _ & _ & _ & _ & S2); [|done].
  pose proof (Hsz 0). assert (t_size s2 0 = t_size s 0 + 2) as E2
    by (rewrite S2, S1; unfold updz; simpl; lia).
  apply PrimRBTree_inv in H3 as (HI3 & _ & Hs3 & S3); [|done].
  destruct (Z.eqb_spec (t_size s2 0) 0); [lia|]. specialize (S3 eq_refl).
  apply PrimRBTree_inv in H4 as (_ & (k & Hk) & _); [|done].
  destruct (Z.eqb_spec (t_size s3 0) 0); [lia|]. by rewrite Hs3 in Hk.
Qed.

Lemma deadline_second_completion_fails_witness :
  t_size ddl_s3 0 = 1 /\ forall fuel r, PrimRBTree fuel 0 ddl_s3 <> Ok r.
Proof.
  split; [vm_compute; reflexivity|].
  exact (deadline_second_completion_fails 4 ddl_mem 0 (BBuf 7) 4 ddl_mem 1 (BBuf 3) 4
    ddl_init ddl_s1 ddl_s2 ddl_s3 (rtc_refl ddl_step ddl_init)
    ddl_s1_run ddl_s2_run ddl_s3_run).
Defined.

(** the deadline itself never works: once the first request of a ring has
    waited longer than the ring's limit, [RenewReadyArea] can only fail; the
    path that should promote the request ends in a memory error. *)
Theorem deadline_expiry_never_served s now i fuel
    (Hr : ddl_reachable s) (Hi : i = 0 \/ i = 1) (He : expired s now i) :
  forall r, RenewReadyArea fuel now s <> Ok r.
Proof.
  intros [u s'] R. apply ddl_reachable_inv in Hr as [HF _].
  apply RenewReadyArea_inv in R as (_ & H0 & H1); [|done].
  destruct Hi as [-> | ->]; contradiction.
Qed.

Lemma deadline_expiry_never_served_witness :
  expired ddl_s1 23 0 /\ forall r, RenewReadyArea 9 23 ddl_s1 <> Ok r.
Proof.
  assert (expired ddl_s1 23 0) as He by (split; vm_compute; congruence).
  split; [exact He|].
  exact (deadline_expiry_never_served ddl_s1 23 0 9 ddl_s1_reachable (or_introl eq_refl) He).
Defined.

(** [Rotate] rewires the wrong grandchild: it follows the child of
    [newP] on the outer side, so a rotation whose outer grandchild is NULL
    (any rotation of a two-node chain) is a NULL dereference. *)
Theorem Rotate_faults_without_outer_child s node dir newP par
    (Hdir : dir = 0 \/ dir = 1)
    (Hnew : zidx (n_p (nmem s node)) (1 - dir) = Some newP)
    (Hpar : zidx (n_p (nmem s node)) 2 = Some par)
    (Hout : zidx (n_p (nmem s newP)) (1 - dir) = Some NNull)
    (Hd1 : newP <> node) (Hd2 : par <> newP) (Hd3 : par <> node) :
  forall r, Rotate node dir s <> Ok r.
Proof.
  intros [u s'] R. unfold Rotate in R.
  do 3 (apply M_bind_inv in R as (? & ? & ? & R); dinv). simplify_eq.
  apply M_bind_inv in R as (u1 & s1 & R1 & R).
  assert (nmem s1 newP = nmem s newP /\ nmem s1 node = nmem s node) as [E1 E2].
  { destruct (nptr_eqb _ _); dinv; cbn [set_nmem nmem]; by rewrite !updn_ne. }
  apply M_bind_inv in R as (par' & s2 & R2 & R). dinv. 
  do 3 (apply M_bind_inv in R as (? & ? & ? & R); dinv).
  apply M_bind_inv in R as (g & s3 & R3 & R). dinv. cbn [set_nmem nmem] in *.
  apply M_bind_inv in R as (u5 & s5 & R5 & R). apply put_p_inv in R5 as (l & Hv & _).
  enough (g = NNull) as -> by done.
  match goal with X : zidx _ _ = Some g |- _ => rename X into Hg end.
  rewrite updn_ne, updn_eq in Hg by congruence. cbn [n_p] in Hg. rewrite E1 in *.
  match goal with X : wr (n_p (nmem s newP)) 2 _ = Ok _ |- _ => rename X into Hw end.
  assert (0 <= 2 < Z.of_nat (length (n_p (nmem s newP)))) as Hlen.
  { destruct (decide (0 <= 2 < Z.of_nat (length (n_p (nmem s newP))))); [done|].
    rewrite wr_Fault in Hw by done. discriminate Hw. }
  rewrite wr_Ok in Hw by done. injection Hw as <-.
  rewrite zidx_insert_ne in Hg by lia. congruence.
Qed.

(** Two nodes in a row below the sentinel of tree 0. *)
Definition chain_state : ddl :=
  set_nmem (updn (updn (nmem ddl_init) (NNode 0 1)
    (mkNode 0 BLACK (mkreq (BBuf 1) 0) [NNull; NNode 0 2; NSen 0] SNull)) (NNode 0 2)
    (mkNode 0 RED (mkreq (BBuf 2) 0) [NNull; NNull; NNode 0 1] SNull)) ddl_init.

Lemma Rotate_faults_without_outer_child_witness :
  t_root chain_state 0 = NNull /\ forall r, Rotate (NNode 0 1) 0 chain_state <> Ok r.
Proof.
  split; [reflexivity|].
  exact (Rotate_faults_without_outer_child chain_state (NNode 0 1) 0 (NNode 0 2) (NSen 0)
    (or_introl eq_refl) eq_refl eq_refl eq_refl
    ltac:(discriminate) ltac:(discriminate) ltac:(discriminate)).
Defined.
