(* ===== verification/DeadlineIdle.v ===== *)
(** * The deadline scheduler with one request outstanding

    kernel/virtio_disk.c: from an idle state a submission and its completion
    run without an error and lead back to an idle state. *)

From S2P Require Import Prelude Request Deadline.

Lemma getn_Ok p s : nvalid p = true -> getn p s = Ok (nmem s p, s).
Proof. unfold getn. by intros ->. Qed.

Lemma putn_Ok p n s : nvalid p = true -> putn p n s = Ok (tt, set_nmem (updn (nmem s) p n) s).
Proof. unfold putn. by intros ->. Qed.

Lemma gets__Ok p s : svalid p = true -> gets_ p s = Ok (smem s p, s).
Proof. unfold gets_. by intros ->. Qed.

Lemma puts_Ok p n s : svalid p = true -> puts p n s = Ok (tt, set_smem (upds (smem s) p n) s).
Proof. unfold puts. by intros ->. Qed.

Lemma get_p_Ok p k v s :
  nvalid p = true -> zidx (n_p (nmem s p)) k = Some v -> get_p p k s = Ok (v, s).
Proof. intros Hv Hz. unfold get_p. mrun (getn_Ok p s Hv). unfold lift. by rewrite (rd_Ok _ _ _ Hz). Qed.

Lemma put_p_Ok p k v l s :
  nvalid p = true -> wr (n_p (nmem s p)) k v = Ok l ->
  put_p p k v s = Ok (tt, set_nmem (updn (nmem s) p (mkNode (n_rank (nmem s p))
    (n_color (nmem s p)) (n_data (nmem s p)) l (n_pSection (nmem s p)))) s).
Proof.
  intros Hv Hw. unfold put_p. mrun (getn_Ok p s Hv). rewrite (M_bind_lift _ _ _ _ Hw).
  by apply putn_Ok.
Qed.

Lemma put_color_Ok p c s :
  nvalid p = true ->
  put_color p c s = Ok (tt, set_nmem (updn (nmem s) p (mkNode (n_rank (nmem s p))
    c (n_data (nmem s p)) (n_p (nmem s p)) (n_pSection (nmem s p)))) s).
Proof. intros Hv. unfold put_color. mrun (getn_Ok p s Hv). by apply putn_Ok. Qed.

Lemma get_color_Ok p s : nvalid p = true -> get_color p s = Ok (n_color (nmem s p), s).
Proof. intros Hv. unfold get_color. by mrun (getn_Ok p s Hv). Qed.

Lemma put_pBack_Ok p v s :
  svalid p = true -> put_pBack p v s = Ok (tt, set_smem (upds (smem s) p
    (mkSection (s_rank (smem s p)) (s_time (smem s p)) (s_data (smem s p))
       (s_pFront (smem s p)) v (s_pNode (smem s p)))) s).
Proof. intros Hv. unfold put_pBack. mrun (gets__Ok p s Hv). by apply puts_Ok. Qed.

Lemma put_pFront_Ok p v s :
  svalid p = true -> put_pFront p v s = Ok (tt, set_smem (upds (smem s) p
    (mkSection (s_rank (smem s p)) (s_time (smem s p)) (s_data (smem s p))
       v (s_pBack (smem s p)) (s_pNode (smem s p)))) s).
Proof. intros Hv. unfold put_pFront. mrun (gets__Ok p s Hv). by apply puts_Ok. Qed.

(** The slot a tree or ring with a full free list hands out. *)
Definition slot (l : list Z) : Z := ok_or 0 (rd l 127).

Record ring_idle (s : ddl) (w : Z) : Prop := {
  ri_size : r_size s w = 0;
  ri_cap : r_capacity s w = 128;
  ri_pos : r_pos s w = 127;
  ri_len : length (r_avail s w) = 128%nat;
  ri_slot : idx_ok 128 (slot (r_avail s w)) = true;
  ri_limit : r_timeLimit s w = 22;
  ri_front : s_pBack (smem s (SSen w)) = SNull;
  ri_rank : forall i, idx_ok 128 (s_rank (smem s (SSec w i))) = true;
  ri_back : forall i, s_pBack (smem s (SSec w i)) = SNull \/
    (exists j, idx_ok 128 j = true /\ s_pBack (smem s (SSec w i)) = SSec w j);
  ri_rear : (r_rear s w = SSen w /\ forall i, s_pBack (smem s (SSec w i)) = SNull) \/
    (exists j, idx_ok 128 j = true /\ r_rear s w = SSec w j);
}.

Record tree_idle (s : ddl) (t : Z) : Prop := {
  ti_size : t_size s t = 0;
  ti_cap : t_capacity s t = 128;
  ti_pos : t_pos s t = 127;
  ti_len : length (t_avail s t) = 128%nat;
  ti_slot : idx_ok 128 (slot (t_avail s t)) = true;
  ti_sen : n_p (nmem s (NSen t)) = [NNull; NNull; NNull];
  ti_rank : forall i, idx_ok 128 (n_rank (nmem s (NNode t i))) = true;
}.

Definition ddl_idle (s : ddl) : Prop :=
  ddl_flat s /\ forall t, idx_ok 2 t = true -> tree_idle s t /\ ring_idle s t.

Lemma ddl_init_idle : ddl_idle ddl_init.
Proof.
  split; [apply ddl_init_inv|]. intros t Ht. 
  assert (t = 0 \/ t = 1) as [-> | ->] by (unfold idx_ok in Ht; lia);
    split; constructor; try done; (by left) || (intros; by left).
Qed.

Lemma slot_rd l : length l = 128%nat -> rd l 127 = Ok (slot l).
Proof.
  intros Hl. unfold slot. destruct (zidx_is_Some l 127) as [v Hv]; [lia|].
  by rewrite (rd_Ok _ _ _ Hv).
Qed.

Lemma updz_eq {A} (f : Z -> A) k v : updz f k v k = v.
Proof. unfold updz. by rewrite Z.eqb_refl. Qed.

Lemma sptr_eqb_spec a b : reflect (a = b) (sptr_eqb a b).
Proof.
  destruct a as [|t|t i], b as [|t'|t' i']; simpl; try (constructor; congruence).
  - destruct (Z.eqb_spec t t'); constructor; congruence.
  - destruct (Z.eqb_spec t t'), (Z.eqb_spec i i'); constructor; congruence.
Qed.

Lemma sptr_eqb_refl a : sptr_eqb a a = true.
Proof. by destruct (sptr_eqb_spec a a). Qed.

#[local] Arguments sptr_eqb : simpl never.

Lemma upds_eq {A} (f : sptr -> A) p v : upds f p v p = v.
Proof. unfold upds. by destruct (sptr_eqb_spec p p). Qed.

(** The fields of a section after [InsertToRing], from the old ring. *)
Record ring_pushed (s s' : ddl) (w now : Z) (x : req) : Prop := {
  rp_nodes : nmem s' = nmem s /\ t_root s' = t_root s /\ t_size s' = t_size s /\
    t_capacity s' = t_capacity s /\ t_pos s' = t_pos s /\ t_avail s' = t_avail s;
  rp_ring : r_size s' = updz (r_size s) w 1 /\ r_pos s' = updz (r_pos s) w 126 /\
    r_rear s' = updz (r_rear s) w (SSec w (slot (r_avail s w))) /\
    r_avail s' = r_avail s /\ r_capacity s' = r_capacity s /\ r_timeLimit s' = r_timeLimit s;
  rp_rank : forall p, s_rank (smem s' p) = s_rank (smem s p);
  rp_back : forall p, s_pBack (smem s' p) =
    if sptr_eqb (r_rear s w) p then SSec w (slot (r_avail s w)) else s_pBack (smem s p);
  rp_new : s_pFront (smem s' (SSec w (slot (r_avail s w)))) = r_rear s w /\
    s_time (smem s' (SSec w (slot (r_avail s w)))) = s32 now;
}.

Lemma ring_rear_valid s w : idx_ok 2 w = true -> ring_idle s w -> svalid (r_rear s w) = true.
Proof.
  intros Hw []. destruct ri_rear0 as [[-> _]|(j & Hj & ->)]; simpl; [done|].
  by rewrite Hw.
Qed.

Lemma InsertToRing_idle s w now x :
  idx_ok 2 w = true -> ring_idle s w ->
  exists s', InsertToRing now w x s = Ok (SSec w (slot (r_avail s w)), s') /\
             ring_pushed s s' w now x.
Proof.
  intros Hw Hri. pose proof (ring_rear_valid _ _ Hw Hri) as Hrear. destruct Hri.
  assert (svalid (SSec w (slot (r_avail s w))) = true) as Hv by (simpl; by rewrite Hw).
  eexists. split.
  - unfold InsertToRing. mgo. rewrite ri_size0, ri_cap0. cbn [Z.eqb]. mgo.
    cbn [r_pos r_avail r_rear set_r_size set_r_pos]. rewrite ri_pos0.
    rewrite (M_bind_lift _ _ _ _ (slot_rd _ ri_len0)). mgo. cbn [r_rear set_r_pos set_r_size].
    rewrite (M_bind_Ok _ _ _ _ _ (gets__Ok _ _ Hv)).
    rewrite (M_bind_Ok _ _ _ _ _ (puts_Ok _ _ _ Hv)).
    rewrite (M_bind_Ok _ _ _ _ _ (put_pBack_Ok _ _ _ Hrear)). mgo. reflexivity.
  - set (k := slot (r_avail s w)) in *. constructor.
    + done.
    + done.
    + intros p. cbn. unfold upds. destruct (sptr_eqb_spec (r_rear s w) p) as [->|]; cbn.
      * by destruct (sptr_eqb_spec (SSec w k) p) as [<-|].
      * by destruct (sptr_eqb_spec (SSec w k) p) as [<-|].
    + intros p. cbn. unfold upds. destruct (sptr_eqb (r_rear s w) p) eqn:E; cbn; [done|].
      by destruct (sptr_eqb_spec (SSec w k) p) as [<-|].
    + cbn. unfold upds. fold k.
      destruct (sptr_eqb_spec (r_rear s w) (SSec w k)) as [->|]; cbn;
        by rewrite sptr_eqb_refl.
Qed.

Lemma renew_ring_skip fuel now i s :
  idx_ok 2 i = true ->
  s_pBack (smem s (SSen i)) = SNull \/
  (svalid (s_pBack (smem s (SSen i))) = true /\ r_timeLimit s i = 22 /\
   s_time (smem s (s_pBack (smem s (SSen i)))) = now) ->
  renew_ring fuel now i s = Ok (tt, s).
Proof.
  intros Hi Hb. unfold renew_ring.
  rewrite (M_bind_Ok _ _ _ _ _ (gets__Ok (SSen i) s Hi)). destruct Hb as [-> |(Hv & Hl & Ht)]; [done|].
  destruct (sptr_eqb_spec (s_pBack (smem s (SSen i))) SNull); [done|].
  rewrite (M_bind_Ok _ _ _ _ _ (gets__Ok _ s Hv)). mgo. by rewrite Hl, Ht, Z.sub_diag.
Qed.

Lemma leftmost_one fuel t k s :
  idx_ok 2 t = true -> idx_ok 128 k = true -> (2 <= fuel)%nat ->
  n_p (nmem s (NSen t)) = [NNode t k; NNull; NNull] ->
  n_p (nmem s (NNode t k)) = [NNull; NNull; NSen t] ->
  leftmost fuel (NSen t) s = Ok (NNode t k, s).
Proof.
  intros Ht Hk Hf Hs Hn. destruct fuel as [|[|fuel]]; [lia|lia|]. cbn [leftmost].
  rewrite (M_bind_Ok _ _ s (NNode t k) s) by (apply get_p_Ok; [done|by rewrite Hs]).
  cbn [nptr_eqb]. rewrite (M_bind_Ok _ _ s NNull s); [done|].
  apply get_p_Ok; [simpl; by rewrite Ht|by rewrite Hn].
Qed.

(** The state a submission to the idle tree [t] leaves. *)
Record tree_pushed (s s' : ddl) (t : Z) (x : req) : Prop := {
  tp_sections : smem s' = smem s /\ r_size s' = r_size s /\ r_pos s' = r_pos s /\
    r_rear s' = r_rear s /\ r_avail s' = r_avail s /\ r_capacity s' = r_capacity s /\
    r_timeLimit s' = r_timeLimit s;
  tp_tree : t_root s' = t_root s /\ t_size s' = updz (t_size s) t 1 /\
    t_capacity s' = t_capacity s /\ t_pos s' = updz (t_pos s) t 126 /\ t_avail s' = t_avail s;
  tp_flat : ddl_flat s';
  tp_sen : n_p (nmem s' (NSen t)) = [NNode t (slot (t_avail s t)); NNull; NNull];
  tp_other : forall t', t' <> t -> nmem s' (NSen t') = nmem s (NSen t');
  tp_data : n_data (nmem s' (NNode t (slot (t_avail s t)))) = x;
  tp_rank : forall p, n_rank (nmem s' p) = n_rank (nmem s p);
  tp_ready : readyArea s' = x;
}.

(** No ring has a request that is older than the current tick. *)
Definition fresh_rings (s : ddl) (now : Z) : Prop := forall i, idx_ok 2 i = true ->
  s_pBack (smem s (SSen i)) = SNull \/
  (svalid (s_pBack (smem s (SSen i))) = true /\ r_timeLimit s i = 22 /\
   s_time (smem s (s_pBack (smem s (SSen i)))) = now).

Lemma RenewReadyArea_ok fuel now s t k :
  fresh_rings s now -> idx_ok 2 t = true -> idx_ok 128 k = true -> (2 <= fuel)%nat ->
  n_p (nmem s (NSen t)) = [NNode t k; NNull; NNull] ->
  n_p (nmem s (NNode t k)) = [NNull; NNull; NSen t] ->
  (if t_size s 0 =? 0 then 1 else 0) = t ->
  RenewReadyArea fuel now s = Ok (tt, set_readyArea (n_data (nmem s (NNode t k))) s).
Proof.
  intros Hf Ht Hk Hfuel Hs Hn Hsz. unfold RenewReadyArea.
  rewrite (M_bind_Ok _ _ _ _ _ (renew_ring_skip fuel now 0 s eq_refl (Hf 0 eq_refl))).
  rewrite (M_bind_Ok _ _ _ _ _ (renew_ring_skip fuel now 1 s eq_refl (Hf 1 eq_refl))).
  rewrite (M_bind_Ok _ _ s (n_data (nmem s (NNode t k))) s); [done|].
  unfold GetFromRBTree. mgo. cbn [Z.eqb andb].
  rewrite (M_bind_Ok _ _ s (NNode t k) s).
  - rewrite (M_bind_Ok _ _ _ _ _ (getn_Ok (NNode t k) s ltac:(simpl; by rewrite Ht))). done.
  - destruct (t_size s 0 =? 0); subst t; by apply leftmost_one.
Qed.

Lemma BalanceAfterAddition_ok fuel t k s :
  (1 <= fuel)%nat -> idx_ok 2 t = true -> idx_ok 128 k = true -> t_root s t = NNull ->
  n_color (nmem s (NSen t)) = BLACK -> n_p (nmem s (NNode t k)) = [NNull; NNull; NSen t] ->
  BalanceAfterAddition fuel (NNode t k) t s = Ok (tt, s).
Proof.
  intros Hf Ht Hk Hr Hc Hn. destruct fuel as [|fuel]; [lia|]. unfold BalanceAfterAddition.
  rewrite (M_bind_Ok _ _ s tt s).
  - mgo. by rewrite Hr.
  - cbn [balance_addition_loop].
    rewrite (M_bind_Ok _ _ s (NSen t) s) by (apply get_p_Ok; [simpl; by rewrite Ht|by rewrite Hn]).
    rewrite (M_bind_Ok _ _ _ _ _ (get_color_Ok (NSen t) s Ht)). by rewrite Hc.
Qed.

Lemma wr_node_parent_ok f t i :
  node_ok f t i -> wr (n_p (f (NNode t i))) 2 (NSen t) = Ok [NNull; NNull; NSen t].
Proof. by intros [-> | ->]. Qed.

Lemma InsertToRBTree_idle fuel m s t now x :
  idx_ok 2 t = true -> ddl_flat s -> tree_idle s t -> (2 <= fuel)%nat ->
  t = 0 \/ t_size s 0 = 0 -> fresh_rings s now ->
  exists s', InsertToRBTree fuel m now t x s = Ok (NNode t (slot (t_avail s t)), s') /\
             tree_pushed s s' t x.
Proof.
  intros Ht HF [] Hf H0 Hfr. pose proof HF as (Hr & Hn & Hs).
  set (k := slot (t_avail s t)) in *.
  assert (nvalid (NNode t k) = true) as Hv by (simpl; by rewrite Ht).
  set (n0 := nmem s (NNode t k)).
  set (n1 := mkNode (n_rank n0) RED x [NNull; NNull; NSen t] (n_pSection n0)).
  set (n3 := mkNode (n_rank n0) BLACK x [NNull; NNull; NSen t] (n_pSection n0)).
  set (s2 := set_nmem (attach (nmem s) t k n1 n3)
         (set_t_pos (updz (t_pos s) t 126) (set_t_size (updz (t_size s) t 1) s))).
  assert (flat (attach (nmem s) t k n1 n3) (t_root s)) as Hat by (by apply flat_attach).
  exists (set_readyArea x s2). split.
  - unfold InsertToRBTree. mgo. rewrite ti_size0, ti_cap0. cbn [Z.eqb]. mgo.
    cbn [t_root set_t_size]. rewrite Hr.
    rewrite (M_bind_Ok _ _ _ (NSen t, 0) (set_t_size (updz (t_size s) t (0 + 1)) s))
      by (destruct fuel; done).
    mgo. cbn [t_pos t_avail set_t_size]. rewrite ti_pos0.
    rewrite (M_bind_lift _ _ _ _ (slot_rd _ ti_len0)). mgo. fold k.
    rewrite (M_bind_Ok _ _ _ _ _ (getn_Ok _ _ Hv)).
    rewrite (M_bind_lift _ _ _ _ (wr_node_parent_ok _ _ _ (Hn t k))).
    rewrite (M_bind_Ok _ _ _ _ _ (putn_Ok _ _ _ Hv)).
    erewrite M_bind_Ok.
    2: { apply put_p_Ok; [done|]. cbn [nmem set_nmem set_t_pos set_t_size].
         rewrite updn_ne, ti_sen0 by done. reflexivity. }
    rewrite nptr_eqb_refl. rewrite (M_bind_Ok _ _ _ _ _ (put_color_Ok _ _ _ Hv)).
    match goal with |- (_ ≫= _) ?st = _ => assert (st = s2) as -> end.
    { unfold s2, attach. cbn [nmem set_nmem set_t_pos set_t_size].
      rewrite (updn_ne _ (NSen t) (NNode t k)), updn_eq by done. done. }
    rewrite (M_bind_Ok _ _ s2 tt s2).
    2: { apply BalanceAfterAddition_ok; [lia|done|done|apply Hr|apply Hat|].
         unfold s2, attach. cbn [nmem set_nmem]. by rewrite updn_eq. }
    rewrite (M_bind_Ok _ _ s2 tt (set_readyArea x s2)); [done|].
    assert (nmem s2 (NNode t k) = n3) as E3
      by (unfold s2, attach; cbn [nmem set_nmem]; by rewrite updn_eq).
    rewrite (RenewReadyArea_ok fuel now s2 t k);
      [by rewrite E3|exact Hfr|done|done|done| |by rewrite E3|].
    + unfold s2, attach. cbn [nmem set_nmem]. rewrite updn_ne, updn_eq by done. done.
    + unfold s2, updz. cbn [t_size set_nmem set_t_pos set_t_size]. unfold idx_ok in Ht.
      destruct (Z.eqb_spec t 0) as [->|]; [done|]. destruct H0 as [|H0]; [done|]. rewrite H0. simpl. lia.
  - constructor; try done; cbn [nmem set_readyArea set_nmem s2]; unfold attach; fold k.
    + rewrite updn_ne, updn_eq by done. done.
    + intros t' Hne. rewrite !updn_ne by congruence. done.
    + by rewrite updn_eq.
    + intros p. unfold updn. destruct (nptr_eqb_spec (NNode t k) p) as [<-|]; [done|].
      by destruct (nptr_eqb_spec (NSen t) p) as [<-|].
Qed.

(** One request outstanding in direction [w]: node [k], section [kr], and
    [rear] the section that was last in the ring before. *)
Record ddl_busy (s : ddl) (w k kr : Z) (rear : sptr) : Prop := {
  db_flat : ddl_flat s;
  db_k : idx_ok 128 k = true;
  db_kr : idx_ok 128 kr = true;
  db_sen : n_p (nmem s (NSen w)) = [NNode w k; NNull; NNull];
  db_node : n_p (nmem s (NNode w k)) = [NNull; NNull; NSen w];
  db_write : r_write (n_data (nmem s (NNode w k))) = w;
  db_sec : n_pSection (nmem s (NNode w k)) = SSec w kr;
  db_tree : t_size s w = 1 /\ t_capacity s w = 128 /\ t_pos s w = 126 /\
    length (t_avail s w) = 128%nat;
  db_nrank : forall i, idx_ok 128 (n_rank (nmem s (NNode w i))) = true;
  db_ring : r_size s w = 1 /\ r_capacity s w = 128 /\ r_pos s w = 126 /\
    length (r_avail s w) = 128%nat /\ r_timeLimit s w = 22 /\ r_rear s w = SSec w kr;
  db_srank : forall i, idx_ok 128 (s_rank (smem s (SSec w i))) = true;
  db_rear : rear = SSen w \/ (exists j, idx_ok 128 j = true /\ rear = SSec w j);
  db_front : s_pFront (smem s (SSec w kr)) = rear;
  db_sback : s_pBack (smem s (SSen w)) = if sptr_eqb rear (SSen w) then SSec w kr else SNull;
  db_back : forall i, s_pBack (smem s (SSec w i)) = SNull \/
    (exists j, idx_ok 128 j = true /\ s_pBack (smem s (SSec w i)) = SSec w j);
  db_last : rear = SSen w -> s_pBack (smem s (SSec w kr)) = SNull;
  db_other : forall t, idx_ok 2 t = true -> t <> w -> tree_idle s t /\ ring_idle s t;
}.

Lemma updz_ne {A} (f : Z -> A) k v t : t <> k -> updz f k v t = f t.
Proof. intros H. unfold updz. by destruct (Z.eqb_spec k t). Qed.

Lemma tree_pushed_node s s' t x :
  tree_pushed s s' t x ->
  n_p (nmem s' (NNode t (slot (t_avail s t)))) = [NNull; NNull; NSen t].
Proof.
  intros []. destruct tp_flat0 as (_ & _ & Hs).
  destruct (Hs t) as [_ [E|(j & E & Ep)]]; rewrite tp_sen0 in E; [done|]. by injection E as <-.
Qed.

(** The two pointers [rw_queue] stores last. *)
Definition link (ps : sptr) (pn : nptr) (s : ddl) : ddl :=
  let sec := smem s ps in
  let n := nmem s pn in
  set_nmem (updn (nmem s) pn (mkNode (n_rank n) (n_color n) (n_data n) (n_p n) ps))
    (set_smem (upds (smem s) ps (mkSection (s_rank sec) (s_time sec) (s_data sec)
       (s_pFront sec) (s_pBack sec) pn)) s).

Lemma link_section ps pn s p :
  s_rank (smem (link ps pn s) p) = s_rank (smem s p) /\
  s_pBack (smem (link ps pn s) p) = s_pBack (smem s p) /\
  s_pFront (smem (link ps pn s) p) = s_pFront (smem s p).
Proof.
  unfold link. cbn [smem set_nmem set_smem]. unfold upds.
  by destruct (sptr_eqb_spec ps p) as [<-|].
Qed.

Lemma link_node ps pn s p :
  n_rank (nmem (link ps pn s) p) = n_rank (nmem s p) /\
  n_p (nmem (link ps pn s) p) = n_p (nmem s p) /\
  n_data (nmem (link ps pn s) p) = n_data (nmem s p) /\
  n_color (nmem (link ps pn s) p) = n_color (nmem s p).
Proof.
  unfold link. cbn [nmem set_nmem set_smem]. unfold updn.
  by destruct (nptr_eqb_spec pn p) as [<-|].
Qed.

Lemma ring_idle_ext s s' t :
  r_size s' t = r_size s t -> r_capacity s' t = r_capacity s t -> r_pos s' t = r_pos s t ->
  r_avail s' t = r_avail s t -> r_timeLimit s' t = r_timeLimit s t -> r_rear s' t = r_rear s t ->
  s_pBack (smem s' (SSen t)) = s_pBack (smem s (SSen t)) ->
  (forall i, s_rank (smem s' (SSec t i)) = s_rank (smem s (SSec t i)) /\
             s_pBack (smem s' (SSec t i)) = s_pBack (smem s (SSec t i))) ->
  ring_idle s t -> ring_idle s' t.
Proof.
  intros E1 E2 E3 E4 E5 E6 E7 E8 []. constructor; rewrite ?E1, ?E2, ?E3, ?E4, ?E5, ?E6, ?E7; try done.
  - intros i. destruct (E8 i) as [-> _]. done.
  - intros i. destruct (E8 i) as [_ ->]. done.
  - destruct ri_rear0 as [[? Hb]|?]; [left|by right]. split; [done|].
    intros i. destruct (E8 i) as [_ ->]. done.
Qed.

Lemma tree_idle_ext s s' t :
  t_size s' t = t_size s t -> t_capacity s' t = t_capacity s t -> t_pos s' t = t_pos s t ->
  t_avail s' t = t_avail s t -> n_p (nmem s' (NSen t)) = n_p (nmem s (NSen t)) ->
  (forall i, n_rank (nmem s' (NNode t i)) = n_rank (nmem s (NNode t i))) ->
  tree_idle s t -> tree_idle s' t.
Proof.
  intros E1 E2 E3 E4 E5 E6 []. constructor; rewrite ?E1, ?E2, ?E3, ?E4, ?E5; try done.
  intros i. by rewrite E6.
Qed.

(** Submission, after both insertions and the linking, from an idle state. *)
Lemma busy_link s s1 s2 w now x :
  ddl_idle s -> idx_ok 2 w = true -> r_write x = w ->
  ring_pushed s s1 w now x -> tree_pushed s1 s2 w x ->
  ddl_busy (link (SSec w (slot (r_avail s w))) (NNode w (slot (t_avail s w))) s2)
    w (slot (t_avail s w)) (slot (r_avail s w)) (r_rear s w).
Proof.
  intros [HF Hid] Hw Hx HP TP. destruct (Hid w Hw) as [Hti Hri].
  pose proof (tree_pushed_node _ _ _ _ TP) as Hnode.
  destruct HP as [(N1 & Z1 & S1 & C1 & P1 & A1) (RS1 & RP1 & RR1 & RA1 & RC1 & RT1) K1 B1 [F1 _]].
  destruct TP as [(M2 & RS2 & RP2 & RR2 & RA2 & RC2 & RT2) (Z2 & S2 & C2 & P2 & A2) F2 E2 O2 D2 K2 _].
  rewrite A1 in *. set (kr := slot (r_avail s w)) in *. set (k := slot (t_avail s w)) in *.
  set (s3 := link (SSec w kr) (NNode w k) s2).
  assert (forall p, s_rank (smem s3 p) = s_rank (smem s p)) as LR.
  { intros p. unfold s3. destruct (link_section (SSec w kr) (NNode w k) s2 p) as (-> & _). by rewrite M2, K1. }
  assert (forall p, s_pBack (smem s3 p) =
    if sptr_eqb (r_rear s w) p then SSec w kr else s_pBack (smem s p)) as LB.
  { intros p. unfold s3. destruct (link_section (SSec w kr) (NNode w k) s2 p) as (_ & -> & _). by rewrite M2, B1. }
  assert (forall p, n_p (nmem s3 p) = n_p (nmem s2 p)) as NP by (intros; apply link_node).
  assert (forall p, n_rank (nmem s3 p) = n_rank (nmem s p)) as NR.
  { intros p. unfold s3. destruct (link_node (SSec w kr) (NNode w k) s2 p) as (-> & _). by rewrite K2, N1. }
  assert (forall t, t <> w -> forall p, r_rear s w = p -> p <> SSen t /\ forall i, p <> SSec t i) as HR.
  { intros t Ht p <-. destruct (ri_rear _ _ Hri) as [[-> _]|(j & _ & ->)]; split; congruence. }
  constructor; rewrite ?NP; try done; try apply Hti; try apply Hri.
  - unfold ddl_flat, s3, link. cbn [nmem t_root set_nmem set_smem]. by apply flat_update_node.
  - unfold s3. destruct (link_node (SSec w kr) (NNode w k) s2 (NNode w k)) as (_ & _ & -> & _).
    by rewrite D2.
  - unfold s3, link. cbn [nmem set_nmem]. by rewrite updn_eq.
  - unfold s3, link. cbn [t_size t_capacity t_pos t_avail set_nmem set_smem].
    rewrite S2, C2, P2, A2, C1, !updz_eq. destruct Hti. done.
  - intros i. rewrite NR. apply Hti.
  - unfold s3, link. cbn [r_size r_capacity r_pos r_avail r_timeLimit r_rear set_nmem set_smem].
    rewrite RS2, RC2, RP2, RA2, RT2, RR2, RS1, RC1, RP1, RA1, RT1, RR1, !updz_eq. destruct Hri. done.
  - intros i. rewrite LR. apply Hri.
  - destruct (ri_rear _ _ Hri) as [[-> _]|?]; [by left|by right].
  - unfold s3. destruct (link_section (SSec w kr) (NNode w k) s2 (SSec w kr)) as (_ & _ & ->).
    by rewrite M2.
  - rewrite LB. destruct (sptr_eqb _ _); [done|apply Hri].
  - intros i. rewrite LB. destruct (sptr_eqb _ _); [right; exists kr; split; [apply Hri|done]|apply Hri].
  - intros Er. rewrite LB, Er. destruct (ri_rear _ _ Hri) as [[_ Hb]|(j & _ & E)]; [apply Hb|congruence].
  - intros t Ht Hne. destruct (Hid t Ht) as [Hti' Hri']. split.
    + eapply tree_idle_ext; [| | | | | |exact Hti'].
      1-4: unfold s3, link; cbn [t_size t_capacity t_pos t_avail set_nmem set_smem];
        by rewrite ?S2, ?C2, ?P2, ?A2, ?S1, ?C1, ?P1, ?updz_ne by done.
      * rewrite NP, O2, N1 by done. done.
      * intros i. by rewrite NR.
    + destruct (HR t Hne _ eq_refl) as [Ha Hb].
      eapply ring_idle_ext; [| | | | | | | |exact Hri'].
      1-6: unfold s3, link; cbn [r_size r_capacity r_pos r_avail r_timeLimit r_rear set_nmem set_smem];
        by rewrite ?RS2, ?RC2, ?RP2, ?RA2, ?RT2, ?RR2, ?RS1, ?RC1, ?RP1, ?RA1, ?RT1, ?RR1, ?updz_ne by done.
      * rewrite LB. by destruct (sptr_eqb_spec (r_rear s w) (SSen t)).
      * intros i. rewrite LR, LB.
        destruct (sptr_eqb_spec (r_rear s w) (SSec t i)); [by destruct (Hb i)|done].
Qed.

Lemma ddl_submit_idle fuel m s w now b :
  ddl_idle s -> idx_ok 2 w = true -> 0 <= now < 2 ^ 31 -> (2 <= fuel)%nat ->
  exists s', ddl_submit fuel m now b w s = Ok (tt, s') /\ readyArea s' = mkreq b w /\
    ddl_busy s' w (slot (t_avail s w)) (slot (r_avail s w)) (r_rear s w).
Proof.
  intros Hidle Hw Hnow Hf. pose proof Hidle as [HF Hid]. destruct (Hid w Hw) as [Hti Hri].
  destruct (InsertToRing_idle s w now (mkreq b w) Hw Hri) as (s1 & R1 & HP).
  set (kr := slot (r_avail s w)) in *.
  destruct (rp_nodes _ _ _ _ _ HP) as (N1 & Z1 & S1 & C1 & P1 & A1).
  destruct (InsertToRBTree_idle fuel m s1 w now (mkreq b w)) as (s2 & R2 & TP);
    [done| | |done| | |].
  - unfold ddl_flat. by rewrite N1, Z1.
  - eapply tree_idle_ext; [..|exact Hti]; intros; by rewrite ?S1, ?C1, ?P1, ?A1, ?N1.
  - destruct (Z.eq_dec w 0); [by left|right]. rewrite S1. by destruct (Hid 0 eq_refl) as [[] _].
  - intros i Hi. rewrite (rp_back _ _ _ _ _ HP). destruct (Hid i Hi) as [_ Hi'].
    destruct (sptr_eqb_spec (r_rear s w) (SSen i)) as [E|]; [right|left; apply Hi'].
    assert (i = w) as ->. { destruct (ri_rear _ _ Hri) as [[E' _]|(j & _ & E')]; congruence. }
    destruct (rp_ring _ _ _ _ _ HP) as (_ & _ & _ & _ & _ & ->).
    split; [simpl; rewrite Hw; apply Hri|]. split; [apply Hri|].
    destruct (rp_new _ _ _ _ _ HP) as [_ ->]. apply s32_small. lia.
  - rewrite A1 in R2. exists (link (SSec w kr) (NNode w (slot (t_avail s w))) s2).
    split; [|split; [apply TP|by apply (busy_link s s1 s2 w now (mkreq b w))]].
    unfold ddl_submit. rewrite (M_bind_Ok _ _ s w s) by (unfold pair_index; by rewrite Hw).
    mrun R1. mrun R2.
    assert (svalid (SSec w kr) = true) as V1 by (simpl; rewrite Hw; apply Hri).
    assert (nvalid (NNode w (slot (t_avail s w))) = true) as V2 by (simpl; rewrite Hw; apply Hti).
    rewrite (M_bind_Ok _ _ _ _ _ (gets__Ok _ s2 V1)).
    rewrite (M_bind_Ok _ _ _ _ _ (puts_Ok _ _ s2 V1)).
    rewrite (M_bind_Ok _ _ _ _ _ (getn_Ok _ _ V2)). by rewrite putn_Ok.
Qed.

Lemma tree_free_Ok t r s :
  t_pos s t = 126 -> length (t_avail s t) = 128%nat ->
  tree_free t r s = Ok (tt, set_t_avail (updz (t_avail s) t (<[127%nat := r]> (t_avail s t)))
                             (set_t_pos (updz (t_pos s) t 127) s)).
Proof.
  intros Hp Hl. unfold tree_free. mgo. cbn [t_pos t_avail set_t_pos]. rewrite updz_eq, Hp.
  rewrite (M_bind_lift _ _ _ _ (wr_Ok (t_avail s t) (126 + 1) r ltac:(lia))). done.
Qed.

Lemma ring_free_Ok w r s :
  r_pos s w = 126 -> length (r_avail s w) = 128%nat ->
  ring_free w r s = Ok (tt, set_r_avail (updz (r_avail s) w (<[127%nat := r]> (r_avail s w)))
                             (set_r_pos (updz (r_pos s) w 127) s)).
Proof.
  intros Hp Hl. unfold ring_free. mgo. cbn [r_pos r_avail set_r_pos]. rewrite updz_eq, Hp.
  rewrite (M_bind_lift _ _ _ _ (wr_Ok (r_avail s w) (126 + 1) r ltac:(lia))). done.
Qed.

Lemma slot_insert l r : length l = 128%nat -> slot (<[127%nat := r]> l) = r.
Proof.
  intros Hl. unfold slot. rewrite (rd_Ok _ _ r); [done|].
  apply (zidx_insert_eq l 127). lia.
Qed.

Lemma balance_leaf_ok fuel t k s :
  (1 <= fuel)%nat -> idx_ok 2 t = true -> idx_ok 128 k = true ->
  n_p (nmem s (NNode t k)) = [NNull; NNull; NSen t] ->
  BalanceAfterDeletion fuel (NNode t k) t s = put_color (NNode t k) BLACK s.
Proof.
  intros Hf Ht Hk Hn. destruct fuel as [|fuel]; [lia|]. cbn [BalanceAfterDeletion].
  assert (nvalid (NNode t k) = true) as V by (simpl; by rewrite Ht).
  rewrite (M_bind_Ok _ _ s 0 s).
  2: { cbn [find_dir]. rewrite (M_bind_Ok _ _ s NNull s); [done|]. apply get_p_Ok; [done|by rewrite Hn]. }
  rewrite (M_bind_Ok _ _ s (NSen t) s) by (apply get_p_Ok; [done|by rewrite Hn]).
  rewrite nptr_eqb_refl. done.
Qed.

(** The section side of a completion: take section [SSec w kr], whose
    predecessor is [rear], out of the ring. *)
Lemma release_sections s w kr rear :
  idx_ok 2 w = true -> idx_ok 128 kr = true ->
  rear = SSen w \/ (exists j, idx_ok 128 j = true /\ rear = SSec w j) ->
  (forall i, s_pBack (smem s (SSec w i)) = SNull \/
    (exists j, idx_ok 128 j = true /\ s_pBack (smem s (SSec w i)) = SSec w j)) ->
  exists f, (forall K : D unit, (put_pBack rear (s_pBack (smem s (SSec w kr)));;
     sec ← gets_ (SSec w kr);
     (if sptr_eqb (s_pBack sec) SNull then mret tt
      else put_pFront (s_pBack sec) (s_pFront sec));; K) s = K (set_smem f s)) /\
    (forall p, s_rank (f p) = s_rank (smem s p)) /\
    (forall p, s_pBack (f p) = if sptr_eqb rear p then s_pBack (smem s (SSec w kr))
                               else s_pBack (smem s p)).
Proof.
  intros Hw Hkr Hrear Hb. assert (svalid rear = true) as V.
  { destruct Hrear as [-> |(j & Hj & ->)]; simpl; [done|by rewrite Hw]. }
  assert (svalid (SSec w kr) = true) as V2 by (simpl; by rewrite Hw).
  set (f := upds (smem s) rear (mkSection (s_rank (smem s rear)) (s_time (smem s rear))
    (s_data (smem s rear)) (s_pFront (smem s rear)) (s_pBack (smem s (SSec w kr))) (s_pNode (smem s rear)))).
  assert (forall p, s_rank (f p) = s_rank (smem s p)) as FR.
  { intros p. unfold f, upds. by destruct (sptr_eqb_spec rear p) as [<-|]. }
  assert (forall p, s_pBack (f p) = if sptr_eqb rear p then s_pBack (smem s (SSec w kr))
                               else s_pBack (smem s p)) as FB.
  { intros p. unfold f, upds. by destruct (sptr_eqb rear p). }
  destruct (sptr_eqb_spec (s_pBack (f (SSec w kr))) SNull) as [E|E].
  - exists f. split; [|done]. intros K.
    rewrite (M_bind_Ok _ _ _ _ _ (put_pBack_Ok rear _ s V)).
    rewrite (M_bind_Ok _ _ _ _ _ (gets__Ok _ _ V2)). cbn [smem set_smem]. fold f. by rewrite E.
  - assert (exists j, idx_ok 128 j = true /\ s_pBack (f (SSec w kr)) = SSec w j) as (j & Hj & Ej).
    { rewrite FB in E |- *. destruct (Hb kr) as [H|H]; destruct (sptr_eqb _ _); congruence. }
    assert (svalid (s_pBack (f (SSec w kr))) = true) as V3 by (rewrite Ej; simpl; by rewrite Hw).
    set (q := s_pBack (f (SSec w kr))) in *.
    exists (upds f q (mkSection (s_rank (f q)) (s_time (f q)) (s_data (f q))
      (s_pFront (f (SSec w kr))) (s_pBack (f q)) (s_pNode (f q)))). split.
    { intros K. rewrite (M_bind_Ok _ _ _ _ _ (put_pBack_Ok rear _ s V)).
      rewrite (M_bind_Ok _ _ _ _ _ (gets__Ok _ _ V2)). cbn [smem set_smem]. fold f.
      fold q. destruct (sptr_eqb_spec q SNull); [done|].
      rewrite (M_bind_Ok _ _ _ _ _ (put_pFront_Ok _ _ _ V3)). reflexivity. }
    split; intros p; unfold upds at 1;
      destruct (sptr_eqb_spec q p) as [<-|]; cbn [s_rank s_pBack]; by rewrite ?FR, ?FB.
Qed.

Lemma prim_detach_busy fuel s w k kr rear :
  ddl_busy s w k kr rear -> idx_ok 2 w = true -> (2 <= fuel)%nat ->
  exists f, prim_detach fuel w s = Ok (NNode w k,
      set_nmem f (set_t_avail (updz (t_avail s) w (<[127%nat := n_rank (nmem s (NNode w k))]> (t_avail s w)))
        (set_t_pos (updz (t_pos s) w 127) (set_t_size (updz (t_size s) w 0) s)))) /\
    flat f (t_root s) /\ n_p (f (NSen w)) = [NNull; NNull; NNull] /\
    (forall t i, f (NNode t i) = nmem s (NNode t i)) /\
    (forall t, t <> w -> f (NSen t) = nmem s (NSen t)).
Proof.
  intros [] Hw Hf. destruct db_tree0 as (Hsz & _ & Hpos & Hlen).
  assert (nvalid (NNode w k) = true) as V by (simpl; by rewrite Hw).
  eexists. split.
  - unfold prim_detach. mgo. rewrite Hsz. cbn [Z.eqb negb when]. mgo.
    rewrite (M_bind_Ok _ _ _ _ _ (leftmost_one fuel w k
      (set_t_size (updz (t_size s) w (1 - 1)) s) Hw db_k0 Hf db_sen0 db_node0)).
    rewrite (M_bind_Ok _ _ _ _ _ (getn_Ok _ _ V)). 
    rewrite (M_bind_Ok _ _ _ _ _ (tree_free_Ok w _ (set_t_size (updz (t_size s) w (1 - 1)) s) Hpos Hlen)).
    erewrite M_bind_Ok; [|apply get_p_Ok; [done|by cbn; rewrite db_node0]].
    erewrite M_bind_Ok; [|apply put_p_Ok; [done|cbn; by rewrite db_sen0]]. reflexivity.
  - cbn [nmem set_t_avail set_t_pos set_t_size]. rewrite updn_eq. split; [|split; [done|split]].
    + apply flat_update_sen; [done| |by left]. destruct db_flat0 as (_ & _ & Hs). apply Hs.
    + intros. by rewrite updn_ne.
    + intros. rewrite updn_ne by congruence. done.
Qed.

Lemma prim_release_busy fuel s w k kr rear :
  idx_ok 2 w = true -> idx_ok 128 k = true -> idx_ok 128 kr = true -> (1 <= fuel)%nat ->
  n_p (nmem s (NNode w k)) = [NNull; NNull; NSen w] ->
  r_write (n_data (nmem s (NNode w k))) = w -> n_pSection (nmem s (NNode w k)) = SSec w kr ->
  r_pos s w = 126 -> length (r_avail s w) = 128%nat ->
  rear = SSen w \/ (exists j, idx_ok 128 j = true /\ rear = SSec w j) ->
  s_pFront (smem s (SSec w kr)) = rear ->
  (forall i, s_pBack (smem s (SSec w i)) = SNull \/
    (exists j, idx_ok 128 j = true /\ s_pBack (smem s (SSec w i)) = SSec w j)) ->
  exists f n, prim_release fuel w (NNode w k) s = Ok (tt,
      set_nmem (updn (nmem s) (NNode w k) n) (set_smem f
        (set_r_size (updz (r_size s) w (r_size s w - 1))
          (set_r_avail (updz (r_avail s) w (<[127%nat := s_rank (smem s (SSec w kr))]> (r_avail s w)))
             (set_r_pos (updz (r_pos s) w 127) s))))) /\
    n_p n = [NNull; NNull; NSen w] /\ n_rank n = n_rank (nmem s (NNode w k)) /\
    (forall p, s_rank (f p) = s_rank (smem s p)) /\
    (forall p, s_pBack (f p) = if sptr_eqb rear p then s_pBack (smem s (SSec w kr))
                               else s_pBack (smem s p)).
Proof.
  intros Hw Hk Hkr Hf Hn Hwr Hps Hpos Hlen Hrear Hfront Hback.
  assert (nvalid (NNode w k) = true) as V by (simpl; by rewrite Hw).
  assert (svalid (SSec w kr) = true) as V2 by (simpl; by rewrite Hw).
  set (s1 := set_r_size (updz (r_size s) w (r_size s w - 1))
          (set_r_avail (updz (r_avail s) w (<[127%nat := s_rank (smem s (SSec w kr))]> (r_avail s w)))
             (set_r_pos (updz (r_pos s) w 127) s))).
  destruct (release_sections s1 w kr rear Hw Hkr Hrear Hback) as (f & Hrun & FR & FB).
  exists f. eexists. split; [|split; [|split; [|split; [exact FR|exact FB]]]].
  - unfold prim_release. rewrite (M_bind_Ok _ _ _ _ _ (getn_Ok _ s V)). rewrite Hwr, Hps.
    rewrite (M_bind_Ok _ _ s w s) by (unfold pair_index; by rewrite Hw).
    rewrite (M_bind_Ok _ _ _ _ _ (gets__Ok _ s V2)).
    rewrite (M_bind_Ok _ _ _ _ _ (ring_free_Ok w _ s Hpos Hlen)). mgo.
    change (set_r_size _ _) with s1. rewrite Hfront. 
    change (s_pBack (smem s (SSec w kr))) with (s_pBack (smem s1 (SSec w kr))). rewrite Hrun.
    rewrite (M_bind_Ok _ _ _ NNull (set_smem f s1)) by (apply get_p_Ok; [done|cbn; by rewrite Hn]).
    change (nptr_eqb NNull NNull) with true. cbv iota.
    rewrite balance_leaf_ok by done. rewrite put_color_Ok by done. reflexivity.
  - cbn. done.
  - done.
Qed.

Lemma PrimRBTree_busy fuel s w k kr rear :
  ddl_busy s w k kr rear -> idx_ok 2 w = true -> (2 <= fuel)%nat ->
  exists s', PrimRBTree fuel 0 s = Ok (tt, s') /\ ddl_idle s'.
Proof.
  intros HB Hw Hf. destruct (prim_detach_busy fuel s w k kr rear HB Hw Hf)
    as (f & R1 & HF1 & Hsen & Hnode & Hoth). destruct HB.
  set (s1 := set_nmem f _) in R1.
  destruct db_tree0 as (Hsz & Hcap & Hpos & Hlen).
  destruct db_ring0 as (Rsz & Rcap & Rpos & Rlen & Rlim & Rrear).
  assert (nmem s1 (NNode w k) = nmem s (NNode w k)) as Hk by apply Hnode.
  destruct (prim_release_busy fuel s1 w k kr rear Hw db_k0 db_kr0 ltac:(lia)
    ltac:(by rewrite Hk) ltac:(by rewrite Hk) ltac:(by rewrite Hk) Rpos Rlen db_rear0 db_front0 db_back0)
    as (g & n & R2 & Hn & Hnr & GR & GB).
  eexists. split.
  - unfold PrimRBTree. mgo. assert ((0 =? 0) && (t_size s 0 =? 0) = negb (w =? 0)) as ->.
    { destruct (Z.eqb_spec w 0) as [->|]; [by rewrite Hsz|].
      destruct (db_other0 0 eq_refl) as [[] _]; [done|]. by rewrite ti_size0. }
    assert ((if negb (w =? 0) then prim_tree fuel 1 else prim_tree fuel 0) = prim_tree fuel w) as ->.
    { unfold idx_ok in Hw. destruct (Z.eqb_spec w 0) as [->|]; [done|].
      by replace w with 1 by lia. }
    unfold prim_tree. mrun R1. exact R2.
  - change (smem s1) with (smem s) in *. split.
    + apply flat_update_node; [exact HF1|done].
    + intros t Ht. destruct (Z.eq_dec t w) as [->|Hne].
      * split.
        -- constructor; unfold s1; cbn [t_size t_capacity t_pos t_avail nmem set_nmem set_smem set_r_size
             set_r_avail set_r_pos set_t_avail set_t_pos set_t_size]; rewrite ?updz_eq; try done.
           ++ by rewrite length_insert.
           ++ rewrite slot_insert by done. apply db_nrank0.
           ++ intros i. unfold updn. destruct (nptr_eqb_spec (NNode w k) (NNode w i)) as [[= <-]|].
              ** rewrite Hnr, Hk. apply db_nrank0.
              ** rewrite Hnode. apply db_nrank0.
        -- constructor; unfold s1; cbn [r_size r_capacity r_pos r_avail r_timeLimit r_rear smem set_nmem set_smem
             set_r_size set_r_avail set_r_pos set_t_avail set_t_pos set_t_size];
             rewrite ?updz_eq, ?Rsz, ?Rrear; try done.
           ++ by rewrite length_insert.
           ++ rewrite slot_insert by done. apply db_srank0.
           ++ rewrite GB. destruct (sptr_eqb_spec rear (SSen w)); [by apply db_last0|done].
           ++ intros i. rewrite GR. apply db_srank0.
           ++ intros i. rewrite GB. destruct (sptr_eqb rear (SSec w i)); apply db_back0.
           ++ right. by exists kr.
      * destruct (db_other0 t Ht Hne) as [Hti Hri]. split.
        -- eapply tree_idle_ext; [| | | | | |exact Hti]; unfold s1; cbn [t_size t_capacity t_pos t_avail nmem
             set_nmem set_smem set_r_size set_r_avail set_r_pos set_t_avail set_t_pos set_t_size];
             rewrite ?updz_ne by done; try done.
           ++ rewrite updn_ne, Hoth by done. done.
           ++ intros i. rewrite updn_ne, Hnode by congruence. done.
        -- assert (rear <> SSen t /\ forall i, rear <> SSec t i) as [Ha Hb]
             by (destruct db_rear0 as [-> |(j & _ & ->)]; split; congruence).
           eapply ring_idle_ext; [| | | | | | | |exact Hri]; unfold s1; cbn [r_size r_capacity r_pos r_avail
             r_timeLimit r_rear smem set_nmem set_smem set_r_size set_r_avail set_r_pos
             set_t_avail set_t_pos set_t_size]; rewrite ?updz_ne by done; try done.
           ++ rewrite GB. by destruct (sptr_eqb_spec rear (SSen t)).
           ++ intros i. rewrite GR, GB.
              destruct (sptr_eqb_spec rear (SSec t i)); [by destruct (Hb i)|done].
Qed.

(** Submit a request, look at the ready area, then complete it. *)
Definition ddl_cycle (fuel : nat) (m : bufmem) (now : Z) (r : req) : D req :=
  ddl_submit fuel m now (r_b r) (r_write r);;
  x ← gets readyArea;
  PrimRBTree fuel 0;;
  mret x.

Fixpoint ddl_cycles (fuel : nat) (m : bufmem) (l : list (Z * req)) : D (list req) :=
  match l with
  | [] => mret []
  | (now, r) :: l =>
      x ← ddl_cycle fuel m now r;
      xs ← ddl_cycles fuel m l;
      mret (x :: xs)
  end.

Lemma ddl_cycles_idle fuel m l s :
  (2 <= fuel)%nat -> ddl_idle s ->
  Forall (fun '(now, r) => 0 <= now < 2 ^ 31 /\ (r_write r = 0 \/ r_write r = 1)) l ->
  exists s', ddl_cycles fuel m l s = Ok (map snd l, s') /\ ddl_idle s'.
Proof.
  intros Hf. revert s. induction l as [|[now [b w]] l IH]; intros s Hid Hl; [by exists s|].
  apply Forall_cons in Hl as [Hd Hl']. cbn [r_write] in Hd. destruct Hd as [Hnow Hw].
  assert (idx_ok 2 w = true) as Hw' by (destruct Hw as [-> | ->]; done).
  destruct (ddl_submit_idle fuel m s w now b Hid Hw' Hnow Hf) as (s1 & R1 & Hready & HB).
  destruct (PrimRBTree_busy fuel s1 w _ _ _ HB Hw' Hf) as (s2 & R2 & Hid2).
  destruct (IH s2 Hid2 Hl') as (s3 & R3 & Hid3). exists s3. split; [|done].
  cbn [ddl_cycles]. unfold ddl_cycle. mgo. cbn [r_b r_write]. mrun R1. mgo. rewrite Hready.
  mrun R2. mgo. mrun R3. done.
Qed.

(** C36: with one request outstanding at a time the deadline scheduler works
    for ever: from the initial state, any sequence of reads and writes is
    submitted and completed without a fault or a panic, and each request is
    the one placed in the ready area by its own submission. *)
Theorem deadline_serves_one_at_a_time fuel m l
    (Hf : (2 <= fuel)%nat)
    (Hl : Forall (fun '(now, r) => 0 <= now < 2 ^ 31 /\ (r_write r = 0 \/ r_write r = 1)) l) :
  exists s', ddl_cycles fuel m l ddl_init = Ok (map snd l, s') /\ ddl_idle s'.
Proof. apply ddl_cycles_idle; [done|exact ddl_init_idle|done]. Qed.

Lemma deadline_serves_one_at_a_time_witness :
  exists s', ddl_cycles 4 ddl_mem [(0, mkreq (BBuf 7) 0); (90, mkreq (BBuf 3) 1); (91, mkreq (BBuf 1) 0)]
    ddl_init = Ok ([mkreq (BBuf 7) 0; mkreq (BBuf 3) 1; mkreq (BBuf 1) 0], s') /\ ddl_idle s'.
Proof.
  refine (deadline_serves_one_at_a_time 4 ddl_mem
    [(0, mkreq (BBuf 7) 0); (90, mkreq (BBuf 3) 1); (91, mkreq (BBuf 1) 0)] ltac:(lia) _).
  repeat constructor; simpl; lia.
Defined.
