(* ===== verification/VirtioDisk.v ===== *)
(** * The virtio disk driver: descriptors, requests and completions

    kernel/virtio.h and the driver half of kernel/virtio_disk.c: the
    descriptor table and its allocator, the request path [virtio_disk_rw] and
    the completion loop of [virtio_disk_intr].

    Everything the driver shares with the device is in the record [disk]; an
    address handed to the device is a value of [addr] (the object it points
    to).  A stretch of code that holds [disk.vdisk_lock] is one atomic
    computation; [sleep], which gives the lock up, is an argument of the code
    that calls it and stands for everything other threads, the device and the
    interrupt handler do meanwhile.  [wakeup] calls and writes of device
    registers are recorded in the state. *)

From S2P Require Import Prelude Riscv Request MinHeap Sstf Deadline.

(** ** virtio.h *)

Definition NUM : Z := 128.
Definition VRING_DESC_F_NEXT : Z := 1.
Definition VRING_DESC_F_WRITE : Z := 2.
Definition VIRTIO_BLK_T_IN : Z := 0.
Definition VIRTIO_BLK_T_OUT : Z := 1.

Definition VIRTIO_MMIO_MAGIC_VALUE : Z := 0x000.
Definition VIRTIO_MMIO_VERSION : Z := 0x004.
Definition VIRTIO_MMIO_DEVICE_ID : Z := 0x008.
Definition VIRTIO_MMIO_VENDOR_ID : Z := 0x00c.
Definition VIRTIO_MMIO_DEVICE_FEATURES : Z := 0x010.
Definition VIRTIO_MMIO_DRIVER_FEATURES : Z := 0x020.
Definition VIRTIO_MMIO_GUEST_PAGE_SIZE : Z := 0x028.
Definition VIRTIO_MMIO_QUEUE_SEL : Z := 0x030.
Definition VIRTIO_MMIO_QUEUE_NUM_MAX : Z := 0x034.
Definition VIRTIO_MMIO_QUEUE_NUM : Z := 0x038.
Definition VIRTIO_MMIO_QUEUE_PFN : Z := 0x040.
Definition VIRTIO_MMIO_QUEUE_NOTIFY : Z := 0x050.
Definition VIRTIO_MMIO_INTERRUPT_STATUS : Z := 0x060.
Definition VIRTIO_MMIO_INTERRUPT_ACK : Z := 0x064.
Definition VIRTIO_MMIO_STATUS : Z := 0x070.

Definition VIRTIO_CONFIG_S_ACKNOWLEDGE : Z := 1.
Definition VIRTIO_CONFIG_S_DRIVER : Z := 2.
Definition VIRTIO_CONFIG_S_DRIVER_OK : Z := 4.
Definition VIRTIO_CONFIG_S_FEATURES_OK : Z := 8.

Definition VIRTIO_BLK_F_RO : Z := 5.
Definition VIRTIO_BLK_F_SCSI : Z := 7.
Definition VIRTIO_BLK_F_CONFIG_WCE : Z := 11.
Definition VIRTIO_BLK_F_MQ : Z := 12.
Definition VIRTIO_F_ANY_LAYOUT : Z := 27.
Definition VIRTIO_RING_F_INDIRECT_DESC : Z := 28.
Definition VIRTIO_RING_F_EVENT_IDX : Z := 29.

(** kernel/fs.h *)
Definition BSIZE : Z := 1024.

(** The objects whose addresses the driver gives to the device. *)
Inductive addr : Type :=
| ANull
| AOps (i : Z)       (* &disk.ops[i] *)
| AData (b : bufptr) (* b->data *)
| AStatus (i : Z).   (* &disk.info[i].status *)

Record virtq_desc : Type := mkdesc
  { d_addr : addr; d_len : Z; d_flags : Z; d_next : Z }.

Record virtio_blk_req : Type := mkblk { q_type : Z; q_reserved : Z; q_sector : Z }.

(** Sleep channels used by the driver. *)
Inductive chan : Type :=
| CFree              (* &disk.free[0] *)
| CBuf (b : bufptr). (* a struct buf * *)

(** ** struct disk

    Without the scheduler queues, which are in [kst] below. [b_disk] is the
    field [disk] of every [struct buf]. *)

Record disk : Type := mkdisk {
  desc : list virtq_desc;
  avail_idx : Z;
  avail_ring : list Z;
  hw_idx : Z;               (* used->idx, written by the device *)
  used_ring : list Z;       (* used->ring[].id, written by the device *)
  dfree : list Z;           (* free[NUM] *)
  used_idx : Z;
  info_b : list bufptr;
  info_status : list Z;
  ops : list virtio_blk_req;
  b_disk : bufptr -> Z;
  woken : list chan;        (* wakeup() calls, latest first *)
  mmio : list (Z * Z)       (* register writes, latest first *)
}.

Definition set_desc v d := mkdisk v (avail_idx d) (avail_ring d) (hw_idx d) (used_ring d)
  (dfree d) (used_idx d) (info_b d) (info_status d) (ops d) (b_disk d) (woken d) (mmio d).
Definition set_avail_idx v d := mkdisk (desc d) v (avail_ring d) (hw_idx d) (used_ring d)
  (dfree d) (used_idx d) (info_b d) (info_status d) (ops d) (b_disk d) (woken d) (mmio d).
Definition set_avail_ring v d := mkdisk (desc d) (avail_idx d) v (hw_idx d) (used_ring d)
  (dfree d) (used_idx d) (info_b d) (info_status d) (ops d) (b_disk d) (woken d) (mmio d).
Definition set_hw_idx v d := mkdisk (desc d) (avail_idx d) (avail_ring d) v (used_ring d)
  (dfree d) (used_idx d) (info_b d) (info_status d) (ops d) (b_disk d) (woken d) (mmio d).
Definition set_used_ring v d := mkdisk (desc d) (avail_idx d) (avail_ring d) (hw_idx d) v
  (dfree d) (used_idx d) (info_b d) (info_status d) (ops d) (b_disk d) (woken d) (mmio d).
Definition set_free v d := mkdisk (desc d) (avail_idx d) (avail_ring d) (hw_idx d)
  (used_ring d) v (used_idx d) (info_b d) (info_status d) (ops d) (b_disk d) (woken d) (mmio d).
Definition set_used_idx v d := mkdisk (desc d) (avail_idx d) (avail_ring d) (hw_idx d)
  (used_ring d) (dfree d) v (info_b d) (info_status d) (ops d) (b_disk d) (woken d) (mmio d).
Definition set_info_b v d := mkdisk (desc d) (avail_idx d) (avail_ring d) (hw_idx d)
  (used_ring d) (dfree d) (used_idx d) v (info_status d) (ops d) (b_disk d) (woken d) (mmio d).
Definition set_info_status v d := mkdisk (desc d) (avail_idx d) (avail_ring d) (hw_idx d)
  (used_ring d) (dfree d) (used_idx d) (info_b d) v (ops d) (b_disk d) (woken d) (mmio d).
Definition set_ops v d := mkdisk (desc d) (avail_idx d) (avail_ring d) (hw_idx d)
  (used_ring d) (dfree d) (used_idx d) (info_b d) (info_status d) v (b_disk d) (woken d) (mmio d).
Definition set_b_disk v d := mkdisk (desc d) (avail_idx d) (avail_ring d) (hw_idx d)
  (used_ring d) (dfree d) (used_idx d) (info_b d) (info_status d) (ops d) v (woken d) (mmio d).
Definition set_woken v d := mkdisk (desc d) (avail_idx d) (avail_ring d) (hw_idx d)
  (used_ring d) (dfree d) (used_idx d) (info_b d) (info_status d) (ops d) (b_disk d) v (mmio d).
Definition set_mmio v d := mkdisk (desc d) (avail_idx d) (avail_ring d) (hw_idx d)
  (used_ring d) (dfree d) (used_idx d) (info_b d) (info_status d) (ops d) (b_disk d) (woken d) v.

Definition wakeup (c : chan) : M disk unit := modify (fun d => set_woken (c :: woken d) d).

(** [*R(r) = v] *)
Definition mmio_write (r v : Z) : M disk unit := modify (fun d => set_mmio ((r, v) :: mmio d) d).

Definition upd_b_disk (b : bufptr) (v : Z) (f : bufptr -> Z) : bufptr -> Z :=
  fun b' => if decide (b' = b) then v else f b'.

(** [b->disk = v] *)
Definition put_b_disk (b : bufptr) (v : Z) : M disk unit :=
  match b with
  | BNull => fault "NULL struct buf"
  | _ => modify (fun d => set_b_disk (upd_b_disk b v (b_disk d)) d)
  end.

(** [b->disk] *)
Definition get_b_disk (b : bufptr) : M disk Z :=
  match b with
  | BNull => fault "NULL struct buf"
  | _ => gets (fun d => b_disk d b)
  end.

(** ** The descriptor table *)

Fixpoint alloc_desc_from (n : nat) (i : Z) : M disk Z :=
  match n with
  | O => mret (-1)
  | S n' =>
      f ← M_rd dfree i;
      if f =? 0 then alloc_desc_from n' (i + 1)
      else M_wr dfree set_free i 0;; mret i
  end.

Definition alloc_desc : M disk Z := alloc_desc_from (Z.to_nat NUM) 0.

Definition free_desc (i : Z) : M disk unit :=
  if NUM <=? i then panic "free_desc 1" else
  f ← M_rd dfree i;
  if negb (f =? 0) then panic "free_desc 2" else
  M_wr desc set_desc i (mkdesc ANull 0 0 0);;
  M_wr dfree set_free i 1;;
  wakeup CFree.

Fixpoint free_chain (fuel : nat) (i : Z) : M disk unit :=
  match fuel with
  | O => hang
  | S k =>
      e ← M_rd desc i;
      let flag := d_flags e in
      let nxt := d_next e in
      free_desc i;;
      if Z.testbit flag 0 (* flag & VRING_DESC_F_NEXT *) then free_chain k nxt
      else mret tt
  end.

(** [free_desc(idx[j])] for the descriptors allocated so far. *)
Fixpoint free_all (l : list Z) : M disk unit :=
  match l with
  | [] => mret tt
  | i :: l' => free_desc i;; free_all l'
  end.

(** The loop of [alloc3_desc]: [n] descriptors still to allocate, [idx] those
    allocated already.  The result is [None] for -1, else the array [idx]. *)
Fixpoint alloc3_from (n : nat) (idx : list Z) : M disk (option (list Z)) :=
  match n with
  | O => mret (Some idx)
  | S n' =>
      i ← alloc_desc;
      if i <? 0 then free_all idx;; mret None
      else alloc3_from n' (idx ++ [i])
  end.

Definition alloc3_desc : M disk (option (list Z)) := alloc3_from 3 [].

(** ** Requests *)

(** [virtio_disk_rw] from the three descriptors to the notification. *)
Definition rw_submit (i0 i1 i2 : Z) (b : bufptr) (write sector : Z) : M disk unit :=
  M_alter ops set_ops i0
    (fun o => mkblk (if write =? 0 then VIRTIO_BLK_T_IN else VIRTIO_BLK_T_OUT)
                (q_reserved o) (q_sector o));;
  M_alter ops set_ops i0 (fun o => mkblk (q_type o) 0 (q_sector o));;
  M_alter ops set_ops i0 (fun o => mkblk (q_type o) (q_reserved o) sector);;
  M_wr desc set_desc i0 (mkdesc (AOps i0) 16 VRING_DESC_F_NEXT i1);;
  M_alter desc set_desc i1
    (fun e => mkdesc (AData b) BSIZE (if write =? 0 then VRING_DESC_F_WRITE else 0) (d_next e));;
  M_alter desc set_desc i1
    (fun e => mkdesc (d_addr e) (d_len e) (Z.lor (d_flags e) VRING_DESC_F_NEXT) i2);;
  M_wr info_status set_info_status i0 0xff;;
  M_wr desc set_desc i2 (mkdesc (AStatus i0) 1 VRING_DESC_F_WRITE 0);;
  put_b_disk b 1;;
  M_wr info_b set_info_b i0 b;;
  ai ← gets avail_idx;
  M_wr avail_ring set_avail_ring (ai mod NUM) i0;;
  modify (fun d => set_avail_idx (u16 (avail_idx d + 1)) d);;
  mmio_write VIRTIO_MMIO_QUEUE_NOTIFY 0.

(** [virtio_disk_rw] after the completion. *)
Definition rw_complete (fuel : nat) (i0 : Z) : M disk unit :=
  M_wr info_b set_info_b i0 BNull;;
  free_chain fuel i0.

(** [b->blockno * (BSIZE / 512)], computed in 32 bits. *)
Definition sector_of (blockno : Z) : Z := u32 (blockno * 2).

(** The loop of [virtio_disk_intr] over the used ring. *)
Fixpoint used_loop (fuel : nat) : M disk unit :=
  match fuel with
  | O => hang
  | S k =>
      ui ← gets used_idx;
      hi ← gets hw_idx;
      if ui =? hi then mret tt else
      id ← M_rd used_ring (ui mod NUM);
      st ← M_rd info_status id;
      if negb (st =? 0) then panic "virtio_disk_intr status" else
      b ← M_rd info_b id;
      put_b_disk b 0;;
      wakeup (CBuf b);;
      modify (fun d => set_used_idx (u16 (used_idx d + 1)) d);;
      used_loop k
  end.

(** The part of [virtio_disk_intr] before the schedulers: acknowledge the
    interrupt ([istatus] is the value read from the status register) and
    process the completions.  The loop runs once per entry between [used_idx]
    and [used->idx]. *)
Definition intr_used (istatus : Z) : M disk unit :=
  mmio_write VIRTIO_MMIO_INTERRUPT_ACK (Z.land istatus 3);;
  n ← gets (fun d => u16 (hw_idx d - used_idx d));
  used_loop (S (Z.to_nat n)).
