(* ===== verification/VirtioChain.v ===== *)
(** * Descriptors, chains and rings of the virtio driver

    Specifications of the operations of VirtioDisk: a ring indexed by 16-bit
    counters holds a list; the descriptor allocator keeps track of who owns a
    descriptor; a submitted request is a chain of three descriptors in the
    format of the virtio specification, and [free_chain] gives exactly these
    three back. *)

From S2P Require Import Prelude Request VirtioDisk.

#[local] Ltac Zify.zify_post_hook ::= Z.to_euclidean_division_equations.

(** ** Rings

    [ring_holds ring i l j]: the entries from index [i] up to index [j]
    (16-bit counters that wrap around) are [l]. *)

Definition ring_holds (ring : list Z) (i : Z) (l : list Z) (j : Z) : Prop :=
  0 <= i < 2 ^ 16 /\ j = u16 (i + Z.of_nat (length l)) /\
  forall k x, l !! k = Some x -> zidx ring ((i + Z.of_nat k) mod NUM) = Some x.

Lemma u16_mod_NUM z : u16 z mod NUM = z mod NUM.
Proof. unfold u16, NUM. lia. Qed.

Lemma ring_holds_start ring i : 0 <= i < 2 ^ 16 -> ring_holds ring i [] i.
Proof.
  intros H. split; [done|]. split; [cbn; by rewrite Z.add_0_r, u16_small|].
  intros k x. by rewrite lookup_nil.
Qed.

Lemma ring_holds_push ring i l j h :
  length ring = Z.to_nat NUM -> (length l < 128)%nat -> ring_holds ring i l j ->
  ring_holds (alter (fun _ => h) (Z.to_nat (j mod NUM)) ring) i (l ++ [h]) (u16 (j + 1)).
Proof.
  intros Hr Hl (Hi & -> & H). split; [done|]. rewrite length_app, Nat2Z.inj_add. split.
  { unfold u16. simpl. lia. }
  intros k x. rewrite u16_mod_NUM. intros [Hk|[Hk E]]%lookup_app_Some.
  - rewrite zidx_alter_ne; [by apply H|unfold NUM; lia|].
    apply lookup_lt_Some in Hk. unfold NUM. lia.
  - apply list_lookup_singleton_Some in E as [Hk0 <-].
    replace (Z.of_nat k) with (Z.of_nat (length l)) by lia.
    destruct (zidx_is_Some ring ((i + Z.of_nat (length l)) mod NUM)) as [y Hy].
    { rewrite Hr. unfold NUM. lia. }
    by rewrite (zidx_alter_eq _ _ _ _ Hy).
Qed.

Lemma ring_holds_pop ring i h l j :
  ring_holds ring i (h :: l) j ->
  zidx ring (i mod NUM) = Some h /\ ring_holds ring (u16 (i + 1)) l j.
Proof.
  intros (Hi & -> & H). split.
  { specialize (H 0%nat h eq_refl). by rewrite Z.add_0_r in H. }
  split; [apply u16_range|]. split; [unfold u16; simpl length; lia|].
  intros k x Hk. specialize (H (S k) x Hk).
  replace ((u16 (i + 1) + Z.of_nat k) mod NUM) with ((i + Z.of_nat (S k)) mod NUM);
    [done|]. unfold u16, NUM. lia.
Qed.

Lemma ring_holds_nil ring i l j :
  Z.of_nat (length l) < 2 ^ 16 -> ring_holds ring i l j -> i = j -> l = [].
Proof.
  intros Hl (Hi & -> & _) E. destruct l as [|x l]; [done|].
  unfold u16 in E. cbn [length] in *. exfalso.
  lia.
Qed.

(** ** Descriptor ownership

    [free_ok d T]: exactly the descriptors of [T] are taken. *)

Definition free_ok (d : disk) (T : list Z) : Prop :=
  length (dfree d) = Z.to_nat NUM /\ length (desc d) = Z.to_nat NUM /\
  NoDup T /\ (forall i, i ∈ T -> 0 <= i < NUM) /\
  (forall i, 0 <= i < NUM -> zidx (dfree d) i = Some (if decide (i ∈ T) then 0 else 1)).

(** [d'] differs from [d] only in the free map, the wake-ups and the
    descriptors outside [T]. *)
Record frame (T : list Z) (d d' : disk) : Prop := {
  fr_desc : forall i, i ∈ T -> zidx (desc d') i = zidx (desc d) i;
  fr_avail_idx : avail_idx d' = avail_idx d;
  fr_avail_ring : avail_ring d' = avail_ring d;
  fr_hw_idx : hw_idx d' = hw_idx d;
  fr_used_ring : used_ring d' = used_ring d;
  fr_used_idx : used_idx d' = used_idx d;
  fr_info_b : info_b d' = info_b d;
  fr_info_status : info_status d' = info_status d;
  fr_ops : ops d' = ops d;
  fr_b_disk : b_disk d' = b_disk d
}.

Lemma frame_refl T d : frame T d d.
Proof. by split. Qed.

Lemma frame_trans T d1 d2 d3 : frame T d1 d2 -> frame T d2 d3 -> frame T d1 d3.
Proof.
  intros H1 H2.
  split; [intros i Hi; rewrite (fr_desc _ _ _ H2), (fr_desc _ _ _ H1); done|..];
    etrans; by (eapply H2 || eapply H1).
Qed.

Lemma frame_weaken T T' d d' : T' ⊆ T -> frame T d d' -> frame T' d d'.
Proof. intros HT [H]. split; auto. Qed.

Lemma alloc_desc_from_spec n i d T :
  free_ok d T -> 0 <= i -> i + Z.of_nat n = NUM ->
  (alloc_desc_from n i d = Ok (-1, d) /\ forall j, i <= j < NUM -> j ∈ T) \/
  (exists k, alloc_desc_from n i d = Ok (k, set_free (alter (fun _ => 0) (Z.to_nat k) (dfree d)) d)
     /\ i <= k < NUM /\ k ∉ T /\ forall j, i <= j < k -> j ∈ T).
Proof.
  intros HF. revert i. induction n as [|n IH]; intros i Hi Hn.
  { left. split; [done|lia]. }
  pose proof HF as (Hl & _ & _ & _ & Hf).
  assert (zidx (dfree d) i = Some (if decide (i ∈ T) then 0 else 1)) as Hz by (apply Hf; lia).
  cbn [alloc_desc_from]. erewrite M_bind_Ok; [|by apply M_rd_Ok].
  case_decide as HT; cbn [Z.eqb].
  - destruct (IH (i + 1)) as [[E Hall]|(k & E & Hk & HkT & Hlt)]; [lia..| |].
    + left. split; [done|]. intros j Hj. destruct (decide (j = i)) as [->|]; [done|].
      apply Hall; lia.
    + right. exists k. split; [done|]. split; [lia|]. split; [done|].
      intros j Hj. destruct (decide (j = i)) as [->|]; [done|]. apply Hlt; lia.
  - right. exists i. erewrite M_bind_Ok; [|apply M_alter_Ok; rewrite Hl; unfold NUM in *; lia].
    split; [done|]. split; [lia|]. split; [done|lia].
Qed.

Lemma decide_cons_ne (i k : Z) T (a b : Z) :
  i <> k -> (if decide (i ∈ k :: T) then a else b) = (if decide (i ∈ T) then a else b).
Proof. intros. apply decide_ext. rewrite elem_of_cons. tauto. Qed.

(** [alloc_desc] returns the lowest free descriptor and takes it, or -1. *)
Lemma alloc_desc_spec d T :
  free_ok d T ->
  (alloc_desc d = Ok (-1, d) /\ forall j, 0 <= j < NUM -> j ∈ T) \/
  (exists k d', alloc_desc d = Ok (k, d') /\ 0 <= k < NUM /\ k ∉ T /\
     (forall j, 0 <= j < k -> j ∈ T) /\ free_ok d' (k :: T) /\ frame (k :: T) d d').
Proof.
  intros HF. destruct (alloc_desc_from_spec (Z.to_nat NUM) 0 d T HF) as [?|(k & E & Hk & HkT & Hlt)];
    [done..|by left|right].
  exists k, (set_free (alter (fun _ => 0) (Z.to_nat k) (dfree d)) d).
  split; [done|]. split; [done|]. split; [done|]. split; [done|]. split; [|by split].
  destruct HF as (Hl & Hd & HN & HT & Hf).
  split; [by cbn; rewrite length_alter|]. split; [done|].
  split; [by constructor|]. split; [intros i [->|?]%elem_of_cons; auto|].
  intros i Hi. cbn. destruct (decide (i = k)) as [->|Hne].
  - rewrite (zidx_alter_eq _ _ _ _ (Hf k Hk)). rewrite decide_True; [done|left].
  - rewrite zidx_alter_ne, Hf, decide_cons_ne by (done || lia). done.
Qed.

(** [free_desc] gives a taken descriptor back. *)
Lemma free_desc_spec d T i :
  free_ok d (i :: T) ->
  exists d', free_desc i d = Ok (tt, d') /\ free_ok d' T /\ frame T d d' /\
    woken d' = CFree :: woken d.
Proof.
  intros (Hl & Hd & HN & HT & Hf). apply NoDup_cons in HN as [Hi HN].
  assert (0 <= i < NUM) as Hr by (apply HT; left).
  pose proof (Hf i Hr) as Hz. rewrite decide_True in Hz by left.
  unfold free_desc. destruct (Z.leb_spec NUM i); [lia|].
  erewrite M_bind_Ok; [|by apply M_rd_Ok]. cbn [Z.eqb negb].
  erewrite M_bind_Ok; [|apply M_alter_Ok; rewrite Hd; unfold NUM in *; lia].
  erewrite M_bind_Ok; [|apply M_alter_Ok; cbn; rewrite Hl; unfold NUM in *; lia].
  eexists. split; [reflexivity|]. cbn. split; [|split].
  - split; [by cbn; rewrite length_alter|]. split; [by cbn; rewrite length_alter|].
    split; [done|]. split; [set_solver|]. intros j Hj. cbn.
    destruct (decide (j = i)) as [->|Hne].
    + rewrite (zidx_alter_eq _ _ _ _ Hz). by rewrite decide_False.
    + rewrite zidx_alter_ne, Hf, decide_cons_ne by (done || lia). done.
  - split; try done. intros j Hj. cbn. apply zidx_alter_ne; [lia|]. by intros ->.
  - done.
Qed.

Lemma free_all_spec l d T :
  free_ok d (l ++ T) ->
  exists d', free_all l d = Ok (tt, d') /\ free_ok d' T /\ frame T d d'.
Proof.
  revert d. induction l as [|i l IH]; intros d HF.
  { exists d. split; [done|]. split; [done|apply frame_refl]. }
  cbn [free_all]. destruct (free_desc_spec d (l ++ T) i HF) as (d1 & E & HF1 & HR1 & _).
  mrun E. destruct (IH d1 HF1) as (d2 & E2 & HF2 & HR2). exists d2.
  split; [done|]. split; [done|]. eapply frame_trans; [|done].
  eapply frame_weaken; [|done]. set_solver.
Qed.

Lemma free_ok_perm d T T' : T ≡ₚ T' -> free_ok d T -> free_ok d T'.
Proof.
  intros HP (? & ? & ? & HT & Hf). split; [done|]. split; [done|].
  split; [by rewrite <- HP|]. split; [intros i; rewrite <- HP; apply HT|].
  intros i Hi. rewrite Hf by done. f_equal. apply decide_ext. by rewrite HP.
Qed.

Lemma all_taken_length d T :
  free_ok d T -> (forall j, 0 <= j < NUM -> j ∈ T) -> (128 <= length T)%nat.
Proof.
  intros _ H. change 128%nat with (Z.to_nat 128). rewrite <- (length_seqZ 0 128).
  apply submseteq_length, NoDup_submseteq; [apply NoDup_seqZ|].
  intros i Hi%elem_of_seqZ. apply H. unfold NUM. lia.
Qed.

Lemma alloc3_from_spec n d idx T :
  free_ok d (idx ++ T) ->
  (exists d', alloc3_from n idx d = Ok (None, d') /\ free_ok d' T /\ frame T d d' /\
     (128 < length idx + n + length T)%nat) \/
  (exists l d', alloc3_from n idx d = Ok (Some (idx ++ l), d') /\ length l = n /\
     free_ok d' ((idx ++ l) ++ T) /\ frame T d d').
Proof.
  revert d idx. induction n as [|n IH]; intros d idx HF.
  { right. exists [], d. rewrite app_nil_r. split; [done|]. split; [done|].
    split; [done|apply frame_refl]. }
  cbn [alloc3_from].
  destruct (alloc_desc_spec d _ HF) as [[E Hall]|(k & d1 & E & Hk & _ & _ & HF1 & HR1)]; mrun E.
  - apply (all_taken_length d _ HF) in Hall. rewrite length_app in Hall. cbn. destruct (free_all_spec idx d T HF) as (d2 & E2 & HF2 & HR2).
    left. exists d2. mrun E2. split; [done|]. split; [done|]. split; [done|lia].
  - destruct (Z.ltb_spec k 0); [lia|].
    assert (frame T d d1) as HR by (eapply frame_weaken; [|done]; set_solver).
    assert (free_ok d1 ((idx ++ [k]) ++ T)) as HF1'.
    { eapply free_ok_perm; [|done]. rewrite <- app_assoc. cbn. by rewrite Permutation_middle. }
    destruct (IH d1 (idx ++ [k]) HF1') as [(d2 & E2 & ? & ? & Hn)|(l & d2 & E2 & ? & ? & ?)].
    + left. exists d2. split; [done|]. split; [done|]. rewrite length_app in Hn. cbn in Hn.
      split; [by eapply frame_trans|lia].
    + right. exists (k :: l), d2. rewrite <- app_assoc in E2. split; [done|].
      split; [cbn; lia|]. rewrite <- !app_assoc in *. split; [done|]. by eapply frame_trans.
Qed.

(** [alloc3_desc] takes three distinct free descriptors or leaves every
    descriptor as it was; it fails only when fewer than three are free. *)
Lemma alloc3_desc_spec d T :
  free_ok d T ->
  (exists d', alloc3_desc d = Ok (None, d') /\ free_ok d' T /\ frame T d d' /\
     (125 < length T)%nat) \/
  (exists i0 i1 i2 d', alloc3_desc d = Ok (Some [i0; i1; i2], d') /\
     free_ok d' (i0 :: i1 :: i2 :: T) /\ frame T d d').
Proof.
  intros HF. destruct (alloc3_from_spec 3 d [] T HF) as [(d' & E & ? & ? & ?)|(l & d' & E & Hl & HF' & HR)];
    [left|right].
  { exists d'. split; [done|]. split; [done|]. split; [done|]. cbn in *. lia. }
  destruct l as [|i0 [|i1 [|i2 [|]]]]; try discriminate. eauto 8.
Qed.

(** ** Requests in flight *)

Record op : Type := mkop {
  o_b : bufptr; o_w : Z; o_sec : Z; o0 : Z; o1 : Z; o2 : Z
}.

Definition o_idx (o : op) : list Z := [o0 o; o1 o; o2 o].
Definition taken (W : list op) : list Z := W ≫= o_idx.

(** The three descriptors of a request, as virtio 5.2 wants them. *)
Record chain_ok (d : disk) (o : op) : Prop := {
  ch0 : zidx (desc d) (o0 o) = Some (mkdesc (AOps (o0 o)) 16 VRING_DESC_F_NEXT (o1 o));
  ch1 : zidx (desc d) (o1 o) = Some (mkdesc (AData (o_b o)) BSIZE
          (Z.lor (if o_w o =? 0 then VRING_DESC_F_WRITE else 0) VRING_DESC_F_NEXT) (o2 o));
  ch2 : zidx (desc d) (o2 o) = Some (mkdesc (AStatus (o0 o)) 1 VRING_DESC_F_WRITE 0);
  ch_op : zidx (ops d) (o0 o) = Some
    (mkblk (if o_w o =? 0 then VIRTIO_BLK_T_IN else VIRTIO_BLK_T_OUT) 0 (o_sec o));
  ch_b : zidx (info_b d) (o0 o) = Some (o_b o)
}.

Lemma frame_chain T d d' o :
  o_idx o ⊆ T -> frame T d d' -> chain_ok d o -> chain_ok d' o.
Proof.
  intros HT HR [H0 H1 H2 H3 H4]. unfold o_idx in HT.
  split; rewrite ?(fr_desc _ _ _ HR), ?(fr_ops _ _ _ HR), ?(fr_info_b _ _ _ HR) by set_solver; done.
Qed.

(** [free_chain] gives back exactly the three descriptors of a request. *)
Lemma free_chain_spec n d o T :
  (3 <= n)%nat -> free_ok d (o_idx o ++ T) ->
  zidx (desc d) (o0 o) = Some (mkdesc (AOps (o0 o)) 16 VRING_DESC_F_NEXT (o1 o)) ->
  zidx (desc d) (o1 o) = Some (mkdesc (AData (o_b o)) BSIZE
    (Z.lor (if o_w o =? 0 then VRING_DESC_F_WRITE else 0) VRING_DESC_F_NEXT) (o2 o)) ->
  zidx (desc d) (o2 o) = Some (mkdesc (AStatus (o0 o)) 1 VRING_DESC_F_WRITE 0) ->
  exists d', free_chain n (o0 o) d = Ok (tt, d') /\ free_ok d' T /\ frame T d d'.
Proof.
  intros Hn HF H0 H1 H2. destruct n as [|[|[|n]]]; [lia..|].
  unfold o_idx in HF. cbn in HF. cbn [free_chain].
  erewrite M_bind_Ok; [|by apply M_rd_Ok]. cbn [d_flags d_next].
  destruct (free_desc_spec _ _ _ HF) as (d1 & E1 & HF1 & HR1 & _). mrun E1. change (Z.testbit VRING_DESC_F_NEXT 0) with true. cbv iota.
  erewrite M_bind_Ok; [|apply M_rd_Ok; rewrite (fr_desc _ _ _ HR1) by left; done].
  cbn [d_flags d_next].
  destruct (free_desc_spec _ _ _ HF1) as (d2 & E2 & HF2 & HR2 & _). mrun E2.
  assert (frame (o2 o :: T) d d2) as HR2'
    by (eapply frame_trans; [|done]; eapply frame_weaken; [|done]; set_solver).
  assert (Z.testbit (Z.lor (if o_w o =? 0 then VRING_DESC_F_WRITE else 0) VRING_DESC_F_NEXT) 0
    = true) as -> by (destruct (o_w o =? 0); done).
  erewrite M_bind_Ok; [|apply M_rd_Ok; rewrite (fr_desc _ _ _ HR2') by left; done].
  cbn [d_flags d_next].
  destruct (free_desc_spec _ _ _ HF2) as (d3 & E3 & HF3 & HR3 & _). mrun E3.
  exists d3. split; [done|]. split; [done|]. eapply frame_trans; [|done].
  eapply frame_weaken; [|done]. set_solver.
Qed.

(** The effect of [rw_submit] on the driver's memory. *)
Record submitted (o : op) (d d' : disk) : Prop := {
  su_chain : chain_ok d' o;
  su_free : dfree d' = dfree d;
  su_desc_len : length (desc d') = length (desc d);
  su_ops_len : length (ops d') = length (ops d);
  su_info_len : length (info_b d') = length (info_b d);
  su_status_len : length (info_status d') = length (info_status d);
  su_desc : forall i, i ∉ o_idx o -> zidx (desc d') i = zidx (desc d) i;
  su_ops : forall i, i <> o0 o -> zidx (ops d') i = zidx (ops d) i;
  su_info : forall i, i <> o0 o -> zidx (info_b d') i = zidx (info_b d) i;
  su_status : forall i, i <> o0 o -> zidx (info_status d') i = zidx (info_status d) i;
  su_ring : avail_ring d' = alter (fun _ => o0 o) (Z.to_nat (avail_idx d mod NUM)) (avail_ring d);
  su_idx : avail_idx d' = u16 (avail_idx d + 1);
  su_hw : hw_idx d' = hw_idx d /\ used_ring d' = used_ring d /\ used_idx d' = used_idx d;
  su_flag : b_disk d' = upd_b_disk (o_b o) 1 (b_disk d)
}.

(** The arrays of [struct disk] have their declared sizes. *)
Definition lens_ok (d : disk) : Prop :=
  length (avail_ring d) = Z.to_nat NUM /\ length (used_ring d) = Z.to_nat NUM /\
  length (info_b d) = Z.to_nat NUM /\ length (info_status d) = Z.to_nat NUM /\
  length (ops d) = Z.to_nat NUM.

Lemma put_b_disk_Ok b v d :
  b <> BNull -> put_b_disk b v d = Ok (tt, set_b_disk (upd_b_disk b v (b_disk d)) d).
Proof. by destruct b. Qed.

Lemma get_b_disk_Ok b d : b <> BNull -> get_b_disk b d = Ok (b_disk d b, d).
Proof. by destruct b. Qed.

#[local] Ltac idx_lia := cbn; rewrite ?length_alter; unfold NUM in *; lia.
#[local] Ltac alter_ne := rewrite zidx_alter_ne by (lia || congruence).

Lemma rw_submit_spec d o :
  length (desc d) = Z.to_nat NUM -> lens_ok d -> NoDup (o_idx o) ->
  (forall i, i ∈ o_idx o -> 0 <= i < NUM) -> o_b o <> BNull ->
  exists d', rw_submit (o0 o) (o1 o) (o2 o) (o_b o) (o_w o) (o_sec o) d = Ok (tt, d') /\
    submitted o d d'.
Proof.
  intros Hd (Ha & Hu & Hi & Hs & Ho) HN HR Hb. destruct o as [b w sec i0 i1 i2].
  unfold o_idx in *. cbn [o_b o_w o_sec o0 o1 o2] in *.
  assert (0 <= i0 < NUM) as R0 by (apply HR; set_solver).
  assert (0 <= i1 < NUM) as R1 by (apply HR; set_solver).
  assert (0 <= i2 < NUM) as R2 by (apply HR; set_solver).
  assert (i0 <> i1 /\ i0 <> i2 /\ i1 <> i2) as (N1 & N2 & N3).
  { rewrite !NoDup_cons in HN. set_solver. }
  unfold rw_submit, M_wr. do 8 (erewrite M_bind_Ok; [|apply M_alter_Ok; idx_lia]; cbv beta).
  erewrite M_bind_Ok; [|by apply put_b_disk_Ok]. cbv beta.
  erewrite M_bind_Ok; [|apply M_alter_Ok; idx_lia]; cbv beta. mgo.
  erewrite M_bind_Ok; [|apply M_alter_Ok; idx_lia]; cbv beta. mgo.
  eexists. split; [reflexivity|].
  destruct (zidx_is_Some (desc d) i1) as [e1 He1]; [idx_lia|].
  destruct (zidx_is_Some (desc d) i0) as [e0 He0]; [idx_lia|].
  destruct (zidx_is_Some (desc d) i2) as [e2 He2]; [idx_lia|].
  destruct (zidx_is_Some (ops d) i0) as [p0 Hp0]; [idx_lia|].
  destruct (zidx_is_Some (info_b d) i0) as [b0 Hb0]; [idx_lia|].
  split; cbn; rewrite ?length_alter; try done.
  - split; cbn.
    + do 3 alter_ne. by rewrite zidx_alter_fmap, He0.
    + alter_ne. rewrite !zidx_alter_fmap. alter_ne. by rewrite He1.
    + rewrite zidx_alter_fmap. do 3 alter_ne. by rewrite He2.
    + by rewrite !zidx_alter_fmap, Hp0.
    + by rewrite zidx_alter_fmap, Hb0.
  - intros i Hn. assert (i <> i0 /\ i <> i1 /\ i <> i2)
      by (repeat split; intros ->; apply Hn; unfold o_idx; set_solver). do 4 alter_ne. done.
  - intros i Hn. do 3 alter_ne. done.
  - intros i Hn. alter_ne. done.
  - intros i Hn. alter_ne. done.
Qed.
