(* ===== verification/IoSched.v ===== *)
(** * The scheduling layer: [rw_queue], the interrupt handler, [IO_switch]

    kernel/virtio_disk.c: the disk request path [virtio_disk_rw] with its
    sleeps, the scheduler dispatch [rw_queue], the whole of
    [virtio_disk_intr] and [virtio_disk_init]; kernel/proc.c: [IO_switch].

    The state [kst] joins the driver, the three scheduler queues, [IO_type]
    and the clock.  What happens while a thread has given up its locks is not
    this code's: it is the argument [sleep] (and [yield], for the moments
    between two critical sections), any computation on a state that extends
    [kst] with a component [X] of the environment's own. *)

From S2P Require Import Prelude Riscv Request MinHeap Sstf Deadline VirtioDisk.

Record kst : Type := mkk {
  k_disk : disk;
  IO_type : Z;
  k_heap : HNode;
  k_sstf : Queue;
  k_ddl : ddl;
  ticks : Z
}.

Definition set_disk v s := mkk v (IO_type s) (k_heap s) (k_sstf s) (k_ddl s) (ticks s).
Definition set_IO_type v s := mkk (k_disk s) v (k_heap s) (k_sstf s) (k_ddl s) (ticks s).
Definition set_heap v s := mkk (k_disk s) (IO_type s) v (k_sstf s) (k_ddl s) (ticks s).
Definition set_sstf v s := mkk (k_disk s) (IO_type s) (k_heap s) v (k_ddl s) (ticks s).
Definition set_ddl v s := mkk (k_disk s) (IO_type s) (k_heap s) (k_sstf s) v (ticks s).

Definition on_disk {A} (c : M disk A) : M kst A := zoom k_disk set_disk c.
Definition on_ddl {A} (c : M ddl A) : M kst A := zoom k_ddl set_ddl c.

(** A pure update of one of the queues. *)
Definition upd_heap (f : HNode -> res HNode) : M kst unit :=
  h ← gets k_heap; h' ← lift (f h); modify (set_heap h').
Definition upd_sstf (f : Queue -> res Queue) : M kst unit :=
  q ← gets k_sstf; q' ← lift (f q); modify (set_sstf q').

(** The deletion loops of the schedulers run at most once per element. *)
Definition sched_fuel : nat := 130.

(** [virtio_disk_intr] *)
Definition virtio_disk_intr (m : bufmem) (istatus : Z) : M kst unit :=
  on_disk (intr_used istatus);;
  ty ← gets IO_type;
  when (ty =? 1) (upd_heap (deleteFromMinHeap sched_fuel m));;
  when (ty =? 2) (upd_sstf (dequeue m));;
  when (ty =? 3) (on_ddl (PrimRBTree sched_fuel 0)).

(** [IO_switch] *)
Definition IO_switch (type : Z) : M kst Z :=
  modify (set_IO_type type);; mret 0.

(** ** The request path *)

Section requests.
Context {X : Type}.

Record world : Type := mkw { w_k : kst; w_x : X }.

Definition on_k {A} (c : M kst A) : M world A :=
  zoom w_k (fun k w => mkw k (w_x w)) c.

Context (sleep : chan -> M world unit) (yield : M world unit).

(** [while(1){ if(alloc3_desc(idx) == 0) break; sleep(...); }] *)
Fixpoint alloc_wait (fuel : nat) : M world (list Z) :=
  match fuel with
  | O => hang
  | S k =>
      r ← on_k (on_disk alloc3_desc);
      match r with
      | Some idx => mret idx
      | None => sleep CFree;; alloc_wait k
      end
  end.

(** [while(b->disk == 1) sleep(b, &disk.vdisk_lock);] *)
Fixpoint wait_done (fuel : nat) (b : bufptr) : M world unit :=
  match fuel with
  | O => hang
  | S k =>
      v ← on_k (on_disk (get_b_disk b));
      if v =? 1 then sleep (CBuf b);; wait_done k b else mret tt
  end.

Definition virtio_disk_rw (fuel : nat) (m : bufmem) (b : bufptr) (write : Z)
  : M world unit :=
  blockno ← lift (b_blockno m b);
  yield;;
  idx ← alloc_wait fuel;
  match idx with
  | [i0; i1; i2] =>
      on_k (on_disk (rw_submit i0 i1 i2 b write (sector_of blockno)));;
      wait_done fuel b;;
      on_k (on_disk (rw_complete (Z.to_nat NUM) i0))
  | _ => fault "idx"
  end.

Definition rw_queue (fuel : nat) (m : bufmem) (b : bufptr) (write : Z)
  : M world unit :=
  ty ← gets (fun w => IO_type (w_k w));
  let r := mkreq b write in
  if ty =? 0 then virtio_disk_rw fuel m b write
  else if ty =? 1 then
    on_k (upd_heap (fun h => insertMinHeap sched_fuel m h r));;
    yield;;
    top ← gets (fun w => data (k_heap (w_k w)));
    r1 ← lift (rd top 1);
    virtio_disk_rw fuel m (r_b r1) (r_write r1)
  else if ty =? 2 then
    on_k (upd_sstf (fun q => enqueue m q r));;
    yield;;
    front ← gets (fun w => q_data (k_sstf (w_k w)));
    r0 ← lift (rd front 0);
    virtio_disk_rw fuel m (r_b r0) (r_write r0)
  else if ty =? 3 then
    now ← gets (fun w => ticks (w_k w));
    on_k (on_ddl (ddl_submit sched_fuel m now b write));;
    yield;;
    r3 ← gets (fun w => readyArea (k_ddl (w_k w)));
    virtio_disk_rw fuel m (r_b r3) (r_write r3)
  else mret tt.

End requests.

Arguments world X : clear implicits.

(** ** Initialisation *)

(** [features &= ~(1 << bit)], in 64 bits *)
Definition clear_feature (features bit : Z) : Z :=
  Z.land features (u64 (Z.lnot (Z.shiftl 1 bit))).

Definition negotiate (features : Z) : Z :=
  fold_left clear_feature
    [VIRTIO_BLK_F_RO; VIRTIO_BLK_F_SCSI; VIRTIO_BLK_F_CONFIG_WCE; VIRTIO_BLK_F_MQ;
     VIRTIO_F_ANY_LAYOUT; VIRTIO_RING_F_EVENT_IDX; VIRTIO_RING_F_INDIRECT_DESC] features.

(** The driver's memory after [memset(disk.pages, 0, ...)] and with every
    descriptor free; [d] is the memory before. *)
Definition reset_disk (d : disk) : disk :=
  let n := Z.to_nat NUM in
  mkdisk (replicate n (mkdesc ANull 0 0 0)) 0 (replicate n 0) 0 (replicate n 0)
    (replicate n 1) (used_idx d) (info_b d) (info_status d) (ops d) (b_disk d)
    (woken d) (mmio d).

(** [virtio_disk_init]: [R r] is the value the device returns for register
    [r], [pages] the physical address of [disk.pages]. *)
Definition virtio_disk_init (R : Z -> Z) (pages : Z) : M kst unit :=
  if negb (R VIRTIO_MMIO_MAGIC_VALUE =? 0x74726976)
     || negb (R VIRTIO_MMIO_VERSION =? 1)
     || negb (R VIRTIO_MMIO_DEVICE_ID =? 2)
     || negb (R VIRTIO_MMIO_VENDOR_ID =? 0x554d4551)
  then panic "could not find virtio disk" else
  let status := Z.lor 0 VIRTIO_CONFIG_S_ACKNOWLEDGE in
  on_disk (mmio_write VIRTIO_MMIO_STATUS status);;
  let status := Z.lor status VIRTIO_CONFIG_S_DRIVER in
  on_disk (mmio_write VIRTIO_MMIO_STATUS status);;
  let features := negotiate (R VIRTIO_MMIO_DEVICE_FEATURES) in
  on_disk (mmio_write VIRTIO_MMIO_DRIVER_FEATURES (u32 features));;
  let status := Z.lor status VIRTIO_CONFIG_S_FEATURES_OK in
  on_disk (mmio_write VIRTIO_MMIO_STATUS status);;
  let status := Z.lor status VIRTIO_CONFIG_S_DRIVER_OK in
  on_disk (mmio_write VIRTIO_MMIO_STATUS status);;
  on_disk (mmio_write VIRTIO_MMIO_GUEST_PAGE_SIZE PGSIZE);;
  on_disk (mmio_write VIRTIO_MMIO_QUEUE_SEL 0);;
  let max := R VIRTIO_MMIO_QUEUE_NUM_MAX in
  if max =? 0 then panic "virtio disk has no queue 0" else
  if max <? NUM then panic "virtio disk max queue too short" else
  on_disk (mmio_write VIRTIO_MMIO_QUEUE_NUM NUM);;
  on_disk (modify reset_disk);;
  on_disk (mmio_write VIRTIO_MMIO_QUEUE_PFN (u32 (Z.shiftr pages PGSHIFT)));;
  modify (fun s => mkk (k_disk s) (IO_type s) heap_init queue_init ddl_init (ticks s)).
