(* ===== verification/VirtioSafety.v ===== *)
(** * The driver under concurrency

    Any number of threads run [virtio_disk_rw] while the device fetches,
    executes and completes requests and the interrupt handler runs at any
    moment.  The threads' critical sections are the computations of
    VirtioDisk; the device is a parameter, and what the driver relies on is
    the hypothesis [device_ok]: every step of it is one that the virtio
    specification allows ([virtio_spec]).  The invariant [drv_inv] accounts
    for every descriptor and every request in flight; it implies that no
    thread and no interrupt ever panics or touches memory it should not.

    This is the driver under the default scheduler ([IO_type] 0), where
    [rw_queue] submits the buffer of its caller, which holds the buffer's
    sleep lock.  Under the others a thread submits the head of the queue, and
    two threads may have the same buffer in the driver. *)

From S2P Require Import Prelude Request VirtioDisk VirtioChain IoSched.

#[local] Ltac Zify.zify_post_hook ::= Z.to_euclidean_division_equations.

(** ** The device

    The part of the virtio specification the driver relies on.  [dv_seen]
    counts the avail entries the device has read, [dv_queue] holds the heads
    it works on, [dv_platter] its sectors of 512 bytes. *)

Record devst : Type := mkdev {
  dv_seen : Z; dv_queue : list Z; dv_platter : Z -> list Z
}.

(** What driver and device share: the rings, the buffers' data. *)
Record hw : Type := mkhw { h_d : disk; h_data : bufptr -> list Z; h_dev : devst }.

(** The request a descriptor chain describes: header, buffer, status cell. *)
Definition decode (d : disk) (head : Z) : option (virtio_blk_req * bufptr * Z) :=
  e0 ← zidx (desc d) head;
  match d_addr e0 with
  | AOps o =>
      blk ← zidx (ops d) o;
      e1 ← zidx (desc d) (d_next e0);
      match d_addr e1 with
      | AData b =>
          e2 ← zidx (desc d) (d_next e1);
          match d_addr e2 with
          | AStatus k =>
              if Z.testbit (d_flags e0) 0 && Z.testbit (d_flags e1) 0 && (d_len e1 =? BSIZE)
              then Some (blk, b, k) else None
          | _ => None
          end
      | _ => None
      end
  | _ => None
  end.

Definition upd_data (b : bufptr) (v : list Z) (f : bufptr -> list Z) : bufptr -> list Z :=
  fun b' => if decide (b' = b) then v else f b'.

(** A block is two sectors. *)
Definition read_block (pl : Z -> list Z) (sec : Z) : list Z := pl sec ++ pl (sec + 1).

Definition write_block (pl : Z -> list Z) (sec : Z) (v : list Z) : Z -> list Z :=
  fun s => if s =? sec then take 512 v else if s =? sec + 1 then drop 512 v else pl s.

Definition transfer (blk : virtio_blk_req) (b : bufptr) (data : bufptr -> list Z)
    (pl : Z -> list Z) : (bufptr -> list Z) * (Z -> list Z) :=
  if q_type blk =? VIRTIO_BLK_T_OUT
  then (data, write_block pl (q_sector blk) (data b))
  else (upd_data b (read_block pl (q_sector blk)) data, pl).

(** The device finishes a request: status 0, an entry in the used ring. *)
Definition dev_finish (head k : Z) (d : disk) : disk :=
  set_hw_idx (u16 (hw_idx d + 1))
    (set_used_ring (alter (fun _ => head) (Z.to_nat (hw_idx d mod NUM)) (used_ring d))
      (set_info_status (alter (fun _ => 0) (Z.to_nat k) (info_status d)) d)).

Inductive virtio_spec : hw -> hw -> Prop :=
| spec_fetch d data seen q pl head :
    seen <> avail_idx d ->
    zidx (avail_ring d) (seen mod NUM) = Some head ->
    virtio_spec (mkhw d data (mkdev seen q pl))
                (mkhw d data (mkdev (u16 (seen + 1)) (q ++ [head]) pl))
| spec_done d data seen q1 head q2 pl blk b k data' pl' :
    decode d head = Some (blk, b, k) ->
    transfer blk b data pl = (data', pl') ->
    virtio_spec (mkhw d data (mkdev seen (q1 ++ head :: q2) pl))
                (mkhw (dev_finish head k d) data' (mkdev seen (q1 ++ q2) pl')).

(** ** The invariant

    [W] are the requests in flight.  Their heads are, in this order: waiting
    in the avail ring, being worked on, waiting in the used ring, or done. *)

Record drv_inv (d : disk) (seen : Z) (q : list Z) (W : list op) (a u dn : list Z) : Prop := {
  di_free : free_ok d (taken W);
  di_lens : lens_ok d;
  di_chain : forall o, o ∈ W -> chain_ok d o;
  di_avail : ring_holds (avail_ring d) seen a (avail_idx d);
  di_used : ring_holds (used_ring d) (used_idx d) u (hw_idx d);
  di_heads : o0 <$> W ≡ₚ a ++ q ++ u ++ dn;
  di_status : forall h, h ∈ u ++ dn -> zidx (info_status d) h = Some 0;
  di_flag : forall o, o ∈ W -> b_disk d (o_b o) = if decide (o0 o ∈ dn) then 0 else 1;
  di_bufs : NoDup (o_b <$> W);
  di_nonnull : forall o, o ∈ W -> o_b o <> BNull
}.

Lemma taken_length W : length (taken W) = (3 * length W)%nat.
Proof. induction W as [|o W IH]; [done|]. cbn in *. unfold taken in IH. rewrite IH. lia. Qed.

Lemma elem_of_taken W o i : o ∈ W -> i ∈ o_idx o -> i ∈ taken W.
Proof. intros. apply list_elem_of_bind. eauto. Qed.

Lemma heads_submseteq W : o0 <$> W ⊆+ taken W.
Proof.
  induction W as [|o W IH]; [done|]. cbn. apply submseteq_skip.
  by do 2 apply submseteq_cons.
Qed.

Lemma taken_cons o W : taken (o :: W) = o_idx o ++ taken W.
Proof. done. Qed.

#[global] Instance taken_perm : Proper ((≡ₚ) ==> (≡ₚ)) taken.
Proof. intros W W' H. unfold taken. by rewrite H. Qed.

(** At most 42 requests fit: the rings never overflow. *)
Lemma free_ok_bound d T : free_ok d T -> (length T <= 128)%nat.
Proof.
  intros (_ & _ & HN & HT & _). change 128%nat with (Z.to_nat 128).
  rewrite <- (length_seqZ 0 128). apply submseteq_length, NoDup_submseteq; [done|].
  intros i Hi%HT. apply elem_of_seqZ. unfold NUM in Hi. lia.
Qed.

Lemma drv_inv_bound d seen q W a u dn :
  drv_inv d seen q W a u dn -> (length a + length q + length u + length dn <= 42)%nat.
Proof.
  intros I. pose proof (free_ok_bound _ _ (di_free _ _ _ _ _ _ _ I)) as HB.
  rewrite taken_length in HB. pose proof (di_heads _ _ _ _ _ _ _ I) as HP%Permutation_length.
  rewrite !length_app, length_fmap in HP. lia.
Qed.

Lemma heads_NoDup d seen q W a u dn : drv_inv d seen q W a u dn -> NoDup (o0 <$> W).
Proof.
  intros I. pose proof (di_free _ _ _ _ _ _ _ I) as (_ & _ & HN & _).
  destruct (submseteq_Permutation _ _ (heads_submseteq W)) as [k Hk].
  rewrite Hk in HN. by apply NoDup_app in HN as [? _].
Qed.

(** Distinct requests have distinct heads and buffers. *)
Lemma NoDup_fmap_inj {A B} (f : A -> B) (l : list A) x y :
  NoDup (f <$> l) -> x ∈ l -> y ∈ l -> f x = f y -> x = y.
Proof.
  induction l as [|z l IH]; cbn; [set_solver|]. intros [Hz HN]%NoDup_cons Hx Hy E.
  apply elem_of_cons in Hx as [->|Hx]; apply elem_of_cons in Hy as [->|Hy]; [done| | |auto].
  - destruct Hz. rewrite E. by apply list_elem_of_fmap_2.
  - destruct Hz. rewrite <- E. by apply list_elem_of_fmap_2.
Qed.

Section invariant.
Context {d : disk} {seen : Z} {q : list Z} {W : list op} {a u dn : list Z}.
Context (I : drv_inv d seen q W a u dn).

(** A head the invariant speaks of belongs to a request in flight. *)
Lemma inv_head h : h ∈ a ++ q ++ u ++ dn -> exists o, o ∈ W /\ o0 o = h.
Proof.
  intros H. rewrite <- (di_heads _ _ _ _ _ _ _ I) in H.
  apply list_elem_of_fmap in H as (o & -> & ?). eauto.
Qed.

Lemma inv_heads_NoDup : NoDup (a ++ q ++ u ++ dn).
Proof. rewrite <- (di_heads _ _ _ _ _ _ _ I). by eapply heads_NoDup. Qed.

Lemma inv_op_inj o o' : o ∈ W -> o' ∈ W -> o0 o = o0 o' -> o = o'.
Proof. intros. eapply NoDup_fmap_inj; [by eapply heads_NoDup|done..]. Qed.

Lemma inv_buf_inj o o' : o ∈ W -> o' ∈ W -> o_b o = o_b o' -> o = o'.
Proof. intros. eapply NoDup_fmap_inj; [apply (di_bufs _ _ _ _ _ _ _ I)|done..]. Qed.

Lemma inv_range h : h ∈ a ++ q ++ u ++ dn -> 0 <= h < NUM.
Proof.
  intros (o & Ho & <-)%inv_head. pose proof (di_free _ _ _ _ _ _ _ I) as (_ & _ & _ & HT & _).
  apply HT. eapply elem_of_taken; [done|left].
Qed.

Lemma inv_perm W' : W ≡ₚ W' -> drv_inv d seen q W' a u dn.
Proof.
  intros HP. destruct I as [HF HL HC HA HU HH HS HG HB HN]. split; try done.
  - by eapply free_ok_perm; [rewrite <- HP|].
  - intros o. rewrite <- HP. apply HC.
  - by rewrite <- HP.
  - intros o. rewrite <- HP. apply HG.
  - by rewrite <- HP.
  - intros o. rewrite <- HP. apply HN.
Qed.

(** Descriptors outside the requests in flight may change hands. *)
Lemma inv_frame d' :
  frame (taken W) d d' -> free_ok d' (taken W) -> drv_inv d' seen q W a u dn.
Proof.
  intros HR HF'. destruct I as [HF HL HC HA HU HH HS HG HB HN].
  split; rewrite ?(fr_avail_idx _ _ _ HR), ?(fr_avail_ring _ _ _ HR), ?(fr_hw_idx _ _ _ HR),
    ?(fr_used_ring _ _ _ HR), ?(fr_used_idx _ _ _ HR), ?(fr_info_status _ _ _ HR),
    ?(fr_b_disk _ _ _ HR); try done.
  - unfold lens_ok. by rewrite (fr_avail_ring _ _ _ HR), (fr_used_ring _ _ _ HR),
      (fr_info_b _ _ _ HR), (fr_info_status _ _ _ HR), (fr_ops _ _ _ HR).
  - intros o Ho. eapply frame_chain; [|done|by apply HC].
    intros i Hi. by eapply elem_of_taken.
Qed.

End invariant.

(** *** The device preserves the invariant *)

Lemma inv_fetch d seen q W h a u dn :
  drv_inv d seen q W (h :: a) u dn -> drv_inv d (u16 (seen + 1)) (q ++ [h]) W a u dn.
Proof.
  intros [HF HL HC HA HU HH HS HG HB HN]. split; try done.
  - by apply ring_holds_pop in HA as [_ HA].
  - rewrite HH. rewrite <- app_assoc. cbn. by rewrite <- !Permutation_middle.
Qed.

Lemma decode_chain d o :
  chain_ok d o ->
  decode d (o0 o) = Some (mkblk (if o_w o =? 0 then VIRTIO_BLK_T_IN else VIRTIO_BLK_T_OUT) 0
                            (o_sec o), o_b o, o0 o).
Proof.
  intros [H0 H1 H2 H3 _]. unfold decode. rewrite H0. cbn. rewrite H3. cbn. rewrite H1. cbn.
  rewrite H2. by destruct (o_w o =? 0).
Qed.

Lemma inv_finish d seen q1 h q2 W a u dn :
  drv_inv d seen (q1 ++ h :: q2) W a u dn ->
  drv_inv (dev_finish h h d) seen (q1 ++ q2) W a (u ++ [h]) dn.
Proof.
  intros I. pose proof (drv_inv_bound _ _ _ _ _ _ _ I) as HB'.
  pose proof (inv_heads_NoDup I) as HNH.
  assert (0 <= h < NUM) as Hr by (apply (inv_range I); set_solver).
  destruct I as [HF HL HC HA HU HH HS HG HB HN]. pose proof HL as (L1 & L2 & L3 & L4 & L5).
  split; cbn; try done.
  - unfold lens_ok. cbn. by rewrite !length_alter.
  - intros o Ho. by destruct (HC o Ho).
  - apply ring_holds_push; [done|lia|done].
  - rewrite HH. rewrite <- !app_assoc. cbn. by rewrite <- !Permutation_middle.
  - intros x Hx. destruct (decide (x = h)) as [->|Hne].
    + destruct (zidx_is_Some (info_status d) h) as [y Hy]; [unfold NUM in *; lia|].
      by rewrite zidx_alter_fmap, Hy.
    + rewrite zidx_alter_ne by (lia || congruence). apply HS. set_solver.
Qed.

(** *** The driver preserves the invariant *)

Lemma inv_submit d0 d d' seen q W a u dn o :
  drv_inv d0 seen q W a u dn -> frame (taken W) d0 d ->
  free_ok d (o_idx o ++ taken W) -> submitted o d d' ->
  o_b o ∉ o_b <$> W -> o_b o <> BNull ->
  drv_inv d' seen q (o :: W) (a ++ [o0 o]) u dn.
Proof.
  intros I HR HF' S Hb Hnn. pose proof (drv_inv_bound _ _ _ _ _ _ _ I) as HB'.
  assert (forall h, h ∈ a ++ q ++ u ++ dn -> h <> o0 o) as Hfresh.
  { intros h (o' & Ho' & <-)%(inv_head I) E.
    destruct HF' as (_ & _ & HN & _). apply NoDup_app in HN as (_ & HD & _).
    apply (HD (o0 o)); [left|]. rewrite <- E. eapply elem_of_taken; [done|left]. }
  assert (forall o', o' ∈ W -> forall i, i ∈ o_idx o' -> i ∉ o_idx o) as Hdisj.
  { intros o' Ho' i Hi Hi'. destruct HF' as (_ & _ & HN & _).
    apply NoDup_app in HN as (_ & HD & _). apply (HD i); [done|]. by eapply elem_of_taken. }
  destruct I as [HF HL HC HA HU HH HS HG HB HN]. pose proof HL as (L1 & L2 & L3 & L4 & L5).
  destruct (su_hw _ _ _ S) as (S1 & S2 & S3).
  split.
  - destruct HF' as (F1 & F2 & F3 & F4 & F5). rewrite taken_cons.
    split; [by rewrite (su_free _ _ _ S)|]. split; [by rewrite (su_desc_len _ _ _ S)|].
    split; [done|]. split; [done|]. by rewrite (su_free _ _ _ S).
  - unfold lens_ok. rewrite (su_ring _ _ _ S), length_alter, S2, (su_info_len _ _ _ S),
      (su_status_len _ _ _ S), (su_ops_len _ _ _ S), (fr_avail_ring _ _ _ HR),
      (fr_used_ring _ _ _ HR), (fr_info_b _ _ _ HR), (fr_info_status _ _ _ HR),
      (fr_ops _ _ _ HR). done.
  - intros o' [->|Ho']%elem_of_cons; [apply S|]. pose proof (HC o' Ho') as HC'.
    assert (o_idx o' ⊆ taken W) by (intros i Hi; by eapply elem_of_taken).
    eapply frame_chain in HC'; [|done..]. destruct HC' as [C0 C1 C2 C3 C4].
    specialize (Hdisj o' Ho'). unfold o_idx in Hdisj at 1.
    assert (o0 o' <> o0 o) by (intros E; apply (Hdisj (o0 o')); [left|rewrite E; left]).
    split; rewrite ?(su_desc _ _ _ S), ?(su_ops _ _ _ S), ?(su_info _ _ _ S)
      by (done || apply Hdisj; set_solver); done.
  - rewrite (su_ring _ _ _ S), (su_idx _ _ _ S), (fr_avail_ring _ _ _ HR), (fr_avail_idx _ _ _ HR).
    apply ring_holds_push; [done|lia|done].
  - by rewrite S1, S2, S3, (fr_used_ring _ _ _ HR), (fr_used_idx _ _ _ HR), (fr_hw_idx _ _ _ HR).
  - cbn. rewrite HH, <- app_assoc. cbn. by rewrite Permutation_middle.
  - intros h Hh. rewrite (su_status _ _ _ S), (fr_info_status _ _ _ HR); [by apply HS|].
    apply Hfresh. set_solver.
  - rewrite (su_flag _ _ _ S), (fr_b_disk _ _ _ HR). intros o' Ho'. unfold upd_b_disk.
    apply elem_of_cons in Ho' as [->|Ho'].
    + rewrite decide_True by done. rewrite decide_False; [done|].
      intros Hd. apply (Hfresh (o0 o)); [set_solver|done].
    + rewrite decide_False; [by apply HG|]. intros E. apply Hb. rewrite <- E.
      by apply list_elem_of_fmap_2.
  - cbn. by constructor.
  - intros o' [->|Ho']%elem_of_cons; [done|by apply HN].
Qed.

(** A request is done exactly when its buffer's flag is clear. *)
Lemma inv_done_iff d seen q W a u dn o :
  drv_inv d seen q W a u dn -> o ∈ W -> b_disk d (o_b o) <> 1 <-> o0 o ∈ dn.
Proof. intros I Ho. rewrite (di_flag _ _ _ _ _ _ _ I o Ho). case_decide; naive_solver. Qed.

(** [rw_complete] retires a request: its descriptors are free again. *)
Lemma inv_complete d seen q o W a u dn n :
  drv_inv d seen q (o :: W) a u (o0 o :: dn) -> (3 <= n)%nat ->
  exists d', rw_complete n (o0 o) d = Ok (tt, d') /\ drv_inv d' seen q W a u dn.
Proof.
  intros I Hn. pose proof (heads_NoDup _ _ _ _ _ _ _ I) as HNH. cbn in HNH.
  apply NoDup_cons in HNH as [Hfresh HNH].
  assert (forall o', o' ∈ W -> o0 o' <> o0 o) as Hne.
  { intros o' Ho' E. apply Hfresh. rewrite <- E. by apply list_elem_of_fmap_2. }
  assert (0 <= o0 o < NUM) as Hr by (apply (inv_range I); set_solver).
  destruct I as [HF HL HC HA HU HH HS HG HB HN]. pose proof HL as (L1 & L2 & L3 & L4 & L5).
  unfold rw_complete, M_wr. erewrite M_bind_Ok; [|apply M_alter_Ok; unfold NUM in *; lia].
  set (d1 := set_info_b _ d). destruct (HC o) as [C0 C1 C2 _ _]; [left|].
  destruct (free_chain_spec n d1 o (taken W) Hn HF C0 C1 C2) as (d' & E & HF' & HR).
  exists d'. split; [done|].
  pose proof HR as [R1 R2 R3 R4 R5 R6 R7 R8 R9 R10]. cbn in *.
  split; rewrite ?R2, ?R3, ?R4, ?R5, ?R6, ?R8, ?R10; try done.
  - unfold lens_ok. rewrite R3, R5, R7, R8, R9, length_alter. done.
  - intros o' Ho'. eapply frame_chain; [|done|].
    { intros i Hi. by eapply elem_of_taken. }
    destruct (HC o') as [C0' C1' C2' C3' C4']; [by right|]. split; try done.
    cbn. rewrite zidx_alter_ne; [done|lia|]. intros E'. by apply (Hne o').
  - cbn in HH. rewrite !app_assoc, <- Permutation_middle in HH. rewrite !app_assoc.
    by apply Permutation_cons_inv in HH.
  - intros h Hh. apply HS. set_solver.
  - intros o' Ho'. rewrite HG by (by right). apply decide_ext. rewrite elem_of_cons.
    specialize (Hne o' Ho'). tauto.
  - by apply NoDup_cons in HB as [_ HB].
  - intros o' Ho'. apply HN. by right.
Qed.

(** One round of the interrupt handler's loop. *)
Lemma inv_used_step d seen q W a h u dn :
  drv_inv d seen q W a (h :: u) dn ->
  exists b, zidx (used_ring d) (used_idx d mod NUM) = Some h /\
    zidx (info_status d) h = Some 0 /\ zidx (info_b d) h = Some b /\ b <> BNull /\
    used_idx d <> hw_idx d /\
    drv_inv (set_used_idx (u16 (used_idx d + 1))
      (set_woken (CBuf b :: woken d) (set_b_disk (upd_b_disk b 0 (b_disk d)) d)))
      seen q W a u (h :: dn).
Proof.
  intros I. pose proof (drv_inv_bound _ _ _ _ _ _ _ I) as HB'. cbn [length] in HB'.
  destruct (inv_head I h) as (o & Ho & E); [set_solver|]. exists (o_b o).
  pose proof (inv_op_inj I) as Hinj. pose proof (inv_buf_inj I) as Hbinj.
  pose proof (inv_heads_NoDup I) as HNH.
  destruct I as [HF HL HC HA HU HH HS HG HB HN].
  destruct (ring_holds_pop _ _ _ _ _ HU) as [HU1 HU2].
  split; [done|]. split; [apply HS; set_solver|].
  split; [rewrite <- E; apply HC; done|]. split; [by apply HN|].
  split. { intros E'. apply ring_holds_nil in HU; [done| |done]. cbn [length]. lia. }
  split; try done.
  - intros o' Ho'. by destruct (HC o' Ho').
  - rewrite HH. cbn. by rewrite <- !Permutation_middle.
  - intros x Hx. apply HS. set_solver.
  - intros o' Ho'. cbn. unfold upd_b_disk. destruct (decide (o_b o' = o_b o)) as [Eb|Hb].
    + apply Hbinj in Eb; [|done..]. subst o'. rewrite decide_True; [done|]. rewrite E. left.
    + rewrite HG by done. apply decide_ext. rewrite elem_of_cons.
      assert (o0 o' <> h) by (intros E'; apply Hb; f_equal; apply Hinj; congruence). tauto.
Qed.

Lemma inv_used_loop u d seen q W a dn n :
  drv_inv d seen q W a u dn -> (length u < n)%nat ->
  exists d' dn', used_loop n d = Ok (tt, d') /\ drv_inv d' seen q W a [] dn' /\
    dn' ≡ₚ u ++ dn.
Proof.
  revert d dn n. induction u as [|h u IH]; intros d dn n I Hn;
    (destruct n as [|n]; [lia|]); cbn [used_loop]; mgo.
  - pose proof (di_used _ _ _ _ _ _ _ I) as (Hi & E & _). cbn in E.
    rewrite Z.add_0_r, u16_small in E by done. rewrite E, Z.eqb_refl. eauto.
  - destruct (inv_used_step _ _ _ _ _ _ _ _ I) as (b & H1 & H2 & H3 & H4 & H5 & I').
    destruct (Z.eqb_spec (used_idx d) (hw_idx d)); [done|].
    erewrite M_bind_Ok; [|by apply M_rd_Ok]. erewrite M_bind_Ok; [|by apply M_rd_Ok].
    cbn [Z.eqb negb]. erewrite M_bind_Ok; [|by apply M_rd_Ok].
    erewrite M_bind_Ok; [|by apply put_b_disk_Ok]. unfold wakeup. mgo. cbn [length] in Hn.
    destruct (IH _ _ n I') as (d' & dn' & E & I'' & HP); [lia|].
    exists d', dn'. split; [done|]. split; [done|]. rewrite HP.
    by rewrite <- Permutation_middle.
Qed.

(** The interrupt handler completes everything in the used ring. *)
Lemma inv_intr ist d seen q W a u dn :
  drv_inv d seen q W a u dn ->
  exists d' dn', intr_used ist d = Ok (tt, d') /\ drv_inv d' seen q W a [] dn' /\
    dn' ≡ₚ u ++ dn.
Proof.
  intros I. pose proof (drv_inv_bound _ _ _ _ _ _ _ I) as HB'.
  unfold intr_used, mmio_write. mgo. cbn [hw_idx used_idx set_mmio].
  apply inv_used_loop with (u := u).
  - destruct I as [? ? HC]. split; try done. intros o Ho. by destruct (HC o Ho).
  - pose proof (di_used _ _ _ _ _ _ _ I) as (Hi & -> & _). unfold u16. lia.
Qed.

(** ** Threads, interrupts and the device together *)

(** Where a thread is: not in the driver, in the loop that allocates
    descriptors, or waiting for its request. *)
Inductive thread : Type :=
| TIdle
| TAlloc (b : bufptr) (w sec : Z)
| TWait (o : op).

Record sys : Type := mksys { s_hw : hw; s_thr : list thread }.

Definition waiting (t : thread) : option op :=
  match t with TWait o => Some o | _ => None end.

Definition t_buf (t : thread) : option bufptr :=
  match t with TIdle => None | TAlloc b _ _ => Some b | TWait o => Some (o_b o) end.

Definition set_h_d (d : disk) (h : hw) : hw := mkhw d (h_data h) (h_dev h).

(** Descriptors and flags as [virtio_disk_init] leaves them, the device idle. *)
Definition drv_start (h : hw) : Prop :=
  let d := h_d h in
  lens_ok d /\ free_ok d [] /\ (forall b, b_disk d b = 0) /\
  avail_idx d = 0 /\ hw_idx d = 0 /\ used_idx d = 0 /\
  dv_seen (h_dev h) = 0 /\ dv_queue (h_dev h) = [].

(** Replacing one thread, up to the order of the others. *)
Lemma thread_split (thr : list thread) t x :
  thr !! t = Some x ->
  exists R, thr ≡ₚ x :: R /\ forall y, <[t := y]> thr ≡ₚ y :: R.
Proof.
  intros H. exists (take t thr ++ drop (S t) thr). split.
  - rewrite <- (take_drop_middle thr t x H) at 1. by rewrite Permutation_middle.
  - intros y. rewrite (insert_take_drop thr t y) by (by eapply lookup_lt_Some).
    by rewrite Permutation_middle.
Qed.

Lemma waiting_bufs (R : list thread) b :
  b ∉ omap t_buf R -> b ∉ o_b <$> omap waiting R.
Proof.
  intros H Hb. apply H. apply list_elem_of_fmap in Hb as (o & -> & Ho).
  apply list_elem_of_omap in Ho as (t & Ht & E). apply list_elem_of_omap.
  exists t. split; [done|]. destruct t; by simplify_eq/=.
Qed.

Record sys_inv (s : sys) (W : list op) (a u dn : list Z) : Prop := {
  sy_drv : drv_inv (h_d (s_hw s)) (dv_seen (h_dev (s_hw s))) (dv_queue (h_dev (s_hw s))) W a u dn;
  sy_thr : W ≡ₚ omap waiting (s_thr s);
  sy_bufs : NoDup (omap t_buf (s_thr s));
  sy_nonnull : forall b w sec, TAlloc b w sec ∈ s_thr s -> b <> BNull
}.

Lemma sys_start_inv h n : drv_start h -> sys_inv (mksys h (replicate n TIdle)) [] [] [] [].
Proof.
  intros (HL & HF & Hb & E1 & E2 & E3 & E4 & E5).
  assert (omap waiting (replicate n TIdle) = [] /\ omap t_buf (replicate n TIdle) = [])
    as [Ew Eb] by (by induction n).
  split; cbn.
  - rewrite E4, E5. split; rewrite ?E1, ?E2, ?E3;
      try (done || by apply ring_holds_start || constructor); set_solver.
  - by rewrite Ew.
  - rewrite Eb. constructor.
  - intros b w sec [? _]%elem_of_replicate. done.
Qed.

(** The driver's steps cannot fail in a state of the invariant. *)
Lemma sys_inv_alloc s W a u dn t b w sec :
  sys_inv s W a u dn -> s_thr s !! t = Some (TAlloc b w sec) ->
  (exists d', alloc3_desc (h_d (s_hw s)) = Ok (None, d') /\
     drv_inv d' (dv_seen (h_dev (s_hw s))) (dv_queue (h_dev (s_hw s))) W a u dn) \/
  (exists i0 i1 i2 d1 d2, alloc3_desc (h_d (s_hw s)) = Ok (Some [i0; i1; i2], d1) /\
     rw_submit i0 i1 i2 b w sec d1 = Ok (tt, d2) /\
     drv_inv d2 (dv_seen (h_dev (s_hw s))) (dv_queue (h_dev (s_hw s)))
       (mkop b w sec i0 i1 i2 :: W) (a ++ [i0]) u dn).
Proof.
  intros [ID IT IB IN] Ht. pose proof ID as [HF HL _ _ _ _ _ _ _ _].
  destruct (alloc3_desc_spec _ _ HF)
    as [(d' & E & HF' & HR & _)|(i0 & i1 & i2 & d1 & E & HF' & HR)]; [left|right].
  { exists d'. split; [done|]. by eapply inv_frame. }
  set (o := mkop b w sec i0 i1 i2). assert (lens_ok d1) as HL1.
  { destruct HR as [_ _ R3 _ R5 _ R7 R8 R9 _]. unfold lens_ok. by rewrite R3, R5, R7, R8, R9. }
  pose proof HF' as (_ & Hd & HN & HT & _).
  destruct (rw_submit_spec d1 o) as (d2 & E2 & S); [done|done| | |eapply IN, list_elem_of_lookup_2, Ht|].
  { change (i0 :: i1 :: i2 :: taken W) with (o_idx o ++ taken W) in HN.
    by apply NoDup_app in HN as [? _]. }
  { intros i Hi. apply HT. unfold o_idx in Hi. cbn in Hi. set_solver. }
  exists i0, i1, i2, d1, d2. split; [done|]. split; [done|].
  eapply (inv_submit _ _ _ _ _ _ _ _ _ o); [done|done|done|done| |eapply IN, list_elem_of_lookup_2, Ht].
  destruct (thread_split _ _ _ Ht) as (R & HP & _). rewrite IT, HP. cbn.
  rewrite HP in IB. cbn in IB. apply NoDup_cons in IB as [IB _].
  by apply waiting_bufs.
Qed.

Lemma sys_inv_complete s W a u dn t o :
  sys_inv s W a u dn -> s_thr s !! t = Some (TWait o) -> b_disk (h_d (s_hw s)) (o_b o) <> 1 ->
  exists d' W' dn', rw_complete (Z.to_nat NUM) (o0 o) (h_d (s_hw s)) = Ok (tt, d') /\
    W ≡ₚ o :: W' /\ dn ≡ₚ o0 o :: dn' /\
    drv_inv d' (dv_seen (h_dev (s_hw s))) (dv_queue (h_dev (s_hw s))) W' a u dn'.
Proof.
  intros [ID IT IB IN] Ht Hf.
  assert (o ∈ W) as Ho.
  { rewrite IT. apply list_elem_of_omap. exists (TWait o). split; [|done].
    by eapply list_elem_of_lookup_2. }
  rewrite (inv_done_iff _ _ _ _ _ _ _ _ ID Ho) in Hf.
  apply elem_of_Permutation in Ho as [W' HW]. apply elem_of_Permutation in Hf as [dn' HD].
  destruct (inv_complete (h_d (s_hw s)) (dv_seen (h_dev (s_hw s))) (dv_queue (h_dev (s_hw s)))
    o W' a u dn' (Z.to_nat NUM)) as (d' & E & I').
  - apply (inv_perm ID) in HW. destruct HW as [? ? ? ? ? HH HS HG ? ?]. split; try done.
    + by rewrite <- HD.
    + intros h. rewrite <- HD. apply HS.
    + intros o' Ho'. rewrite HG by done. apply decide_ext. by rewrite HD.
  - unfold NUM. lia.
  - exists d', W', dn'. done.
Qed.

Section system.
Context (device : hw -> hw -> Prop).

(** A caller of [rw_queue] holds the sleep lock of its buffer, so with
    [IO_type] 0 no other thread is in the driver with the same one
    ([sys_enter]). *)
Inductive sys_step : sys -> sys -> Prop :=
| sys_enter h thr t b w sec :
    thr !! t = Some TIdle -> b <> BNull -> b ∉ omap t_buf thr ->
    sys_step (mksys h thr) (mksys h (<[t := TAlloc b w sec]> thr))
| sys_alloc_fails h thr t b w sec d' :
    thr !! t = Some (TAlloc b w sec) ->
    alloc3_desc (h_d h) = Ok (None, d') ->
    sys_step (mksys h thr) (mksys (set_h_d d' h) thr)
| sys_submit h thr t b w sec i0 i1 i2 d1 d2 :
    thr !! t = Some (TAlloc b w sec) ->
    alloc3_desc (h_d h) = Ok (Some [i0; i1; i2], d1) ->
    rw_submit i0 i1 i2 b w sec d1 = Ok (tt, d2) ->
    sys_step (mksys h thr)
      (mksys (set_h_d d2 h) (<[t := TWait (mkop b w sec i0 i1 i2)]> thr))
| sys_complete h thr t o d' :
    thr !! t = Some (TWait o) -> b_disk (h_d h) (o_b o) <> 1 ->
    rw_complete (Z.to_nat NUM) (o0 o) (h_d h) = Ok (tt, d') ->
    sys_step (mksys h thr) (mksys (set_h_d d' h) (<[t := TIdle]> thr))
| sys_intr h thr ist d' :
    intr_used ist (h_d h) = Ok (tt, d') ->
    sys_step (mksys h thr) (mksys (set_h_d d' h) thr)
| sys_device h h' thr :
    device h h' -> sys_step (mksys h thr) (mksys h' thr).

Definition sys_reachable (s : sys) : Prop :=
  exists h n, drv_start h /\ rtc sys_step (mksys h (replicate n TIdle)) s.

(** Documented behaviour of the device (virtio 1.1, 2.6 and 5.2): it takes
    heads from the avail ring, carries out their requests without error, and
    reports them in the used ring. *)
Context (device_ok : forall h h', device h h' -> virtio_spec h h').

Lemma sys_step_inv s s' W a u dn :
  sys_step s s' -> sys_inv s W a u dn -> exists W' a' u' dn', sys_inv s' W' a' u' dn'.
Proof.
  intros St I. pose proof I as [ID IT IB IN]. destruct St
    as [h thr t b w sec Ht Hb Hfr|h thr t b w sec d' Ht E|h thr t b w sec i0 i1 i2 d1 d2 Ht E1 E2
       |h thr t o d' Ht Hf E|h thr ist d' E|h h' thr Hd]; cbn in *.
  - exists W, a, u, dn. destruct (thread_split _ _ _ Ht) as (R & HP & HQ). split; cbn; [done|..].
    + by rewrite IT, HQ, HP.
    + rewrite HQ. rewrite HP in Hfr, IB. cbn in *. by constructor.
    + intros b' w' sec'. rewrite HQ. intros [[= -> -> ->]|H]%elem_of_cons; [done|].
      apply (IN b' w' sec'). rewrite HP. by right.
  - destruct (sys_inv_alloc _ _ _ _ _ _ _ _ _ I Ht) as [(d2 & E' & ID')|(? & ? & ? & ? & ? & E' & _)];
      cbn in *; [|congruence]. exists W, a, u, dn. split; try done. cbn. congruence.
  - destruct (sys_inv_alloc _ _ _ _ _ _ _ _ _ I Ht)
      as [(d3 & E' & ID')|(j0 & j1 & j2 & d3 & d4 & E' & E'' & ID')]; cbn in *; [congruence|].
    assert (j0 = i0 /\ j1 = i1 /\ j2 = i2 /\ d3 = d1) as (-> & -> & -> & ->)
      by (rewrite E' in E1; by injection E1 as -> -> -> ->).
    assert (d4 = d2) as -> by (rewrite E'' in E2; by injection E2 as ->).
    destruct (thread_split _ _ _ Ht) as (R & HP & HQ).
    eexists (_ :: W), (a ++ [i0]), u, dn. split; cbn; [done|..].
    + rewrite HQ, IT, HP. done.
    + rewrite HQ. by rewrite HP in IB.
    + intros b' w' sec'. rewrite HQ. intros [[=]|H]%elem_of_cons.
      apply (IN b' w' sec'). rewrite HP. by right.
  - destruct (sys_inv_complete _ _ _ _ _ _ _ I Ht Hf) as (d2 & W' & dn' & E' & HW & HD & ID').
    cbn in *. assert (d2 = d') as -> by congruence.
    destruct (thread_split _ _ _ Ht) as (R & HP & HQ).
    exists W', a, u, dn'. split; cbn; [done|..].
    + rewrite HQ. cbn. rewrite IT, HP in HW. cbn in HW. by apply Permutation_cons_inv in HW.
    + rewrite HQ. cbn. rewrite HP in IB. cbn in IB. by apply NoDup_cons in IB as [_ IB].
    + intros b' w' sec'. rewrite HQ. intros [[=]|H]%elem_of_cons.
      apply (IN b' w' sec'). rewrite HP. by right.
  - destruct (inv_intr ist _ _ _ _ _ _ _ ID) as (d2 & dn' & E' & ID' & _).
    exists W, a, [], dn'. split; try done. cbn. congruence.
  - apply device_ok in Hd. destruct Hd
      as [d data seen q pl head Hs Hh|d data seen q1 head q2 pl blk b k data' pl' Hd Htr]; cbn in *.
    + destruct a as [|h a].
      { destruct (di_avail _ _ _ _ _ _ _ ID) as (Hr & E & _). cbn in E.
        rewrite Z.add_0_r, u16_small in E by done. congruence. }
      destruct (ring_holds_pop _ _ _ _ _ (di_avail _ _ _ _ _ _ _ ID)) as [Eh _].
      assert (head = h) as -> by congruence.
      exists W, a, u, dn. split; try done. by apply inv_fetch.
    + destruct (inv_head ID head) as (o & Ho & <-); [set_solver|].
      rewrite (decode_chain d o) in Hd by (by apply (di_chain _ _ _ _ _ _ _ ID)).
      injection Hd as _ _ <-.
      exists W, a, (u ++ [o0 o]), dn. split; try done. by apply inv_finish.
Qed.

Lemma sys_reachable_inv s : sys_reachable s -> exists W a u dn, sys_inv s W a u dn.
Proof.
  intros (h & n & H0 & Hs). remember (mksys h (replicate n TIdle)) as s0 eqn:E0.
  assert (exists W a u dn, sys_inv s0 W a u dn) as H1.
  { subst. exists [], [], [], []. by apply sys_start_inv. }
  clear E0 H0. induction Hs as [|s0 s1 s2 St _ IH]; [done|].
  apply IH. destruct H1 as (W & a & u & dn & I). by eapply sys_step_inv.
Qed.

End system.

(** ** Theorems *)

(** With [IO_type] 0 the handler leaves the queues of the schedulers alone. *)
Lemma intr_noop m ist k d' :
  IO_type k = 0 -> intr_used ist (k_disk k) = Ok (tt, d') -> virtio_disk_intr m ist k = Ok (tt, set_disk d' k).
Proof.
  intros Ht E. unfold virtio_disk_intr. erewrite M_bind_Ok; [|apply (zoom_Ok k_disk set_disk _ _ _ _ E)]. mgo.
  cbn [set_disk IO_type]. by rewrite Ht.
Qed.


Lemma sys_inv_waiting s W a u dn t o :
  sys_inv s W a u dn -> s_thr s !! t = Some (TWait o) -> o ∈ W.
Proof.
  intros I Ht. rewrite (sy_thr _ _ _ _ _ I). apply list_elem_of_omap. exists (TWait o).
  split; [by eapply list_elem_of_lookup_2|done].
Qed.


(** what a waiting thread asked for is what the device is told: until the
    request is done its chain decodes to the right command, sector, buffer
    and status cell; once the thread sees [b->disk] clear, the status is 0 and
    no further step of the device changes the buffer. *)
Theorem driver_completion_is_final device s t o
    (device_ok : forall h h', device h h' -> virtio_spec h h')
    (Hr : sys_reachable device s) (Ht : s_thr s !! t = Some (TWait o)) :
  decode (h_d (s_hw s)) (o0 o) =
    Some (mkblk (if o_w o =? 0 then VIRTIO_BLK_T_IN else VIRTIO_BLK_T_OUT) 0 (o_sec o),
          o_b o, o0 o) /\
  (b_disk (h_d (s_hw s)) (o_b o) <> 1 ->
     zidx (info_status (h_d (s_hw s))) (o0 o) = Some 0 /\
     forall h', device (s_hw s) h' -> h_data h' (o_b o) = h_data (s_hw s) (o_b o)).
Proof.
  destruct (sys_reachable_inv device device_ok s Hr) as (W & a & u & dn & I).
  pose proof (sys_inv_waiting _ _ _ _ _ _ _ I Ht) as Ho. destruct I as [ID _ _ _].
  split; [by apply decode_chain, (di_chain _ _ _ _ _ _ _ ID)|].
  rewrite (inv_done_iff _ _ _ _ _ _ _ _ ID Ho). intros Hd.
  split; [apply (di_status _ _ _ _ _ _ _ ID); set_solver|].
  intros h' Hs%device_ok. destruct s as [h thr]. cbn in *.
  destruct Hs as [|d data seen q1 head q2 pl blk b k data' pl' Hdec Htr]; cbn in *; [done|].
  destruct (inv_head ID head) as (o' & Ho' & <-); [set_solver|].
  rewrite (decode_chain d o') in Hdec by (by apply (di_chain _ _ _ _ _ _ _ ID)).
  injection Hdec as <- <- <-. unfold transfer in Htr.
  destruct (q_type _ =? VIRTIO_BLK_T_OUT); injection Htr as <- <-; [done|].
  unfold upd_data. rewrite decide_False; [done|]. intros E.
  assert (o = o') as <- by (by eapply (inv_buf_inj ID)).
  pose proof (inv_heads_NoDup ID) as HN.
  rewrite !NoDup_app in HN. set_solver.
Qed.

(** ** A concrete device

    It serves requests one at a time, in the order of the avail ring. *)

Definition fifo_device (h : hw) : option hw :=
  let d := h_d h in
  let v := h_dev h in
  match dv_queue v with
  | head :: q =>
      '(blk, b, k) ← decode d head;
      let '(data', pl') := transfer blk b (h_data h) (dv_platter v) in
      Some (mkhw (dev_finish head k d) data' (mkdev (dv_seen v) q pl'))
  | [] =>
      if dv_seen v =? avail_idx d then None else
      head ← zidx (avail_ring d) (dv_seen v mod NUM);
      Some (mkhw d (h_data h) (mkdev (u16 (dv_seen v + 1)) [head] (dv_platter v)))
  end.

Lemma fifo_device_ok h h' : fifo_device h = Some h' -> virtio_spec h h'.
Proof.
  destruct h as [d data [seen [|head q] pl]]; cbn.
  - destruct (Z.eqb_spec seen (avail_idx d)) as [|Hne]; [done|].
    destruct (zidx (avail_ring d) (seen mod NUM)) as [head|] eqn:E; [|done].
    cbn. intros [= <-]. by apply (spec_fetch d data seen [] pl head).
  - destruct (decode d head) as [[[blk b] k]|] eqn:E; [|done]. cbn.
    destruct (transfer blk b data pl) as [data' pl'] eqn:E'. intros [= <-].
    by apply (spec_done d data seen [] head q pl blk b k).
Qed.

(** A run for the examples below: thread 0 reads block 5 into buffer 7. *)

Definition ex_disk : disk :=
  let n := Z.to_nat NUM in
  mkdisk (replicate n (mkdesc ANull 0 0 0)) 0 (replicate n 0) 0 (replicate n 0)
    (replicate n 1) 0 (replicate n BNull) (replicate n 0) (replicate n (mkblk 0 0 0))
    (fun _ => 0) [] [].

Definition ex_hw : hw := mkhw ex_disk (fun _ => []) (mkdev 0 [] (fun s => [s])).

Lemma ex_start : drv_start ex_hw.
Proof.
  split; [done|]. split; [|done]. split; [done|]. split; [done|].
  split; [constructor|]. split; [set_solver|]. intros i Hi. rewrite decide_False by set_solver.
  apply zidx_Some. split; [lia|]. apply lookup_replicate_2. unfold NUM in *. lia.
Qed.

Definition ex_op : op := mkop (BBuf 7) 0 10 0 1 2.
Definition ex_h1 : hw :=
  set_h_d (snd (ok_or (tt, ex_disk)
    (rw_submit 0 1 2 (BBuf 7) 0 10 (snd (ok_or (None, ex_disk) (alloc3_desc ex_disk)))))) ex_hw.
Definition ex_h2 : hw := default ex_h1 (fifo_device ex_h1).
Definition ex_h3 : hw := default ex_h2 (fifo_device ex_h2).
Definition ex_h4 : hw := set_h_d (snd (ok_or (tt, ex_disk) (intr_used 1 (h_d ex_h3)))) ex_h3.

Definition fifo (h h' : hw) : Prop := fifo_device h = Some h'.

Definition ex_sys : sys := mksys ex_h4 [TWait ex_op].

Lemma ex_reachable : sys_reachable fifo ex_sys.
Proof.
  exists ex_hw, 1%nat. split; [apply ex_start|].
  eapply rtc_l.
  { apply (sys_enter fifo ex_hw [TIdle] 0 (BBuf 7) 0 10); [done|done|set_solver]. }
  eapply rtc_l.
  { eapply (sys_submit fifo ex_hw [TAlloc (BBuf 7) 0 10] 0 (BBuf 7) 0 10 0 1 2);
      [done|vm_compute; reflexivity|vm_compute; reflexivity]. }
  eapply rtc_l. { apply sys_device with (h' := ex_h2). vm_compute. reflexivity. }
  eapply rtc_l. { apply sys_device with (h' := ex_h3). vm_compute. reflexivity. }
  eapply rtc_l. { apply (sys_intr fifo ex_h3 _ 1 (h_d ex_h4)). vm_compute. reflexivity. }
  apply rtc_refl.
Qed.



Lemma driver_completion_is_final_witness :
  zidx (info_status (h_d ex_h4)) 0 = Some 0 /\ h_data ex_h4 (BBuf 7) = [10; 11].
Proof.
  destruct (driver_completion_is_final fifo ex_sys 0 ex_op fifo_device_ok ex_reachable eq_refl)
    as [_ H]. destruct H as [H _]; [vm_compute; congruence|].
  split; [exact H|vm_compute; reflexivity].
Defined.
