(* ===== verification/DiskRw.v ===== *)
(** * [virtio_disk_rw] end to end

    One thread alone with a device that serves what it is given: [rw_queue]
    with the default scheduler transfers exactly the block asked for and
    leaves the driver idle, so that a block written is the block read back.

    The device is a parameter [serve]: what it does while the thread sleeps.
    It takes steps the specification allows ([serve_steps]) and leaves no
    request behind ([serve_all]). *)

From S2P Require Import Prelude Request MinHeap Sstf Deadline.
From S2P Require Import VirtioDisk VirtioChain VirtioSafety IoSched.

(** The environment's part of the state: the buffers' data and the device. *)
Definition env : Type := (bufptr -> list Z) * devst.

Definition hw_of (w : world env) : hw := mkhw (k_disk (w_k w)) (fst (w_x w)) (snd (w_x w)).

Definition put_hw (h : hw) (w : world env) : world env :=
  mkw (set_disk (h_d h) (w_k w)) (h_data h, h_dev h).

Definition hw_inv (h : hw) (W : list op) (a u dn : list Z) : Prop :=
  drv_inv (h_d h) (dv_seen (h_dev h)) (dv_queue (h_dev h)) W a u dn.

(** Nothing in flight. *)
Definition idle (h : hw) : Prop := hw_inv h [] [] [] [] /\ dv_queue (h_dev h) = [].

(** A request was carried out between [h] and [h']: the transfer it asks for,
    and nothing else, happened to the buffers and the sectors. *)
Definition served (o : op) (h h' : hw) : Prop :=
  transfer (mkblk (if o_w o =? 0 then VIRTIO_BLK_T_IN else VIRTIO_BLK_T_OUT) 0 (o_sec o))
    (o_b o) (h_data h) (dv_platter (h_dev h)) = (h_data h', dv_platter (h_dev h')).

(** The three stages of the only request in flight. *)
Definition stage (o : op) (h0 h : hw) : Prop :=
  (hw_inv h [o] [o0 o] [] [] /\ dv_queue (h_dev h) = [] /\
     h_data h = h_data h0 /\ dv_platter (h_dev h) = dv_platter (h_dev h0)) \/
  (hw_inv h [o] [] [] [] /\ dv_queue (h_dev h) = [o0 o] /\
     h_data h = h_data h0 /\ dv_platter (h_dev h) = dv_platter (h_dev h0)) \/
  (hw_inv h [o] [] [o0 o] [] /\ dv_queue (h_dev h) = [] /\ served o h0 h).

Lemma ring_holds_same ring i l : ring_holds ring i l i -> Z.of_nat (length l) < 2 ^ 16 -> l = [].
Proof. intros H Hl. by eapply ring_holds_nil. Qed.

Lemma avail_nonempty d seen q W a u dn :
  drv_inv d seen q W a u dn -> seen <> avail_idx d -> a <> [].
Proof.
  intros I Hs ->. destruct (di_avail _ _ _ _ _ _ _ I) as (Hr & E & _). cbn in E.
  rewrite Z.add_0_r, u16_small in E by done. congruence.
Qed.

Lemma stage_step o h0 h h' : stage o h0 h -> virtio_spec h h' -> stage o h0 h'.
Proof.
  intros St Hd. destruct Hd
    as [d data seen q pl head Hs Hh|d data seen q1 head q2 pl blk b k data' pl' Hd Htr];
    destruct St as [(I & Eq & Ed & Ep)|[(I & Eq & Ed & Ep)|(I & Eq & _)]];
    unfold hw_inv in I; cbn in *; subst; try (by destruct q1);
    try (by destruct (avail_nonempty _ _ _ _ _ _ _ I Hs)).
  - destruct (ring_holds_pop _ _ _ _ _ (di_avail _ _ _ _ _ _ _ I)) as [Eh _].
    assert (head = o0 o) as -> by congruence. right. left.
    split; [exact (inv_fetch _ _ [] _ _ [] _ _ I)|done].
  - destruct q1 as [|? q1]; [|by destruct q1]. injection Eq as -> ->.
    rewrite (decode_chain d o) in Hd by (apply (di_chain _ _ _ _ _ _ _ I); set_solver).
    injection Hd as <- <- <-. right. right.
    split; [exact (inv_finish d seen [] (o0 o) [] [o] [] [] [] I)|]. split; [done|].
    exact Htr.
Qed.

Lemma stage_steps o h0 h h' : rtc virtio_spec h h' -> stage o h0 h -> stage o h0 h'.
Proof. induction 1; eauto using stage_step. Qed.

Section requests.
Context (serve : hw -> hw).

(** The device only takes steps of the specification. *)
Context (serve_steps : forall h, rtc virtio_spec h (serve h)).

(** The device leaves no request unserved. *)
Context (serve_all : forall h W a u dn, hw_inv h W a u dn ->
  dv_queue (h_dev (serve h)) = [] /\ dv_seen (h_dev (serve h)) = avail_idx (h_d (serve h))).

Lemma serve_one o h :
  hw_inv h [o] [o0 o] [] [] -> dv_queue (h_dev h) = [] ->
  hw_inv (serve h) [o] [] [o0 o] [] /\ dv_queue (h_dev (serve h)) = [] /\ served o h (serve h).
Proof.
  intros I Eq. destruct (serve_all h _ _ _ _ I) as [Eq' Es].
  assert (stage o h (serve h)) as St.
  { eapply stage_steps; [apply serve_steps|]. left. done. }
  destruct St as [(I' & _)|[(_ & E & _)|(I' & E' & S')]]; [|congruence|done].
  pose proof (di_avail _ _ _ _ _ _ _ I') as HA. rewrite Es in HA.
  apply ring_holds_same in HA; [done|cbn; lia].
Qed.

(** While the thread sleeps the device serves its request and interrupts. *)
Definition sleep (m : bufmem) (c : chan) : M (world env) unit :=
  modify (fun w => put_hw (serve (hw_of w)) w);; on_k (virtio_disk_intr m 1).

Definition yield : M (world env) unit := mret tt.

Lemma on_k_on_disk {A} (c : M disk A) (w : world env) a d' :
  c (k_disk (w_k w)) = Ok (a, d') ->
  on_k (on_disk c) w = Ok (a, put_hw (set_h_d d' (hw_of w)) w).
Proof.
  intros E. unfold on_k, on_disk. erewrite zoom_Ok; [|by apply zoom_Ok].
  destruct w as [k [x y]]. done.
Qed.

Lemma sleep_Ok m c w o :
  IO_type (w_k w) = 0 -> hw_inv (hw_of w) [o] [o0 o] [] [] -> dv_queue (h_dev (hw_of w)) = [] ->
  exists h', sleep m c w = Ok (tt, put_hw h' w) /\
    hw_inv h' [o] [] [] [o0 o] /\ dv_queue (h_dev h') = [] /\ served o (hw_of w) h'.
Proof.
  intros Hty I Eq. destruct (serve_one o (hw_of w) I Eq) as (I1 & Eq1 & S1).
  destruct (inv_intr 1 _ _ _ _ _ _ _ I1) as (d' & dn' & E & I2 & HP).
  exists (set_h_d d' (serve (hw_of w))). split; [|split; [|done]].
  - unfold sleep. mgo. unfold on_k, virtio_disk_intr.
    erewrite zoom_Ok; [reflexivity|]. cbn [w_k put_hw].
    erewrite M_bind_Ok; [|apply zoom_Ok; exact E]. mgo. cbn. rewrite Hty. done.
  - cbn in HP. symmetry in HP. apply Permutation_singleton_l in HP as ->. exact I2.
Qed.

(** One request alone. *)
Lemma virtio_disk_rw_alone fuel m b write w :
  (2 <= fuel)%nat -> b <> BNull -> IO_type (w_k w) = 0 -> idle (hw_of w) ->
  exists h' i0 i1 i2, virtio_disk_rw (sleep m) yield fuel m b write w = Ok (tt, put_hw h' w) /\
    idle h' /\ served (mkop b write (sector_of (m b)) i0 i1 i2) (hw_of w) h'.
Proof.
  intros Hfuel Hb Hty [I Eq]. destruct fuel as [|[|fuel]]; [lia..|]. unfold hw_inv in I.
  pose proof (di_free _ _ _ _ _ _ _ I) as HF. cbn in HF.
  destruct (alloc3_desc_spec _ _ HF)
    as [(? & _ & _ & _ & HL)|(i0 & i1 & i2 & d1 & E1 & HF1 & HR1)]; [cbn in HL; lia|].
  set (o := mkop b write (sector_of (m b)) i0 i1 i2).
  assert (lens_ok d1) as HL1.
  { destruct HR1 as [_ _ R3 _ R5 _ R7 R8 R9 _]. unfold lens_ok. rewrite R3, R5, R7, R8, R9.
    apply (di_lens _ _ _ _ _ _ _ I). }
  pose proof HF1 as (_ & Hd1 & HN1 & HT1 & _).
  destruct (rw_submit_spec d1 o Hd1 HL1 HN1 HT1 Hb) as (d2 & E2 & S2).
  assert (hw_inv (set_h_d d2 (hw_of w)) [o] [i0] [] []) as I2.
  { rewrite Eq in I. unfold hw_inv. cbn. cbn in Eq. rewrite Eq.
    eapply (inv_submit _ _ _ _ _ [] [] _ _ o); [exact I|exact HR1|exact HF1|done|set_solver|done]. }
  set (w2 := put_hw (set_h_d d2 (hw_of w)) w).
  destruct (sleep_Ok m (CBuf b) w2 o Hty I2 Eq) as (h3 & E3 & I3 & Eq3 & S3).
  destruct (inv_complete (h_d h3) (dv_seen (h_dev h3)) (dv_queue (h_dev h3)) o [] [] [] []
    (Z.to_nat NUM) I3) as (d4 & E4 & I4); [unfold NUM; lia|].
  exists (set_h_d d4 h3), i0, i1, i2. split; [|split; [done|exact S3]].
  unfold virtio_disk_rw. rewrite (M_bind_lift _ _ _ _ (b_blockno_Ok m b Hb)). unfold yield. mgo.
  cbn [alloc_wait]. mgo. erewrite M_bind_Ok; [|apply on_k_on_disk, E1]. cbv beta iota. mgo.
  erewrite M_bind_Ok; [|apply on_k_on_disk, E2]. cbn [wait_done]. mgo.
  erewrite M_bind_Ok; [|by apply on_k_on_disk, get_b_disk_Ok].
  assert (b_disk d2 b = 1) as Ef by (apply (di_flag _ _ _ _ _ _ _ I2 o); set_solver).
  cbn [w_k put_hw k_disk set_disk hw_of set_h_d h_d]. rewrite Ef. cbn [Z.eqb Pos.eqb]. mgo. erewrite M_bind_Ok; [|exact E3].
  cbn [wait_done]. mgo. erewrite M_bind_Ok; [|by apply on_k_on_disk, get_b_disk_Ok].
  assert (b_disk (h_d h3) b = 0) as Eg.
  { change b with (o_b o). rewrite (di_flag _ _ _ _ _ _ _ I3 o) by set_solver. rewrite decide_True; [done|set_solver]. }
  cbn [w_k put_hw k_disk set_disk hw_of set_h_d h_d]. rewrite Eg. cbn [Z.eqb]. mgo.
  erewrite on_k_on_disk; [|exact E4]. by destruct w as [k [x y]].
Qed.

Lemma rw_queue_noop fuel m b write w :
  (2 <= fuel)%nat -> b <> BNull -> IO_type (w_k w) = 0 -> idle (hw_of w) ->
  exists w', rw_queue (sleep m) yield fuel m b write w = Ok (tt, w') /\
    IO_type (w_k w') = 0 /\ idle (hw_of w') /\
    transfer (mkblk (if write =? 0 then VIRTIO_BLK_T_IN else VIRTIO_BLK_T_OUT) 0
      (sector_of (m b))) b (h_data (hw_of w)) (dv_platter (h_dev (hw_of w)))
    = (h_data (hw_of w'), dv_platter (h_dev (hw_of w'))).
Proof.
  intros Hf Hb Hty Hi.
  destruct (virtio_disk_rw_alone fuel m b write w Hf Hb Hty Hi) as (h' & i0 & i1 & i2 & E & I & S).
  exists (put_hw h' w). split; [|split; [done|split; [|exact S]]].
  - unfold rw_queue. mgo. rewrite Hty. exact E.
  - by destruct h'.
Qed.

End requests.

(** ** A concrete server: the device of VirtioSafety until it has nothing left *)

Fixpoint fifo_serve (n : nat) (h : hw) : hw :=
  match n with
  | O => h
  | S k => match fifo_device h with Some h' => fifo_serve k h' | None => h end
  end.

Lemma fifo_serve_steps n h : rtc virtio_spec h (fifo_serve n h).
Proof.
  revert h. induction n as [|n IH]; intros h; cbn; [apply rtc_refl|].
  destruct (fifo_device h) as [h'|] eqn:E; [|apply rtc_refl].
  eapply rtc_l; [by apply fifo_device_ok|apply IH].
Qed.

(** The work the device has left. *)
Definition work (h : hw) (a : list Z) : nat := 2 * length a + length (dv_queue (h_dev h)).

Lemma fifo_progress h W a u dn :
  hw_inv h W a u dn ->
  (a = [] /\ dv_queue (h_dev h) = []) \/
  exists h' a' u', fifo_device h = Some h' /\ hw_inv h' W a' u' dn /\ (work h' a' < work h a)%nat.
Proof.
  intros I. destruct h as [d data [seen [|head q] pl]]; unfold hw_inv in I; cbn in I; unfold work; cbn.
  - destruct a as [|x a]; [by left|right].
    destruct (ring_holds_pop _ _ _ _ _ (di_avail _ _ _ _ _ _ _ I)) as [Eh _].
    pose proof (drv_inv_bound _ _ _ _ _ _ _ I) as HB.
    destruct (Z.eqb_spec seen (avail_idx d)) as [E|_].
    { pose proof (di_avail _ _ _ _ _ _ _ I) as HA. rewrite E in HA.
      apply ring_holds_same in HA; [done|cbn [length] in *; lia]. }
    rewrite Eh. cbn. eexists _, a, u. split; [reflexivity|].
    split; [exact (inv_fetch _ _ [] _ _ _ _ _ I)|]. cbn. lia.
  - right. destruct (inv_head I head) as (o & Ho & <-); [set_solver|].
    rewrite (decode_chain d o) by (by apply (di_chain _ _ _ _ _ _ _ I)). cbn.
    destruct (transfer _ _ _ _) as [data' pl']. eexists _, a, (u ++ [o0 o]).
    split; [reflexivity|]. split; [exact (inv_finish d seen [] (o0 o) q _ _ _ _ I)|].
    cbn. lia.
Qed.

Lemma fifo_serve_all n h W a u dn :
  (work h a <= n)%nat -> hw_inv h W a u dn ->
  dv_queue (h_dev (fifo_serve n h)) = [] /\
  dv_seen (h_dev (fifo_serve n h)) = avail_idx (h_d (fifo_serve n h)).
Proof.
  revert h a u. induction n as [|n IH]; intros h a u Hn I;
    (destruct (fifo_progress _ _ _ _ _ I) as [[-> Eq]|(h' & a' & u' & E & I' & Hw)]; [|try lia]).
  1, 2: assert (dv_seen (h_dev h) = avail_idx (h_d h)) as Es
    by (destruct (decide (dv_seen (h_dev h) = avail_idx (h_d h))); [done|];
        by destruct (avail_nonempty _ _ _ _ _ _ _ I)).
  - done.
  - cbn. unfold fifo_device. rewrite Eq. destruct (Z.eqb_spec (dv_seen (h_dev h)) (avail_idx (h_d h)));
      done.
  - cbn. rewrite E. apply (IH h' a' u'); [lia|done].
Qed.

Lemma fifo_serve_complete h W a u dn :
  hw_inv h W a u dn ->
  dv_queue (h_dev (fifo_serve 100 h)) = [] /\
  dv_seen (h_dev (fifo_serve 100 h)) = avail_idx (h_d (fifo_serve 100 h)).
Proof.
  intros I. eapply fifo_serve_all; [|done]. pose proof (drv_inv_bound _ _ _ _ _ _ _ I).
  unfold work. lia.
Qed.

(** ** Theorems *)

Lemma read_write_same pl s v : read_block (write_block pl s v) s = v.
Proof.
  unfold read_block, write_block. rewrite Z.eqb_refl.
  destruct (Z.eqb_spec (s + 1) s); [lia|]. rewrite Z.eqb_refl. apply take_drop.
Qed.

Lemma read_write_other pl n n' v :
  0 <= n < 2 ^ 31 -> 0 <= n' < 2 ^ 31 -> n <> n' ->
  read_block (write_block pl (sector_of n) v) (sector_of n') = read_block pl (sector_of n').
Proof.
  intros. unfold sector_of. rewrite !u32_small by lia. unfold read_block, write_block.
  repeat match goal with |- context [?x =? ?y] => destruct (Z.eqb_spec x y); [lia|] end. done.
Qed.

(** C24: a block written is the block read back.  The setting is the
    default scheduler ([IO_type] 0), an idle driver (nothing submitted and not
    completed) and one thread in it; while that thread sleeps the device
    serves, within its specification, all requests it was given, and then the
    interrupt handler runs.  Then writing buffer [b1] and reading buffer [b2]
    of the same block both return, give [b2] the data of [b1], change no other
    buffer and no other block, and leave the driver idle. *)
Theorem disk_write_then_read serve fuel m b1 b2 w n
    (serve_steps : forall h, rtc virtio_spec h (serve h))
    (serve_all : forall h W a u dn, hw_inv h W a u dn ->
       dv_queue (h_dev (serve h)) = [] /\ dv_seen (h_dev (serve h)) = avail_idx (h_d (serve h)))
    (Hfuel : (2 <= fuel)%nat) (Hty : IO_type (w_k w) = 0) (Hi : idle (hw_of w))
    (H1 : b1 <> BNull) (H2 : b2 <> BNull) (Hsame : m b2 = m b1)
    (Hn : 0 <= n < 2 ^ 31) (Hm : 0 <= m b1 < 2 ^ 31) (Hother : n <> m b1) :
  exists w1 w2,
    rw_queue (sleep serve m) yield fuel m b1 1 w = Ok (tt, w1) /\
    rw_queue (sleep serve m) yield fuel m b2 0 w1 = Ok (tt, w2) /\
    h_data (hw_of w2) b2 = h_data (hw_of w) b1 /\
    (forall b, b <> b2 -> h_data (hw_of w2) b = h_data (hw_of w) b) /\
    read_block (dv_platter (h_dev (hw_of w2))) (sector_of n) =
      read_block (dv_platter (h_dev (hw_of w))) (sector_of n) /\
    idle (hw_of w2).
Proof.
  destruct (rw_queue_noop serve serve_steps serve_all fuel m b1 1 w Hfuel H1 Hty Hi)
    as (w1 & E1 & Hty1 & Hi1 & T1).
  destruct (rw_queue_noop serve serve_steps serve_all fuel m b2 0 w1 Hfuel H2 Hty1 Hi1)
    as (w2 & E2 & Hty2 & Hi2 & T2).
  exists w1, w2. split; [done|]. split; [done|]. unfold transfer in T1, T2.
  cbn [q_type q_sector Z.eqb VIRTIO_BLK_T_IN VIRTIO_BLK_T_OUT Pos.eqb] in T1, T2.
  apply pair_equal_spec in T1 as [E3 E4]. apply pair_equal_spec in T2 as [E5 E6]. rewrite <- E5, <- E6, <- E4, <- E3, Hsame.
  split; [|split; [|split; [|done]]].
  - unfold upd_data. rewrite decide_True by done. apply read_write_same.
  - intros b Hb. unfold upd_data. by rewrite decide_False.
  - apply read_write_other; lia.
Qed.

Definition ex_world : world env :=
  mkw (mkk ex_disk 0 heap_init queue_init ddl_init 0)
    (fun b => match b with BBuf i => [Z.of_nat i; 1] | _ => [] end, mkdev 0 [] (fun s => [s])).

Lemma ex_idle : idle (hw_of ex_world).
Proof. split; [|done]. apply (sy_drv (mksys _ []) [] [] [] []), (sys_start_inv _ 0), ex_start. Qed.

Lemma disk_write_then_read_witness :
  exists w1 w2,
    rw_queue (sleep (fifo_serve 100) (fun _ => 9)) yield 2 (fun _ => 9) (BBuf 3) 1 ex_world = Ok (tt, w1) /\
    rw_queue (sleep (fifo_serve 100) (fun _ => 9)) yield 2 (fun _ => 9) (BBuf 4) 0 w1 = Ok (tt, w2) /\
    h_data (hw_of w2) (BBuf 4) = [3; 1].
Proof.
  destruct (disk_write_then_read (fifo_serve 100) 2 (fun _ => 9) (BBuf 3) (BBuf 4) ex_world 5
    (fifo_serve_steps 100) fifo_serve_complete ltac:(lia) eq_refl ex_idle
    ltac:(discriminate) ltac:(discriminate) eq_refl ltac:(lia) ltac:(lia) ltac:(lia))
    as (w1 & w2 & E1 & E2 & E3 & _). exists w1, w2. split; [exact E1|]. split; [exact E2|exact E3].
Defined.
