(* ===== verification/SchedDispatch.v ===== *)
(** * What the scheduling layer does with a request

    [rw_queue] under the heap scheduler and under an unknown [IO_type], and
    the state [virtio_disk_init] establishes. *)

From S2P Require Import Prelude Riscv Request MinHeap Sstf Deadline.
From S2P Require Import VirtioDisk VirtioChain VirtioSafety IoSched.

Lemma upd_heap_Ok f k h' :
  f (k_heap k) = Ok h' -> upd_heap f k = Ok (tt, set_heap h' k).
Proof. intros E. unfold upd_heap. mgo. by rewrite (M_bind_lift _ _ _ _ E). Qed.

(** C33: under the heap scheduler [rw_queue] enters the caller's request and
    then transfers a request of least block number, whoever made it; when a
    request with a smaller block number is waiting, the caller's own buffer
    is not the one that is transferred.  This is the case where nothing runs
    between the release of the lock and the read of the heap's top. *)
Theorem rw_queue_heap_submits_least {X} sleep fuel m b write (w : world X)
    (Hty : IO_type (w_k w) = 1) (Hwf : heap_wf m (k_heap (w_k w)))
    (Hroom : Size (k_heap (w_k w)) < 127) (Hb : b <> BNull) (Hm : bufmem_ok m) :
  exists h' r,
    rw_queue sleep (mret tt) fuel m b write w =
      virtio_disk_rw sleep (mret tt) fuel m (r_b r) (r_write r)
        (mkw (set_heap h' (w_k w)) (w_x w)) /\
    heap_wf m h' /\ elems h' ≡ₚ mkreq b write :: elems (k_heap (w_k w)) /\
    r ∈ elems h' /\ Forall (by_block m r) (elems h') /\
    ((exists e, e ∈ elems (k_heap (w_k w)) /\ m (r_b e) < m b) -> r_b r <> b).
Proof.
  destruct (insertMinHeap_spec sched_fuel m (k_heap (w_k w)) (mkreq b write))
    as (h' & E & Hwf' & Hs & HP); [done|lia|done|apply Hm|unfold sched_fuel; lia|].
  pose proof (wf_size _ _ Hwf) as Hsz.
  destruct (heap_top m h' Hwf') as (r & Hr & Hrn & Hall); [lia|].
  assert (r ∈ elems h') as Hin.
  { apply elem_of_elems; [destruct Hwf'; lia..|]. exists 1. split; [lia|done]. }
  exists h', r. split; [|split; [done|split; [done|split; [done|split; [done|]]]]].
  - unfold rw_queue. mgo. rewrite Hty. cbn [Z.eqb Pos.eqb].
    erewrite M_bind_Ok; [|unfold on_k; apply zoom_Ok, upd_heap_Ok, E]. mgo.
    cbn. rewrite (M_bind_lift _ _ _ _ (rd_Ok _ _ _ Hr)). done.
  - intros (e & He & Hlt) Eb. rewrite Forall_forall in Hall.
    assert (by_block m r e) as HB by (apply Hall; rewrite HP; by right).
    unfold by_block in HB. rewrite Eb in HB. lia.
Qed.

Definition sched_mem : bufmem := fun b => match b with BBuf i => Z.of_nat i | _ => 0 end.

Lemma sched_mem_ok : bufmem_ok (fun b => sched_mem b mod 2 ^ 32).
Proof. intros b. apply Z.mod_pos_bound. lia. Qed.

Definition one_waiting : HNode :=
  mkHNode (heap_sentinel :: mkreq (BBuf 3) 0 :: replicate 126 req0) 1 128.

Lemma one_waiting_wf : heap_wf (fun b => sched_mem b mod 2 ^ 32) one_waiting.
Proof.
  split; try done; cbn.
  - intros i Hi. assert (i = 1) as -> by lia. by exists (mkreq (BBuf 3) 0).
  - intros i Hi. lia.
Qed.

Definition heap_world : world unit :=
  mkw (mkk ex_disk 1 one_waiting queue_init ddl_init 0) tt.

Lemma rw_queue_heap_submits_least_witness :
  exists h' r,
    rw_queue (fun _ => hang) (mret tt) 3 (fun b => sched_mem b mod 2 ^ 32) (BBuf 8) 0 heap_world =
      virtio_disk_rw (fun _ => hang) (mret tt) 3 (fun b => sched_mem b mod 2 ^ 32) (r_b r) (r_write r)
        (mkw (set_heap h' (w_k heap_world)) tt) /\ r_b r <> BBuf 8.
Proof.
  destruct (rw_queue_heap_submits_least (fun _ => hang) 3 (fun b => sched_mem b mod 2 ^ 32)
    (BBuf 8) 0 heap_world eq_refl one_waiting_wf eq_refl ltac:(discriminate) sched_mem_ok)
    as (h' & r & E & _ & _ & _ & _ & Hne).
  exists h', r. split; [exact E|]. apply Hne. exists (mkreq (BBuf 3) 0).
  split; [left|reflexivity].
Defined.

(** [IO_switch] stores its argument as it is, and a value that names no
    scheduler turns [rw_queue] into a no-op: after [IO_switch(ty)] with [ty]
    outside 0..3 every disk request returns at once, without a transfer and
    without an error. *)
Theorem rw_queue_drops_requests {X} sleep yield fuel m b write ty k k' (x : X)
    (Hsw : IO_switch ty k = Ok (0, k')) (Hty : ty < 0 \/ 3 < ty) :
  rw_queue sleep yield fuel m b write (mkw k' x) = Ok (tt, mkw k' x) /\ k_disk k' = k_disk k.
Proof.
  unfold IO_switch, modify in Hsw. injection Hsw as <-. split; [|done].
  unfold rw_queue. mgo. cbn.
  repeat match goal with |- context [ty =? ?y] => destruct (Z.eqb_spec ty y); [lia|] end. done.
Qed.

Lemma rw_queue_drops_requests_witness :
  rw_queue (fun _ => hang) (mret tt) 3 sched_mem (BBuf 8) 0 (mkw (set_IO_type 4 (w_k heap_world)) tt)
    = Ok (tt, mkw (set_IO_type 4 (w_k heap_world)) tt).
Proof.
  exact (proj1 (rw_queue_drops_requests (fun _ => hang) (mret tt) 3 sched_mem (BBuf 8) 0 4
    (w_k heap_world) (set_IO_type 4 (w_k heap_world)) tt eq_refl ltac:(lia))).
Defined.

(** ** Initialisation *)

Lemma clear_feature_testbit f bit i :
  0 <= i < 64 -> 0 <= bit ->
  Z.testbit (clear_feature f bit) i = Z.testbit f i && negb (i =? bit).
Proof.
  intros Hi Hb. unfold clear_feature, u64. rewrite Z.land_spec.
  rewrite Z.mod_pow2_bits_low, Z.lnot_spec, Z.shiftl_1_l, Z.pow2_bits_eqb by lia.
  by rewrite Z.eqb_sym.
Qed.

(** The feature bits the driver refuses. *)
Definition refused : list Z := [5; 7; 11; 12; 27; 29; 28].

Lemma negotiate_testbit f i :
  0 <= i < 64 ->
  Z.testbit (negotiate f) i = Z.testbit f i && negb (bool_decide (i ∈ refused)).
Proof.
  intros Hi. unfold negotiate. cbn [fold_left]. rewrite !clear_feature_testbit by (done || lia).
  unfold refused. rewrite <- !andb_assoc. f_equal.
  unfold VIRTIO_BLK_F_RO, VIRTIO_BLK_F_SCSI, VIRTIO_BLK_F_CONFIG_WCE, VIRTIO_BLK_F_MQ,
    VIRTIO_F_ANY_LAYOUT, VIRTIO_RING_F_EVENT_IDX, VIRTIO_RING_F_INDIRECT_DESC.
  case_bool_decide as H; rewrite !elem_of_cons, elem_of_nil in H;
    repeat match goal with |- context [i =? ?y] => destruct (Z.eqb_spec i y) end;
    cbn; (done || tauto).
Qed.

(** The register writes of a successful initialisation, latest first. *)
Definition init_writes (R : Z -> Z) (pages : Z) : list (Z * Z) :=
  [(VIRTIO_MMIO_QUEUE_PFN, u32 (Z.shiftr pages PGSHIFT)); (VIRTIO_MMIO_QUEUE_NUM, NUM);
   (VIRTIO_MMIO_QUEUE_SEL, 0); (VIRTIO_MMIO_GUEST_PAGE_SIZE, PGSIZE);
   (VIRTIO_MMIO_STATUS, 15); (VIRTIO_MMIO_STATUS, 11);
   (VIRTIO_MMIO_DRIVER_FEATURES, u32 (negotiate (R VIRTIO_MMIO_DEVICE_FEATURES)));
   (VIRTIO_MMIO_STATUS, 3); (VIRTIO_MMIO_STATUS, 1)].

Definition init_state (R : Z -> Z) (pages : Z) (k : kst) : kst :=
  mkk (set_mmio (init_writes R pages ++ mmio (k_disk k)) (reset_disk (k_disk k)))
    (IO_type k) heap_init queue_init ddl_init (ticks k).

Lemma on_disk_mmio {A} r v (c : unit -> M kst A) d ty h q dl t :
  (on_disk (mmio_write r v) ≫= c) (mkk d ty h q dl t) =
  c tt (mkk (set_mmio ((r, v) :: mmio d) d) ty h q dl t).
Proof. done. Qed.

Lemma virtio_disk_init_run R pages k :
  R VIRTIO_MMIO_MAGIC_VALUE = 0x74726976 -> R VIRTIO_MMIO_VERSION = 1 ->
  R VIRTIO_MMIO_DEVICE_ID = 2 -> R VIRTIO_MMIO_VENDOR_ID = 0x554d4551 ->
  NUM <= R VIRTIO_MMIO_QUEUE_NUM_MAX ->
  virtio_disk_init R pages k = Ok (tt, init_state R pages k).
Proof.
  intros Hmagic Hver Hid Hvendor Hmax.
  unfold virtio_disk_init. rewrite Hmagic, Hver, Hid, Hvendor. cbn [Z.eqb Pos.eqb negb orb].
  destruct k as [[de ai ar hi ur df ui ib ist os bd wk mm] ty h q dl t]. do 7 (rewrite on_disk_mmio; unfold set_mmio; cbn [mmio desc
    avail_idx avail_ring hw_idx used_ring dfree used_idx info_b info_status ops b_disk woken]).
  destruct (Z.eqb_spec (R VIRTIO_MMIO_QUEUE_NUM_MAX) 0); [unfold NUM in *; lia|].
  destruct (Z.ltb_spec (R VIRTIO_MMIO_QUEUE_NUM_MAX) NUM); [lia|]. reflexivity.
Qed.

(** [virtio_disk_init] succeeds on a legacy virtio disk with a queue of at
    least [NUM] entries: it goes through the status handshake, refuses exactly
    the seven feature bits, tells the device the queue, and leaves the driver
    in the start state of VirtioSafety with a well-formed empty heap. *)
Theorem virtio_disk_init_correct R pages m k data pl
    (Hmagic : R VIRTIO_MMIO_MAGIC_VALUE = 0x74726976) (Hver : R VIRTIO_MMIO_VERSION = 1)
    (Hid : R VIRTIO_MMIO_DEVICE_ID = 2) (Hvendor : R VIRTIO_MMIO_VENDOR_ID = 0x554d4551)
    (Hmax : NUM <= R VIRTIO_MMIO_QUEUE_NUM_MAX) (Htemp : m BTemp = 0)
    (Hstatic : used_idx (k_disk k) = 0 /\ lens_ok (k_disk k) /\ forall b, b_disk (k_disk k) b = 0) :
  exists k', virtio_disk_init R pages k = Ok (tt, k') /\
    drv_start (mkhw (k_disk k') data (mkdev 0 [] pl)) /\
    heap_wf m (k_heap k') /\ Size (k_heap k') = 0 /\ k_sstf k' = queue_init /\
    mmio (k_disk k') = init_writes R pages ++ mmio (k_disk k) /\
    (forall i, 0 <= i < 32 ->
       Z.testbit (negotiate (R VIRTIO_MMIO_DEVICE_FEATURES)) i =
       Z.testbit (R VIRTIO_MMIO_DEVICE_FEATURES) i && negb (bool_decide (i ∈ refused))).
Proof.
  destruct Hstatic as (Hu & (L1 & L2 & L3 & L4 & L5) & Hb).
  exists (init_state R pages k). split; [by apply virtio_disk_init_run|].
  split; [|split; [by apply heap_init_wf|split; [done|split; [done|split; [done|]]]]].
  - split; [done|]. split; [|done]. by destruct ex_start as (_ & HF & _).
  - intros i Hi. apply negotiate_testbit. lia.
Qed.

Lemma virtio_disk_init_correct_witness :
  exists k', virtio_disk_init (fun r => if r =? 0 then 0x74726976 else if r =? 4 then 1
    else if r =? 8 then 2 else if r =? 0xc then 0x554d4551 else 1024) 0x80021000
    (w_k heap_world) = Ok (tt, k') /\ Size (k_heap k') = 0.
Proof.
  destruct (virtio_disk_init_correct (fun r => if r =? 0 then 0x74726976 else if r =? 4 then 1
    else if r =? 8 then 2 else if r =? 0xc then 0x554d4551 else 1024) 0x80021000 sched_mem
    (w_k heap_world) (fun _ => []) (fun _ => []) eq_refl eq_refl eq_refl eq_refl
    ltac:(vm_compute; congruence) eq_refl ltac:(repeat split)) as (k' & E & _ & _ & Hs & _).
  exists k'. split; [exact E|exact Hs].
Defined.
