(* ===== verification/Disk.v ===== *)
(** * Interface between the buffer cache and the disk driver

    What kernel/bio.c relies on when it calls [rw_queue(b, write)]: the class
    [Disk].  DiskRw's driver (the default scheduler, one request at a time)
    is an instance, and so is a plain map from block numbers to blocks. *)

From S2P Require Import Prelude Request MinHeap Sstf Deadline.
From S2P Require Import VirtioDisk VirtioChain VirtioSafety IoSched DiskRw.

(** [disk_rw i n write data d]: a request for block [n] and the buffer with
    index [i], which holds [data]; the result is the buffer's data and the
    disk after the request.  [disk_view d n] is the content of block [n];
    [disk_ok] the states the driver is in between requests. *)
Class Disk (D : Type) : Type := {
  disk_rw : Z -> Z -> Z -> list Z -> D -> res (list Z * D);
  disk_view : D -> Z -> list Z;
  disk_ok : D -> Prop;
  disk_read_ok : forall i n data d, disk_ok d -> 0 <= n < 2 ^ 31 ->
    exists d', disk_rw i n 0 data d = Ok (disk_view d n, d') /\ disk_ok d' /\
      forall n', 0 <= n' < 2 ^ 31 -> disk_view d' n' = disk_view d n';
  disk_write_ok : forall i n data d, disk_ok d -> 0 <= n < 2 ^ 31 ->
    exists d', disk_rw i n 1 data d = Ok (data, d') /\ disk_ok d' /\
      forall n', 0 <= n' < 2 ^ 31 ->
        disk_view d' n' = if n' =? n then data else disk_view d n'
}.

(** A disk that is a map. *)
Definition array_rw (i n write : Z) (data : list Z) (d : Z -> list Z)
  : res (list Z * (Z -> list Z)) :=
  if write =? 0 then Ok (d n, d)
  else Ok (data, fun n' => if n' =? n then data else d n').

#[export] Program Instance array_disk : Disk (Z -> list Z) := {
  disk_rw := array_rw;
  disk_view := fun d n => d n;
  disk_ok := fun _ => True
}.
Next Obligation. intros i n data d _ _. exists d. done. Qed.
Next Obligation. intros i n data d _ _. eexists. split; [reflexivity|]. done. Qed.

(** ** The driver as a disk *)

Section driver.
Context (serve : hw -> hw).
Context (serve_steps : forall h, rtc virtio_spec h (serve h)).
Context (serve_all : forall h W a u dn, hw_inv h W a u dn ->
  dv_queue (h_dev (serve h)) = [] /\ dv_seen (h_dev (serve h)) = avail_idx (h_d (serve h))).

(** The driver at rest, with the default scheduler. *)
Definition rest (w : world env) : Prop := IO_type (w_k w) = 0 /\ idle (hw_of w).

(** [b->data] of the buffer the request is for. *)
Definition with_data (i : Z) (data : list Z) (w : world env) : world env :=
  mkw (w_k w) (upd_data (BBuf (Z.to_nat i)) data (fst (w_x w)), snd (w_x w)).

Definition driver_rw (i n write : Z) (data : list Z) (w : world env) : res (list Z * world env) :=
  match rw_queue (sleep serve (fun _ => n)) yield 2 (fun _ => n) (BBuf (Z.to_nat i)) write
          (with_data i data w) with
  | Ok (_, w') => Ok (h_data (hw_of w') (BBuf (Z.to_nat i)), w')
  | Panic e => Panic e
  | Fault e => Fault e
  | Hang => Hang
  end.

Definition driver_view (w : world env) (n : Z) : list Z :=
  read_block (dv_platter (h_dev (hw_of w))) (sector_of n).

Lemma with_data_rest i data w : rest w -> rest (with_data i data w).
Proof. done. Qed.

Lemma driver_rw_spec i n write data w :
  rest w ->
  exists w', rest w' /\
    rw_queue (sleep serve (fun _ => n)) yield 2 (fun _ => n) (BBuf (Z.to_nat i)) write
      (with_data i data w) = Ok (tt, w') /\
    transfer (mkblk (if write =? 0 then VIRTIO_BLK_T_IN else VIRTIO_BLK_T_OUT) 0 (sector_of n))
      (BBuf (Z.to_nat i)) (upd_data (BBuf (Z.to_nat i)) data (fst (w_x w)))
      (dv_platter (h_dev (hw_of w))) = (h_data (hw_of w'), dv_platter (h_dev (hw_of w'))).
Proof.
  intros [Hty Hi].
  destruct (rw_queue_noop serve serve_steps serve_all 2 (fun _ => n) (BBuf (Z.to_nat i)) write
    (with_data i data w)) as (w' & E & Hty' & Hi' & T); [lia|done|done|done|].
  exists w'. done.
Qed.

#[export] Program Instance driver_disk : Disk (world env) := {
  disk_rw := driver_rw;
  disk_view := driver_view;
  disk_ok := rest
}.
Next Obligation.
  intros i n data w Hr Hn. destruct (driver_rw_spec i n 0 data w Hr) as (w' & Hr' & E & T).
  unfold driver_rw. rewrite E. apply pair_equal_spec in T as [E1 E2].
  exists w'. split; [|split; [done|]].
  - rewrite <- E1. unfold upd_data. by rewrite decide_True.
  - intros n' Hn'. unfold driver_view. by rewrite <- E2.
Qed.
Next Obligation.
  intros i n data w Hr Hn. destruct (driver_rw_spec i n 1 data w Hr) as (w' & Hr' & E & T).
  unfold driver_rw. rewrite E. apply pair_equal_spec in T as [E1 E2].
  exists w'. split; [|split; [done|]].
  - rewrite <- E1. unfold upd_data. by rewrite decide_True.
  - intros n' Hn'. unfold driver_view. rewrite <- E2. cbn [q_sector].
    destruct (Z.eqb_spec n' n) as [->|Hne].
    + rewrite read_write_same. unfold upd_data. by rewrite decide_True.
    + by apply read_write_other.
Qed.

End driver.
