(* ===== verification/Sleeplock.v ===== *)
(** * Sleep locks (kernel/sleeplock.c)

    A sleep lock's fields are protected by its spinlock, so each function is
    an atomic update of the record [sleeplock], except [acquiresleep], which
    gives the spinlock up while it sleeps; what happens then is the argument
    [sleep].  The second half is the lock under concurrency: a step relation
    for any number of processes, its mutual exclusion, and the fact that a
    process only sleeps while the lock is held, so that no wake-up is lost. *)

From S2P Require Import Prelude.

Record sleeplock : Type := mksl { sl_locked : Z; sl_pid : Z }.

Definition initsleeplock : sleeplock := mksl 0 0.

Definition releasesleep (lk : sleeplock) : sleeplock := mksl 0 0.

(** [lk->locked && (lk->pid == myproc()->pid)] *)
Definition holdingsleep (me : Z) (lk : sleeplock) : bool :=
  negb (sl_locked lk =? 0) && (sl_pid lk =? me).

Section acquire.
Context {S : Type} (get : M S sleeplock) (put : sleeplock -> M S unit) (sleep : M S unit).

Fixpoint acquiresleep (fuel : nat) (me : Z) : M S unit :=
  match fuel with
  | O => hang
  | Datatypes.S k =>
      lk ← get;
      if sl_locked lk =? 0 then put (mksl 1 me)
      else sleep;; acquiresleep k me
  end.

Lemma acquiresleep_free fuel me s lk s' :
  (1 <= fuel)%nat -> get s = Ok (lk, s) -> sl_locked lk = 0 ->
  put (mksl 1 me) s = Ok (tt, s') -> acquiresleep fuel me s = Ok (tt, s').
Proof.
  intros Hf Hg Hl Hp. destruct fuel as [|k]; [lia|]. cbn [acquiresleep].
  rewrite (M_bind_Ok _ _ _ _ _ Hg), Hl. done.
Qed.

End acquire.

(** ** Concurrency

    A process is out, runs in [acquiresleep], sleeps there, or has the lock.
    [sleep] and [wakeup] are those of kernel/proc.c: falling asleep is atomic
    with the release of the spinlock, [wakeup] makes every sleeper runnable.
    The code between two sleeps is atomic, and it is [acquiresleep] itself: a
    process in it remembers the lock as it was at every [sleep] so far, and
    its next part is the run of [acquiresleep] on these values and the present
    one, up to its return or the next [sleep]. *)

(** The lock now, and as it will be after every [sleep]. *)
Definition replay : Type := sleeplock * list sleeplock.

Definition replay_get : M replay sleeplock := gets fst.
Definition replay_put (lk : sleeplock) : M replay unit := modify (fun x => (lk, snd x)).
Definition replay_sleep : M replay unit := fun x =>
  match snd x with
  | [] => Hang
  | lk :: l => Ok (tt, (lk, l))
  end.

(** The lock after the next part of [acquiresleep], or [None] if it sleeps. *)
Definition acquiresleep_next (me : Z) (seen : list sleeplock) (lk : sleeplock) : option sleeplock :=
  let x := match seen with [] => (lk, []) | lk0 :: l => (lk0, l ++ [lk]) end in
  match acquiresleep replay_get replay_put replay_sleep (Datatypes.S (length seen)) me x with
  | Ok (_, (lk', _)) => Some lk'
  | _ => None
  end.

Inductive sl_pc : Type :=
| SOut
| SWant (seen : list sleeplock)
| SAsleep (seen : list sleeplock)
| SHold.

(** Processes are numbered from 1 (their pid). *)
Record sl_sys : Type := mkslsys { sl_lk : sleeplock; sl_pcs : gmap Z sl_pc }.

Definition wake (pc : sl_pc) : sl_pc := match pc with SAsleep seen => SWant seen | _ => pc end.

Inductive sl_step : sl_sys -> sl_sys -> Prop :=
| sl_begin lk ps p : ps !! p = Some SOut -> p <> 0 ->
    sl_step (mkslsys lk ps) (mkslsys lk (<[p := SWant []]> ps))
| sl_take lk ps p seen lk' : ps !! p = Some (SWant seen) -> acquiresleep_next p seen lk = Some lk' ->
    sl_step (mkslsys lk ps) (mkslsys lk' (<[p := SHold]> ps))
| sl_sleep lk ps p seen : ps !! p = Some (SWant seen) -> acquiresleep_next p seen lk = None ->
    sl_step (mkslsys lk ps) (mkslsys lk (<[p := SAsleep (seen ++ [lk])]> ps))
| sl_release lk ps p : ps !! p = Some SHold ->
    sl_step (mkslsys lk ps) (mkslsys (releasesleep lk) (wake <$> <[p := SOut]> ps)).

Lemma replay_turn k me lk l :
  acquiresleep replay_get replay_put replay_sleep (Datatypes.S k) me (lk, l) =
    if sl_locked lk =? 0 then Ok (tt, (mksl 1 me, l))
    else match l with [] => Hang | lk' :: l' => acquiresleep replay_get replay_put replay_sleep k me (lk', l') end.
Proof.
  cbn [acquiresleep]. unfold mbind, M_bind, replay_get, gets. cbn [fst]. destruct (sl_locked lk =? 0); [done|]. by destruct l.
Qed.

(** A process that slept while the lock was held goes on only to find it free. *)
Lemma acquiresleep_next_spec me seen lk :
  Forall (fun l => sl_locked l <> 0) seen ->
  acquiresleep_next me seen lk = if sl_locked lk =? 0 then Some (mksl 1 me) else None.
Proof.
  unfold acquiresleep_next. intros H. destruct H as [|lk0 l H0 H].
  - rewrite replay_turn. by destruct (sl_locked lk =? 0).
  - revert lk0 H0. induction H as [|lk1 l H1 H IH]; intros lk0 H0%Z.eqb_neq; cbn [length]; rewrite replay_turn, H0; [|by apply IH].
    cbn [app]. rewrite replay_turn. by destruct (sl_locked lk =? 0).
Qed.

Definition sl_start (s : sl_sys) : Prop :=
  sl_lk s = initsleeplock /\ forall p pc, sl_pcs s !! p = Some pc -> pc = SOut.

Definition sl_reachable (s : sl_sys) : Prop := exists s0, sl_start s0 /\ rtc sl_step s0 s.

(** What the process [p] at [pc] knows. *)
Definition pc_ok (lk : sleeplock) (p : Z) (pc : sl_pc) : Prop :=
  match pc with
  | SOut => True
  | SWant seen => p <> 0 /\ Forall (fun l => sl_locked l <> 0) seen
  | SAsleep seen => p <> 0 /\ Forall (fun l => sl_locked l <> 0) seen /\ sl_locked lk = 1
  | SHold => p <> 0 /\ lk = mksl 1 p
  end.

Record sl_inv (s : sl_sys) : Prop := {
  sl_pcs_ok : forall p pc, sl_pcs s !! p = Some pc -> pc_ok (sl_lk s) p pc;
  sl_free : sl_lk s = initsleeplock \/ exists p, sl_lk s = mksl 1 p /\ sl_pcs s !! p = Some SHold
}.

Lemma sl_start_inv s : sl_start s -> sl_inv s.
Proof.
  destruct s as [lk ps]. intros [E H]. cbn in E, H. split; [|by left]. cbn. by intros p pc ->%H.
Qed.

(** Split a lookup in an updated map into its two cases. *)
#[local] Ltac at_pid p p' :=
  destruct (decide (p = p')) as [<-|?];
    [rewrite ?lookup_insert_eq|rewrite ?(lookup_insert_ne _ p p') by done].

Lemma sl_step_inv s s' : sl_step s s' -> sl_inv s -> sl_inv s'.
Proof.
  intros St [HP HF]. destruct St as [lk ps p Hp Hz|lk ps p seen lk' Hp E|lk ps p seen Hp E|lk ps p Hp]; cbn in *.
  - split; cbn.
    + intros p' pc. at_pid p p'; [intros [= <-]; by split|apply HP].
    + destruct HF as [|(q & E & Hq)]; [by left|right]. exists q. split; [done|]. at_pid p q; [congruence|done].
  - destruct (HP p _ Hp) as [Hz Hs]. rewrite acquiresleep_next_spec in E by done.
    destruct (Z.eqb_spec (sl_locked lk) 0) as [Hl|]; [|done]. injection E as <-.
    assert (lk = initsleeplock) as -> by (destruct HF as [|(q & -> & _)]; [done|discriminate Hl]). split; cbn.
    + intros p' pc. at_pid p p'; [intros [= <-]; by split|]. intros H%HP. by destruct pc; cbn in *; naive_solver.
    + right. exists p. split; [done|]. by rewrite lookup_insert_eq.
  - destruct (HP p _ Hp) as [Hz Hs]. rewrite acquiresleep_next_spec in E by done.
    destruct (Z.eqb_spec (sl_locked lk) 0) as [|Hl]; [done|].
    destruct HF as [->|(q & -> & Hq)]; [done|]. split; cbn.
    + intros p' pc. at_pid p p'; [|apply HP]. intros [= <-]. cbn. rewrite Forall_app, Forall_singleton. naive_solver.
    + right. exists q. split; [done|]. at_pid p q; [congruence|done].
  - destruct (HP p _ Hp) as [Hz ->]. split; cbn; [|by left]. intros p' pc. rewrite lookup_fmap. at_pid p p'.
    + by intros [= <-].
    + destruct (ps !! p') as [pc'|] eqn:E; [|done]. cbn. intros [= <-]. specialize (HP p' pc' E).
      destruct pc'; cbn in *; naive_solver.
Qed.

(** C26: the sleep lock under any number of processes, each running
    [acquiresleep] and [releasesleep]: in every reachable state at most one
    holds it, [holdingsleep] tells that process and no other, and when the
    lock is free no process sleeps on it, so that no wake-up is lost. *)
Theorem sleeplock_exclusive s (Hr : sl_reachable s) :
  (forall p p', sl_pcs s !! p = Some SHold -> sl_pcs s !! p' = Some SHold -> p = p') /\
  (forall p, p <> 0 -> holdingsleep p (sl_lk s) = true <-> sl_pcs s !! p = Some SHold) /\
  (sl_locked (sl_lk s) = 0 -> forall p seen, sl_pcs s !! p <> Some (SAsleep seen)).
Proof.
  assert (sl_inv s) as [HP HF].
  { destruct Hr as (s0 & H0 & Hs). apply sl_start_inv in H0.
    induction Hs; eauto using sl_step_inv. }
  split; [|split].
  - intros p p' [_ E]%HP [_ E']%HP. congruence.
  - intros p Hz. unfold holdingsleep. split.
    + destruct HF as [->|(q & -> & Hq)]; [done|]. cbn. intros ->%Z.eqb_eq. done.
    + intros [_ ->]%HP. cbn. apply Z.eqb_refl.
  - intros Hl p seen (_ & _ & E)%HP. lia.
Qed.

(** The second process has been woken once, and found the lock taken again. *)
Definition sl_demo : sl_sys := mkslsys (mksl 1 9) {[7 := SOut; 8 := SAsleep [mksl 1 7; mksl 1 9]; 9 := SHold]}.

Lemma sl_demo_reachable : sl_reachable sl_demo.
Proof.
  exists (mkslsys initsleeplock {[7 := SOut; 8 := SOut; 9 := SOut]}). split.
  { split; [done|]. intros p pc. cbn. rewrite !lookup_insert_Some, lookup_singleton_Some. naive_solver. }
  eapply rtc_l; [by apply (sl_begin _ _ 7)|]. eapply rtc_l; [by apply (sl_begin _ _ 8)|]. eapply rtc_l; [by apply (sl_begin _ _ 9)|].
  eapply rtc_l; [by apply (sl_take _ _ 7 [] (mksl 1 7))|]. eapply rtc_l; [by apply (sl_sleep _ _ 8 [])|].
  eapply rtc_l; [by apply (sl_release _ _ 7)|]. eapply rtc_l; [by apply (sl_take _ _ 9 [] (mksl 1 9))|].
  eapply rtc_l; [by apply (sl_sleep _ _ 8 [mksl 1 7])|]. vm_compute. apply rtc_refl.
Qed.

Lemma sleeplock_exclusive_witness : holdingsleep 9 (sl_lk sl_demo) = true <-> sl_pcs sl_demo !! 9 = Some SHold.
Proof.
  destruct (sleeplock_exclusive sl_demo sl_demo_reachable) as (_ & H & _). apply (H 9). lia.
Defined.
