(* ===== verification/Bio.v ===== *)
(** * The buffer cache (kernel/bio.c, kernel/buf.h)

    [bcache] is an array of [NBUF] buffers and the list head, linked through
    [prev] and [next] as in the source; a pointer is an index into the array,
    the head being index [NBUF].  Code that holds [bcache.lock] is atomic.
    The disk is any instance of [Disk]; [me] is [myproc()->pid]; [sleep] is
    what happens while [acquiresleep] waits. *)

From S2P Require Import Prelude Sleeplock Disk.

Definition NBUF : Z := 30.

(** [&bcache.head] *)
Definition HEAD : Z := 30.

Record buf : Type := mkbuf {
  valid : Z; dev : Z; blockno : Z; block : sleeplock; refcnt : Z;
  prev : Z; next : Z; bdata : list Z
}.

Definition buf0 : buf := mkbuf 0 0 0 initsleeplock 0 0 0 [].

Definition set_valid v b := mkbuf v (dev b) (blockno b) (block b) (refcnt b) (prev b) (next b) (bdata b).
Definition set_block v b := mkbuf (valid b) (dev b) (blockno b) v (refcnt b) (prev b) (next b) (bdata b).
Definition set_refcnt v b := mkbuf (valid b) (dev b) (blockno b) (block b) v (prev b) (next b) (bdata b).
Definition set_prev v b := mkbuf (valid b) (dev b) (blockno b) (block b) (refcnt b) v (next b) (bdata b).
Definition set_next v b := mkbuf (valid b) (dev b) (blockno b) (block b) (refcnt b) (prev b) v (bdata b).
Definition set_bdata v b := mkbuf (valid b) (dev b) (blockno b) (block b) (refcnt b) (prev b) (next b) v.

(** The cache, the disk below it, the [wakeup] calls of [releasesleep] (latest
    first) and the blocks written to the disk (earliest first). *)
Record bst (D : Type) : Type := mkbst {
  bufs : list buf; bst_d : D; bst_woken : list Z; bst_tr : list (Z * list Z)
}.
Arguments mkbst {D} bufs bst_d bst_woken bst_tr.
Arguments bufs {D} _.
Arguments bst_d {D} _.
Arguments bst_woken {D} _.
Arguments bst_tr {D} _.

Definition set_bufs {D} (v : list buf) (s : bst D) : bst D :=
  mkbst v (bst_d s) (bst_woken s) (bst_tr s).

Section bio.
Context {D : Type} `{!Disk D}.
Context (me : Z) (sleep : M (bst D) unit) (fuel : nat).

Notation B := (M (bst D)).

Definition getb (i : Z) : B buf := M_rd bufs i.
Definition updb (i : Z) (f : buf -> buf) : B unit := M_alter bufs set_bufs i f.

(** ** binit *)

Fixpoint binit_from (n : nat) (b : Z) : B unit :=
  match n with
  | O => mret tt
  | S n' =>
      h ← getb HEAD;
      updb b (set_next (next h));;
      updb b (set_prev HEAD);;
      updb b (set_block initsleeplock);;
      h ← getb HEAD;
      updb (next h) (set_prev b);;
      updb HEAD (set_next b);;
      binit_from n' (b + 1)
  end.

Definition binit : B unit :=
  updb HEAD (set_prev HEAD);;
  updb HEAD (set_next HEAD);;
  binit_from (Z.to_nat NBUF) 0.

(** ** bget *)

(** The search for the block, most recently used first; [n] bounds the walk. *)
Fixpoint bget_cached (n : nat) (b dev_ blockno_ : Z) : B (option Z) :=
  match n with
  | O => hang
  | S n' =>
      if b =? HEAD then mret None else
      x ← getb b;
      if (dev x =? dev_) && (blockno x =? blockno_) then mret (Some b)
      else bget_cached n' (next x) dev_ blockno_
  end.

(** The search for an unused buffer, least recently used first. *)
Fixpoint bget_unused (n : nat) (b : Z) : B (option Z) :=
  match n with
  | O => hang
  | S n' =>
      if b =? HEAD then mret None else
      x ← getb b;
      if refcnt x =? 0 then mret (Some b) else bget_unused n' (prev x)
  end.

(** The list has [NBUF] buffers and the head. *)
Definition walk_fuel : nat := 31.

Definition bacquire (b : Z) : B unit :=
  acquiresleep (x ← getb b; mret (block x)) (fun lk => updb b (set_block lk)) sleep fuel me.

Definition bget (dev_ blockno_ : Z) : B Z :=
  h ← getb HEAD;
  r ← bget_cached walk_fuel (next h) dev_ blockno_;
  match r with
  | Some b =>
      updb b (fun x => set_refcnt (u32 (refcnt x + 1)) x);;
      bacquire b;;
      mret b
  | None =>
      h ← getb HEAD;
      r ← bget_unused walk_fuel (prev h);
      match r with
      | Some b =>
          updb b (fun x => mkbuf 0 dev_ blockno_ (block x) 1 (prev x) (next x) (bdata x));;
          bacquire b;;
          mret b
      | None => panic "bget: no buffers"
      end
  end.

(** ** bread, bwrite, brelse, bpin, bunpin *)

(** [rw_queue(b, write)] *)
Definition rw_queue (b write : Z) : B unit :=
  x ← getb b;
  '(data, d') ← (fun s => lift (disk_rw b (blockno x) write (bdata x) (bst_d s)) s);
  modify (fun s => mkbst (bufs s) d' (bst_woken s)
    (if write =? 0 then bst_tr s else bst_tr s ++ [(blockno x, bdata x)]));;
  updb b (set_bdata data).

Definition bread (dev_ blockno_ : Z) : B Z :=
  b ← bget dev_ blockno_;
  x ← getb b;
  (if valid x =? 0 then rw_queue b 0;; updb b (set_valid 1) else mret tt);;
  mret b.

Definition bwrite (b : Z) : B unit :=
  x ← getb b;
  if negb (holdingsleep me (block x)) then panic "bwrite" else rw_queue b 1.

Definition brelse (b : Z) : B unit :=
  x ← getb b;
  if negb (holdingsleep me (block x)) then panic "brelse" else
  updb b (fun x => set_block (releasesleep (block x)) x);;
  modify (fun s => mkbst (bufs s) (bst_d s) (b :: bst_woken s) (bst_tr s));;
  updb b (fun x => set_refcnt (u32 (refcnt x - 1)) x);;
  x ← getb b;
  if refcnt x =? 0 then
    x ← getb b;
    updb (next x) (set_prev (prev x));;
    x ← getb b;
    updb (prev x) (set_next (next x));;
    h ← getb HEAD;
    updb b (set_next (next h));;
    updb b (set_prev HEAD);;
    h ← getb HEAD;
    updb (next h) (set_prev b);;
    updb HEAD (set_next b)
  else mret tt.

Definition bpin (b : Z) : B unit := updb b (fun x => set_refcnt (u32 (refcnt x + 1)) x).
Definition bunpin (b : Z) : B unit := updb b (fun x => set_refcnt (u32 (refcnt x - 1)) x).

End bio.
