(* ===== verification/BioRing.v ===== *)
(** * The circular doubly linked list of the buffer cache

    [seg nx pv p l q]: following [nx] from [p] one meets [l] and then [q], and
    [pv] leads back.  The cache's list of buffers is [seg nx pv HEAD l HEAD].
    Unlinking an element and putting one behind the head are proved once, on
    the two pointer functions. *)

From S2P Require Import Prelude.

Section ring.
Implicit Types (nx pv : Z -> Z) (p q b x : Z) (l : list Z).

Fixpoint seg nx pv p l q : Prop :=
  match l with
  | [] => nx p = q /\ pv q = p
  | x :: l' => nx p = x /\ pv x = p /\ seg nx pv x l' q
  end.

Definition updf (f : Z -> Z) (x v : Z) : Z -> Z := fun y => if y =? x then v else f y.

Lemma updf_eq f x v : updf f x v x = v.
Proof. unfold updf. by rewrite Z.eqb_refl. Qed.

Lemma updf_ne f x v y : y <> x -> updf f x v y = f y.
Proof. intros. unfold updf. by destruct (Z.eqb_spec y x). Qed.

Lemma seg_app nx pv p l1 x l2 q :
  seg nx pv p (l1 ++ x :: l2) q <-> seg nx pv p l1 x /\ seg nx pv x l2 q.
Proof.
  revert p. induction l1 as [|y l1 IH]; intros p; cbn; [tauto|]. rewrite IH. tauto.
Qed.

Lemma seg_ext nx pv nx' pv' p l q :
  (forall y, y ∈ p :: l -> nx' y = nx y) -> (forall y, y ∈ l ++ [q] -> pv' y = pv y) ->
  seg nx pv p l q -> seg nx' pv' p l q.
Proof.
  revert p. induction l as [|x l IH]; intros p Hn Hp; cbn.
  - intros [H1 H2]. rewrite Hn, Hp by set_solver. done.
  - intros (H1 & H2 & H3). rewrite Hn, Hp by set_solver. split; [done|]. split; [done|].
    apply IH; [|intros; apply Hp; set_solver|done]. intros y Hy. apply Hn. set_solver.
Qed.

(** The neighbours of the ends of a segment. *)
Lemma seg_first nx pv p l q : seg nx pv p l q -> nx p ∈ l ++ [q].
Proof. destruct l; cbn; [intros [-> _]|intros [-> _]]; set_solver. Qed.

Lemma seg_last nx pv p l q : seg nx pv p l q -> pv q ∈ p :: l.
Proof.
  revert p. induction l as [|x l IH]; intros p; cbn; [intros [_ ->]; set_solver|].
  intros (_ & _ & H%IH). set_solver.
Qed.

Lemma seg_next_of_last nx pv p l q : seg nx pv p l q -> nx (pv q) = q.
Proof.
  revert p. induction l as [|x l IH]; intros p; cbn; [intros [? ->]; done|].
  intros (_ & _ & H). by eapply IH.
Qed.

(** Make the end of a segment another node [n]. *)
Lemma seg_relink nx pv p l b n :
  seg nx pv p l b -> NoDup (p :: l) -> n ∉ l ->
  seg (updf nx (pv b) n) (updf pv n (pv b)) p l n.
Proof.
  revert p. induction l as [|x l IH]; intros p; cbn [seg].
  - intros [_ ->] _ _. by rewrite !updf_eq.
  - intros (H1 & H2 & H3) [Hp HN]%NoDup_cons Hn.
    pose proof (seg_last _ _ _ _ _ H3) as HL.
    assert (p <> pv b) by (intros ->; done).
    rewrite updf_ne by done. split; [done|].
    rewrite updf_ne by set_solver. split; [done|]. apply IH; [done|done|set_solver].
Qed.

(** Take [b] out of the ring. *)
Lemma seg_unlink nx pv h l1 b l2 :
  seg nx pv h (l1 ++ b :: l2) h -> NoDup (h :: l1 ++ b :: l2) ->
  seg (updf nx (pv b) (nx b)) (updf pv (nx b) (pv b)) h (l1 ++ l2) h.
Proof.
  intros [S1 S2]%seg_app HN. assert (NoDup (h :: l1)) as HN1.
  { apply NoDup_cons in HN as [Hh HN]. apply NoDup_app in HN as (? & _ & _).
    constructor; [set_solver|done]. }
  pose proof (seg_last _ _ _ _ _ S1) as HL.
  apply NoDup_cons in HN as [Hh HN]. apply NoDup_app in HN as (_ & HD & HN2).
  destruct l2 as [|n l2].
  - destruct S2 as [E1 E2]. rewrite app_nil_r, E1. apply seg_relink; [done|done|set_solver].
  - destruct S2 as (E1 & E2 & S2). rewrite E1. apply seg_app. split.
    + apply seg_relink; [done|done|]. intros Hn. apply (HD n Hn). set_solver.
    + eapply seg_ext; [..|exact S2].
      * intros y Hy. apply updf_ne. intros ->.
        apply elem_of_cons in HL as [E|HL]; [rewrite E in Hy; set_solver|].
        apply (HD _ HL). set_solver.
      * intros y Hy. apply updf_ne. intros ->. apply NoDup_cons in HN2 as [_ HN2].
        apply NoDup_cons in HN2 as [HN2 _]. set_solver.
Qed.

(** Put [b] behind the head. *)
Lemma seg_push nx pv h l b :
  seg nx pv h l h -> NoDup (h :: l) -> b ∉ h :: l ->
  seg (updf (updf nx b (nx h)) h b) (updf (updf pv b h) (nx h) b) h (b :: l) h.
Proof.
  intros S HN Hb. pose proof (seg_first _ _ _ _ _ S) as HF.
  assert (b <> nx h) by (intros E; apply Hb; set_solver).
  assert (b <> h) by set_solver.
  cbn [seg]. rewrite updf_eq. split; [done|]. rewrite updf_ne, updf_eq by done.
  split; [done|]. apply NoDup_cons in HN as [Hh HN]. destruct l as [|x l].
  - destruct S as [E1 E2]. cbn [seg]. rewrite updf_ne, updf_eq, E1, updf_eq by done. done.
  - destruct S as (E1 & E2 & S). cbn [seg]. rewrite E1, updf_eq.
    rewrite updf_ne, updf_eq by done. split; [done|]. split; [done|].
    apply NoDup_cons in HN as [Hx HN].
    eapply seg_ext; [..|exact S].
    + intros y Hy. rewrite !updf_ne; [done|set_solver..].
    + intros y Hy. rewrite !updf_ne; [done|set_solver..].
Qed.

End ring.
