(* ===== verification/BioSpec.v ===== *)
(** * Correctness of the buffer cache

    The invariant [cache_ok] of kernel/bio.c and the specification of each
    operation in terms of what its callers see: [view s n], the content
    [bread] returns for block [n], and [rc s n], the number of references to
    its buffer. *)

From S2P Require Import Prelude Sleeplock Disk Bio BioRing.

(** ** Cells of the array *)

Definition at_ (bs : list buf) (i : Z) : buf := default buf0 (zidx bs i).

Lemma at_alter_eq bs i f :
  0 <= i < Z.of_nat (length bs) -> at_ (alter f (Z.to_nat i) bs) i = f (at_ bs i).
Proof.
  intros H. unfold at_. rewrite zidx_alter_fmap. by destruct (zidx_is_Some bs i H) as [x ->].
Qed.

Lemma at_alter_ne bs i j f : 0 <= i -> i <> j -> at_ (alter f (Z.to_nat i) bs) j = at_ bs j.
Proof. intros. unfold at_. by rewrite zidx_alter_ne. Qed.

Lemma at_alter bs i j f :
  0 <= i < Z.of_nat (length bs) ->
  at_ (alter f (Z.to_nat i) bs) j = if j =? i then f (at_ bs i) else at_ bs j.
Proof.
  intros H. destruct (Z.eqb_spec j i) as [->|]; [by apply at_alter_eq|apply at_alter_ne; lia].
Qed.

(** A duplicate-free list splits around an element in one way. *)
Lemma NoDup_split_unique {A} (x : A) l1 l2 m1 m2 :
  l1 ++ x :: l2 = m1 ++ x :: m2 -> NoDup (l1 ++ x :: l2) -> l1 = m1 /\ l2 = m2.
Proof.
  revert m1. induction l1 as [|y l1 IH]; intros [|z m1]; cbn; intros E HN.
  - by injection E.
  - injection E as -> E. apply NoDup_cons in HN as [Hz _]. destruct Hz. rewrite E. set_solver.
  - injection E as -> E. apply NoDup_cons in HN as [Hz _]. destruct Hz. set_solver.
  - injection E as -> E. apply NoDup_cons in HN as [_ HN]. destruct (IH m1 E HN). by subst.
Qed.

Section spec.
Context {D : Type} `{!Disk D}.
Implicit Types (s : bst D) (l : list Z).

Notation "s .[ i ]" := (at_ (bufs s) i) (at level 2, format "s .[ i ]").

Lemma getb_Ok s i : length (bufs s) = 31%nat -> 0 <= i <= HEAD -> getb i s = Ok (s.[i], s).
Proof.
  intros Hl Hi. unfold getb. apply M_rd_Ok. unfold at_, HEAD in *.
  by destruct (zidx_is_Some (bufs s) i) as [x ->]; [lia|].
Qed.

Lemma updb_Ok s i f :
  length (bufs s) = 31%nat -> 0 <= i <= HEAD ->
  updb i f s = Ok (tt, set_bufs (alter f (Z.to_nat i) (bufs s)) s).
Proof. intros Hl Hi. unfold updb. apply M_alter_Ok. unfold HEAD in *. lia. Qed.

Definition nx s : Z -> Z := fun i => next s.[i].
Definition pv s : Z -> Z := fun i => prev s.[i].

(** ** The invariant

    All blocks belong to the one device [dv]; a buffer that has never been
    used has device 0. *)

Context (dv : Z).

(** Buffer [i] caches block [n]. *)
Definition holds s (n i : Z) : Prop := 0 <= i < NBUF /\ dev s.[i] = dv /\ blockno s.[i] = n.

Record cache_ok s l : Prop := {
  co_dv : dv <> 0;
  co_len : length (bufs s) = 31%nat;
  co_ring : seg (nx s) (pv s) HEAD l HEAD;
  co_perm : l ≡ₚ seqZ 0 NBUF;
  co_dev : forall i, 0 <= i < NBUF -> dev s.[i] = dv \/ dev s.[i] = 0 /\ refcnt s.[i] = 0;
  co_uniq : forall n i j, holds s n i -> holds s n j -> i = j;
  co_block : forall n i, holds s n i -> 0 <= n < 2 ^ 31;
  co_refcnt : forall i, 0 <= i < NBUF -> 0 <= refcnt s.[i] < 2 ^ 32;
  co_clean : forall n i, holds s n i -> valid s.[i] <> 0 -> refcnt s.[i] = 0 ->
    bdata s.[i] = disk_view (bst_d s) n;
  co_unlocked : forall i, 0 <= i < NBUF -> refcnt s.[i] = 0 -> sl_locked (block s.[i]) = 0;
  co_disk : disk_ok (bst_d s)
}.

Lemma ok_elem s l i : cache_ok s l -> i ∈ l <-> 0 <= i < NBUF.
Proof. intros H. rewrite (co_perm _ _ H), elem_of_seqZ. lia. Qed.

Lemma ok_NoDup s l : cache_ok s l -> NoDup (HEAD :: l).
Proof.
  intros H. constructor.
  - rewrite (ok_elem _ _ _ H). unfold HEAD, NBUF. lia.
  - rewrite (co_perm _ _ H). apply NoDup_seqZ.
Qed.

Lemma ok_length s l : cache_ok s l -> length l = 30%nat.
Proof. intros H. rewrite (co_perm _ _ H). by rewrite length_seqZ. Qed.

(** ** The walks *)

Definition is_block (d_ n : Z) (b : buf) : bool := (dev b =? d_) && (blockno b =? n).

Lemma bget_cached_spec s d_ n k l p :
  length (bufs s) = 31%nat -> seg (nx s) (pv s) p l HEAD -> (length l < k)%nat ->
  (forall i, i ∈ l -> 0 <= i < NBUF) ->
  bget_cached k (nx s p) d_ n s = Ok (snd <$> list_find (fun i => is_block d_ n s.[i] = true) l, s).
Proof.
  intros Hl. revert p k. induction l as [|x l IH]; intros p k Hs Hk Hr;
    (destruct k as [|k]; [cbn in Hk; lia|]); cbn [bget_cached].
  - destruct Hs as [-> _]. by rewrite Z.eqb_refl.
  - destruct Hs as (-> & _ & Hs). assert (0 <= x < NBUF) as Hx by (apply Hr; left).
    destruct (Z.eqb_spec x HEAD); [unfold HEAD, NBUF in *; lia|].
    erewrite M_bind_Ok; [|apply getb_Ok; [done|unfold HEAD, NBUF in *; lia]].
    cbn [list_find]. fold (is_block d_ n s.[x]). destruct (is_block d_ n s.[x]) eqn:E.
    + rewrite decide_True by done. done.
    + rewrite decide_False by congruence. change (next s.[x]) with (nx s x).
      rewrite (IH x k Hs); [|cbn in Hk; lia|intros; apply Hr; by right].
      by destruct (list_find _ l) as [[]|].
Qed.

(** The last unused buffer of a list. *)
Definition last_unused s l : option Z := snd <$> list_find (fun i => refcnt s.[i] = 0) (reverse l).

Lemma bget_unused_spec s k l q :
  length (bufs s) = 31%nat -> seg (nx s) (pv s) HEAD l q -> (length l < k)%nat ->
  (forall i, i ∈ l -> 0 <= i < NBUF) ->
  bget_unused k (pv s q) s = Ok (last_unused s l, s).
Proof.
  intros Hl. revert q k. unfold last_unused.
  induction l as [|x l IH] using rev_ind; intros q k Hs Hk Hr;
    (destruct k as [|k]; [rewrite ?length_app in Hk; cbn in Hk; lia|]); cbn [bget_unused].
  - destruct Hs as [_ ->]. by rewrite Z.eqb_refl.
  - apply seg_app in Hs as [Hs [_ E]]. rewrite E.
    assert (0 <= x < NBUF) as Hx by (apply Hr; set_solver).
    destruct (Z.eqb_spec x HEAD); [unfold HEAD, NBUF in *; lia|].
    erewrite M_bind_Ok; [|apply getb_Ok; [done|unfold HEAD, NBUF in *; lia]].
    rewrite reverse_snoc. cbn [list_find].
    destruct (Z.eqb_spec (refcnt s.[x]) 0) as [E0|E0].
    + rewrite decide_True by done. done.
    + rewrite decide_False by done. change (prev s.[x]) with (pv s x).
      rewrite (IH x k Hs); [|rewrite length_app in Hk; cbn in Hk; lia|intros; apply Hr; set_solver].
      by destruct (list_find _ (reverse l)) as [[]|].
Qed.

Lemma last_unused_Some s l i :
  last_unused s l = Some i ->
  refcnt s.[i] = 0 /\ exists l1 l2, l = l1 ++ i :: l2 /\ forall j, j ∈ l2 -> refcnt s.[j] <> 0.
Proof.
  unfold last_unused. destruct (list_find _ (reverse l)) as [[k j]|] eqn:E; [|done].
  cbn. intros [= ->]. apply list_find_Some in E as (Ek & H0 & Hlt). split; [done|].
  apply list_elem_of_split_length in Ek as (r1 & r2 & E & Hk).
  exists (reverse r2), (reverse r1). split.
  - rewrite <- (reverse_involutive l), E, reverse_app, reverse_cons. by rewrite <- app_assoc.
  - intros j Hj. rewrite elem_of_reverse in Hj. apply list_elem_of_lookup in Hj as [k' Hk'].
    apply (Hlt k' j).
    + rewrite E. apply lookup_app_l_Some, Hk'.
    + apply lookup_lt_Some in Hk'. lia.
Qed.

Lemma last_unused_is_Some s l i :
  i ∈ l -> refcnt s.[i] = 0 -> exists j, last_unused s l = Some j.
Proof.
  intros Hi Hr. unfold last_unused.
  destruct (list_find_elem_of (fun i => refcnt s.[i] = 0) (reverse l) i) as [[k j] ->]; eauto.
  by apply elem_of_reverse.
Qed.

(** ** What the callers see *)

Definition where_ s (n : Z) : option Z :=
  snd <$> list_find (fun i => is_block dv n s.[i] = true) (seqZ 0 NBUF).

Definition view s (n : Z) : list Z :=
  match where_ s n with
  | Some i => if valid s.[i] =? 0 then disk_view (bst_d s) n else bdata s.[i]
  | None => disk_view (bst_d s) n
  end.

Definition rc s (n : Z) : Z :=
  match where_ s n with Some i => refcnt s.[i] | None => 0 end.

Lemma is_block_holds s n i : 0 <= i < NBUF -> is_block dv n s.[i] = true <-> holds s n i.
Proof.
  intros Hi. unfold is_block, holds. rewrite andb_true_iff, !Z.eqb_eq. tauto.
Qed.

Lemma find_holds s l n i :
  cache_ok s l -> holds s n i ->
  snd <$> list_find (fun i => is_block dv n s.[i] = true) l = Some i.
Proof.
  intros H Hi. pose proof Hi as [Hr _]. rewrite <- (ok_elem _ _ _ H) in Hr.
  destruct (list_find_elem_of (fun i => is_block dv n s.[i] = true) l i Hr) as [[k j] E].
  { apply is_block_holds; [apply Hi|done]. }
  rewrite E. cbn. f_equal. apply list_find_Some in E as (Ej & Hj & _).
  apply list_elem_of_lookup_2, (ok_elem _ _ _ H) in Ej. apply is_block_holds in Hj; [|done].
  by eapply (co_uniq _ _ H).
Qed.

Lemma find_none s l n :
  cache_ok s l -> (forall i, ~ holds s n i) ->
  snd <$> list_find (fun i => is_block dv n s.[i] = true) l = None.
Proof.
  intros H Hn. apply fmap_None, list_find_None, Forall_forall. intros i Hi E.
  apply (ok_elem _ _ _ H) in Hi. apply is_block_holds in E; [|done]. by apply (Hn i).
Qed.

Lemma where_holds s l n i : cache_ok s l -> holds s n i -> where_ s n = Some i.
Proof.
  intros H Hi. unfold where_. pose proof Hi as [Hr _].
  assert (i ∈ seqZ 0 NBUF) as Hin by (apply elem_of_seqZ; lia).
  destruct (list_find_elem_of (fun i => is_block dv n s.[i] = true) _ i Hin) as [[k j] E].
  { by apply is_block_holds. }
  rewrite E. cbn. f_equal. apply list_find_Some in E as (Ej & Hj & _).
  apply list_elem_of_lookup_2, elem_of_seqZ in Ej. apply is_block_holds in Hj; [|lia].
  by eapply (co_uniq _ _ H).
Qed.

Lemma where_inv s n i : where_ s n = Some i -> holds s n i.
Proof.
  unfold where_. destruct (list_find _ _) as [[k j]|] eqn:E; [|done]. cbn. intros [= ->].
  apply list_find_Some in E as (Ej & Hj & _). apply list_elem_of_lookup_2, elem_of_seqZ in Ej.
  apply is_block_holds in Hj; [done|lia].
Qed.

Lemma where_none s n : (forall i, ~ holds s n i) -> where_ s n = None.
Proof. intros H. destruct (where_ s n) as [i|] eqn:E; [|done]. by apply where_inv, H in E. Qed.

Lemma view_holds s l n i :
  cache_ok s l -> holds s n i ->
  view s n = if valid s.[i] =? 0 then disk_view (bst_d s) n else bdata s.[i].
Proof. intros H Hi. unfold view. by rewrite (where_holds _ _ _ _ H Hi). Qed.

Lemma view_none s n : (forall i, ~ holds s n i) -> view s n = disk_view (bst_d s) n.
Proof. intros H. unfold view. by rewrite where_none. Qed.

Lemma rc_holds s l n i : cache_ok s l -> holds s n i -> rc s n = refcnt s.[i].
Proof. intros H Hi. unfold rc. by rewrite (where_holds _ _ _ _ H Hi). Qed.

(** A block without references is as on disk. *)
Lemma view_clean s l n : cache_ok s l -> rc s n = 0 -> view s n = disk_view (bst_d s) n.
Proof.
  intros H. unfold rc, view. destruct (where_ s n) as [i|] eqn:E; [|done].
  apply where_inv in E. intros Hr. destruct (Z.eqb_spec (valid s.[i]) 0); [done|].
  by apply (co_clean _ _ H).
Qed.

(** ** Changing one buffer *)

(** [s'] is [s] with [x] in cell [i] (and maybe another disk). *)
Record touch (i : Z) (x : buf) s s' : Prop := {
  to_len : length (bufs s') = 31%nat;
  to_at : s'.[i] = x;
  to_other : forall j, j <> i -> s'.[j] = s.[j]
}.

Lemma touch_alter s i f d w tr :
  length (bufs s) = 31%nat -> 0 <= i < NBUF ->
  touch i (f s.[i]) s (mkbst (alter f (Z.to_nat i) (bufs s)) d w tr).
Proof.
  intros Hl Hi. split; cbn.
  - by rewrite length_alter.
  - apply at_alter_eq. unfold NBUF in *. lia.
  - intros j Hj. apply at_alter_ne; [lia|congruence].
Qed.

Lemma touch_trans s1 s2 s3 i x y : touch i x s1 s2 -> touch i y s2 s3 -> touch i y s1 s3.
Proof.
  intros [_ _ H1] [H2 H3 H4]. split; [done|done|]. intros j Hj. by rewrite H4, H1.
Qed.

(** The buffer [x] of block [n] takes the place of one for [n] or of one
    without references. *)
Record may_touch s l (n i : Z) (x : buf) : Prop := {
  mt_ok : cache_ok s l;
  mt_i : 0 <= i < NBUF;
  mt_n : 0 <= n < 2 ^ 31;
  mt_dev : dev x = dv;
  mt_blockno : blockno x = n;
  mt_links : prev x = prev s.[i] /\ next x = next s.[i];
  mt_only : forall j, holds s n j -> j = i;
  mt_old : holds s n i \/ refcnt s.[i] = 0
}.

Section touch.
Context {s s' : bst D} {l : list Z} {n i : Z} {x : buf}.
Context (Hm : may_touch s l n i x) (Ht : touch i x s s').

Lemma touch_holds n' j : holds s' n' j <-> j = i /\ n' = n \/ j <> i /\ holds s n' j.
Proof.
  pose proof (to_at _ _ _ _ Ht) as E. unfold holds. destruct (decide (j = i)) as [->|Hj].
  - rewrite E, (mt_dev _ _ _ _ _ Hm), (mt_blockno _ _ _ _ _ Hm).
    pose proof (mt_i _ _ _ _ _ Hm). naive_solver.
  - rewrite (to_other _ _ _ _ Ht j Hj). naive_solver.
Qed.

Lemma touch_ring : seg (nx s') (pv s') HEAD l HEAD.
Proof.
  destruct (mt_links _ _ _ _ _ Hm) as [E1 E2].
  eapply seg_ext; [..|apply (co_ring _ _ (mt_ok _ _ _ _ _ Hm))]; intros y _; unfold nx, pv;
    (destruct (decide (y = i)) as [->|Hy]; [by rewrite (to_at _ _ _ _ Ht)|
      by rewrite (to_other _ _ _ _ Ht)]).
Qed.

Lemma touch_ok :
  0 <= refcnt x < 2 ^ 32 -> disk_ok (bst_d s') ->
  (forall n', 0 <= n' < 2 ^ 31 -> n' <> n -> disk_view (bst_d s') n' = disk_view (bst_d s) n') ->
  (refcnt x = 0 -> sl_locked (block x) = 0 /\ (valid x <> 0 -> bdata x = disk_view (bst_d s') n)) ->
  cache_ok s' l.
Proof.
  intros Hr Hd Hv H0. pose proof (mt_ok _ _ _ _ _ Hm) as H. pose proof (to_at _ _ _ _ Ht) as E.
  split; try (by destruct H); try (by destruct Ht).
  - apply touch_ring.
  - intros j Hj. destruct (decide (j = i)) as [->|Hne].
    + left. rewrite E. apply Hm.
    + rewrite (to_other _ _ _ _ Ht j Hne). by apply (co_dev _ _ H).
  - intros n' a b. rewrite !touch_holds.
    intros [[-> ->]|[Ha Ha']] [[-> E']|[Hb Hb']]; [done|..].
    + by apply (mt_only _ _ _ _ _ Hm) in Hb'.
    + subst. by apply (mt_only _ _ _ _ _ Hm) in Ha'.
    + by eapply (co_uniq _ _ H).
  - intros n' a. rewrite touch_holds. intros [[_ ->]|[_ Ha]]; [apply Hm|by eapply (co_block _ _ H)].
  - intros j Hj. destruct (decide (j = i)) as [->|Hne]; [by rewrite E|].
    rewrite (to_other _ _ _ _ Ht j Hne). by apply (co_refcnt _ _ H).
  - intros n' j. rewrite touch_holds. intros [[-> ->]|[Hj Hh]].
    + rewrite E. intros ? ?. by apply H0.
    + rewrite (to_other _ _ _ _ Ht j Hj). intros Hva Hrc.
      assert (n' <> n) by (intros ->; apply Hj; by apply (mt_only _ _ _ _ _ Hm)).
      rewrite Hv by (done || by eapply (co_block _ _ H)). by apply (co_clean _ _ H).
  - intros j Hj. destruct (decide (j = i)) as [->|Hne].
    + rewrite E. intros ?. by apply H0.
    + rewrite (to_other _ _ _ _ Ht j Hne). by apply (co_unlocked _ _ H).
Qed.

(** Other blocks look the same. *)
Lemma touch_other n' :
  cache_ok s' l -> n' <> n -> disk_view (bst_d s') n' = disk_view (bst_d s) n' ->
  view s' n' = view s n' /\ rc s' n' = rc s n'.
Proof.
  intros H' Hn Hv. pose proof (mt_ok _ _ _ _ _ Hm) as H.
  destruct (where_ s n') as [j|] eqn:Ew.
  - apply where_inv in Ew as Hj. destruct (decide (j = i)) as [->|Hne].
    + assert (refcnt s.[i] = 0) as Hr.
      { destruct (mt_old _ _ _ _ _ Hm) as [(_ & _ & E)|?]; [|done].
        destruct Hj as (_ & _ & E'). congruence. }
      assert (rc s n' = 0) as Hrc by (unfold rc; by rewrite Ew).
      rewrite (view_clean _ _ _ H Hrc), Hrc.
      assert (forall k, ~ holds s' n' k) as Hno.
      { intros k. rewrite touch_holds. intros [[_ ?]|[Hk Hk']]; [done|].
        apply Hk. by eapply (co_uniq _ _ H). }
      rewrite view_none by done. split; [done|]. unfold rc. by rewrite where_none.
    + assert (holds s' n' j) as Hj' by (apply touch_holds; tauto).
      rewrite (view_holds _ _ _ _ H Hj), (view_holds _ _ _ _ H' Hj'),
        (rc_holds _ _ _ _ H Hj), (rc_holds _ _ _ _ H' Hj'), (to_other _ _ _ _ Ht j Hne), Hv. done.
  - assert (forall k, ~ holds s n' k) as Hno.
    { intros k Hk. by rewrite (where_holds _ _ _ _ H Hk) in Ew. }
    assert (forall k, ~ holds s' n' k) as Hno'.
    { intros k. rewrite touch_holds. intros [[_ ?]|[_ ?]]; [done|by apply (Hno k)]. }
    rewrite !view_none by done. split; [done|]. unfold rc. by rewrite !where_none.
Qed.

Lemma touch_this :
  cache_ok s' l -> valid x <> 0 -> view s' n = bdata x /\ rc s' n = refcnt x.
Proof.
  intros H' Hv. assert (holds s' n i) as Hi by (apply touch_holds; tauto).
  rewrite (view_holds _ _ _ _ H' Hi), (rc_holds _ _ _ _ H' Hi), (to_at _ _ _ _ Ht).
  by destruct (Z.eqb_spec (valid x) 0).
Qed.

End touch.

(** ** Operations on a buffer in use *)

Lemma may_touch_same s l n i x :
  cache_ok s l -> holds s n i -> dev x = dev s.[i] -> blockno x = blockno s.[i] ->
  prev x = prev s.[i] -> next x = next s.[i] -> may_touch s l n i x.
Proof.
  intros H Hh E1 E2 E3 E4. pose proof Hh as (Hi & Hd & Hb).
  split; try done; [by eapply (co_block _ _ H)|congruence|congruence| |by left].
  intros j Hj. by eapply (co_uniq _ _ H).
Qed.

(** [s'] sees block [n] as [v], with [k] more references, and nothing else
    differently. *)
Record seen s s' (n : Z) (v : list Z) (k : Z) : Prop := {
  se_view : forall n', 0 <= n' < 2 ^ 31 -> view s' n' = if n' =? n then v else view s n';
  se_rc : forall n', 0 <= n' < 2 ^ 31 -> rc s' n' = rc s n' + (if n' =? n then k else 0)
}.

Lemma touch_seen s s' l n i x k :
  cache_ok s l -> holds s n i -> may_touch s l n i x -> touch i x s s' -> cache_ok s' l ->
  valid x <> 0 -> refcnt x = refcnt s.[i] + k ->
  (forall n', 0 <= n' < 2 ^ 31 -> n' <> n -> disk_view (bst_d s') n' = disk_view (bst_d s) n') ->
  seen s s' n (bdata x) k.
Proof.
  intros H Hh Hm Ht H' Hv Hr Hd. destruct (touch_this Hm Ht H' Hv) as [V R].
  split; intros n' Hn'; destruct (Z.eqb_spec n' n) as [->|Hne]; try done.
  - by apply (touch_other Hm Ht n' H' Hne), Hd.
  - rewrite R, (rc_holds _ _ _ _ H Hh). lia.
  - rewrite Z.add_0_r. by apply (touch_other Hm Ht n' H' Hne), Hd.
Qed.

(** An update of a referenced buffer that keeps its identity and links. *)
Lemma updb_spec s l n i f k :
  cache_ok s l -> holds s n i ->
  (forall b, dev (f b) = dev b /\ blockno (f b) = blockno b /\ prev (f b) = prev b /\ next (f b) = next b) ->
  valid (f s.[i]) <> 0 -> refcnt (f s.[i]) = refcnt s.[i] + k -> 0 <= refcnt s.[i] + k < 2 ^ 32 ->
  (refcnt s.[i] + k = 0 -> sl_locked (block (f s.[i])) = 0 /\
     bdata (f s.[i]) = disk_view (bst_d s) n) ->
  exists s', updb i f s = Ok (tt, s') /\ cache_ok s' l /\ touch i (f s.[i]) s s' /\
    (bst_d s' = bst_d s /\ bst_tr s' = bst_tr s) /\ seen s s' n (bdata (f s.[i])) k.
Proof.
  intros H Hh Hf Hv Hr Hk H0. pose proof Hh as (Hi & Hd & Hb). destruct (Hf s.[i]) as (F1 & F2 & F3 & F4).
  pose proof (may_touch_same s l n i (f s.[i]) H Hh F1 F2 F3 F4) as Hm.
  pose proof (touch_alter s i f (bst_d s) (bst_woken s) (bst_tr s) (co_len _ _ H) Hi) as Ht.
  eexists. split; [apply updb_Ok; [apply H|unfold HEAD, NBUF in *; lia]|].
  assert (cache_ok (set_bufs (alter f (Z.to_nat i) (bufs s)) s) l) as H'.
  { apply (touch_ok Hm Ht); [lia|apply (co_disk _ _ H)|done|].
    intros E. rewrite Hr in E. destruct (H0 E). done. }
  split; [done|]. split; [exact Ht|]. split; [done|].
  by apply (touch_seen s _ l n i (f s.[i]) k H Hh Hm Ht H').
Qed.

Lemma set_bdata_spec s l n i v :
  cache_ok s l -> holds s n i -> valid s.[i] <> 0 -> 1 <= refcnt s.[i] ->
  exists s', updb i (set_bdata v) s = Ok (tt, s') /\ cache_ok s' l /\
    touch i (set_bdata v s.[i]) s s' /\ (bst_d s' = bst_d s /\ bst_tr s' = bst_tr s) /\
    seen s s' n v 0.
Proof.
  intros H Hh Hv Hr. pose proof (co_refcnt _ _ H i (proj1 Hh)).
  apply (updb_spec s l n i (set_bdata v) 0 H Hh); cbn; (done || lia).
Qed.

Lemma bpin_spec s l n i :
  cache_ok s l -> holds s n i -> valid s.[i] <> 0 -> refcnt s.[i] < 2 ^ 32 - 1 ->
  exists s', bpin i s = Ok (tt, s') /\ cache_ok s' l /\
    touch i (set_refcnt (refcnt s.[i] + 1) s.[i]) s s' /\ (bst_d s' = bst_d s /\ bst_tr s' = bst_tr s) /\
    seen s s' n (bdata s.[i]) 1.
Proof.
  intros H Hh Hv Hr. pose proof (co_refcnt _ _ H i (proj1 Hh)) as Hc.
  destruct (updb_spec s l n i (fun x => set_refcnt (u32 (refcnt x + 1)) x) 1 H Hh)
    as (s' & E & H' & T & S); cbn; rewrite ?u32_small by lia; try (done || lia).
  exists s'. split; [exact E|]. cbn in T. rewrite u32_small in T by lia. done.
Qed.

Lemma bunpin_spec s l n i :
  cache_ok s l -> holds s n i -> valid s.[i] <> 0 -> 2 <= refcnt s.[i] ->
  exists s', bunpin i s = Ok (tt, s') /\ cache_ok s' l /\
    touch i (set_refcnt (refcnt s.[i] - 1) s.[i]) s s' /\ (bst_d s' = bst_d s /\ bst_tr s' = bst_tr s) /\
    seen s s' n (bdata s.[i]) (-1).
Proof.
  intros H Hh Hv Hr. pose proof (co_refcnt _ _ H i (proj1 Hh)) as Hc.
  destruct (updb_spec s l n i (fun x => set_refcnt (u32 (refcnt x - 1)) x) (-1) H Hh)
    as (s' & E & H' & T & S); cbn; rewrite ?u32_small by lia; try (done || lia).
  exists s'. split; [exact E|]. cbn in T. rewrite u32_small in T by lia. done.
Qed.

(** ** Relinking *)

(** Everything but the links. *)
Definition core (b : buf) : Z * Z * Z * sleeplock * Z * list Z :=
  (valid b, dev b, blockno b, block b, refcnt b, bdata b).

Record relinked s s' : Prop := {
  rl_core : forall j, core s'.[j] = core s.[j];
  rl_len : length (bufs s') = length (bufs s);
  rl_d : bst_d s' = bst_d s;
  rl_tr : bst_tr s' = bst_tr s
}.

Lemma relinked_fields s s' j :
  relinked s s' -> valid s'.[j] = valid s.[j] /\ dev s'.[j] = dev s.[j] /\
    blockno s'.[j] = blockno s.[j] /\ block s'.[j] = block s.[j] /\
    refcnt s'.[j] = refcnt s.[j] /\ bdata s'.[j] = bdata s.[j].
Proof. intros H. pose proof (rl_core _ _ H j) as E. unfold core in E. by simplify_eq. Qed.

Lemma relinked_holds s s' n i : relinked s s' -> holds s' n i <-> holds s n i.
Proof.
  intros H. destruct (relinked_fields s s' i H) as (_ & E1 & E2 & _).
  unfold holds. by rewrite E1, E2.
Qed.

Lemma relinked_trans s1 s2 s3 : relinked s1 s2 -> relinked s2 s3 -> relinked s1 s3.
Proof.
  intros [A1 A2 A3 A4] [B1 B2 B3 B4].
  split; [intros j; by rewrite B1|by rewrite B2|by rewrite B3|by rewrite B4].
Qed.

Lemma relinked_ok s s' l l' :
  relinked s s' -> cache_ok s l -> seg (nx s') (pv s') HEAD l' HEAD -> l' ≡ₚ l -> cache_ok s' l'.
Proof.
  intros R H Hseg HP. split.
  - apply H.
  - rewrite (rl_len _ _ R). apply H.
  - done.
  - by rewrite HP, (co_perm _ _ H).
  - intros i Hi. destruct (relinked_fields s s' i R) as (_ & -> & _ & _ & -> & _).
    by apply (co_dev _ _ H).
  - intros n i j. rewrite !(relinked_holds _ _ _ _ R). apply (co_uniq _ _ H).
  - intros n i. rewrite !(relinked_holds _ _ _ _ R). apply (co_block _ _ H).
  - intros i Hi. destruct (relinked_fields s s' i R) as (_ & _ & _ & _ & -> & _).
    by apply (co_refcnt _ _ H).
  - intros n i. rewrite !(relinked_holds _ _ _ _ R), (rl_d _ _ R).
    destruct (relinked_fields s s' i R) as (-> & _ & _ & _ & -> & ->). apply (co_clean _ _ H).
  - intros i Hi. destruct (relinked_fields s s' i R) as (_ & _ & _ & -> & -> & _).
    by apply (co_unlocked _ _ H).
  - rewrite (rl_d _ _ R). apply H.
Qed.

Lemma relinked_seen s s' l l' n :
  relinked s s' -> cache_ok s l -> cache_ok s' l' -> view s' n = view s n /\ rc s' n = rc s n.
Proof.
  intros R H H'. destruct (where_ s n) as [i|] eqn:E.
  - apply where_inv in E as Hi. assert (holds s' n i) as Hi' by (by apply (relinked_holds _ _ _ _ R)).
    rewrite (view_holds _ _ _ _ H Hi), (view_holds _ _ _ _ H' Hi'), (rc_holds _ _ _ _ H Hi),
      (rc_holds _ _ _ _ H' Hi').
    destruct (relinked_fields s s' i R) as (-> & _ & _ & _ & -> & ->). by rewrite (rl_d _ _ R).
  - assert (forall i, ~ holds s n i) as Hno.
    { intros i Hi. by rewrite (where_holds _ _ _ _ H Hi) in E. }
    assert (forall i, ~ holds s' n i) as Hno'.
    { intros i. rewrite (relinked_holds _ _ _ _ R). apply Hno. }
    rewrite !view_none, (rl_d _ _ R) by done. split; [done|]. unfold rc. by rewrite !where_none.
Qed.

(** A write of one link. *)
Lemma upd_prev s i v :
  length (bufs s) = 31%nat -> 0 <= i <= HEAD ->
  exists s', updb i (set_prev v) s = Ok (tt, s') /\ relinked s s' /\
    (forall y, nx s' y = nx s y) /\ (forall y, pv s' y = updf (pv s) i v y).
Proof.
  intros Hl Hi. eexists. split; [by apply updb_Ok|]. unfold HEAD in Hi.
  assert (forall y, (set_bufs (alter (set_prev v) (Z.to_nat i) (bufs s)) s).[y] =
    if y =? i then set_prev v s.[i] else s.[y]) as E by (intros y; cbn; apply at_alter; lia).
  split; [split; [|by cbn; rewrite length_alter|done|done]|split]; intros y; unfold nx, pv, updf;
    rewrite E; destruct (Z.eqb_spec y i); by subst.
Qed.

Lemma upd_next s i v :
  length (bufs s) = 31%nat -> 0 <= i <= HEAD ->
  exists s', updb i (set_next v) s = Ok (tt, s') /\ relinked s s' /\
    (forall y, nx s' y = updf (nx s) i v y) /\ (forall y, pv s' y = pv s y).
Proof.
  intros Hl Hi. eexists. split; [by apply updb_Ok|]. unfold HEAD in Hi.
  assert (forall y, (set_bufs (alter (set_next v) (Z.to_nat i) (bufs s)) s).[y] =
    if y =? i then set_next v s.[i] else s.[y]) as E by (intros y; cbn; apply at_alter; lia).
  split; [split; [|by cbn; rewrite length_alter|done|done]|split]; intros y; unfold nx, pv, updf;
    rewrite E; destruct (Z.eqb_spec y i); by subst.
Qed.

(** The list operations of [brelse]. *)
Definition move_front (b : Z) : M (bst D) unit :=
  x ← getb b;
  updb (next x) (set_prev (prev x));;
  x ← getb b;
  updb (prev x) (set_next (next x));;
  h ← getb HEAD;
  updb b (set_next (next h));;
  updb b (set_prev HEAD);;
  h ← getb HEAD;
  updb (next h) (set_prev b);;
  updb HEAD (set_next b).

(** The neighbours of a buffer in the ring are indices of the array. *)
Lemma ring_range s l i :
  cache_ok s l -> i ∈ HEAD :: l -> 0 <= nx s i <= HEAD /\ 0 <= pv s i <= HEAD.
Proof.
  intros H Hi. assert (forall y, y ∈ HEAD :: l -> 0 <= y <= HEAD) as Hr.
  { intros y [->|Hy]%elem_of_cons; [unfold HEAD; lia|].
    apply (ok_elem _ _ _ H) in Hy. unfold HEAD, NBUF in *. lia. }
  pose proof (co_ring _ _ H) as HR. apply elem_of_cons in Hi as [->|Hi].
  - split; apply Hr; [|by apply seg_last in HR]. apply seg_first in HR. set_solver.
  - apply list_elem_of_split in Hi as (l1 & l2 & ->). apply seg_app in HR as [R1 R2].
    split; apply Hr; [apply seg_first in R2|apply seg_last in R1]; set_solver.
Qed.

Lemma move_front_spec s l1 i l2 :
  cache_ok s (l1 ++ i :: l2) ->
  exists s', move_front i s = Ok (tt, s') /\ relinked s s' /\
    seg (nx s') (pv s') HEAD (i :: l1 ++ l2) HEAD.
Proof.
  intros H. set (l := l1 ++ i :: l2) in *. pose proof (co_len _ _ H) as Hl.
  assert (i ∈ l) as Hi by set_solver. pose proof (ok_NoDup _ _ H) as HN.
  destruct (ring_range s l i H) as [Rn Rp]; [by right|].
  destruct (ring_range s l HEAD H) as [Rh _]; [by left|].
  assert (i <> HEAD) as Hih by (intros ->; apply NoDup_cons in HN as [? _]; done).
  assert (0 <= i <= HEAD) as Ri.
  { apply (ok_elem _ _ _ H) in Hi. unfold HEAD, NBUF in *. lia. }
  assert (0 <= HEAD <= HEAD) as RH by (unfold HEAD; lia).
  pose proof (seg_unlink _ _ _ _ _ _ (co_ring _ _ H) HN) as HU.
  assert (NoDup (HEAD :: l1 ++ l2)) as HN'.
  { unfold l in HN. rewrite <- Permutation_middle, Permutation_swap in HN.
    by apply NoDup_cons in HN as [_ ?]. }
  assert (i ∉ HEAD :: l1 ++ l2) as Hni.
  { intros [->|Hin]%elem_of_cons; [done|]. apply NoDup_cons in HN as [_ HN].
    unfold l in HN. rewrite <- Permutation_middle in HN. by apply NoDup_cons in HN as [? _]. }
  assert (nx s i <> i) as Hne.
  { intros E. pose proof (co_ring _ _ H) as HR. apply seg_app in HR as [_ R2].
    apply seg_first in R2. rewrite E in R2. set_solver. }
  pose proof (seg_push _ _ _ _ _ HU HN' Hni) as HP.
  unfold move_front. erewrite M_bind_Ok; [|by apply getb_Ok].
  fold (nx s i). fold (pv s i).
  destruct (upd_prev s (nx s i) (pv s i) Hl Rn) as (s1 & E1 & R1 & N1 & P1). mrun E1.
  assert (length (bufs s1) = 31%nat) as Hl1 by (by rewrite (rl_len _ _ R1)).
  erewrite M_bind_Ok; [|by apply getb_Ok]. change (prev s1.[i]) with (pv s1 i).
  change (next s1.[i]) with (nx s1 i). rewrite P1, N1, updf_ne by done.
  destruct (upd_next s1 (pv s i) (nx s i) Hl1 Rp) as (s2 & E2 & R2 & N2 & P2). mrun E2.
  assert (length (bufs s2) = 31%nat) as Hl2 by (by rewrite (rl_len _ _ R2)).
  erewrite M_bind_Ok; [|by apply getb_Ok]. change (next s2.[HEAD]) with (nx s2 HEAD).
  set (h := nx s2 HEAD).
  assert (0 <= h <= HEAD) as Rh2.
  { unfold h. rewrite N2. unfold updf. destruct (HEAD =? pv s i); [done|by rewrite N1]. }
  destruct (upd_next s2 i h Hl2 Ri) as (s3 & E3 & R3 & N3 & P3). mrun E3.
  assert (length (bufs s3) = 31%nat) as Hl3 by (by rewrite (rl_len _ _ R3)).
  destruct (upd_prev s3 i HEAD Hl3 Ri) as (s4 & E4 & R4 & N4 & P4). mrun E4.
  assert (length (bufs s4) = 31%nat) as Hl4 by (by rewrite (rl_len _ _ R4)).
  erewrite M_bind_Ok; [|by apply getb_Ok]. change (next s4.[HEAD]) with (nx s4 HEAD).
  rewrite N4, N3, updf_ne by done. fold h.
  destruct (upd_prev s4 h i Hl4 Rh2) as (s5 & E5 & R5 & N5 & P5). mrun E5.
  assert (length (bufs s5) = 31%nat) as Hl5 by (by rewrite (rl_len _ _ R5)).
  destruct (upd_next s5 HEAD i Hl5 RH) as (s6 & E6 & R6 & N6 & P6).
  exists s6. split; [done|]. split; [eauto 10 using relinked_trans|].
  assert (updf (nx s) (pv s i) (nx s i) HEAD = h) as Eh.
  { unfold h. rewrite N2. unfold updf. by rewrite N1. }
  eapply seg_ext; [..|exact HP]; intros y _; rewrite Eh.
  - rewrite N6. unfold updf. rewrite N5, N4, N3. unfold updf. rewrite N2. unfold updf. by rewrite N1.
  - rewrite P6, P5. unfold updf. rewrite P4. unfold updf. rewrite P3, P2, P1. done.
Qed.

(** ** The operations that lock

    [me] is the calling process; the locks are free when they are taken, so
    one round of [acquiresleep] is enough. *)

Context (me : Z).

(** ** bwrite and brelse *)

(** [bwrite] makes the disk agree with the buffer. *)
Lemma bwrite_spec s l n i :
  cache_ok s l -> holds s n i -> valid s.[i] <> 0 -> 1 <= refcnt s.[i] ->
  block s.[i] = mksl 1 me ->
  exists s', bwrite me i s = Ok (tt, s') /\ cache_ok s' l /\ touch i s.[i] s s' /\
    (forall n', 0 <= n' < 2 ^ 31 -> disk_view (bst_d s') n' =
       if n' =? n then bdata s.[i] else disk_view (bst_d s) n') /\
    bst_tr s' = bst_tr s ++ [(n, bdata s.[i])] /\
    seen s s' n (bdata s.[i]) 0.
Proof.
  intros H Hh Hv Hr Hlk. pose proof Hh as (Hi & Hd & Hb). pose proof (co_len _ _ H) as Hl.
  assert (0 <= i <= HEAD) as Hi' by (unfold HEAD, NBUF in *; lia).
  destruct (disk_write_ok i n (bdata s.[i]) (bst_d s) (co_disk _ _ H) (co_block _ _ H _ _ Hh))
    as (d' & E & Hok & Hdv).
  unfold bwrite. erewrite M_bind_Ok; [|by apply getb_Ok].
  rewrite Hlk. unfold holdingsleep. cbn. rewrite Z.eqb_refl. cbn.
  unfold rw_queue. erewrite M_bind_Ok; [|by apply getb_Ok]. rewrite Hb.
  erewrite M_bind_Ok; [|rewrite E; reflexivity]. cbv beta iota. mgo.
  rewrite updb_Ok by done. eexists. split; [reflexivity|].
  assert (set_bdata (bdata s.[i]) s.[i] = s.[i]) as Es by (by destruct s.[i]).
  pose proof (touch_alter s i (set_bdata (bdata s.[i])) d' (bst_woken s) (bst_tr s ++ [(n, bdata s.[i])]) Hl Hi) as Ht.
  rewrite Es in Ht.
  pose proof (may_touch_same s l n i s.[i] H Hh eq_refl eq_refl eq_refl eq_refl) as Hm.
  pose proof (co_refcnt _ _ H i Hi) as Hc.
  assert (cache_ok (mkbst (alter (set_bdata (bdata s.[i])) (Z.to_nat i) (bufs s)) d' (bst_woken s)
    (bst_tr s ++ [(n, bdata s.[i])])) l) as H'.
  { apply (touch_ok Hm Ht); [lia|done| |lia]. intros n' Hn' Hne. cbn. rewrite Hdv by done.
    by destruct (Z.eqb_spec n' n). }
  split; [exact H'|]. split; [exact Ht|]. split; [exact Hdv|]. split; [done|].
  apply (touch_seen s _ l n i s.[i] 0 H Hh Hm Ht H'); [done|lia|].
  intros n' Hn' Hne. cbn. rewrite Hdv by done. by destruct (Z.eqb_spec n' n).
Qed.

Lemma brelse_spec s l n i :
  cache_ok s l -> holds s n i -> valid s.[i] <> 0 -> 1 <= refcnt s.[i] ->
  block s.[i] = mksl 1 me ->
  (refcnt s.[i] = 1 -> view s n = disk_view (bst_d s) n) ->
  exists s' l', brelse me i s = Ok (tt, s') /\ cache_ok s' l' /\ seen s s' n (view s n) (-1) /\
    (bst_d s' = bst_d s /\ bst_tr s' = bst_tr s) /\ holds s' n i /\ block s'.[i] = releasesleep (block s.[i]) /\
    (forall j, j <> i -> core s'.[j] = core s.[j]) /\
    (refcnt s.[i] <> 1 -> l' = l) /\
    (refcnt s.[i] = 1 -> forall l1 l2, l = l1 ++ i :: l2 -> l' = i :: l1 ++ l2).
Proof.
  intros H Hh Hv Hr Hlk Hclean. pose proof Hh as (Hi & Hd & Hb). pose proof (co_len _ _ H) as Hl.
  pose proof (co_refcnt _ _ H i Hi) as Hc. pose proof (view_holds _ _ _ _ H Hh) as Vh.
  destruct (Z.eqb_spec (valid s.[i]) 0) as [|_]; [done|].
  assert (0 <= i <= HEAD) as Hi' by (unfold HEAD, NBUF in *; lia).
  set (f := fun x => set_refcnt (u32 (refcnt x - 1)) (set_block (releasesleep (block x)) x)).
  destruct (updb_spec s l n i f (-1) H Hh) as (s1 & E1 & H1 & T1 & [D1 Dt1] & S1); cbn;
    rewrite ?u32_small by lia; try (done || lia).
  { intros E. split; [done|]. rewrite <- Vh. apply Hclean. lia. }
  assert (set_bufs (alter f (Z.to_nat i) (bufs s)) s = s1) as Es1.
  { rewrite updb_Ok in E1 by done. by injection E1. }
  set (s1' := mkbst (bufs s1) (bst_d s1) (i :: bst_woken s1) (bst_tr s1)).
  assert (relinked s1 s1') as Rw by (by split).
  assert (cache_ok s1' l) as H1' by (by eapply relinked_ok; [..|apply (co_ring _ _ H1)|]).
  unfold brelse. erewrite M_bind_Ok; [|by apply getb_Ok]. rewrite Hlk. unfold holdingsleep. cbn.
  rewrite Z.eqb_refl. cbn. erewrite M_bind_Ok; [|by apply updb_Ok]. mgo.
  erewrite M_bind_Ok; [|apply updb_Ok; [by cbn; rewrite length_alter|done]]. cbn [bufs set_bufs].
  rewrite alter_alter. unfold set_bufs. cbn [bst_d bst_woken bst_tr].
  change (alter _ (Z.to_nat i) (bufs s)) with (alter f (Z.to_nat i) (bufs s)).
  assert (mkbst (alter f (Z.to_nat i) (bufs s)) (bst_d s) (i :: bst_woken s) (bst_tr s) = s1') as ->.
  { unfold s1'. rewrite <- Es1. done. }
  erewrite M_bind_Ok; [|apply getb_Ok; [apply H1'|done]].
  assert (s1'.[i] = f s.[i]) as Ei by apply (to_at _ _ _ _ T1). rewrite Ei.
  change (refcnt (f s.[i])) with (u32 (refcnt s.[i] - 1)).
  rewrite u32_small by lia.
  assert (forall j, j <> i -> core s1'.[j] = core s.[j]) as Hoth.
  { intros j Hj. by rewrite <- (to_other _ _ _ _ T1 j Hj). }
  change (bdata (f s.[i])) with (bdata s.[i]) in S1. rewrite <- Vh in S1. assert (seen s s1' n (view s n) (-1)) as S1'.
  { destruct S1 as [A B]. split; intros n' Hn';
      destruct (relinked_seen s1 s1' l l n' Rw H1 H1') as [EA EB]; rewrite ?EA, ?EB; auto. }
  destruct (Z.eqb_spec (refcnt s.[i] - 1) 0) as [E0|E0].
  - fold (move_front i). assert (i ∈ l) as Hin by (by apply (ok_elem _ _ _ H)).
    apply list_elem_of_split in Hin as (l1 & l2 & El). rewrite El in H1'.
    destruct (move_front_spec s1' l1 i l2 H1') as (s2 & E2 & R2 & Q2).
    assert (cache_ok s2 (i :: l1 ++ l2)) as H2.
    { eapply relinked_ok; [exact R2|exact H1'|exact Q2|]. by rewrite Permutation_middle. }
    exists s2, (i :: l1 ++ l2). split; [exact E2|]. split; [done|]. split.
    { destruct S1' as [A B]. split; intros n' Hn';
        destruct (relinked_seen s1' s2 _ _ n' R2 H1' H2) as [EA EB]; rewrite ?EA, ?EB; auto. }
    split; [by rewrite (rl_d _ _ R2), (rl_tr _ _ R2)|]. split.
    { apply (relinked_holds _ _ _ _ R2). unfold holds. rewrite Ei. done. }
    split; [destruct (relinked_fields _ _ i R2) as (_ & _ & _ & -> & _); by rewrite Ei|].
    split; [intros j Hj; rewrite (rl_core _ _ R2); by apply Hoth|]. split; [lia|].
    intros _ m1 m2 Em. rewrite El in Em.
    assert (NoDup (l1 ++ i :: l2)) as HN.
    { pose proof (ok_NoDup _ _ H1') as HN. by apply NoDup_cons in HN as [_ ?]. }
    apply (NoDup_split_unique i) in Em as [-> ->]; done.
  - exists s1', l. split; [reflexivity|]. split; [done|]. split; [done|]. split; [done|].
    split; [unfold holds; rewrite Ei; done|]. split; [by rewrite Ei|]. split; [done|].
    split; [done|lia].
Qed.

Context (sleep : M (bst D) unit) (fuel : nat) (fuel_enough : (1 <= fuel)%nat).

(** ** bget *)

Lemma bacquire_Ok s i :
  length (bufs s) = 31%nat -> 0 <= i <= HEAD -> sl_locked (block s.[i]) = 0 ->
  bacquire me sleep fuel i s = Ok (tt, set_bufs (alter (set_block (mksl 1 me)) (Z.to_nat i) (bufs s)) s).
Proof.
  intros Hl Hi H. unfold bacquire. eapply acquiresleep_free; [done| |exact H|by apply updb_Ok].
  by rewrite (M_bind_Ok _ _ _ _ _ (getb_Ok _ _ Hl Hi)).
Qed.

(** What [bget] does to the one buffer it returns. *)
Inductive got s l (n i : Z) : buf -> Prop :=
| got_hit : holds s n i ->
    got s l n i (mkbuf (valid s.[i]) (dev s.[i]) (blockno s.[i]) (mksl 1 me)
                  (u32 (refcnt s.[i] + 1)) (prev s.[i]) (next s.[i]) (bdata s.[i]))
| got_recycled : (forall j, ~ holds s n j) -> last_unused s l = Some i ->
    got s l n i (mkbuf 0 dv n (mksl 1 me) 1 (prev s.[i]) (next s.[i]) (bdata s.[i])).

Lemma bget_spec s l n :
  cache_ok s l ->
  (forall i, holds s n i -> sl_locked (block s.[i]) = 0) ->
  (exists i, holds s n i) \/ (exists i, 0 <= i < NBUF /\ refcnt s.[i] = 0) ->
  exists i f, bget me sleep fuel dv n s = Ok (i, set_bufs (alter f (Z.to_nat i) (bufs s)) s) /\
    0 <= i < NBUF /\ got s l n i (f s.[i]).
Proof.
  intros H Hlk Hex. pose proof (co_len _ _ H) as Hl. pose proof (co_ring _ _ H) as HR.
  assert (forall i, i ∈ l -> 0 <= i < NBUF) as Hel by (intros i; apply (ok_elem _ _ _ H)).
  assert (forall i, 0 <= i < NBUF -> 0 <= i <= HEAD) as Hhd by (unfold HEAD, NBUF; lia).
  unfold bget. erewrite M_bind_Ok; [|apply getb_Ok; [done|unfold HEAD; lia]].
  change (next s.[HEAD]) with (nx s HEAD).
  erewrite M_bind_Ok; [|apply (bget_cached_spec s dv n walk_fuel l HEAD Hl HR);
    [unfold walk_fuel; rewrite (ok_length _ _ H); lia|done]].
  destruct (where_ s n) as [i|] eqn:Ew.
  - apply where_inv in Ew as Hi. pose proof Hi as [Hr _].
    rewrite (find_holds _ _ _ _ H Hi). cbv iota beta.
    exists i, (fun x => set_block (mksl 1 me) (set_refcnt (u32 (refcnt x + 1)) x)).
    erewrite M_bind_Ok; [|apply updb_Ok; auto].
    erewrite M_bind_Ok; [|apply bacquire_Ok; [by cbn; rewrite length_alter|auto|]].
    + split; [|split; [done|by apply got_hit]]. cbn. unfold set_bufs. cbn.
      by rewrite alter_alter.
    + cbn. rewrite at_alter_eq by (unfold NBUF in *; lia). by apply Hlk.
  - assert (forall j, ~ holds s n j) as Hno.
    { intros j Hj. rewrite (where_holds _ _ _ _ H Hj) in Ew. done. }
    rewrite (find_none _ _ _ H Hno). cbv iota beta.
    erewrite M_bind_Ok; [|apply getb_Ok; [done|unfold HEAD; lia]].
    change (prev s.[HEAD]) with (pv s HEAD).
    erewrite M_bind_Ok; [|apply (bget_unused_spec s walk_fuel l HEAD Hl HR);
      [unfold walk_fuel; rewrite (ok_length _ _ H); lia|done]].
    destruct Hex as [[j Hj]|(j & Hj & Hrj)]; [by destruct (Hno j)|].
    destruct (last_unused_is_Some s l j) as [i Ei]; [by apply (ok_elem _ _ _ H)|done|].
    destruct (last_unused_Some _ _ _ Ei) as [Hri (l1 & l2 & El & _)].
    assert (0 <= i < NBUF) as Hr by (apply Hel; rewrite El; set_solver).
    rewrite Ei. cbv iota beta.
    eexists i, (fun x => set_block (mksl 1 me) (mkbuf 0 dv n (block x) 1 (prev x) (next x) (bdata x))).
    erewrite M_bind_Ok; [|apply updb_Ok; auto].
    erewrite M_bind_Ok; [|apply bacquire_Ok; [by cbn; rewrite length_alter|auto|]].
    + split; [|split; [done|by apply got_recycled]]. cbn. unfold set_bufs. cbn.
      by rewrite alter_alter.
    + cbn. rewrite at_alter_eq by (unfold NBUF in *; lia). cbn. by apply (co_unlocked _ _ H).
Qed.

(** ** bread *)

(** What a caller of [bread] gets. *)
Record bread_post s l (n i : Z) s' : Prop := {
  br_ok : cache_ok s' l;
  br_holds : holds s' n i;
  br_lock : block s'.[i] = mksl 1 me;
  br_valid : valid s'.[i] <> 0;
  br_data : bdata s'.[i] = view s n;
  br_view : forall n', 0 <= n' < 2 ^ 31 -> view s' n' = view s n';
  br_rc : forall n', 0 <= n' < 2 ^ 31 -> rc s' n' = rc s n' + (if n' =? n then 1 else 0);
  br_disk : forall n', 0 <= n' < 2 ^ 31 -> disk_view (bst_d s') n' = disk_view (bst_d s) n';
  br_other : forall j, j <> i -> s'.[j] = s.[j];
  br_tr : bst_tr s' = bst_tr s
}.

Lemma got_may_touch s l n i x :
  cache_ok s l -> 0 <= n < 2 ^ 31 -> 0 <= i < NBUF -> got s l n i x ->
  may_touch s l n i x.
Proof.
  intros H Hn Hi G. destruct G as [Hh|Hno Hlast].
  - split; cbn; first [done|apply Hh|by left|intros j Hj; by eapply (co_uniq _ _ H)].
  - apply last_unused_Some in Hlast as [Hr _].
    split; cbn; first [done|by right|intros j Hj; by destruct (Hno j)].
Qed.

Lemma got_fields s l n i x :
  cache_ok s l -> rc s n < 2 ^ 32 - 1 -> got s l n i x ->
  refcnt x = rc s n + 1 /\ block x = mksl 1 me /\ dev x = dv /\ blockno x = n /\
  (valid x <> 0 -> bdata x = view s n) /\ (valid x = 0 -> view s n = disk_view (bst_d s) n) /\
  0 <= rc s n.
Proof.
  intros H Hrc G. destruct G as [Hh|Hno Hlast]; cbn.
  - pose proof (co_refcnt _ _ H i (proj1 Hh)) as Hr. rewrite (rc_holds _ _ _ _ H Hh) in *.
    rewrite (view_holds _ _ _ _ H Hh), u32_small by lia.
    split; [done|]. split; [done|]. split; [apply Hh|]. split; [apply Hh|].
    destruct (Z.eqb_spec (valid s.[i]) 0); (split; [done|]); (split; [done|]); lia.
  - unfold rc. rewrite where_none, view_none by done. done.
Qed.

(** The tail of [bread]: read the block unless the buffer is valid. *)
Lemma rw_queue_read s l n i x s' :
  may_touch s l n i x -> touch i x s s' -> bst_d s' = bst_d s ->
  exists s'' d', rw_queue i 0 s' = Ok (tt, s'') /\ (bst_d s'' = d' /\ bst_tr s'' = bst_tr s') /\ disk_ok d' /\
    (forall n', 0 <= n' < 2 ^ 31 -> disk_view d' n' = disk_view (bst_d s) n') /\
    touch i (set_bdata (disk_view (bst_d s) n) x) s s''.
Proof.
  intros Hm Ht Ed. pose proof (mt_ok _ _ _ _ _ Hm) as H. pose proof (mt_i _ _ _ _ _ Hm) as Hi.
  destruct (disk_read_ok i n (bdata x) (bst_d s) (co_disk _ _ H) (mt_n _ _ _ _ _ Hm))
    as (d' & E & Hok & Hv).
  pose proof (to_len _ _ _ _ Ht) as Hl.
  unfold rw_queue. erewrite M_bind_Ok; [|apply getb_Ok; [done|unfold HEAD, NBUF in *; lia]].
  rewrite (to_at _ _ _ _ Ht), (mt_blockno _ _ _ _ _ Hm).
  erewrite M_bind_Ok; [|rewrite Ed, E; reflexivity]. cbv beta iota. mgo.
  rewrite updb_Ok by (done || unfold HEAD, NBUF in *; lia).
  eexists _, d'. split; [reflexivity|]. split; [done|]. split; [done|]. split; [done|].
  eapply touch_trans; [exact Ht|]. rewrite <- (to_at _ _ _ _ Ht).
  by apply (touch_alter s' i (set_bdata _) d' (bst_woken s') (bst_tr s')).
Qed.

Lemma bread_finish s l n i x y s' :
  may_touch s l n i x -> touch i y s s' -> rc s n < 2 ^ 32 - 1 -> 0 <= rc s n ->
  dev y = dv -> blockno y = n -> prev y = prev x /\ next y = next x ->
  refcnt y = rc s n + 1 -> block y = mksl 1 me -> valid y <> 0 -> bdata y = view s n ->
  disk_ok (bst_d s') ->
  (forall n', 0 <= n' < 2 ^ 31 -> disk_view (bst_d s') n' = disk_view (bst_d s) n') ->
  bst_tr s' = bst_tr s -> bread_post s l n i s'.
Proof.
  intros Hm Ht Hrc Hrc0 Hdev Hbn [Hp Hn] Hr Hb Hv Hd Hok Hdv Htr.
  assert (may_touch s l n i y) as Hm'.
  { destruct Hm as [? ? ? ? ? [L1 L2] ? ?]. split; try done. split; congruence. }
  assert (cache_ok s' l) as H'.
  { apply (touch_ok Hm' Ht); [lia|done| |lia]. intros n' Hn' _. by apply Hdv. }
  destruct (touch_this Hm' Ht H' Hv) as [V1 R1].
  split; try done.
  - apply (touch_holds Hm' Ht). by left.
  - by rewrite (to_at _ _ _ _ Ht).
  - by rewrite (to_at _ _ _ _ Ht).
  - by rewrite (to_at _ _ _ _ Ht).
  - intros n' Hn'. destruct (decide (n' = n)) as [->|Hne]; [congruence|].
    by apply (touch_other Hm' Ht n' H' Hne), Hdv.
  - intros n' Hn'. destruct (Z.eqb_spec n' n) as [->|Hne]; [lia|].
    rewrite Z.add_0_r. by apply (touch_other Hm' Ht n' H' Hne), Hdv.
  - apply (to_other _ _ _ _ Ht).
Qed.

Lemma bread_spec s l n :
  cache_ok s l -> 0 <= n < 2 ^ 31 -> rc s n < 2 ^ 32 - 1 ->
  (forall i, holds s n i -> sl_locked (block s.[i]) = 0) ->
  (exists i, holds s n i) \/ (exists i, 0 <= i < NBUF /\ refcnt s.[i] = 0) ->
  exists i s', bread me sleep fuel dv n s = Ok (i, s') /\ bread_post s l n i s'.
Proof.
  intros H Hn Hrc Hlk Hex. destruct (bget_spec s l n H Hlk Hex) as (i & f & E & Hi & G).
  pose proof (got_may_touch _ _ _ _ _ H Hn Hi G) as Hm.
  destruct (got_fields _ _ _ _ _ H Hrc G) as (F1 & F2 & F3 & F4 & F5 & F6 & F7).
  pose proof (touch_alter s i f (bst_d s) (bst_woken s) (bst_tr s) (co_len _ _ H) Hi) as Ht.
  unfold bread. mrun E. fold (set_bufs (alter f (Z.to_nat i) (bufs s)) s) in Ht.
  set (s1 := set_bufs _ s) in *. pose proof (to_len _ _ _ _ Ht) as Hl1.
  erewrite M_bind_Ok; [|apply getb_Ok; [done|unfold HEAD, NBUF in *; lia]].
  rewrite (to_at _ _ _ _ Ht). destruct (Z.eqb_spec (valid (f s.[i])) 0) as [E0|E0].
  - destruct (rw_queue_read s l n i _ s1 Hm Ht eq_refl) as (s2 & d' & E2 & [Ed Et] & Hok & Hv & Ht2).
    rewrite M_bind_assoc. mrun E2. pose proof (to_len _ _ _ _ Ht2) as Hl2.
    erewrite M_bind_Ok; [|apply updb_Ok; [done|unfold HEAD, NBUF in *; lia]]. cbv beta.
    eexists i, _. split; [reflexivity|].
    pose proof (touch_alter s2 i (set_valid 1) (bst_d s2) (bst_woken s2) (bst_tr s2) Hl2 Hi) as Ht3.
    rewrite (to_at _ _ _ _ Ht2) in Ht3.
    eapply (bread_finish s l n i _ _ _ Hm (touch_trans _ _ _ _ _ _ Ht2 Ht3));
      cbn; rewrite ?Ed; try done. by rewrite F6.
  - mgo. eexists i, s1. split; [reflexivity|].
    eapply (bread_finish s l n i _ _ _ Hm Ht); try done; [auto|apply (co_disk _ _ H)].
Qed.

End spec.
