(* ===== verification/BioThms.v ===== *)
(** * Theorems about the buffer cache *)

From S2P Require Import Prelude Sleeplock Disk Bio BioRing BioSpec.

Section thms.
Context {D : Type} `{!Disk D}.
Implicit Types (s : bst D) (l : list Z).

(** The statics before [binit]. *)
Definition bst_zero (d : D) : bst D := mkbst (replicate 31 buf0) d [] [].

(** The buffer [binit] leaves in cell [i]. *)
Definition binit_buf (i : Z) : buf :=
  mkbuf 0 0 0 initsleeplock 0
    (if i =? HEAD then 0 else if i =? NBUF - 1 then HEAD else i + 1)
    (if i =? HEAD then NBUF - 1 else if i =? 0 then HEAD else i - 1) [].

Definition bst_init (d : D) : bst D := mkbst (binit_buf <$> seqZ 0 31) d [] [].

Lemma binit_run d : binit (bst_zero d) = Ok (tt, bst_init d).
Proof. vm_compute. reflexivity. Qed.

Definition binit_order : list Z := reverse (seqZ 0 NBUF).

Lemma bst_init_at d i : 0 <= i <= HEAD -> at_ (bufs (bst_init d)) i = binit_buf i.
Proof.
  intros Hi. unfold at_, zidx. destruct (Z.leb_spec 0 i); [|lia]. cbn [bufs bst_init].
  rewrite list_lookup_fmap, lookup_seqZ_lt by (unfold HEAD in *; lia). cbn.
  do 2 f_equal. lia.
Qed.

Lemma bst_init_ok dv d : dv <> 0 -> disk_ok d -> cache_ok dv (bst_init d) binit_order.
Proof.
  intros Hdv Hd.
  assert (forall i, 0 <= i < NBUF -> at_ (bufs (bst_init d)) i = binit_buf i) as E.
  { intros i Hi. apply bst_init_at. unfold HEAD, NBUF in *. lia. }
  assert (forall n i, ~ holds dv (bst_init d) n i) as Hno.
  { intros n i (Hi & Hd' & _). rewrite E in Hd' by done. cbn in Hd'. congruence. }
  split; try done.
  - unfold binit_order. by rewrite reverse_Permutation.
  - intros i Hi. right. by rewrite E.
  - intros n i j Hi. by destruct (Hno n i).
  - intros n i Hi. by destruct (Hno n i).
  - intros i Hi. rewrite E by done. cbn. lia.
  - intros n i Hi. by destruct (Hno n i).
  - intros i Hi. by rewrite E.
Qed.

(** [binit] builds the circular list: it succeeds on the zeroed statics
    and establishes the cache invariant, with the last buffer of the array
    first; every block then looks as it is on disk. *)
Theorem binit_correct dv d n (Hdv : dv <> 0) (Hd : disk_ok d) :
  exists s, binit (bst_zero d) = Ok (tt, s) /\ cache_ok dv s binit_order /\
    view dv s n = disk_view d n /\ rc dv s n = 0.
Proof.
  exists (bst_init d). split; [apply binit_run|]. pose proof (bst_init_ok dv d Hdv Hd) as H.
  assert (forall i, ~ holds dv (bst_init d) n i) as Hno.
  { intros i (Hi & Hd' & _). rewrite bst_init_at in Hd' by (unfold HEAD, NBUF in *; lia).
    cbn in Hd'. congruence. }
  split; [done|]. split; [by apply view_none|]. unfold rc. by rewrite where_none.
Qed.


(** a block that is not cached gets the least recently released buffer
    among those without references, and [bget] panics when every buffer is
    referenced; the walks along the list terminate. *)
Theorem bget_recycles_lru me sleep fuel dv s l n
    (H : cache_ok dv s l) (Hfuel : (1 <= fuel)%nat)
    (Hmiss : forall i, ~ holds dv s n i) :
  (exists i s', bget me sleep fuel dv n s = Ok (i, s') /\ refcnt (at_ (bufs s) i) = 0 /\
     holds dv s' n i /\
     exists l1 l2, l = l1 ++ i :: l2 /\ forall j, j ∈ l2 -> refcnt (at_ (bufs s) j) <> 0) \/
  (bget me sleep fuel dv n s = Panic "bget: no buffers" /\
     forall i, 0 <= i < NBUF -> refcnt (at_ (bufs s) i) <> 0).
Proof.
  destruct (decide (Exists (fun i => refcnt (at_ (bufs s) i) = 0) l)) as [Hex|Hno].
  - left. apply Exists_exists in Hex as (j & Hj & Hr). apply (ok_elem _ _ _ _ H) in Hj.
    destruct (bget_spec dv me sleep fuel Hfuel s l n H) as (i & f & E & Hi & G).
    { intros k Hk. by destruct (Hmiss k). }
    { right. eauto. }
    exists i. eexists. split; [exact E|].
    pose proof (touch_alter s i f (bst_d s) (bst_woken s) (bst_tr s) (co_len _ _ _ H) Hi) as Ht.
    pose proof (to_at _ _ _ _ Ht) as Ea.
    destruct G as [Hh|_ Hlast]; [by destruct (Hmiss i)|].
    apply last_unused_Some in Hlast as [Hri Hl]. split; [done|]. split; [|done].
    split; [done|]. unfold set_bufs. rewrite Ea. done.
  - right. assert (forall i, 0 <= i < NBUF -> refcnt (at_ (bufs s) i) <> 0) as Hall.
    { intros i Hi Hr. apply Hno, Exists_exists. exists i. split; [by apply (ok_elem _ _ _ _ H)|done]. }
    split; [|done]. pose proof (co_len _ _ _ H) as Hl. pose proof (co_ring _ _ _ H) as HR.
    assert (forall i, i ∈ l -> 0 <= i < NBUF) as Hel by (intros i; apply (ok_elem _ _ _ _ H)).
    unfold bget. erewrite M_bind_Ok; [|apply getb_Ok; [done|unfold HEAD; lia]].
    change (next (at_ (bufs s) HEAD)) with (nx s HEAD).
    erewrite M_bind_Ok; [|apply (bget_cached_spec s dv n walk_fuel l HEAD Hl HR);
      [unfold walk_fuel; rewrite (ok_length _ _ _ H); lia|done]].
    rewrite (find_none _ _ _ _ H Hmiss). cbv iota beta.
    erewrite M_bind_Ok; [|apply getb_Ok; [done|unfold HEAD; lia]].
    change (prev (at_ (bufs s) HEAD)) with (pv s HEAD).
    erewrite M_bind_Ok; [|apply (bget_unused_spec s walk_fuel l HEAD Hl HR);
      [unfold walk_fuel; rewrite (ok_length _ _ _ H); lia|done]].
    destruct (last_unused s l) as [i|] eqn:E; [|done].
    apply last_unused_Some in E as [Hr (l1 & l2 & El & _)]. destruct (Hall i); [|done].
    apply Hel. rewrite El. set_solver.
Qed.

(** [brelse] by the holder unlocks the buffer and drops one reference; the
    last one moves the buffer to the front of the list, the others leave the
    order alone.  Every block keeps its content, provided a buffer that loses
    its last reference has been written (or pinned by the log). *)
Theorem brelse_correct me dv s l n i
    (H : cache_ok dv s l) (Hh : holds dv s n i) (Hv : valid (at_ (bufs s) i) <> 0)
    (Hr : 1 <= refcnt (at_ (bufs s) i)) (Hlk : block (at_ (bufs s) i) = mksl 1 me)
    (Hclean : refcnt (at_ (bufs s) i) = 1 -> view dv s n = disk_view (bst_d s) n) :
  exists s' l', brelse me i s = Ok (tt, s') /\ cache_ok dv s' l' /\
    seen dv s s' n (view dv s n) (-1) /\ sl_locked (block (at_ (bufs s') i)) = 0 /\
    (refcnt (at_ (bufs s) i) <> 1 -> l' = l) /\
    (refcnt (at_ (bufs s) i) = 1 -> forall l1 l2, l = l1 ++ i :: l2 -> l' = i :: l1 ++ l2).
Proof.
  destruct (brelse_spec dv me s l n i H Hh Hv Hr Hlk Hclean)
    as (s' & l' & E & H' & S & _ & _ & Hb & _ & L1 & L2).
  exists s', l'. split; [done|]. split; [done|]. split; [done|]. split; [by rewrite Hb|]. done.
Qed.

(** only the holder of a buffer's lock may write or release it: for any
    other process [bwrite] and [brelse] panic and nothing changes. *)
Theorem bwrite_brelse_need_lock me s i
    (Hl : length (bufs s) = 31%nat) (Hi : 0 <= i <= HEAD)
    (Hno : holdingsleep me (block (at_ (bufs s) i)) = false) :
  bwrite me i s = Panic "bwrite" /\ brelse me i s = Panic "brelse".
Proof.
  unfold bwrite, brelse. split; (erewrite M_bind_Ok; [|by apply getb_Ok]); by rewrite Hno.
Qed.

(** The calls of a file-system update of one block: read it, change it, write
    it, release it. *)
Definition update_block (me : Z) (sleep : M (bst D) unit) (fuel : nat) (dv n : Z) (v : list Z)
  : M (bst D) unit :=
  b ← bread me sleep fuel dv n;
  updb b (set_bdata v);;
  bwrite me b;;
  brelse me b.

(** a block written through the cache is on the disk: after a restart with
    an empty cache over the same disk [bread] returns what was written, and
    every other block is as it was. *)
Theorem written_block_survives_restart me sleep fuel dv s l n n' v
    (H : cache_ok dv s l) (Hfuel : (1 <= fuel)%nat) (Hn : 0 <= n < 2 ^ 31)
    (Hrc : rc dv s n < 2 ^ 32 - 1)
    (Hfree : forall i, holds dv s n i -> sl_locked (block (at_ (bufs s) i)) = 0)
    (Hroom : (exists i, holds dv s n i) \/ (exists i, 0 <= i < NBUF /\ refcnt (at_ (bufs s) i) = 0))
    (Hn' : 0 <= n' < 2 ^ 31) :
  exists s' b s'', update_block me sleep fuel dv n v s = Ok (tt, s') /\
    bread me sleep fuel dv n' (bst_init (bst_d s')) = Ok (b, s'') /\
    bdata (at_ (bufs s'') b) = if n' =? n then v else disk_view (bst_d s) n'.
Proof.
  destruct (bread_spec dv me sleep fuel Hfuel s l n H Hn Hrc Hfree Hroom) as (b & s1 & E1 & P1).
  destruct P1 as [H1 Hh1 Hlk1 Hv1 _ _ R1 D1 _ _].
  assert (1 <= refcnt (at_ (bufs s1) b)) as Hr1.
  { rewrite <- (rc_holds _ _ _ _ _ H1 Hh1), R1, Z.eqb_refl by done.
    unfold rc. destruct (where_ dv s n) as [i|] eqn:Ew; [|lia].
    apply where_inv in Ew as (Hi & _). pose proof (co_refcnt _ _ _ H i Hi). lia. }
  destruct (set_bdata_spec dv s1 l n b v H1 Hh1 Hv1 Hr1) as (s2 & E2 & H2 & T2 & [D2 _] & S2).
  assert (holds dv s2 n b) as Hh2.
  { unfold holds. rewrite (to_at _ _ _ _ T2). exact Hh1. }
  destruct (bwrite_spec dv me s2 l n b H2 Hh2) as (s3 & E3 & H3 & T3 & D3 & _ & S3);
    [by rewrite (to_at _ _ _ _ T2)..|].
  assert (at_ (bufs s3) b = set_bdata v (at_ (bufs s1) b)) as Ea.
  { by rewrite (to_at _ _ _ _ T3), (to_at _ _ _ _ T2). }
  destruct (brelse_spec dv me s3 l n b H3) as (s4 & l4 & E4 & H4 & S4 & [D4 _] & _);
    [unfold holds; rewrite Ea; exact Hh1|rewrite Ea; exact Hv1|rewrite Ea; exact Hr1|rewrite Ea; exact Hlk1
    |intros _; by rewrite (se_view _ _ _ _ _ _ S3), D3, Z.eqb_refl by done|].
  exists s4. pose proof (bst_init_ok dv (bst_d s4) (co_dv _ _ _ H4) (co_disk _ _ _ H4)) as H5.
  assert (forall m i, ~ holds dv (bst_init (bst_d s4)) m i) as Hno.
  { intros m i (Hi & Hd' & _). rewrite bst_init_at in Hd' by (unfold HEAD, NBUF in *; lia).
    cbn in Hd'. by destruct (co_dv _ _ _ H4). }
  destruct (bread_spec dv me sleep fuel Hfuel _ _ n' H5 Hn') as (b' & s5 & E5 & P5).
  { unfold rc. rewrite where_none by apply Hno. lia. }
  { intros i Hi. by destruct (Hno n' i). }
  { right. exists 0. split; [unfold NBUF; lia|]. rewrite bst_init_at by (unfold HEAD; lia). done. }
  exists b', s5. split; [|split; [exact E5|]].
  - unfold update_block. mrun E1. mrun E2. mrun E3. exact E4.
  - rewrite (br_data _ _ _ _ _ _ _ P5), view_none by apply Hno. cbn [bst_d bst_init].
    rewrite D4, D3 by done. rewrite (to_at _ _ _ _ T2). cbn.
    destruct (n' =? n); [done|]. by rewrite D2, D1.
Qed.

End thms.

(** ** Witnesses: a cache over a disk whose block [n] is [[n]], process 7 *)

Definition demo_disk : Z -> list Z := fun n => [n].
Definition demo_cache : bst (Z -> list Z) := bst_init demo_disk.

Lemma demo_cache_ok : cache_ok 1 demo_cache binit_order.
Proof. by apply bst_init_ok. Qed.

Lemma demo_no_block n i : ~ holds 1 demo_cache n i.
Proof.
  intros (Hi & Hd & _). unfold demo_cache in Hd.
  rewrite bst_init_at in Hd by (unfold HEAD, NBUF in *; lia). cbn in Hd. lia.
Qed.

Lemma demo_rc n : rc 1 demo_cache n = 0.
Proof. unfold rc. rewrite where_none; [done|apply demo_no_block]. Qed.

Lemma demo_room : exists i, 0 <= i < NBUF /\ refcnt (at_ (bufs demo_cache) i) = 0.
Proof. exists 0. split; [unfold NBUF; lia|]. vm_compute. reflexivity. Qed.

Lemma binit_correct_witness :
  exists s, binit (bst_zero demo_disk) = Ok (tt, s) /\ view 1 s 4 = [4].
Proof.
  destruct (binit_correct 1 demo_disk 4 ltac:(lia) ltac:(exact Logic.I)) as (s & E & _ & V & _).
  exists s. split; [exact E|exact V].
Defined.


Lemma bget_recycles_lru_witness :
  (exists i s', bget 7 (mret tt) 1 1 4 demo_cache = Ok (i, s') /\
     refcnt (at_ (bufs demo_cache) i) = 0) \/
  bget 7 (mret tt) 1 1 4 demo_cache = Panic "bget: no buffers".
Proof.
  destruct (bget_recycles_lru 7 (mret tt) 1 1 demo_cache binit_order 4 demo_cache_ok ltac:(lia)
    (demo_no_block 4)) as [(i & s' & E & Hr & _)|[E _]]; [left|right].
  - exists i, s'. split; [exact E|exact Hr].
  - exact E.
Defined.

(** Block 4 read by process 7: buffer 0, the least recently used. *)
Definition demo_read : bst (Z -> list Z) :=
  snd (ok_or (0, demo_cache) (bread 7 (mret tt) 1 1 4 demo_cache)).

Lemma demo_read_post : bread_post 1 7 demo_cache binit_order 4 0 demo_read.
Proof.
  destruct (bread_spec 1 7 (mret tt) 1 ltac:(lia) demo_cache binit_order 4 demo_cache_ok)
    as (b & s' & E & P); [lia|rewrite demo_rc; lia| |right; apply demo_room|].
  { intros i Hi. by destruct (demo_no_block _ _ Hi). }
  assert (b = 0 /\ s' = demo_read) as [-> ->]; [|exact P].
  unfold demo_read. rewrite E. cbn. split; [|done].
  assert (is_ok (bread 7 (mret tt) 1 1 4 demo_cache) = true) as Hok by (vm_compute; reflexivity).
  assert (fst (ok_or (0, demo_cache) (bread 7 (mret tt) 1 1 4 demo_cache)) = 0) as H0
    by (vm_compute; reflexivity).
  rewrite E in H0. exact H0.
Qed.

Lemma brelse_correct_witness :
  exists s' l', brelse 7 0 demo_read = Ok (tt, s') /\ cache_ok 1 s' l' /\
    sl_locked (block (at_ (bufs s') 0)) = 0.
Proof.
  destruct (brelse_correct 7 1 demo_read binit_order 4 0 (br_ok _ _ _ _ _ _ _ demo_read_post)
    (br_holds _ _ _ _ _ _ _ demo_read_post) (br_valid _ _ _ _ _ _ _ demo_read_post)
    ltac:(vm_compute; congruence) (br_lock _ _ _ _ _ _ _ demo_read_post)
    ltac:(intros _; vm_compute; reflexivity)) as (s' & l' & E & H' & _ & Hu & _).
  exists s', l'. split; [exact E|]. split; [exact H'|exact Hu].
Defined.

Lemma bwrite_brelse_need_lock_witness :
  bwrite 8 0 demo_read = Panic "bwrite" /\ brelse 8 0 demo_read = Panic "brelse".
Proof.
  exact (bwrite_brelse_need_lock 8 demo_read 0 (co_len _ _ _ (br_ok _ _ _ _ _ _ _ demo_read_post))
    ltac:(unfold HEAD; lia) ltac:(vm_compute; reflexivity)).
Defined.

Lemma written_block_survives_restart_witness :
  exists s' b s'', update_block 7 (mret tt) 1 1 4 [9; 9] demo_cache = Ok (tt, s') /\
    bread 7 (mret tt) 1 1 4 (bst_init (bst_d s')) = Ok (b, s'') /\
    bdata (at_ (bufs s'') b) = [9; 9].
Proof.
  exact (written_block_survives_restart 7 (mret tt) 1 1 demo_cache binit_order 4 4 [9; 9]
    demo_cache_ok ltac:(lia) ltac:(lia) ltac:(rewrite demo_rc; lia)
    (fun i Hi => False_ind _ (demo_no_block _ _ Hi)) (or_intror demo_room) ltac:(lia)).
Defined.
