(* ===== verification/Cache.v ===== *)
(** * Interface between the log and the buffer cache

    What kernel/log.c relies on when it calls kernel/bio.c, as a class: every
    operation acts on the abstract state [acache] (what each block looks like,
    what is on the disk, how often a buffer is referenced, which buffers the
    caller holds, what was written so far) as a function on [acache] says.
    BioCache proves it of the model of kernel/bio.c. *)

From S2P Require Import Prelude.

Record acache : Type := mka {
  a_view : Z -> list Z;        (* content seen through the cache *)
  a_disk : Z -> list Z;        (* content of the disk *)
  a_rc : Z -> Z;               (* references to the block's buffer *)
  a_held : list (Z * Z);       (* buffer, block: locked by the caller *)
  a_tr : list (Z * list Z)     (* writes to the disk, earliest first *)
}.

Definition fset {A} (f : Z -> A) (n : Z) (v : A) : Z -> A :=
  fun k => if k =? n then v else f k.

Lemma fset_eq {A} (f : Z -> A) n v : fset f n v n = v.
Proof. unfold fset. by rewrite Z.eqb_refl. Qed.

Lemma fset_ne {A} (f : Z -> A) n v k : k <> n -> fset f n v k = f k.
Proof. intros. unfold fset. by destruct (Z.eqb_spec k n). Qed.

(** Block numbers whose sectors fit in 32 bits. *)
Definition blk (n : Z) : Prop := 0 <= n < 2 ^ 31.

Definition a_bread (b n : Z) (a : acache) : acache :=
  mka (a_view a) (a_disk a) (fset (a_rc a) n (a_rc a n + 1)) ((b, n) :: a_held a) (a_tr a).

Definition a_put (n : Z) (v : list Z) (a : acache) : acache :=
  mka (fset (a_view a) n v) (a_disk a) (a_rc a) (a_held a) (a_tr a).

Definition a_bwrite (n : Z) (a : acache) : acache :=
  mka (a_view a) (fset (a_disk a) n (a_view a n)) (a_rc a) (a_held a)
    (a_tr a ++ [(n, a_view a n)]).

Definition a_brelse (b n : Z) (a : acache) : acache :=
  mka (a_view a) (a_disk a) (fset (a_rc a) n (a_rc a n - 1))
    (List.filter (fun p => negb (fst p =? b)) (a_held a)) (a_tr a).

Definition a_bpin (n : Z) (a : acache) : acache :=
  mka (a_view a) (a_disk a) (fset (a_rc a) n (a_rc a n + 1)) (a_held a) (a_tr a).

Definition a_bunpin (n : Z) (a : acache) : acache :=
  mka (a_view a) (a_disk a) (fset (a_rc a) n (a_rc a n - 1)) (a_held a) (a_tr a).

(** A buffer can be found for block [n]: it is referenced already, or fewer
    than [NBUF] blocks are. *)
Definition a_room (a : acache) (n : Z) : Prop :=
  a_rc a n <> 0 \/
  exists L, (forall m, blk m -> a_rc a m <> 0 -> m ∈ L) /\ (length L < 30)%nat.

Class BufferCache (S : Type) : Type := {
  bc_bread : Z -> M S Z;
  bc_get : Z -> M S (list Z);              (* b->data *)
  bc_put : Z -> list Z -> M S unit;        (* b->data = v *)
  bc_blockno : Z -> M S Z;                 (* b->blockno *)
  bc_bwrite : Z -> M S unit;
  bc_brelse : Z -> M S unit;
  bc_bpin : Z -> M S unit;
  bc_bunpin : Z -> M S unit;
  bc_tr : S -> list (Z * list Z);          (* writes to the disk so far *)
  bc_abs : S -> acache -> Prop;
  bc_tr_ok : forall s a, bc_abs s a -> bc_tr s = a_tr a;
  bc_rc_range : forall s a n, bc_abs s a -> blk n -> 0 <= a_rc a n;
  bc_clean : forall s a n, bc_abs s a -> blk n -> a_rc a n = 0 -> a_view a n = a_disk a n;
  bc_held_ok : forall s a b n, bc_abs s a -> (b, n) ∈ a_held a -> blk n /\ 1 <= a_rc a n;
  bc_bread_ok : forall s a n, bc_abs s a -> blk n -> n ∉ (a_held a).*2 ->
    a_rc a n < 2 ^ 32 - 1 -> a_room a n ->
    exists b s', bc_bread n s = Ok (b, s') /\ bc_abs s' (a_bread b n a) /\ b ∉ (a_held a).*1;
  bc_get_ok : forall s a b n, bc_abs s a -> (b, n) ∈ a_held a ->
    bc_get b s = Ok (a_view a n, s);
  bc_put_ok : forall s a b n v, bc_abs s a -> (b, n) ∈ a_held a ->
    exists s', bc_put b v s = Ok (tt, s') /\ bc_abs s' (a_put n v a);
  bc_blockno_ok : forall s a b n, bc_abs s a -> (b, n) ∈ a_held a ->
    bc_blockno b s = Ok (n, s);
  bc_bwrite_ok : forall s a b n, bc_abs s a -> (b, n) ∈ a_held a ->
    exists s', bc_bwrite b s = Ok (tt, s') /\ bc_abs s' (a_bwrite n a);
  bc_brelse_ok : forall s a b n, bc_abs s a -> (b, n) ∈ a_held a ->
    (a_rc a n = 1 -> a_view a n = a_disk a n) ->
    exists s', bc_brelse b s = Ok (tt, s') /\ bc_abs s' (a_brelse b n a);
  bc_bpin_ok : forall s a b n, bc_abs s a -> (b, n) ∈ a_held a -> a_rc a n < 2 ^ 32 - 1 ->
    exists s', bc_bpin b s = Ok (tt, s') /\ bc_abs s' (a_bpin n a);
  bc_bunpin_ok : forall s a b n, bc_abs s a -> (b, n) ∈ a_held a -> 2 <= a_rc a n ->
    exists s', bc_bunpin b s = Ok (tt, s') /\ bc_abs s' (a_bunpin n a)
}.
