(* ===== verification/BioCache.v ===== *)
(** * kernel/bio.c implements the cache interface

    The refinement of the model of kernel/bio.c to [acache]: [bio_abs] relates
    the buffers, links and locks to the abstract state, and every operation
    preserves the relation ([bio_cache], the instance of [BufferCache]). *)

From S2P Require Import Prelude Sleeplock Disk Bio BioRing BioSpec BioThms Cache.

Section instance.
Context {D : Type} `{!Disk D}.
Context (dv me : Z) (sleep : M (bst D) unit) (fuel : nat).
Implicit Types (s : bst D) (a : acache).

Notation "s .[ i ]" := (at_ (bufs s) i) (at level 2, format "s .[ i ]").

Record bio_abs s a : Prop := {
  ab_fuel : (1 <= fuel)%nat;
  ab_ok : exists l, cache_ok dv s l;
  ab_view : forall n, blk n -> view dv s n = a_view a n;
  ab_disk : forall n, blk n -> disk_view (bst_d s) n = a_disk a n;
  ab_rc : forall n, blk n -> rc dv s n = a_rc a n;
  ab_tr : bst_tr s = a_tr a;
  ab_fst : NoDup (a_held a).*1;
  ab_held : forall b n, (b, n) ∈ a_held a ->
    holds dv s n b /\ valid s.[b] <> 0 /\ block s.[b] = mksl 1 me /\ 1 <= refcnt s.[b];
  ab_unlocked : forall i, 0 <= i < NBUF -> i ∉ (a_held a).*1 -> sl_locked (block s.[i]) = 0
}.

Lemma held_blk s a b n l : cache_ok dv s l -> bio_abs s a -> (b, n) ∈ a_held a -> blk n.
Proof. intros H A Hb. apply (ab_held _ _ A) in Hb as [Hh _]. by eapply (co_block _ _ _ H). Qed.

(** All buffers referenced means [NBUF] distinct blocks referenced. *)
Lemma room_unused s a l n :
  cache_ok dv s l -> bio_abs s a -> blk n -> a_room a n ->
  (exists i, holds dv s n i) \/ (exists i, 0 <= i < NBUF /\ refcnt s.[i] = 0).
Proof.
  intros H A Hn [Hr|(L & HL & Hlen)].
  - left. rewrite <- (ab_rc _ _ A n Hn) in Hr. unfold rc in Hr.
    destruct (where_ dv s n) as [i|] eqn:E; [|done]. apply where_inv in E. eauto.
  - destruct (decide (Exists (fun i => refcnt s.[i] = 0) (seqZ 0 NBUF))) as [Hex|Hno].
    { right. apply Exists_exists in Hex as (i & Hi & Hr). apply elem_of_seqZ in Hi.
      exists i. split; [lia|done]. }
    exfalso. assert (forall i, 0 <= i < NBUF -> refcnt s.[i] <> 0) as Hall.
    { intros i Hi Hr. apply Hno, Exists_exists. exists i. split; [apply elem_of_seqZ; lia|done]. }
    assert (forall i, 0 <= i < NBUF -> holds dv s (blockno s.[i]) i) as Hh.
    { intros i Hi. split; [done|]. destruct (co_dev _ _ _ H i Hi) as [?|[_ Hr]]; [done|].
      by destruct (Hall i). }
    assert ((fun i => blockno s.[i]) <$> seqZ 0 NBUF ⊆+ L) as Hsub.
    { apply NoDup_submseteq.
      - apply NoDup_fmap_2_strong; [|apply NoDup_seqZ]. intros i j Hi Hj E.
        apply elem_of_seqZ in Hi, Hj. eapply (co_uniq _ _ _ H (blockno s.[i])); [apply Hh; lia|].
        rewrite E. apply Hh. lia.
      - intros m (i & -> & Hi)%list_elem_of_fmap. apply elem_of_seqZ in Hi.
        assert (holds dv s (blockno s.[i]) i) as Hi' by (apply Hh; lia).
        pose proof (co_block _ _ _ H _ _ Hi') as Hb. apply HL; [done|].
        rewrite <- (ab_rc _ _ A _ Hb), (rc_holds _ _ _ _ _ H Hi'). apply Hall. lia. }
    apply submseteq_length in Hsub. rewrite length_fmap, length_seqZ in Hsub. unfold NBUF in Hsub. lia.
Qed.

Lemma held_unique s a b b' n l :
  cache_ok dv s l -> bio_abs s a -> (b, n) ∈ a_held a -> (b', n) ∈ a_held a -> b = b'.
Proof.
  intros H A Hb Hb'. apply (ab_held _ _ A) in Hb as [Hh _], Hb' as [Hh' _].
  by eapply (co_uniq _ _ _ H).
Qed.

Lemma bio_bread_ok s a n :
  bio_abs s a -> blk n -> n ∉ (a_held a).*2 -> a_rc a n < 2 ^ 32 - 1 -> a_room a n ->
  exists b s', bread me sleep fuel dv n s = Ok (b, s') /\ bio_abs s' (a_bread b n a) /\
    b ∉ (a_held a).*1.
Proof.
  intros A Hn Hnh Hrc Hroom. destruct (ab_ok _ _ A) as [l H].
  assert (forall i, holds dv s n i -> i ∉ (a_held a).*1) as Hnot.
  { intros i Hi ([b m] & -> & Hin)%list_elem_of_fmap. cbn in *.
    pose proof (ab_held _ _ A _ _ Hin) as [Hh _]. destruct Hi as (_ & _ & Ei).
    destruct Hh as (_ & _ & Em). apply Hnh. apply list_elem_of_fmap. exists (b, m). cbn. split; [|done].
    congruence. }
  destruct (bread_spec dv me sleep fuel (ab_fuel _ _ A) s l n H Hn) as (b & s' & E & P).
  - by rewrite (ab_rc _ _ A n Hn).
  - intros i Hi. apply (ab_unlocked _ _ A); [apply Hi|by apply Hnot].
  - by eapply room_unused.
  - assert (b ∉ (a_held a).*1) as Hb.
    { intros ([b' m] & -> & Hin)%list_elem_of_fmap. cbn in *.
      pose proof (ab_held _ _ A _ _ Hin) as (Hh & _ & _ & Hr).
      pose proof (br_holds _ _ _ _ _ _ _ P) as (Hi & _ & Hbn).
      assert (m <> n) as Hmn.
      { intros ->. apply Hnh. apply list_elem_of_fmap. by exists (b', n). }
      pose proof (co_block _ _ _ H _ _ Hh) as Hm.
      pose proof (br_rc _ _ _ _ _ _ _ P m Hm) as R. destruct (Z.eqb_spec m n); [done|].
      assert (forall j, ~ holds dv s' m j) as Hno.
      { intros j Hj. assert (j <> b') as Hjb by (intros ->; destruct Hj as (_ & _ & ?); congruence).
        apply Hjb. eapply (co_uniq _ _ _ H m); [|exact Hh].
        unfold holds in *. by rewrite <- (br_other _ _ _ _ _ _ _ P j Hjb). }
      unfold rc in R at 1. rewrite where_none in R by done.
      rewrite (rc_holds _ _ _ _ _ H Hh) in R. lia. }
    exists b, s'. split; [done|]. split; [|done].
    pose proof P as [P1 P2 P3 P4 P5 P6 P7 P8 P9 P10].
    split; cbn.
    + apply A.
    + by exists l.
    + intros m Hm. rewrite P6 by done. by apply A.
    + intros m Hm. rewrite P8 by done. by apply A.
    + intros m Hm. rewrite P7, (ab_rc _ _ A m Hm) by done. unfold fset.
      destruct (Z.eqb_spec m n) as [->|]; lia.
    + rewrite P10. apply A.
    + constructor; [done|apply A].
    + intros b' m [[= -> ->]|Hin]%elem_of_cons.
      * split; [done|]. split; [done|]. split; [done|].
        rewrite <- (rc_holds _ _ _ _ _ P1 P2), P7, Z.eqb_refl by done.
        unfold rc. destruct (where_ dv s n) as [i|] eqn:Ew; [|lia].
        apply where_inv in Ew as (Hi & _). pose proof (co_refcnt _ _ _ H i Hi). lia.
      * assert (b' <> b) as Hne.
        { intros ->. apply Hb. apply list_elem_of_fmap. by exists (b, m). }
        unfold holds. rewrite P9 by done. by apply (ab_held _ _ A).
    + intros i Hi Hin. apply not_elem_of_cons in Hin as [Hne Hin].
      rewrite P9 by done. by apply (ab_unlocked _ _ A).
Qed.

(** A change of a held buffer that keeps its block and its lock. *)
Lemma abs_touch s s' a a' l b n x v k :
  bio_abs s a -> (b, n) ∈ a_held a -> cache_ok dv s' l -> touch b x s s' ->
  valid x <> 0 -> block x = mksl 1 me -> dev x = dv -> blockno x = n -> 1 <= refcnt x ->
  seen dv s s' n v k -> a_held a' = a_held a -> bst_tr s' = a_tr a' ->
  (forall m, blk m -> a_view a' m = if m =? n then v else a_view a m) ->
  (forall m, blk m -> a_rc a' m = a_rc a m + (if m =? n then k else 0)) ->
  (forall m, blk m -> disk_view (bst_d s') m = a_disk a' m) ->
  bio_abs s' a'.
Proof.
  intros A Hb H' T Hv Hlk Hd Hbn Hr S Hh Htr Hview Hrc Hdisk.
  destruct (ab_held _ _ A _ _ Hb) as [(Hi & _) _].
  split; rewrite ?Hh; try done.
  - apply A.
  - by exists l.
  - intros m Hm. rewrite (se_view _ _ _ _ _ _ S), Hview by done.
    destruct (m =? n); [done|by apply A].
  - intros m Hm. rewrite (se_rc _ _ _ _ _ _ S), Hrc by done. by rewrite (ab_rc _ _ A).
  - apply A.
  - intros b' m Hin. destruct (decide (b' = b)) as [->|Hne].
    + assert (m = n) as ->.
      { pose proof (ab_held _ _ A _ _ Hb) as [(_ & _ & E1) _].
        pose proof (ab_held _ _ A _ _ Hin) as [(_ & _ & E2) _]. congruence. }
      unfold holds. rewrite (to_at _ _ _ _ T). done.
    + unfold holds. rewrite (to_other _ _ _ _ T) by done. by apply (ab_held _ _ A).
  - intros i Hri Hin. assert (i <> b) as Hne.
    { intros ->. apply Hin. apply list_elem_of_fmap. by exists (b, n). }
    rewrite (to_other _ _ _ _ T) by done. by apply (ab_unlocked _ _ A).
Qed.

Lemma held_rc s a l b n :
  cache_ok dv s l -> bio_abs s a -> (b, n) ∈ a_held a ->
  blk n /\ refcnt s.[b] = a_rc a n /\ bdata s.[b] = a_view a n.
Proof.
  intros H A Hb. pose proof (held_blk _ _ _ _ _ H A Hb) as Hn.
  destruct (ab_held _ _ A _ _ Hb) as (Hh & Hv & _). split; [done|].
  rewrite <- (ab_rc _ _ A n Hn), (rc_holds _ _ _ _ _ H Hh). split; [done|].
  rewrite <- (ab_view _ _ A n Hn), (view_holds _ _ _ _ _ H Hh).
  by destruct (Z.eqb_spec (valid s.[b]) 0).
Qed.

Lemma bio_get_ok s a b n :
  bio_abs s a -> (b, n) ∈ a_held a -> (x ← getb b; mret (bdata x)) s = Ok (a_view a n, s).
Proof.
  intros A Hb. destruct (ab_ok _ _ A) as [l H]. destruct (held_rc _ _ _ _ _ H A Hb) as (_ & _ & E).
  destruct (ab_held _ _ A _ _ Hb) as ((Hi & _) & _).
  erewrite M_bind_Ok; [|apply getb_Ok; [apply H|unfold HEAD, NBUF in *; lia]]. by rewrite E.
Qed.

Lemma bio_blockno_ok s a b n :
  bio_abs s a -> (b, n) ∈ a_held a -> (x ← getb b; mret (blockno x)) s = Ok (n, s).
Proof.
  intros A Hb. destruct (ab_ok _ _ A) as [l H]. destruct (ab_held _ _ A _ _ Hb) as ((Hi & _ & E) & _).
  erewrite M_bind_Ok; [|apply getb_Ok; [apply H|unfold HEAD, NBUF in *; lia]]. by rewrite E.
Qed.

Lemma fset_alt {A} (f : Z -> A) n v m : fset f n v m = if m =? n then v else f m.
Proof. done. Qed.

Lemma fset_rc (f : Z -> Z) n k m : fset f n (f n + k) m = f m + (if m =? n then k else 0).
Proof. unfold fset. destruct (Z.eqb_spec m n) as [->|]; lia. Qed.

Lemma bio_put_ok s a b n v :
  bio_abs s a -> (b, n) ∈ a_held a ->
  exists s', updb b (set_bdata v) s = Ok (tt, s') /\ bio_abs s' (a_put n v a).
Proof.
  intros A Hb. destruct (ab_ok _ _ A) as [l H].
  destruct (ab_held _ _ A _ _ Hb) as (Hh & Hv & Hlk & Hr).
  destruct (set_bdata_spec dv s l n b v H Hh Hv Hr) as (s' & E & H' & T & [Ed Et] & S).
  exists s'. split; [done|].
  eapply (abs_touch s s' a _ l b n _ v 0); try done; [apply Hh|apply Hh|..].
  - rewrite Et. apply A.
  - intros m Hm. cbn. destruct (m =? n); lia.
  - intros m Hm. rewrite Ed. by apply A.
Qed.

Lemma bio_bwrite_ok s a b n :
  bio_abs s a -> (b, n) ∈ a_held a ->
  exists s', bwrite me b s = Ok (tt, s') /\ bio_abs s' (a_bwrite n a).
Proof.
  intros A Hb. destruct (ab_ok _ _ A) as [l H]. destruct (held_rc _ _ _ _ _ H A Hb) as (Hn & _ & Ev).
  destruct (ab_held _ _ A _ _ Hb) as (Hh & Hv & Hlk & Hr).
  destruct (bwrite_spec dv me s l n b H Hh Hv Hr Hlk) as (s' & E & H' & T & Ed & Et & S).
  exists s'. split; [done|].
  eapply (abs_touch s s' a _ l b n _ _ 0); try done; [apply Hh|apply Hh|..].
  - rewrite Et, Ev. cbn. by rewrite (ab_tr _ _ A).
  - intros m Hm. cbn. destruct (Z.eqb_spec m n) as [->|]; [by rewrite Ev|done].
  - intros m Hm. cbn. destruct (m =? n); lia.
  - intros m Hm. cbn. rewrite Ed, fset_alt by done. destruct (m =? n); [done|by apply A].
Qed.

Lemma bio_bpin_ok s a b n :
  bio_abs s a -> (b, n) ∈ a_held a -> a_rc a n < 2 ^ 32 - 1 ->
  exists s', bpin b s = Ok (tt, s') /\ bio_abs s' (a_bpin n a).
Proof.
  intros A Hb Hlt. destruct (ab_ok _ _ A) as [l H].
  destruct (held_rc _ _ _ _ _ H A Hb) as (Hn & Er & Ev).
  destruct (ab_held _ _ A _ _ Hb) as (Hh & Hv & Hlk & Hr).
  destruct (bpin_spec dv s l n b H Hh Hv) as (s' & E & H' & T & [Ed Et] & S); [lia|].
  exists s'. split; [done|].
  eapply (abs_touch s s' a _ l b n _ _ 1); try done; [apply Hh|apply Hh|cbn; lia|..].
  - rewrite Et. apply A.
  - intros m Hm. cbn. destruct (Z.eqb_spec m n) as [->|]; [by rewrite Ev|done].
  - intros m Hm. cbn. apply fset_rc.
  - intros m Hm. rewrite Ed. by apply A.
Qed.

Lemma bio_bunpin_ok s a b n :
  bio_abs s a -> (b, n) ∈ a_held a -> 2 <= a_rc a n ->
  exists s', bunpin b s = Ok (tt, s') /\ bio_abs s' (a_bunpin n a).
Proof.
  intros A Hb Hge. destruct (ab_ok _ _ A) as [l H].
  destruct (held_rc _ _ _ _ _ H A Hb) as (Hn & Er & Ev).
  destruct (ab_held _ _ A _ _ Hb) as (Hh & Hv & Hlk & Hr).
  destruct (bunpin_spec dv s l n b H Hh Hv) as (s' & E & H' & T & [Ed Et] & S); [lia|].
  exists s'. split; [done|].
  eapply (abs_touch s s' a _ l b n _ _ (-1)); try done; [apply Hh|apply Hh|cbn; lia|..].
  - rewrite Et. apply A.
  - intros m Hm. cbn. destruct (Z.eqb_spec m n) as [->|]; [by rewrite Ev|done].
  - intros m Hm. cbn. rewrite <- fset_rc. done.
  - intros m Hm. rewrite Ed. by apply A.
Qed.

Lemma bio_brelse_ok s a b n :
  bio_abs s a -> (b, n) ∈ a_held a -> (a_rc a n = 1 -> a_view a n = a_disk a n) ->
  exists s', brelse me b s = Ok (tt, s') /\ bio_abs s' (a_brelse b n a).
Proof.
  intros A Hb Hclean. destruct (ab_ok _ _ A) as [l H].
  destruct (held_rc _ _ _ _ _ H A Hb) as (Hn & Er & Ev).
  destruct (ab_held _ _ A _ _ Hb) as (Hh & Hv & Hlk & Hr).
  destruct (brelse_spec dv me s l n b H Hh Hv Hr Hlk) as
    (s' & l' & E & H' & S & [Ed Et] & Hh' & Hb' & Hoth & _).
  { rewrite Er. intros E. rewrite (ab_view _ _ A n Hn), (ab_disk _ _ A n Hn). by apply Hclean. }
  assert (forall p, p ∈ List.filter (fun p => negb (fst p =? b)) (a_held a) <->
    p ∈ a_held a /\ fst p <> b) as Hf.
  { intros p. rewrite !list_elem_of_In, filter_In, negb_true_iff, Z.eqb_neq. done. }
  assert (forall j, j <> b -> valid s'.[j] = valid s.[j] /\ dev s'.[j] = dev s.[j] /\
    blockno s'.[j] = blockno s.[j] /\ block s'.[j] = block s.[j] /\ refcnt s'.[j] = refcnt s.[j]) as Hfld.
  { intros j Hj. specialize (Hoth j Hj). unfold core in Hoth. by simplify_eq. }
  exists s'. split; [done|]. split; cbn; try (by apply A).
  - by exists l'.
  - intros m Hm. rewrite (se_view _ _ _ _ _ _ S) by done.
    destruct (Z.eqb_spec m n) as [->|]; by apply A.
  - intros m Hm. rewrite Ed. by apply A.
  - intros m Hm. rewrite (se_rc _ _ _ _ _ _ S), (ab_rc _ _ A m Hm) by done. symmetry. apply fset_rc.
  - rewrite Et. apply A.
  - pose proof (ab_fst _ _ A) as HN. clear -HN. induction (a_held a) as [|[c m] h IH]; [constructor|].
    cbn in *. apply NoDup_cons in HN as [Hc HN]. destruct (negb (c =? b)); cbn; [|auto].
    constructor; [|auto]. intros ([c' m'] & -> & Hin)%list_elem_of_fmap. apply Hc.
    apply list_elem_of_fmap. exists (c', m'). split; [done|].
    rewrite list_elem_of_In in Hin |- *. by apply filter_In in Hin as [? _].
  - intros b' m [Hin Hne]%Hf. cbn in Hne. destruct (Hfld b' Hne) as (-> & F2 & F3 & -> & ->).
    unfold holds. rewrite F2, F3. by apply (ab_held _ _ A).
  - intros i Hri Hin. destruct (decide (i = b)) as [->|Hne]; [by rewrite Hb'|].
    destruct (Hfld i Hne) as (_ & _ & _ & -> & _). apply (ab_unlocked _ _ A); [done|].
    intros ([c m] & -> & Hin')%list_elem_of_fmap. apply Hin. apply list_elem_of_fmap.
    exists (c, m). split; [done|]. by apply Hf.
Qed.

Lemma bio_rc_range s a n : bio_abs s a -> blk n -> 0 <= a_rc a n.
Proof.
  intros A Hn. destruct (ab_ok _ _ A) as [l H]. rewrite <- (ab_rc _ _ A n Hn). unfold rc.
  destruct (where_ dv s n) as [i|] eqn:E; [|lia]. apply where_inv in E as [Hi _].
  apply (co_refcnt _ _ _ H i Hi).
Qed.

Lemma bio_clean s a n : bio_abs s a -> blk n -> a_rc a n = 0 -> a_view a n = a_disk a n.
Proof.
  intros A Hn. destruct (ab_ok _ _ A) as [l H].
  rewrite <- (ab_rc _ _ A n Hn), <- (ab_view _ _ A n Hn), <- (ab_disk _ _ A n Hn).
  by apply (view_clean _ _ l).
Qed.

Lemma bio_held_ok s a b n : bio_abs s a -> (b, n) ∈ a_held a -> blk n /\ 1 <= a_rc a n.
Proof.
  intros A Hb. destruct (ab_ok _ _ A) as [l H].
  destruct (held_rc _ _ _ _ _ H A Hb) as (Hn & Er & _).
  destruct (ab_held _ _ A _ _ Hb) as (_ & _ & _ & Hr). split; [done|lia].
Qed.

#[export] Instance bio_cache : BufferCache (bst D) := {
  bc_bread := bread me sleep fuel dv;
  bc_get := fun b => x ← getb b; mret (bdata x);
  bc_put := fun b v => updb b (set_bdata v);
  bc_blockno := fun b => x ← getb b; mret (blockno x);
  bc_bwrite := bwrite me;
  bc_brelse := brelse me;
  bc_bpin := bpin;
  bc_bunpin := bunpin;
  bc_tr := bst_tr;
  bc_abs := bio_abs;
  bc_tr_ok := ab_tr;
  bc_rc_range := bio_rc_range;
  bc_clean := bio_clean;
  bc_held_ok := bio_held_ok;
  bc_bread_ok := bio_bread_ok;
  bc_get_ok := bio_get_ok;
  bc_put_ok := bio_put_ok;
  bc_blockno_ok := bio_blockno_ok;
  bc_bwrite_ok := bio_bwrite_ok;
  bc_brelse_ok := bio_brelse_ok;
  bc_bpin_ok := bio_bpin_ok;
  bc_bunpin_ok := bio_bunpin_ok
}.

(** The cache [binit] leaves, over the disk [d]. *)
Definition a_init (d : D) : acache := mka (disk_view d) (disk_view d) (fun _ => 0) [] [].

Lemma bio_abs_init d : dv <> 0 -> disk_ok d -> (1 <= fuel)%nat -> bio_abs (bst_init d) (a_init d).
Proof.
  intros Hdv Hd Hf.
  assert (forall n i, ~ holds dv (bst_init d) n i) as Hno.
  { intros n i (Hi & Hd' & _). rewrite bst_init_at in Hd' by (unfold HEAD, NBUF in *; lia).
    cbn in Hd'. congruence. }
  split; cbn -[bst_init NBUF]; try done.
  - exists binit_order. by apply bst_init_ok.
  - intros n Hn. by rewrite view_none.
  - intros n Hn. unfold rc. by rewrite where_none.
  - constructor.
  - intros b n H. by apply not_elem_of_nil in H.
  - intros i Hi _. by rewrite bst_init_at by (unfold HEAD, NBUF in *; lia).
Qed.

End instance.
