(* ===== verification/Bytes.v ===== *)
(** * Integers in blocks

    A block is a list of bytes; a C [int] or [uint] inside it (through a cast
    of [buf->data] to a struct) is four bytes, least significant first. *)

From S2P Require Import Prelude.

#[local] Ltac Zify.zify_post_hook ::= Z.to_euclidean_division_equations.

Definition byte_at (d : list Z) (off : nat) : Z := default 0 (d !! off).

Definition get16 (d : list Z) (off : nat) : Z := byte_at d off + 256 * byte_at d (off + 1).

Definition get32 (d : list Z) (off : nat) : Z :=
  get16 d off + 65536 * get16 d (off + 2).

Definition put16 (d : list Z) (off : nat) (v : Z) : list Z :=
  <[(off + 1)%nat := (v / 256) mod 256]> (<[off := v mod 256]> d).

Definition put32 (d : list Z) (off : nat) (v : Z) : list Z :=
  put16 (put16 d off v) (off + 2) (v / 65536).

Lemma length_put16 d off v : length (put16 d off v) = length d.
Proof. unfold put16. by rewrite !length_insert. Qed.

Lemma length_put32 d off v : length (put32 d off v) = length d.
Proof. unfold put32. by rewrite !length_put16. Qed.

Lemma byte_insert_eq d off v : (off < length d)%nat -> byte_at (<[off := v]> d) off = v.
Proof. intros. unfold byte_at. by rewrite list_lookup_insert_eq. Qed.

Lemma byte_insert_ne d off off' v : off <> off' -> byte_at (<[off := v]> d) off' = byte_at d off'.
Proof. intros. unfold byte_at. by rewrite list_lookup_insert_ne. Qed.

Lemma get16_put16_eq d off v :
  (off + 1 < length d)%nat -> get16 (put16 d off v) off = u16 v.
Proof.
  intros H. unfold get16, put16, u16.
  rewrite (byte_insert_ne _ (off + 1)), byte_insert_eq, byte_insert_eq by (rewrite ?length_insert; lia).
  lia.
Qed.

Lemma get16_put16_ne d off off' v :
  (off + 2 <= off' \/ off' + 2 <= off)%nat -> get16 (put16 d off v) off' = get16 d off'.
Proof. intros H. unfold get16, put16. by rewrite !byte_insert_ne by lia. Qed.

Lemma get32_put32_eq d off v :
  (off + 3 < length d)%nat -> get32 (put32 d off v) off = u32 v.
Proof.
  intros H. unfold get32, put32. rewrite get16_put16_ne, !get16_put16_eq by (rewrite ?length_put16; lia).
  unfold u16, u32. lia.
Qed.

Lemma get32_put32_ne d off off' v :
  (off + 4 <= off' \/ off' + 4 <= off)%nat -> get32 (put32 d off v) off' = get32 d off'.
Proof. intros H. unfold get32, put32. by rewrite !get16_put16_ne by lia. Qed.

Lemma get16_put32_ne d off off' v :
  (off + 4 <= off' \/ off' + 2 <= off)%nat -> get16 (put32 d off v) off' = get16 d off'.
Proof. intros H. unfold put32. by rewrite !get16_put16_ne by lia. Qed.

Lemma get32_put16_ne d off off' v :
  (off + 2 <= off' \/ off' + 4 <= off)%nat -> get32 (put16 d off v) off' = get32 d off'.
Proof. intros H. unfold get32. by rewrite !get16_put16_ne by lia. Qed.

Definition bytes_ok (d : list Z) : Prop := Forall (fun b => 0 <= b < 256) d.

Lemma byte_at_range d off : bytes_ok d -> 0 <= byte_at d off < 256.
Proof.
  intros H. unfold byte_at. destruct (d !! off) as [b|] eqn:E; cbn; [|lia].
  by eapply (Forall_lookup_1 _ _ _ _ H).
Qed.

Lemma get16_range d off : bytes_ok d -> 0 <= get16 d off < 2 ^ 16.
Proof.
  intros H. unfold get16. pose proof (byte_at_range d off H).
  pose proof (byte_at_range d (off + 1) H). lia.
Qed.

Lemma get32_range d off : bytes_ok d -> 0 <= get32 d off < 2 ^ 32.
Proof.
  intros H. unfold get32. pose proof (get16_range d off H).
  pose proof (get16_range d (off + 2) H). lia.
Qed.

(** [memmove(dst, src, n)] between two blocks. *)
Definition copy_bytes (n : nat) (dst src : list Z) : list Z := take n src ++ drop n dst.

Lemma copy_bytes_all n dst src : length dst = n -> length src = n -> copy_bytes n dst src = src.
Proof. intros H1 H2. unfold copy_bytes. rewrite take_ge, drop_ge by lia. apply app_nil_r. Qed.

Lemma length_copy_bytes n dst src :
  (n <= length src)%nat -> (n <= length dst)%nat -> length (copy_bytes n dst src) = length dst.
Proof. intros. unfold copy_bytes. rewrite length_app, length_take, length_drop. lia. Qed.

#[export] Hint Rewrite length_put16 length_put32 : kernel.
