(* ===== verification/Log.v ===== *)
(** * The write-ahead log (kernel/log.c)

    One definition per function of kernel/log.c, over any buffer cache.  The
    in-memory [struct log] is the record [log]; the header block on disk is
    read and written byte by byte.  [begin_op] sleeps through the argument
    [sleep]; the number of [wakeup(&log)] calls is counted. *)

From S2P Require Import Prelude Cache Bytes.

Definition LOGSIZE : Z := 30.
Definition MAXOPBLOCKS : Z := 10.
Definition BSIZE : Z := 1024.

Record log : Type := mklog {
  l_start : Z; l_size : Z; outstanding : Z; committing : Z; l_dev : Z;
  lh_n : Z; lh_block : list Z
}.

Definition set_outstanding v l := mklog (l_start l) (l_size l) v (committing l) (l_dev l) (lh_n l) (lh_block l).
Definition set_committing v l := mklog (l_start l) (l_size l) (outstanding l) v (l_dev l) (lh_n l) (lh_block l).
Definition set_lh_n v l := mklog (l_start l) (l_size l) (outstanding l) (committing l) (l_dev l) v (lh_block l).
Definition set_lh_block v l := mklog (l_start l) (l_size l) (outstanding l) (committing l) (l_dev l) (lh_n l) v.

Record lst (C : Type) : Type := mkl { lg : log; lc : C; lg_wakeups : nat }.
Arguments mkl {C} lg lc lg_wakeups.
Arguments lg {C} _.
Arguments lc {C} _.
Arguments lg_wakeups {C} _.

Definition set_lg {C} (f : log -> log) (s : lst C) : lst C := mkl (f (lg s)) (lc s) (lg_wakeups s).

Section log.
Context {C : Type} `{!BufferCache C}.
Notation L := (M (lst C)).

Definition on_c {A} (m : M C A) : L A :=
  zoom lc (fun c s => mkl (lg s) c (lg_wakeups s)) m.

Definition upd_lg (f : log -> log) : L unit := modify (set_lg f).

(** [bread(log.dev, n)], the block number converted to [uint] *)
Definition lread (n : Z) : L Z := on_c (bc_bread (u32 n)).

(** ** The header block *)

(** [lh->block[i]] is at byte [4 + 4 * i]. *)
Definition blk_off (i : nat) : nat := (4 + 4 * i)%nat.

Fixpoint read_blocks (k : nat) (i : nat) (data : list Z) : L unit :=
  match k with
  | O => mret tt
  | S k' =>
      blocks ← gets (fun s => lh_block (lg s));
      blocks' ← lift (wr blocks (Z.of_nat i) (s32 (get32 data (blk_off i))));
      upd_lg (set_lh_block blocks');;
      read_blocks k' (i + 1) data
  end.

Definition read_head : L unit :=
  st ← gets (fun s => l_start (lg s));
  buf ← lread st;
  data ← on_c (bc_get buf);
  upd_lg (set_lh_n (s32 (get32 data 0)));;
  n ← gets (fun s => lh_n (lg s));
  read_blocks (Z.to_nat n) 0 data;;
  on_c (bc_brelse buf).

(** [for (i = 0; i < log.lh.n; i++) hb->block[i] = log.lh.block[i]] *)
Fixpoint put_blocks (k : nat) (i : nat) (blocks : list Z) (data : list Z) : res (list Z) :=
  match k with
  | O => Ok data
  | S k' =>
      b ← rd blocks (Z.of_nat i);
      put_blocks k' (i + 1) blocks (put32 data (blk_off i) (u32 b))
  end.

Definition write_head : L unit :=
  st ← gets (fun s => l_start (lg s));
  buf ← lread st;
  data ← on_c (bc_get buf);
  l ← gets lg;
  data' ← lift (put_blocks (Z.to_nat (lh_n l)) 0 (lh_block l) (put32 data 0 (u32 (lh_n l))));
  on_c (bc_put buf data');;
  on_c (bc_bwrite buf);;
  on_c (bc_brelse buf).

(** ** Copying between log and home locations *)

Fixpoint install_from (recovering : bool) (k : nat) (tail : Z) : L unit :=
  match k with
  | O => mret tt
  | S k' =>
      l ← gets lg;
      lbuf ← lread (l_start l + tail + 1);
      n ← lift (rd (lh_block l) tail);
      dbuf ← lread n;
      ld ← on_c (bc_get lbuf);
      dd ← on_c (bc_get dbuf);
      on_c (bc_put dbuf (copy_bytes (Z.to_nat BSIZE) dd ld));;
      on_c (bc_bwrite dbuf);;
      when (negb recovering) (on_c (bc_bunpin dbuf));;
      on_c (bc_brelse lbuf);;
      on_c (bc_brelse dbuf);;
      install_from recovering k' (tail + 1)
  end.

Definition install_trans (recovering : bool) : L unit :=
  n ← gets (fun s => lh_n (lg s));
  install_from recovering (Z.to_nat n) 0.

Fixpoint write_log_from (k : nat) (tail : Z) : L unit :=
  match k with
  | O => mret tt
  | S k' =>
      l ← gets lg;
      to ← lread (l_start l + tail + 1);
      n ← lift (rd (lh_block l) tail);
      from ← lread n;
      fd ← on_c (bc_get from);
      td ← on_c (bc_get to);
      on_c (bc_put to (copy_bytes (Z.to_nat BSIZE) td fd));;
      on_c (bc_bwrite to);;
      on_c (bc_brelse from);;
      on_c (bc_brelse to);;
      write_log_from k' (tail + 1)
  end.

Definition write_log : L unit :=
  n ← gets (fun s => lh_n (lg s));
  write_log_from (Z.to_nat n) 0.

Definition commit : L unit :=
  n ← gets (fun s => lh_n (lg s));
  if 0 <? n then
    write_log;;
    write_head;;
    install_trans false;;
    upd_lg (set_lh_n 0);;
    write_head
  else mret tt.

Definition recover_from_log : L unit :=
  read_head;;
  install_trans true;;
  upd_lg (set_lh_n 0);;
  write_head.

(** [sizeof(struct logheader)] *)
Definition sizeof_logheader : Z := 4 + 4 * LOGSIZE.

Definition initlog (dev logstart nlog : Z) : L unit :=
  if BSIZE <=? sizeof_logheader then panic "initlog: too big logheader" else
  upd_lg (fun l => mklog (s32 logstart) (s32 nlog) (outstanding l) (committing l) dev (lh_n l) (lh_block l));;
  recover_from_log.

(** ** Operations *)

Fixpoint begin_op (sleep : L unit) (fuel : nat) : L unit :=
  match fuel with
  | O => hang
  | S k =>
      l ← gets lg;
      if negb (committing l =? 0) then sleep;; begin_op sleep k
      else if LOGSIZE <? lh_n l + (outstanding l + 1) * MAXOPBLOCKS then
        sleep;; begin_op sleep k
      else upd_lg (fun l => set_outstanding (outstanding l + 1) l)
  end.

Definition log_wakeup : L unit := modify (fun s => mkl (lg s) (lc s) (lg_wakeups s + 1)).

(** [end_op] up to the release of [log.lock]: is this the last operation in
    progress, which commits? *)
Definition end_op_enter : L bool :=
  upd_lg (fun l => set_outstanding (outstanding l - 1) l);;
  l ← gets lg;
  if negb (committing l =? 0) then panic "log.committing" else
  if outstanding l =? 0 then
    upd_lg (set_committing 1);;
    mret true
  else
    log_wakeup;;
    mret false.

(** [end_op] after the commit, again under [log.lock]. *)
Definition end_op_leave : L unit :=
  upd_lg (set_committing 0);;
  log_wakeup.

Definition end_op : L unit :=
  do_commit ← end_op_enter;
  if do_commit : bool then
    commit;;
    end_op_leave
  else mret tt.

(** The first [i] below [n] with [log.lh.block[i] == blockno], or [n]. *)
Fixpoint find_block (k : nat) (i : Z) (blocks : list Z) (blockno : Z) : res Z :=
  match k with
  | O => Ok i
  | S k' =>
      b ← rd blocks i;
      if u32 b =? blockno then Ok i else find_block k' (i + 1) blocks blockno
  end.

Definition log_write (b : Z) : L unit :=
  l ← gets lg;
  if (LOGSIZE <=? lh_n l) || (l_size l - 1 <=? lh_n l) then panic "too big a transaction" else
  if outstanding l <? 1 then panic "log_write outside of trans" else
  blockno ← on_c (bc_blockno b);
  i ← lift (find_block (Z.to_nat (lh_n l)) 0 (lh_block l) blockno);
  blocks' ← lift (wr (lh_block l) i (s32 blockno));
  upd_lg (set_lh_block blocks');;
  if i =? lh_n l then
    on_c (bc_bpin b);;
    upd_lg (fun l => set_lh_n (lh_n l + 1) l)
  else mret tt.

End log.
