(* ===== verification/LogSpec.v ===== *)
(** * What the log's functions do

    Specifications of kernel/log.c over any buffer cache: each function's
    effect on the abstract cache state, and the sequence of disk writes it
    performs.  Crash safety (LogCrash) follows from the write sequences. *)

From S2P Require Import Prelude Cache Bytes Log.

(** ** The header block *)

Definition hd_n (h : list Z) : Z := s32 (get32 h 0).
Definition hd_block (h : list Z) (i : nat) : Z := s32 (get32 h (blk_off i)).

Lemma s32_u32 z : - 2 ^ 31 <= z < 2 ^ 31 -> s32 (u32 z) = z.
Proof. intros. unfold s32, u32. Z.to_euclidean_division_equations. lia. Qed.

Lemma u32_idem z : u32 (u32 z) = u32 z.
Proof. unfold u32. by rewrite Z.mod_mod. Qed.

(** Writing the block numbers [from..from+k) of [blocks] into a header. *)
Lemma put_blocks_spec k i blocks data :
  length data = Z.to_nat BSIZE -> (i + k <= length blocks)%nat -> (length blocks <= 30)%nat ->
  exists data', put_blocks k i blocks data = Ok data' /\ length data' = Z.to_nat BSIZE /\
    hd_n data' = hd_n data /\
    (forall j, (j < 30)%nat -> hd_block data' j =
       if decide (i <= j < i + k)%nat then s32 (u32 (default 0 (blocks !! j))) else hd_block data j).
Proof.
  unfold BSIZE. revert i data. induction k as [|k IH]; intros i data Hd Hk Hb; cbn [put_blocks].
  { exists data. split; [done|]. split; [done|]. split; [done|]. intros j Hj.
    rewrite decide_False by lia. done. }
  destruct (lookup_lt_is_Some_2 blocks i) as [b Eb]; [lia|].
  rewrite (rd_Ok blocks (Z.of_nat i) b) by (apply zidx_Some; rewrite Nat2Z.id; split; [lia|done]).
  cbn. destruct (IH (i + 1)%nat (put32 data (blk_off i) (u32 b))) as (d' & E & Hl & Hn & Hbl).
  { by rewrite length_put32. } { lia. } { done. }
  exists d'. split; [done|]. split; [done|]. split.
  - rewrite Hn. unfold hd_n. rewrite get32_put32_ne by (unfold blk_off; lia). done.
  - intros j Hj. rewrite Hbl by done. unfold hd_block.
    destruct (decide (j = i)) as [->|Hne].
    + rewrite decide_False by lia. rewrite decide_True by lia.
      rewrite get32_put32_eq, u32_idem, Eb by (unfold blk_off; lia). done.
    + rewrite get32_put32_ne by (unfold blk_off; lia).
      repeat case_decide; (done || lia).
Qed.

(** Case analysis on every comparison left by [fset]. *)
Ltac fset_cases :=
  unfold fset;
  repeat (rewrite ?Z.eqb_refl; match goal with
    | |- context [?x =? ?y] => destruct (Z.eqb_spec x y); subst
    end); try (done || lia || congruence).

(** ** Sequences of disk writes *)

Definition apply_tr {A} (tr : list (Z * A)) (f : Z -> A) : Z -> A :=
  foldl (fun f w => fset f (fst w) (snd w)) f tr.

Lemma apply_tr_app {A} (tr tr' : list (Z * A)) f :
  apply_tr (tr ++ tr') f = apply_tr tr' (apply_tr tr f).
Proof. apply foldl_app. Qed.

Lemma apply_tr_cons {A} (tr : list (Z * A)) n v f :
  apply_tr ((n, v) :: tr) f = apply_tr tr (fset f n v).
Proof. done. Qed.

Lemma apply_tr_notin {A} (tr : list (Z * A)) f m : m ∉ tr.*1 -> apply_tr tr f m = f m.
Proof.
  revert f. induction tr as [|[n v] tr IH]; intros f Hm; [done|]. cbn in Hm. rewrite apply_tr_cons.
  rewrite not_elem_of_cons in Hm. rewrite IH by tauto. apply fset_ne. tauto.
Qed.

Lemma apply_tr_in {A} (tr : list (Z * A)) f m v :
  NoDup tr.*1 -> (m, v) ∈ tr -> apply_tr tr f m = v.
Proof.
  revert f. induction tr as [|[n w] tr IH]; intros f HN Hin; [by apply not_elem_of_nil in Hin|].
  cbn in HN. rewrite apply_tr_cons.
  apply NoDup_cons in HN as [Hn HN]. apply elem_of_cons in Hin as [[= -> ->]|Hin].
  - rewrite apply_tr_notin by done. apply fset_eq.
  - by apply IH.
Qed.

Lemma apply_tr_ext {A} (tr : list (Z * A)) f g m :
  f m = g m -> apply_tr tr f m = apply_tr tr g m.
Proof.
  revert f g. induction tr as [|[n v] tr IH]; intros f g E; [done|]. rewrite !apply_tr_cons.
  apply IH. unfold fset. by destruct (m =? n).
Qed.

(** The writes performed in a loop over [k] entries from [t]. *)
Definition writes (k : nat) (t : Z) (dst : Z -> Z) (v : Z -> list Z) : list (Z * list Z) :=
  (fun i => (dst i, v i)) <$> seqZ t (Z.of_nat k).

Lemma writes_S k t dst v : writes (S k) t dst v = (dst t, v t) :: writes k (t + 1) dst v.
Proof.
  unfold writes. rewrite seqZ_cons by lia. cbn. do 2 f_equal; f_equal; lia.
Qed.

Lemma writes_ext k t dst v dst' v' :
  (forall i, t <= i < t + Z.of_nat k -> dst i = dst' i /\ v i = v' i) ->
  writes k t dst v = writes k t dst' v'.
Proof.
  intros H. unfold writes. apply list_fmap_ext. intros j i Hi.
  apply list_elem_of_lookup_2, elem_of_seqZ in Hi. destruct (H i) as [-> ->]; [lia|done].
Qed.

Lemma writes_fst k t dst v : (writes k t dst v).*1 = dst <$> seqZ t (Z.of_nat k).
Proof. unfold writes. by rewrite <- list_fmap_compose. Qed.

Section spec.
Context {C : Type} `{!BufferCache C}.
Implicit Types (s : lst C) (a : acache).

Lemma on_c_Ok {A} (m : M C A) s r c :
  m (lc s) = Ok (r, c) -> on_c m s = Ok (r, mkl (lg s) c (lg_wakeups s)).
Proof. intros E. unfold on_c. by erewrite zoom_Ok. Qed.

(** ** Effects between quiescent states

    No buffer held before and after; contents, disk and the writes performed
    are given; the reference counts change by [R]. *)
Record eff a a' (V K : Z -> list Z) (R : Z -> Z) (tr : list (Z * list Z)) : Prop := {
  ef_view : forall m, blk m -> a_view a' m = V m;
  ef_disk : forall m, blk m -> a_disk a' m = K m;
  ef_rc : forall m, blk m -> a_rc a' m = R m;
  ef_held : a_held a' = [];
  ef_tr : a_tr a' = a_tr a ++ tr
}.

(** All blocks have the size of a block. *)
Definition sized (f : Z -> list Z) : Prop := forall m, blk m -> length (f m) = Z.to_nat BSIZE.

(** At most 29 blocks are referenced, those of [P]: one buffer is left. *)
Definition spare a (P : list Z) : Prop :=
  (forall m, blk m -> a_rc a m <> 0 -> m ∈ P) /\ (length P <= 29)%nat.

Lemma lread_Ok s a n :
  bc_abs (lc s) a -> blk n -> n ∉ (a_held a).*2 -> a_rc a n < 2 ^ 32 - 1 -> a_room a n ->
  exists b c, lread n s = Ok (b, mkl (lg s) c (lg_wakeups s)) /\ bc_abs c (a_bread b n a) /\
    b ∉ (a_held a).*1.
Proof.
  intros A Hn Hh Hr Hroom. destruct (bc_bread_ok _ _ n A Hn Hh Hr Hroom) as (b & c & E & A' & Hb).
  exists b, c. split; [|done]. unfold lread. rewrite u32_small by (unfold blk in Hn; lia).
  by apply on_c_Ok.
Qed.

(** *** Writing the header *)

Lemma write_head_spec s a P st :
  bc_abs (lc s) a -> a_held a = [] -> spare a P -> a_rc a st = 0 -> st = l_start (lg s) -> blk st ->
  sized (a_view a) -> 0 <= lh_n (lg s) <= 30 -> length (lh_block (lg s)) = 30%nat ->
  (forall i b, lh_block (lg s) !! i = Some b -> (Z.of_nat i < lh_n (lg s)) -> - 2 ^ 31 <= b < 2 ^ 31) ->
  exists c h a', write_head s = Ok (tt, mkl (lg s) c (lg_wakeups s)) /\ bc_abs c a' /\
    length h = Z.to_nat BSIZE /\ hd_n h = lh_n (lg s) /\
    (forall i, Z.of_nat i < lh_n (lg s) -> hd_block h i = default 0 (lh_block (lg s) !! i)) /\
    eff a a' (fset (a_view a) st h) (fset (a_disk a) st h) (a_rc a) [(st, h)].
Proof.
  intros A Hh [HP HPl] Hrc -> Hst Hsz Hn Hbl Hrange. set (st := l_start (lg s)) in *.
  destruct (lread_Ok s a st A Hst) as (b & c1 & E1 & A1 & _).
  { rewrite Hh. set_solver. } { lia. } { right. exists P. split; [done|lia]. }
  set (a1 := a_bread b st a) in *.
  assert ((b, st) ∈ a_held a1) as Hb1 by (by left).
  pose proof (bc_get_ok _ _ _ _ A1 Hb1) as E2.
  destruct (put_blocks_spec (Z.to_nat (lh_n (lg s))) 0 (lh_block (lg s))
    (put32 (a_view a st) 0 (u32 (lh_n (lg s))))) as (h & E3 & Hl & Hhn & Hhb).
  { rewrite length_put32. by apply Hsz. } { lia. } { lia. }
  destruct (bc_put_ok _ _ _ _ h A1 Hb1) as (c2 & E4 & A2).
  destruct (bc_bwrite_ok _ _ b st A2 Hb1) as (c3 & E5 & A3).
  destruct (bc_brelse_ok _ _ b st A3 Hb1) as (c4 & E6 & A4).
  { intros _. cbn. by rewrite !fset_eq. }
  exists c4, h. eexists. split; [|split; [exact A4|]].
  { unfold write_head. mgo. fold st. mrun E1.
    erewrite M_bind_Ok; [|apply on_c_Ok, E2]. mgo. cbn [lg].
    rewrite (M_bind_lift _ _ _ _ E3).
    erewrite M_bind_Ok; [|apply on_c_Ok, E4]. erewrite M_bind_Ok; [|apply on_c_Ok, E5].
    by erewrite on_c_Ok; [|apply E6]. }
  split; [done|]. split; [|split].
  - rewrite Hhn. unfold hd_n. rewrite get32_put32_eq, u32_idem, s32_u32 by (rewrite ?Hsz by done; unfold BSIZE; lia).
    done.
  - intros i Hi. rewrite Hhb by lia. rewrite decide_True by lia.
    destruct (lookup_lt_is_Some_2 (lh_block (lg s)) i) as [x Ex]; [lia|]. rewrite Ex. cbn.
    apply s32_u32. by eapply Hrange.
  - split; cbn; rewrite ?Hh; try done.
    + intros m Hm. fset_cases.
    + intros m Hm. fset_cases.
    + by rewrite Z.eqb_refl.
    + by rewrite fset_eq.
Qed.

(** *** Copying into the log *)

(** The number of the [i]-th block of the transaction. *)
Definition home s (i : Z) : Z := default 0 (zidx (lh_block (lg s)) i).
Definition log_at s (i : Z) : Z := l_start (lg s) + i + 1.

Lemma rd_home s i : 0 <= i < Z.of_nat (length (lh_block (lg s))) ->
  rd (lh_block (lg s)) i = Ok (home s i).
Proof.
  intros Hi. unfold home, rd. by destruct (zidx_is_Some (lh_block (lg s)) i Hi) as [b ->].
Qed.

Lemma write_log_step s a P k t :
  bc_abs (lc s) a -> a_held a = [] -> spare a P -> sized (a_view a) ->
  0 <= t < Z.of_nat (length (lh_block (lg s))) ->
  blk (log_at s t) -> a_rc a (log_at s t) = 0 ->
  blk (home s t) -> 0 < a_rc a (home s t) < 2 ^ 32 - 2 ->
  exists c a', write_log_from (S k) t s = write_log_from k (t + 1) (mkl (lg s) c (lg_wakeups s)) /\
    bc_abs c a' /\
    eff a a' (fset (a_view a) (log_at s t) (a_view a (home s t)))
      (fset (a_disk a) (log_at s t) (a_view a (home s t))) (a_rc a)
      [(log_at s t, a_view a (home s t))].
Proof.
  intros A Hh [HP HPl] Hsz Ht Hp Hrp Hn Hrn. set (p := log_at s t) in *. set (n := home s t) in *.
  assert (n <> p) as Hnp by (intros E; rewrite E in Hrn; lia).
  destruct (lread_Ok s a p A Hp) as (bt & c1 & E1 & A1 & _).
  { rewrite Hh. set_solver. } { lia. } { right. exists P. split; [done|lia]. }
  destruct (lread_Ok (mkl (lg s) c1 (lg_wakeups s)) (a_bread bt p a) n A1 Hn) as (bf & c2 & E2 & A2 & Hbf).
  { cbn. rewrite Hh. set_solver. } { cbn. rewrite fset_ne by done. lia. }
  { left. cbn. rewrite fset_ne by done. lia. }
  cbn in Hbf. rewrite Hh in Hbf. assert (bf <> bt) as Hbb by set_solver.
  set (a2 := a_bread bf n (a_bread bt p a)) in *.
  assert ((bf, n) ∈ a_held a2) as H2f by left.
  assert ((bt, p) ∈ a_held a2) as H2t by (right; left).
  pose proof (bc_get_ok _ _ _ _ A2 H2f) as E3. pose proof (bc_get_ok _ _ _ _ A2 H2t) as E4. cbn in E3, E4.
  assert (copy_bytes (Z.to_nat BSIZE) (a_view a p) (a_view a n) = a_view a n) as Ec
    by (apply copy_bytes_all; by apply Hsz).
  destruct (bc_put_ok _ _ _ _ (a_view a n) A2 H2t) as (c3 & E5 & A3).
  destruct (bc_bwrite_ok _ _ bt p A3 H2t) as (c4 & E6 & A4).
  destruct (bc_brelse_ok _ _ bf n A4 H2f) as (c5 & E7 & A5).
  { cbn. rewrite !fset_eq, !(fset_ne _ p) by done. lia. }
  destruct (bc_brelse_ok _ _ bt p A5) as (c6 & E8 & A6).
  { cbn. rewrite Hh, Z.eqb_refl. cbn. destruct (Z.eqb_spec bt bf); [congruence|]. left. }
  { intros _. cbn. by rewrite !fset_eq. }
  exists c6. eexists. split; [|split; [exact A6|]].
  - cbn [write_log_from]. mgo. fold (log_at s t). fold p. mrun E1.
    rewrite (M_bind_lift _ _ _ _ (rd_home s t Ht)). fold n. mrun E2.
    erewrite M_bind_Ok; [|apply on_c_Ok, E3]. erewrite M_bind_Ok; [|apply on_c_Ok, E4]. cbv beta.
    rewrite Ec. erewrite M_bind_Ok; [|apply on_c_Ok, E5]. erewrite M_bind_Ok; [|apply on_c_Ok, E6].
    erewrite M_bind_Ok; [|apply on_c_Ok, E7]. by erewrite M_bind_Ok; [|apply on_c_Ok, E8].
  - split; cbn; rewrite ?Hh; try done.
    + intros m Hm. by rewrite fset_eq.
    + intros m Hm. fset_cases.
    + rewrite Z.eqb_refl. cbn. destruct (Z.eqb_spec bt bf); [congruence|]. cbn. by rewrite Z.eqb_refl.
    + by rewrite fset_eq.
Qed.

Lemma eff_nil a : a_held a = [] -> eff a a (a_view a) (a_disk a) (a_rc a) [].
Proof. intros H. split; try done. by rewrite app_nil_r. Qed.

(** Effects of consecutive writes. *)
Lemma eff_trans a a1 a2 tr1 tr2 R1 R :
  eff a a1 (apply_tr tr1 (a_view a)) (apply_tr tr1 (a_disk a)) R1 tr1 ->
  eff a1 a2 (apply_tr tr2 (a_view a1)) (apply_tr tr2 (a_disk a1)) R tr2 ->
  eff a a2 (apply_tr (tr1 ++ tr2) (a_view a)) (apply_tr (tr1 ++ tr2) (a_disk a)) R (tr1 ++ tr2).
Proof.
  intros [V1 K1 ? H1 T1] [V2 K2 ? H2 T2]. split; [..|done|].
  - intros m Hm. rewrite V2, apply_tr_app by done. apply apply_tr_ext. by rewrite V1.
  - intros m Hm. rewrite K2, apply_tr_app by done. apply apply_tr_ext. by rewrite K1.
  - done.
  - by rewrite T2, T1, app_assoc.
Qed.

Lemma eff_rc a a' V K R R' tr :
  eff a a' V K R tr -> (forall m, blk m -> R m = R' m) -> eff a a' V K R' tr.
Proof. intros [] H. split; try done. intros m Hm. rewrite <- H by done. auto. Qed.

Lemma eff_sized a a' tr K R t :
  eff a a' (apply_tr tr (a_view a)) K R t -> sized (a_view a) ->
  (forall n v, (n, v) ∈ tr -> length v = Z.to_nat BSIZE) -> sized (a_view a').
Proof.
  intros E Hs Ht m Hm. rewrite (ef_view _ _ _ _ _ _ E m Hm). specialize (Hs m Hm).
  clear E K R t. revert Hs Ht. generalize (a_view a). induction tr as [|[n v] tr IH]; intros f Hs Ht; [done|].
  rewrite apply_tr_cons. apply IH; [|intros; eapply Ht; by right].
  unfold fset. destruct (m =? n); [|done]. apply (Ht n v). by left.
Qed.

Lemma spare_rc a a' P : (forall m, blk m -> a_rc a' m = a_rc a m) -> spare a P -> spare a' P.
Proof. intros H [H1 H2]. split; [|done]. intros m Hm. rewrite H by done. by apply H1. Qed.

Lemma write_log_loop k t s a P :
  bc_abs (lc s) a -> a_held a = [] -> spare a P -> sized (a_view a) ->
  0 <= t -> t + Z.of_nat k <= Z.of_nat (length (lh_block (lg s))) ->
  (forall i, t <= i < t + Z.of_nat k -> blk (log_at s i) /\ a_rc a (log_at s i) = 0 /\
     blk (home s i) /\ 0 < a_rc a (home s i) < 2 ^ 32 - 2) ->
  exists c a', write_log_from k t s = Ok (tt, mkl (lg s) c (lg_wakeups s)) /\ bc_abs c a' /\
    let tr := writes k t (log_at s) (fun i => a_view a (home s i)) in
    eff a a' (apply_tr tr (a_view a)) (apply_tr tr (a_disk a)) (a_rc a) tr.
Proof.
  revert t s a. induction k as [|k IH]; intros t s a A Hh HP Hsz Ht Hk Hi.
  { exists (lc s), a. split; [by destruct s|]. split; [done|]. by apply eff_nil. }
  destruct (Hi t) as (I1 & I2 & I3 & I4); [lia|].
  destruct (write_log_step s a P k t A Hh HP Hsz) as (c1 & a1 & E1 & A1 & F1); [lia|done..|].
  set (s1 := mkl (lg s) c1 (lg_wakeups s)) in *.
  assert (forall i, t <= i < t + Z.of_nat (S k) -> a_view a1 (home s i) = a_view a (home s i)) as Hv.
  { intros i Hr. destruct (Hi i Hr) as (_ & _ & J3 & J4). rewrite (ef_view _ _ _ _ _ _ F1) by done.
    apply fset_ne. intros E. rewrite E, I2 in J4. lia. }
  assert (sized (a_view a1)) as Hsz1.
  { eapply (eff_sized a a1 [(_, _)]); [exact F1|done|]. intros n v [[= -> ->]|Hn]%elem_of_cons;
      [by apply Hsz|by apply not_elem_of_nil in Hn]. }
  destruct (IH (t + 1) s1 a1) as (c2 & a2 & E2 & A2 & F2); [done|apply F1| |done|lia|cbn; lia| |].
  { eapply spare_rc; [|exact HP]. apply F1. }
  { intros i Hr. destruct (Hi i) as (J1 & J2 & J3 & J4); [lia|].
    rewrite !(ef_rc _ _ _ _ _ _ F1) by done. done. }
  exists c2, a2. split; [by rewrite E1|]. split; [done|]. cbv zeta in F2 |- *.
  rewrite (writes_ext k (t + 1) (log_at s1) _ (log_at s) (fun i => a_view a (home s i))) in F2.
  2:{ intros i Hr. split; [done|]. apply Hv. lia. }
  rewrite writes_S.
  eapply (eff_trans a a1 a2 [(_, _)]); [exact F1|].
  destruct F2 as [G1 G2 G3 G4 G5]. split; [done|done| |done|done].
  intros m Hm. rewrite G3 by done. by apply F1.
Qed.

(** *** Installing *)

(** References given up by [bunpin]. *)
Definition unpin (rec : bool) (m n : Z) : Z := if rec then 0 else if m =? n then 1 else 0.

Lemma install_step s a P (rec : bool) k t :
  bc_abs (lc s) a -> a_held a = [] -> spare a P -> sized (a_view a) ->
  0 <= t < Z.of_nat (length (lh_block (lg s))) ->
  blk (log_at s t) -> a_rc a (log_at s t) = 0 ->
  blk (home s t) -> a_rc a (home s t) < 2 ^ 32 - 2 -> home s t <> log_at s t ->
  (if rec then (length P <= 28)%nat else 1 <= a_rc a (home s t)) ->
  exists c a', install_from rec (S k) t s = install_from rec k (t + 1) (mkl (lg s) c (lg_wakeups s)) /\
    bc_abs c a' /\
    eff a a' (fset (a_view a) (home s t) (a_view a (log_at s t)))
      (fset (a_disk a) (home s t) (a_view a (log_at s t)))
      (fun m => a_rc a m - unpin rec m (home s t))
      [(home s t, a_view a (log_at s t))].
Proof.
  intros A Hh [HP HPl] Hsz Ht Hp Hrp Hn Hrn Hnp Hrec. set (p := log_at s t) in *. set (n := home s t) in *.
  pose proof (bc_rc_range _ _ n A Hn) as Hrn0.
  destruct (lread_Ok s a p A Hp) as (bl & c1 & E1 & A1 & _).
  { rewrite Hh. set_solver. } { lia. } { right. exists P. split; [done|lia]. }
  destruct (lread_Ok (mkl (lg s) c1 (lg_wakeups s)) (a_bread bl p a) n A1 Hn) as (bd & c2 & E2 & A2 & Hbd).
  { cbn. rewrite Hh. set_solver. } { cbn. rewrite fset_ne by done. lia. }
  { destruct rec; [right; exists (p :: P); split; [|cbn; lia]|left; cbn; rewrite fset_ne by done; lia].
    intros m Hm. cbn. unfold fset. destruct (Z.eqb_spec m p) as [->|]; [left|].
    intros Hr. right. by apply HP. }
  cbn in Hbd. rewrite Hh in Hbd. assert (bd <> bl) as Hbb by set_solver.
  set (a2 := a_bread bd n (a_bread bl p a)) in *.
  assert ((bd, n) ∈ a_held a2) as H2d by left.
  assert ((bl, p) ∈ a_held a2) as H2l by (right; left).
  pose proof (bc_get_ok _ _ _ _ A2 H2l) as E3. pose proof (bc_get_ok _ _ _ _ A2 H2d) as E4. cbn in E3, E4.
  assert (copy_bytes (Z.to_nat BSIZE) (a_view a n) (a_view a p) = a_view a p) as Ec
    by (apply copy_bytes_all; by apply Hsz).
  destruct (bc_put_ok _ _ _ _ (a_view a p) A2 H2d) as (c3 & E5 & A3).
  destruct (bc_bwrite_ok _ _ bd n A3 H2d) as (c4 & E6 & A4).
  set (a4 := a_bwrite n (a_put n (a_view a p) a2)) in *.
  assert (exists c5 a5, when (negb rec) (on_c (bc_bunpin bd)) (mkl (lg s) c4 (lg_wakeups s)) =
      Ok (tt, mkl (lg s) c5 (lg_wakeups s)) /\ bc_abs c5 a5 /\
      a_view a5 = a_view a4 /\ a_disk a5 = a_disk a4 /\ a_held a5 = a_held a4 /\ a_tr a5 = a_tr a4 /\
      a_rc a5 = if rec then a_rc a4 else fset (a_rc a4) n (a_rc a4 n - 1))
    as (c5 & a5 & E7 & A5 & V5 & K5 & H5 & T5 & R5).
  { destruct rec; cbn [negb when]; [by exists c4, a4|].
    destruct (bc_bunpin_ok _ _ bd n A4 H2d) as (c5 & E & A5).
    { cbn. rewrite fset_eq, !(fset_ne _ p) by done. lia. }
    exists c5. eexists. split; [exact (on_c_Ok _ (mkl (lg s) c4 (lg_wakeups s)) _ _ E)|]. done. }
  destruct (bc_brelse_ok _ _ bl p A5) as (c6 & E8 & A6).
  { rewrite H5. exact H2l. }
  { intros _. rewrite V5, K5. cbn. rewrite !(fset_ne _ n) by congruence. by apply (bc_clean _ _ _ A). }
  destruct (bc_brelse_ok _ _ bd n A6) as (c7 & E9 & A7).
  { cbn. rewrite H5. cbn. destruct (Z.eqb_spec bd bl); [congruence|]. left. }
  { intros _. cbn. rewrite V5, K5. cbn. by rewrite !fset_eq. }
  exists c7. eexists. split; [|split; [exact A7|]].
  - cbn [install_from]. mgo. fold (log_at s t). fold p. mrun E1.
    rewrite (M_bind_lift _ _ _ _ (rd_home s t Ht)). fold n. mrun E2.
    erewrite M_bind_Ok; [|apply on_c_Ok, E3]. erewrite M_bind_Ok; [|apply on_c_Ok, E4]. cbv beta.
    rewrite Ec. erewrite M_bind_Ok; [|apply on_c_Ok, E5]. erewrite M_bind_Ok; [|apply on_c_Ok, E6].
    cbn [lg lc lg_wakeups]. mrun E7.
    erewrite M_bind_Ok; [|apply on_c_Ok, E8]. by erewrite M_bind_Ok; [|apply on_c_Ok, E9].
  - split; cbn; rewrite ?V5, ?K5, ?H5, ?T5, ?R5; cbn; rewrite ?Hh; try done.
    + intros m Hm. by rewrite fset_eq.
    + intros m Hm. unfold unpin. destruct rec; fset_cases.
    + destruct (Z.eqb_spec bd bl); [congruence|]. cbn. by rewrite !Z.eqb_refl.
    + by rewrite fset_eq.
Qed.

Fixpoint unpins (hm : Z -> Z) (rec : bool) (k : nat) (t m : Z) : Z :=
  match k with
  | O => 0
  | S k' => unpin rec m (hm t) + unpins hm rec k' (t + 1) m
  end.

(** A transaction: distinct home blocks outside the log area. *)
Record trans s a (rec : bool) (P : list Z) (k : nat) (t : Z) : Prop := {
  tx_t : 0 <= t;
  tx_k : t + Z.of_nat k <= Z.of_nat (length (lh_block (lg s)));
  tx_log : forall i, t <= i < t + Z.of_nat k -> blk (log_at s i) /\ a_rc a (log_at s i) = 0;
  tx_home : forall i, t <= i < t + Z.of_nat k -> blk (home s i) /\ a_rc a (home s i) < 2 ^ 32 - 2;
  tx_pin : forall i, t <= i < t + Z.of_nat k ->
    if rec then (length P <= 28)%nat else 1 <= a_rc a (home s i);
  tx_disj : forall i j, t <= i < t + Z.of_nat k -> t <= j < t + Z.of_nat k -> home s i <> log_at s j;
  tx_inj : forall i j, t <= i < t + Z.of_nat k -> t <= j < t + Z.of_nat k -> i <> j ->
    home s i <> home s j
}.

Lemma install_loop k t s a P rec :
  bc_abs (lc s) a -> a_held a = [] -> spare a P -> sized (a_view a) -> trans s a rec P k t ->
  exists c a', install_from rec k t s = Ok (tt, mkl (lg s) c (lg_wakeups s)) /\ bc_abs c a' /\
    let tr := writes k t (home s) (fun i => a_view a (log_at s i)) in
    eff a a' (apply_tr tr (a_view a)) (apply_tr tr (a_disk a))
      (fun m => a_rc a m - unpins (home s) rec k t m) tr.
Proof.
  revert t s a. induction k as [|k IH]; intros t s a A Hh HP Hsz X.
  { exists (lc s), a. split; [by destruct s|]. split; [done|]. cbn. split; try done.
    - intros m Hm. lia.
    - by rewrite app_nil_r. }
  destruct X as [X1 X2 X3 X4 X5 X6 X7]. destruct (X3 t) as [I1 I2]; [lia|]. destruct (X4 t) as [I3 I4]; [lia|].
  destruct (install_step s a P rec k t A Hh HP Hsz) as (c1 & a1 & E1 & A1 & F1);
    [lia|done|done|done|done|apply X6; lia|apply X5; lia|].
  set (s1 := mkl (lg s) c1 (lg_wakeups s)) in *.
  assert (forall i, t <= i < t + Z.of_nat (S k) -> a_view a1 (log_at s i) = a_view a (log_at s i)) as Hv.
  { intros i Hr. rewrite (ef_view _ _ _ _ _ _ F1) by (by apply X3).
    apply fset_ne. intros E. apply (X6 t i); [lia|done|congruence]. }
  assert (sized (a_view a1)) as Hsz1.
  { eapply (eff_sized a a1 [(_, _)]); [exact F1|done|]. intros n v [[= -> ->]|Hn]%elem_of_cons;
      [by apply Hsz|by apply not_elem_of_nil in Hn]. }
  destruct (IH (t + 1) s1 a1) as (c2 & a2 & E2 & A2 & F2); [done|apply F1| |done| |].
  { destruct HP as [HP1 HP2]. split; [|done]. intros m Hm. rewrite (ef_rc _ _ _ _ _ _ F1) by done.
    intros Hr. apply HP1; [done|]. intros E0. apply Hr. unfold unpin. destruct rec; [lia|].
    destruct (Z.eqb_spec m (home s t)) as [->|]; [|lia]. specialize (X5 t). cbn in X5. lia. }
  { split; change (home s1) with (home s); change (log_at s1) with (log_at s);
      change (lg s1) with (lg s).
    - lia.
    - lia.
    - intros i Hr. destruct (X3 i) as [J1 J2]; [lia|]. split; [done|].
      rewrite (ef_rc _ _ _ _ _ _ F1) by done. unfold unpin. destruct rec; [lia|].
      destruct (Z.eqb_spec (log_at s i) (home s t)) as [E|]; [|lia]. exfalso. symmetry in E.
      apply (X6 t i); [lia|lia|done].
    - intros i Hr. destruct (X4 i) as [J1 J2]; [lia|]. split; [done|].
      rewrite (ef_rc _ _ _ _ _ _ F1) by done. unfold unpin. destruct rec; [lia|].
      destruct (home s i =? home s t); lia.
    - intros i Hr. specialize (X5 i). destruct rec; [apply X5; lia|]. destruct (X4 i) as [J1 _]; [lia|].
      rewrite (ef_rc _ _ _ _ _ _ F1) by done. unfold unpin.
      destruct (Z.eqb_spec (home s i) (home s t)) as [E|]; [|specialize (X5 ltac:(lia)); lia].
      exfalso. apply (X7 i t); [lia|lia|lia|done].
    - intros i j Hi Hj. apply X6; lia.
    - intros i j Hi Hj. apply X7; lia. }
  exists c2, a2. split; [by rewrite E1|]. split; [done|]. cbv zeta in F2 |- *.
  rewrite (writes_ext k (t + 1) (home s1) _ (home s) (fun i => a_view a (log_at s i))) in F2.
  2:{ intros i Hr. split; [done|]. apply Hv. lia. }
  rewrite writes_S. destruct F1 as [G1 G2 G3 G4 G5]. destruct F2 as [J1 J2 J3 J4 J5].
  split; [..|done|].
  - intros m Hm. rewrite J1, apply_tr_cons by done. apply apply_tr_ext. by apply G1.
  - intros m Hm. rewrite J2, apply_tr_cons by done. apply apply_tr_ext. by apply G2.
  - intros m Hm. rewrite J3, G3 by done. cbn. change (home s1) with (home s). lia.
  - rewrite J5, G5. by rewrite <- app_assoc.
Qed.

(** *** Reading the header *)

Lemma read_blocks_spec k i data s :
  length (lh_block (lg s)) = 30%nat -> (i + k <= 30)%nat ->
  exists bl, read_blocks k i data s = Ok (tt, mkl (set_lh_block bl (lg s)) (lc s) (lg_wakeups s)) /\
    length bl = 30%nat /\
    forall j, (j < 30)%nat -> bl !! j = if decide (i <= j < i + k)%nat
      then Some (hd_block data j) else lh_block (lg s) !! j.
Proof.
  revert i s. induction k as [|k IH]; intros i s Hl Hk; cbn [read_blocks].
  { exists (lh_block (lg s)). split; [by destruct s as [[] ? ?]|]. split; [done|].
    intros j Hj. by rewrite decide_False by lia. }
  mgo. erewrite M_bind_lift; [|apply wr_Ok; lia]. unfold upd_lg. mgo.
  set (s1 := set_lg _ s). destruct (IH (i + 1)%nat s1) as (bl & E & Hbl & Hj).
  { cbn. by rewrite length_insert. } { lia. }
  exists bl. split; [rewrite E; by destruct s as [[] ? ?]|]. split; [done|]. intros j Hlt.
  rewrite Hj by done. cbn. rewrite Nat2Z.id. destruct (decide (j = i)) as [->|Hne].
  - rewrite decide_False, decide_True by lia. by rewrite list_lookup_insert_eq by lia.
  - rewrite list_lookup_insert_ne by done. repeat case_decide; (done || lia).
Qed.

Lemma read_head_spec s a P :
  bc_abs (lc s) a -> a_held a = [] -> spare a P -> a_rc a (l_start (lg s)) = 0 ->
  blk (l_start (lg s)) -> length (lh_block (lg s)) = 30%nat ->
  0 <= hd_n (a_view a (l_start (lg s))) <= 30 ->
  exists c bl a', read_head s = Ok (tt, mkl (set_lh_block bl
      (set_lh_n (hd_n (a_view a (l_start (lg s)))) (lg s))) c (lg_wakeups s)) /\
    bc_abs c a' /\ length bl = 30%nat /\
    (forall j, Z.of_nat j < hd_n (a_view a (l_start (lg s))) ->
       bl !! j = Some (hd_block (a_view a (l_start (lg s))) j)) /\
    eff a a' (a_view a) (a_disk a) (a_rc a) [].
Proof.
  intros A Hh [HP HPl] Hrc Hst Hbl Hn. set (st := l_start (lg s)) in *. set (h := a_view a st) in *.
  destruct (lread_Ok s a st A Hst) as (b & c1 & E1 & A1 & _).
  { rewrite Hh. set_solver. } { lia. } { right. exists P. split; [done|lia]. }
  assert ((b, st) ∈ a_held (a_bread b st a)) as Hb1 by left.
  pose proof (bc_get_ok _ _ _ _ A1 Hb1) as E2. cbn in E2. fold h in E2.
  destruct (bc_brelse_ok _ _ b st A1 Hb1) as (c2 & E3 & A2).
  { intros _. cbn. by apply (bc_clean _ _ _ A). }
  set (s1 := mkl (set_lh_n (hd_n h) (lg s)) c1 (lg_wakeups s)).
  destruct (read_blocks_spec (Z.to_nat (hd_n h)) 0 h s1) as (bl & E4 & Hl & Hj); [done|lia|].
  exists c2, bl. eexists. split; [|split; [exact A2|split; [done|split]]].
  - unfold read_head. mgo. fold st. mrun E1. erewrite M_bind_Ok; [|apply on_c_Ok, E2].
    unfold upd_lg. mgo. cbn [lg lc lg_wakeups set_lg]. fold (hd_n h). fold s1.
    change (lh_n (lg s1)) with (hd_n h). rewrite (M_bind_Ok _ _ _ _ _ E4).
    by erewrite on_c_Ok; [|exact E3].
  - intros j Hlt. rewrite Hj by lia. by rewrite decide_True by lia.
  - split; cbn; rewrite ?Hh; try done.
    + intros m Hm. fset_cases.
    + by rewrite Z.eqb_refl.
    + by rewrite app_nil_r.
Qed.

End spec.

(** ** Recovery *)

(** The writes recovery performs on a disk [d] whose log starts at [st]: every
    block of a committed transaction, to its home location. *)
Definition installs (st : Z) (d : Z -> list Z) : list (Z * list Z) :=
  writes (Z.to_nat (hd_n (d st))) 0 (fun i => hd_block (d st) (Z.to_nat i)) (fun i => d (st + i + 1)).

(** The [LOGSIZE] blocks of the log area: the header, then the logged blocks. *)
Definition in_log (st n : Z) : Prop := st <= n < st + LOGSIZE.

(** The log on disk is sound: at most as many blocks as follow the header in
    the log area, distinct, at home outside of it. *)
Record log_disk_ok (st : Z) (d : Z -> list Z) : Prop := {
  ld_area : forall n, in_log st n -> blk n;
  ld_n : 0 <= hd_n (d st) <= LOGSIZE - 1;
  ld_sized : sized d;
  ld_home : forall i, Z.of_nat i < hd_n (d st) -> blk (hd_block (d st) i) /\ ~ in_log st (hd_block (d st) i);
  ld_inj : forall i j, Z.of_nat i < hd_n (d st) -> Z.of_nat j < hd_n (d st) -> i <> j ->
    hd_block (d st) i <> hd_block (d st) j
}.
