(* ===== verification/LogCrash.v ===== *)
(** * Crash safety of the log

    [commit] is atomic with respect to crashes: whatever prefix of its disk
    writes reached the disk, recovery after the restart (and after any number
    of restarts in the middle of recovery) leaves every block outside the log
    either as before the transaction or as the transaction made it, all of
    them together, and the switch is the write of the header. *)

From S2P Require Import Prelude Cache Bytes Log LogSpec.

(** ** Facts about write sequences *)

Lemma seqZ_fmap_NoDup (f : Z -> Z) t k :
  (forall i j, t <= i < t + k -> t <= j < t + k -> f i = f j -> i = j) -> NoDup (f <$> seqZ t k).
Proof.
  intros H. apply NoDup_fmap_2_strong; [|apply NoDup_seqZ]. intros i j Hi Hj.
  apply elem_of_seqZ in Hi, Hj. apply H; lia.
Qed.

Lemma writes_elem k t dst v i :
  t <= i < t + Z.of_nat k -> (dst i, v i) ∈ writes k t dst v.
Proof. intros Hi. unfold writes. apply list_elem_of_fmap. exists i. split; [done|]. apply elem_of_seqZ. lia. Qed.

Lemma writes_notin k t dst v m :
  (forall i, t <= i < t + Z.of_nat k -> dst i <> m) -> m ∉ (writes k t dst v).*1.
Proof.
  intros H. rewrite writes_fst, list_elem_of_fmap. intros (i & -> & Hi).
  apply elem_of_seqZ in Hi. apply (H i); [lia|done].
Qed.

Lemma fst_take {A} j (tr : list (Z * A)) m : m ∈ (take j tr).*1 -> m ∈ tr.*1.
Proof.
  intros (w & -> & Hw)%list_elem_of_fmap. apply list_elem_of_fmap. exists w. split; [done|].
  by eapply elem_of_take in Hw as (? & ? & _); eauto using list_elem_of_lookup_2.
Qed.

Lemma writes_sized k t dst v n x :
  (forall i, t <= i < t + Z.of_nat k -> length (v i) = Z.to_nat BSIZE) ->
  (n, x) ∈ writes k t dst v -> length x = Z.to_nat BSIZE.
Proof.
  intros H (i & [= -> ->] & Hi)%list_elem_of_fmap. apply elem_of_seqZ in Hi. apply H. lia.
Qed.

(** ** Recovery on the disk *)

Definition recovered (st : Z) (d : Z -> list Z) : Z -> list Z := apply_tr (installs st d) d.

Section pure.
Context (st : Z).
Implicit Types (d : Z -> list Z).

(** The home locations recovery writes are outside the log. *)
Lemma installs_home d m : log_disk_ok st d -> m ∈ (installs st d).*1 -> ~ in_log st m.
Proof.
  intros H. unfold installs. rewrite writes_fst, list_elem_of_fmap. intros (i & -> & Hi).
  apply elem_of_seqZ in Hi. apply (ld_home _ _ H). lia.
Qed.

Lemma installs_NoDup d : log_disk_ok st d -> NoDup (installs st d).*1.
Proof.
  intros H. unfold installs. rewrite writes_fst. apply seqZ_fmap_NoDup. intros i j Hi Hj E.
  destruct (decide (i = j)) as [|Hne]; [done|]. pose proof (ld_n _ _ H).
  exfalso. apply (ld_inj _ _ H (Z.to_nat i) (Z.to_nat j)); [lia|lia|lia|done].
Qed.

Lemma in_log_start : in_log st st.
Proof. unfold in_log, LOGSIZE. lia. Qed.

Lemma in_log_at i : 0 <= i < LOGSIZE - 1 -> in_log st (st + i + 1).
Proof. unfold in_log. lia. Qed.

(** Only the log area of a disk matters for what recovery writes. *)
Lemma installs_ext d d' :
  0 <= hd_n (d st) <= LOGSIZE - 1 -> (forall m, in_log st m -> d' m = d m) -> installs st d' = installs st d.
Proof.
  intros Hn H. unfold installs. rewrite (H st) by apply in_log_start. apply writes_ext. intros i Hi.
  split; [done|]. apply H, in_log_at. lia.
Qed.

Lemma log_disk_ok_ext d d' :
  log_disk_ok st d -> (forall m, in_log st m -> d' m = d m) -> sized d' -> log_disk_ok st d'.
Proof.
  intros [A B E F G] H Hs. pose proof (H st in_log_start) as Es.
  split; [done|by rewrite Es|done|by rewrite Es|by rewrite Es].
Qed.

Lemma apply_tr_sized d tr :
  sized d -> (forall n v, (n, v) ∈ tr -> length v = Z.to_nat BSIZE) -> sized (apply_tr tr d).
Proof.
  intros Hs Ht m Hm. specialize (Hs m Hm). revert d Hs.
  induction tr as [|[n v] tr IH]; intros d Hs; [done|]. rewrite apply_tr_cons.
  apply IH; [intros; eapply Ht; by right|]. unfold fset. destruct (m =? n); [|done].
  apply (Ht n v). by left.
Qed.

Lemma installs_sized d n v : log_disk_ok st d -> (n, v) ∈ installs st d -> length v = Z.to_nat BSIZE.
Proof.
  intros H. apply writes_sized. intros i Hi. apply (ld_sized _ _ H), (ld_area _ _ H), in_log_at.
  pose proof (ld_n _ _ H). lia.
Qed.

(** Writes outside the log area keep the log. *)
Lemma installs_prefix_ok d j :
  log_disk_ok st d ->
  log_disk_ok st (apply_tr (take j (installs st d)) d) /\
  installs st (apply_tr (take j (installs st d)) d) = installs st d.
Proof.
  intros H. assert (forall m, in_log st m -> apply_tr (take j (installs st d)) d m = d m) as Hlog.
  { intros m Hm. apply apply_tr_notin. intros Hin%fst_take. by eapply installs_home. }
  split; [|apply installs_ext; [apply H|done]].
  eapply log_disk_ok_ext; [done|done|]. apply apply_tr_sized; [apply H|].
  intros n v Hin. eapply installs_sized; [done|].
  by eapply elem_of_take in Hin as (? & ? & _); eauto using list_elem_of_lookup_2.
Qed.

(** An interrupted recovery changes nothing about the next one. *)
Lemma recovered_prefix d j m :
  log_disk_ok st d -> recovered st (apply_tr (take j (installs st d)) d) m = recovered st d m.
Proof.
  intros H. unfold recovered. destruct (installs_prefix_ok d j H) as [_ ->].
  destruct (decide (m ∈ (installs st d).*1)) as [Hin|Hno].
  - apply list_elem_of_fmap in Hin as ([n v] & -> & Hin). cbn.
    by rewrite !(apply_tr_in _ _ n v (installs_NoDup d H) Hin).
  - rewrite (apply_tr_notin _ _ m Hno), (apply_tr_notin _ d m Hno).
    apply apply_tr_notin. by intros Hin%fst_take.
Qed.

(** A cleared header: nothing to recover. *)
Lemma recovered_clear d h m : hd_n h = 0 -> recovered st (fset d st h) m = fset d st h m.
Proof. intros E. unfold recovered, installs. by rewrite fset_eq, E. Qed.

End pure.

Section crash.
Context {C : Type} `{!BufferCache C}.
Implicit Types (s : lst C) (a : acache).

(** A cache just after a restart over the disk [d]: nothing referenced. *)
Record fresh s (st : Z) (d : Z -> list Z) a : Prop := {
  fr_abs : bc_abs (lc s) a;
  fr_held : a_held a = [];
  fr_rc : forall m, blk m -> a_rc a m = 0;
  fr_disk : forall m, blk m -> a_disk a m = d m;
  fr_start : l_start (lg s) = st;
  fr_block : length (lh_block (lg s)) = 30%nat
}.

Lemma fresh_view s st d a m : fresh s st d a -> blk m -> a_view a m = d m.
Proof.
  intros F Hm. rewrite <- (fr_disk _ _ _ _ F m Hm). apply (bc_clean _ _ _ (fr_abs _ _ _ _ F) Hm).
  by apply F.
Qed.

Lemma fresh_spare s st d a : fresh s st d a -> spare a [].
Proof. intros F. split; [|cbn; lia]. intros m Hm. by rewrite (fr_rc _ _ _ _ F m Hm). Qed.

Lemma unpins_rec hm k t m : unpins hm true k t m = 0.
Proof. revert t. induction k as [|k IH]; intros t; cbn; [done|]. by rewrite IH. Qed.

(** The transaction [read_head] finds on the disk. *)
Lemma trans_of_disk s s1 st d a a1 bl n :
  fresh s st d a -> log_disk_ok st d -> n = hd_n (d st) ->
  lg s1 = set_lh_block bl (set_lh_n n (lg s)) -> length bl = 30%nat ->
  (forall j, Z.of_nat j < n -> bl !! j = Some (hd_block (d st) j)) ->
  (forall m, blk m -> a_rc a1 m = 0) -> trans s1 a1 true [] (Z.to_nat n) 0 /\
  forall i, 0 <= i < n -> home s1 i = hd_block (d st) (Z.to_nat i) /\ log_at s1 i = st + i + 1.
Proof.
  intros F H -> Eg Hl Hb Hrc. pose proof (ld_n _ _ H) as Hn.
  assert (forall i, 0 <= i < hd_n (d st) ->
    home s1 i = hd_block (d st) (Z.to_nat i) /\ log_at s1 i = st + i + 1) as Hi.
  { intros i Hi. unfold home, log_at. rewrite Eg. cbn. rewrite (fr_start _ _ _ _ F). split; [|done].
    erewrite (proj2 (zidx_Some _ _ _)); [done|]. split; [lia|]. apply Hb. lia. }
  split; [|done]. unfold LOGSIZE in Hn. split; rewrite ?Eg; cbn -[Z.add]; [lia|lia|..].
  - intros i Hr. destruct (Hi i ltac:(lia)) as [_ ->].
    assert (blk (st + i + 1)) by (apply (ld_area _ _ H); unfold in_log, LOGSIZE; lia). auto.
  - intros i Hr. destruct (Hi i ltac:(lia)) as [-> _].
    destruct (ld_home _ _ H (Z.to_nat i) ltac:(lia)) as [Hk _]. rewrite Hrc by done. auto with lia.
  - lia.
  - intros i j Hr Hr'. destruct (Hi i ltac:(lia)) as [-> _]. destruct (Hi j ltac:(lia)) as [_ ->].
    intros E. destruct (ld_home _ _ H (Z.to_nat i) ltac:(lia)) as [_ Hk]. apply Hk. rewrite E.
    unfold in_log, LOGSIZE. lia.
  - intros i j Hr Hr' Hne. destruct (Hi i ltac:(lia)) as [-> _]. destruct (Hi j ltac:(lia)) as [-> _].
    apply (ld_inj _ _ H); lia.
Qed.

(** Recovery after a restart, on any disk with a sound log: it ends, the
    writes it performs are the installations and the cleared header. *)
Lemma recover_spec s st d a :
  fresh s st d a -> log_disk_ok st d ->
  exists s' a' h, recover_from_log s = Ok (tt, s') /\
    (exists bl, length bl = 30%nat /\ lg s' = set_lh_n 0 (set_lh_block bl (lg s))) /\ bc_abs (lc s') a' /\
    length h = Z.to_nat BSIZE /\ hd_n h = 0 /\
    let tr := installs st d ++ [(st, h)] in
    eff a a' (apply_tr tr (a_view a)) (apply_tr tr (a_disk a)) (a_rc a) tr.
Proof.
  intros F H. pose proof (fr_start _ _ _ _ F) as Est. pose proof (ld_n _ _ H) as Hn.
  assert (blk st) as Hst by apply (ld_area _ _ H), in_log_start.
  pose proof (fresh_spare _ _ _ _ F) as HP. pose proof (fresh_view _ _ _ _ st F Hst) as Ev.
  assert (sized (a_view a)) as Hsz
    by (intros m Hm; rewrite (fresh_view _ _ _ _ m F Hm); by apply (ld_sized _ _ H)).
  destruct (read_head_spec s a [] (fr_abs _ _ _ _ F) (fr_held _ _ _ _ F) HP) as (c1 & bl & a1 & E1 & A1 & Hl & Hb & F1).
  { rewrite Est. by apply F. } { by rewrite Est. } { apply F. } { rewrite Est, Ev. unfold LOGSIZE in Hn. lia. }
  rewrite Est, Ev in E1, Hb. set (s1 := mkl _ c1 _) in E1.
  assert (forall m, blk m -> a_rc a1 m = 0) as Hrc1
    by (intros m Hm; rewrite (ef_rc _ _ _ _ _ _ F1) by done; by apply F).
  destruct (trans_of_disk s s1 st d a a1 bl _ F H eq_refl eq_refl Hl Hb Hrc1) as [X Hi].
  destruct (install_loop (Z.to_nat (hd_n (d st))) 0 s1 a1 [] true A1 (ef_held _ _ _ _ _ _ F1))
    as (c2 & a2 & E2 & A2 & F2).
  { eapply spare_rc; [|exact HP]. apply F1. }
  { intros m Hm. rewrite (ef_view _ _ _ _ _ _ F1) by done. by apply Hsz. } { done. }
  cbv zeta in F2. rewrite (writes_ext _ 0 _ _ (fun i => hd_block (d st) (Z.to_nat i))
    (fun i => d (st + i + 1))) in F2.
  2:{ intros i Hr. destruct (Hi i) as [I1 I2]; [lia|]. split; [done|]. rewrite I2.
      assert (blk (st + i + 1)) as Hk by (apply (ld_area _ _ H), in_log_at; lia).
      rewrite (ef_view _ _ _ _ _ _ F1) by done. by eapply fresh_view. }
  fold (installs st d) in F2.
  assert (forall m, blk m -> a_rc a2 m = 0) as Hrc2.
  { intros m Hm. rewrite (ef_rc _ _ _ _ _ _ F2), unpins_rec by done. rewrite Hrc1; done || lia. }
  set (s2 := mkl (set_lh_n 0 (lg s1)) c2 (lg_wakeups s1)).
  destruct (write_head_spec s2 a2 [] st A2 (ef_held _ _ _ _ _ _ F2)) as (c3 & h & a3 & E3 & A3 & Hlh & Hh & _ & F3).
  { split; [|cbn; lia]. intros m Hm. by rewrite Hrc2. } { by apply Hrc2. } { done. } { done. }
  { eapply eff_sized; [exact F2| |]; [|intros n v; by apply installs_sized].
    intros m Hm. rewrite (ef_view _ _ _ _ _ _ F1) by done. by apply Hsz. }
  { cbn. lia. } { done. } { cbn. intros. lia. }
  exists (mkl (lg s2) c3 (lg_wakeups s2)), a3, h. split; [|split; [by exists bl|do 3 (split; [done|])]].
  { unfold recover_from_log. rewrite (M_bind_Ok _ _ _ _ _ E1). unfold install_trans. mgo.
    change (lh_n (lg s1)) with (hd_n (d st)). rewrite (M_bind_Ok _ _ _ _ _ E2). unfold upd_lg. mgo.
    exact E3. }
  eapply eff_rc; [eapply (eff_trans a a1 a3 []); [exact F1|]|].
  { eapply (eff_trans a1 a2 a3); [exact F2|exact F3]. }
  intros m Hm. rewrite Hrc2 by done. symmetry. by apply F.
Qed.

(** ** Commit *)

(** A transaction ready to commit: the [N] blocks of the in-memory header are
    pinned in the cache, distinct, at home outside the log area, and nothing
    else is referenced. *)
Record tx_ready s (st : Z) (N : nat) a : Prop := {
  tr_abs : bc_abs (lc s) a;
  tr_held : a_held a = [];
  tr_start : l_start (lg s) = st;
  tr_block : length (lh_block (lg s)) = 30%nat;
  tr_n : lh_n (lg s) = Z.of_nat N;
  tr_N : (0 < N <= 29)%nat;
  tr_area : forall n, in_log st n -> blk n;
  tr_sized : sized (a_view a);
  tr_home : forall i, 0 <= i < Z.of_nat N -> blk (home s i) /\ ~ in_log st (home s i) /\
    1 <= a_rc a (home s i) < 2 ^ 32 - 2;
  tr_inj : forall i j, 0 <= i < Z.of_nat N -> 0 <= j < Z.of_nat N -> i <> j -> home s i <> home s j;
  tr_only : forall m, blk m -> a_rc a m <> 0 -> m ∈ home s <$> seqZ 0 (Z.of_nat N)
}.

Lemma tx_spare s st N a : tx_ready s st N a -> spare a (home s <$> seqZ 0 (Z.of_nat N)).
Proof.
  intros X. split; [apply X|]. rewrite length_fmap, length_seqZ. pose proof (tr_N _ _ _ _ X). lia.
Qed.

Lemma tx_log s st N a n : tx_ready s st N a -> in_log st n -> blk n /\ a_rc a n = 0.
Proof.
  intros X Hn. pose proof (tr_area _ _ _ _ X n Hn) as Hb. split; [done|].
  destruct (Z.eq_dec (a_rc a n) 0) as [|Hr]; [done|]. exfalso.
  apply (tr_only _ _ _ _ X n Hb) in Hr. apply list_elem_of_fmap in Hr as (i & -> & Hi).
  apply elem_of_seqZ in Hi. by apply (tr_home _ _ _ _ X i) in Hn.
Qed.

(** The values a transaction leaves in its home blocks, in order of writing. *)
Definition to_log s a N := writes N 0 (log_at s) (fun i => a_view a (home s i)).
Definition to_home s a N := writes N 0 (home s) (fun i => a_view a (home s i)).

Lemma to_log_NoDup s a N : NoDup (to_log s a N).*1.
Proof. unfold to_log. rewrite writes_fst. apply seqZ_fmap_NoDup. unfold log_at. lia. Qed.

Lemma to_log_in_log s st a N m : l_start (lg s) = st -> (N <= 29)%nat ->
  m ∈ (to_log s a N).*1 -> st < m < st + LOGSIZE.
Proof.
  intros <- HN. unfold to_log. rewrite writes_fst, list_elem_of_fmap. intros (i & -> & Hi).
  apply elem_of_seqZ in Hi. unfold log_at, LOGSIZE. lia.
Qed.

Lemma to_home_NoDup s st a N : tx_ready s st N a -> NoDup (to_home s a N).*1.
Proof.
  intros X. unfold to_home. rewrite writes_fst. apply seqZ_fmap_NoDup. intros i j Hi Hj E.
  destruct (decide (i = j)) as [|Hne]; [done|]. exfalso. apply (tr_inj _ _ _ _ X i j); [lia|lia|done|done].
Qed.

Lemma unpins_nonneg hm rec k t m : 0 <= unpins hm rec k t m.
Proof.
  revert t. induction k as [|k IH]; intros t; cbn; [lia|]. specialize (IH (t + 1)).
  unfold unpin. destruct rec; [lia|]. destruct (m =? hm t); lia.
Qed.

(** [unpin] only lowers counts: what was unreferenced stays so. *)
Lemma unpins_unref c a a' hm k t V K tr m :
  bc_abs c a' -> eff a a' V K (fun m => a_rc a m - unpins hm false k t m) tr -> blk m ->
  a_rc a m = 0 -> a_rc a' m = 0.
Proof.
  intros A F Hm E. pose proof (bc_rc_range _ _ _ A Hm) as Hr. rewrite (ef_rc _ _ _ _ _ _ F) in * by done.
  pose proof (unpins_nonneg hm false k t m). lia.
Qed.

Lemma in_log_log_at s st i : l_start (lg s) = st -> 0 <= i < LOGSIZE - 1 -> in_log st (log_at s i).
Proof. intros <- Hi. unfold log_at. by apply in_log_at. Qed.

(** First half: the blocks into the log, then the header. *)
Lemma commit_first s st N a :
  tx_ready s st N a ->
  exists c h a1, (write_log;; write_head) s = Ok (tt, mkl (lg s) c (lg_wakeups s)) /\ bc_abs c a1 /\
    length h = Z.to_nat BSIZE /\ hd_n h = Z.of_nat N /\
    (forall i, 0 <= i < Z.of_nat N -> hd_block h (Z.to_nat i) = home s i) /\
    let tr := to_log s a N ++ [(st, h)] in
    eff a a1 (apply_tr tr (a_view a)) (apply_tr tr (a_disk a)) (a_rc a) tr.
Proof.
  intros X. pose proof (tr_N _ _ _ _ X) as HN. pose proof (tr_start _ _ _ _ X) as Est.
  pose proof (tx_spare _ _ _ _ X) as HP. destruct (tx_log _ _ _ _ st X (in_log_start st)) as [Hst Hrs].
  destruct (write_log_loop N 0 s a _ (tr_abs _ _ _ _ X) (tr_held _ _ _ _ X) HP (tr_sized _ _ _ _ X))
    as (c1 & a1 & E1 & A1 & F1); [done|rewrite (tr_block _ _ _ _ X); lia| |].
  { intros i Hi. destruct (tx_log _ _ _ _ (log_at s i) X) as [L1 L2].
    { apply in_log_log_at; [done|]. unfold LOGSIZE. lia. }
    destruct (tr_home _ _ _ _ X i Hi) as (H1 & _ & H2). do 3 (split; [done|]). lia. }
  cbv zeta in F1. fold (to_log s a N) in F1. set (s1 := mkl (lg s) c1 (lg_wakeups s)) in *.
  destruct (write_head_spec s1 a1 (home s <$> seqZ 0 (Z.of_nat N)) st A1 (ef_held _ _ _ _ _ _ F1))
    as (c2 & h & a2 & E2 & A2 & Hl & Hn & Hb & F2).
  { eapply spare_rc; [|exact HP]. apply F1. }
  { by rewrite (ef_rc _ _ _ _ _ _ F1). } { done. } { done. }
  { eapply eff_sized; [exact F1|apply X|]. intros n v. apply writes_sized. intros i Hi.
    apply (tr_sized _ _ _ _ X), (tr_home _ _ _ _ X). lia. }
  { cbn. rewrite (tr_n _ _ _ _ X). lia. } { apply X. }
  { cbn. rewrite (tr_n _ _ _ _ X). intros i b Hi Hlt. destruct (tr_home _ _ _ _ X (Z.of_nat i)) as [Hk _]; [lia|].
    unfold home in Hk. erewrite (proj2 (zidx_Some _ _ b)) in Hk; [unfold blk in Hk; cbn in Hk; lia|].
    rewrite Nat2Z.id. split; [lia|done]. }
  exists c2, h, a2. split; [|do 2 (split; [done|])].
  { unfold write_log. mgo. rewrite (tr_n _ _ _ _ X), Nat2Z.id. by rewrite (M_bind_Ok _ _ _ _ _ E1). }
  cbn in Hn. rewrite Hn, (tr_n _ _ _ _ X). split; [done|]. split.
  { intros i Hi. rewrite Hb by (cbn; rewrite (tr_n _ _ _ _ X); lia). unfold home, zidx. cbn.
    by destruct (Z.leb_spec 0 i); [|lia]. }
  eapply eff_rc; [eapply eff_trans; [exact F1|exact F2]|]. intros m Hm. by apply F1.
Qed.

(** The blocks in the log are those the transaction wrote. *)
Lemma log_holds s st N a h i :
  tx_ready s st N a -> 0 <= i < Z.of_nat N ->
  apply_tr (to_log s a N ++ [(st, h)]) (a_view a) (log_at s i) = a_view a (home s i).
Proof.
  intros X Hi. rewrite apply_tr_app. cbn. unfold apply_tr at 1. cbn. rewrite fset_ne.
  - apply apply_tr_in; [apply to_log_NoDup|]. apply (writes_elem N 0 (log_at s) (fun i => a_view a (home s i))). lia.
  - pose proof (tr_start _ _ _ _ X). unfold log_at. lia.
Qed.

Lemma tx_trans s st N a s1 a1 :
  tx_ready s st N a -> lg s1 = lg s -> (forall m, blk m -> a_rc a1 m = a_rc a m) ->
  trans s1 a1 false (home s <$> seqZ 0 (Z.of_nat N)) N 0.
Proof.
  intros X Eg Hrc. pose proof (tr_N _ _ _ _ X) as HN.
  assert (forall i, home s1 i = home s i) as Eh by (intros; unfold home; by rewrite Eg).
  assert (forall i, log_at s1 i = log_at s i) as El by (intros; unfold log_at; by rewrite Eg).
  assert (forall i, 0 <= i < Z.of_nat N -> in_log st (log_at s i)) as Hin
    by (intros; apply in_log_log_at; [apply X|unfold LOGSIZE; lia]).
  split; rewrite ?Eg, ?(tr_block _ _ _ _ X); [lia|lia|..].
  - intros i Hi. rewrite El. destruct (tx_log _ _ _ _ (log_at s i) X) as [? ?]; [apply Hin; lia|].
    split; [done|]. by rewrite Hrc.
  - intros i Hi. rewrite Eh. destruct (tr_home _ _ _ _ X i) as (? & _ & ?); [lia|].
    split; [done|]. rewrite Hrc by done. lia.
  - intros i Hi. rewrite Eh. destruct (tr_home _ _ _ _ X i) as (? & _ & ?); [lia|].
    rewrite Hrc by done. lia.
  - intros i j Hi Hj. rewrite Eh, El. intros E.
    destruct (tr_home _ _ _ _ X i) as (_ & Hno & _); [lia|]. apply Hno. rewrite E. apply Hin. lia.
  - intros i j Hi Hj. rewrite !Eh. apply (tr_inj _ _ _ _ X); lia.
Qed.

(** Second half: the blocks to their home locations, then the cleared header. *)
Lemma commit_second s st N a c h a1 :
  tx_ready s st N a -> bc_abs c a1 -> length h = Z.to_nat BSIZE ->
  (let tr := to_log s a N ++ [(st, h)] in
   eff a a1 (apply_tr tr (a_view a)) (apply_tr tr (a_disk a)) (a_rc a) tr) ->
  exists c' h2 a', (install_trans false;; upd_lg (set_lh_n 0);; write_head)
      (mkl (lg s) c (lg_wakeups s)) = Ok (tt, mkl (set_lh_n 0 (lg s)) c' (lg_wakeups s)) /\
    bc_abs c' a' /\ length h2 = Z.to_nat BSIZE /\ hd_n h2 = 0 /\
    let tr := to_home s a N ++ [(st, h2)] in
    eff a1 a' (apply_tr tr (a_view a1)) (apply_tr tr (a_disk a1))
      (fun m => a_rc a m - unpins (home s) false N 0 m) tr.
Proof.
  intros X A1 Hlh F1. cbv zeta in F1. set (s1 := mkl (lg s) c (lg_wakeups s)).
  set (P := home s <$> seqZ 0 (Z.of_nat N)).
  assert (forall m, blk m -> a_rc a1 m = a_rc a m) as Hrc by apply F1.
  assert (sized (a_view a1)) as Hsz.
  { eapply eff_sized; [exact F1|apply X|]. intros n v [Hin|Hin]%elem_of_app.
    - revert Hin. apply writes_sized. intros i Hi. apply (tr_sized _ _ _ _ X), (tr_home _ _ _ _ X). lia.
    - apply list_elem_of_singleton in Hin. congruence. }
  destruct (install_loop N 0 s1 a1 P false A1 (ef_held _ _ _ _ _ _ F1)) as (c2 & a2 & E2 & A2 & F2);
    [by eapply spare_rc, tx_spare|done|by apply (tx_trans s st N a)|].
  cbv zeta in F2. change (home s1) with (home s) in F2. change (log_at s1) with (log_at s) in F2.
  rewrite (writes_ext N 0 _ _ (home s) (fun i => a_view a (home s i))) in F2.
  2:{ intros i Hi. split; [done|]. destruct (tx_log _ _ _ _ (log_at s i) X) as [Hb _].
      { apply in_log_log_at; [apply X|]. pose proof (tr_N _ _ _ _ X). unfold LOGSIZE. lia. }
      rewrite (ef_view _ _ _ _ _ _ F1) by done. by eapply log_holds. }
  fold (to_home s a N) in F2. set (s2 := mkl (set_lh_n 0 (lg s)) c2 (lg_wakeups s)).
  destruct (tx_log _ _ _ _ st X (in_log_start st)) as [Hst Hrs].
  destruct (write_head_spec s2 a2 P st A2 (ef_held _ _ _ _ _ _ F2)) as (c3 & h2 & a3 & E3 & A3 & Hl & Hn & _ & F3).
  { split; [|apply (tx_spare _ _ _ _ X)]. intros m Hm Hr. apply (tr_only _ _ _ _ X); [done|].
    intros E. apply Hr. eapply unpins_unref; [exact A2|exact F2|done|]. by rewrite Hrc. }
  { eapply unpins_unref; [exact A2|exact F2|done|]. by rewrite Hrc. } { symmetry. apply X. } { done. }
  { eapply eff_sized; [exact F2|done|]. intros n v. apply writes_sized. intros i Hi.
    apply (tr_sized _ _ _ _ X), (tr_home _ _ _ _ X). lia. }
  { cbn. lia. } { apply X. } { cbn. intros. lia. }
  exists c3, h2, a3. split; [|do 3 (split; [done|])].
  { unfold install_trans, upd_lg. mgo. 
    change (lg s1) with (lg s). rewrite (tr_n _ _ _ _ X), Nat2Z.id.
    rewrite (M_bind_Ok _ _ _ _ _ E2). mgo. exact E3. }
  eapply eff_rc; [eapply eff_trans; [exact F2|exact F3]|]. intros m Hm.
  rewrite (ef_rc _ _ _ _ _ _ F2) by done. by rewrite Hrc.
Qed.

(** The writes of a commit, in order. *)
Definition commit_tr s (st : Z) (N : nat) a (h1 h2 : list Z) : list (Z * list Z) :=
  to_log s a N ++ [(st, h1)] ++ to_home s a N ++ [(st, h2)].

Lemma commit_spec s st N a :
  tx_ready s st N a ->
  exists s' a' h1 h2, commit s = Ok (tt, s') /\ lg s' = set_lh_n 0 (lg s) /\ bc_abs (lc s') a' /\
    length h1 = Z.to_nat BSIZE /\ hd_n h1 = Z.of_nat N /\
    (forall i, 0 <= i < Z.of_nat N -> hd_block h1 (Z.to_nat i) = home s i) /\
    length h2 = Z.to_nat BSIZE /\ hd_n h2 = 0 /\
    let tr := commit_tr s st N a h1 h2 in
    eff a a' (apply_tr tr (a_view a)) (apply_tr tr (a_disk a))
      (fun m => a_rc a m - unpins (home s) false N 0 m) tr.
Proof.
  intros X. destruct (commit_first s st N a X) as (c1 & h1 & a1 & E1 & A1 & Hl & Hn & Hb & F1).
  destruct (commit_second s st N a c1 h1 a1 X A1 Hl F1) as (c2 & h2 & a2 & E2 & A2 & Hl2 & Hn2 & F2).
  exists (mkl (set_lh_n 0 (lg s)) c2 (lg_wakeups s)), a2, h1, h2. split.
  { unfold commit. mgo. rewrite (tr_n _ _ _ _ X). pose proof (tr_N _ _ _ _ X).
    destruct (Z.ltb_spec 0 (Z.of_nat N)); [|lia].
    rewrite <- (M_bind_assoc write_log (fun _ => write_head)). rewrite (M_bind_Ok _ _ _ _ _ E1).
    exact E2. }
  do 7 (split; [done|]). unfold commit_tr. rewrite app_assoc. eapply eff_trans; [exact F1|exact F2].
Qed.

(** ** Crashes *)

(** One restart on the disk [d] in which recovery performed only its first [j]
    writes: the next restart finds [d']. *)
Definition reboot (st : Z) (d d' : Z -> list Z) : Prop :=
  exists s a s' tr j, fresh s st d a /\ recover_from_log s = Ok (tt, s') /\
    bc_tr (lc s') = bc_tr (lc s) ++ tr /\ forall m, blk m -> d' m = apply_tr (take j tr) d m.

(** The content of the blocks outside the log after recovery. *)
Definition same_home (st : Z) (d d' : Z -> list Z) : Prop :=
  forall m, blk m -> ~ in_log st m -> recovered st d' m = recovered st d m.

Lemma recovered_ext st d d' m :
  log_disk_ok st d -> (forall n, blk n -> d' n = d n) -> blk m -> recovered st d' m = recovered st d m.
Proof.
  intros H E Hm. unfold recovered. rewrite (installs_ext st d d'); [by apply apply_tr_ext, E|apply H|].
  intros n Hn. by apply E, (ld_area _ _ H).
Qed.

Lemma log_disk_ok_blk st d d' :
  log_disk_ok st d -> (forall n, blk n -> d' n = d n) -> log_disk_ok st d'.
Proof.
  intros H E. eapply log_disk_ok_ext; [exact H| |].
  - intros n Hn. by apply E, (ld_area _ _ H).
  - intros n Hn. rewrite E by done. by apply (ld_sized _ _ H).
Qed.

(** A header without blocks. *)
Lemma clear_log_ok st d : (forall n, in_log st n -> blk n) -> sized d -> hd_n (d st) = 0 -> log_disk_ok st d.
Proof. intros Ha Hs E. split; [done|rewrite E; unfold LOGSIZE; lia|done|rewrite E; lia|rewrite E; lia]. Qed.

Lemma take_snoc {A} j (l : list A) x :
  take j (l ++ [x]) = take j l \/ (take j (l ++ [x]) = l ++ [x]).
Proof.
  destruct (decide (j <= length l)%nat) as [Hj|Hj].
  - left. by rewrite take_app_le.
  - right. apply take_ge. rewrite length_app. cbn. lia.
Qed.

(** Recovery, interrupted or not, keeps the log sound and the outcome. *)
Lemma recovery_prefix st d h j :
  log_disk_ok st d -> length h = Z.to_nat BSIZE -> hd_n h = 0 ->
  let d' := apply_tr (take j (installs st d ++ [(st, h)])) d in
  log_disk_ok st d' /\ same_home st d d'.
Proof.
  intros H Hl Hh. cbv zeta. destruct (take_snoc j (installs st d) (st, h)) as [->| ->].
  - split; [by apply installs_prefix_ok|]. intros m _ _. by apply recovered_prefix.
  - rewrite apply_tr_app. change (apply_tr [(st, h)] ?f) with (fset f st h). fold (recovered st d). split.
    + apply clear_log_ok; [apply H| |by rewrite fset_eq]. intros m Hm. unfold fset.
      destruct (m =? st); [done|]. apply apply_tr_sized; [apply H| |done].
      intros n v. by apply installs_sized.
    + intros m Hm Hno. rewrite recovered_clear by done. apply fset_ne. intros ->.
      apply Hno, in_log_start.
Qed.

Lemma reboot_ok st d d' : log_disk_ok st d -> reboot st d d' -> log_disk_ok st d' /\ same_home st d d'.
Proof.
  intros H (s & a & s' & tr & j & F & E & Et & Hd).
  destruct (recover_spec s st d a F H) as (s1 & a1 & h & E1 & _ & A1 & Hl & Hh & F1).
  rewrite E in E1. injection E1 as <-. cbv zeta in F1.
  rewrite (bc_tr_ok _ _ A1), (bc_tr_ok _ _ (fr_abs _ _ _ _ F)), (ef_tr _ _ _ _ _ _ F1) in Et.
  apply app_inv_head in Et. subst tr.
  destruct (recovery_prefix st d h j H Hl Hh) as [K1 K2]. split; [by eapply log_disk_ok_blk|].
  intros m Hm Hno. rewrite <- (K2 m Hm Hno). by apply recovered_ext.
Qed.

Lemma reboots_ok st d d' :
  rtc (reboot st) d d' -> log_disk_ok st d -> log_disk_ok st d' /\ same_home st d d'.
Proof.
  induction 1 as [d|d d1 d' R _ IH]; intros H; [done|].
  destruct (reboot_ok st d d1 H R) as [H1 S1]. destruct (IH H1) as [H2 S2]. split; [done|].
  intros m Hm Hno. by rewrite S2, S1.
Qed.

(** A recovery that completes. *)
Lemma recovery_disk s st d a s1 a1 h :
  fresh s st d a -> log_disk_ok st d -> bc_abs (lc s1) a1 -> hd_n h = 0 ->
  (let tr := installs st d ++ [(st, h)] in
   eff a a1 (apply_tr tr (a_view a)) (apply_tr tr (a_disk a)) (a_rc a) tr) ->
  hd_n (a_disk a1 st) = 0 /\
  forall m, blk m -> ~ in_log st m -> a_view a1 m = a_disk a1 m /\ a_disk a1 m = recovered st d m.
Proof.
  intros F0 H A1 Hh F1. cbv zeta in F1.
  assert (blk st) as Hst by apply (ld_area _ _ H), in_log_start.
  assert (forall m, blk m -> a_disk a1 m = fset (recovered st d) st h m) as Ed.
  { intros m Hm. rewrite (ef_disk _ _ _ _ _ _ F1), apply_tr_app by done.
    change (apply_tr [(st, h)] ?f) with (fset f st h). unfold fset. destruct (m =? st); [done|].
    apply apply_tr_ext. by apply F0. }
  split; [by rewrite Ed, fset_eq|]. intros m Hm Hno. split.
  - apply (bc_clean _ _ _ A1 Hm). rewrite (ef_rc _ _ _ _ _ _ F1) by done. by apply F0.
  - rewrite Ed by done. apply fset_ne. intros ->. by apply Hno, in_log_start.
Qed.

(** What restarts make of the disk after [j] of the writes [tr] to [d0]:
    [old] up to [k] writes, [new] from then on.  Recovery itself may be
    interrupted any number of times before it completes. *)
Definition crash_safe st (d0 : Z -> list Z) (tr : list (Z * list Z)) (k : nat) (old new : Z -> list Z) : Prop :=
  forall j d d' s0 a0,
    (forall m, blk m -> d m = apply_tr (take j tr) d0 m) ->
    rtc (reboot st) d d' -> fresh s0 st d' a0 ->
    exists s1 a1, recover_from_log s0 = Ok (tt, s1) /\ bc_abs (lc s1) a1 /\ lh_n (lg s1) = 0 /\
      hd_n (a_disk a1 st) = 0 /\
      forall m, blk m -> ~ in_log st m -> a_view a1 m = a_disk a1 m /\
        a_disk a1 m = if decide (j <= k)%nat then old m else new m.

(** It is enough to look at the disks a crash can leave. *)
Lemma crash_safe_intro st d0 tr k old new :
  (forall j, let d := apply_tr (take j tr) d0 in
    log_disk_ok st d /\ forall m, blk m -> ~ in_log st m ->
      recovered st d m = if decide (j <= k)%nat then old m else new m) ->
  crash_safe st d0 tr k old new.
Proof.
  intros H j d d' s0 a0 Hd Hr F0. destruct (H j) as [K1 K2].
  pose proof (log_disk_ok_blk st _ d K1 Hd) as K3. destruct (reboots_ok st d d' Hr K3) as [K4 K5].
  destruct (recover_spec s0 st d' a0 F0 K4) as (s1 & a1 & h & E1 & (bl & _ & El) & A1 & _ & Hh & F1).
  destruct (recovery_disk s0 st d' a0 s1 a1 h F0 K4 A1 Hh F1) as [H1 K].
  exists s1, a1. do 2 (split; [done|]). split; [by rewrite El|]. split; [done|]. intros m Hm Hno. destruct (K m Hm Hno) as [V1 V2].
  split; [done|]. rewrite V2, K5, <- K2 by done. by apply recovered_ext.
Qed.

Lemma crash_safe_ext st d0 tr k old new new' :
  crash_safe st d0 tr k old new ->
  (forall m, blk m -> ~ in_log st m -> new m = new' m) -> crash_safe st d0 tr k old new'.
Proof.
  intros H E j d d' s0 a0 Hd Hr F. destruct (H j d d' s0 a0 Hd Hr F) as (s1 & a1 & E1 & A1 & N1 & H1 & K).
  exists s1, a1. do 4 (split; [done|]). intros m Hm Hno. destruct (K m Hm Hno) as [K1 K2].
  split; [done|]. rewrite K2. case_decide; [done|]. by apply E.
Qed.

(** A disk with an empty log, never written: recovery changes nothing. *)
Lemma crash_safe_idle st d0 :
  log_disk_ok st d0 -> hd_n (d0 st) = 0 -> crash_safe st d0 [] 0 d0 d0.
Proof.
  intros Hok H0. apply crash_safe_intro. intros j. rewrite take_nil. split; [done|]. intros m _ _.
  unfold recovered, installs. cbn. rewrite H0. cbn. by case_decide.
Qed.

(** *** The disks a crash during [commit] can leave *)

(** What a transaction makes of the disk [d]. *)
Definition committed s N a (d : Z -> list Z) (m : Z) : list Z :=
  if decide (m ∈ home s <$> seqZ 0 (Z.of_nat N)) then a_view a m else d m.

Lemma to_home_apply s st N a d m :
  tx_ready s st N a -> apply_tr (to_home s a N) d m = committed s N a d m.
Proof.
  intros X. unfold committed. case_decide as Hin.
  - apply list_elem_of_fmap in Hin as (i & -> & Hi). apply elem_of_seqZ in Hi.
    apply apply_tr_in; [by eapply to_home_NoDup|].
    apply (writes_elem N 0 (home s) (fun i => a_view a (home s i))). lia.
  - apply apply_tr_notin. unfold to_home. by rewrite writes_fst.
Qed.

Lemma to_log_sized s st N a n v : tx_ready s st N a -> (n, v) ∈ to_log s a N -> length v = Z.to_nat BSIZE.
Proof.
  intros X. apply writes_sized. intros i Hi. apply (tr_sized _ _ _ _ X), (tr_home _ _ _ _ X). lia.
Qed.

Lemma to_home_sized s st N a n v : tx_ready s st N a -> (n, v) ∈ to_home s a N -> length v = Z.to_nat BSIZE.
Proof.
  intros X. apply writes_sized. intros i Hi. apply (tr_sized _ _ _ _ X), (tr_home _ _ _ _ X). lia.
Qed.

Lemma elem_take {A} (x : A) j l : x ∈ take j l -> x ∈ l.
Proof. intros (k & ? & _)%elem_of_take. by eapply list_elem_of_lookup_2. Qed.

Section disks.
Context s (st : Z) (N : nat) a (h1 : list Z) (d : Z -> list Z).
Hypothesis X : tx_ready s st N a.
Hypothesis Hl1 : length h1 = Z.to_nat BSIZE.
Hypothesis Hn1 : hd_n h1 = Z.of_nat N.
Hypothesis Hb1 : forall i, 0 <= i < Z.of_nat N -> hd_block h1 (Z.to_nat i) = home s i.
Hypothesis Hd : sized d.

(** Before the header is written, the log on disk is still empty. *)
Lemma before_header j :
  hd_n (d st) = 0 ->
  let d' := apply_tr (take j (to_log s a N)) d in
  log_disk_ok st d' /\ forall m, ~ in_log st m -> recovered st d' m = d m.
Proof.
  intros H0. cbv zeta. set (d' := apply_tr _ d). pose proof (tr_N _ _ _ _ X) as HN.
  assert (forall m, m ∈ (take j (to_log s a N)).*1 -> st < m < st + LOGSIZE) as Hin.
  { intros m Hm%fst_take. eapply to_log_in_log; [apply X| |exact Hm]. lia. }
  assert (d' st = d st) as Es by (apply apply_tr_notin; intros ?%Hin; lia).
  split.
  - apply clear_log_ok; [apply X| |by rewrite Es]. apply apply_tr_sized; [done|].
    intros n v Hv%elem_take. by eapply to_log_sized.
  - intros m Hm. unfold recovered, installs. rewrite Es, H0. change (d' m = d m).
    apply apply_tr_notin.
    intros Hv%Hin. apply Hm. unfold in_log. lia.
Qed.

(** The disk with the header written. *)
Definition header_disk : Z -> list Z := fset (apply_tr (to_log s a N) d) st h1.

Lemma header_installs : installs st header_disk = to_home s a N.
Proof.
  unfold installs, header_disk. rewrite fset_eq, Hn1, Nat2Z.id. apply writes_ext. intros i Hi.
  split; [apply Hb1; lia|]. rewrite fset_ne by lia. pose proof (tr_start _ _ _ _ X) as Est.
  replace (st + i + 1) with (log_at s i) by (unfold log_at; lia).
  apply apply_tr_in; [apply to_log_NoDup|].
  apply (writes_elem N 0 (log_at s) (fun i => a_view a (home s i))). lia.
Qed.

Lemma header_ok : log_disk_ok st header_disk.
Proof.
  pose proof (tr_N _ _ _ _ X) as HN. split.
  - apply X.
  - unfold header_disk. rewrite fset_eq, Hn1. unfold LOGSIZE. lia.
  - intros m Hm. unfold header_disk, fset. destruct (m =? st); [done|].
    apply apply_tr_sized; [done| |done]. intros n v. by eapply to_log_sized.
  - unfold header_disk. rewrite fset_eq, Hn1. intros i Hi. rewrite <- (Nat2Z.id i).
    rewrite Hb1 by lia. destruct (tr_home _ _ _ _ X (Z.of_nat i)) as (? & ? & _); [lia|done].
  - unfold header_disk. rewrite fset_eq, Hn1. intros i j Hi Hj Hne.
    rewrite <- (Nat2Z.id i), <- (Nat2Z.id j), !Hb1 by lia. apply (tr_inj _ _ _ _ X); lia.
Qed.

(** From then on recovery makes the disk what the transaction made it. *)
Lemma header_recovered m : ~ in_log st m -> recovered st header_disk m = committed s N a d m.
Proof.
  intros Hm. unfold recovered. rewrite header_installs, (to_home_apply s st) by done.
  unfold committed. case_decide; [done|]. unfold header_disk.
  rewrite fset_ne by (intros ->; by apply Hm, in_log_start). apply apply_tr_notin. intros Hin.
  apply Hm. eapply to_log_in_log in Hin; [|apply X|apply (tr_N _ _ _ _ X)]. unfold in_log. lia.
Qed.

(** Every disk a crash can leave. *)
Lemma commit_prefix h2 j :
  length h2 = Z.to_nat BSIZE -> hd_n h2 = 0 -> hd_n (d st) = 0 ->
  let d' := apply_tr (take j (commit_tr s st N a h1 h2)) d in
  log_disk_ok st d' /\ forall m, blk m -> ~ in_log st m ->
    recovered st d' m = if decide (j <= N)%nat then d m else committed s N a d m.
Proof.
  intros Hl2 Hn2 H0. cbv zeta. unfold commit_tr.
  assert (length (to_log s a N) = N) as Len by (unfold to_log, writes; rewrite length_fmap, length_seqZ; lia).
  case_decide as Hj.
  - rewrite take_app_le by lia. destruct (before_header j H0) as [A B]. split; [done|]. intros m _. apply B.
  - rewrite take_app_ge by lia. rewrite Len. destruct (j - N)%nat as [|k] eqn:Ek; [lia|]. cbn [app take].
    rewrite apply_tr_app, apply_tr_cons. fold header_disk.
    rewrite <- header_installs. destruct (recovery_prefix st header_disk h2 k header_ok Hl2 Hn2) as [A B].
    split; [done|]. intros m Hm Hno. rewrite B by done. by apply header_recovered.
Qed.

End disks.

(** [commit] is atomic under crashes: every block outside the log is as it
    was on disk before the commit when the crash came before the header was
    written (at most [N] writes), and otherwise as the transaction made it. *)
Lemma commit_crash s st N a :
  tx_ready s st N a -> hd_n (a_disk a st) = 0 -> sized (a_disk a) ->
  exists s' tr, commit s = Ok (tt, s') /\ bc_tr (lc s') = bc_tr (lc s) ++ tr /\
    length tr = (2 * N + 2)%nat /\
    crash_safe st (a_disk a) tr N (a_disk a) (committed s N a (a_disk a)).
Proof.
  intros X Hempty Hsized.
  destruct (commit_spec s st N a X) as (s' & a' & h1 & h2 & E & _ & A' & Hl1 & Hn1 & Hb1 & Hl2 & Hn2 & F).
  cbv zeta in F. exists s', (commit_tr s st N a h1 h2). split; [done|]. split; [|split].
  { rewrite (bc_tr_ok _ _ A'), (bc_tr_ok _ _ (tr_abs _ _ _ _ X)). apply F. }
  { unfold commit_tr, to_log, to_home, writes. rewrite !length_app, !length_fmap, length_seqZ. cbn. lia. }
  apply crash_safe_intro. intros j. by apply commit_prefix.
Qed.

End crash.
