(* ===== verification/LogTx.v ===== *)
(** * Transactions

    [log_write], [begin_op] and [end_op]: the blocks logged so far are pinned
    in the cache, a transaction is atomic with respect to crashes from its
    first [bread] to its last disk write, and the reservation [begin_op]
    makes bounds what is logged. *)

From S2P Require Import Prelude Sleeplock Disk Bio BioThms Cache BioCache Bytes Log LogSpec LogCrash.

(** The use of [log_write] its comment describes: read the block, change its
    data, log it, release it. *)
Section tx.
Context {C : Type} `{!BufferCache C}.
Implicit Types (s : lst C) (a : acache).
Notation L := (M (lst C)).

Definition log_update (n : Z) (f : list Z -> list Z) : L unit :=
  b ← lread n;
  data ← on_c (bc_get b);
  on_c (bc_put b (f data));;
  log_write b;;
  on_c (bc_brelse b).

Fixpoint log_updates (ws : list (Z * (list Z -> list Z))) : L unit :=
  match ws with
  | [] => mret tt
  | (n, f) :: ws => log_update n f;; log_updates ws
  end.

(** An operation of the file system: [begin_op], changes, [end_op]. *)
Definition fs_op (sleep : L unit) (fuel : nat) (ws : list (Z * (list Z -> list Z))) : L unit :=
  begin_op sleep fuel;; log_updates ws;; end_op.

(** ** The blocks logged so far *)

Definition homes s : list Z := home s <$> seqZ 0 (lh_n (lg s)).

Record tx_inv s (st : Z) a : Prop := {
  ti_abs : bc_abs (lc s) a;
  ti_start : l_start (lg s) = st;
  ti_block : length (lh_block (lg s)) = 30%nat;
  ti_n : 0 <= lh_n (lg s) <= 29;
  ti_area : forall n, in_log st n -> blk n;
  ti_sized : sized (a_view a);
  ti_home : forall m, m ∈ homes s -> blk m /\ ~ in_log st m;
  ti_nodup : NoDup (homes s);
  ti_rc : forall m, blk m -> a_rc a m =
    (if decide (m ∈ homes s) then 1 else 0) + (if decide (m ∈ (a_held a).*2) then 1 else 0)
}.

Lemma homes_elem s i : 0 <= i < lh_n (lg s) -> home s i ∈ homes s.
Proof. intros Hi. apply list_elem_of_fmap. exists i. split; [done|]. apply elem_of_seqZ. lia. Qed.

Lemma homes_inv s m : m ∈ homes s -> exists i, 0 <= i < lh_n (lg s) /\ m = home s i.
Proof. intros (i & -> & Hi)%list_elem_of_fmap. apply elem_of_seqZ in Hi. exists i. split; [lia|done]. Qed.

Lemma homes_inj s i j :
  NoDup (homes s) -> 0 <= i < lh_n (lg s) -> 0 <= j < lh_n (lg s) -> home s i = home s j -> i = j.
Proof.
  intros H Hi Hj E. unfold homes in H.
  assert (forall k, 0 <= k < lh_n (lg s) -> (home s <$> seqZ 0 (lh_n (lg s))) !! Z.to_nat k = Some (home s k)) as Hk.
  { intros k Hk. rewrite list_lookup_fmap, lookup_seqZ_lt by lia. cbn. f_equal. f_equal. lia. }
  pose proof (Hk i Hi) as Ki. rewrite E in Ki. pose proof (NoDup_lookup _ _ _ _ H Ki (Hk j Hj)). lia.
Qed.

(** ** [log_write] *)

(** The scan stops at the entry of the block, or at the end. *)
Lemma find_block_spec k i s n :
  0 <= i -> i + Z.of_nat k <= Z.of_nat (length (lh_block (lg s))) ->
  (forall j, i <= j < i + Z.of_nat k -> blk (home s j)) ->
  exists j, find_block k i (lh_block (lg s)) n = Ok j /\ i <= j <= i + Z.of_nat k /\
    (j < i + Z.of_nat k -> home s j = n) /\ (forall j', i <= j' < j -> home s j' <> n).
Proof.
  revert i. induction k as [|k IH]; intros i Hi Hk Hb; cbn.
  { exists i. split; [done|]. repeat split; lia. }
  rewrite rd_home by lia. cbn. assert (u32 (home s i) = home s i) as ->.
  { specialize (Hb i ltac:(lia)). unfold blk in Hb. rewrite u32_small; lia. }
  destruct (Z.eqb_spec (home s i) n) as [E|E].
  - exists i. split; [done|]. repeat split; [lia|lia|done|lia].
  - destruct (IH (i + 1)) as (j & -> & Hj & J1 & J2); [lia|lia|intros j Hj; apply Hb; lia|].
    exists j. split; [done|]. repeat split; [lia|lia|intros; apply J1; lia|].
    intros j' Hj'. destruct (Z.eq_dec j' i) as [->|]; [done|]. apply J2. lia.
Qed.

(** The header with the block [n] appended. *)
Definition log_snoc n s : log :=
  set_lh_n (lh_n (lg s) + 1) (set_lh_block (<[Z.to_nat (lh_n (lg s)) := n]> (lh_block (lg s))) (lg s)).

Lemma homes_snoc s n c w :
  0 <= lh_n (lg s) < Z.of_nat (length (lh_block (lg s))) ->
  homes (mkl (log_snoc n s) c w) = homes s ++ [n].
Proof.
  intros Hn. unfold homes. change (lh_n _) with (lh_n (lg s) + 1) at 1. rewrite seqZ_app by lia.
  rewrite fmap_app. f_equal.
  - apply list_fmap_ext. intros k i Hk%lookup_seqZ. unfold home. cbn. by rewrite zidx_insert_ne by lia.
  - rewrite seqZ_cons by lia. cbn [fmap list_fmap]. rewrite Z.add_0_l. unfold home. cbn.
    by rewrite zidx_insert_eq by lia.
Qed.

(** What [log_write] does: nothing for a block logged already, else the block
    is appended to the header and pinned. *)
Lemma log_write_run s st a b n :
  tx_inv s st a -> (b, n) ∈ a_held a -> lh_n (lg s) < 30 -> lh_n (lg s) < l_size (lg s) - 1 ->
  1 <= outstanding (lg s) ->
  (n ∈ homes s /\ log_write b s = Ok (tt, s)) \/
  (n ∉ homes s /\ exists c, log_write b s = Ok (tt, mkl (log_snoc n s) c (lg_wakeups s)) /\
     bc_abs c (a_bpin n a)).
Proof.
  intros I Hb Hn Hsz Ho. destruct (bc_held_ok _ _ _ _ (ti_abs _ _ _ I) Hb) as [Hk _].
  pose proof (bc_blockno_ok _ _ _ _ (ti_abs _ _ _ I) Hb) as E1. pose proof (ti_n _ _ _ I) as HN.
  pose proof (ti_block _ _ _ I) as Hl.
  destruct (find_block_spec (Z.to_nat (lh_n (lg s))) 0 s n) as (i & E2 & Hi & I1 & I2); [lia|lia| |].
  { intros j Hj. apply (ti_home _ _ _ I), homes_elem. lia. }
  assert (log_write b s = (blocks' ← lift (wr (lh_block (lg s)) i n);
    upd_lg (set_lh_block blocks');;
    if i =? lh_n (lg s) then on_c (bc_bpin b);; upd_lg (fun l => set_lh_n (lh_n l + 1) l)
    else mret tt) s) as ->.
  { unfold log_write. mgo. destruct (Z.leb_spec LOGSIZE (lh_n (lg s))); [unfold LOGSIZE in *; lia|].
    destruct (Z.leb_spec (l_size (lg s) - 1) (lh_n (lg s))); [lia|]. cbn [orb].
    destruct (Z.ltb_spec (outstanding (lg s)) 1); [lia|].
    erewrite M_bind_Ok; [|apply on_c_Ok, E1]. rewrite (M_bind_lift _ _ _ _ E2).
    unfold blk in Hk. rewrite s32_small by lia. by destruct s. }
  erewrite M_bind_lift; [|apply wr_Ok; lia]. unfold upd_lg. mgo.
  destruct (Z.eqb_spec i (lh_n (lg s))) as [->|Hne].
  - right. split.
    { intros (j & Hj & ->)%homes_inv. by apply (I2 j). }
    destruct (bc_bpin_ok _ _ b n (ti_abs _ _ _ I) Hb) as (c & E3 & A3).
    { rewrite (ti_rc _ _ _ I) by done. repeat case_decide; lia. }
    exists c. split; [|done]. erewrite M_bind_Ok; [|by apply on_c_Ok]. done.
  - left. split; [rewrite <- I1 by lia; apply homes_elem; lia|].
    assert (<[Z.to_nat i := n]> (lh_block (lg s)) = lh_block (lg s)) as ->.
    { apply list_insert_id. rewrite <- I1 by lia. unfold home.
      destruct (zidx_is_Some (lh_block (lg s)) i) as [x Ex]; [lia|]. rewrite Ex. cbn.
      by apply zidx_Some in Ex as [_ ?]. }
    by destruct s as [[] ? ?].
Qed.

(** Only the header fields changed. *)
Definition same_log s s' : Prop :=
  l_start (lg s') = l_start (lg s) /\ l_size (lg s') = l_size (lg s) /\
  outstanding (lg s') = outstanding (lg s) /\ committing (lg s') = committing (lg s).

(** The state after one logged change of the block [n]. *)
Record updated s a n (v : list Z) s' a' : Prop := {
  up_log : same_log s s';
  up_homes : homes s' = if decide (n ∈ homes s) then homes s else homes s ++ [n];
  up_n : lh_n (lg s') <= lh_n (lg s) + 1;
  up_view : forall m, blk m -> a_view a' m = fset (a_view a) n v m;
  up_disk : forall m, blk m -> a_disk a' m = a_disk a m;
  up_held : a_held a' = [];
  up_tr : a_tr a' = a_tr a
}.

(** [log_write] of the only buffer held. *)
Lemma log_write_held s st a b n :
  tx_inv s st a -> a_held a = [(b, n)] -> ~ in_log st n -> lh_n (lg s) < 29 ->
  l_size (lg s) = 30 -> 1 <= outstanding (lg s) ->
  exists s' a', log_write b s = Ok (tt, s') /\ tx_inv s' st a' /\ same_log s s' /\
    homes s' = (if decide (n ∈ homes s) then homes s else homes s ++ [n]) /\ n ∈ homes s' /\
    lh_n (lg s') <= lh_n (lg s) + 1 /\
    a_view a' = a_view a /\ a_disk a' = a_disk a /\ a_held a' = a_held a /\ a_tr a' = a_tr a.
Proof.
  intros I Hh Hno Hn Hsz Ho. assert ((b, n) ∈ a_held a) as Hb by (rewrite Hh; by left).
  destruct (bc_held_ok _ _ _ _ (ti_abs _ _ _ I) Hb) as [Hk _]. pose proof (ti_n _ _ _ I) as HN.
  destruct (log_write_run s st a b n I Hb) as [[Hin E]|(Hni & c & E & A)]; [lia|lia|done|..].
  - exists s, a. rewrite decide_True by done. do 3 (split; [done|]). split; [done|]. split; [done|].
    split; [lia|done].
  - pose proof (ti_block _ _ _ I) as Hl. set (s' := mkl (log_snoc n s) c (lg_wakeups s)) in *.
    assert (homes s' = homes s ++ [n]) as Eh by (apply homes_snoc; lia).
    exists s', (a_bpin n a). rewrite decide_False by done. split; [done|]. split; [|rewrite Eh].
    2:{ split; [done|]. split; [done|]. split; [set_solver|]. split; [cbn; lia|done]. }
    split; cbn [lc s' a_bpin a_view a_held lg log_snoc set_lh_n set_lh_block l_start lh_block lh_n a_rc].
    + done.
    + apply I.
    + by rewrite length_insert.
    + lia.
    + apply I.
    + apply I.
    + rewrite Eh. intros m [Hm|Hm]%elem_of_app; [by apply (ti_home _ _ _ I)|].
      apply list_elem_of_singleton in Hm as ->. done.
    + rewrite Eh. apply NoDup_app. split; [apply I|]. split; [|apply NoDup_singleton].
      intros m Hm ->%list_elem_of_singleton. done.
    + intros m Hm. rewrite Eh. unfold fset. destruct (Z.eqb_spec m n) as [->|Hne].
      * rewrite (ti_rc _ _ _ I) by done. rewrite (decide_False (P := n ∈ homes s)) by done.
        rewrite (decide_True (P := n ∈ homes s ++ [n])) by set_solver. case_decide; lia.
      * rewrite (ti_rc _ _ _ I) by done. f_equal. apply decide_ext. set_solver.
Qed.

(** Reading and releasing a block between other operations. *)
Lemma tx_inv_bread s st a b n c :
  tx_inv s st a -> a_held a = [] -> bc_abs c (a_bread b n a) ->
  tx_inv (mkl (lg s) c (lg_wakeups s)) st (a_bread b n a).
Proof.
  intros [I1 I2 I3 I4 I5 I6 I7 I8 I9] Hh A. split; try done. intros m Hm.
  change (homes _) with (homes s). cbn [a_bread a_rc a_held]. rewrite Hh. unfold fset.
  destruct (Z.eqb_spec m n) as [->|Hne]; rewrite I9, Hh by done; cbn [fmap list_fmap snd];
    rewrite (decide_False (P := _ ∈ [])) by apply not_elem_of_nil.
  - rewrite (decide_True (P := n ∈ [n])) by left. lia.
  - rewrite (decide_False (P := m ∈ [_])); [lia|]. by rewrite list_elem_of_singleton.
Qed.

Lemma tx_inv_put s st a n v c :
  tx_inv s st a -> length v = Z.to_nat BSIZE -> bc_abs c (a_put n v a) ->
  tx_inv (mkl (lg s) c (lg_wakeups s)) st (a_put n v a).
Proof.
  intros [I1 I2 I3 I4 I5 I6 I7 I8 I9] Hv A. split; try done. intros m Hm. cbn. unfold fset.
  destruct (m =? n); [done|by apply I6].
Qed.

Lemma tx_inv_brelse s st a b n c :
  tx_inv s st a -> a_held a = [(b, n)] -> bc_abs c (a_brelse b n a) ->
  tx_inv (mkl (lg s) c (lg_wakeups s)) st (a_brelse b n a) /\ a_held (a_brelse b n a) = [].
Proof.
  intros [I1 I2 I3 I4 I5 I6 I7 I8 I9] Hh A.
  assert (a_held (a_brelse b n a) = []) as Eh by (cbn; rewrite Hh; cbn; by rewrite Z.eqb_refl).
  split; [|done]. split; try done. intros m Hm. change (homes (mkl (lg s) _ _)) with (homes s).
  rewrite Eh. cbn [a_brelse a_rc]. unfold fset.
  destruct (Z.eqb_spec m n) as [->|Hne]; rewrite I9, Hh by done; cbn [fmap list_fmap snd];
    rewrite (decide_False (P := _ ∈ [])) by apply not_elem_of_nil.
  - rewrite (decide_True (P := n ∈ [n])) by left. lia.
  - rewrite (decide_False (P := m ∈ [_])); [lia|]. by rewrite list_elem_of_singleton.
Qed.

Lemma homes_length s : 0 <= lh_n (lg s) -> Z.of_nat (length (homes s)) = lh_n (lg s).
Proof. intros. unfold homes. rewrite length_fmap, length_seqZ. lia. Qed.

Lemma tx_room s st a n : tx_inv s st a -> a_held a = [] -> a_room a n.
Proof.
  intros I Hh. right. exists (homes s). pose proof (ti_n _ _ _ I). pose proof (homes_length s ltac:(lia)).
  split; [|lia]. intros m Hm. rewrite (ti_rc _ _ _ I), Hh by done. case_decide; [done|].
  rewrite decide_False by apply not_elem_of_nil. done.
Qed.

Lemma tx_rc s st a m : tx_inv s st a -> a_held a = [] -> blk m ->
  a_rc a m = if decide (m ∈ homes s) then 1 else 0.
Proof.
  intros I Hh Hm. rewrite (ti_rc _ _ _ I), Hh by done.
  rewrite (decide_False (P := m ∈ [].*2)) by apply not_elem_of_nil. lia.
Qed.

(** A logged change: the block looks changed, the disk is untouched. *)
Lemma log_update_spec s st a n f :
  tx_inv s st a -> a_held a = [] -> blk n -> ~ in_log st n -> lh_n (lg s) < 29 ->
  l_size (lg s) = 30 -> 1 <= outstanding (lg s) ->
  (forall v, length v = Z.to_nat BSIZE -> length (f v) = Z.to_nat BSIZE) ->
  exists s' a', log_update n f s = Ok (tt, s') /\ tx_inv s' st a' /\
    updated s a n (f (a_view a n)) s' a'.
Proof.
  intros I Hh Hk Hno Hn Hsz Ho Hf.
  destruct (lread_Ok s a n (ti_abs _ _ _ I) Hk) as (b & c1 & E1 & A1 & _).
  { rewrite Hh. apply not_elem_of_nil. } { rewrite (tx_rc s st) by done. case_decide; lia. }
  { by eapply tx_room. }
  pose proof (tx_inv_bread _ _ _ _ _ _ I Hh A1) as I1.
  assert ((b, n) ∈ a_held (a_bread b n a)) as Hb by left.
  pose proof (bc_get_ok _ _ _ _ A1 Hb) as E2. cbn in E2.
  destruct (bc_put_ok _ _ _ _ (f (a_view a n)) A1 Hb) as (c2 & E3 & A2).
  pose proof (tx_inv_put _ _ _ _ _ _ I1 (Hf _ (ti_sized _ _ _ I n Hk)) A2) as I2. cbn [lg lg_wakeups] in I2.
  set (a2 := a_put n (f (a_view a n)) (a_bread b n a)) in *.
  destruct (log_write_held _ st a2 b n I2) as (s3 & a3 & E4 & I3 & L3 & Eh & Hin & HN & V3 & K3 & H3 & T3).
  { unfold a2. cbn. by rewrite Hh. } { done. } { done. } { done. } { done. }
  assert (a_held a3 = [(b, n)]) as Hh3 by (rewrite H3; unfold a2; cbn; by rewrite Hh).
  destruct (bc_brelse_ok _ _ b n (ti_abs _ _ _ I3)) as (c4 & E5 & A4).
  { rewrite Hh3. left. }
  { rewrite (ti_rc _ _ _ I3) by done. rewrite decide_True by done. rewrite Hh3, decide_True by left. lia. }
  destruct (tx_inv_brelse _ _ _ _ _ _ I3 Hh3 A4) as [I4 H4].
  exists (mkl (lg s3) c4 (lg_wakeups s3)), (a_brelse b n a3). split; [|split; [done|]].
  { unfold log_update. rewrite (M_bind_Ok _ _ _ _ _ E1).
    erewrite M_bind_Ok; [|apply on_c_Ok, E2]. erewrite M_bind_Ok; [|apply on_c_Ok, E3].
    cbn [lg lg_wakeups lc]. rewrite (M_bind_Ok _ _ _ _ _ E4). by erewrite on_c_Ok. }
  split; try done; cbn; intros; by rewrite ?V3, ?K3, ?T3.
Qed.

(** ** Several changes *)

Definition apply_ws (ws : list (Z * (list Z -> list Z))) (V : Z -> list Z) : Z -> list Z :=
  foldl (fun V w => fset V (fst w) (snd w (V (fst w)))) V ws.

(** Changes a file system operation may make. *)
Definition ws_ok (st : Z) (ws : list (Z * (list Z -> list Z))) : Prop :=
  Forall (fun w => blk (fst w) /\ ~ in_log st (fst w) /\
    forall v, length v = Z.to_nat BSIZE -> length (snd w v) = Z.to_nat BSIZE) ws.

Lemma apply_ws_ext ws V V' :
  Forall (fun w => blk (fst w)) ws -> (forall m, blk m -> V m = V' m) ->
  forall m, blk m -> apply_ws ws V m = apply_ws ws V' m.
Proof.
  intros H. revert V V'. induction H as [|[n f] ws Hn _ IH]; intros V V' E m Hm; cbn; [by apply E|].
  apply IH; [|done]. intros k Hk. unfold fset. cbn in *. rewrite (E n Hn). destruct (k =? n); auto.
Qed.

(** The transaction in progress: [V] is what the blocks look like. *)
Record in_tx s st a (V K : Z -> list Z) s' a' : Prop := {
  it_inv : tx_inv s' st a';
  it_log : same_log s s';
  it_held : a_held a' = [];
  it_view : forall m, blk m -> a_view a' m = V m;
  it_disk : forall m, blk m -> a_disk a' m = K m;
  it_tr : a_tr a' = a_tr a
}.

Lemma log_updates_spec ws s st a :
  tx_inv s st a -> a_held a = [] -> ws_ok st ws -> lh_n (lg s) + Z.of_nat (length ws) <= 29 ->
  l_size (lg s) = 30 -> 1 <= outstanding (lg s) ->
  exists s' a', log_updates ws s = Ok (tt, s') /\ in_tx s st a (apply_ws ws (a_view a)) (a_disk a) s' a'.
Proof.
  intros I Hh Hws. revert s a I Hh. induction Hws as [|[n f] ws (Hb & Hno & Hf) Hws IH];
    intros s a I Hh Hn Hsz Ho; cbn [length] in Hn.
  { exists s, a. by split. }
  destruct (log_update_spec s st a n f I Hh Hb Hno) as (s1 & a1 & E1 & I1 & U); [lia|done|done|done|].
  destruct U as [(L1 & L2 & L3 & L4) _ U2 U3 U4 U5 U6].
  destruct (IH s1 a1 I1 U5) as (s2 & a2 & E2 & J); [lia|lia|lia|].
  exists s2, a2. cbn. rewrite (M_bind_Ok _ _ _ _ _ E1). split; [done|].
  destruct J as [J1 (M1 & M2 & M3 & M4) J3 J4 J5 J6]. split; [done| |done|..].
  - unfold same_log. rewrite M1, M2, M3, M4. done.
  - intros m Hm. rewrite J4 by done. apply apply_ws_ext; [|done|done].
    eapply Forall_impl; [exact Hws|]. cbn. tauto.
  - intros m Hm. rewrite J5 by done. by apply U4.
  - by rewrite J6.
Qed.

Lemma ws_sized st ws V : ws_ok st ws -> sized V -> sized (apply_ws ws V).
Proof.
  intros H. revert V. induction H as [|[n f] ws (Hb & _ & Hf) _ IH]; intros V Hs; [done|].
  apply IH. intros m Hm. cbn. unfold fset. destruct (m =? n); auto.
Qed.

(** Only the blocks of the changes change. *)
Lemma apply_ws_log st ws V m : ws_ok st ws -> in_log st m -> apply_ws ws V m = V m.
Proof.
  intros H Hm. revert V. induction H as [|[n f] ws (_ & Hno & _) _ IH]; intros V; [done|].
  change (apply_ws ws (fset V n (f (V n))) m = V m). rewrite IH. apply fset_ne. by intros ->.
Qed.

(** ** Between operations *)

Record quiescent s (st : Z) a : Prop := {
  q_inv : tx_inv s st a;
  q_held : a_held a = [];
  q_n : lh_n (lg s) = 0;
  q_out : outstanding (lg s) = 0;
  q_com : committing (lg s) = 0;
  q_size : l_size (lg s) = 30;
  q_head : hd_n (a_disk a st) = 0
}.

Lemma quiescent_disk s st a m : quiescent s st a -> blk m -> a_view a m = a_disk a m.
Proof.
  intros Q Hm. apply (bc_clean _ _ _ (ti_abs _ _ _ (q_inv _ _ _ Q)) Hm).
  rewrite (tx_rc s st) by (done || apply Q). rewrite decide_False; [done|].
  unfold homes. rewrite (q_n _ _ _ Q). apply not_elem_of_nil.
Qed.

(** What is logged is ready to be committed. *)
Lemma tx_inv_ready s st a :
  tx_inv s st a -> a_held a = [] -> 0 < lh_n (lg s) -> tx_ready s st (Z.to_nat (lh_n (lg s))) a.
Proof.
  intros I Hh Hn. pose proof (ti_n _ _ _ I). split; try apply I; try done; try lia.
  - intros i Hi. assert (home s i ∈ homes s) as Hin by (apply homes_elem; lia).
    destruct (ti_home _ _ _ I _ Hin) as [Hb Hno]. split; [done|]. split; [done|].
    rewrite (tx_rc s st), decide_True by done. lia.
  - intros i j Hi Hj Hne E. apply Hne. eapply homes_inj; [apply I|lia|lia|done].
  - intros m Hm. rewrite (tx_rc s st), Z2Nat.id by (done || lia). fold (homes s). by case_decide.
Qed.

Lemma unpins_once hm k t m :
  NoDup (hm <$> seqZ t (Z.of_nat k)) ->
  unpins hm false k t m = if decide (m ∈ hm <$> seqZ t (Z.of_nat k)) then 1 else 0.
Proof.
  revert t. induction k as [|k IH]; intros t; [done|]. rewrite seqZ_cons by lia. cbn [fmap list_fmap unpins].
  replace (Z.pred (Z.of_nat (S k))) with (Z.of_nat k) by lia. change (Z.succ t) with (t + 1).
  intros [Hno HN]%NoDup_cons. rewrite IH by done. unfold unpin.
  destruct (Z.eqb_spec m (hm t)) as [->|Hne].
  - rewrite decide_False by done. rewrite decide_True by left. lia.
  - rewrite (decide_ext (m ∈ hm t :: _) (m ∈ hm <$> seqZ (t + 1) (Z.of_nat k))); [lia|].
    rewrite elem_of_cons. tauto.
Qed.

(** [commit] leaves a quiescent log: everything on disk is as it looked. *)
Lemma commit_quiescent s st a :
  tx_inv s st a -> a_held a = [] -> 0 < lh_n (lg s) -> sized (a_disk a) ->
  exists s' a', commit s = Ok (tt, s') /\ lg s' = set_lh_n 0 (lg s) /\ tx_inv s' st a' /\
    a_held a' = [] /\ hd_n (a_disk a' st) = 0 /\ sized (a_disk a') /\
    (forall tr m, blk m -> bc_tr (lc s') = bc_tr (lc s) ++ tr -> a_disk a' m = apply_tr tr (a_disk a) m) /\
    forall m, blk m -> ~ in_log st m -> a_disk a' m = a_view a m.
Proof.
  intros I Hh Hn Hsz. set (N := Z.to_nat (lh_n (lg s))). pose proof (tx_inv_ready s st a I Hh Hn) as X.
  destruct (commit_spec s st N a X) as (s' & a' & h1 & h2 & E & El & A' & Hl1 & Hn1 & Hb1 & Hl2 & Hn2 & F).
  cbv zeta in F. set (tr := commit_tr s st N a h1 h2) in *.
  assert (blk st) as Hst by apply (ti_area _ _ _ I), in_log_start.
  assert (Z.of_nat N = lh_n (lg s)) as EN by lia.
  assert (forall m, blk m -> a_rc a' m = 0) as Hrc.
  { intros m Hm. rewrite (ef_rc _ _ _ _ _ _ F), unpins_once, EN by (done || (rewrite EN; apply I)).
    fold (homes s). rewrite (tx_rc s st) by done. case_decide; lia. }
  assert (forall n v, (n, v) ∈ tr -> length v = Z.to_nat BSIZE) as Hv.
  { intros n v. unfold tr, commit_tr. rewrite !elem_of_app, !list_elem_of_singleton.
    intros [Hin|[Hin|[Hin|Hin]]]; [by eapply to_log_sized|congruence|by eapply to_home_sized|congruence]. }
  exists s', a'. do 2 (split; [done|]). split; [|split; [apply F|split; [|split; [|split]]]].
  - split; rewrite ?El; cbn; try apply I; [done|lia|by eapply eff_sized; [exact F|apply I|]|..].
    + unfold homes. rewrite El. cbn. intros m Hm. by apply not_elem_of_nil in Hm.
    + unfold homes. rewrite El. constructor.
    + intros m Hm. rewrite Hrc by done. unfold homes. rewrite El, (ef_held _ _ _ _ _ _ F). cbn.
      by rewrite decide_False by apply not_elem_of_nil.
  - rewrite (ef_disk _ _ _ _ _ _ F) by done. unfold tr, commit_tr. rewrite !apply_tr_app.
    change (apply_tr [(st, h2)] ?f) with (fset f st h2). by rewrite fset_eq.
  - intros m Hm. rewrite (ef_disk _ _ _ _ _ _ F) by done. by apply apply_tr_sized.
  - intros tr' m Hm Et. rewrite (ef_disk _ _ _ _ _ _ F) by done. do 2 f_equal.
    rewrite (bc_tr_ok _ _ A'), (bc_tr_ok _ _ (ti_abs _ _ _ I)), (ef_tr _ _ _ _ _ _ F) in Et. by apply app_inv_head in Et.
  - intros m Hm Hno. rewrite <- (bc_clean _ _ _ A' Hm (Hrc m Hm)), (ef_view _ _ _ _ _ _ F) by done.
    unfold tr, commit_tr. rewrite !apply_tr_app. 
    change (apply_tr [(st, h2)] ?f) with (fset f st h2). change (apply_tr [(st, h1)] ?f) with (fset f st h1).
    assert (m <> st) as Hms by (intros ->; by apply Hno, in_log_start).
    rewrite fset_ne, (to_home_apply s st) by done. unfold committed. case_decide; [done|].
    rewrite fset_ne by done. apply apply_tr_notin. intros Hin. apply Hno.
    eapply to_log_in_log in Hin; [|apply X|apply (tr_N _ _ _ _ X)]. unfold in_log. lia.
Qed.

(** The last [end_op] commits. *)
Lemma end_op_run s s1 s' :
  committing (lg s) = 0 -> outstanding (lg s) = 1 ->
  s1 = mkl (set_committing 1 (set_outstanding 0 (lg s))) (lc s) (lg_wakeups s) ->
  commit s1 = Ok (tt, s') ->
  end_op s = Ok (tt, mkl (set_committing 0 (lg s')) (lc s') (lg_wakeups s' + 1)).
Proof.
  destruct s as [[st sz o cm dv n bl] c w]. cbn. intros -> -> -> E.
  unfold end_op, end_op_enter, end_op_leave, upd_lg, log_wakeup. mgo.
  change (set_lg _ _) with (mkl (mklog st sz 0 0 dv n bl) c w). cbn [lg committing outstanding].
  change (negb (0 =? 0)) with false. change (0 =? 0) with true. cbv iota. mgo.
  rewrite (M_bind_Ok _ _ _ _ _ E). by mgo.
Qed.

Lemma tx_inv_lg s st a l w :
  tx_inv s st a -> l_start l = l_start (lg s) -> lh_n l = lh_n (lg s) -> lh_block l = lh_block (lg s) ->
  tx_inv (mkl l (lc s) w) st a.
Proof.
  intros [I1 I2 I3 I4 I5 I6 I7 I8 I9] E1 E2 E3.
  assert (homes (mkl l (lc s) w) = homes s) as Eh by (unfold homes, home; cbn; by rewrite E2, E3).
  split; rewrite ?Eh; cbn; rewrite ?E1, ?E2, ?E3; done.
Qed.

Lemma begin_op_run s sleep fuel :
  (1 <= fuel)%nat -> committing (lg s) = 0 ->
  lh_n (lg s) + (outstanding (lg s) + 1) * MAXOPBLOCKS <= LOGSIZE ->
  begin_op sleep fuel s =
    Ok (tt, mkl (set_outstanding (outstanding (lg s) + 1) (lg s)) (lc s) (lg_wakeups s)).
Proof.
  intros Hf Hc Hn. destruct fuel as [|k]; [lia|]. cbn [begin_op]. mgo. rewrite Hc.
  change (negb (0 =? 0)) with false. cbv iota.
  destruct (Z.ltb_spec LOGSIZE (lh_n (lg s) + (outstanding (lg s) + 1) * MAXOPBLOCKS)); [lia|done].
Qed.

(** With nothing logged there is nothing to commit. *)
Lemma commit_empty s : lh_n (lg s) = 0 -> commit s = Ok (tt, s).
Proof. intros E. unfold commit. mgo. by rewrite E. Qed.

(** The end of the only operation in progress: it commits, leaves the log
    quiescent, and the disk writes are safe under crashes. *)
Lemma end_op_commit s st a :
  tx_inv s st a -> a_held a = [] -> committing (lg s) = 0 -> outstanding (lg s) = 1 ->
  l_size (lg s) = 30 -> hd_n (a_disk a st) = 0 -> sized (a_disk a) ->
  exists s' a' tr k, end_op s = Ok (tt, s') /\ quiescent s' st a' /\ sized (a_disk a') /\
    bc_tr (lc s') = bc_tr (lc s) ++ tr /\
    (forall m, blk m -> ~ in_log st m -> a_disk a' m = a_view a m) /\
    (forall m, blk m -> a_disk a' m = apply_tr tr (a_disk a) m) /\
    (tr = [] \/ (k < length tr)%nat) /\ crash_safe st (a_disk a) tr k (a_disk a) (a_view a).
Proof.
  intros I Hh Hc Ho Hsz H0 Hd. set (s1 := mkl (set_committing 1 (set_outstanding 0 (lg s))) (lc s) (lg_wakeups s)).
  assert (tx_inv s1 st a) as I1 by (by apply tx_inv_lg).
  destruct (Z.eq_dec (lh_n (lg s)) 0) as [En|Hn].
  - exists (mkl (set_committing 0 (lg s1)) (lc s) (lg_wakeups s + 1)), a, [], 0%nat.
    assert (forall m, blk m -> a_view a m = a_disk a m) as Hv.
    { intros m Hm. apply (bc_clean _ _ _ (ti_abs _ _ _ I) Hm). rewrite (tx_rc s st) by done.
      rewrite decide_False; [done|]. unfold homes. rewrite En. apply not_elem_of_nil. }
    split; [by apply (end_op_run s s1 s1), commit_empty|]. split; [|split; [done|]].
    { split; try done. by apply (tx_inv_lg s). }
    split; [by rewrite app_nil_r|]. split; [intros; by rewrite Hv|]. split; [done|]. split; [by left|].
    eapply crash_safe_ext; [apply crash_safe_idle; [|done]|by intros; rewrite Hv].
    apply clear_log_ok; [apply I|done|done].
  - assert (0 < lh_n (lg s1)) as Hn1 by (pose proof (ti_n _ _ _ I); cbn; lia).
    destruct (commit_quiescent s1 st a I1 Hh Hn1 Hd) as (s' & a' & E & El & I' & Hh' & H0' & Hsz' & Htr & Hdk).
    destruct (commit_crash s1 st _ a (tx_inv_ready s1 st a I1 Hh Hn1) H0 Hd) as (s'' & tr & E' & Et & Hlen & Hcs).
    rewrite E in E'. injection E' as <-.
    exists (mkl (set_committing 0 (lg s')) (lc s') (lg_wakeups s' + 1)), a', tr, (Z.to_nat (lh_n (lg s1))).
    split; [by apply (end_op_run s s1 s')|]. split; [|split; [done|]].
    { split; cbn; rewrite ?El; try done. by apply (tx_inv_lg s'); rewrite ?El. }
    split; [done|]. split; [done|]. split; [by intros; apply Htr|]. split; [right; lia|]. eapply crash_safe_ext; [exact Hcs|].
    intros m Hm Hno. unfold committed. rewrite Z2Nat.id by lia. fold (homes s1). case_decide as Hin; [done|].
    symmetry. apply (bc_clean _ _ _ (ti_abs _ _ _ I) Hm). rewrite (tx_rc s1 st) by done. by rewrite decide_False.
Qed.

(** ** Theorems *)

(** a file system operation is atomic under crashes.  From a quiescent log
    an operation that changes at most 29 blocks outside the log runs to its
    end, leaves the log quiescent and the disk with all its changes.  Whatever
    number of its disk writes had reached the disk at a crash, and however
    often recovery was itself interrupted, the recovery that completes leaves
    every block outside the log as it was before the operation, or every block
    as the operation made it. *)
Theorem fs_op_crash_atomic sleep fuel ws s st a
    (Q : quiescent s st a) (Hfuel : (1 <= fuel)%nat) (Hsized : sized (a_disk a))
    (Hws : ws_ok st ws) (Hlen : (length ws <= 29)%nat) :
  exists s' a' tr k, fs_op sleep fuel ws s = Ok (tt, s') /\ quiescent s' st a' /\ sized (a_disk a') /\
    bc_tr (lc s') = bc_tr (lc s) ++ tr /\
    (forall m, blk m -> ~ in_log st m -> a_disk a' m = apply_ws ws (a_disk a) m) /\
    (tr = [] \/ (k < length tr)%nat) /\
    crash_safe st (a_disk a) tr k (a_disk a) (apply_ws ws (a_disk a)).
Proof.
  pose proof (q_inv _ _ _ Q) as I. pose proof (q_n _ _ _ Q) as En.
  set (s1 := mkl (set_outstanding 1 (lg s)) (lc s) (lg_wakeups s)).
  assert (begin_op sleep fuel s = Ok (tt, s1)) as E0.
  { rewrite begin_op_run by (done || apply Q || (rewrite En, (q_out _ _ _ Q); unfold MAXOPBLOCKS, LOGSIZE; lia)).
    unfold s1. by rewrite (q_out _ _ _ Q). }
  destruct (log_updates_spec ws s1 st a) as (s2 & a2 & E2 & J);
    [by apply (tx_inv_lg s)|apply Q|done|cbn; lia|apply Q|cbn; lia|].
  destruct J as [I2 (_ & L2 & L3 & L4) Hh2 V2 K2 T2].
  assert (blk st) as Hst by apply (ti_area _ _ _ I), in_log_start.
  destruct (end_op_commit s2 st a2 I2 Hh2) as (s' & a' & tr & k & E3 & Q' & Hsz & Et & Hd & _ & Hk & Hcs).
  { rewrite L4. apply Q. } { by rewrite L3. } { rewrite L2. apply Q. } { rewrite K2 by done. apply Q. }
  { intros m Hm. rewrite K2 by done. by apply Hsized. }
  assert (forall m, blk m -> a_view a2 m = apply_ws ws (a_disk a) m) as Hv.
  { intros m Hm. rewrite V2 by done. apply apply_ws_ext; [|by intros; eapply quiescent_disk|done].
    eapply Forall_impl; [exact Hws|]. cbn. tauto. }
  exists s', a', tr, k. split; [|do 2 (split; [done|])].
  { unfold fs_op. rewrite (M_bind_Ok _ _ _ _ _ E0), (M_bind_Ok _ _ _ _ _ E2). done. }
  split; [rewrite Et, (bc_tr_ok _ _ (ti_abs _ _ _ I2)), T2; by rewrite (bc_tr_ok _ _ (ti_abs _ _ _ I))|].
  split; [intros; rewrite Hd by done; by apply Hv|]. split; [done|].
  intros j d d' s0 a0 Hj Hr F0. destruct (Hcs j d d' s0 a0) as (s3 & a3 & E & A & N3 & H3 & K); [|done|done|].
  { intros m Hm. rewrite Hj by done. apply apply_tr_ext. symmetry. by apply K2. }
  exists s3, a3. do 4 (split; [done|]). intros m Hm Hno. destruct (K m Hm Hno) as [K1 K3].
  split; [done|]. rewrite K3. case_decide; [by apply K2|by apply Hv].
Qed.

(** The static [struct log] before [initlog]. *)
Definition log_zero : log := mklog 0 0 0 0 0 0 (replicate 30 0).

(** C2: [initlog] after a restart, on any disk whose log is sound: it finishes
    the transaction the header names, or none, and leaves the log ready for
    [begin_op]. *)
Theorem initlog_recovers c w st d a dev
    (A : bc_abs c a) (Hheld : a_held a = []) (Hrc : forall m, blk m -> a_rc a m = 0)
    (Hdisk : forall m, blk m -> a_disk a m = d m) (H : log_disk_ok st d) :
  exists s' a', initlog dev st 30 (mkl log_zero c w) = Ok (tt, s') /\ quiescent s' st a' /\
    forall m, blk m -> ~ in_log st m -> a_disk a' m = recovered st d m.
Proof.
  set (s1 := mkl (mklog st 30 0 0 dev 0 (replicate 30 0)) c w).
  assert (fresh s1 st d a) as F1 by (by split).
  destruct (recover_spec s1 st d a F1 H) as (s2 & a2 & h & E & (bl & Hl & El) & A2 & Hlh & Hh & G).
  destruct (recovery_disk s1 st d a s2 a2 h F1 H A2 Hh G) as [H0 K]. cbv zeta in G.
  exists s2, a2. split; [|split; [|intros; by apply K]].
  { unfold initlog. assert (blk st) as [? ?] by apply (ld_area _ _ H), in_log_start.
    rewrite (s32_small st) by lia. exact E. }
  assert (homes s2 = []) as Eh by (unfold homes; by rewrite El).
  split; rewrite ?El; try done; [|apply G]. split; rewrite ?El, ?Eh; cbn; try done.
  - apply H.
  - eapply eff_sized; [exact G| |].
    + intros m Hm. rewrite (fresh_view _ _ _ _ m F1 Hm). by apply (ld_sized _ _ H).
    + intros n v [Hin|Hin]%elem_of_app; [by eapply installs_sized|].
      apply list_elem_of_singleton in Hin. congruence.
  - intros m Hm. by apply not_elem_of_nil in Hm.
  - constructor.
  - intros m Hm. rewrite (ef_rc _ _ _ _ _ _ G), Hrc, (ef_held _ _ _ _ _ _ G) by done. cbn.
    by rewrite decide_False by apply not_elem_of_nil.
Qed.

End tx.

(** ** On the cache of kernel/bio.c *)

Definition zero_disk : Z -> list Z := fun _ => replicate 1024 0.

Notation bdisk := (bst (Z -> list Z)).

#[export] Instance demo_bio : BufferCache bdisk := bio_cache 1 7 (mret tt) 1.

Definition boot : lst bdisk := mkl (mklog 2 30 0 0 1 0 (replicate 30 0)) (bst_init zero_disk) 0.

Lemma zero_abs : bc_abs (bst_init zero_disk) (a_init zero_disk).
Proof. change (bio_abs 1 7 1 (bst_init zero_disk) (a_init zero_disk)). by apply bio_abs_init. Qed.

Lemma zero_ok : log_disk_ok 2 zero_disk.
Proof.
  apply clear_log_ok; [unfold in_log, blk, LOGSIZE; lia| |by vm_compute].
  intros m _. apply length_replicate.
Qed.

Lemma boot_quiescent : quiescent boot 2 (a_init zero_disk).
Proof.
  split; try done. split; cbn; try done.
  - exact zero_abs.
  - unfold in_log, blk, LOGSIZE. lia.
  - intros m Hm. by apply not_elem_of_nil in Hm.
  - constructor.
Qed.

(** The first byte of block 100 becomes 1. *)
Definition demo_ws : list (Z * (list Z -> list Z)) := [(100, fun v => 1 :: tail v)].

Lemma fs_op_crash_atomic_witness :
  exists s' a', fs_op (mret tt) 1 demo_ws boot = Ok (tt, s') /\ quiescent s' 2 a' /\
    head (a_disk a' 100) = Some 1.
Proof.
  destruct (fs_op_crash_atomic (mret tt) 1 demo_ws boot 2 (a_init zero_disk)) as (s' & a' & tr & k & E & Q & _ & _ & D & _).
  - exact boot_quiescent.
  - lia.
  - intros m _. apply length_replicate.
  - constructor; [|constructor]. cbn. split; [unfold blk; lia|]. split; [unfold in_log, LOGSIZE; lia|].
    intros [|x v] Hv; [done|]. exact Hv.
  - cbn. lia.
  - exists s', a'. split; [exact E|]. split; [exact Q|].
    rewrite D by (unfold blk, in_log, LOGSIZE; lia). reflexivity.
Defined.

(** A disk a crash left after the header was written: the log at 2 holds one
    block, whose home is 100. *)
Definition crashed_disk : Z -> list Z :=
  fset (fset zero_disk 2 ([1; 0; 0; 0; 100; 0; 0; 0] ++ replicate 1016 0)) 3 (replicate 1024 7).

Lemma crashed_header : hd_n (crashed_disk 2) = 1 /\ hd_block (crashed_disk 2) 0 = 100.
Proof. vm_compute. done. Qed.

Lemma crashed_ok : log_disk_ok 2 crashed_disk.
Proof.
  destruct crashed_header as [En Eb]. split; rewrite ?En.
  - unfold in_log, blk, LOGSIZE. lia.
  - unfold LOGSIZE. lia.
  - intros m _. unfold crashed_disk, fset. destruct (m =? 3); [apply length_replicate|].
    destruct (m =? 2); [by vm_compute|apply length_replicate].
  - intros i Hi. assert (i = 0%nat) as -> by lia. rewrite Eb. unfold blk, in_log, LOGSIZE. lia.
  - intros i j Hi Hj Hne. lia.
Qed.

Lemma crashed_recovered : recovered 2 crashed_disk 100 = replicate 1024 7.
Proof. vm_compute. reflexivity. Qed.

(** The restart replays the block to its home. *)
Lemma initlog_recovers_witness :
  exists s' a', initlog 1 2 30 (mkl log_zero (bst_init crashed_disk) 0) = Ok (tt, s') /\ quiescent s' 2 a' /\
    a_disk a' 100 = replicate 1024 7.
Proof.
  destruct (initlog_recovers (bst_init crashed_disk) 0 2 crashed_disk (a_init crashed_disk) 1) as (s' & a' & E & Q & D).
  - change (bio_abs 1 7 1 (bst_init crashed_disk) (a_init crashed_disk)). by apply bio_abs_init.
  - reflexivity.
  - reflexivity.
  - reflexivity.
  - exact crashed_ok.
  - exists s', a'. split; [exact E|]. split; [exact Q|]. rewrite D; [exact crashed_recovered|..];
      unfold blk, in_log, LOGSIZE; lia.
Defined.
