(* ===== verification/LogSpace.v ===== *)
(** * Log space

    [begin_op] reserves [MAXOPBLOCKS] blocks of the log for every operation in
    progress and admits none while a commit runs.  The interleavings are those
    of the parts of the code between two releases of [log.lock], with the
    commit cut at its calls.  [log_write] compares with [log.size - 1], one
    block less than what is reserved when the log has [LOGSIZE] blocks. *)

From S2P Require Import Prelude Sleeplock Disk Bio BioThms Cache BioCache Bytes Log LogSpec LogCrash LogTx.

Section space.
Context {C : Type} `{!BufferCache C}.
Implicit Types (s : lst C).
Notation L := (M (lst C)).

(** ** The steps of the operations in progress *)

(** Where the process that commits is; [CNone] when none does. *)
Inductive cpc : Type := CNone | CStart | CLogged | CHeaded | CInstalled | CDone.

(** [commit] and the end of [end_op], call by call. *)
Definition commit_piece (pc : cpc) : L cpc :=
  match pc with
  | CNone => mret CNone
  | CStart => n ← gets (fun s => lh_n (lg s)); if 0 <? n then write_log;; mret CLogged else mret CDone
  | CLogged => write_head;; mret CHeaded
  | CHeaded => install_trans false;; mret CInstalled
  | CInstalled => upd_lg (set_lh_n 0);; write_head;; mret CDone
  | CDone => end_op_leave;; mret CNone
  end.

(** The log, what every operation in progress may still log, the commit. *)
Record ops : Type := mkops { o_s : lst C; o_ws : list nat; o_pc : cpc }.

Inductive op_step : ops -> ops -> Prop :=
| step_begin s s' ws pc :
    (* one turn of the loop of begin_op *)
    begin_op (mret tt) 1 s = Ok (tt, s') -> op_step (mkops s ws pc) (mkops s' (Z.to_nat MAXOPBLOCKS :: ws) pc)
| step_log_write s s' b ws1 k ws2 pc :
    log_write b s = Ok (tt, s') -> op_step (mkops s (ws1 ++ S k :: ws2) pc) (mkops s' (ws1 ++ k :: ws2) pc)
| step_cache s c w ws pc :
    (* bread, brelse and changes of data by the operations *)
    op_step (mkops s ws pc) (mkops (mkl (lg s) c w) ws pc)
| step_end s s' (do_commit : bool) ws1 k ws2 pc :
    end_op_enter s = Ok (do_commit, s') ->
    op_step (mkops s (ws1 ++ k :: ws2) pc) (mkops s' (ws1 ++ ws2) (if do_commit then CStart else pc))
| step_commit s s' ws pc pc' :
    pc <> CNone -> commit_piece pc s = Ok (pc', s') -> op_step (mkops s ws pc) (mkops s' ws pc').

Definition total (ws : list nat) : Z := Z.of_nat (sum_list ws).

(** The invariant: what is logged and what may still be logged fits, and no
    operation is in progress while a commit runs. *)
Record space_inv (sz : Z) (x : ops) : Prop := {
  sp_n : 0 <= lh_n (lg (o_s x));
  sp_block : length (lh_block (lg (o_s x))) = 30%nat;
  sp_size : l_size (lg (o_s x)) = sz;
  sp_out : outstanding (lg (o_s x)) = Z.of_nat (length (o_ws x));
  sp_com : committing (lg (o_s x)) = match o_pc x with CNone => 0 | _ => 1 end;
  sp_alone : o_pc x <> CNone -> o_ws x = [];
  sp_sum : lh_n (lg (o_s x)) + total (o_ws x) <= LOGSIZE;
  sp_max : Forall (fun k => Z.of_nat k <= MAXOPBLOCKS) (o_ws x)
}.

(** ** Code that leaves the log header alone *)

Definition keeps {A} (m : L A) : Prop := forall s r s', m s = Ok (r, s') -> lg s' = lg s.

Lemma keeps_bind {A B} (m : L A) (f : A -> L B) : keeps m -> (forall x, keeps (f x)) -> keeps (m ≫= f).
Proof.
  intros Hm Hf s r s' E. mdestruct E. rewrite (Hf _ _ _ _ E). by eapply Hm.
Qed.

Lemma keeps_on_c {A} (m : M C A) : keeps (on_c m).
Proof. intros s r s' E. unfold on_c, zoom in E. destruct (m (lc s)) as [[]| | |]; [|done..]. by injection E as _ <-. Qed.

Lemma keeps_gets {A} (f : lst C -> A) : keeps (gets f).
Proof. intros s r s' E. mdestruct E. done. Qed.

Lemma keeps_ret {A} (x : A) : keeps (mret x).
Proof. intros s r s' E. mdestruct E. done. Qed.

Lemma keeps_lift {A} (x : res A) : keeps (lift x).
Proof. intros s r s' E. mdestruct E. done. Qed.

Lemma keeps_when (b : bool) (m : L unit) : keeps m -> keeps (when b m).
Proof. intros H s r s' E. unfold when in E. destruct b; [by eapply H|by mdestruct E]. Qed.

Create HintDb keeps.
#[local] Hint Resolve keeps_bind keeps_on_c keeps_gets keeps_ret keeps_lift keeps_when : keeps.

Ltac keeps := repeat (first [apply keeps_bind; [|intros ?] | apply keeps_when | progress eauto with keeps]).

Lemma keeps_write_head : keeps write_head.
Proof. unfold write_head, lread. keeps. Qed.

Lemma keeps_write_log : keeps write_log.
Proof.
  unfold write_log. apply keeps_bind; [keeps|]. intros n. generalize 0. induction (Z.to_nat n) as [|k IH];
    intros t; cbn [write_log_from]; unfold lread; keeps.
Qed.

Lemma keeps_install rec : keeps (install_trans rec).
Proof.
  unfold install_trans. apply keeps_bind; [keeps|]. intros n. generalize 0. induction (Z.to_nat n) as [|k IH];
    intros t; cbn [install_from]; unfold lread; keeps.
Qed.

(** The pieces of the commit change [lh.n] and [committing] only. *)
Lemma commit_piece_lg pc pc' s s' :
  pc <> CNone -> 0 <= lh_n (lg s) -> commit_piece pc s = Ok (pc', s') ->
  0 <= lh_n (lg s') <= lh_n (lg s) /\ lh_block (lg s') = lh_block (lg s) /\ l_size (lg s') = l_size (lg s) /\
  outstanding (lg s') = outstanding (lg s) /\
  committing (lg s') = match pc' with CNone => 0 | _ => committing (lg s) end.
Proof.
  intros Hpc Hn E. destruct pc; [done|..]; cbn [commit_piece] in E; unfold end_op_leave, upd_lg, log_wakeup in E; mdestruct E.
  - rewrite (keeps_write_log _ _ _ H). split_and!; done || lia.
  - split_and!; done || lia.
  - rewrite (keeps_write_head _ _ _ H). split_and!; done || lia.
  - rewrite (keeps_install _ _ _ _ H). split_and!; done || lia.
  - rewrite (keeps_write_head _ _ _ H). cbn. split_and!; done || lia.
  - cbn. split_and!; done || lia.
Qed.

(** Without interruption the pieces are [commit] ... *)
Lemma commit_steps s r s' ws : commit s = Ok (r, s') -> rtc op_step (mkops s ws CStart) (mkops s' ws CDone).
Proof.
  intros E. unfold commit in E. mdestruct E.
  2:{ apply rtc_once, step_commit; [done|]. cbn [commit_piece]. mgo. by rewrite Heqb. }
  eapply rtc_l; [apply (step_commit s s0 ws CStart CLogged); [done|]; cbn [commit_piece]; mgo; rewrite Heqb; by rewrite (M_bind_Ok _ _ _ _ _ H)|].
  eapply rtc_l; [apply (step_commit s0 s1 ws CLogged CHeaded); [done|]; cbn [commit_piece]; by rewrite (M_bind_Ok _ _ _ _ _ H0)|].
  eapply rtc_l; [apply (step_commit s1 s2 ws CHeaded CInstalled); [done|]; cbn [commit_piece]; by rewrite (M_bind_Ok _ _ _ _ _ H1)|].
  apply rtc_once, (step_commit s2 s' ws CInstalled CDone); [done|]. cbn [commit_piece]. rewrite (M_bind_Ok _ _ _ _ _ H2).
  by rewrite (M_bind_Ok _ _ _ _ _ E).
Qed.

(** ... and [end_op]. *)
Lemma end_op_steps s s' ws1 k ws2 :
  end_op s = Ok (tt, s') -> rtc op_step (mkops s (ws1 ++ k :: ws2) CNone) (mkops s' (ws1 ++ ws2) CNone).
Proof.
  intros ([] & s0 & H & E)%M_bind_inv.
  2:{ injection E as <-. apply rtc_once. by apply (step_end s s0 false). }
  apply M_bind_inv in E as ([] & s1 & H0 & E).
  eapply rtc_l; [by apply (step_end s s0 true)|]. cbv iota.
  eapply rtc_r; [by eapply commit_steps|]. apply step_commit; [done|]. cbn [commit_piece]. by rewrite (M_bind_Ok _ _ _ _ _ E).
Qed.

(** ** What the calls do to the header *)

Lemma begin_op_lg s r s' :
  begin_op (mret tt) 1 s = Ok (r, s') ->
  committing (lg s) = 0 /\ lh_n (lg s) + (outstanding (lg s) + 1) * MAXOPBLOCKS <= LOGSIZE /\
  lg s' = set_outstanding (outstanding (lg s) + 1) (lg s).
Proof.
  intros E. cbn [begin_op] in E. mdestruct E; [by cbn in E..|]. unfold upd_lg in E. mdestruct E.
  split; [|split; [|done]].
  - by destruct (Z.eqb_spec (committing (lg s)) 0).
  - lia.
Qed.

Lemma find_block_range k i bl n j : find_block k i bl n = Ok j -> i <= j <= i + Z.of_nat k.
Proof.
  revert i. induction k as [|k IH]; intros i; cbn; [intros [= ->]; lia|].
  destruct (rd bl i) as [b| | |]; [|done..]. cbn. destruct (u32 b =? n); [intros [= ->]; lia|].
  intros H%IH. lia.
Qed.

Lemma find_block_total k t bl n :
  0 <= t -> t + Z.of_nat k <= Z.of_nat (length bl) -> exists i, find_block k t bl n = Ok i.
Proof.
  revert t. induction k as [|k IH]; intros t Ht Hk; cbn; [eauto|].
  destruct (zidx_is_Some bl t) as [b Hb]; [lia|]. rewrite (rd_Ok _ _ _ Hb). cbn.
  destruct (u32 b =? n); [eauto|]. apply IH; lia.
Qed.

(** [log_write] adds at most one entry. *)
Lemma log_write_lg s r s' b :
  0 <= lh_n (lg s) -> log_write b s = Ok (r, s') ->
  lh_n (lg s) < LOGSIZE /\ lh_n (lg s) <= lh_n (lg s') <= lh_n (lg s) + 1 /\
  length (lh_block (lg s')) = length (lh_block (lg s)) /\
  outstanding (lg s') = outstanding (lg s) /\ committing (lg s') = committing (lg s) /\
  l_size (lg s') = l_size (lg s).
Proof.
  intros Hn E. unfold log_write in E. mdestruct E.
  all: pose proof (keeps_on_c _ _ _ _ H) as K1; unfold upd_lg in *; mdestruct H0;
    apply orb_false_iff in Heqb0 as [?%Z.leb_gt _]; unfold wr in E1; case_match; [|done];
    injection E1 as <-.
  - pose proof (keeps_on_c _ _ _ _ H1) as K3. mdestruct E. cbn. rewrite K3. cbn. rewrite K1.
    rewrite length_insert. lia.
  - cbn. rewrite K1, length_insert. lia.
Qed.

Lemma end_op_enter_lg s (d : bool) s' :
  end_op_enter s = Ok (d, s') ->
  committing (lg s) = 0 /\ outstanding (lg s') = outstanding (lg s) - 1 /\ d = (outstanding (lg s') =? 0) /\
  committing (lg s') = (if d then 1 else 0) /\
  lh_n (lg s') = lh_n (lg s) /\ lh_block (lg s') = lh_block (lg s) /\ l_size (lg s') = l_size (lg s).
Proof.
  intros E. unfold end_op_enter, upd_lg, log_wakeup in E. mdestruct E; cbn in *.
  all: destruct (Z.eqb_spec (committing (lg s)) 0) as [Hc|]; [|done]; by split_and!.
Qed.

(** ** The invariant *)

Lemma total_app ws1 k ws2 : total (ws1 ++ k :: ws2) = total ws1 + Z.of_nat k + total ws2.
Proof. unfold total. rewrite sum_list_with_app. cbn. lia. Qed.

Lemma total_bound ws :
  Forall (fun k => Z.of_nat k <= MAXOPBLOCKS) ws -> 0 <= total ws <= Z.of_nat (length ws) * MAXOPBLOCKS.
Proof. induction 1 as [|k ws Hk _ IH]; cbn -[MAXOPBLOCKS]; unfold total in *; cbn -[MAXOPBLOCKS]; lia. Qed.

Lemma begin_inv sz s s' ws pc :
  space_inv sz (mkops s ws pc) -> begin_op (mret tt) 1 s = Ok (tt, s') -> space_inv sz (mkops s' (Z.to_nat MAXOPBLOCKS :: ws) pc).
Proof.
  intros [I1 I2 I3 I4 I5 I6 I7 I8] (Hc & Hr & El)%begin_op_lg. cbn in *. pose proof (total_bound ws I8) as Ht.
  assert (pc = CNone) as -> by (rewrite Hc in I5; by destruct pc).
  split; cbn -[MAXOPBLOCKS Z.to_nat]; rewrite ?El; cbn -[MAXOPBLOCKS Z.to_nat]; try done; try lia.
  - unfold total in *. cbn -[MAXOPBLOCKS Z.to_nat]. rewrite I4 in Hr. unfold MAXOPBLOCKS in *. lia.
  - constructor; [unfold MAXOPBLOCKS; lia|done].
Qed.

Lemma end_inv sz s s' (d : bool) ws1 k ws2 pc :
  space_inv sz (mkops s (ws1 ++ k :: ws2) pc) -> end_op_enter s = Ok (d, s') ->
  space_inv sz (mkops s' (ws1 ++ ws2) (if d then CStart else pc)).
Proof.
  intros [I1 I2 I3 I4 I5 I6 I7 I8] (L1 & L2 & L3 & L4 & L5 & L6 & L7)%end_op_enter_lg. cbn [o_s o_ws o_pc] in *.
  assert (pc = CNone) as -> by (rewrite L1 in I5; by destruct pc).
  rewrite total_app in I7. rewrite length_app in I4. cbn in I4.
  split; cbn [o_s o_ws o_pc]; rewrite ?L4, ?L5, ?L6, ?L7; try done; try (by destruct d); rewrite ?length_app; try lia.
  - destruct d; [|done]. intros _. symmetry in L3. apply Z.eqb_eq in L3. apply length_zero_iff_nil. rewrite length_app. lia.
  - unfold total in *. rewrite sum_list_with_app. lia.
  - rewrite Forall_app, Forall_cons in *. tauto.
Qed.

Lemma space_step sz x y : space_inv sz x -> op_step x y -> space_inv sz y.
Proof.
  intros I St. destruct St as [s s' ws pc E|s s' b ws1 k ws2 pc E|s c w ws pc|s s' d ws1 k ws2 pc E|s s' ws pc pc' Hpc E].
  - by eapply begin_inv.
  - destruct I as [I1 I2 I3 I4 I5 I6 I7 I8]. cbn [o_s o_ws o_pc] in *.
    apply log_write_lg in E as (L1 & L2 & L3 & L4 & L5 & L6); [|done]. rewrite total_app in I7.
    rewrite length_app in I4. cbn in I4.
    split; cbn [o_s o_ws o_pc]; rewrite ?L3, ?L4, ?L5, ?L6, ?total_app, ?length_app; cbn [length]; try lia; try done.
    + intros Hpc. by destruct (app_cons_not_nil ws1 ws2 (S k) (eq_sym (I6 Hpc))).
    + rewrite Forall_app, Forall_cons in *. destruct I8 as (? & ? & ?). split_and!; [done|lia|done].
  - by destruct I.
  - by eapply end_inv.
  - destruct I as [I1 I2 I3 I4 I5 I6 I7 I8]. cbn [o_s o_ws o_pc] in *.
    apply commit_piece_lg in E as (L1 & L2 & L3 & L4 & L5); [|done|done].
    split; cbn [o_s o_ws o_pc]; rewrite ?L2, ?L3, ?L4, ?L5; try done; try lia; [by destruct pc, pc'|by rewrite (I6 Hpc)].
Qed.

Lemma space_reach sz x y : space_inv sz x -> rtc op_step x y -> space_inv sz y.
Proof. intros I H. induction H; [done|]. eauto using space_step. Qed.

(** The log after [initlog], no operation in progress. *)
Definition log_idle s : Prop :=
  lh_n (lg s) = 0 /\ outstanding (lg s) = 0 /\ committing (lg s) = 0 /\ length (lh_block (lg s)) = 30%nat.

Lemma log_idle_inv s : log_idle s -> space_inv (l_size (lg s)) (mkops s [] CNone).
Proof. intros (E1 & E2 & E3 & E4). split; cbn; rewrite ?E1, ?E2, ?E3; unfold LOGSIZE, total; cbn; try done. Qed.

(** [log_write] on a buffer the caller holds, with room in the header. *)
Lemma log_write_total s a b n :
  bc_abs (lc s) a -> (b, n) ∈ a_held a -> a_rc a n < 2 ^ 32 - 1 -> length (lh_block (lg s)) = 30%nat ->
  0 <= lh_n (lg s) < LOGSIZE -> lh_n (lg s) < l_size (lg s) - 1 -> 1 <= outstanding (lg s) ->
  exists s', log_write b s = Ok (tt, s').
Proof.
  intros A Hb Hrc Hl Hn Hsz Ho. unfold log_write. mgo.
  destruct (Z.leb_spec LOGSIZE (lh_n (lg s))); [lia|].
  destruct (Z.leb_spec (l_size (lg s) - 1) (lh_n (lg s))); [lia|]. cbn [orb].
  destruct (Z.ltb_spec (outstanding (lg s)) 1); [lia|].
  erewrite M_bind_Ok; [|apply on_c_Ok, (bc_blockno_ok _ _ _ _ A Hb)].
  assert (exists i, find_block (Z.to_nat (lh_n (lg s))) 0 (lh_block (lg s)) n = Ok i) as [i Ei].
  { apply find_block_total; unfold LOGSIZE in *; lia. }
  rewrite (M_bind_lift _ _ _ _ Ei). apply find_block_range in Ei. unfold LOGSIZE in *.
  erewrite M_bind_lift; [|apply wr_Ok; lia]. unfold upd_lg. mgo.
  destruct (i =? lh_n (lg s)); [|eauto]. destruct (bc_bpin_ok _ _ _ _ A Hb Hrc) as (c & E & _).
  erewrite M_bind_Ok; [|apply on_c_Ok, E]. eauto.
Qed.

(** What an operation with blocks left of its reservation finds. *)
Lemma log_write_reserved sz s ws1 k ws2 pc a b n :
  space_inv sz (mkops s (ws1 ++ S k :: ws2) pc) -> LOGSIZE <= sz ->
  bc_abs (lc s) a -> (b, n) ∈ a_held a -> a_rc a n < 2 ^ 32 - 1 ->
  (exists s', log_write b s = Ok (tt, s')) \/
  (log_write b s = Panic "too big a transaction" /\ sz = LOGSIZE /\ lh_n (lg s) = LOGSIZE - 1 /\ total (ws1 ++ S k :: ws2) = 1).
Proof.
  intros [I1 I2 I3 I4 I5 I6 I7 I8] Hsz A Hb Hrc. cbn [o_s o_ws o_pc] in *. pose proof I7 as I7'. rewrite total_app in I7'.
  rewrite Forall_app, Forall_cons in I8. destruct I8 as (F1 & _ & F2).
  pose proof (total_bound ws1 F1). pose proof (total_bound ws2 F2). rewrite length_app in I4. cbn [length] in I4.
  destruct (Z.lt_ge_cases (lh_n (lg s)) (sz - 1)) as [Hlt|Hge].
  - left. eapply log_write_total; [exact A|exact Hb|done|done|lia|lia|lia].
  - right. unfold log_write. mgo. destruct (Z.leb_spec (l_size (lg s) - 1) (lh_n (lg s))); [|lia].
    rewrite orb_true_r. split; [done|]. rewrite total_app. lia.
Qed.

Lemma end_op_enter_total s : committing (lg s) = 0 -> exists d s', end_op_enter s = Ok (d, s').
Proof.
  intros Hc. unfold end_op_enter, upd_lg, log_wakeup. mgo. cbn. rewrite Hc. cbn [Z.eqb negb]. destruct (_ =? 0); mgo; eauto.
Qed.

Lemma begin_op_commits s : committing (lg s) = 1 -> begin_op (mret tt) 1 s = Hang.
Proof. intros Hc. cbn [begin_op]. mgo. by rewrite Hc. Qed.

(** C27: The reservation of [begin_op], for every interleaving of operations
    and commits from the log [initlog] leaves.  While a commit runs no
    operation is in progress, and [begin_op] waits; so [end_op] never finds a
    commit in progress.  What is logged and what is reserved never exceeds
    [LOGSIZE].  An operation that has logged fewer than [MAXOPBLOCKS] blocks
    finds [log_write] neither outside a transaction nor out of space, with one
    exception: in a log of exactly [LOGSIZE] blocks, the size mkfs makes,
    [log_write] panics at the last of all the blocks reserved. *)
Theorem log_space_reserved s0 s ws pc
    (H0 : log_idle s0) (Hsize : LOGSIZE <= l_size (lg s0)) (Hreach : rtc op_step (mkops s0 [] CNone) (mkops s ws pc)) :
  (pc <> CNone -> ws = [] /\ begin_op (mret tt) 1 s = Hang) /\
  lh_n (lg s) + total ws <= LOGSIZE /\
  (forall ws1 k ws2, ws = ws1 ++ k :: ws2 -> exists d s', end_op_enter s = Ok (d, s')) /\
  (forall ws1 k ws2 a b n, ws = ws1 ++ S k :: ws2 -> bc_abs (lc s) a -> (b, n) ∈ a_held a -> a_rc a n < 2 ^ 32 - 1 ->
     (exists s', log_write b s = Ok (tt, s')) \/
     (log_write b s = Panic "too big a transaction" /\
      l_size (lg s0) = LOGSIZE /\ lh_n (lg s) = LOGSIZE - 1 /\ total ws = 1)).
Proof.
  pose proof (space_reach _ _ _ (log_idle_inv s0 H0) Hreach) as I. pose proof I as [_ _ _ _ I5 I6 I7 _]. cbn [o_s o_ws o_pc] in *.
  split_and!.
  - intros Hpc. split; [by apply I6|]. apply begin_op_commits. by destruct pc.
  - done.
  - intros ws1 k ws2 ->. apply end_op_enter_total. destruct pc; [done|..]; by destruct (app_cons_not_nil ws1 ws2 k (eq_sym (I6 ltac:(done)))).
  - intros ws1 k ws2 a b n -> A Hb Hrc. by eapply log_write_reserved.
Qed.

End space.

(** ** On the cache of kernel/bio.c *)

(** Three operations that log 10, 10 and 10 blocks, as [begin_op] admits. *)
Definition three_ops : M (lst bdisk) unit :=
  begin_op (mret tt) 1;; begin_op (mret tt) 1;; begin_op (mret tt) 1;;
  log_updates ((fun n => (n, fun v => v)) <$> seqZ 100 30).

(** The exception is reached: three operations of [MAXOPBLOCKS] blocks each,
    all admitted by [begin_op], end in the panic of [log_write]. *)
Lemma three_ops_panic : three_ops boot = Panic "too big a transaction".
Proof. vm_compute. reflexivity. Qed.

(** An operation in progress, a block read: its first [log_write] succeeds. *)
Lemma log_space_reserved_witness :
  exists s, rtc op_step (mkops boot [] CNone) (mkops s [10%nat] CNone) /\ (exists b s', log_write b s = Ok (tt, s')) /\
    exists d s', end_op_enter s = Ok (d, s').
Proof.
  destruct (bc_bread_ok _ _ 100 zero_abs) as (b & c & E & A & _).
  { unfold blk. lia. } { apply not_elem_of_nil. } { cbn. lia. } { right. exists []. split; [done|cbn; lia]. }
  set (s := mkl (mklog 2 30 1 0 1 0 (replicate 30 0)) c 0).
  assert (rtc op_step (mkops boot [] CNone) (mkops s [10%nat] CNone)) as Hr.
  { eapply rtc_l; [by apply step_begin; vm_compute|]. apply rtc_once. apply (step_cache (mkl (lg s) _ 0)). }
  exists s. split; [exact Hr|].
  destruct (log_space_reserved boot s [10%nat] CNone) as (_ & _ & W1 & W2); [by split_and!|unfold LOGSIZE; cbn; lia|exact Hr|].
  split; [|exact (W1 [] 10%nat [] eq_refl)]. exists b.
  destruct (W2 [] 9%nat [] (a_bread b 100 (a_init zero_disk)) b 100 eq_refl) as [W|(_ & _ & W & _)];
    [exact A|left|cbn; lia|exact W|discriminate W].
Defined.
