(* ===== verification/Store.v ===== *)
(** * Interface between the file system and the log

    What kernel/fs.c relies on when it calls kernel/log.c and kernel/bio.c
    inside a transaction: every operation acts on the abstract state [ablk]
    (what each block looks like, the buffers the caller holds, the blocks
    logged so far, the blocks changed and not yet logged, and the disk, which
    no operation changes).  FsLog proves it of
    the model of kernel/log.c. *)

From S2P Require Import Prelude Cache.

Definition BSIZE_nat : nat := 1024.

Record ablk : Type := mkb {
  b_view : Z -> list Z;      (* contents of the blocks *)
  b_held : list (Z * Z);     (* buffer, block: held, latest first *)
  b_log : list Z;            (* blocks logged *)
  b_mod : list Z;            (* blocks changed and not logged *)
  b_disk : Z -> list Z;      (* contents of the disk *)
  b_tr : list (Z * list Z)   (* writes to the disk so far *)
}.

Definition b_hold (b n : Z) (a : ablk) : ablk := 
  mkb (b_view a) ((b, n) :: b_held a) (b_log a) (b_mod a) (b_disk a) (b_tr a).

Definition b_put (n : Z) (v : list Z) (a : ablk) : ablk :=
  mkb (fset (b_view a) n v) (b_held a) (b_log a) (n :: b_mod a) (b_disk a) (b_tr a).

Definition b_logged (n : Z) (a : ablk) : ablk :=
  mkb (b_view a) (b_held a) (if decide (n ∈ b_log a) then b_log a else b_log a ++ [n])
    (List.filter (fun m => negb (m =? n)) (b_mod a)) (b_disk a) (b_tr a).

Definition b_release (h : list (Z * Z)) (a : ablk) : ablk :=
  mkb (b_view a) h (b_log a) (b_mod a) (b_disk a) (b_tr a).

(** Blocks that a transaction can log, and buffers that can be held besides:
    the log takes 29 blocks, the cache has 30 buffers. *)
Definition LOGCAP : nat := 29.

Class BlockStore (S : Type) : Type := {
  bs_bread : Z -> M S Z;
  bs_get : Z -> M S (list Z);              (* b->data *)
  bs_put : Z -> list Z -> M S unit;        (* b->data = v *)
  bs_log_write : Z -> M S unit;
  bs_brelse : Z -> M S unit;
  bs_initlog : Z -> Z -> Z -> M S unit;
  bs_begin_op : M S unit;
  bs_end_op : M S unit;
  bs_blk : Z -> Prop;                      (* blocks outside the log *)
  bs_abs : S -> ablk -> Prop;
  bs_sized : forall s a n, bs_abs s a -> bs_blk n -> length (b_view a n) = BSIZE_nat;
  bs_bread_ok : forall s a n, bs_abs s a -> bs_blk n -> n ∉ (b_held a).*2 ->
    (length (b_log a) + length (b_held a) < 30)%nat ->
    exists b s', bs_bread n s = Ok (b, s') /\ bs_abs s' (b_hold b n a);
  bs_get_ok : forall s a b n, bs_abs s a -> (b, n) ∈ b_held a -> bs_get b s = Ok (b_view a n, s);
  bs_put_ok : forall s a b n v, bs_abs s a -> (b, n) ∈ b_held a -> length v = BSIZE_nat ->
    exists s', bs_put b v s = Ok (tt, s') /\ bs_abs s' (b_put n v a);
  bs_log_write_ok : forall s a b n, bs_abs s a -> (b, n) ∈ b_held a ->
    (length (b_log a) < LOGCAP)%nat ->
    exists s', bs_log_write b s = Ok (tt, s') /\ bs_abs s' (b_logged n a);
  bs_brelse_ok : forall s a b n h, bs_abs s a -> b_held a = (b, n) :: h -> n ∉ b_mod a ->
    exists s', bs_brelse b s = Ok (tt, s') /\ bs_abs s' (b_release h a)
}.
