(* ===== verification/FsLog.v ===== *)
(** * The log as the block store of the file system

    kernel/log.c on any buffer cache implements the interface of Store, and a
    file system operation between [begin_op] and [end_op], whatever it does
    through that interface, is atomic with respect to crashes. *)

From S2P Require Import Prelude Disk Bio Cache BioCache Bytes Log LogSpec LogCrash LogTx Store.

Section store.
Context {C : Type} `{!BufferCache C}.
Implicit Types (s : lst C) (a : acache) (b : ablk).
Context (st : Z).

(** [k] operations are in progress, and between them they hold the buffers of
    [b] and have logged its blocks. *)
Record store_abs_at (k : Z) s b : Prop := {
  sa_ok : exists a, tx_inv s st a /\ a_held a = b_held b /\
    (forall m, blk m -> a_view a m = b_view b m) /\
    (forall m, blk m -> m ∉ b_log b -> m ∉ b_mod b -> a_view a m = a_disk a m) /\
    a_disk a = b_disk b /\ a_tr a = b_tr b;
  sa_log : homes s = b_log b;
  sa_nodup : NoDup (b_held b).*1 /\ NoDup (b_held b).*2;
  sa_blk : forall p, p ∈ b_held b -> blk (snd p) /\ ~ in_log st (snd p);
  sa_out : outstanding (lg s) = k /\ 1 <= k;
  sa_com : committing (lg s) = 0;
  sa_size : l_size (lg s) = 30
}.

(** One operation, as its own code sees the log. *)
Definition store_abs := store_abs_at 1.

Lemma rc_held s a n :
  tx_inv s st a -> blk n -> n ∉ (a_held a).*2 -> a_rc a n < 2 ^ 32 - 1.
Proof. intros I Hn Hh. rewrite (ti_rc _ _ _ I) by done. repeat case_decide; lia. Qed.

Lemma store_room s a n :
  tx_inv s st a -> (length (homes s) + length (a_held a) < 30)%nat -> a_room a n.
Proof.
  intros I Hl. right. exists (homes s ++ (a_held a).*2). split; [|rewrite length_app, length_fmap; lia].
  intros m Hm. rewrite (ti_rc _ _ _ I) by done. intros H. apply elem_of_app.
  destruct (decide (m ∈ homes s)); [by left|]. destruct (decide (m ∈ (a_held a).*2)); [by right|]. lia.
Qed.

Lemma tx_inv_hold s a (b : Z) n c :
  tx_inv s st a -> n ∉ (a_held a).*2 -> bc_abs c (a_bread b n a) ->
  tx_inv (mkl (lg s) c (lg_wakeups s)) st (a_bread b n a).
Proof.
  intros [I1 I2 I3 I4 I5 I6 I7 I8 I9] Hh A. split; try done. intros m Hm.
  change (homes _) with (homes s). cbn [a_bread a_rc a_held fmap list_fmap snd]. unfold fset.
  destruct (Z.eqb_spec m n) as [->|Hne]; rewrite I9 by done.
  - rewrite (decide_False (P := n ∈ (a_held a).*2)) by done.
    rewrite (decide_True (P := n ∈ n :: _)) by left. lia.
  - f_equal. apply decide_ext. rewrite elem_of_cons. naive_solver.
Qed.

Lemma held_app (h : list (Z * Z)) (b : Z) n : (b, n) ∈ h -> n ∈ h.*2.
Proof. intros H. apply list_elem_of_fmap. by exists (b, n). Qed.

Lemma filter_held (h : list (Z * Z)) (b : Z) : b ∉ h.*1 -> List.filter (fun p => negb (fst p =? b)) h = h.
Proof.
  induction h as [|[c m] h IH]; intros Hb; [done|]. cbn in *. apply not_elem_of_cons in Hb as [H1 H2].
  destruct (Z.eqb_spec c b); [congruence|]. cbn. by rewrite IH.
Qed.

Lemma tx_inv_unhold s a (b : Z) n h c :
  tx_inv s st a -> a_held a = (b, n) :: h -> b ∉ h.*1 -> n ∉ h.*2 -> bc_abs c (a_brelse b n a) ->
  tx_inv (mkl (lg s) c (lg_wakeups s)) st (a_brelse b n a) /\ a_held (a_brelse b n a) = h.
Proof.
  intros [I1 I2 I3 I4 I5 I6 I7 I8 I9] Hh Hb Hn A.
  assert (a_held (a_brelse b n a) = h) as Eh by (cbn; rewrite Hh; cbn; rewrite Z.eqb_refl; by apply filter_held).
  split; [|done]. split; try done. intros m Hm. change (homes (mkl (lg s) _ _)) with (homes s).
  rewrite Eh. cbn [a_brelse a_rc]. unfold fset.
  destruct (Z.eqb_spec m n) as [->|Hne]; rewrite I9, Hh by done; cbn [fmap list_fmap snd].
  - rewrite (decide_True (P := n ∈ n :: _)) by left. rewrite (decide_False (P := n ∈ h.*2)) by done. lia.
  - f_equal. apply decide_ext. rewrite elem_of_cons. naive_solver.
Qed.

(** ** The operations *)

Lemma store_bread k s b n :
  store_abs_at k s b -> blk n /\ ~ in_log st n -> n ∉ (b_held b).*2 ->
  (length (b_log b) + length (b_held b) < 30)%nat ->
  exists x s', lread n s = Ok (x, s') /\ store_abs_at k s' (b_hold x n b).
Proof.
  intros [(a & I & Hh & Hv & Hc & Hd & Ht) Hl [HN1 HN2] Hb Ho Hcm Hs] [Hn Hno] Hnh Hlen. rewrite <- Hh in Hnh. 
  destruct (lread_Ok s a n (ti_abs _ _ _ I) Hn Hnh) as (x & c & E & A & Hx).
  { by eapply rc_held. } { eapply store_room; [done|]. by rewrite Hl, Hh. }
  exists x, (mkl (lg s) c (lg_wakeups s)). split; [done|]. rewrite Hh in Hx, Hnh. split; try done.
  - exists (a_bread x n a). split; [apply tx_inv_hold; [done|by rewrite Hh|done]|].
    cbn. split; [by rewrite Hh|]. done.
  - cbn. split; by constructor.
  - cbn. intros p [->|Hp]%elem_of_cons; [done|by apply Hb].
Qed.

Lemma store_get k s b x n :
  store_abs_at k s b -> (x, n) ∈ b_held b -> on_c (bc_get x) s = Ok (b_view b n, s) /\ length (b_view b n) = BSIZE_nat.
Proof.
  intros [(a & I & Hh & Hv & _) _ _ Hb _ _ _] Hx. destruct (Hb _ Hx) as [Hn _]. cbn in Hn. rewrite <- Hv by done.
  split; [|by apply (ti_sized _ _ _ I)].
  rewrite (on_c_Ok _ s _ _ (bc_get_ok _ _ x n (ti_abs _ _ _ I) ltac:(by rewrite Hh))). by destruct s.
Qed.

Lemma store_put k s b x n v :
  store_abs_at k s b -> (x, n) ∈ b_held b -> length v = BSIZE_nat ->
  exists s', on_c (bc_put x v) s = Ok (tt, s') /\ store_abs_at k s' (b_put n v b).
Proof.
  intros [(a & I & Hh & Hv & Hc & Hd & Ht) Hl HN Hb Ho Hcm Hs] Hx Hlen.
  destruct (bc_put_ok _ _ x n v (ti_abs _ _ _ I)) as (c & E & A); [by rewrite Hh|].
  exists (mkl (lg s) c (lg_wakeups s)). split; [by apply on_c_Ok|]. split; try done.
  exists (a_put n v a). split; [by apply tx_inv_put|]. split; [done|]. split.
  - intros m Hm. cbn. unfold fset. destruct (m =? n); [done|by apply Hv].
  - split; [|done]. intros m Hm Hm1 Hm2. cbn in *. apply not_elem_of_cons in Hm2 as [Hne Hm2]. rewrite fset_ne by done. by apply Hc.
Qed.

Lemma store_log_write k s b x n :
  store_abs_at k s b -> (x, n) ∈ b_held b -> (length (b_log b) < LOGCAP)%nat ->
  exists s', log_write x s = Ok (tt, s') /\ store_abs_at k s' (b_logged n b).
Proof.
  intros [(a & I & Hh & Hv & Hc & Hd & Ht) Hl HN Hb Ho Hcm Hs] Hx Hlen.
  destruct (Hb _ Hx) as [Hn Hno]. cbn in Hn, Hno. pose proof (ti_n _ _ _ I) as HN'.
  pose proof (homes_length s ltac:(lia)) as Hlh. rewrite Hl in Hlh. unfold LOGCAP in Hlen.
  assert (forall m, m ∉ b_log b -> m <> n -> m ∉ List.filter (fun k => negb (k =? n)) (b_mod b) -> m ∉ b_mod b) as Hmod.
  { intros m _ Hne Hm Hin. apply Hm. apply list_elem_of_In, List.filter_In. split; [by apply list_elem_of_In|].
    by destruct (Z.eqb_spec m n). }
  destruct (log_write_run s st a x n I) as [[Hin E]|(Hni & c & E & A)]; [by rewrite Hh|lia|lia|lia|..].
  - exists s. split; [done|]. rewrite Hl in Hin. split; try done; cbn; rewrite decide_True by done; [|done].
    exists a. do 3 (split; [done|]). split; [|done]. intros m Hm Hm1 Hm2. apply Hc; [done|done|]. apply Hmod; [done| |done].
    by intros ->.
  - rewrite Hl in Hni. pose proof (ti_block _ _ _ I) as Hbl. set (s' := mkl (log_snoc n s) c (lg_wakeups s)) in *.
    assert (homes s' = homes s ++ [n]) as Eh by (apply homes_snoc; lia).
    exists s'. split; [done|]. split; try done; cbn; rewrite (decide_False (P := n ∈ b_log b)) by done.
    2:{ by rewrite Eh, Hl. }
    exists (a_bpin n a). split; [|split; [done|split; [done|]]].
    + split; cbn [lc s' a_bpin a_view a_held lg log_snoc set_lh_n set_lh_block l_start lh_block lh_n a_rc]; try apply I.
      * done.
      * by rewrite length_insert.
      * lia.
      * rewrite Eh. intros m [Hm|Hm]%elem_of_app; [by apply (ti_home _ _ _ I)|].
        by apply list_elem_of_singleton in Hm as ->.
      * rewrite Eh. apply NoDup_app. split; [apply I|]. split; [|apply NoDup_singleton].
        intros m Hm ->%list_elem_of_singleton. by rewrite Hl in Hm.
      * intros m Hm. rewrite Eh. unfold fset. destruct (Z.eqb_spec m n) as [->|Hne].
        -- rewrite (ti_rc _ _ _ I) by done. rewrite Hl, (decide_False (P := n ∈ b_log b)) by done.
           rewrite (decide_True (P := n ∈ _ ++ [n])) by (apply elem_of_app; right; left). case_decide; lia.
        -- rewrite (ti_rc _ _ _ I) by done. f_equal. apply decide_ext. rewrite elem_of_app, list_elem_of_singleton. tauto.
    + split; [|done]. intros m Hm Hm1 Hm2. rewrite elem_of_app, list_elem_of_singleton in Hm1. apply Hc; [done|tauto|]. apply Hmod; tauto.
Qed.

Lemma store_brelse k s b x n h :
  store_abs_at k s b -> b_held b = (x, n) :: h -> n ∉ b_mod b ->
  exists s', on_c (bc_brelse x) s = Ok (tt, s') /\ store_abs_at k s' (b_release h b).
Proof.
  intros [(a & I & Hh & Hv & Hc & Hd & Ht) Hl [HN1 HN2] Hb Ho Hcm Hs] E Hm. rewrite E in *. cbn in HN1, HN2.
  apply NoDup_cons in HN1 as [Hx HN1]. apply NoDup_cons in HN2 as [Hn HN2].
  destruct (Hb (x, n)) as [Hbn Hno]; [left|]. cbn in Hbn, Hno.
  destruct (bc_brelse_ok _ _ x n (ti_abs _ _ _ I)) as (c & E' & A).
  { rewrite Hh. left. }
  { rewrite (ti_rc _ _ _ I), Hh by done. rewrite (decide_True (P := n ∈ ((x, n) :: h).*2)) by left.
    case_decide as Hin; [lia|]. intros _. apply Hc; [done|by rewrite <- Hl|done]. }
  destruct (tx_inv_unhold s a x n h c I Hh Hx Hn A) as [I' Hh'].
  exists (mkl (lg s) c (lg_wakeups s)). split; [by apply on_c_Ok|]. split; try done.
  - by exists (a_brelse x n a).
  - intros p Hp. apply Hb. by right.
Qed.

(** A block read, changed, logged and released. *)
Lemma store_update k s b n f :
  store_abs_at k s b -> b_held b = [] -> b_mod b = [] -> blk n /\ ~ in_log st n -> (length (b_log b) < LOGCAP)%nat ->
  (forall v, length v = BSIZE_nat -> length (f v) = BSIZE_nat) ->
  exists s' l, log_update n f s = Ok (tt, s') /\ (length l <= length (b_log b) + 1)%nat /\
    store_abs_at k s' (mkb (fset (b_view b) n (f (b_view b n))) [] l [] (b_disk b) (b_tr b)).
Proof.
  intros B Hh Hm Hn Hl Hf. unfold LOGCAP in Hl.
  destruct (store_bread k s b n B Hn) as (x & s1 & E1 & B1); [rewrite Hh; apply not_elem_of_nil|rewrite Hh; cbn; lia|].
  assert ((x, n) ∈ b_held (b_hold x n b)) as Hx by left.
  destruct (store_get k s1 _ x n B1 Hx) as [E2 Hlen].
  destruct (store_put k s1 _ x n (f (b_view b n)) B1 Hx (Hf _ Hlen)) as (s2 & E3 & B2).
  destruct (store_log_write k s2 _ x n B2 Hx Hl) as (s3 & E4 & B3).
  set (b3 := b_logged n _) in B3.
  assert (b_mod b3 = []) as Hm3 by (cbn; rewrite Hm, Z.eqb_refl; done).
  destruct (store_brelse k s3 b3 x n [] B3) as (s4 & E5 & B4); [cbn; by rewrite Hh|rewrite Hm3; apply not_elem_of_nil|].
  exists s4, (b_log b3). split; [|split].
  - unfold log_update. rewrite (M_bind_Ok _ _ _ _ _ E1), (M_bind_Ok _ _ _ _ _ E2), (M_bind_Ok _ _ _ _ _ E3).
    by rewrite (M_bind_Ok _ _ _ _ _ E4).
  - cbn. case_decide; [|rewrite length_app; cbn]; lia.
  - unfold b_release in B4. by rewrite Hm3 in B4.
Qed.

(** ** Operations that overlap *)

(** Another operation begins while [k] are in progress. *)
Lemma store_join k s b sleep fuel :
  store_abs_at k s b -> (1 <= fuel)%nat -> Z.of_nat (length (b_log b)) + (k + 1) * MAXOPBLOCKS <= LOGSIZE ->
  exists s', begin_op sleep fuel s = Ok (tt, s') /\ store_abs_at (k + 1) s' b.
Proof.
  intros [(a & I & Ha) Hl HN Hb [Ho Hk] Hcm Hs] Hf Hr. rewrite <- Hl, homes_length in Hr by apply I.
  eexists. split; [apply begin_op_run; [done|done|by rewrite Ho]|].
  split; try done; [|cbn; lia]. exists a. split; [by apply tx_inv_lg|done].
Qed.

(** One that is not the last ends: no commit. *)
Lemma store_leave k s b :
  store_abs_at (k + 1) s b -> 1 <= k -> exists s', end_op s = Ok (tt, s') /\ store_abs_at k s' b.
Proof.
  intros [(a & I & Ha) Hl HN Hb [Ho _] Hcm Hs] Hk.
  exists (mkl (set_outstanding k (lg s)) (lc s) (lg_wakeups s + 1)). split.
  - unfold end_op, end_op_enter, upd_lg, log_wakeup. mgo. cbn. rewrite Hcm. cbn [Z.eqb negb]. destruct (Z.eqb_spec (outstanding (lg s) - 1) 0); [lia|].
    unfold modify, set_lg; cbn. rewrite Ho. by replace (k + 1 - 1) with k by lia.
  - split; try done. exists a. split; [by apply tx_inv_lg|done].
Qed.

(** kernel/log.c implements [BlockStore]. *)
#[export] Instance log_store (sleep : M (lst C) unit) (fuel : nat) : BlockStore (lst C).
Proof.
  refine {|
    bs_bread := lread; bs_get x := on_c (bc_get x); bs_put x v := on_c (bc_put x v);
    bs_log_write := log_write; bs_brelse x := on_c (bc_brelse x); bs_initlog := initlog;
    bs_begin_op := begin_op sleep fuel; bs_end_op := end_op;
    bs_blk n := blk n /\ ~ in_log st n; bs_abs := store_abs
  |}.
  - intros s b n [(a & I & _ & Hv & _) _ _ _ _ _ _] [Hn _]. rewrite <- Hv by done. by apply (ti_sized _ _ _ I).
  - exact (store_bread 1).
  - intros s b x n B Hx. by apply (store_get 1).
  - exact (store_put 1).
  - exact (store_log_write 1).
  - exact (store_brelse 1).
Defined.

(** ** Transactions *)

(** The abstract state at the start of a transaction. *)
Definition tx_start a : ablk := mkb (a_view a) [] [] [] (a_disk a) (a_tr a).

Lemma begin_op_store s a sleep fuel :
  quiescent s st a -> (1 <= fuel)%nat ->
  exists s1, begin_op sleep fuel s = Ok (tt, s1) /\ store_abs s1 (tx_start a) /\ lc s1 = lc s.
Proof.
  intros Q Hf. pose proof (q_inv _ _ _ Q) as I. pose proof (q_n _ _ _ Q) as En.
  exists (mkl (set_outstanding 1 (lg s)) (lc s) (lg_wakeups s)).
  rewrite begin_op_run by (done || apply Q || (rewrite En, (q_out _ _ _ Q); unfold MAXOPBLOCKS, LOGSIZE; lia)).
  rewrite (q_out _ _ _ Q). split; [done|]. split; [|done].
  assert (homes (mkl (set_outstanding 1 (lg s)) (lc s) (lg_wakeups s)) = []) as Eh by (unfold homes; cbn; by rewrite En).
  split; try done; try apply Q.
  - exists a. split; [by apply (tx_inv_lg s)|]. split; [apply Q|]. split; [done|]. split; [|done].
    intros m Hm _ _. by eapply quiescent_disk.
  - split; constructor.
  - intros p Hp. by apply not_elem_of_nil in Hp.
Qed.

Lemma end_op_store s s2 a V l :
  quiescent s st a -> sized (a_disk a) ->
  store_abs s2 (mkb V [] l [] (a_disk a) (a_tr a)) ->
  exists s' a' tr k, end_op s2 = Ok (tt, s') /\ quiescent s' st a' /\ sized (a_disk a') /\
    bc_tr (lc s') = bc_tr (lc s) ++ tr /\
    (forall m, blk m -> ~ in_log st m -> a_disk a' m = V m) /\
    (tr = [] \/ (k < length tr)%nat) /\ crash_safe st (a_disk a) tr k (a_disk a) V /\
    (forall m, blk m -> a_disk a' m = apply_tr tr (a_disk a) m).
Proof.
  intros Q Hsz [(a2 & I2 & Hh & Hv & Hc & Hd & Ht) Hl _ _ Ho Hcm Hs]. cbn in Hh, Hv, Hc, Hd, Ht.
  destruct (end_op_commit s2 st a2 I2 Hh Hcm (proj1 Ho) Hs) as (s' & a' & tr & k & E & Q' & Hsz' & Et & Hdk & Htr & Hk & Hcs).
  { rewrite Hd. apply Q. } { by rewrite Hd. }
  exists s', a', tr, k. split; [done|]. split; [done|]. split; [done|].
  split; [by rewrite Et, (bc_tr_ok _ _ (ti_abs _ _ _ I2)), Ht, (bc_tr_ok _ _ (ti_abs _ _ _ (q_inv _ _ _ Q)))|].
  split; [intros; rewrite Hdk by done; by apply Hv|]. split; [done|]. rewrite Hd in Hcs, Htr.
  split; [|done]. eapply crash_safe_ext; [exact Hcs|]. intros m Hm _. by apply Hv.
Qed.

(** C1: What file system operations do to blocks through the interface of the
    log, from the first [begin_op] to the last [end_op], is atomic under
    crashes.  The log is quiescent at first.  [op] is any computation on the
    log; it may contain the [begin_op] and [end_op] of operations that overlap
    with the first, whose changes the log commits together with its own.  If
    [op] ends with only the first operation in progress, every buffer released
    and every change logged, the last [end_op] leaves the log quiescent and the
    disk, which its trace of writes made, with the blocks as [op] left them;
    and whatever number of the disk writes had been done at a crash, and
    however often recovery was itself interrupted, recovery ends with every
    block outside the log as it was before, or every block as [op] left it. *)
Theorem transaction_atomic s a sleep fuel
    (Q : quiescent s st a) (Hf : (1 <= fuel)%nat) (Hsz : sized (a_disk a)) :
  exists s1, begin_op sleep fuel s = Ok (tt, s1) /\ store_abs s1 (tx_start a) /\
    forall A (op : M (lst C) A) r s2 V l, op s1 = Ok (r, s2) -> store_abs s2 (mkb V [] l [] (a_disk a) (a_tr a)) ->
    exists s' a' tr k, (begin_op sleep fuel;; r ← op; end_op;; mret r) s = Ok (r, s') /\
      quiescent s' st a' /\ sized (a_disk a') /\ bc_tr (lc s') = bc_tr (lc s) ++ tr /\
      (forall m, blk m -> ~ in_log st m -> a_disk a' m = V m) /\
      (forall m, blk m -> a_disk a' m = apply_tr tr (a_disk a) m) /\
      (tr = [] \/ (k < length tr)%nat) /\ crash_safe st (a_disk a) tr k (a_disk a) V.
Proof.
  destruct (begin_op_store s a sleep fuel Q Hf) as (s1 & E1 & B1 & _). exists s1. split; [done|]. split; [done|].
  intros A op r s2 V l E2 B2. destruct (end_op_store s s2 a V l Q Hsz B2) as (s' & a' & tr & k & E3 & R1 & R2 & R3 & R4 & R5 & R6 & R7).
  exists s', a', tr, k. split; [|by split_and!]. rewrite (M_bind_Ok _ _ _ _ _ E1), (M_bind_Ok _ _ _ _ _ E2).
  by rewrite (M_bind_Ok _ _ _ _ _ E3).
Qed.

End store.

(** Two operations that overlap on a disk of zeros: the first begins, the
    second begins, changes block 100 and ends, the first changes block 32 and
    ends with the commit of both changes. *)
Definition overlap : M (lst bdisk) Z :=
  begin_op (mret tt) 1;; log_update 100 (fun v => 1 :: tail v);; end_op;;
  log_update 32 (fun v => 2 :: tail v);; mret 5.

Lemma transaction_atomic_witness :
  exists s' a' tr k, (begin_op (mret tt) 1;; r ← overlap; end_op;; mret r) boot = Ok (5, s') /\
    quiescent s' 2 a' /\ bc_tr (lc s') = bc_tr (lc boot) ++ tr /\ (k < length tr)%nat /\
    a_disk a' 100 = 1 :: replicate 1023 0 /\ a_disk a' 32 = 2 :: replicate 1023 0 /\
    exists V, crash_safe 2 zero_disk tr k zero_disk V /\ V 100 = a_disk a' 100 /\ V 32 = a_disk a' 32.
Proof.
  destruct (transaction_atomic 2 boot (a_init zero_disk) (mret tt) 1 boot_quiescent ltac:(lia)) as (s1 & E1 & B1 & H).
  - intros m _. apply length_replicate.
  - assert (forall x v, length v = BSIZE_nat -> length (x :: tail v : list Z) = BSIZE_nat) as Hf
      by (intros x [|y v]; [done|intros Hv; exact Hv]).
    destruct (store_join 2 1 s1 _ (mret tt) 1 B1) as (s2 & E2 & B2); [lia|vm_compute; congruence|].
    destruct (store_update 2 2 s2 _ 100 (fun v => 1 :: tail v) B2 eq_refl eq_refl) as (s3 & l3 & E3 & L3 & B3);
      [unfold blk, in_log, LOGSIZE; lia|cbn; unfold LOGCAP; lia|apply Hf|]. cbn in L3.
    destruct (store_leave 2 1 s3 _ B3) as (s4 & E4 & B4); [lia|].
    destruct (store_update 2 1 s4 _ 32 (fun v => 2 :: tail v) B4 eq_refl eq_refl) as (s5 & l5 & E5 & L5 & B5);
      [unfold blk, in_log, LOGSIZE; lia|cbn; unfold LOGCAP; lia|apply Hf|].
    destruct ((fun E => H Z overlap 5 s5 _ l5 E B5)) as (s' & a' & tr & k & E & Q & _ & Et & Hd & Htr & Hk & Hc).
    + unfold overlap. rewrite (M_bind_Ok _ _ _ _ _ E2), (M_bind_Ok _ _ _ _ _ E3), (M_bind_Ok _ _ _ _ _ E4).
      rewrite (M_bind_Ok _ _ _ _ _ E5). reflexivity.
    + exists s', a', tr, k. split; [exact E|]. split; [exact Q|]. split; [exact Et|].
      assert (a_disk a' 100 = 1 :: replicate 1023 0) as D1 by (rewrite Hd; [reflexivity|..]; unfold blk, in_log, LOGSIZE; lia).
      assert (a_disk a' 32 = 2 :: replicate 1023 0) as D2 by (rewrite Hd; [reflexivity|..]; unfold blk, in_log, LOGSIZE; lia).
      split; [|split; [exact D1|split; [exact D2|]]].
      * destruct Hk as [->|Hk]; [|exact Hk]. rewrite (Htr 100) in D1 by (unfold blk; lia). discriminate D1.
      * eexists. split; [exact Hc|]. rewrite D1, D2. split; reflexivity.
Defined.
