(* ===== verification/Fs.v ===== *)
(** * The file system (kernel/fs.c, kernel/fs.h)

    One definition per function of kernel/fs.c, over any transactional block
    store.  Blocks are lists of bytes; [struct dinode] and [struct superblock]
    are read and written at their offsets.  The inode table is an array, a
    pointer to an inode an index into it; [itable.lock] makes the functions
    that hold it atomic.  [me], [pagetable] and [cwd] are fields of
    [myproc()]; [de] is the address of the local [struct dirent]. *)

From S2P Require Import Prelude Riscv Mem Kalloc Vm Sleeplock Bytes Store.

Definition ROOTDEV : Z := 1.
Definition ROOTINO : Z := 1.
Definition FSMAGIC : Z := 0x10203040.
Definition BSIZE : Z := 1024.
Definition NDIRECT : Z := 12.
Definition NINDIRECT : Z := BSIZE / 4.
Definition MAXFILE : Z := NDIRECT + NINDIRECT.
Definition NINODE : Z := 50.
Definition DIRSIZ : Z := 14.

(** [sizeof(struct dinode)], [sizeof(struct dirent)] *)
Definition sizeof_dinode : Z := 64.
Definition sizeof_dirent : Z := 16.
Definition IPB : Z := BSIZE / sizeof_dinode.
Definition BPB : Z := BSIZE * 8.

Definition T_DIR : Z := 1.
Definition T_FILE : Z := 2.
Definition T_DEVICE : Z := 3.

Record superblock : Type := mksb {
  magic : Z; sb_size : Z; nblocks : Z; ninodes : Z; nlog : Z; logstart : Z; inodestart : Z; bmapstart : Z
}.

Definition IBLOCK (i : Z) (sb : superblock) : Z := u32 (i / IPB + inodestart sb).
Definition BBLOCK (b : Z) (sb : superblock) : Z := u32 (b / BPB + bmapstart sb).

Record inode : Type := mkino {
  i_dev : Z; i_inum : Z; i_ref : Z; i_lock : sleeplock; i_valid : Z;
  i_type : Z; i_major : Z; i_minor : Z; i_nlink : Z; i_size : Z; i_addrs : list Z
}.

Definition set_ref v i := mkino (i_dev i) (i_inum i) v (i_lock i) (i_valid i) (i_type i) (i_major i) (i_minor i) (i_nlink i) (i_size i) (i_addrs i).
Definition set_ilock v i := mkino (i_dev i) (i_inum i) (i_ref i) v (i_valid i) (i_type i) (i_major i) (i_minor i) (i_nlink i) (i_size i) (i_addrs i).
Definition set_ivalid v i := mkino (i_dev i) (i_inum i) (i_ref i) (i_lock i) v (i_type i) (i_major i) (i_minor i) (i_nlink i) (i_size i) (i_addrs i).
Definition set_type v i := mkino (i_dev i) (i_inum i) (i_ref i) (i_lock i) (i_valid i) v (i_major i) (i_minor i) (i_nlink i) (i_size i) (i_addrs i).
Definition set_devno ma mi i := mkino (i_dev i) (i_inum i) (i_ref i) (i_lock i) (i_valid i) (i_type i) ma mi (i_nlink i) (i_size i) (i_addrs i).
Definition set_nlink v i := mkino (i_dev i) (i_inum i) (i_ref i) (i_lock i) (i_valid i) (i_type i) (i_major i) (i_minor i) v (i_size i) (i_addrs i).
Definition set_isize v i := mkino (i_dev i) (i_inum i) (i_ref i) (i_lock i) (i_valid i) (i_type i) (i_major i) (i_minor i) (i_nlink i) v (i_addrs i).
Definition set_addrs v i := mkino (i_dev i) (i_inum i) (i_ref i) (i_lock i) (i_valid i) (i_type i) (i_major i) (i_minor i) (i_nlink i) (i_size i) v.

(** Log and cache, [sb], [itable.inode], memory, and the channels of the
    [wakeup] calls of [releasesleep]. *)
Record fstate (S : Type) : Type := mkfs {
  f_s : S; f_sb : superblock; f_it : list inode; f_k : km; f_woken : list Z
}.
Arguments mkfs {S} f_s f_sb f_it f_k f_woken.
Arguments f_s {S} _.
Arguments f_sb {S} _.
Arguments f_it {S} _.
Arguments f_k {S} _.
Arguments f_woken {S} _.

Definition set_s {S} (v : S) (s : fstate S) : fstate S := mkfs v (f_sb s) (f_it s) (f_k s) (f_woken s).
Definition set_it {S} (v : list inode) (s : fstate S) : fstate S := mkfs (f_s s) (f_sb s) v (f_k s) (f_woken s).
Definition set_k {S} (v : km) (s : fstate S) : fstate S := mkfs (f_s s) (f_sb s) (f_it s) v (f_woken s).

(** ** Bytes in blocks and memory *)

Fixpoint load_bytes (n : nat) (a : Z) (m : mem) : list Z :=
  match n with
  | O => []
  | S n' => ldb m a :: load_bytes n' (a + 1) m
  end.

Fixpoint store_bytes (a : Z) (l : list Z) (m : mem) : mem :=
  match l with
  | [] => m
  | v :: l' => store_bytes (a + 1) l' (stb m a v)
  end.

(** [n] bytes of a block from offset [off]; the block with [l] stored there. *)
Definition slice (off n : Z) (d : list Z) : list Z := take (Z.to_nat n) (drop (Z.to_nat off) d).
Definition splice (off : Z) (l d : list Z) : list Z :=
  take (Z.to_nat off) d ++ l ++ drop (Z.to_nat off + length l) d.

(** ** Copying to and from user memory (kernel/proc.c, kernel/vm.c)

    [copyout] and [copyin] of kernel/vm.c with the kernel side a list of
    bytes: the other end is a buffer of the block cache. *)
Section copy.
Context (pagetable : Z) (fuel : nat).

Fixpoint copyout_bytes (n : nat) (dstva : Z) (src : list Z) : M km Z :=
  match n with
  | O => hang
  | S n' =>
      let len := Z.of_nat (length src) in
      if len =? 0 then mret 0 else
      let va0 := PGROUNDDOWN dstva in
      pa0 ← walkaddr pagetable va0;
      if pa0 =? 0 then mret (-1) else
      let c := Z.min (PGSIZE - (dstva - va0)) len in
      modify (fun k => set_mem (store_bytes (pa0 + (dstva - va0)) (take (Z.to_nat c) src) (km_mem k)) k);;
      copyout_bytes n' (u64 (va0 + PGSIZE)) (drop (Z.to_nat c) src)
  end.

(** The result and the bytes copied before a page was missing. *)
Fixpoint copyin_bytes (n : nat) (srcva len : Z) (acc : list Z) : M km (Z * list Z) :=
  match n with
  | O => hang
  | S n' =>
      if len =? 0 then mret (0, acc) else
      let va0 := PGROUNDDOWN srcva in
      pa0 ← walkaddr pagetable va0;
      if pa0 =? 0 then mret (-1, acc) else
      let c := Z.min (PGSIZE - (srcva - va0)) len in
      l ← gets (fun k => load_bytes (Z.to_nat c) (pa0 + (srcva - va0)) (km_mem k));
      copyin_bytes n' (u64 (va0 + PGSIZE)) (len - c) (acc ++ l)
  end.

Definition either_copyout (user_dst : bool) (dst : Z) (src : list Z) : M km Z :=
  if user_dst then copyout_bytes fuel dst src
  else modify (fun k => set_mem (store_bytes dst src (km_mem k)) k);; mret 0.

Definition either_copyin (user_src : bool) (src len : Z) : M km (Z * list Z) :=
  if user_src then copyin_bytes fuel src len []
  else l ← gets (fun k => load_bytes (Z.to_nat len) src (km_mem k)); mret (0, l).

End copy.

Section fs.
Context {S : Type} `{!BlockStore S}.
Context (me pagetable cwd de : Z) (fuel : nat) (sleep : M (fstate S) unit).
Notation F := (M (fstate S)).

Definition on_s {A} (m : M S A) : F A := zoom f_s set_s m.
Definition on_k {A} (m : M km A) : F A := zoom f_k set_k m.
Definition on_mem {A} (f : mem -> A) : F A := gets (fun s => f (km_mem (f_k s))).
Definition upd_mem (f : mem -> mem) : F unit := modify (fun s => set_k (set_mem (f (km_mem (f_k s))) (f_k s)) s).

Definition geti (i : Z) : F inode := M_rd f_it i.
Definition updi (i : Z) (f : inode -> inode) : F unit := M_alter f_it set_it i f.

(** ** Super block *)

Definition sb_of (d : list Z) : superblock :=
  mksb (get32 d 0) (get32 d 4) (get32 d 8) (get32 d 12) (get32 d 16) (get32 d 20) (get32 d 24) (get32 d 28).

Definition readsb : F unit :=
  bp ← on_s (bs_bread 1);
  d ← on_s (bs_get bp);
  modify (fun s => mkfs (f_s s) (sb_of d) (f_it s) (f_k s) (f_woken s));;
  on_s (bs_brelse bp).

Definition fsinit (dev : Z) : F unit :=
  readsb;;
  sb ← gets f_sb;
  if negb (magic sb =? FSMAGIC) then panic "invalid file system" else
  on_s (bs_initlog dev (logstart sb) (nlog sb)).

(** ** Blocks *)

Definition bzero (bno : Z) : F unit :=
  bp ← on_s (bs_bread (u32 bno));
  on_s (bs_put bp (replicate (Z.to_nat BSIZE) 0));;
  on_s (bs_log_write bp);;
  on_s (bs_brelse bp).

(** The bit of block [bi] of a bitmap block. *)
Definition bit_clear (d : list Z) (bi : Z) : bool :=
  Z.land (byte_at d (Z.to_nat (bi / 8))) (Z.shiftl 1 (bi mod 8)) =? 0.
Definition set_bit (d : list Z) (bi : Z) : list Z :=
  <[Z.to_nat (bi / 8) := Z.lor (byte_at d (Z.to_nat (bi / 8))) (Z.shiftl 1 (bi mod 8))]> d.
Definition clear_bit (d : list Z) (bi : Z) : list Z :=
  <[Z.to_nat (bi / 8) := Z.land (byte_at d (Z.to_nat (bi / 8))) (Z.lnot (Z.shiftl 1 (bi mod 8)))]> d.

(** [for (bi = 0; bi < BPB && b + bi < sb.size; bi++)], [k] turns to go. *)
Fixpoint balloc_scan (k : nat) (bp b bi : Z) : F (option Z) :=
  match k with
  | O => mret None
  | Datatypes.S k' =>
      sb ← gets f_sb;
      if negb (b + bi <? sb_size sb) then mret None else
      d ← on_s (bs_get bp);
      if bit_clear d bi then
        on_s (bs_put bp (set_bit d bi));;
        on_s (bs_log_write bp);;
        on_s (bs_brelse bp);;
        bzero (b + bi);;
        mret (Some (b + bi))
      else balloc_scan k' bp b (bi + 1)
  end.

(** [for (b = 0; b < sb.size; b += BPB)] *)
Fixpoint balloc_from (n : nat) (b : Z) : F Z :=
  match n with
  | O => hang
  | Datatypes.S n' =>
      sb ← gets f_sb;
      if negb (b <? sb_size sb) then panic "balloc: out of blocks" else
      bp ← on_s (bs_bread (BBLOCK b sb));
      r ← balloc_scan (Z.to_nat BPB) bp b 0;
      match r with
      | Some x => mret x
      | None => on_s (bs_brelse bp);; balloc_from n' (b + BPB)
      end
  end.

(** Turns of the loop of [balloc]. *)
Definition bitmap_blocks (sb : superblock) : nat := Datatypes.S (Z.to_nat (sb_size sb / BPB + 1)).

Definition balloc : F Z :=
  sb ← gets f_sb;
  balloc_from (bitmap_blocks sb) 0.

Definition bfree (b : Z) : F unit :=
  sb ← gets f_sb;
  bp ← on_s (bs_bread (BBLOCK b sb));
  d ← on_s (bs_get bp);
  let bi := b mod BPB in
  if bit_clear d bi then panic "freeing free block" else
  on_s (bs_put bp (clear_bit d bi));;
  on_s (bs_log_write bp);;
  on_s (bs_brelse bp).

(** ** Inodes *)

(** [initsleeplock] on every entry. *)
Definition iinit : F unit := modify (fun s => set_it (set_ilock initsleeplock <$> f_it s) s).

(** The offset of inode [inum] in its block. *)
Definition dip (inum : Z) : nat := Z.to_nat (inum mod IPB * sizeof_dinode).

Fixpoint iget_scan (k : nat) (i : Z) (empty : option Z) (dev inum : Z) : F (option Z * option Z) :=
  match k with
  | O => mret (None, empty)
  | Datatypes.S k' =>
      ip ← geti i;
      if (0 <? i_ref ip) && (i_dev ip =? dev) && (i_inum ip =? inum) then
        updi i (fun x => set_ref (i_ref x + 1) x);;
        mret (Some i, empty)
      else
        iget_scan k' (i + 1)
          (match empty with None => if i_ref ip =? 0 then Some i else None | Some e => Some e end) dev inum
  end.

Definition iget (dev inum : Z) : F Z :=
  r ← iget_scan (Z.to_nat NINODE) 0 None dev inum;
  match r with
  | (Some ip, _) => mret ip
  | (None, None) => panic "iget: no inodes"
  | (None, Some ip) =>
      updi ip (fun x => mkino dev inum 1 (i_lock x) 0 (i_type x) (i_major x) (i_minor x) (i_nlink x) (i_size x) (i_addrs x));;
      mret ip
  end.

(** [for (inum = 1; inum < sb.ninodes; inum++)] *)
Fixpoint ialloc_from (k : nat) (inum dev type : Z) : F Z :=
  match k with
  | O => hang
  | Datatypes.S k' =>
      sb ← gets f_sb;
      if negb (inum <? ninodes sb) then panic "ialloc: no inodes" else
      bp ← on_s (bs_bread (IBLOCK inum sb));
      d ← on_s (bs_get bp);
      if get16 d (dip inum) =? 0 then
        on_s (bs_put bp (put16 (splice (Z.of_nat (dip inum)) (replicate (Z.to_nat sizeof_dinode) 0) d) (dip inum) type));;
        on_s (bs_log_write bp);;
        on_s (bs_brelse bp);;
        iget dev inum
      else
        on_s (bs_brelse bp);;
        ialloc_from k' (inum + 1) dev type
  end.

Definition ialloc (dev type : Z) : F Z :=
  sb ← gets f_sb;
  ialloc_from (Datatypes.S (Z.to_nat (ninodes sb))) 1 dev type.

(** [memmove(dip->addrs, ip->addrs, sizeof(ip->addrs))] *)
Fixpoint put_addrs (off : nat) (l : list Z) (d : list Z) : list Z :=
  match l with
  | [] => d
  | v :: l' => put_addrs (off + 4) l' (put32 d off v)
  end.

Fixpoint get_addrs (k : nat) (off : nat) (d : list Z) : list Z :=
  match k with
  | O => []
  | Datatypes.S k' => get32 d off :: get_addrs k' (off + 4) d
  end.

(** The block with the on-disk copy of [ip] at [o]. *)
Definition put_dinode (o : nat) (ip : inode) (d : list Z) : list Z :=
  let d := put16 d o (i_type ip) in
  let d := put16 d (o + 2) (i_major ip) in
  let d := put16 d (o + 4) (i_minor ip) in
  let d := put16 d (o + 6) (i_nlink ip) in
  let d := put32 d (o + 8) (i_size ip) in
  put_addrs (o + 12) (i_addrs ip) d.

Definition iupdate (i : Z) : F unit :=
  ip ← geti i;
  sb ← gets f_sb;
  bp ← on_s (bs_bread (IBLOCK (i_inum ip) sb));
  d ← on_s (bs_get bp);
  on_s (bs_put bp (put_dinode (dip (i_inum ip)) ip d));;
  on_s (bs_log_write bp);;
  on_s (bs_brelse bp).

Definition idup (i : Z) : F Z :=
  updi i (fun x => set_ref (i_ref x + 1) x);;
  mret i.

(** [ip] with the fields of its on-disk copy at [o]. *)
Definition get_dinode (o : nat) (d : list Z) (ip : inode) : inode :=
  mkino (i_dev ip) (i_inum ip) (i_ref ip) (i_lock ip) (i_valid ip)
    (s16 (get16 d o)) (s16 (get16 d (o + 2))) (s16 (get16 d (o + 4))) (s16 (get16 d (o + 6)))
    (get32 d (o + 8)) (get_addrs (Z.to_nat (NDIRECT + 1)) (o + 12) d).

Definition iacquire (i : Z) : F unit :=
  acquiresleep (ip ← geti i; mret (i_lock ip)) (fun lk => updi i (set_ilock lk)) sleep fuel me.

Definition irelease (i : Z) : F unit :=
  updi i (fun x => set_ilock (releasesleep (i_lock x)) x);;
  modify (fun s => mkfs (f_s s) (f_sb s) (f_it s) (f_k s) (i :: f_woken s)).

Definition ilock (i : Z) : F unit :=
  ip ← geti i;
  if i_ref ip <? 1 then panic "ilock" else
  iacquire i;;
  ip ← geti i;
  if i_valid ip =? 0 then
    sb ← gets f_sb;
    bp ← on_s (bs_bread (IBLOCK (i_inum ip) sb));
    d ← on_s (bs_get bp);
    updi i (get_dinode (dip (i_inum ip)) d);;
    on_s (bs_brelse bp);;
    updi i (set_ivalid 1);;
    ip ← geti i;
    if i_type ip =? 0 then panic "ilock: no type" else mret tt
  else mret tt.

Definition iunlock (i : Z) : F unit :=
  ip ← geti i;
  if negb (holdingsleep me (i_lock ip)) || (i_ref ip <? 1) then panic "iunlock" else
  irelease i.

(** ** Inode content *)

(** [ip->addrs[bn]] *)
Definition get_addr (i bn : Z) : F Z := ip ← geti i; lift (rd (i_addrs ip) bn).
Definition set_addr (i bn v : Z) : F unit :=
  ip ← geti i;
  l ← lift (wr (i_addrs ip) bn v);
  updi i (set_addrs l).

Definition bmap (i bn : Z) : F Z :=
  if bn <? NDIRECT then
    addr ← get_addr i bn;
    if addr =? 0 then
      addr ← balloc;
      set_addr i bn addr;;
      mret addr
    else mret addr
  else
    let bn := bn - NDIRECT in
    if bn <? NINDIRECT then
      addr ← get_addr i NDIRECT;
      addr ← (if addr =? 0 then
                addr ← balloc;
                set_addr i NDIRECT addr;;
                mret addr
              else mret addr);
      bp ← on_s (bs_bread addr);
      d ← on_s (bs_get bp);
      let addr := get32 d (4 * Z.to_nat bn) in
      addr ← (if addr =? 0 then
                addr ← balloc;
                d ← on_s (bs_get bp);
                on_s (bs_put bp (put32 d (4 * Z.to_nat bn) addr));;
                on_s (bs_log_write bp);;
                mret addr
              else mret addr);
      on_s (bs_brelse bp);;
      mret addr
    else panic "bmap: out of range".

(** [for (i = 0; i < NDIRECT; i++)] of [itrunc] *)
Fixpoint free_direct (k : nat) (i j : Z) : F unit :=
  match k with
  | O => mret tt
  | Datatypes.S k' =>
      a ← get_addr i j;
      (if negb (a =? 0) then bfree a;; set_addr i j 0 else mret tt);;
      free_direct k' i (j + 1)
  end.

(** [for (j = 0; j < NINDIRECT; j++)] of [itrunc] *)
Fixpoint free_indirect (k : nat) (bp j : Z) : F unit :=
  match k with
  | O => mret tt
  | Datatypes.S k' =>
      d ← on_s (bs_get bp);
      let a := get32 d (4 * Z.to_nat j) in
      (if negb (a =? 0) then bfree a else mret tt);;
      free_indirect k' bp (j + 1)
  end.

Definition itrunc (i : Z) : F unit :=
  free_direct (Z.to_nat NDIRECT) i 0;;
  a ← get_addr i NDIRECT;
  (if negb (a =? 0) then
     bp ← on_s (bs_bread a);
     free_indirect (Z.to_nat NINDIRECT) bp 0;;
     on_s (bs_brelse bp);;
     a ← get_addr i NDIRECT;
     bfree a;;
     set_addr i NDIRECT 0
   else mret tt);;
  updi i (set_isize 0);;
  iupdate i.

Definition iput (i : Z) : F unit :=
  ip ← geti i;
  (if (i_ref ip =? 1) && negb (i_valid ip =? 0) && (i_nlink ip =? 0) then
     iacquire i;;
     itrunc i;;
     updi i (set_type 0);;
     iupdate i;;
     updi i (set_ivalid 0);;
     irelease i
   else mret tt);;
  updi i (fun x => set_ref (i_ref x - 1) x).

Definition iunlockput (i : Z) : F unit := iunlock i;; iput i.

(** [struct stat] *)
Record stat : Type := mkstat { st_dev : Z; st_ino : Z; st_type : Z; st_nlink : Z; st_size : Z }.

Definition stati (i : Z) : F stat :=
  ip ← geti i;
  mret (mkstat (s32 (i_dev ip)) (i_inum ip) (i_type ip) (i_nlink ip) (i_size ip)).

(** [for (tot = 0; tot < n; tot += m, off += m, dst += m)] *)
Fixpoint readi_from (k : nat) (i : Z) (user_dst : bool) (dst off tot n : Z) : F Z :=
  match k with
  | O => hang
  | Datatypes.S k' =>
      if negb (tot <? n) then mret tot else
      a ← bmap i (off / BSIZE);
      bp ← on_s (bs_bread a);
      let m := Z.min (n - tot) (BSIZE - off mod BSIZE) in
      d ← on_s (bs_get bp);
      r ← on_k (either_copyout pagetable fuel user_dst dst (slice (off mod BSIZE) m d));
      if r =? -1 then
        on_s (bs_brelse bp);;
        mret (-1)
      else
        on_s (bs_brelse bp);;
        readi_from k' i user_dst (u64 (dst + m)) (u32 (off + m)) (tot + m) n
  end.

Definition readi (i : Z) (user_dst : bool) (dst off n : Z) : F Z :=
  ip ← geti i;
  if (i_size ip <? off) || (u32 (off + n) <? off) then mret 0 else
  let n := if i_size ip <? u32 (off + n) then i_size ip - off else n in
  tot ← readi_from (Datatypes.S (Z.to_nat n)) i user_dst dst off 0 n;
  mret (s32 tot).

(** The loop of [writei]: the values of [tot] and [off] after it. *)
Fixpoint writei_from (k : nat) (i : Z) (user_src : bool) (src off tot n : Z) : F (Z * Z) :=
  match k with
  | O => hang
  | Datatypes.S k' =>
      if negb (tot <? n) then mret (tot, off) else
      a ← bmap i (off / BSIZE);
      bp ← on_s (bs_bread a);
      let m := Z.min (n - tot) (BSIZE - off mod BSIZE) in
      '(r, l) ← on_k (either_copyin pagetable fuel user_src src m);
      d ← on_s (bs_get bp);
      on_s (bs_put bp (splice (off mod BSIZE) l d));;
      if r =? -1 then
        on_s (bs_brelse bp);;
        mret (tot, off)
      else
        on_s (bs_log_write bp);;
        on_s (bs_brelse bp);;
        writei_from k' i user_src (u64 (src + m)) (u32 (off + m)) (tot + m) n
  end.

Definition writei (i : Z) (user_src : bool) (src off n : Z) : F Z :=
  ip ← geti i;
  if (i_size ip <? off) || (u32 (off + n) <? off) then mret (-1) else
  if MAXFILE * BSIZE <? u32 (off + n) then mret (-1) else
  '(tot, off) ← writei_from (Datatypes.S (Z.to_nat n)) i user_src src off 0 n;
  ip ← geti i;
  (if i_size ip <? off then updi i (set_isize off) else mret tt);;
  iupdate i;;
  mret (s32 tot).

(** ** Directories *)

Definition namecmp (s t : Z) (m : mem) : Z := strncmp s t DIRSIZ m.

(** [de.inum], [de.name] *)
Definition de_inum (m : mem) : Z := ld 2 m de.
Definition de_name : Z := de + 2.

(** [for (off = 0; off < dp->size; off += sizeof(de))]; the result is the
    inode and the value stored through [poff]. *)
Fixpoint dirlookup_from (k : nat) (dp name off : Z) : F (option (Z * Z)) :=
  match k with
  | O => hang
  | Datatypes.S k' =>
      ip ← geti dp;
      if negb (off <? i_size ip) then mret None else
      r ← readi dp false de off sizeof_dirent;
      if negb (r =? sizeof_dirent) then panic "dirlookup read" else
      inum ← on_mem de_inum;
      if inum =? 0 then dirlookup_from k' dp name (u32 (off + sizeof_dirent)) else
      c ← on_mem (namecmp name de_name);
      if c =? 0 then
        ip ← geti dp;
        x ← iget (i_dev ip) inum;
        mret (Some (x, off))
      else dirlookup_from k' dp name (u32 (off + sizeof_dirent))
  end.

(** Turns of a loop over the entries of a directory. *)
Definition entries (size : Z) : nat := Datatypes.S (Z.to_nat (size / sizeof_dirent + 1)).

Definition dirlookup (dp name : Z) : F (option (Z * Z)) :=
  ip ← geti dp;
  if negb (i_type ip =? T_DIR) then panic "dirlookup not DIR" else
  dirlookup_from (entries (i_size ip)) dp name 0.

(** The first offset whose entry is free, or the size. *)
Fixpoint dirlink_from (k : nat) (dp off : Z) : F Z :=
  match k with
  | O => hang
  | Datatypes.S k' =>
      ip ← geti dp;
      if negb (off <? i_size ip) then mret off else
      r ← readi dp false de off sizeof_dirent;
      if negb (r =? sizeof_dirent) then panic "dirlink read" else
      inum ← on_mem de_inum;
      if inum =? 0 then mret off else dirlink_from k' dp (off + sizeof_dirent)
  end.

Definition dirlink (dp name inum : Z) : F Z :=
  r ← dirlookup dp name;
  match r with
  | Some (ip, _) => iput ip;; mret (-1)
  | None =>
      ip ← geti dp;
      off ← dirlink_from (entries (i_size ip)) dp 0;
      upd_mem (strncpy de_name name DIRSIZ);;
      upd_mem (fun m => st 2 m de (u16 inum));;
      r ← writei dp false de off sizeof_dirent;
      if negb (r =? sizeof_dirent) then panic "dirlink" else mret 0
  end.

(** ** Paths *)

Definition slash : Z := 47.

(** [while ( *path == '/') path++] *)
Fixpoint skip_slashes (k : nat) (path : Z) (m : mem) : res Z :=
  match k with
  | O => Hang
  | Datatypes.S k' => if ldb m path =? slash then skip_slashes k' (path + 1) m else Ok path
  end.

(** [while ( *path != '/' && *path != 0) path++] *)
Fixpoint skip_name (k : nat) (path : Z) (m : mem) : res Z :=
  match k with
  | O => Hang
  | Datatypes.S k' =>
      if negb (ldb m path =? slash) && negb (ldb m path =? 0) then skip_name k' (path + 1) m else Ok path
  end.

Definition skipelem (path name : Z) : F (option Z) :=
  m ← on_mem (fun m => m);
  path ← lift (skip_slashes fuel path m);
  if ldb m path =? 0 then mret None else
  let s := path in
  path ← lift (skip_name fuel path m);
  let len := path - s in
  (if DIRSIZ <=? len then upd_mem (memmove name s DIRSIZ)
   else
     upd_mem (memmove name s len);;
     upd_mem (fun m => stb m (name + len) 0));;
  m ← on_mem (fun m => m);
  path ← lift (skip_slashes fuel path m);
  mret (Some path).

(** [while ((path = skipelem(path, name)) != 0)] and the code after it *)
Fixpoint namex_from (k : nat) (ip path : Z) (nameiparent : bool) (name : Z) : F (option Z) :=
  match k with
  | O => hang
  | Datatypes.S k' =>
      p ← skipelem path name;
      match p with
      | None => if nameiparent then iput ip;; mret None else mret (Some ip)
      | Some path =>
          ilock ip;;
          x ← geti ip;
          if negb (i_type x =? T_DIR) then iunlockput ip;; mret None else
          c ← on_mem (fun m => ldb m path);
          if nameiparent && (c =? 0) then iunlock ip;; mret (Some ip) else
          r ← dirlookup ip name;
          match r with
          | None => iunlockput ip;; mret None
          | Some (next, _) => iunlockput ip;; namex_from k' next path nameiparent name
          end
      end
  end.

Definition namex (path : Z) (nameiparent : bool) (name : Z) : F (option Z) :=
  c ← on_mem (fun m => ldb m path);
  ip ← (if c =? slash then iget ROOTDEV ROOTINO else idup cwd);
  namex_from fuel ip path nameiparent name.

(** [name] is the address of the local array of [namei]. *)
Definition namei (name path : Z) : F (option Z) := namex path false name.
Definition nameiparent (path name : Z) : F (option Z) := namex path true name.

End fs.
