(* ===== verification/FsAlloc.v ===== *)
(** * Blocks: [balloc] and [bfree]

    The free bitmap as a set of used blocks: [balloc] takes the first free
    block, marks it and zeroes it; [bfree] gives one back. *)

From S2P Require Import Prelude Cache Sleeplock Mem Kalloc Bytes Store Fs.

(** ** Bits *)

Lemma land_bit x k : 0 <= k -> (Z.land x (Z.shiftl 1 k) =? 0) = negb (Z.testbit x k).
Proof.
  intros Hk. rewrite Z.shiftl_1_l. destruct (Z.testbit x k) eqn:E; cbn.
  - apply Z.eqb_neq. intros H. assert (Z.testbit (Z.land x (2 ^ k)) k = true) as H'.
    { by rewrite Z.land_spec, E, Z.pow2_bits_true. }
    rewrite H, Z.bits_0 in H'. done.
  - apply Z.eqb_eq. apply Z.bits_inj'. intros j Hj. rewrite Z.land_spec, Z.bits_0.
    destruct (Z.eq_dec k j) as [<-|]; [by rewrite E|]. by rewrite Z.pow2_bits_false, andb_false_r.
Qed.

Lemma bit_clear_spec d bi : bit_clear d bi = negb (Z.testbit (byte_at d (Z.to_nat (bi / 8))) (bi mod 8)).
Proof. apply land_bit. apply Z.mod_pos_bound. lia. Qed.

Lemma bit_pos bi bj : bi / 8 = bj / 8 -> bi mod 8 = bj mod 8 -> bi = bj.
Proof. intros. rewrite (Z.div_mod bi 8), (Z.div_mod bj 8) by lia. congruence. Qed.

Lemma bit_idx bi n : 0 <= bi < 8 * n -> (Z.to_nat (bi / 8) < Z.to_nat n)%nat.
Proof. intros H. assert (0 <= bi / 8 < n); [|lia]. split; [apply Z.div_pos; lia|apply Z.div_lt_upper_bound; lia]. Qed.

Lemma set_bit_spec d bi bj :
  0 <= bi < BPB -> 0 <= bj -> length d = BSIZE_nat ->
  bit_clear (set_bit d bi) bj = if decide (bj = bi) then false else bit_clear d bj.
Proof.
  intros Hi Hj Hl. rewrite !bit_clear_spec. unfold set_bit. pose proof (Z.mod_pos_bound bi 8 ltac:(lia)).
  pose proof (Z.mod_pos_bound bj 8 ltac:(lia)).
  pose proof (bit_idx bi 1024 Hi) as Hx. change (Z.to_nat 1024) with BSIZE_nat in Hx.
  destruct (Z.eq_dec (bi / 8) (bj / 8)) as [E|E].
  - rewrite <- E, byte_insert_eq, Z.lor_spec, Z.shiftl_1_l by lia. rewrite Z.pow2_bits_eqb by lia.
    destruct (Z.eqb_spec (bi mod 8) (bj mod 8)) as [E'|E'].
    + rewrite orb_true_r, decide_True; [done|]. symmetry. by apply bit_pos.
    + rewrite orb_false_r, decide_False; [done|]. by intros ->.
  - assert (0 <= bi / 8) by (apply Z.div_pos; lia). assert (0 <= bj / 8) by (apply Z.div_pos; lia).
    rewrite byte_insert_ne by lia. rewrite decide_False; [done|]. by intros ->.
Qed.

Lemma clear_bit_spec d bi bj :
  0 <= bi < BPB -> 0 <= bj -> length d = BSIZE_nat ->
  bit_clear (clear_bit d bi) bj = if decide (bj = bi) then true else bit_clear d bj.
Proof.
  intros Hi Hj Hl. rewrite !bit_clear_spec. unfold clear_bit. pose proof (Z.mod_pos_bound bi 8 ltac:(lia)).
  pose proof (Z.mod_pos_bound bj 8 ltac:(lia)).
  pose proof (bit_idx bi 1024 Hi) as Hx. change (Z.to_nat 1024) with BSIZE_nat in Hx.
  destruct (Z.eq_dec (bi / 8) (bj / 8)) as [E|E].
  - rewrite <- E, byte_insert_eq, Z.land_spec, Z.shiftl_1_l, Z.lnot_spec by lia. rewrite Z.pow2_bits_eqb by lia.
    destruct (Z.eqb_spec (bi mod 8) (bj mod 8)) as [E'|E']; cbn [negb].
    + rewrite andb_false_r, decide_True; [done|]. symmetry. by apply bit_pos.
    + rewrite andb_true_r, decide_False; [done|]. by intros ->.
  - assert (0 <= bi / 8) by (apply Z.div_pos; lia). assert (0 <= bj / 8) by (apply Z.div_pos; lia).
    rewrite byte_insert_ne by lia. rewrite decide_False; [done|]. by intros ->.
Qed.

Lemma length_set_bit d bi : length (set_bit d bi) = length d.
Proof. apply length_insert. Qed.

Lemma length_clear_bit d bi : length (clear_bit d bi) = length d.
Proof. apply length_insert. Qed.

(** ** Running code on the block store *)

Definition log_add (n : Z) (l : list Z) : list Z := if decide (n ∈ l) then l else l ++ [n].

(** A block changed and logged. *)
Definition b_write (n : Z) (v : list Z) (a : ablk) : ablk :=
  mkb (fset (b_view a) n v) (b_held a) (log_add n (b_log a)) (b_mod a) (b_disk a) (b_tr a).

Lemma log_add_length n l : (length (log_add n l) <= length l + 1)%nat.
Proof. unfold log_add. case_decide; [lia|]. rewrite length_app. cbn. lia. Qed.

Section run.
Context {S : Type} `{!BlockStore S}.
Implicit Types (s : fstate S) (a : ablk).

Lemma set_s_id s : set_s (f_s s) s = s.
Proof. by destruct s. Qed.

Lemma set_s_set_s x y s : set_s y (set_s x s) = set_s y s.
Proof. done. Qed.

Lemma on_s_Ok {A} (m : M S A) s r x : m (f_s s) = Ok (r, x) -> on_s m s = Ok (r, set_s x s).
Proof. intros E. unfold on_s. by erewrite zoom_Ok. Qed.

(** Room for one more buffer and for [k] more logged blocks. *)
Definition room (k : nat) a : Prop :=
  (length (b_log a) + k <= LOGCAP)%nat /\ (length (b_log a) + k + length (b_held a) < 30)%nat.

Lemma run_bread s a n :
  bs_abs (f_s s) a -> bs_blk n -> n ∉ (b_held a).*2 -> room 0 a ->
  exists b x, on_s (bs_bread n) s = Ok (b, set_s x s) /\ bs_abs x (b_hold b n a).
Proof.
  intros A Hn Hh [_ Hr]. destruct (bs_bread_ok _ _ n A Hn Hh) as (b & x & E & A'); [lia|].
  exists b, x. split; [by apply on_s_Ok|done].
Qed.

Lemma run_get s a b n : bs_abs (f_s s) a -> (b, n) ∈ b_held a -> on_s (bs_get b) s = Ok (b_view a n, s).
Proof. intros A H. rewrite (on_s_Ok _ s _ _ (bs_get_ok _ _ _ _ A H)). by rewrite set_s_id. Qed.

Lemma run_brelse s a b n h :
  bs_abs (f_s s) a -> b_held a = (b, n) :: h -> n ∉ b_mod a ->
  exists x, on_s (bs_brelse b) s = Ok (tt, set_s x s) /\ bs_abs x (b_release h a).
Proof.
  intros A E Hm. destruct (bs_brelse_ok _ _ _ _ _ A E Hm) as (x & E' & A'). exists x. split; [by apply on_s_Ok|done].
Qed.

Lemma filter_self (n : Z) (l : list Z) : n ∉ l -> List.filter (fun m => negb (m =? n)) (n :: l) = l.
Proof.
  intros H. cbn. rewrite Z.eqb_refl. cbn. induction l as [|m l IH]; [done|]. cbn.
  apply not_elem_of_cons in H as [H1 H2]. destruct (Z.eqb_spec m n); [congruence|]. cbn. by rewrite IH.
Qed.

(** Change, log and release the buffer on top. *)
Lemma run_write s a b n v :
  bs_abs (f_s s) (b_hold b n a) -> bs_blk n -> length v = BSIZE_nat -> n ∉ b_mod a -> room 1 a ->
  exists x, (forall B (k : unit -> M (fstate S) B), (on_s (bs_put b v) ≫= fun _ => on_s (bs_log_write b) ≫= fun _ =>
      on_s (bs_brelse b) ≫= k) s = k tt (set_s x s)) /\
    bs_abs x (b_write n v a).
Proof.
  intros A Hn Hv Hm [Hr _]. assert ((b, n) ∈ b_held (b_hold b n a)) as Hb by left.
  destruct (bs_put_ok _ _ _ _ v A Hb Hv) as (x1 & E1 & A1).
  destruct (bs_log_write_ok x1 _ b n A1 Hb) as (x2 & E2 & A2); [cbn; lia|].
  destruct (bs_brelse_ok x2 _ b n (b_held a) A2 eq_refl) as (x3 & E3 & A3).
  { cbn [b_logged b_put b_mod b_hold]. by rewrite filter_self. }
  exists x3. split.
  - intros B k. rewrite (M_bind_Ok _ _ _ _ _ (on_s_Ok _ _ _ _ E1)).
    rewrite (M_bind_Ok _ _ _ _ _ (on_s_Ok _ (set_s x1 s) _ _ E2)).
    by rewrite (M_bind_Ok _ _ _ _ _ (on_s_Ok _ (set_s x2 (set_s x1 s)) _ _ E3)).
  - assert (b_release (b_held a) (b_logged n (b_put n v (b_hold b n a))) = b_write n v a) as <-; [|done].
    unfold b_release, b_logged, b_write, log_add. cbn [b_view b_held b_log b_mod b_disk b_tr b_put b_hold].
    by rewrite filter_self.
Qed.

(** ... at the end of a function. *)
Lemma run_write_tail s a b n v :
  bs_abs (f_s s) (b_hold b n a) -> bs_blk n -> length v = BSIZE_nat -> n ∉ b_mod a -> room 1 a ->
  exists x, (on_s (bs_put b v);; on_s (bs_log_write b);; on_s (bs_brelse b)) s = Ok (tt, set_s x s) /\
    bs_abs x (b_write n v a).
Proof.
  intros A Hn Hv Hm Hr. destruct (run_write s a b n v A Hn Hv Hm Hr) as (x & E & A'). specialize (E _ mret). exists x. split; [|done].
  change (Ok (tt, set_s x s)) with (mret (M := M (fstate S)) tt (set_s x s)). rewrite <- E.
  unfold mbind, M_bind. destruct (on_s (bs_put b v) s) as [[[] s1]| | |]; try done.
  destruct (on_s (bs_log_write b) s1) as [[[] s2]| | |]; try done.
  by destruct (on_s (bs_brelse b) s2) as [[[] s3]| | |].
Qed.

Lemma room_write k n v a : room (Datatypes.S k) a -> room k (b_write n v a).
Proof. intros [H1 H2]. pose proof (log_add_length n (b_log a)). unfold room, b_write. cbn [b_log b_held]. lia. Qed.

Lemma room_le k k' a : room k a -> (k' <= k)%nat -> room k' a.
Proof. unfold room. lia. Qed.

Lemma bzero_spec s a n :
  bs_abs (f_s s) a -> bs_blk n -> n ∉ (b_held a).*2 -> 0 <= n < 2 ^ 32 -> n ∉ b_mod a -> room 1 a ->
  exists x, bzero n s = Ok (tt, set_s x s) /\ bs_abs x (b_write n (replicate BSIZE_nat 0) a).
Proof.
  intros A Hn Hh Hr Hm Hroom. destruct (run_bread s a n A Hn Hh (room_le 1 0 a Hroom ltac:(lia))) as (b & x & E & A1).
  destruct (run_write_tail (set_s x s) a b n (replicate (Z.to_nat BSIZE) 0) A1 Hn) as (y & E2 & A2);
    [apply length_replicate|done|done|].
  exists y. split; [|exact A2]. unfold bzero. rewrite u32_small by done. by rewrite (M_bind_Ok _ _ _ _ _ E).
Qed.

(** ** The bitmap *)

(** Is block [b] marked in use? *)
Definition used (sb : superblock) (V : Z -> list Z) (b : Z) : bool :=
  negb (bit_clear (V (BBLOCK b sb)) (b mod BPB)).

(** The bitmap blocks are blocks of the store, and a free block is one too and
    none of the bitmap. *)
Record layout (sb : superblock) (V : Z -> list Z) : Prop := {
  ly_size : 0 <= sb_size sb < 2 ^ 31;
  ly_bmap : 0 <= bmapstart sb /\ bmapstart sb + sb_size sb < 2 ^ 32;
  ly_bblk : forall b, 0 <= b < sb_size sb -> bs_blk (BBLOCK b sb);
  ly_free : forall b, 0 <= b < sb_size sb -> used sb V b = false ->
    bs_blk b /\ forall b', 0 <= b' < sb_size sb -> BBLOCK b' sb <> b
}.

Definition first_free (sb : superblock) (V : Z -> list Z) (b : Z) : Prop :=
  0 <= b < sb_size sb /\ used sb V b = false /\ forall b', 0 <= b' < b -> used sb V b' = true.

Lemma BBLOCK_spec sb V b : layout sb V -> 0 <= b < sb_size sb -> BBLOCK b sb = b / BPB + bmapstart sb.
Proof.
  intros [H1 H2 _ _] Hb. unfold BBLOCK. apply u32_small.
  assert (0 <= b / BPB <= b); [|lia]. split; [by apply Z.div_pos; [lia|]|]. apply Z.div_le_upper_bound; [done|]. unfold BPB, BSIZE. lia.
Qed.

(** Block [bi] of the [q]-th bitmap block. *)
Lemma bmap_bit b bi : b mod BPB = 0 -> 0 <= bi < BPB -> (b + bi) / BPB = b / BPB /\ (b + bi) mod BPB = bi.
Proof.
  intros Hb Hi. apply Z.mod_divide in Hb as [q ->]; [|done]. rewrite (Z.add_comm (q * BPB)).
  rewrite Z.div_add, Z.mod_add, Z.div_mul by done. rewrite Z.div_small, Z.mod_small by done. lia.
Qed.

(** Everything [balloc] needs of the buffers held. *)
Record alloc_ready s a : Prop := {
  ar_abs : bs_abs (f_s s) a;
  ar_lay : layout (f_sb s) (b_view a);
  ar_mod : b_mod a = [];
  ar_bmap : forall b, 0 <= b < sb_size (f_sb s) -> BBLOCK b (f_sb s) ∉ (b_held a).*2;
  ar_held : forall b, 0 <= b < sb_size (f_sb s) -> used (f_sb s) (b_view a) b = false -> b ∉ (b_held a).*2;
  ar_room : room 2 a
}.

(** The state after [balloc] returned [b]. *)
Definition b_alloc (sb : superblock) (b : Z) (a : ablk) : ablk :=
  b_write b (replicate BSIZE_nat 0)
    (b_write (BBLOCK b sb) (set_bit (b_view a (BBLOCK b sb)) (b mod BPB)) a).

Lemma balloc_scan_spec k s a bp b bi :
  let sb := f_sb s in
  forall x, alloc_ready s a -> bs_abs x (b_hold bp (BBLOCK b sb) a) -> 0 <= b < sb_size sb -> b mod BPB = 0 ->
  0 <= bi -> bi + Z.of_nat k = BPB -> (forall b', 0 <= b' < b + bi -> used sb (b_view a) b' = true) ->
  (exists r y, first_free sb (b_view a) r /\ balloc_scan k bp b bi (set_s x s) = Ok (Some r, set_s y s) /\
     bs_abs y (b_alloc sb r a)) \/
  ((forall b', 0 <= b' < Z.min (b + BPB) (sb_size sb) -> used sb (b_view a) b' = true) /\
   balloc_scan k bp b bi (set_s x s) = Ok (None, set_s x s)).
Proof.
  intros sb x R A Hb Hal. revert bi. induction k as [|k IH]; intros bi Hbi Hk Hu.
  { right. split; [|done]. intros b' Hb'. apply Hu. lia. }
  destruct R as [R1 R2 R3 R4 R5 R6]. fold sb in R2, R4, R5. cbn [balloc_scan]. mgo. cbn [set_s f_sb]. fold sb.
  destruct (Z.ltb_spec (b + bi) (sb_size sb)) as [Hlt|Hge]; cbn [negb].
  2:{ right. split; [|done]. intros b' Hb'. apply Hu. lia. }
  rewrite (M_bind_Ok _ _ _ _ _ (run_get (set_s x s) _ bp (BBLOCK b sb) A ltac:(left))).
  change (b_view (b_hold bp (BBLOCK b sb) a)) with (b_view a).
  destruct (bmap_bit b bi Hal ltac:(lia)) as [Ed Em].
  assert (BBLOCK (b + bi) sb = BBLOCK b sb) as Eb by (rewrite !(BBLOCK_spec sb (b_view a)) by (done || lia); by rewrite Ed).
  assert (used sb (b_view a) (b + bi) = negb (bit_clear (b_view a (BBLOCK b sb)) bi)) as Eu by (unfold used; by rewrite Eb, Em).
  destruct (bit_clear (b_view a (BBLOCK b sb)) bi) eqn:Ebit; cbn [negb] in Eu.
  2:{ apply IH; [lia|lia|]. intros b' Hb'. destruct (Z.eq_dec b' (b + bi)) as [->|]; [done|]. apply Hu. lia. }
  left. destruct (ly_free _ _ R2 (b + bi) ltac:(lia) Eu) as [Hfb Hfn].
  destruct (run_write (set_s x s) a bp (BBLOCK b sb) (set_bit (b_view a (BBLOCK b sb)) bi) A) as (y & E1 & A1).
  { by apply (ly_bblk _ _ R2). } { rewrite length_set_bit. eapply bs_sized; [exact R1|]. by apply (ly_bblk _ _ R2). }
  { rewrite R3. apply not_elem_of_nil. } { by eapply room_le; [exact R6|lia]. }
  destruct (bzero_spec (set_s y s) _ (b + bi) A1 Hfb) as (z & E2 & A2).
  { by apply R5; [lia|]. } { pose proof (ly_size _ _ R2). lia. } { cbn. rewrite R3. apply not_elem_of_nil. }
  { by apply room_write. }
  exists (b + bi), z. split; [|split].
  - split; [lia|]. split; [done|]. intros b' Hb'. apply Hu. lia.
  - rewrite E1. rewrite set_s_set_s. by rewrite (M_bind_Ok _ _ _ _ _ E2).
  - unfold b_alloc. rewrite Eb, Em. exact A2.
Qed.

Lemma balloc_from_spec n s a b :
  let sb := f_sb s in
  forall x, alloc_ready s a -> bs_abs x a -> 0 <= b -> b mod BPB = 0 -> sb_size sb <= b + Z.of_nat n * BPB ->
  (forall b', 0 <= b' < Z.min b (sb_size sb) -> used sb (b_view a) b' = true) ->
  (exists r y, first_free sb (b_view a) r /\ balloc_from (Datatypes.S n) b (set_s x s) = Ok (r, set_s y s) /\
     bs_abs y (b_alloc sb r a)) \/
  ((forall b', 0 <= b' < sb_size sb -> used sb (b_view a) b' = true) /\
   balloc_from (Datatypes.S n) b (set_s x s) = Panic "balloc: out of blocks").
Proof.
  intros sb x R A. revert b x A. induction n as [|n IH]; intros b x A Hb Hal Hn Hu.
  all: cbn [balloc_from]; mgo; cbn [set_s f_sb]; fold sb; destruct (Z.ltb_spec b (sb_size sb)) as [Hlt|Hge]; cbn [negb].
  1: change (Z.of_nat 0) with 0 in Hn; lia.
  1,3: right; (split; [|done]); intros b' Hb'; apply Hu; lia.
  pose proof R as [R1 R2 R3 R4 R5 R6]. fold sb in R2, R4, R5.
  destruct (run_bread (set_s x s) a (BBLOCK b sb) A) as (bp & y & E1 & A1);
    [by apply (ly_bblk _ _ R2)|by apply R4|by eapply room_le; [exact R6|lia]|].
  rewrite (M_bind_Ok _ _ _ _ _ E1), set_s_set_s.
  destruct (balloc_scan_spec (Z.to_nat BPB) s a bp b 0 y R A1) as [(r & z & F1 & E2 & A2)|[F1 E2]];
    [done|done|lia|apply Z2Nat.id; unfold BPB, BSIZE; lia|intros b' Hb'; apply Hu; lia|..].
  - left. exists r, z. split; [done|]. by rewrite (M_bind_Ok _ _ _ _ _ E2).
  - rewrite (M_bind_Ok _ _ _ _ _ E2).
    destruct (run_brelse (set_s y s) _ bp (BBLOCK b sb) (b_held a) A1 eq_refl) as (w & E3 & A3).
    { cbn. rewrite R3. apply not_elem_of_nil. }
    rewrite (M_bind_Ok _ _ _ _ _ E3), set_s_set_s.
    assert (bs_abs w a) as A4 by (by destruct a).
    destruct (IH (b + BPB) w A4) as [(r & z & F2 & E4 & A5)|[F2 E4]].
    + unfold BPB, BSIZE. lia.
    + rewrite <- Zplus_mod_idemp_r, Z_mod_same_full, Z.add_0_r. done.
    + rewrite Nat2Z.inj_succ in Hn. lia.
    + exact F1.
    + left. by exists r, z.
    + by right.
Qed.

(** [balloc]: the first free block, marked and zeroed; or a panic when there
    is none. *)
Lemma balloc_spec s a :
  alloc_ready s a ->
  (exists r x, first_free (f_sb s) (b_view a) r /\ balloc s = Ok (r, set_s x s) /\ bs_abs x (b_alloc (f_sb s) r a)) \/
  ((forall b', 0 <= b' < sb_size (f_sb s) -> used (f_sb s) (b_view a) b' = true) /\
   balloc s = Panic "balloc: out of blocks").
Proof.
  intros R. pose proof (ly_size _ _ (ar_lay _ _ R)).
  pose proof (Z.div_pos (sb_size (f_sb s)) BPB ltac:(lia) ltac:(done)).
  pose proof (balloc_from_spec (Z.to_nat (sb_size (f_sb s) / BPB + 1)) s a 0 (f_s s) R (ar_abs _ _ R)) as HS.
  rewrite set_s_id in HS. unfold balloc. mgo. apply HS; [done|done| |intros; lia].
  rewrite Z2Nat.id by lia. pose proof (Z.mul_succ_div_gt (sb_size (f_sb s)) BPB ltac:(done)). lia.
Qed.

(** [bfree] of a block in use clears its bit; of a free block, it panics. *)
Lemma bfree_spec s a b :
  bs_abs (f_s s) a -> layout (f_sb s) (b_view a) -> b_mod a = [] -> room 1 a ->
  0 <= b < sb_size (f_sb s) -> BBLOCK b (f_sb s) ∉ (b_held a).*2 ->
  if used (f_sb s) (b_view a) b then
    exists x, bfree b s = Ok (tt, set_s x s) /\
      bs_abs x (b_write (BBLOCK b (f_sb s)) (clear_bit (b_view a (BBLOCK b (f_sb s))) (b mod BPB)) a)
  else bfree b s = Panic "freeing free block".
Proof.
  intros A L Hm Hr Hb Hh. pose proof (ly_bblk _ _ L b Hb) as Hk. unfold bfree. mgo.
  destruct (run_bread s a _ A Hk Hh (room_le 1 0 a Hr ltac:(lia))) as (bp & x & E & A1).
  rewrite (M_bind_Ok _ _ _ _ _ E).
  rewrite (M_bind_Ok _ _ _ _ _ (run_get (set_s x s) _ bp _ A1 ltac:(left))).
  change (b_view (b_hold _ _ a)) with (b_view a). unfold used. cbv zeta.
  destruct (bit_clear _ _); cbn [negb]; [done|].
  destruct (run_write_tail (set_s x s) a bp _ (clear_bit (b_view a (BBLOCK b (f_sb s))) (b mod BPB)) A1 Hk) as (y & E2 & A2).
  { rewrite length_clear_bit. by eapply bs_sized. } { rewrite Hm. apply not_elem_of_nil. } { done. }
  by exists y.
Qed.

(** How the bitmap changes with one bit. *)
Lemma used_write sb V b v b' :
  layout sb V -> 0 <= b < sb_size sb -> 0 <= b' < sb_size sb ->
  used sb (fset V (BBLOCK b sb) v) b' =
    if decide (b' / BPB = b / BPB) then negb (bit_clear v (b' mod BPB)) else used sb V b'.
Proof.
  intros L Hb Hb'. unfold used, fset. case_decide as E.
  - rewrite !(BBLOCK_spec sb V) by done. by rewrite E, Z.eqb_refl.
  - destruct (Z.eqb_spec (BBLOCK b' sb) (BBLOCK b sb)) as [E'|]; [|done].
    rewrite !(BBLOCK_spec sb V) in E' by done. lia.
Qed.

Lemma same_bit b b' : 0 <= b -> 0 <= b' -> b' / BPB = b / BPB -> b' mod BPB = b mod BPB -> b' = b.
Proof. intros. rewrite (Z.div_mod b' BPB), (Z.div_mod b BPB) by done. congruence. Qed.

(** The bitmap after [balloc]. *)
Lemma used_alloc s a b b' :
  alloc_ready s a -> first_free (f_sb s) (b_view a) b -> 0 <= b' < sb_size (f_sb s) ->
  used (f_sb s) (b_view (b_alloc (f_sb s) b a)) b' = if decide (b' = b) then true else used (f_sb s) (b_view a) b'.
Proof.
  intros R (Hb & Hu & _) Hb'. pose proof (ar_lay _ _ R) as L. destruct (ly_free _ _ L b Hb Hu) as [_ Hn].
  unfold b_alloc, b_write. cbn [b_view].
  assert (used (f_sb s) (fset (fset (b_view a) (BBLOCK b (f_sb s)) (set_bit (b_view a (BBLOCK b (f_sb s))) (b mod BPB))) b
    (replicate BSIZE_nat 0)) b' = used (f_sb s) (fset (b_view a) (BBLOCK b (f_sb s)) (set_bit (b_view a (BBLOCK b (f_sb s))) (b mod BPB))) b') as ->.
  { unfold used. rewrite fset_ne; [done|]. by apply Hn. }
  rewrite (used_write _ (b_view a)) by done. pose proof (Z.mod_pos_bound b' BPB ltac:(done)).
  case_decide as E; [|rewrite decide_False; [done|by intros ->]].
  rewrite set_bit_spec; [|by apply Z.mod_pos_bound|lia|eapply bs_sized; [apply R|by apply (ly_bblk _ _ L)]].
  destruct (decide (b' = b)) as [->|Hne]; [by rewrite decide_True|].
  rewrite decide_False by (intros E'; apply Hne; by apply same_bit; [lia|lia|..]).
  unfold used. rewrite !(BBLOCK_spec _ (b_view a)) by done. by rewrite E.
Qed.

(** The layout after [balloc]. *)
Lemma layout_alloc s a b :
  alloc_ready s a -> first_free (f_sb s) (b_view a) b -> layout (f_sb s) (b_view (b_alloc (f_sb s) b a)).
Proof.
  intros R Hf. pose proof (ar_lay _ _ R) as L. split; try apply L. intros b' Hb' Hu.
  rewrite (used_alloc s a b b' R Hf Hb') in Hu. case_decide; [done|]. by apply (ly_free _ _ L).
Qed.

(** C22: The block allocator keeps exactly the free blocks available.  [balloc]
    returns the first block the bitmap marks free, marks it and fills it with
    zeros, and changes no other block or bit; with every block in use it
    panics.  [bfree] of that block makes it free again, so that the bitmap is
    what it was, and a second [bfree] panics. *)
Theorem block_allocator_correct s a (R : alloc_ready s a) (Hroom : room 4 a) :
  (exists b x y, balloc s = Ok (b, set_s x s) /\ bfree b (set_s x s) = Ok (tt, set_s y s) /\
     bfree b (set_s y s) = Panic "freeing free block" /\
     first_free (f_sb s) (b_view a) b /\
     exists V V', bs_abs x (mkb V (b_held a) (log_add b (log_add (BBLOCK b (f_sb s)) (b_log a))) [] (b_disk a) (b_tr a)) /\
       V b = replicate BSIZE_nat 0 /\ (forall n, n <> b -> n <> BBLOCK b (f_sb s) -> V n = b_view a n) /\
       (forall b', 0 <= b' < sb_size (f_sb s) ->
          used (f_sb s) V b' = (if decide (b' = b) then true else used (f_sb s) (b_view a) b') /\
          used (f_sb s) V' b' = used (f_sb s) (b_view a) b') /\
       (exists l, bs_abs y (mkb V' (b_held a) l [] (b_disk a) (b_tr a)))) \/
  ((forall b, 0 <= b < sb_size (f_sb s) -> used (f_sb s) (b_view a) b = true) /\
   balloc s = Panic "balloc: out of blocks").
Proof.
  destruct (balloc_spec s a R) as [(b & x & Hf & E & A)|H]; [left|by right].
  pose proof (layout_alloc s a b R Hf) as L1. pose proof Hf as (Hb & Hu & _).
  set (a1 := b_alloc (f_sb s) b a) in *.
  assert (forall b', 0 <= b' < sb_size (f_sb s) ->
    used (f_sb s) (b_view a1) b' = if decide (b' = b) then true else used (f_sb s) (b_view a) b') as U1
    by (intros; by apply used_alloc).
  assert (room 2 a1) as R1 by (by do 2 apply room_write).
  assert (b_mod a1 = []) as M1 by apply R.
  pose proof (bfree_spec (set_s x s) a1 b A L1 M1 (room_le 2 1 a1 R1 ltac:(lia)) Hb (ar_bmap _ _ R b Hb)) as F1.
  cbn [set_s f_sb] in F1. rewrite U1, decide_True in F1 by done. destruct F1 as (y & E2 & A2).
  set (a2 := b_write _ _ a1) in *.
  assert (forall b', 0 <= b' < sb_size (f_sb s) -> used (f_sb s) (b_view a2) b' = used (f_sb s) (b_view a) b') as U2.
  { intros b' Hb'. unfold a2, b_write. cbn [b_view]. rewrite (used_write _ (b_view a1)) by done.
    rewrite clear_bit_spec; [|by apply Z.mod_pos_bound|by apply Z.mod_pos_bound|eapply bs_sized; [exact A|by apply (ly_bblk _ _ L1)]].
    destruct (decide (b' = b)) as [->|Hne].
    - rewrite !decide_True by done. by rewrite Hu.
    - case_decide as Eq; [|rewrite U1 by done; by rewrite decide_False].
      rewrite decide_False by (intros E'; apply Hne; by apply same_bit; [lia|lia|..]).
      transitivity (used (f_sb s) (b_view a1) b'); [|rewrite U1 by done; by rewrite decide_False].
      unfold used. rewrite !(BBLOCK_spec _ (b_view a1)) by done. by rewrite Eq. }
  exists b, x, y. split; [done|]. split; [by rewrite E2, set_s_set_s|]. split; [|split; [done|]].
  - assert (layout (f_sb s) (b_view a2)) as L2.
    { split; try apply L1. intros b' Hb' Hu'. rewrite U2 in Hu' by done. by apply (ly_free _ _ (ar_lay _ _ R)). }
    pose proof (bfree_spec (set_s y s) a2 b A2 L2 M1) as F2. cbn [set_s f_sb] in F2. rewrite U2, Hu in F2 by done.
    apply F2; [by apply room_write|done|by apply (ar_bmap _ _ R)].
  - exists (b_view a1), (b_view a2). split_and!.
    + unfold a1, b_alloc, b_write in A. cbn [b_view b_held b_log b_mod b_disk b_tr] in A. by rewrite (ar_mod _ _ R) in A.
    + apply fset_eq.
    + intros n H1 H2. unfold a1, b_alloc, b_write. cbn [b_view]. by rewrite !fset_ne.
    + by auto.
    + exists (b_log a2). destruct a2 as [v h l m d t] eqn:Ea2. injection Ea2 as Ev Eh El Em Ed Et.
      cbn. rewrite <- Em, (ar_mod _ _ R) in A2. subst h d t. exact A2.
Qed.

End run.
