(* ===== verification/FsFile.v ===== *)
(** * File contents: [bmap]

    A file is the bytes its block map leads to.  [bmap] extends the map and
    changes no byte of the file, and nothing of any other file. *)

From S2P Require Import Prelude Cache Sleeplock Mem Kalloc Bytes Store Fs FsAlloc.

(** [ip->addrs[bn]], 0 outside the array. *)
Definition addr_at (addrs : list Z) (bn : Z) : Z := default 0 (zidx addrs bn).

(** The block that holds the [bn]-th block of the file, 0 for none. *)
Definition baddr (V : Z -> list Z) (addrs : list Z) (bn : Z) : Z :=
  if bn <? NDIRECT then addr_at addrs bn
  else if addr_at addrs NDIRECT =? 0 then 0
  else get32 (V (addr_at addrs NDIRECT)) (4 * Z.to_nat (bn - NDIRECT)).

(** The byte at offset [off]; a block that is not there reads as zeros. *)
Definition file_byte (V : Z -> list Z) (addrs : list Z) (off : Z) : Z :=
  let b := baddr V addrs (off / BSIZE) in
  if b =? 0 then 0 else byte_at (V b) (Z.to_nat (off mod BSIZE)).

(** The blocks of the file. *)
Definition owns (V : Z -> list Z) (addrs : list Z) (n : Z) : Prop :=
  n <> 0 /\ (n = addr_at addrs NDIRECT \/ exists bn, 0 <= bn < MAXFILE /\ baddr V addrs bn = n).

(** ** Counting blocks *)

Definition count (f : Z -> bool) (l : list Z) : Z := Z.of_nat (length (List.filter f l)).

Lemma count_cons f x l : count f (x :: l) = (if f x then 1 else 0) + count f l.
Proof. unfold count. cbn. destruct (f x); cbn; lia. Qed.

Lemma count_nonneg f l : 0 <= count f l.
Proof. unfold count. lia. Qed.

Lemma count_le f g l : (forall x, x ∈ l -> f x = true -> g x = true) -> count f l <= count g l.
Proof.
  induction l as [|y l IH]; intros H; [done|]. rewrite !count_cons. specialize (IH (fun x Hx => H x (list_elem_of_further x y l Hx))).
  specialize (H y (list_elem_of_here y l)). destruct (f y), (g y); lia || discriminate (H eq_refl).
Qed.

Lemma count_lt f g l x :
  (forall y, y ∈ l -> f y = true -> g y = true) -> x ∈ l -> f x = false -> g x = true -> count f l + 1 <= count g l.
Proof.
  intros H Hx Hf Hg. induction l as [|y l IH]; [by apply not_elem_of_nil in Hx|]. rewrite !count_cons.
  apply elem_of_cons in Hx as [->|Hx].
  - rewrite Hf, Hg. pose proof (count_le f g l (fun x Hx => H x (list_elem_of_further x y l Hx))). lia.
  - specialize (IH (fun x Hx => H x (list_elem_of_further x y l Hx)) Hx). specialize (H y (list_elem_of_here y l)).
    destruct (f y), (g y); lia || discriminate (H eq_refl).
Qed.

Lemma count_flip f g l x : NoDup l -> (forall y, y ∈ l -> y <> x -> g y = f y) -> count g l <= count f l + 1.
Proof.
  induction 1 as [|y l Hy _ IH]; intros H; [done|]. rewrite !count_cons. destruct (Z.eq_dec y x) as [->|Hne].
  - assert (count g l <= count f l); [|destruct (f x), (g x); lia]. apply count_le. intros z Hz. rewrite H; [done|by right|].
    by intros ->.
  - rewrite (H y (list_elem_of_here y l) Hne). specialize (IH (fun z Hz => H z (list_elem_of_further z y l Hz))). lia.
Qed.

Lemma count_none f l : (forall x, x ∈ l -> f x = false) -> count f l = 0.
Proof.
  induction l as [|y l IH]; intros H; [done|]. rewrite count_cons, (H y) by left. rewrite IH; [done|]. intros z Hz. apply H. by right.
Qed.

(** Free blocks of the disk. *)
Definition nfree (sb : superblock) (V : Z -> list Z) : Z := count (fun b => negb (used sb V b)) (seqZ 0 (sb_size sb)).

(** How many blocks a file lacks to have all the blocks [l]: those of [l], and
    the indirect block if one of [l] is reached through it. *)
Definition lacks (V : Z -> list Z) (addrs : list Z) (l : list Z) : Z :=
  count (fun bn => baddr V addrs bn =? 0) l +
  (if (addr_at addrs NDIRECT =? 0) && existsb (fun bn => NDIRECT <=? bn) l then 1 else 0).

(** The disk has fewer free blocks than the file lacks. *)
Definition disk_short (sb : superblock) (V : Z -> list Z) (addrs : list Z) (l : list Z) : Prop := nfree sb V < lacks V addrs l.

(** Free blocks went to the file, for blocks of [l] only. *)
Definition spends (sb : superblock) (V : Z -> list Z) (addrs : list Z) (V' : Z -> list Z) (addrs' : list Z) (l : list Z) : Prop :=
  nfree sb V - lacks V addrs l <= nfree sb V' - lacks V' addrs' l.

Lemma spends_trans sb V addrs V1 addrs1 V2 addrs2 l :
  spends sb V addrs V1 addrs1 l -> spends sb V1 addrs1 V2 addrs2 l -> spends sb V addrs V2 addrs2 l.
Proof. unfold spends. lia. Qed.

Lemma spends_short sb V addrs V' addrs' l : spends sb V addrs V' addrs' l -> disk_short sb V' addrs' l -> disk_short sb V addrs l.
Proof. unfold spends, disk_short. lia. Qed.

Lemma nfree_none sb V : (forall b, 0 <= b < sb_size sb -> used sb V b = true) -> nfree sb V = 0.
Proof. intros H. apply count_none. intros x Hx%elem_of_seqZ. rewrite H by lia. done. Qed.

Lemma nfree_same sb V V' : (forall b, 0 <= b < sb_size sb -> used sb V' b = used sb V b) -> nfree sb V' = nfree sb V.
Proof.
  intros H. apply Z.le_antisymm; apply count_le; intros x Hx%elem_of_seqZ; rewrite H by lia; done.
Qed.

Lemma nfree_one sb V V' b :
  (forall b', 0 <= b' < sb_size sb -> b' <> b -> used sb V' b' = used sb V b') -> nfree sb V <= nfree sb V' + 1.
Proof.
  intros H. apply (count_flip _ _ _ b); [apply NoDup_seqZ|]. intros y Hy%elem_of_seqZ Hne. rewrite H; [done|lia|done].
Qed.

(** The block map only grew. *)
Definition map_grows (V : Z -> list Z) (addrs : list Z) (V' : Z -> list Z) (addrs' : list Z) : Prop :=
  (forall bn, 0 <= bn < MAXFILE -> baddr V addrs bn <> 0 -> baddr V' addrs' bn <> 0) /\
  (addr_at addrs NDIRECT <> 0 -> addr_at addrs' NDIRECT <> 0).

Definition in_file (l : list Z) : Prop := forall bn, bn ∈ l -> 0 <= bn < MAXFILE.

Section grows.
Context (V : Z -> list Z) (addrs : list Z) (V' : Z -> list Z) (addrs' : list Z) (l : list Z).
Context (G : map_grows V addrs V' addrs') (Hl : in_file l).

Lemma missing_mono bn : bn ∈ l -> (baddr V' addrs' bn =? 0) = true -> (baddr V addrs bn =? 0) = true.
Proof.
  intros Hb E%Z.eqb_eq. apply Z.eqb_eq. destruct (Z.eq_dec (baddr V addrs bn) 0) as [|Hn]; [done|].
  by destruct (proj1 G bn (Hl bn Hb) Hn).
Qed.

Lemma ind_mono (b : bool) :
  (if (addr_at addrs' NDIRECT =? 0) && b then 1 else 0) <= (if (addr_at addrs NDIRECT =? 0) && b then 1 else 0).
Proof.
  destruct (Z.eqb_spec (addr_at addrs' NDIRECT) 0) as [E|E], (Z.eqb_spec (addr_at addrs NDIRECT) 0) as [E'|E']; destruct b; cbn; try lia.
  by destruct (proj2 G E').
Qed.

Lemma lacks_le : lacks V' addrs' l <= lacks V addrs l.
Proof. unfold lacks. pose proof (ind_mono (existsb (fun bn => NDIRECT <=? bn) l)). pose proof (count_le _ _ l missing_mono). lia. Qed.

Lemma lacks_block bn : bn ∈ l -> baddr V addrs bn = 0 -> baddr V' addrs' bn <> 0 -> lacks V' addrs' l + 1 <= lacks V addrs l.
Proof.
  intros Hb E E'. unfold lacks. pose proof (ind_mono (existsb (fun bn => NDIRECT <=? bn) l)).
  pose proof (count_lt _ _ l bn missing_mono Hb (proj2 (Z.eqb_neq _ _) E') (proj2 (Z.eqb_eq _ _) E)). lia.
Qed.

Lemma lacks_ind bn :
  bn ∈ l -> NDIRECT <= bn -> addr_at addrs NDIRECT = 0 -> addr_at addrs' NDIRECT <> 0 -> lacks V' addrs' l + 1 <= lacks V addrs l.
Proof.
  intros Hb Hn E E'. unfold lacks. pose proof (count_le _ _ l missing_mono).
  assert (existsb (fun bn => NDIRECT <=? bn) l = true) as ->.
  { apply existsb_exists. exists bn. split; [by apply list_elem_of_In|by apply Z.leb_le]. }
  rewrite E. apply Z.eqb_neq in E'. rewrite E'. cbn. lia.
Qed.
End grows.

Lemma lacks_pos V addrs l bn : bn ∈ l -> baddr V addrs bn = 0 -> 1 <= lacks V addrs l.
Proof.
  intros Hb E. unfold lacks. pose proof (count_lt (fun _ => false) (fun bn => baddr V addrs bn =? 0) l bn ltac:(done) Hb eq_refl (proj2 (Z.eqb_eq _ _) E)).
  pose proof (count_nonneg (fun _ => false) l). destruct (_ && _); lia.
Qed.

Lemma lacks_pos_ind V addrs l bn : bn ∈ l -> NDIRECT <= bn -> addr_at addrs NDIRECT = 0 -> 1 <= lacks V addrs l.
Proof.
  intros Hb Hn E. unfold lacks. assert (existsb (fun bn => NDIRECT <=? bn) l = true) as ->.
  { apply existsb_exists. exists bn. split; [by apply list_elem_of_In|by apply Z.leb_le]. }
  rewrite E. pose proof (count_nonneg (fun bn => baddr V addrs bn =? 0) l). cbn [Z.eqb andb]. lia.
Qed.

Lemma lacks_same V addrs V' l : (forall bn, baddr V' addrs bn = baddr V addrs bn) -> lacks V' addrs l = lacks V addrs l.
Proof.
  intros H. unfold lacks. f_equal. apply Z.le_antisymm; apply count_le; intros bn _; by rewrite H.
Qed.

Section file.
Context {S : Type} `{!BlockStore S}.
Implicit Types (V : Z -> list Z) (sb : superblock).

(** A block that may hold data: in use, and not of the bitmap. *)
Definition data_block sb V (n : Z) : Prop :=
  0 < n < sb_size sb /\ bs_blk n /\ used sb V n = true /\ forall b, 0 <= b < sb_size sb -> BBLOCK b sb <> n.

Record file_ok sb V (addrs : list Z) : Prop := {
  fo_len : length addrs = 13%nat;
  fo_data : forall n, owns V addrs n -> data_block sb V n;
  fo_inj : forall bn bn', 0 <= bn < MAXFILE -> 0 <= bn' < MAXFILE ->
    baddr V addrs bn = baddr V addrs bn' -> baddr V addrs bn <> 0 -> bn = bn';
  fo_ind : forall bn, 0 <= bn < MAXFILE -> baddr V addrs bn <> 0 -> baddr V addrs bn <> addr_at addrs NDIRECT
}.

(** [V'], [addrs'] extend the block map of [V], [addrs]; the file is [f] now. *)
Record extends sb V (addrs : list Z) V' (addrs' : list Z) (f : Z -> Z) : Prop := {
  ex_lay : layout sb V';
  ex_ok : file_ok sb V' addrs';
  ex_map : forall bn, 0 <= bn < MAXFILE -> baddr V addrs bn <> 0 -> baddr V' addrs' bn = baddr V addrs bn;
  ex_byte : forall off, 0 <= off < MAXFILE * BSIZE -> file_byte V' addrs' off = f off;
  ex_used : forall b, 0 <= b < sb_size sb -> used sb V b = true -> used sb V' b = true;
  ex_own : forall n, owns V' addrs' n -> owns V addrs n \/ (0 <= n < sb_size sb /\ used sb V n = false);
  ex_keep : forall n, owns V addrs n -> owns V' addrs' n;
  ex_frame : forall n, 0 <= n < sb_size sb -> used sb V n = true ->
    (forall b, 0 <= b < sb_size sb -> BBLOCK b sb <> n) -> ~ owns V addrs n -> V' n = V n
}.

Lemma extends_refl sb V addrs : layout sb V -> file_ok sb V addrs -> extends sb V addrs V addrs (file_byte V addrs).
Proof. intros L H. split; try done. intros n Hn. by left. Qed.

Lemma extends_trans sb V addrs V1 addrs1 f V2 addrs2 g :
  extends sb V addrs V1 addrs1 f -> extends sb V1 addrs1 V2 addrs2 g -> extends sb V addrs V2 addrs2 g.
Proof.
  intros [A1 B1 C1 D1 E1 F1 K1 G1] [A2 B2 C2 D2 E2 F2 K2 G2]. split; try done.
  - intros bn Hbn H. rewrite C2; [by apply C1|done|by rewrite C1].
  - intros b Hb H. apply E2; auto.
  - intros n [H|[Hr H]]%F2; [by apply F1|]. right. split; [done|].
    destruct (used sb V n) eqn:U; [|done]. by rewrite E1 in H.
  - intros n H. by apply K2, K1.
  - intros n Hn Hu Hb Ho. rewrite G2, G1; try done; [by apply E1|]. intros [H|[_ H]]%F1; [done|]. congruence.
Qed.

(** ** Allocating a block *)

(** The contents after [balloc] returned [b]. *)
Definition V_alloc sb b V : Z -> list Z :=
  fset (fset V (BBLOCK b sb) (set_bit (V (BBLOCK b sb)) (b mod BPB))) b (replicate BSIZE_nat 0).

(** What [V_alloc] does, in the form the block map needs. *)
Record allocated sb V b V' : Prop := {
  al_range : 0 < b < sb_size sb;
  al_free : used sb V b = false;
  al_blk : bs_blk b;
  al_bmap : forall b', 0 <= b' < sb_size sb -> BBLOCK b' sb <> b;
  al_lay : layout sb V';
  al_used : forall b', 0 <= b' < sb_size sb -> used sb V' b' = if decide (b' = b) then true else used sb V b';
  al_zero : V' b = replicate BSIZE_nat 0;
  al_same : forall n, n <> b -> (forall b', 0 <= b' < sb_size sb -> BBLOCK b' sb <> n) -> V' n = V n
}.

Lemma alloc_allocated (s : fstate S) a b :
  alloc_ready s a -> first_free (f_sb s) (b_view a) b -> used (f_sb s) (b_view a) 0 = true ->
  allocated (f_sb s) (b_view a) b (b_view (b_alloc (f_sb s) b a)).
Proof.
  intros R Hf H0. pose proof Hf as (Hb & Hu & _). destruct (ly_free _ _ (ar_lay _ _ R) b Hb Hu) as [H1 H2].
  split; try done.
  - destruct (Z.eq_dec b 0) as [->|]; [congruence|lia].
  - by apply layout_alloc.
  - intros b' Hb'. by apply used_alloc.
  - apply fset_eq.
  - intros n Hn Hbm. unfold b_alloc, b_write. cbn [b_view]. rewrite fset_ne by done. apply fset_ne.
    by apply not_eq_sym, Hbm.
Qed.

Lemma allocated_ne sb V b V' addrs n : allocated sb V b V' -> file_ok sb V addrs -> owns V addrs n -> n <> b /\ V' n = V n.
Proof.
  intros A H Ho. destruct (fo_data _ _ _ H n Ho) as (Hr & _ & Hu & Hb).
  assert (n <> b) as Hne by (intros ->; rewrite (al_free _ _ _ _ A) in Hu; done).
  split; [done|]. by apply (al_same _ _ _ _ A).
Qed.

Lemma get32_zero off : get32 (replicate BSIZE_nat 0) off = 0.
Proof.
  assert (forall k, byte_at (replicate BSIZE_nat 0) k = 0) as H.
  { intros k. unfold byte_at. destruct (replicate BSIZE_nat 0 !! k) eqn:E; [|done].
    apply lookup_replicate in E as [-> _]. done. }
  unfold get32, get16. by rewrite !H.
Qed.

Lemma byte_zero off : byte_at (replicate BSIZE_nat 0) off = 0.
Proof.
  unfold byte_at. destruct (replicate BSIZE_nat 0 !! off) eqn:E; [|done]. by apply lookup_replicate in E as [-> _].
Qed.

Lemma addr_at_insert addrs i j v :
  0 <= i < Z.of_nat (length addrs) -> addr_at (<[Z.to_nat i := v]> addrs) j = if decide (j = i) then v else addr_at addrs j.
Proof.
  intros Hi. unfold addr_at. case_decide as E; [subst; by rewrite zidx_insert_eq|]. by rewrite zidx_insert_ne by lia.
Qed.

(** The file with the block map [baddr'], which differs from [baddr] at the
    block [bn0] that was missing and is [b] now. *)
Lemma data_block_alloc sb V b V' n : allocated sb V b V' -> data_block sb V n -> data_block sb V' n.
Proof.
  intros A (H1 & H2 & H3 & H4). split; [done|]. split; [done|]. split; [|done].
  rewrite (al_used _ _ _ _ A) by lia. by case_decide.
Qed.

Lemma data_block_new sb V b V' : allocated sb V b V' -> data_block sb V' b.
Proof.
  intros A. split; [apply A|]. split; [apply A|]. split; [|apply A].
  rewrite (al_used _ _ _ _ A), decide_True by (done || pose proof (al_range _ _ _ _ A); lia). done.
Qed.

Lemma block_of off : 0 <= off < MAXFILE * BSIZE -> 0 <= off / BSIZE < MAXFILE.
Proof. intros H. split; [by apply Z.div_pos; [lia|]|]. apply Z.div_lt_upper_bound; [done|lia]. Qed.

(** The block [b] was allocated and the block map extended by it: a missing
    block, or the missing indirect block, is [b] now. *)
Lemma extends_intro sb V addrs b V1 V' addrs' :
  file_ok sb V addrs -> allocated sb V b V1 ->
  layout sb V' -> (forall b', 0 <= b' < sb_size sb -> used sb V' b' = used sb V1 b') -> length addrs' = 13%nat ->
  (forall bn, 0 <= bn < MAXFILE -> baddr V' addrs' bn = baddr V addrs bn \/
     (baddr V addrs bn = 0 /\ baddr V' addrs' bn = b)) ->
  (forall bn bn', 0 <= bn < MAXFILE -> 0 <= bn' < MAXFILE ->
     baddr V' addrs' bn = b -> baddr V' addrs' bn' = b -> bn = bn') ->
  (addr_at addrs' NDIRECT = addr_at addrs NDIRECT \/
   (addr_at addrs NDIRECT = 0 /\ addr_at addrs' NDIRECT = b /\
    forall bn, 0 <= bn < MAXFILE -> baddr V' addrs' bn <> b)) ->
  V' b = replicate BSIZE_nat 0 ->
  (forall n, n <> b -> (forall b', 0 <= b' < sb_size sb -> BBLOCK b' sb <> n) ->
     n = 0 \/ n <> addr_at addrs NDIRECT -> V' n = V n) ->
  extends sb V addrs V' addrs' (file_byte V addrs).
Proof.
  intros H A L U Hl Hm Hinj Hi Hz Hs. pose proof (al_range _ _ _ _ A) as Hb.
  assert (forall n, data_block sb V n -> data_block sb V' n) as HD.
  { intros n Hn. destruct (data_block_alloc _ _ _ _ _ A Hn) as (D1 & D2 & D3 & D4).
    split; [done|]. split; [done|]. split; [by rewrite U by lia|done]. }
  assert (data_block sb V' b) as HDb.
  { destruct (data_block_new _ _ _ _ A) as (D1 & D2 & D3 & D4). split; [done|]. split; [done|]. split; [by rewrite U by lia|done]. }
  assert (forall n, owns V' addrs' n -> owns V addrs n \/ n = b) as HO.
  { intros n [Hn [->|(bn & Hbn & <-)]].
    - destruct Hi as [E|(_ & -> & _)]; [|by right]. rewrite E in *. left. split; [done|by left].
    - destruct (Hm bn Hbn) as [E|[_ ->]]; [|by right]. rewrite E in *. left. split; [done|]. right. by exists bn. }
  assert (forall bn, 0 <= bn < MAXFILE -> baddr V addrs bn <> 0 -> owns V addrs (baddr V addrs bn)) as Hown.
  { intros bn Hbn Hn. split; [done|]. right. by exists bn. }
  split; try done.
  - split; [done| | |].
    + intros n [Hn| ->]%HO; [|done]. apply HD. by apply (fo_data _ _ _ H).
    + intros bn bn' Hbn Hbn' E Hn. destruct (Hm bn Hbn) as [E1|[E0 E1]], (Hm bn' Hbn') as [E2|[E0' E2]].
      * rewrite E1, E2 in E. rewrite E1 in Hn. by apply (fo_inj _ _ _ H).
      * rewrite E1 in Hn, E. destruct (allocated_ne _ _ _ _ addrs _ A H (Hown bn Hbn Hn)). congruence.
      * rewrite E2, E1 in E. assert (baddr V addrs bn' <> 0) as Hn' by lia.
        destruct (allocated_ne _ _ _ _ addrs _ A H (Hown bn' Hbn' Hn')). congruence.
      * by apply Hinj.
    + intros bn Hbn Hn E. destruct Hi as [Ei|(Ei & Ei' & Hi)].
      * rewrite Ei in E. destruct (Hm bn Hbn) as [E1|[E0 E1]].
        -- rewrite E1 in *. by apply (fo_ind _ _ _ H bn).
        -- rewrite E1 in E. assert (owns V addrs b) as Ho by (split; [lia|by left]).
           by destruct (allocated_ne _ _ _ _ addrs _ A H Ho).
      * rewrite Ei' in E. by apply (Hi bn).
  - intros bn Hbn Hn. by destruct (Hm bn Hbn) as [E|[E _]].
  - intros off Ho. unfold file_byte. pose proof (block_of off Ho) as Hbn.
    destruct (Hm _ Hbn) as [E|[E E']].
    + rewrite E. destruct (Z.eqb_spec (baddr V addrs (off / BSIZE)) 0) as [|Hn]; [done|].
      destruct (allocated_ne _ _ _ _ addrs _ A H (Hown _ Hbn Hn)) as [Hne _].
      rewrite Hs; [done|done| |]; [apply (fo_data _ _ _ H _ (Hown _ Hbn Hn))|right; by apply (fo_ind _ _ _ H)].
    + rewrite E, E', Z.eqb_refl, Hz, byte_zero. by destruct (b =? 0).
  - intros b' Hb' Hu. rewrite U, (al_used _ _ _ _ A) by done. by case_decide.
  - intros n [Hn| ->]%HO; [by left|right]. split; [lia|apply A].
  - intros n [Hn [->|(bn & Hbn & <-)]].
    + destruct Hi as [E|(E & _)]; [|congruence]. rewrite <- E in *. split; [done|by left].
    + split; [done|]. right. exists bn. split; [done|]. by destruct (Hm bn Hbn) as [E|[E _]].
  - intros n Hn Hu Hbm Ho. apply Hs; [|done|].
    + intros ->. rewrite (al_free _ _ _ _ A) in Hu. done.
    + destruct (Z.eq_dec n 0); [by left|right]. intros ->. apply Ho. split; [done|by left].
Qed.

Lemma owns_baddr V addrs bn : 0 <= bn < MAXFILE -> baddr V addrs bn <> 0 -> owns V addrs (baddr V addrs bn).
Proof. intros Hbn Hn. split; [done|]. right. by exists bn. Qed.

Lemma owns_ind V addrs : addr_at addrs NDIRECT <> 0 -> owns V addrs (addr_at addrs NDIRECT).
Proof. intros Hn. split; [done|by left]. Qed.

(** No block of the file is the block just allocated. *)
Lemma baddr_not_new sb V addrs b V1 bn :
  file_ok sb V addrs -> allocated sb V b V1 -> 0 <= bn < MAXFILE -> baddr V addrs bn <> b.
Proof.
  intros H A Hbn E. pose proof (al_range _ _ _ _ A).
  destruct (allocated_ne _ _ _ _ addrs _ A H (owns_baddr V addrs bn Hbn ltac:(lia))). done.
Qed.

(** A missing direct block. *)
Lemma extends_direct sb V addrs b V' bn :
  file_ok sb V addrs -> allocated sb V b V' -> 0 <= bn < NDIRECT -> addr_at addrs bn = 0 ->
  extends sb V addrs V' (<[Z.to_nat bn := b]> addrs) (file_byte V addrs) /\ baddr V' (<[Z.to_nat bn := b]> addrs) bn = b.
Proof.
  intros H A Hbn E0. pose proof (fo_len _ _ _ H) as Hl. pose proof (al_range _ _ _ _ A) as Hb.
  assert (0 <= bn < Z.of_nat (length addrs)) as Hi by (unfold NDIRECT in *; lia).
  assert (forall k, 0 <= k < MAXFILE -> baddr V' (<[Z.to_nat bn := b]> addrs) k = if decide (k = bn) then b else baddr V addrs k) as Hm.
  { intros k Hk. unfold baddr. rewrite !addr_at_insert by done. destruct (Z.ltb_spec k NDIRECT); [by case_decide|].
    rewrite (decide_False (P := k = bn)), (decide_False (P := NDIRECT = bn)) by lia.
    destruct (Z.eqb_spec (addr_at addrs NDIRECT) 0) as [|Hn]; [done|].
    by destruct (allocated_ne _ _ _ _ addrs _ A H (owns_ind V addrs Hn)) as [_ ->]. }
  split; [|rewrite Hm by (change MAXFILE with 268; unfold NDIRECT in *; lia); by rewrite decide_True].
  apply extends_intro with b V'; try done.
  - apply A.
  - by rewrite length_insert.
  - intros k Hk. rewrite Hm by done. case_decide as E; [|by left]. subst k. right. split; [|done].
    unfold baddr. destruct (Z.ltb_spec bn NDIRECT); [done|lia].
  - assert (forall k, 0 <= k < MAXFILE -> baddr V' (<[Z.to_nat bn := b]> addrs) k = b -> k = bn) as Hk; [|intros k k' ? ? ? ?; rewrite (Hk k), (Hk k'); done].
    intros k Hk. rewrite Hm by done. case_decide; [done|]. intros E. by destruct (baddr_not_new sb V addrs b V' k H A Hk).
  - left. rewrite addr_at_insert by done. by rewrite decide_False by lia.
  - apply A.
  - intros n Hn Hbm _. by apply A.
Qed.

(** The missing indirect block. *)
Lemma extends_indirect sb V addrs b V' :
  file_ok sb V addrs -> allocated sb V b V' -> addr_at addrs NDIRECT = 0 ->
  extends sb V addrs V' (<[Z.to_nat NDIRECT := b]> addrs) (file_byte V addrs).
Proof.
  intros H A E0. pose proof (fo_len _ _ _ H) as Hl. pose proof (al_range _ _ _ _ A) as Hb.
  assert (0 <= NDIRECT < Z.of_nat (length addrs)) as Hi by (unfold NDIRECT; lia).
  assert (forall k, 0 <= k < MAXFILE -> baddr V' (<[Z.to_nat NDIRECT := b]> addrs) k = baddr V addrs k) as Hm.
  { intros k Hk. unfold baddr. rewrite !addr_at_insert by done. destruct (Z.ltb_spec k NDIRECT).
    - by rewrite decide_False by lia.
    - rewrite decide_True by done. rewrite (al_zero _ _ _ _ A), get32_zero, E0. by destruct (b =? 0). }
  apply extends_intro with b V'; try done.
  - apply A.
  - by rewrite length_insert.
  - intros k Hk. rewrite Hm by done. by left.
  - intros k k' Hk _. rewrite Hm by done. intros E. by destruct (baddr_not_new sb V addrs b V' k H A Hk).
  - right. split; [done|]. split; [rewrite addr_at_insert by done; by rewrite decide_True|].
    intros k Hk. rewrite Hm by done. by apply (baddr_not_new sb V addrs b V').
  - apply A.
  - intros n Hn Hbm _. by apply A.
Qed.

(** A missing entry of the indirect block. *)
Lemma extends_entry sb V addrs b V1 bn :
  let ind := addr_at addrs NDIRECT in let V' := fset V1 ind (put32 (V1 ind) (4 * Z.to_nat (bn - NDIRECT)) b) in
  file_ok sb V addrs -> allocated sb V b V1 -> (forall n, bs_blk n -> length (V n) = BSIZE_nat) ->
  NDIRECT <= bn < MAXFILE -> ind <> 0 -> baddr V addrs bn = 0 ->
  extends sb V addrs V' addrs (file_byte V addrs) /\ baddr V' addrs bn = b.
Proof.
  intros ind V' H A Hsz Hbn Hn E0. pose proof (al_range _ _ _ _ A) as Hb.
  destruct (fo_data _ _ _ H ind (owns_ind V addrs Hn)) as (Di1 & Di2 & Di3 & Di4).
  destruct (allocated_ne _ _ _ _ addrs _ A H (owns_ind V addrs Hn)) as [Hne Ev]. fold ind in Hne, Ev.
  pose proof (al_lay _ _ _ _ A) as L. pose proof (ly_size _ _ L).
  assert (forall b', 0 <= b' < sb_size sb -> used sb V' b' = used sb V1 b') as HU.
  { intros b' Hb'. unfold used, V'. by rewrite fset_ne by (by apply Di4). }
  assert (forall k, 0 <= k < MAXFILE -> baddr V' addrs k = if decide (k = bn) then b else baddr V addrs k) as Hm.
  { intros k Hk. unfold baddr. fold ind. destruct (Z.ltb_spec k NDIRECT); [by rewrite decide_False by lia|].
    destruct (Z.eqb_spec ind 0); [done|]. unfold V'. rewrite fset_eq, Ev.
    assert (MAXFILE = NDIRECT + 256) as EM by done. case_decide as E.
    - subst k. rewrite get32_put32_eq; [apply u32_small; lia|]. rewrite (Hsz ind Di2). unfold BSIZE_nat. lia.
    - by rewrite get32_put32_ne by lia. }
  split; [|rewrite Hm by (unfold NDIRECT in *; lia); by rewrite decide_True].
  apply extends_intro with b V1; try done.
  - split; try apply L. intros b' Hb' Hu. rewrite HU in Hu by done. by apply (ly_free _ _ L).
  - apply H.
  - intros k Hk. rewrite Hm by done. case_decide as E; [subst; by right|by left].
  - assert (forall k, 0 <= k < MAXFILE -> baddr V' addrs k = b -> k = bn) as Hk; [|intros k k' ? ? ? ?; rewrite (Hk k), (Hk k'); done].
    intros k Hk. rewrite Hm by done. case_decide; [done|]. intros E. by destruct (baddr_not_new sb V addrs b V1 k H A Hk).
  - by left.
  - unfold V'. rewrite fset_ne by congruence. apply A.
  - intros n Hn' Hbm Hi. unfold V'. rewrite fset_ne; [by apply A|]. intros ->. by destruct Hi.
Qed.

Lemma extends_ext sb V addrs V' addrs' f g :
  extends sb V addrs V' addrs' f -> (forall off, 0 <= off < MAXFILE * BSIZE -> f off = g off) ->
  extends sb V addrs V' addrs' g.
Proof. intros [] E. split; try done. intros off Ho. rewrite <- E by done. auto. Qed.

(** Neither the map nor the bitmap is in a data block. *)
Lemma write_data sb V addrs bn v :
  let b := baddr V addrs bn in
  file_ok sb V addrs -> 0 <= bn < MAXFILE -> b <> 0 ->
  (forall k, baddr (fset V b v) addrs k = baddr V addrs k) /\
  (forall b', 0 <= b' < sb_size sb -> used sb (fset V b v) b' = used sb V b').
Proof.
  intros b H Hbn Hb. destruct (fo_data _ _ _ H b (owns_baddr V addrs bn Hbn Hb)) as (D1 & D2 & D3 & D4). split.
  - intros k. unfold baddr. fold b. destruct (k <? NDIRECT); [done|]. destruct (addr_at addrs NDIRECT =? 0); [done|].
    rewrite fset_ne; [done|]. apply not_eq_sym. by apply (fo_ind _ _ _ H).
  - intros b' Hb'. unfold used. by rewrite fset_ne by (by apply D4).
Qed.

(** The data of a block of the file is replaced. *)
Lemma extends_data sb V addrs bn v :
  let b := baddr V addrs bn in
  layout sb V -> file_ok sb V addrs -> 0 <= bn < MAXFILE -> b <> 0 ->
  extends sb V addrs (fset V b v) addrs (fun off =>
    if off / BSIZE =? bn then byte_at v (Z.to_nat (off mod BSIZE)) else file_byte V addrs off).
Proof.
  intros b L H Hbn Hb. pose proof (owns_baddr V addrs bn Hbn Hb) as Ho. fold b in Ho.
  destruct (fo_data _ _ _ H b Ho) as (D1 & D2 & D3 & D4).
  destruct (write_data sb V addrs bn v H Hbn Hb) as [Hm HU]. fold b in Hm, HU.
  assert (forall n, owns (fset V b v) addrs n <-> owns V addrs n) as HO by (intros n; unfold owns; by setoid_rewrite Hm).
  split.
  - split; try apply L. intros b' Hb' Hu. rewrite HU in Hu by done. by apply (ly_free _ _ L).
  - split; [apply H| | |].
    + intros n Hn%HO. destruct (fo_data _ _ _ H n Hn) as (N1 & N2 & N3 & N4). split; [done|]. split; [done|].
      split; [by rewrite HU by lia|done].
    + intros k k' Hk Hk'. rewrite !Hm. by apply (fo_inj _ _ _ H).
    + intros k Hk. rewrite Hm. by apply (fo_ind _ _ _ H).
  - intros k Hk _. apply Hm.
  - intros off Hoff. unfold file_byte at 1. rewrite Hm. destruct (Z.eqb_spec (off / BSIZE) bn) as [->|Hne].
    + fold b. destruct (Z.eqb_spec b 0); [done|]. by rewrite fset_eq.
    + unfold file_byte. destruct (Z.eqb_spec (baddr V addrs (off / BSIZE)) 0) as [|Hn]; [done|].
      rewrite fset_ne; [done|]. intros E. apply Hne. by apply (fo_inj _ _ _ H); [apply block_of|..].
  - intros b' Hb' Hu. by rewrite HU.
  - intros n Hn%HO. by left.
  - intros n Hn. by apply HO.
  - intros n Hn Hu Hbm Hno. apply fset_ne. by intros ->.
Qed.

End file.
