(* ===== verification/FsMap.v ===== *)
(** * Running [bmap] *)

From S2P Require Import Prelude Cache Sleeplock Mem Kalloc Bytes Store Fs FsAlloc FsFile.

Section bmap.
Context {S : Type} `{!BlockStore S}.
Implicit Types (s : fstate S) (a : ablk).

(** The state with the inode [i] replaced. *)
Definition upd_ino (i : Z) (ip : inode) s : fstate S := set_it (<[Z.to_nat i := ip]> (f_it s)) s.

Lemma geti_Ok s i ip : zidx (f_it s) i = Some ip -> geti i s = Ok (ip, s).
Proof. apply M_rd_Ok. Qed.

Lemma updi_Ok s i ip f : zidx (f_it s) i = Some ip -> updi i f s = Ok (tt, upd_ino i (f ip) s).
Proof. apply M_alter_insert. Qed.

Lemma upd_ino_lookup s i ip ip' : zidx (f_it s) i = Some ip -> zidx (f_it (upd_ino i ip' s)) i = Some ip'.
Proof. intros H. apply zidx_insert_eq. by eapply zidx_lt. Qed.

Lemma upd_ino_twice s i ip ip' : upd_ino i ip' (upd_ino i ip s) = upd_ino i ip' s.
Proof. unfold upd_ino. destruct s. unfold set_it. cbn. by rewrite list_insert_insert_eq. Qed.

Lemma upd_ino_id s i ip : zidx (f_it s) i = Some ip -> upd_ino i ip s = s.
Proof.
  intros [_ H]%zidx_Some. unfold upd_ino. destruct s. unfold set_it. cbn in *. by rewrite list_insert_id.
Qed.

Lemma set_addrs_id ip : set_addrs (i_addrs ip) ip = ip.
Proof. by destruct ip. Qed.

Lemma get_addr_Ok s i ip bn :
  zidx (f_it s) i = Some ip -> 0 <= bn < Z.of_nat (length (i_addrs ip)) ->
  get_addr i bn s = Ok (addr_at (i_addrs ip) bn, s).
Proof.
  intros H Hbn. unfold get_addr. rewrite (M_bind_Ok _ _ _ _ _ (geti_Ok _ _ _ H)). unfold addr_at.
  destruct (zidx_is_Some (i_addrs ip) bn Hbn) as [v Hv]. rewrite Hv. unfold lift. by rewrite (rd_Ok _ _ _ Hv).
Qed.

Lemma set_addr_Ok s i ip bn v :
  zidx (f_it s) i = Some ip -> 0 <= bn < Z.of_nat (length (i_addrs ip)) ->
  set_addr i bn v s = Ok (tt, upd_ino i (set_addrs (<[Z.to_nat bn := v]> (i_addrs ip)) ip) s).
Proof.
  intros H Hbn. unfold set_addr. rewrite (M_bind_Ok _ _ _ _ _ (geti_Ok _ _ _ H)).
  erewrite M_bind_lift; [|by apply wr_Ok]. by rewrite (updi_Ok _ _ _ _ H).
Qed.

(** A locked inode with its file: no buffer held, everything logged. *)
Record open_file s a (i : Z) (ip : inode) : Prop := {
  of_abs : bs_abs (f_s s) a;
  of_ip : zidx (f_it s) i = Some ip;
  of_lay : layout (f_sb s) (b_view a);
  of_boot : used (f_sb s) (b_view a) 0 = true;
  of_ok : file_ok (f_sb s) (b_view a) (i_addrs ip);
  of_mod : b_mod a = [];
  of_held : b_held a = []
}.

(** [balloc] with at most the indirect block of the file held. *)
Lemma balloc_run s a V addrs :
  bs_abs (f_s s) a -> b_view a = V -> layout (f_sb s) V -> used (f_sb s) V 0 = true -> file_ok (f_sb s) V addrs ->
  b_mod a = [] -> room 2 a -> (forall n, n ∈ (b_held a).*2 -> owns V addrs n) ->
  (exists b x, balloc s = Ok (b, set_s x s) /\ bs_abs x (b_alloc (f_sb s) b a) /\
     allocated (f_sb s) V b (b_view (b_alloc (f_sb s) b a))) \/
  (balloc s = Panic "balloc: out of blocks" /\ nfree (f_sb s) V = 0).
Proof.
  intros A Ev L H0 O Hm Hr Hh.
  assert (alloc_ready s a) as R.
  { split; rewrite ?Ev; try done.
    - intros b Hb Hin. destruct (fo_data _ _ _ O _ (Hh _ Hin)) as (_ & _ & _ & H). by apply (H b).
    - intros b Hb Hu Hin. destruct (fo_data _ _ _ O _ (Hh _ Hin)) as (_ & _ & H & _). congruence. }
  destruct (balloc_spec s a R) as [(b & x & Hf & E & A')|[Hu E]]; [left|right; split; [done|]; apply nfree_none; by rewrite <- Ev].
  exists b, x. split; [done|]. split; [done|]. rewrite <- Ev. apply alloc_allocated; [done|done|]. by rewrite Ev.
Qed.

(** What [bmap] and the operations built on it preserve. *)
Record grown s a i ip s' a' (addrs' : list Z) (f : Z -> Z) (c : nat) : Prop := {
  gr_s : s' = set_s (f_s s') (upd_ino i (set_addrs addrs' ip) s);
  gr_open : open_file s' a' i (set_addrs addrs' ip);
  gr_ext : extends (f_sb s) (b_view a) (i_addrs ip) (b_view a') addrs' f;
  gr_log : (length (b_log a') <= length (b_log a) + c)%nat;
  gr_disk : b_disk a' = b_disk a /\ b_tr a' = b_tr a
}.

Lemma b_alloc_log sb b a : (length (b_log (b_alloc sb b a)) <= length (b_log a) + 2)%nat.
Proof.
  unfold b_alloc, b_write. cbn [b_log]. pose proof (log_add_length b (log_add (BBLOCK b sb) (b_log a))).
  pose proof (log_add_length (BBLOCK b sb) (b_log a)). lia.
Qed.

Lemma grown_refl s a i ip : open_file s a i ip -> grown s a i ip s a (i_addrs ip) (file_byte (b_view a) (i_addrs ip)) 0.
Proof.
  intros O. pose proof (of_ip _ _ _ _ O) as Hi. split; try done.
  - rewrite set_addrs_id, (upd_ino_id _ _ _ Hi). by rewrite set_s_id.
  - by rewrite set_addrs_id.
  - apply extends_refl; apply O.
  - lia.
Qed.

Lemma allocated_nfree sb V b V' : allocated sb V b V' -> nfree sb V <= nfree sb V' + 1.
Proof. intros A. apply (nfree_one _ _ _ b). intros b' Hb' Hne. rewrite (al_used _ _ _ _ A) by done. by rewrite decide_False. Qed.

(** A missing block of the inode itself is allocated. *)
Lemma alloc_slot s a i ip bn :
  open_file s a i ip -> 0 <= bn <= NDIRECT -> addr_at (i_addrs ip) bn = 0 -> room 2 a ->
  (exists b s' a', (addr ← balloc; set_addr i bn addr;; mret addr) s = Ok (b, s') /\
     grown s a i ip s' a' (<[Z.to_nat bn := b]> (i_addrs ip))
       (file_byte (b_view a) (i_addrs ip)) 2 /\ 0 < b /\
     (bn < NDIRECT -> baddr (b_view a') (<[Z.to_nat bn := b]> (i_addrs ip)) bn = b) /\
     nfree (f_sb s) (b_view a) <= nfree (f_sb s) (b_view a') + 1 /\
     map_grows (b_view a) (i_addrs ip) (b_view a') (<[Z.to_nat bn := b]> (i_addrs ip))) \/
  ((forall B (k : Z -> M (fstate S) B), ((addr ← balloc; set_addr i bn addr;; mret addr) ≫= k) s = Panic "balloc: out of blocks") /\
   nfree (f_sb s) (b_view a) = 0).
Proof.
  intros O Hbn E0 Hr. pose proof (of_ip _ _ _ _ O) as Hi. pose proof (fo_len _ _ _ (of_ok _ _ _ _ O)) as Hl.
  destruct (balloc_run s a _ (i_addrs ip) (of_abs _ _ _ _ O) eq_refl (of_lay _ _ _ _ O) (of_boot _ _ _ _ O)
    (of_ok _ _ _ _ O) (of_mod _ _ _ _ O) Hr) as [(b & x & E & A & AL)|[E Hf0]].
  { intros n. rewrite (of_held _ _ _ _ O). intros Hn. by apply not_elem_of_nil in Hn. }
  2:{ right. split; [|done]. intros B k. unfold mbind, M_bind. by rewrite E. }
  left. exists b, (set_s x (upd_ino i (set_addrs (<[Z.to_nat bn := b]> (i_addrs ip)) ip) s)), (b_alloc (f_sb s) b a).
  assert (0 <= bn < Z.of_nat (length (i_addrs ip))) as Hb' by (unfold NDIRECT in Hbn; lia).
  split.
  { rewrite (M_bind_Ok _ _ _ _ _ E).
    by rewrite (M_bind_Ok _ _ _ _ _ (set_addr_Ok (set_s x s) i ip bn b Hi Hb')). }
  assert (extends (f_sb s) (b_view a) (i_addrs ip) (b_view (b_alloc (f_sb s) b a)) (<[Z.to_nat bn := b]> (i_addrs ip))
    (file_byte (b_view a) (i_addrs ip)) /\
    (bn < NDIRECT -> baddr (b_view (b_alloc (f_sb s) b a)) (<[Z.to_nat bn := b]> (i_addrs ip)) bn = b)) as [X1 X2].
  { destruct (Z.lt_ge_cases bn NDIRECT).
    - destruct (extends_direct _ _ _ b _ bn (of_ok _ _ _ _ O) AL) as [X1 X2]; [lia|done|]. done.
    - assert (bn = NDIRECT) as -> by lia. split; [|lia]. by apply extends_indirect; [apply O|..]. }
  split; [|split; [apply AL|split; [done|split; [by eapply allocated_nfree|]]]].
  2:{ split; [intros k Hk Hn; by rewrite (ex_map _ _ _ _ _ _ X1)|]. rewrite addr_at_insert by done.
      case_decide; [|done]. pose proof (al_range _ _ _ _ AL). lia. }
  split; try done.
  - split; try done.
    + by eapply zidx_insert_eq, zidx_lt.
    + exact (ex_lay _ _ _ _ _ _ X1).
    + change (used (f_sb s) (b_view (b_alloc (f_sb s) b a)) 0 = true). rewrite (al_used _ _ _ _ AL) by (pose proof (al_range _ _ _ _ AL); lia). case_decide; [done|apply O].
    + exact (ex_ok _ _ _ _ _ _ X1).
    + apply O.
    + apply O.
  - apply b_alloc_log.
Qed.

Lemma run_put s a b n v :
  bs_abs (f_s s) a -> (b, n) ∈ b_held a -> length v = BSIZE_nat ->
  exists x, on_s (bs_put b v) s = Ok (tt, set_s x s) /\ bs_abs x (b_put n v a).
Proof.
  intros A H Hv. destruct (bs_put_ok _ _ _ _ v A H Hv) as (x & E & A'). exists x. split; [by apply on_s_Ok|done].
Qed.

Lemma run_log s a b n :
  bs_abs (f_s s) a -> (b, n) ∈ b_held a -> (length (b_log a) < LOGCAP)%nat ->
  exists x, on_s (bs_log_write b) s = Ok (tt, set_s x s) /\ bs_abs x (b_logged n a).
Proof.
  intros A H Hr. destruct (bs_log_write_ok _ _ _ _ A H Hr) as (x & E & A'). exists x. split; [by apply on_s_Ok|done].
Qed.

(** The part of [bmap] after the indirect block is known. *)
Definition bmap_entry (ind k : Z) : M (fstate S) Z :=
  bp ← on_s (bs_bread ind);
  d ← on_s (bs_get bp);
  let addr := get32 d (4 * Z.to_nat k) in
  addr ← (if addr =? 0 then
            addr ← balloc;
            d ← on_s (bs_get bp);
            on_s (bs_put bp (put32 d (4 * Z.to_nat k) addr));;
            on_s (bs_log_write bp);;
            mret addr
          else mret addr);
  on_s (bs_brelse bp);;
  mret addr.

Lemma bmap_entry_spec s a i ip bn :
  let ind := addr_at (i_addrs ip) NDIRECT in
  open_file s a i ip -> NDIRECT <= bn < MAXFILE -> ind <> 0 -> room 3 a ->
  (exists s' a', bmap_entry ind (bn - NDIRECT) s = Ok (baddr (b_view a') (i_addrs ip) bn, s') /\
     grown s a i ip s' a' (i_addrs ip) (file_byte (b_view a) (i_addrs ip)) 3 /\ baddr (b_view a') (i_addrs ip) bn <> 0 /\
     nfree (f_sb s) (b_view a) <= nfree (f_sb s) (b_view a') + (if baddr (b_view a) (i_addrs ip) bn =? 0 then 1 else 0)) \/
  (bmap_entry ind (bn - NDIRECT) s = Panic "balloc: out of blocks" /\ nfree (f_sb s) (b_view a) = 0 /\
   baddr (b_view a) (i_addrs ip) bn = 0).
Proof.
  intros ind O Hbn Hn Hr. pose proof (owns_ind (b_view a) _ Hn) as Ho. fold ind in Ho.
  destruct (fo_data _ _ _ (of_ok _ _ _ _ O) ind Ho) as (Hi1 & Hi2 & Hi3 & Hi4).
  assert (baddr (b_view a) (i_addrs ip) bn = get32 (b_view a ind) (4 * Z.to_nat (bn - NDIRECT))) as Eb.
  { unfold baddr. fold ind. destruct (Z.ltb_spec bn NDIRECT); [lia|]. by destruct (Z.eqb_spec ind 0). }
  destruct (run_bread s a ind (of_abs _ _ _ _ O) Hi2) as (bp & x & E1 & A1);
    [rewrite (of_held _ _ _ _ O); apply not_elem_of_nil|by eapply room_le; [exact Hr|lia]|].
  unfold bmap_entry. rewrite (M_bind_Ok _ _ _ _ _ E1).
  rewrite (M_bind_Ok _ _ _ _ _ (run_get (set_s x s) _ bp ind A1 ltac:(left))).
  change (b_view (b_hold bp ind a)) with (b_view a). cbv zeta. rewrite <- Eb.
  destruct (Z.eqb_spec (baddr (b_view a) (i_addrs ip) bn) 0) as [E0|Hne].
  2:{ left. mgo. destruct (run_brelse (set_s x s) _ bp ind (b_held a) A1 eq_refl) as (y & E2 & A2).
      { cbn. rewrite (of_mod _ _ _ _ O). apply not_elem_of_nil. }
      exists (set_s y s), a. rewrite (M_bind_Ok _ _ _ _ _ E2). split; [done|]. split; [|split; [done|lia]].
      destruct (grown_refl s a i ip O) as [G1 G2 G3 G4 G5]. split; try done; [|destruct G2|lia].
      - by rewrite set_addrs_id, (upd_ino_id _ _ _ (of_ip _ _ _ _ O)).
      - split; try done. by destruct a. }
  mgo. destruct (balloc_run (set_s x s) (b_hold bp ind a) _ (i_addrs ip) A1 eq_refl (of_lay _ _ _ _ O)
    (of_boot _ _ _ _ O) (of_ok _ _ _ _ O) (of_mod _ _ _ _ O)) as [(b & y & E2 & A2 & AL)|[E2 Hf0]].
  { destruct Hr. split; cbn; rewrite ?(of_held _ _ _ _ O) in *; cbn in *; lia. }
  { intros n. cbn. rewrite (of_held _ _ _ _ O). by intros ->%list_elem_of_singleton. }
  2:{ right. split; [|done]. unfold mbind at 1, M_bind at 1. by rewrite E2. }
  rewrite (M_bind_Ok _ _ _ _ _ E2). set (a2 := b_alloc _ b _) in *.
  assert ((bp, ind) ∈ b_held a2) as Hh by left.
  mgo. rewrite (M_bind_Ok _ _ _ _ _ (run_get (set_s y (set_s x s)) a2 bp ind A2 Hh)).
  destruct (run_put (set_s y (set_s x s)) a2 bp ind (put32 (b_view a2 ind) (4 * Z.to_nat (bn - NDIRECT)) b) A2 Hh) as (z & E3 & A3).
  { rewrite length_put32. by eapply bs_sized. }
  mgo. rewrite (M_bind_Ok _ _ _ _ _ E3).
  assert (length (b_log a2) <= length (b_log a) + 2)%nat as Hlog by exact (b_alloc_log (f_sb s) b (b_hold bp ind a)).
  destruct (run_log (set_s z (set_s y (set_s x s))) _ bp ind A3 Hh) as (w & E4 & A4).
  { destruct Hr. cbn [b_put b_log]. lia. }
  mgo. rewrite (M_bind_Ok _ _ _ _ _ E4). mgo.
  destruct (run_brelse (set_s w (set_s z (set_s y (set_s x s)))) _ bp ind (b_held a) A4 eq_refl) as (v & E5 & A5).
  { cbn [b_logged b_put b_mod]. rewrite filter_self; [|]; change (b_mod a2) with (b_mod a); rewrite (of_mod _ _ _ _ O); apply not_elem_of_nil. }
  rewrite (M_bind_Ok _ _ _ _ _ E5). left.
  destruct (extends_entry (f_sb s) (b_view a) (i_addrs ip) b (b_view a2) bn (of_ok _ _ _ _ O) AL) as [X1 X2]; try done.
  { intros n Hb. eapply bs_sized; [apply O|done]. }
  fold ind in X1, X2. set (V' := fset _ _ _) in *.
  set (a3 := b_release (b_held a) (b_logged ind (b_put ind (put32 (b_view a2 ind) (4 * Z.to_nat (bn - NDIRECT)) b) a2))) in *.
  assert (b_view a3 = V') as Ev3 by done.
  exists (set_s v s), a3. rewrite Ev3, X2. split; [done|].
  split; [|split; [pose proof (al_range _ _ _ _ AL); lia|]].
  2:{ rewrite (nfree_same (f_sb s) (b_view a2) V'); [by eapply allocated_nfree|]. intros b' Hb'. unfold used, V'.
      by rewrite fset_ne by (by apply Hi4). }
  split; try done.
  - by rewrite set_addrs_id, (upd_ino_id _ _ _ (of_ip _ _ _ _ O)).
  - rewrite set_addrs_id. split; try done; try apply O; rewrite ?Ev3.
    + exact (ex_lay _ _ _ _ _ _ X1).
    + change (used (f_sb s) V' 0 = true). apply (ex_used _ _ _ _ _ _ X1); [lia|apply O].
    + exact (ex_ok _ _ _ _ _ _ X1).
    + cbn [a3 b_release b_logged b_put b_mod]. rewrite filter_self; change (b_mod a2) with (b_mod a); [apply O|].
      rewrite (of_mod _ _ _ _ O). apply not_elem_of_nil.
  - cbn [a3 b_release b_logged b_put b_log]. pose proof (log_add_length ind (b_log a2)). unfold log_add in *. lia.
Qed.

Lemma grown_trans s a i ip s1 a1 addrs1 f c1 s2 a2 addrs2 g c2 :
  zidx (f_it s) i = Some ip -> grown s a i ip s1 a1 addrs1 f c1 -> grown s1 a1 i (set_addrs addrs1 ip) s2 a2 addrs2 g c2 ->
  grown s a i ip s2 a2 addrs2 g (c1 + c2).
Proof.
  intros Hi [A1 B1 C1 D1 [E1 E1']] [A2 B2 C2 D2 [E2 E2']]. assert (f_sb s1 = f_sb s) as Esb by (by rewrite A1).
  split; try done.
  - rewrite A2, A1 at 1. change (set_addrs addrs2 (set_addrs addrs1 ip)) with (set_addrs addrs2 ip).
    change (upd_ino i (set_addrs addrs2 ip) (set_s (f_s s1) (upd_ino i (set_addrs addrs1 ip) s))) with
      (set_s (f_s s1) (upd_ino i (set_addrs addrs2 ip) (upd_ino i (set_addrs addrs1 ip) s))).
    by rewrite upd_ino_twice, set_s_set_s.
  - rewrite Esb in C2. by eapply extends_trans.
  - lia.
  - by rewrite E2, E1, E2', E1'.
Qed.

Lemma grown_le s a i ip s' a' addrs' f c c' :
  grown s a i ip s' a' addrs' f c -> (c <= c')%nat -> grown s a i ip s' a' addrs' f c'.
Proof. intros [] ?. split; try done. lia. Qed.

(** The indirect block is found or allocated. *)
Lemma bmap_indirect s a i ip bn :
  open_file s a i ip -> NDIRECT <= bn -> room 2 a ->
  let m := (if addr_at (i_addrs ip) NDIRECT =? 0 then
              addr ← balloc; set_addr i NDIRECT addr;; mret addr else mret (addr_at (i_addrs ip) NDIRECT)) in
  (exists ind s1 a1 addrs1, m s = Ok (ind, s1) /\ grown s a i ip s1 a1 addrs1 (file_byte (b_view a) (i_addrs ip)) 2 /\
     ind = addr_at addrs1 NDIRECT /\ ind <> 0 /\
     forall l, in_file l -> bn ∈ l -> spends (f_sb s) (b_view a) (i_addrs ip) (b_view a1) addrs1 l) \/
  ((forall B (k : Z -> M (fstate S) B), (m ≫= k) s = Panic "balloc: out of blocks") /\
   forall l, in_file l -> bn ∈ l -> disk_short (f_sb s) (b_view a) (i_addrs ip) l).
Proof.
  intros O Hbn Hr m. unfold m. pose proof (fo_len _ _ _ (of_ok _ _ _ _ O)) as Hl.
  destruct (Z.eqb_spec (addr_at (i_addrs ip) NDIRECT) 0) as [E0|Hne].
  - destruct (alloc_slot s a i ip NDIRECT O ltac:(unfold NDIRECT; lia) E0 Hr) as [(b & s' & a' & E & G & Hb & _ & Hf & Hg)|[E Hf]]; [left|right].
    + assert (addr_at (<[Z.to_nat NDIRECT := b]> (i_addrs ip)) NDIRECT = b) as Ea
        by (rewrite addr_at_insert by (unfold NDIRECT; lia); by rewrite decide_True).
      exists b, s', a', (<[Z.to_nat NDIRECT := b]> (i_addrs ip)). rewrite Ea. split; [done|]. split; [done|]. split; [done|]. split; [lia|].
      intros l Hin Hbl. unfold spends. pose proof (lacks_ind _ _ _ _ l Hg Hin bn Hbl Hbn E0 ltac:(rewrite Ea; lia)). lia.
    + split; [done|]. intros l Hin Hbl. unfold disk_short. pose proof (lacks_pos_ind (b_view a) (i_addrs ip) l bn Hbl Hbn E0). lia.
  - left. exists (addr_at (i_addrs ip) NDIRECT), s, a, (i_addrs ip). split; [done|]. split; [eapply grown_le; [by apply grown_refl|lia]|].
    split; [done|]. split; [done|]. intros l _ _. unfold spends. lia.
Qed.

(** [bmap] finds the block of the file, or adds one of zeros to the file; no
    byte of the file changes, nor anything of another file. *)
Lemma bmap_spec s a i ip bn :
  open_file s a i ip -> 0 <= bn < MAXFILE -> room 5 a ->
  (exists s' a' addrs', bmap i bn s = Ok (baddr (b_view a') addrs' bn, s') /\ grown s a i ip s' a' addrs' (file_byte (b_view a) (i_addrs ip)) 5 /\
     baddr (b_view a') addrs' bn <> 0 /\
     forall l, in_file l -> bn ∈ l -> spends (f_sb s) (b_view a) (i_addrs ip) (b_view a') addrs' l) \/
  (bmap i bn s = Panic "balloc: out of blocks" /\
   forall l, in_file l -> bn ∈ l -> disk_short (f_sb s) (b_view a) (i_addrs ip) l).
Proof.
  intros O Hbn Hr. pose proof (of_ip _ _ _ _ O) as Hi. pose proof (fo_len _ _ _ (of_ok _ _ _ _ O)) as Hl.
  unfold bmap. destruct (Z.ltb_spec bn NDIRECT).
  - rewrite (M_bind_Ok _ _ _ _ _ (get_addr_Ok s i ip bn Hi ltac:(unfold NDIRECT in *; lia))).
    assert (baddr (b_view a) (i_addrs ip) bn = addr_at (i_addrs ip) bn) as Eb0.
    { unfold baddr. by destruct (Z.ltb_spec bn NDIRECT); [|lia]. }
    destruct (Z.eqb_spec (addr_at (i_addrs ip) bn) 0) as [E0|Hne].
    + destruct (alloc_slot s a i ip bn O ltac:(lia) E0 (room_le 5 2 a Hr ltac:(lia))) as [(b & s' & a' & E & G & Hb & Eb & Hf & Hg)|[E Hf]].
      * left. exists s', a', (<[Z.to_nat bn := b]> (i_addrs ip)). rewrite Eb by done. split; [done|].
        split; [by eapply grown_le; [exact G|lia]|]. split; [lia|]. intros l Hin Hbl. unfold spends.
        pose proof (lacks_block _ _ _ _ l Hg Hin bn Hbl ltac:(congruence) ltac:(rewrite Eb by done; lia)). lia.
      * right. split.
        -- specialize (E _ mret). unfold mbind, M_bind in *.
           destruct (balloc s) as [[x s1]| | |]; try done. by destruct (set_addr i bn x s1) as [[? ?]| | |].
        -- intros l Hin Hbl. unfold disk_short. pose proof (lacks_pos (b_view a) (i_addrs ip) l bn Hbl ltac:(congruence)). lia.
    + left. exists s, a, (i_addrs ip). rewrite Eb0. split; [done|]. split; [eapply grown_le; [by apply grown_refl|lia]|].
      split; [done|]. intros l _ _. unfold spends. lia.
  - destruct (Z.ltb_spec (bn - NDIRECT) NINDIRECT); [|unfold MAXFILE in Hbn; lia].
    rewrite (M_bind_Ok _ _ _ _ _ (get_addr_Ok s i ip NDIRECT Hi ltac:(unfold NDIRECT in *; lia))).
    destruct (bmap_indirect s a i ip bn O ltac:(lia) (room_le 5 2 a Hr ltac:(lia)))
      as [(ind & s1 & a1 & addrs1 & E1 & G1 & -> & Hn & Hs1)|[HP Hf]]; [|right; split; [apply HP|exact Hf]].
    rewrite (M_bind_Ok _ _ _ _ _ E1). assert (f_sb s1 = f_sb s) as Esb by (rewrite (gr_s _ _ _ _ _ _ _ _ _ G1); done).
    destruct (bmap_entry_spec s1 a1 i (set_addrs addrs1 ip) bn (gr_open _ _ _ _ _ _ _ _ _ G1))
      as [(s2 & a2 & E2 & G2 & Hn2 & Hf2)|(E2 & Hf2 & Hb2)]; [lia|done| |left|right].
    { destruct Hr as [R1 R2], G1 as [_ O1 _ L1 _]. rewrite (of_held _ _ _ _ O) in R2. split; [lia|].
      rewrite (of_held _ _ _ _ O1). cbn in *. lia. }
    2:{ split; [exact E2|]. intros l Hin Hbl. eapply spends_short; [by apply Hs1|]. unfold disk_short. rewrite Esb in Hf2.
        pose proof (lacks_pos (b_view a1) addrs1 l bn Hbl Hb2). lia. }
    exists s2, a2, addrs1. split; [exact E2|]. split; [|split; [done|]].
    + pose proof (grown_trans _ _ _ _ _ _ _ _ _ _ _ _ _ _ Hi G1 G2) as [T1 T2 T3 T4 T5].
      split; try done. eapply extends_ext; [exact T3|]. intros off Hoff. by apply (ex_byte _ _ _ _ _ _ (gr_ext _ _ _ _ _ _ _ _ _ G1)).
    + intros l Hin Hbl. eapply spends_trans; [by apply Hs1|]. unfold spends. rewrite Esb in Hf2.
      assert (map_grows (b_view a1) addrs1 (b_view a2) addrs1) as Hg.
      { split; [|done]. intros k Hk Hk0. by rewrite (ex_map _ _ _ _ _ _ (gr_ext _ _ _ _ _ _ _ _ _ G2)). }
      destruct (Z.eqb_spec (baddr (b_view a1) (i_addrs (set_addrs addrs1 ip)) bn) 0) as [E0|E0].
      * pose proof (lacks_block _ _ _ _ l Hg Hin bn Hbl E0 Hn2). lia.
      * pose proof (lacks_le _ _ _ _ l Hg Hin). lia.
Qed.

End bmap.
