(* ===== verification/FsRw.v ===== *)
(** * Reading and writing files: [readi], [writei] *)

From S2P Require Import Prelude Cache Sleeplock Mem Kalloc Bytes Store Fs FsAlloc FsFile FsMap.

(** ** Bytes of slices *)

Lemma byte_at_splice off l d j :
  (Z.to_nat off + length l <= length d)%nat ->
  byte_at (splice off l d) j =
    if decide (Z.to_nat off <= j < Z.to_nat off + length l)%nat then byte_at l (j - Z.to_nat off) else byte_at d j.
Proof.
  intros H. unfold byte_at, splice. case_decide as Hj.
  - rewrite lookup_app_r by (rewrite length_take; lia). rewrite length_take, Nat.min_l by lia.
    by rewrite lookup_app_l by lia.
  - destruct (decide (j < Z.to_nat off)%nat).
    + rewrite lookup_app_l by (rewrite length_take; lia). by rewrite lookup_take_lt by lia.
    + rewrite lookup_app_r by (rewrite length_take; lia). rewrite length_take, Nat.min_l by lia.
      rewrite lookup_app_r by lia. rewrite lookup_drop. do 2 f_equal. lia.
Qed.

Lemma length_splice off l d : (Z.to_nat off + length l <= length d)%nat -> length (splice off l d) = length d.
Proof. intros H. unfold splice. rewrite !length_app, length_take, length_drop. lia. Qed.

Lemma byte_at_slice off n d j : (j < Z.to_nat n)%nat -> byte_at (slice off n d) j = byte_at d (Z.to_nat off + j).
Proof. intros H. unfold byte_at, slice. by rewrite lookup_take_lt, lookup_drop. Qed.

Lemma length_slice off n d : 0 <= off -> 0 <= n -> off + n <= Z.of_nat (length d) -> length (slice off n d) = Z.to_nat n.
Proof. intros. unfold slice. rewrite length_take, length_drop. lia. Qed.

Section rw.
Context {S : Type} `{!BlockStore S}.
Context (pagetable : Z) (fuel : nat).
Implicit Types (s : fstate S) (a : ablk).

(** The source of a write holds [data]: every [either_copyin] of a part of it
    succeeds and delivers that part. *)
Definition src_ok (k : km) (user_src : bool) (src : Z) (data : list Z) : Prop :=
  forall j m, 0 <= j -> 0 <= m -> j + m <= Z.of_nat (length data) ->
    either_copyin pagetable fuel user_src (u64 (src + j)) m k = Ok ((0, slice j m data), k).

(** The contents of a file with [data] written at [off]. *)
Definition patch (f : Z -> Z) (off : Z) (data : list Z) (o : Z) : Z :=
  if decide (off <= o < off + Z.of_nat (length data)) then byte_at data (Z.to_nat (o - off)) else f o.

Lemma on_k_Ok {A} (m : M km A) s r x : m (f_k s) = Ok (r, x) -> on_k m s = Ok (r, set_k x s).
Proof. intros E. unfold on_k. by erewrite zoom_Ok. Qed.

Lemma set_k_id s : set_k (f_k s) s = s.
Proof. by destruct s. Qed.

(** The first block of a range of [r] bytes at [off]. *)
Lemma first_block off r :
  0 <= off -> 0 < r -> let m := Z.min r (BSIZE - off mod BSIZE) in
  0 < m <= r /\ off mod BSIZE + m <= BSIZE /\ (off + m - 1) / BSIZE = off / BSIZE /\
  (m = r \/ ((off + m) mod BSIZE = 0 /\ off mod BSIZE + r = BSIZE + (r - m))).
Proof.
  intros Ho Hr m. pose proof (Z.mod_pos_bound off BSIZE ltac:(done)) as Hb. pose proof (Z.div_mod off BSIZE ltac:(done)) as Hd.
  split; [lia|]. split; [lia|]. split.
  - symmetry. apply (Z.div_unique_pos _ _ _ (off mod BSIZE + m - 1)); lia.
  - destruct (Z.le_gt_cases r (BSIZE - off mod BSIZE)); [left; lia|right]. split; [|lia].
    symmetry. apply (Z.mod_unique_pos _ _ (off / BSIZE + 1)); [done|]. lia.
Qed.

(** Which offsets of the block of [off] lie in the part written. *)
Lemma in_block off m o :
  0 <= off -> 0 < m -> off mod BSIZE + m <= BSIZE -> 0 <= o -> o / BSIZE = off / BSIZE ->
  (off mod BSIZE <= o mod BSIZE < off mod BSIZE + m <-> off <= o < off + m) /\ o mod BSIZE - off mod BSIZE = o - off.
Proof.
  intros Ho Hm Hb Ho' E. pose proof (Z.div_mod off BSIZE ltac:(done)). pose proof (Z.div_mod o BSIZE ltac:(done)).
  rewrite E in *. split; lia.
Qed.

(** One block of [writei]: the block is found or allocated, then [l] is
    stored in it. *)
Lemma write_block s a i ip off l :
  open_file s a i ip -> 0 <= off -> 0 < Z.of_nat (length l) -> off mod BSIZE + Z.of_nat (length l) <= BSIZE ->
  off + Z.of_nat (length l) <= MAXFILE * BSIZE -> room 6 a ->
  (exists b bp d s1 s2 s' a' addrs', bmap i (off / BSIZE) s = Ok (b, s1) /\ on_s (bs_bread b) s1 = Ok (bp, s2) /\
     f_k s2 = f_k s /\ on_s (bs_get bp) s2 = Ok (d, s2) /\
     (forall B (k : unit -> M (fstate S) B), (on_s (bs_put bp (splice (off mod BSIZE) l d)) ≫= fun _ =>
        on_s (bs_log_write bp) ≫= fun _ => on_s (bs_brelse bp) ≫= k) s2 = k tt s') /\
     grown s a i ip s' a' addrs' (patch (file_byte (b_view a) (i_addrs ip)) off l) 6 /\
     baddr (b_view a') addrs' (off / BSIZE) <> 0 /\
     forall l, in_file l -> off / BSIZE ∈ l -> spends (f_sb s) (b_view a) (i_addrs ip) (b_view a') addrs' l) \/
  (bmap i (off / BSIZE) s = Panic "balloc: out of blocks" /\
   forall l, in_file l -> off / BSIZE ∈ l -> disk_short (f_sb s) (b_view a) (i_addrs ip) l).
Proof.
  intros O Ho Hl Hb Hmax Hr. pose proof (of_ip _ _ _ _ O) as Hi.
  pose proof (Z.mod_pos_bound off BSIZE ltac:(done)) as Hmod.
  assert (0 <= off / BSIZE < MAXFILE) as Hbn by (apply block_of; lia).
  destruct (bmap_spec s a i ip (off / BSIZE) O Hbn (room_le 6 5 a Hr ltac:(lia))) as [(s1 & a1 & addrs1 & E1 & G & Hn & Hsp)|E1];
    [left|by right].
  pose proof (gr_open _ _ _ _ _ _ _ _ _ G) as O1. assert (f_sb s1 = f_sb s) as Esb by (rewrite (gr_s _ _ _ _ _ _ _ _ _ G); done).
  set (b := baddr (b_view a1) addrs1 (off / BSIZE)) in *.
  destruct (fo_data _ _ _ (of_ok _ _ _ _ O1) b (owns_baddr _ _ _ Hbn Hn)) as (D1 & D2 & D3 & D4).
  assert (room 1 a1) as Hr1.
  { destruct Hr as [R1 R2], G as [_ _ _ L1 _]. rewrite (of_held _ _ _ _ O) in R2. cbn in R2. split; [lia|].
    rewrite (of_held _ _ _ _ O1). cbn. lia. }
  destruct (run_bread s1 a1 b (of_abs _ _ _ _ O1) D2) as (bp & x & E2 & A2);
    [rewrite (of_held _ _ _ _ O1); apply not_elem_of_nil|by eapply room_le; [exact Hr1|lia]|].
  pose proof (run_get (set_s x s1) _ bp b A2 ltac:(left)) as E3. change (b_view (b_hold bp b a1)) with (b_view a1) in E3.
  assert (length (b_view a1 b) = BSIZE_nat) as Hsz by (by eapply bs_sized; [apply O1|]).
  assert (Z.to_nat (off mod BSIZE) + length l <= length (b_view a1 b))%nat as Hfit by (rewrite Hsz; unfold BSIZE_nat, BSIZE in *; lia).
  destruct (run_write (set_s x s1) a1 bp b (splice (off mod BSIZE) l (b_view a1 b)) A2 D2) as (y & E4 & A4);
    [by rewrite length_splice|rewrite (of_mod _ _ _ _ O1); apply not_elem_of_nil|done|].
  pose proof (extends_data (f_sb s) (b_view a1) addrs1 (off / BSIZE) (splice (off mod BSIZE) l (b_view a1 b))) as X.
  cbv zeta in X. fold b in X. rewrite <- Esb in X. specialize (X (of_lay _ _ _ _ O1) (of_ok _ _ _ _ O1) Hbn Hn).
  exists b, bp, (b_view a1 b), s1, (set_s x s1), (set_s y s1), (b_write b (splice (off mod BSIZE) l (b_view a1 b)) a1), addrs1.
  split; [done|]. split; [done|]. split; [rewrite (gr_s _ _ _ _ _ _ _ _ _ G); done|]. split; [done|]. split; [done|].
  split; [|split; [rewrite (ex_map _ _ _ _ _ _ X) by done; done|]].
  2:{ intros k Hk Hin. eapply spends_trans; [by apply Hsp|]. unfold spends. cbn [b_write b_view].
      destruct (write_data (f_sb s) (b_view a1) addrs1 (off / BSIZE) (splice (off mod BSIZE) l (b_view a1 b))) as [D5 D6];
        [rewrite <- Esb; apply O1|done|done|]. fold b in D5, D6. rewrite (nfree_same _ _ _ D6), (lacks_same _ _ _ k D5). lia. }
  assert (grown s1 a1 i (set_addrs addrs1 ip) (set_s y s1) (b_write b (splice (off mod BSIZE) l (b_view a1 b)) a1) addrs1
    (patch (file_byte (b_view a) (i_addrs ip)) off l) 1) as G2.
  { split.
    - change (set_addrs addrs1 (set_addrs addrs1 ip)) with (set_addrs addrs1 ip). by rewrite (upd_ino_id _ _ _ (of_ip _ _ _ _ O1)).
    - destruct O1. split; try done; [apply X| |apply X]. apply (ex_used _ _ _ _ _ _ X); [|done]. lia.
    - eapply extends_ext; [exact X|]. intros o Hoo. cbv beta. unfold patch.
      rewrite byte_at_splice by done. destruct (Z.eqb_spec (o / BSIZE) (off / BSIZE)) as [Eo|Eo].
      + destruct (in_block off (Z.of_nat (length l)) o Ho Hl Hb ltac:(lia) Eo) as [I1 I2].
        pose proof (Z.mod_pos_bound o BSIZE ltac:(done)).
        case_decide as Hd; [rewrite decide_True by (apply I1; lia); f_equal; lia|].
        rewrite decide_False by (intros H'; apply Hd; apply I1 in H'; lia).
        rewrite <- (ex_byte _ _ _ _ _ _ (gr_ext _ _ _ _ _ _ _ _ _ G)) by done. unfold file_byte. rewrite Eo. fold b.
        by destruct (Z.eqb_spec b 0).
      + rewrite decide_False; [by apply (ex_byte _ _ _ _ _ _ (gr_ext _ _ _ _ _ _ _ _ _ G))|]. intros Hin. apply Eo.
        pose proof (Z.div_mod off BSIZE ltac:(done)). symmetry. apply (Z.div_unique_pos _ _ _ (o - off + off mod BSIZE)); lia.
    - apply log_add_length.
    - done. }
  exact (grown_trans _ _ _ _ _ _ _ _ _ _ _ _ _ _ Hi G G2).
Qed.

Lemma patch_ext f g off data o : f o = g o -> patch f off data o = patch g off data o.
Proof. intros E. unfold patch. by case_decide. Qed.

(** Two patches one after the other. *)
Lemma patch_slices f off tot m data o :
  0 <= off -> 0 <= tot -> 0 <= m -> tot + m <= Z.of_nat (length data) ->
  patch (patch f off (slice tot m data)) (off + m) (drop (Z.to_nat (tot + m)) data) o =
  patch f off (drop (Z.to_nat tot) data) o.
Proof.
  intros Ho Ht Hm Hl. unfold patch. rewrite !length_drop, length_slice by lia.
  repeat case_decide; try lia; try done.
  - unfold byte_at. rewrite !lookup_drop. do 2 f_equal. lia.
  - rewrite byte_at_slice by lia. unfold byte_at. rewrite lookup_drop. f_equal; lia.
Qed.

Lemma u64_add x y : u64 (u64 x + y) = u64 (x + y).
Proof. unfold u64. by rewrite Zplus_mod_idemp_l. Qed.

(** [l] has every block of the [n] bytes at [off]. *)
Definition covers (off n : Z) (l : list Z) : Prop := forall o, off <= o < off + n -> o / BSIZE ∈ l.

(** The blocks of the [n] bytes at [off]. *)
Definition blocks_of (off n : Z) : list Z := seqZ (off / BSIZE) ((off + n - 1) / BSIZE + 1 - off / BSIZE).

Lemma blocks_of_covers off n : covers off n (blocks_of off n).
Proof.
  intros o Ho. apply elem_of_seqZ. pose proof (Z.div_le_mono off o BSIZE ltac:(done) ltac:(lia)).
  pose proof (Z.div_le_mono o (off + n - 1) BSIZE ltac:(done) ltac:(lia)). lia.
Qed.

Lemma blocks_of_in_file off n : 0 <= off -> off + n <= MAXFILE * BSIZE -> in_file (blocks_of off n).
Proof.
  intros Ho Hn bn Hb%elem_of_seqZ. pose proof (Z.div_pos off BSIZE ltac:(lia) ltac:(done)).
  pose proof (Z.div_le_mono (off + n - 1) (MAXFILE * BSIZE - 1) BSIZE ltac:(done) ltac:(lia)) as Hm.
  change ((MAXFILE * BSIZE - 1) / BSIZE) with (MAXFILE - 1) in Hm. lia.
Qed.

(** The loop of [writei] from [tot] on: the rest of [data] is written. *)
Lemma writei_from_spec k q s a i ip user_src src data off tot :
  let n := Z.of_nat (length data) in
  open_file s a i ip -> src_ok (f_k s) user_src src data -> 0 <= tot <= n -> 0 <= off ->
  off + (n - tot) <= MAXFILE * BSIZE -> (Z.to_nat (n - tot) < k)%nat -> room (6 * q) a ->
  (tot = n \/ off mod BSIZE + (n - tot) <= Z.of_nat q * BSIZE) ->
  (exists s' a' addrs', writei_from pagetable fuel k i user_src (u64 (src + tot)) off tot n s = Ok ((n, off + (n - tot)), s') /\
     grown s a i ip s' a' addrs' (patch (file_byte (b_view a) (i_addrs ip)) off (drop (Z.to_nat tot) data)) (6 * q) /\
     (forall o, off <= o < off + (n - tot) -> baddr (b_view a') addrs' (o / BSIZE) <> 0) /\
     forall l, in_file l -> covers off (n - tot) l -> spends (f_sb s) (b_view a) (i_addrs ip) (b_view a') addrs' l) \/
  (writei_from pagetable fuel k i user_src (u64 (src + tot)) off tot n s = Panic "balloc: out of blocks" /\
   forall l, in_file l -> covers off (n - tot) l -> disk_short (f_sb s) (b_view a) (i_addrs ip) l).
Proof.
  intros n. revert q s a ip off tot. induction k as [|k IH]; intros q s a ip off tot O Hsrc Ht Ho Hmax Hk Hr Hq; [lia|].
  cbn [writei_from]. destruct (Z.ltb_spec tot n) as [Hlt|Hge]; cbn [negb].
  2:{ left. assert (tot = n) as -> by lia. exists s, a, (i_addrs ip). rewrite Z.sub_diag, Z.add_0_r. split; [done|].
      split; [|split; [intros; lia|intros l _ _; unfold spends; lia]]. apply (grown_le _ _ _ _ _ _ _ _ 0); [|lia]. destruct (grown_refl s a i ip O) as [G1 G2 G3 G4 G5]. split; try done.
      eapply extends_ext; [exact G3|]. intros o _. unfold patch. rewrite length_drop. by rewrite decide_False by (unfold n; lia). }
  destruct Hq as [?|Hq]; [lia|].
  destruct (first_block off (n - tot) Ho ltac:(lia)) as (F1 & F2 & F3 & F4).
  set (m := Z.min (n - tot) (BSIZE - off mod BSIZE)) in *.
  assert (length (slice tot m data) = Z.to_nat m) as Hl by (apply length_slice; unfold n in *; lia).
  assert (Z.of_nat (length (slice tot m data)) = m) as Hl' by (rewrite Hl; lia).
  destruct q as [|q]; [pose proof (Z.mod_pos_bound off BSIZE ltac:(done)); lia|].
  destruct (write_block s a i ip off (slice tot m data) O Ho) as [W|E]; rewrite ?Hl';
    [lia|done|lia|by eapply room_le; [exact Hr|lia]| |].
  2:{ right. destruct E as [E Hf]. split; [unfold mbind at 1, M_bind at 1; by rewrite E|]. intros l Hl1 Hl2. apply Hf; [done|apply Hl2; lia]. }
  destruct W as (b & bp & d & s1 & s2 & s3 & a3 & addrs3 & E1 & E2 & Ek & E3 & E4 & G & Hn3 & Hsp).
  rewrite (M_bind_Ok _ _ _ _ _ E1), (M_bind_Ok _ _ _ _ _ E2). cbv zeta. fold m.
  pose proof (Hsrc tot m ltac:(lia) ltac:(lia) ltac:(unfold n in *; lia)) as E5. rewrite <- Ek in E5.
  rewrite (M_bind_Ok _ _ _ _ _ (on_k_Ok _ s2 _ _ E5)), set_k_id. cbv beta iota.
  rewrite (M_bind_Ok _ _ _ _ _ E3). cbn [Z.eqb]. rewrite E4.
  rewrite u64_add, <- Z.add_assoc. rewrite (u32_small (off + m)) by (change (MAXFILE * BSIZE) with 274432 in Hmax; lia).
  pose proof (gr_open _ _ _ _ _ _ _ _ _ G) as O3.
  assert (f_k s3 = f_k s) as Ek3 by (rewrite (gr_s _ _ _ _ _ _ _ _ _ G); done).
  assert (f_sb s3 = f_sb s) as Esb3 by (rewrite (gr_s _ _ _ _ _ _ _ _ _ G); done).
  assert (forall l, in_file l -> covers off (n - tot) l ->
    spends (f_sb s) (b_view a) (i_addrs ip) (b_view a3) addrs3 l /\ covers (off + m) (n - (tot + m)) l) as Hsp'.
  { intros l Hl1 Hl2. split; [apply Hsp; [done|apply Hl2; lia]|]. intros o Hoo. apply Hl2. lia. }
  destruct (IH q s3 a3 (set_addrs addrs3 ip) (off + m) (tot + m) O3) as [(s4 & a4 & addrs4 & E6 & G4 & Hn4 & Hsp4)|[E6 Hf6]].
  { by rewrite Ek3. } { lia. } { lia. } { lia. } { lia. }
  { destruct Hr as [R1 R2], G as [_ _ _ L1 _]. rewrite (of_held _ _ _ _ O) in R2. cbn in R2. split; [lia|].
    rewrite (of_held _ _ _ _ O3). cbn. lia. }
  { destruct F4 as [F4|[F4 F5]]; [left; lia|]. destruct (Z.eq_dec (tot + m) n); [by left|right].
    rewrite F4. rewrite Nat2Z.inj_succ in Hq. lia. }
  2:{ right. split; [done|]. intros l Hl1 Hl2. destruct (Hsp' l Hl1 Hl2) as [H1 H2]. eapply spends_short; [exact H1|].
      rewrite <- Esb3. by apply Hf6. }
  left. exists s4, a4, addrs4. replace (off + m + (n - (tot + m))) with (off + (n - tot)) in * by lia. split; [done|].
  pose proof (grown_trans _ _ _ _ _ _ _ _ _ _ _ _ _ _ (of_ip _ _ _ _ O) G G4) as [T1 T2 T3 T4 T5]. split; [|split].
  - split; try done; [|lia]. eapply extends_ext; [exact T3|]. intros o Hoo. cbn [i_addrs set_addrs].
    rewrite <- (patch_slices _ off tot m data) by (unfold n in *; lia).
    apply patch_ext. by apply (ex_byte _ _ _ _ _ _ (gr_ext _ _ _ _ _ _ _ _ _ G)).
  - intros o Hoo. destruct (Z.lt_ge_cases o (off + m)); [|apply Hn4; lia].
    assert (o / BSIZE = off / BSIZE) as ->.
    { apply Z.le_antisymm; [rewrite <- F3|]; apply Z.div_le_mono; unfold BSIZE; lia. }
    rewrite (ex_map _ _ _ _ _ _ (gr_ext _ _ _ _ _ _ _ _ _ G4)); [done|apply block_of; lia|done].
  - intros l Hl1 Hl2. destruct (Hsp' l Hl1 Hl2) as [H1 H2]. eapply spends_trans; [exact H1|]. rewrite <- Esb3. by apply Hsp4.
Qed.

End rw.
