(* ===== verification/FsInode.v ===== *)
(** * Inodes on disk: [iupdate], [ilock] and the format of [struct dinode] *)

From S2P Require Import Prelude Cache Sleeplock Mem Kalloc Bytes Store Fs FsAlloc FsFile FsMap FsRw.

(** ** The format *)

Lemma length_put_addrs l off d : length (put_addrs off l d) = length d.
Proof. revert off d. induction l as [|v l IH]; intros off d; cbn; [done|]. by rewrite IH, length_put32. Qed.

Lemma length_put_dinode o ip d : length (put_dinode o ip d) = length d.
Proof. unfold put_dinode. by rewrite length_put_addrs, length_put32, !length_put16. Qed.

Lemma get16_put_addrs l off d o :
  (o + 2 <= off \/ off + 4 * length l <= o)%nat -> get16 (put_addrs off l d) o = get16 d o.
Proof.
  revert off d. induction l as [|v l IH]; intros off d H; cbn in *; [done|].
  rewrite IH by lia. apply get16_put32_ne. lia.
Qed.

Lemma get32_put_addrs l off d o :
  (o + 4 <= off \/ off + 4 * length l <= o)%nat -> get32 (put_addrs off l d) o = get32 d o.
Proof.
  revert off d. induction l as [|v l IH]; intros off d H; cbn in *; [done|].
  rewrite IH by lia. apply get32_put32_ne. lia.
Qed.

Lemma get_put_addrs l off d :
  (off + 4 * length l <= length d)%nat -> get_addrs (length l) off (put_addrs off l d) = u32 <$> l.
Proof.
  revert off d. induction l as [|v l IH]; intros off d H; cbn in *; [done|].
  rewrite get32_put_addrs by lia. rewrite get32_put32_eq by lia. f_equal. apply IH. rewrite length_put32. lia.
Qed.

Lemma get_addrs_ext k off d d' :
  (forall j, (j < k)%nat -> get32 d' (off + 4 * j) = get32 d (off + 4 * j)) -> get_addrs k off d' = get_addrs k off d.
Proof.
  revert off. induction k as [|k IH]; intros off H; cbn; [done|]. f_equal.
  - specialize (H O ltac:(lia)). by rewrite Nat.mul_0_r, Nat.add_0_r in H.
  - apply IH. intros j Hj. specialize (H (Datatypes.S j) ltac:(lia)). by replace (off + 4 + 4 * j)%nat with (off + 4 * Datatypes.S j)%nat by lia.
Qed.

(** The on-disk fields are in the range of their types. *)
Record ino_range (ip : inode) : Prop := {
  ir_type : - 2 ^ 15 <= i_type ip < 2 ^ 15;
  ir_major : - 2 ^ 15 <= i_major ip < 2 ^ 15;
  ir_minor : - 2 ^ 15 <= i_minor ip < 2 ^ 15;
  ir_nlink : - 2 ^ 15 <= i_nlink ip < 2 ^ 15;
  ir_size : 0 <= i_size ip < 2 ^ 32;
  ir_addrs : Forall (fun v => 0 <= v < 2 ^ 32) (i_addrs ip);
  ir_len : length (i_addrs ip) = 13%nat
}.

Lemma s16_u16 v : - 2 ^ 15 <= v < 2 ^ 15 -> s16 (u16 v) = v.
Proof. intros H. unfold s16, u16. Z.to_euclidean_division_equations. lia. Qed.

(** [x] with the on-disk fields of [ip]. *)
Definition with_disk (ip x : inode) : inode :=
  mkino (i_dev x) (i_inum x) (i_ref x) (i_lock x) (i_valid x)
    (i_type ip) (i_major ip) (i_minor ip) (i_nlink ip) (i_size ip) (i_addrs ip).

Lemma fmap_u32 l : Forall (fun v => 0 <= v < 2 ^ 32) l -> u32 <$> l = l.
Proof. induction 1 as [|v l Hv _ IH]; cbn; [done|]. by rewrite u32_small, IH. Qed.

Lemma get_put_dinode o ip d x :
  ino_range ip -> (o + 64 <= length d)%nat -> get_dinode o (put_dinode o ip d) x = with_disk ip x.
Proof.
  intros [R1 R2 R3 R4 R5 R6 R7] H. unfold get_dinode, put_dinode, with_disk. change (Z.to_nat (NDIRECT + 1)) with 13%nat.
  f_equal.
  - rewrite get16_put_addrs, get16_put32_ne, !get16_put16_ne, get16_put16_eq by lia. by apply s16_u16.
  - rewrite get16_put_addrs, get16_put32_ne, !get16_put16_ne, get16_put16_eq by (rewrite ?length_put16; lia). by apply s16_u16.
  - rewrite get16_put_addrs, get16_put32_ne, !get16_put16_ne, get16_put16_eq by (rewrite ?length_put16; lia). by apply s16_u16.
  - rewrite get16_put_addrs, get16_put32_ne, get16_put16_eq by (rewrite ?length_put16; lia). by apply s16_u16.
  - rewrite get32_put_addrs, get32_put32_eq by (rewrite ?length_put16; lia). by apply u32_small.
  - rewrite <- R7. rewrite get_put_addrs by (rewrite length_put32, !length_put16; lia). by apply fmap_u32.
Qed.

(** Another inode of the block is not touched. *)
Lemma get_put_dinode_ne o o' ip d x :
  length (i_addrs ip) = 13%nat -> (o + 64 <= o' \/ o' + 64 <= o)%nat ->
  get_dinode o' (put_dinode o ip d) x = get_dinode o' d x.
Proof.
  intros R7 H. unfold get_dinode, put_dinode. change (Z.to_nat (NDIRECT + 1)) with 13%nat. f_equal.
  1-4: by rewrite get16_put_addrs, get16_put32_ne, !get16_put16_ne by lia.
  - by rewrite get32_put_addrs, get32_put32_ne, !get32_put16_ne by lia.
  - apply get_addrs_ext. intros j Hj. by rewrite get32_put_addrs, get32_put32_ne, !get32_put16_ne by lia.
Qed.

(** Inode numbers of the same block have disjoint entries. *)
Lemma dip_disjoint n m : n mod IPB <> m mod IPB -> (dip n + 64 <= dip m \/ dip m + 64 <= dip n)%nat.
Proof.
  intros H. unfold dip, sizeof_dinode. pose proof (Z.mod_pos_bound n IPB ltac:(done)).
  pose proof (Z.mod_pos_bound m IPB ltac:(done)). lia.
Qed.

Lemma dip_fits n : (dip n + 64 <= BSIZE_nat)%nat.
Proof.
  unfold dip, sizeof_dinode, BSIZE_nat. pose proof (Z.mod_pos_bound n IPB ltac:(done)) as H.
  change IPB with 16 in *. lia.
Qed.

(** The inode [inum] as [ilock] would load it. *)
Definition no_inode : inode := mkino 0 0 0 initsleeplock 0 0 0 0 0 0 [].
Definition dinode (sb : superblock) (V : Z -> list Z) (inum : Z) : inode :=
  get_dinode (dip inum) (V (IBLOCK inum sb)) no_inode.

(** The other inodes in the block of [inum] are the same on [V] and [V']. *)
Definition other_inodes (sb : superblock) (V V' : Z -> list Z) (inum : Z) : Prop :=
  forall k, IBLOCK k sb = IBLOCK inum sb -> k mod IPB <> inum mod IPB -> dinode sb V' k = dinode sb V k.

Lemma put_dinode_others sb V V' inum ip :
  length (i_addrs ip) = 13%nat -> V' (IBLOCK inum sb) = put_dinode (dip inum) ip (V (IBLOCK inum sb)) -> other_inodes sb V V' inum.
Proof.
  intros Hl E k Ek Hk. unfold dinode. rewrite Ek, E. apply get_put_dinode_ne; [done|]. by apply dip_disjoint, not_eq_sym.
Qed.

Section inode.
Context {S : Type} `{!BlockStore S}.
Implicit Types (s : fstate S) (a : ablk).

Lemma iupdate_spec s a i ip :
  bs_abs (f_s s) a -> zidx (f_it s) i = Some ip -> bs_blk (IBLOCK (i_inum ip) (f_sb s)) ->
  IBLOCK (i_inum ip) (f_sb s) ∉ (b_held a).*2 -> b_mod a = [] -> room 1 a ->
  exists x, iupdate i s = Ok (tt, set_s x s) /\
    bs_abs x (b_write (IBLOCK (i_inum ip) (f_sb s)) (put_dinode (dip (i_inum ip)) ip (b_view a (IBLOCK (i_inum ip) (f_sb s)))) a).
Proof.
  intros A Hi Hb Hh Hm Hr. destruct (run_bread s a _ A Hb Hh (room_le 1 0 a Hr ltac:(lia))) as (bp & x & E & A1).
  unfold iupdate. rewrite (M_bind_Ok _ _ _ _ _ (geti_Ok _ _ _ Hi)). mgo. rewrite (M_bind_Ok _ _ _ _ _ E).
  rewrite (M_bind_Ok _ _ _ _ _ (run_get (set_s x s) _ bp _ A1 ltac:(left))).
  destruct (run_write_tail (set_s x s) a bp _ (put_dinode (dip (i_inum ip)) ip (b_view a (IBLOCK (i_inum ip) (f_sb s)))) A1 Hb)
    as (y & E2 & A2); [rewrite length_put_dinode; by eapply bs_sized|rewrite Hm; apply not_elem_of_nil|done|].
  by exists y.
Qed.

(** ** A change outside the file *)

Record file_same (sb : superblock) (V : Z -> list Z) (addrs : list Z) (V' : Z -> list Z) : Prop := {
  fs_lay : layout sb V';
  fs_ok : file_ok sb V' addrs;
  fs_map : forall bn, baddr V' addrs bn = baddr V addrs bn;
  fs_byte : forall off, 0 <= off < MAXFILE * BSIZE -> file_byte V' addrs off = file_byte V addrs off;
  fs_used : forall b, 0 <= b < sb_size sb -> used sb V' b = used sb V b
}.

Lemma write_outside sb V addrs n v :
  layout sb V -> file_ok sb V addrs -> ~ owns V addrs n -> n <> 0 ->
  (forall b, 0 <= b < sb_size sb -> BBLOCK b sb <> n) -> file_same sb V addrs (fset V n v).
Proof.
  intros L H Hno Hn Hbm.
  assert (forall b', 0 <= b' < sb_size sb -> used sb (fset V n v) b' = used sb V b') as HU.
  { intros b' Hb'. unfold used. by rewrite fset_ne by (by apply Hbm). }
  assert (forall k, baddr (fset V n v) addrs k = baddr V addrs k) as Hm.
  { intros k. unfold baddr. destruct (k <? NDIRECT); [done|]. destruct (Z.eqb_spec (addr_at addrs NDIRECT) 0) as [|Hi]; [done|].
    rewrite fset_ne; [done|]. intros E. apply Hno. rewrite <- E. by apply owns_ind. }
  assert (forall m, owns (fset V n v) addrs m <-> owns V addrs m) as HO by (intros m; unfold owns; by setoid_rewrite Hm).
  split; try done.
  - split; try apply L. intros b' Hb' Hu. rewrite HU in Hu by done. by apply (ly_free _ _ L).
  - split; [apply H| | |].
    + intros m Hm'%HO. destruct (fo_data _ _ _ H m Hm') as (N1 & N2 & N3 & N4). split; [done|]. split; [done|].
      split; [by rewrite HU by lia|done].
    + intros k k' Hk Hk'. rewrite !Hm. by apply (fo_inj _ _ _ H).
    + intros k Hk. rewrite Hm. by apply (fo_ind _ _ _ H).
  - intros off Hoff. unfold file_byte. rewrite Hm. destruct (Z.eqb_spec (baddr V addrs (off / BSIZE)) 0) as [|Hb]; [done|].
    rewrite fset_ne; [done|]. intros E. apply Hno. rewrite <- E. apply owns_baddr; [by apply block_of|done].
Qed.

End inode.
