(* ===== verification/FsThms.v ===== *)
(** * Files: what [writei] and [readi] do *)

From S2P Require Import Prelude Cache Sleeplock Riscv Mem Kalloc Vm Bytes Store Fs FsAlloc FsFile FsMap FsRw FsInode.

Section thms.
Context {S : Type} `{!BlockStore S}.
Context (pagetable : Z) (fuel : nat).
Implicit Types (s : fstate S) (a : ablk).

(** An inode with its file, ready to be read and written: the block of the
    inode is none of the file's, and the file has no holes. *)
Record file_state s a (i : Z) (ip : inode) : Prop := {
  fi_open : open_file s a i ip;
  fi_iblk : data_block (f_sb s) (b_view a) (IBLOCK (i_inum ip) (f_sb s));
  fi_own : ~ owns (b_view a) (i_addrs ip) (IBLOCK (i_inum ip) (f_sb s));
  fi_size : 0 <= i_size ip <= MAXFILE * BSIZE;
  fi_dense : forall o, 0 <= o < i_size ip -> baddr (b_view a) (i_addrs ip) (o / BSIZE) <> 0
}.

(** The parts of the file system a write to the file [i] leaves alone: blocks
    in use that are not the bitmap's, not the file's and not the inode's, and
    the other inodes in the block of the inode. *)
Definition others_same s a (ip : inode) a' : Prop :=
  (forall n, 0 <= n < sb_size (f_sb s) -> used (f_sb s) (b_view a) n = true ->
    (forall b, 0 <= b < sb_size (f_sb s) -> BBLOCK b (f_sb s) <> n) -> ~ owns (b_view a) (i_addrs ip) n ->
    n <> IBLOCK (i_inum ip) (f_sb s) -> b_view a' n = b_view a n) /\
  other_inodes (f_sb s) (b_view a) (b_view a') (i_inum ip).

(** A write keeps what is in use, and the file gets only blocks that were free. *)
Definition grown (sb : superblock) (V : Z -> list Z) (addrs : list Z) (V' : Z -> list Z) (addrs' : list Z) : Prop :=
  (forall b, 0 <= b < sb_size sb -> used sb V b = true -> used sb V' b = true) /\
  forall n, owns V' addrs' n -> owns V addrs n \/ used sb V n = false.

(** The end of [writei]: the size is updated, the inode written back. *)
Lemma writei_finish s a i ip off :
  open_file s a i ip -> data_block (f_sb s) (b_view a) (IBLOCK (i_inum ip) (f_sb s)) ->
  ~ owns (b_view a) (i_addrs ip) (IBLOCK (i_inum ip) (f_sb s)) -> room 1 a -> 0 <= off ->
  let ip' := set_isize (Z.max (i_size ip) off) ip in
  exists x v, ((if i_size ip <? off then updi i (set_isize off) else mret tt);; iupdate i) s =
      Ok (tt, set_s x (upd_ino i ip' s)) /\
    open_file (set_s x (upd_ino i ip' s)) (b_write (IBLOCK (i_inum ip) (f_sb s)) v a) i ip' /\
    file_same (f_sb s) (b_view a) (i_addrs ip) (fset (b_view a) (IBLOCK (i_inum ip) (f_sb s)) v) /\
    v = put_dinode (dip (i_inum ip)) ip' (b_view a (IBLOCK (i_inum ip) (f_sb s))).
Proof.
  intros O D Hno Hr Ho ip'. pose proof (of_ip _ _ _ _ O) as Hi. destruct D as (D1 & D2 & D3 & D4).
  assert ((if i_size ip <? off then updi i (set_isize off) else mret tt) s = Ok (tt, upd_ino i ip' s)) as E1.
  { destruct (Z.ltb_spec (i_size ip) off).
    - rewrite (updi_Ok _ _ _ _ Hi). unfold ip'. by rewrite Z.max_r by lia.
    - unfold ip'. rewrite Z.max_l by lia. replace (set_isize (i_size ip) ip) with ip by (by destruct ip).
      by rewrite upd_ino_id. }
  pose proof (upd_ino_lookup s i ip ip' Hi) as Hi'.
  destruct (iupdate_spec (upd_ino i ip' s) a i ip' (of_abs _ _ _ _ O) Hi' D2) as (x & E2 & A2).
  { rewrite (of_held _ _ _ _ O). apply not_elem_of_nil. } { apply O. } { done. }
  set (v := put_dinode (dip (i_inum ip)) ip' (b_view a (IBLOCK (i_inum ip) (f_sb s)))).
  pose proof (write_outside (f_sb s) (b_view a) (i_addrs ip) _ v (of_lay _ _ _ _ O) (of_ok _ _ _ _ O) Hno ltac:(lia) D4) as F.
  exists x, v. split; [by rewrite (M_bind_Ok _ _ _ _ _ E1)|]. split; [|done].
  split; try apply O; [exact A2|exact Hi'|apply F| |apply F].
  change (used (f_sb s) (fset (b_view a) (IBLOCK (i_inum ip) (f_sb s)) v) 0 = true).
  rewrite (fs_used _ _ _ _ F) by lia. apply O.
Qed.

(** [writei] with a source that delivers [data]. *)
Lemma writei_spec q s a i ip user_src src data off :
  let n := Z.of_nat (length data) in
  file_state s a i ip -> 0 <= off <= i_size ip -> off + n <= MAXFILE * BSIZE -> 0 <= src < 2 ^ 64 ->
  src_ok pagetable fuel (f_k s) user_src src data ->
  off mod BSIZE + n <= Z.of_nat q * BSIZE -> room (6 * q + 1) a ->
  (exists s' a' ip', writei pagetable fuel i user_src src off n s = Ok (n, s') /\ file_state s' a' i ip' /\
     f_sb s' = f_sb s /\ f_k s' = f_k s /\ (exists l, ip' = set_isize (Z.max (i_size ip) (off + n)) (set_addrs l ip)) /\
     (length (b_log a') <= length (b_log a) + (6 * q + 1))%nat /\ b_disk a' = b_disk a /\ b_tr a' = b_tr a /\
     (forall o, 0 <= o < MAXFILE * BSIZE ->
        file_byte (b_view a') (i_addrs ip') o = patch (file_byte (b_view a) (i_addrs ip)) off data o) /\
     (exists d, b_view a' (IBLOCK (i_inum ip) (f_sb s)) = put_dinode (dip (i_inum ip)) ip' d) /\
     others_same s a ip a' /\ grown (f_sb s) (b_view a) (i_addrs ip) (b_view a') (i_addrs ip') /\
     forall l, in_file l -> covers off n l -> spends (f_sb s) (b_view a) (i_addrs ip) (b_view a') (i_addrs ip') l) \/
  (writei pagetable fuel i user_src src off n s = Panic "balloc: out of blocks" /\
   forall l, in_file l -> covers off n l -> disk_short (f_sb s) (b_view a) (i_addrs ip) l).
Proof.
  intros n [O D Hno Hsz Hdn] Hoff Hmax Hsrc0 Hsrc Hq Hr.
  assert (MAXFILE * BSIZE = 274432) as EM by done. pose proof (of_ip _ _ _ _ O) as Hi.
  unfold writei. rewrite (M_bind_Ok _ _ _ _ _ (geti_Ok _ _ _ Hi)). rewrite u32_small by lia.
  destruct (Z.ltb_spec (i_size ip) off); [lia|]. destruct (Z.ltb_spec (off + n) off); [lia|]. cbn [orb].
  destruct (Z.ltb_spec (MAXFILE * BSIZE) (off + n)); [lia|].
  destruct (writei_from_spec pagetable fuel (Datatypes.S (Z.to_nat n)) q s a i ip user_src src data off 0 O Hsrc)
    as [(s1 & a1 & addrs1 & E1 & G & Hn1 & Hsp)|[E1 Hsh]]; fold n; rewrite ?Z.sub_0_r; try lia.
  { by eapply room_le; [exact Hr|lia]. }
  2:{ right. fold n in E1, Hsh. rewrite Z.sub_0_r in Hsh. split; [|done]. rewrite Z.add_0_r, (u64_small src) in E1 by lia.
      unfold mbind at 1, M_bind at 1. by rewrite E1. }
  fold n in E1, Hn1, Hsp. rewrite Z.sub_0_r in E1, Hn1, Hsp. rewrite Z.add_0_r, (u64_small src) in E1 by lia. left.
  rewrite (M_bind_Ok _ _ _ _ _ E1). cbv beta iota. pose proof (gr_open _ _ _ _ _ _ _ _ _ G) as O1.
  pose proof (gr_s _ _ _ _ _ _ _ _ _ G) as Es. pose proof (gr_ext _ _ _ _ _ _ _ _ _ G) as X.
  assert (f_sb s1 = f_sb s) as Esb by (by rewrite Es).
  rewrite (M_bind_Ok _ _ _ _ _ (geti_Ok _ _ _ (of_ip _ _ _ _ O1))).
  change (i_size (set_addrs addrs1 ip)) with (i_size ip).
  destruct (writei_finish s1 a1 i (set_addrs addrs1 ip) (off + n) O1) as (x & v & E2 & O2 & F2 & Ev); rewrite ?Esb; cbn [i_inum i_addrs set_addrs].
  { destruct D as (D1 & D2 & D3 & D4). split; [done|]. split; [done|]. split; [|done]. apply (ex_used _ _ _ _ _ _ X); [lia|done]. }
  { intros [H'|[_ H']]%(ex_own _ _ _ _ _ _ X); [done|]. destruct D as (_ & _ & D3 & _). congruence. }
  { destruct Hr as [R1 R2], G as [_ _ _ L1 _]. rewrite (of_held _ _ _ _ O) in R2. cbn in R2. split; [lia|].
    rewrite (of_held _ _ _ _ O1). cbn. lia. }
  { lia. }
  rewrite Esb in *. cbn [i_inum i_addrs set_addrs i_size] in *. set (ip' := set_isize _ _) in *.
  exists (set_s x (upd_ino i ip' s1)), (b_write (IBLOCK (i_inum ip) (f_sb s)) v a1), ip'.
  rewrite <- M_bind_assoc, (M_bind_Ok _ _ _ _ _ E2). cbn [b_view b_write b_disk b_tr b_log].
  split_and!.
  - rewrite s32_small by lia. done.
  - destruct F2 as [F21 F22 F23 F24 F25]. destruct D as (D1 & D2 & D3 & D4). split; [done| | | |]; try change (f_sb (set_s x (upd_ino i ip' s1))) with (f_sb s1);
      rewrite ?Esb; cbn [i_inum i_addrs i_size ip' set_isize set_addrs].
    + split; [done|]. split; [done|]. split; [|done]. cbn [b_view b_write]. rewrite F25 by lia. apply (ex_used _ _ _ _ _ _ X); [lia|done].
    + cbn [b_view b_write]. intros Hown.
      assert (owns (b_view a1) addrs1 (IBLOCK (i_inum ip) (f_sb s))) as Ho1.
      { destruct Hown as [Hn0 [H'|(bn & Hbn & H')]]; (split; [done|]); [by left|right; exists bn; by rewrite <- F23]. }
      apply (ex_own _ _ _ _ _ _ X) in Ho1 as [H'|[_ H']]; [done|congruence].
    + lia.
    + intros o Hoo. cbn [b_view b_write]. rewrite F23. destruct (decide (off <= o < off + n)) as [Hin|Hout]; [by apply Hn1|].
      rewrite (ex_map _ _ _ _ _ _ X); [apply Hdn; lia|apply block_of; lia|apply Hdn; lia].
  - done.
  - by rewrite Es.
  - by exists addrs1.
  - pose proof (log_add_length (IBLOCK (i_inum ip) (f_sb s)) (b_log a1)). pose proof (gr_log _ _ _ _ _ _ _ _ _ G). lia.
  - apply G.
  - apply G.
  - intros o Hoo. cbn [i_addrs ip' set_isize set_addrs]. rewrite (fs_byte _ _ _ _ F2) by done. rewrite (ex_byte _ _ _ _ _ _ X) by done.
    by change (Z.to_nat 0) with 0%nat; rewrite drop_0.
  - eexists. rewrite fset_eq. exact Ev.
  - split; [intros m Hm Hu Hbm Hown Hne; cbn [b_view b_write]; rewrite fset_ne by done; by apply (ex_frame _ _ _ _ _ _ X)|].
    destruct D as (D1 & D2 & D3 & D4). apply (put_dinode_others _ _ _ _ ip'); [apply (fo_len _ _ _ (of_ok _ _ _ _ O2))|].
    cbn [b_view b_write]. rewrite fset_eq, Ev. f_equal. apply (ex_frame _ _ _ _ _ _ X); [lia|done|done|done].
  - split; [intros b Hb Hu; rewrite (fs_used _ _ _ _ F2) by done; by apply (ex_used _ _ _ _ _ _ X)|].
    intros m Hown. destruct (ex_own _ _ _ _ _ _ X m) as [H'|[_ H']]; [|by left|by right].
    destruct Hown as [Hn0 [H'|(bn & Hbn & H')]]; (split; [done|]); [by left|right; exists bn; by rewrite <- (fs_map _ _ _ _ F2)].
  - intros l Hl1 Hl2. eapply spends_trans; [by apply Hsp|]. unfold spends. cbn [i_addrs ip' set_isize set_addrs].
    rewrite (nfree_same _ _ _ (fs_used _ _ _ _ F2)), (lacks_same _ _ _ l (fs_map _ _ _ _ F2)). lia.
Qed.

(** ** Reading *)

(** [bmap] of a block that is there changes nothing. *)
Lemma bmap_found s a i ip bn :
  open_file s a i ip -> 0 <= bn < MAXFILE -> baddr (b_view a) (i_addrs ip) bn <> 0 -> room 0 a ->
  exists x, bmap i bn s = Ok (baddr (b_view a) (i_addrs ip) bn, set_s x s) /\ bs_abs x a.
Proof.
  intros O Hbn Hn Hr. pose proof (of_ip _ _ _ _ O) as Hi. pose proof (fo_len _ _ _ (of_ok _ _ _ _ O)) as Hl.
  unfold bmap, baddr in *. destruct (Z.ltb_spec bn NDIRECT).
  - rewrite (M_bind_Ok _ _ _ _ _ (get_addr_Ok s i ip bn Hi ltac:(unfold NDIRECT in *; lia))).
    destruct (Z.eqb_spec (addr_at (i_addrs ip) bn) 0); [done|]. exists (f_s s). rewrite set_s_id. split; [done|apply O].
  - destruct (Z.ltb_spec (bn - NDIRECT) NINDIRECT); [|unfold MAXFILE in Hbn; lia].
    rewrite (M_bind_Ok _ _ _ _ _ (get_addr_Ok s i ip NDIRECT Hi ltac:(unfold NDIRECT in *; lia))).
    destruct (Z.eqb_spec (addr_at (i_addrs ip) NDIRECT) 0) as [|Hind]; [done|]. mgo.
    destruct (fo_data _ _ _ (of_ok _ _ _ _ O) _ (owns_ind (b_view a) _ Hind)) as (_ & D2 & _ & _).
    destruct (run_bread s a _ (of_abs _ _ _ _ O) D2) as (bp & x & E & A);
      [rewrite (of_held _ _ _ _ O); apply not_elem_of_nil|done|].
    rewrite (M_bind_Ok _ _ _ _ _ E), (M_bind_Ok _ _ _ _ _ (run_get (set_s x s) _ bp _ A ltac:(left))).
    change (b_view (b_hold bp _ a)) with (b_view a). cbv zeta. apply Z.eqb_neq in Hn as Hn'. rewrite Hn'. mgo.
    destruct (run_brelse (set_s x s) _ bp _ (b_held a) A eq_refl) as (y & E2 & A2).
    { cbn. rewrite (of_mod _ _ _ _ O). apply not_elem_of_nil. }
    rewrite (M_bind_Ok _ _ _ _ _ E2). exists y. split; [done|]. by destruct a.
Qed.

(** The bytes of a file. *)
Definition fbytes (V : Z -> list Z) (addrs : list Z) (off n : Z) : list Z :=
  (fun j => file_byte V addrs (off + j)) <$> seqZ 0 n.

Lemma fbytes_app V addrs off m n :
  0 <= m -> 0 <= n -> fbytes V addrs off (m + n) = fbytes V addrs off m ++ fbytes V addrs (off + m) n.
Proof.
  intros Hm Hn. unfold fbytes. rewrite seqZ_app by lia. rewrite fmap_app. f_equal.
  replace (0 + m) with (m + 0) by lia. rewrite <- fmap_add_seqZ, <- list_fmap_compose.
  apply list_fmap_ext. intros _ j _. cbn. f_equal. lia.
Qed.

Lemma length_fbytes V addrs off n : length (fbytes V addrs off n) = Z.to_nat n.
Proof. unfold fbytes. by rewrite length_fmap, length_seqZ. Qed.

(** A slice of a block of the file. *)
Lemma slice_fbytes V addrs off m b :
  0 <= off -> 0 < m -> off mod BSIZE + m <= BSIZE -> b = baddr V addrs (off / BSIZE) -> b <> 0 -> length (V b) = BSIZE_nat ->
  slice (off mod BSIZE) m (V b) = fbytes V addrs off m.
Proof.
  intros Ho Hm Hb -> Hn Hl. pose proof (Z.mod_pos_bound off BSIZE ltac:(done)) as Hmod.
  apply list_eq_same_length with (Z.to_nat m); [by rewrite length_fbytes|apply length_slice; rewrite ?Hl; unfold BSIZE_nat, BSIZE in *; lia|].
  intros j x y Hj Hx Hy. unfold slice in Hx. unfold fbytes in Hy. rewrite lookup_take_lt, lookup_drop in Hx by lia.
  rewrite list_lookup_fmap, lookup_seqZ_lt in Hy by lia. injection Hy as <-.
  assert ((off + (0 + Z.of_nat j)) / BSIZE = off / BSIZE /\ (off + (0 + Z.of_nat j)) mod BSIZE = off mod BSIZE + Z.of_nat j) as [E1 E2].
  { pose proof (Z.div_mod off BSIZE ltac:(done)).
    split; [symmetry; apply (Z.div_unique_pos _ _ _ (off mod BSIZE + Z.of_nat j)); lia|].
    symmetry. apply (Z.mod_unique_pos _ _ (off / BSIZE)); lia. }
  unfold file_byte. rewrite E1, E2. destruct (Z.eqb_spec (baddr V addrs (off / BSIZE)) 0); [done|].
  unfold byte_at. replace (Z.to_nat (off mod BSIZE + Z.of_nat j)) with (Z.to_nat (off mod BSIZE) + j)%nat by lia. by rewrite Hx.
Qed.

Lemma store_bytes_app l1 l2 d m : store_bytes d (l1 ++ l2) m = store_bytes (d + Z.of_nat (length l1)) l2 (store_bytes d l1 m).
Proof.
  revert d m. induction l1 as [|v l1 IH]; intros d m; cbn [app store_bytes length]; [by rewrite Z.add_0_r|].
  rewrite IH. f_equal. lia.
Qed.

(** The memory after a read to the kernel address [dst]. *)
Definition got (dst : Z) (l : list Z) s : fstate S :=
  set_k (set_mem (store_bytes dst l (km_mem (f_k s))) (f_k s)) s.

Lemma readi_from_spec k s a i ip dst off tot n :
  open_file s a i ip -> room 1 a -> 0 <= tot <= n -> 0 <= off -> off + (n - tot) <= MAXFILE * BSIZE ->
  0 <= dst -> dst + (n - tot) < 2 ^ 64 -> (Z.to_nat (n - tot) < k)%nat ->
  (forall o, off <= o < off + (n - tot) -> baddr (b_view a) (i_addrs ip) (o / BSIZE) <> 0) ->
  exists x, readi_from pagetable fuel k i false dst off tot n s =
      Ok (n, set_s x (got dst (fbytes (b_view a) (i_addrs ip) off (n - tot)) s)) /\ bs_abs x a.
Proof.
  revert s off tot dst. induction k as [|k IH]; intros s off tot dst O Hr Ht Ho Hmax Hd Hd2 Hk Hn; [lia|].
  cbn [readi_from]. destruct (Z.ltb_spec tot n) as [Hlt|Hge]; cbn [negb].
  2:{ assert (tot = n) as -> by lia. rewrite Z.sub_diag. exists (f_s s). split; [|apply O]. by destruct s as [? ? ? [] ?]. }
  destruct (first_block off (n - tot) Ho ltac:(lia)) as (F1 & F2 & F3 & F4).
  set (m := Z.min (n - tot) (BSIZE - off mod BSIZE)) in *.
  assert (0 <= off / BSIZE < MAXFILE) as Hbn by (apply block_of; lia).
  pose proof (Hn off ltac:(lia)) as Hb. set (b := baddr (b_view a) (i_addrs ip) (off / BSIZE)) in *.
  destruct (bmap_found s a i ip (off / BSIZE) O Hbn Hb (room_le 1 0 a Hr ltac:(lia))) as (x & E1 & A1). fold b in E1.
  destruct (fo_data _ _ _ (of_ok _ _ _ _ O) b (owns_baddr _ _ _ Hbn Hb)) as (_ & D2 & _ & _).
  destruct (run_bread (set_s x s) a b A1 D2) as (bp & y & E2 & A2);
    [rewrite (of_held _ _ _ _ O); apply not_elem_of_nil|by eapply room_le; [exact Hr|lia]|].
  rewrite (M_bind_Ok _ _ _ _ _ E1), (M_bind_Ok _ _ _ _ _ E2), set_s_set_s. cbv zeta. fold m.
  rewrite (M_bind_Ok _ _ _ _ _ (run_get (set_s y s) _ bp b A2 ltac:(left))).
  change (b_view (b_hold bp b a)) with (b_view a).
  rewrite (slice_fbytes _ (i_addrs ip)) by (done || lia || (by eapply bs_sized; [apply O|])).
  set (l := fbytes _ _ off m). set (s2 := set_s y (got dst l s)).
  assert (on_k (either_copyout pagetable fuel false dst l) (set_s y s) = Ok (0, s2)) as E3 by done.
  rewrite (M_bind_Ok _ _ _ _ _ E3). cbn [Z.eqb].
  destruct (run_brelse s2 _ bp b (b_held a) A2 eq_refl) as (z & E4 & A4).
  { cbn. rewrite (of_mod _ _ _ _ O). apply not_elem_of_nil. }
  rewrite (M_bind_Ok _ _ _ _ _ E4). assert (bs_abs z a) as A5 by (by destruct a).
  rewrite (u64_small (dst + m)) by lia. rewrite (u32_small (off + m)) by (change (MAXFILE * BSIZE) with 274432 in Hmax; lia).
  destruct (IH (set_s z s2) (off + m) (tot + m) (dst + m)) as (w & E5 & A6); try done; try lia.
  { destruct O. by split. } { intros o Hoo. apply Hn. lia. }
  exists w. split; [|done]. rewrite E5. do 2 f_equal.
  replace (n - tot) with (m + (n - (tot + m))) by lia. rewrite fbytes_app by lia. unfold got. fold l.
  assert (Z.of_nat (length l) = m) as Hlm by (unfold l; rewrite length_fbytes; lia).
  rewrite store_bytes_app, Hlm. done.
Qed.

(** [readi] to a kernel address: the bytes of the file, as far as it goes. *)
Lemma readi_spec s a i ip dst off n :
  file_state s a i ip -> room 1 a -> 0 <= off <= i_size ip -> 0 <= n -> off + n < 2 ^ 32 -> 0 <= dst -> dst + n < 2 ^ 64 ->
  let len := Z.min n (i_size ip - off) in
  exists x, readi pagetable fuel i false dst off n s =
      Ok (len, set_s x (got dst (fbytes (b_view a) (i_addrs ip) off len) s)) /\ bs_abs x a.
Proof.
  intros [O D Hno Hsz Hdn] Hr Ho Hn Hw Hd Hd2 len. assert (MAXFILE * BSIZE = 274432) as EM by done.
  unfold readi. rewrite (M_bind_Ok _ _ _ _ _ (geti_Ok _ _ _ (of_ip _ _ _ _ O))). rewrite u32_small by lia.
  destruct (Z.ltb_spec (i_size ip) off); [lia|]. destruct (Z.ltb_spec (off + n) off); [lia|]. cbn [orb].
  replace (if i_size ip <? off + n then i_size ip - off else n) with len by (destruct (Z.ltb_spec (i_size ip) (off + n)); lia).
  destruct (readi_from_spec (Datatypes.S (Z.to_nat len)) s a i ip dst off 0 len O Hr) as (x & E & A); rewrite ?Z.sub_0_r; try lia.
  { intros o Hoo. apply Hdn. lia. }
  rewrite Z.sub_0_r in E. exists x. split; [|done]. rewrite (M_bind_Ok _ _ _ _ _ E). rewrite s32_small by lia. done.
Qed.

(** ** Memory *)

Lemma length_load_bytes n d m : length (load_bytes n d m) = n.
Proof. revert d. induction n as [|n IH]; intros d; cbn; [done|]. by rewrite IH. Qed.

Lemma load_bytes_lookup n d m j : (j < n)%nat -> load_bytes n d m !! j = Some (ldb m (d + Z.of_nat j)).
Proof.
  revert d j. induction n as [|n IH]; intros d j Hj; [lia|]. destruct j as [|j]; cbn [load_bytes lookup list_lookup].
  - by rewrite Z.add_0_r.
  - change (load_bytes n (d + 1) m !! j = Some (ldb m (d + Z.of_nat (Datatypes.S j)))). rewrite IH by lia. do 2 f_equal. lia.
Qed.

Lemma load_bytes_slice n d m j k :
  0 <= j -> 0 <= k -> j + k <= Z.of_nat n -> slice j k (load_bytes n d m) = load_bytes (Z.to_nat k) (d + j) m.
Proof.
  intros Hj Hk Hn. apply list_eq_same_length with (Z.to_nat k); [by rewrite length_load_bytes|apply length_slice; rewrite ?length_load_bytes; lia|].
  intros x u v Hx Hu Hv. unfold slice in Hu. rewrite lookup_take_lt, lookup_drop in Hu by lia.
  rewrite load_bytes_lookup in Hu, Hv by lia. injection Hu as <-. injection Hv as <-. f_equal. lia.
Qed.

Lemma ldb_store_bytes l d m x :
  ldb (store_bytes d l m) x = match (if d <=? x then l !! Z.to_nat (x - d) else None) with Some v => u8 v | None => ldb m x end.
Proof.
  revert d m. induction l as [|v l IH]; intros d m; cbn [store_bytes].
  - by destruct (d <=? x).
  - rewrite IH, ldb_stb. destruct (Z.lt_trichotomy x d) as [Hx|[->|Hx]].
    + destruct (Z.leb_spec (d + 1) x), (Z.leb_spec d x), (Z.eqb_spec x d); lia || done.
    + destruct (Z.leb_spec (d + 1) d); [lia|]. rewrite Z.leb_refl, Z.eqb_refl, Z.sub_diag. done.
    + destruct (Z.leb_spec (d + 1) x), (Z.leb_spec d x), (Z.eqb_spec x d); try lia.
      replace (Z.to_nat (x - d)) with (Datatypes.S (Z.to_nat (x - (d + 1)))) by lia. done.
Qed.

Lemma load_store_bytes l d m : Forall (fun v => 0 <= v < 256) l -> load_bytes (length l) d (store_bytes d l m) = l.
Proof.
  intros Hl. apply list_eq_same_length with (length l); [done|by rewrite length_load_bytes|].
  intros j x y Hj Hx Hy. rewrite load_bytes_lookup in Hx by done. injection Hx as <-. rewrite ldb_store_bytes.
  destruct (Z.leb_spec d (d + Z.of_nat j)); [|lia]. replace (Z.to_nat (d + Z.of_nat j - d)) with j by lia. rewrite Hy.
  apply u8_small. by apply (Forall_lookup_1 _ _ _ _ Hl Hy).
Qed.

Lemma src_ok_kernel k src n :
  0 <= src -> src + Z.of_nat n < 2 ^ 64 -> src_ok pagetable fuel k false src (load_bytes n src (km_mem k)).
Proof.
  intros Hs Hn j m Hj Hm Hjm. rewrite length_load_bytes in Hjm. rewrite load_bytes_slice by lia. rewrite u64_small by lia. done.
Qed.

(** ** Theorems *)

Lemma file_ino_range s a i ip :
  file_state s a i ip -> - 2 ^ 15 <= i_type ip < 2 ^ 15 -> - 2 ^ 15 <= i_major ip < 2 ^ 15 -> - 2 ^ 15 <= i_minor ip < 2 ^ 15 ->
  - 2 ^ 15 <= i_nlink ip < 2 ^ 15 -> ino_range ip.
Proof.
  intros [O _ _ Hsz _] H1 H2 H3 H4. assert (MAXFILE * BSIZE = 274432) as EM by done. pose proof (of_ok _ _ _ _ O) as K.
  pose proof (fo_len _ _ _ K) as Hl. pose proof (ly_size _ _ (of_lay _ _ _ _ O)) as Hs.
  split; try done; try lia. apply Forall_lookup. intros j v Hj. destruct (Z.eq_dec v 0) as [->|Hv]; [lia|].
  pose proof (lookup_lt_Some _ _ _ Hj) as Hjl.
  assert (addr_at (i_addrs ip) (Z.of_nat j) = v) as Ev.
  { unfold addr_at, zidx. destruct (Z.leb_spec 0 (Z.of_nat j)); [|lia]. by rewrite Nat2Z.id, Hj. }
  assert (owns (b_view a) (i_addrs ip) v) as Ho.
  { split; [done|]. destruct (Z.eq_dec (Z.of_nat j) NDIRECT) as [E|E]; [left; by rewrite <- E|right]. unfold NDIRECT in E.
    exists (Z.of_nat j). split; [change MAXFILE with 268; lia|]. unfold baddr, NDIRECT. destruct (Z.ltb_spec (Z.of_nat j) 12); [done|lia]. }
  destruct (fo_data _ _ _ K v Ho) as (Hr & _). lia.
Qed.

(** An inode just written back is its copy on disk. *)
Lemma written_back s a i ip d :
  file_state s a i ip -> ino_range ip -> b_view a (IBLOCK (i_inum ip) (f_sb s)) = put_dinode (dip (i_inum ip)) ip d ->
  get_dinode (dip (i_inum ip)) (b_view a (IBLOCK (i_inum ip) (f_sb s))) ip = ip.
Proof.
  intros F R Ed. assert (length (b_view a (IBLOCK (i_inum ip) (f_sb s))) = BSIZE_nat) as Hl.
  { eapply bs_sized; [apply (of_abs _ _ _ _ (fi_open _ _ _ _ F))|]. by destruct (fi_iblk _ _ _ _ F) as (_ & D2 & _). }
  rewrite Ed in *. rewrite length_put_dinode in Hl. rewrite get_put_dinode; [by destruct ip|done|rewrite Hl; apply dip_fits].
Qed.

(** C4: [writei] stores exactly the bytes asked for.  For a file without holes, an
    offset within it, and a source that delivers [data], [writei] returns the
    number of bytes; then the file is the old file with [data] at [off] and
    its size the maximum of the old size and the end of the write; it has no
    holes; the inode on disk, as [ilock] would load it, is the one in memory;
    no block in use by anything else changed, nor any other inode in the block
    of this one; and nothing was written to the disk itself.  Otherwise
    [balloc] panics, and then the disk has fewer free blocks than the file
    lacks to cover the bytes written (the indirect block counted). *)
Theorem writei_correct q s a i ip user_src src data off
    (F : file_state s a i ip) (R : ino_range ip) (Hoff : 0 <= off <= i_size ip)
    (Hmax : off + Z.of_nat (length data) <= MAXFILE * BSIZE) (Hsrc0 : 0 <= src < 2 ^ 64)
    (Hsrc : src_ok pagetable fuel (f_k s) user_src src data)
    (Hq : off mod BSIZE + Z.of_nat (length data) <= Z.of_nat q * BSIZE) (Hroom : room (6 * q + 1) a) :
  (exists s' a' ip', writei pagetable fuel i user_src src off (Z.of_nat (length data)) s = Ok (Z.of_nat (length data), s') /\
     file_state s' a' i ip' /\ i_size ip' = Z.max (i_size ip) (off + Z.of_nat (length data)) /\
     (forall o, 0 <= o < MAXFILE * BSIZE ->
        file_byte (b_view a') (i_addrs ip') o = patch (file_byte (b_view a) (i_addrs ip)) off data o) /\
     get_dinode (dip (i_inum ip)) (b_view a' (IBLOCK (i_inum ip) (f_sb s))) ip' = ip' /\
     others_same s a ip a' /\ b_disk a' = b_disk a /\ b_tr a' = b_tr a) \/
  (writei pagetable fuel i user_src src off (Z.of_nat (length data)) s = Panic "balloc: out of blocks" /\
   disk_short (f_sb s) (b_view a) (i_addrs ip) (blocks_of off (Z.of_nat (length data)))).
Proof.
  destruct (writei_spec q s a i ip user_src src data off F Hoff Hmax Hsrc0 Hsrc Hq Hroom)
    as [(s' & a' & ip' & E & F' & Esb & _ & (l & El) & _ & Hd & Ht & Hb & (d & Ed) & Ho & _)|[E Hsh]];
    [left|right; split; [done|]; apply Hsh; [apply blocks_of_in_file; lia|apply blocks_of_covers]].
  exists s', a', ip'. split; [done|]. split; [done|]. split; [by rewrite El|]. split; [done|]. split; [|done].
  assert (i_inum ip' = i_inum ip) as Ei by (by rewrite El). rewrite <- Ei in Ed |- *. rewrite <- Esb in Ed |- *.
  eapply written_back; [exact F'| |exact Ed]. destruct R. eapply file_ino_range; [exact F'|..]; rewrite El; done.
Qed.

(** C5: What is written to a file is what is read from it: after [writei] of [n]
    bytes from kernel memory, [readi] at the same offset returns [n] and
    leaves the same bytes at its destination; unless [balloc] panics in
    [writei], because the disk has fewer free blocks than the file lacks. *)
Theorem writei_readi q n s a i ip src dst off
    (F : file_state s a i ip) (Hoff : 0 <= off <= i_size ip) (Hmax : off + Z.of_nat n <= MAXFILE * BSIZE)
    (Hsrc : 0 <= src /\ src + Z.of_nat n < 2 ^ 64) (Hdst : 0 <= dst /\ dst + Z.of_nat n < 2 ^ 64)
    (Hm : mem_ok (km_mem (f_k s)))
    (Hq : off mod BSIZE + Z.of_nat n <= Z.of_nat q * BSIZE) (Hroom : room (6 * q + 2) a) :
  (exists s1 s2, writei pagetable fuel i false src off (Z.of_nat n) s = Ok (Z.of_nat n, s1) /\
     readi pagetable fuel i false dst off (Z.of_nat n) s1 = Ok (Z.of_nat n, s2) /\
     load_bytes n dst (km_mem (f_k s2)) = load_bytes n src (km_mem (f_k s))) \/
  (writei pagetable fuel i false src off (Z.of_nat n) s = Panic "balloc: out of blocks" /\
   disk_short (f_sb s) (b_view a) (i_addrs ip) (blocks_of off (Z.of_nat n))).
Proof.
  set (data := load_bytes n src (km_mem (f_k s))). assert (length data = n) as Hl by apply length_load_bytes.
  destruct (writei_spec q s a i ip false src data off F Hoff) as [(s1 & a1 & ip1 & E1 & F1 & Esb & Ek & (l & El) & Hlog & _ & _ & Hb & _)|[E1 Hsh]];
    rewrite ?Hl in *; try done; try lia.
  { apply src_ok_kernel; lia. } { eapply room_le; [exact Hroom|lia]. }
  2:{ right. split; [done|]. apply Hsh; [apply blocks_of_in_file; lia|apply blocks_of_covers]. }
  assert (MAXFILE * BSIZE = 274432) as EM by done.
  assert (i_size ip1 = Z.max (i_size ip) (off + Z.of_nat n)) as Hs1 by (by rewrite El).
  destruct (readi_spec s1 a1 i ip1 dst off (Z.of_nat n) F1) as (x & E2 & A2); try lia.
  { destruct Hroom as [R1 R2]. rewrite (of_held _ _ _ _ (fi_open _ _ _ _ F)) in R2. cbn in R2. split; [lia|].
    rewrite (of_held _ _ _ _ (fi_open _ _ _ _ F1)). cbn. lia. }
  rewrite Z.min_l in E2 by lia. left. eexists s1, _. split; [done|]. split; [exact E2|]. cbn.
  assert (fbytes (b_view a1) (i_addrs ip1) off (Z.of_nat n) = data) as ->.
  { apply list_eq_same_length with n; [done|rewrite length_fbytes; lia|]. intros j u v Hj Hu Hv.
    unfold fbytes in Hu. rewrite list_lookup_fmap, lookup_seqZ_lt in Hu by lia. injection Hu as <-.
    rewrite Hb by lia. unfold patch. rewrite decide_True by (rewrite Hl; lia). unfold byte_at.
    replace (Z.to_nat (off + (0 + Z.of_nat j) - off)) with j by lia. by rewrite Hv. }
  rewrite <- Hl at 1. apply load_store_bytes. apply Forall_lookup. intros j v Hj. unfold data in Hj.
  rewrite load_bytes_lookup in Hj by (apply lookup_lt_Some in Hj; by rewrite length_load_bytes in Hj). injection Hj as <-. apply Hm.
Qed.

End thms.
