(* ===== verification/FsDemo.v ===== *)
(** * The file system on the log on the cache

    A small disk, brought up through the models of kernel/bio.c and
    kernel/log.c, on which the theorems on files are evaluated. *)

From S2P Require Import Prelude Disk Bio BioThms Cache BioCache Bytes Log LogSpec LogCrash LogTx Store FsLog.
From S2P Require Import Riscv Mem Kalloc Sleeplock Fs FsAlloc FsFile FsMap FsRw FsInode FsThms.

#[export] Instance demo_store : BlockStore (lst bdisk) := log_store 2 (mret tt) 1.

(** An empty file, inode 2. *)
Definition demo_ino : inode := mkino 1 2 1 initsleeplock 1 T_FILE 0 0 1 0 (replicate 13 0).

(** 200 blocks: the log in 2..31, inodes in 32, the bitmap in 33. *)
Definition fs_disk : Z -> list Z :=
  fset (fset zero_disk 32 (put_dinode (dip 2) demo_ino (replicate 1024 0))) 33 (replicate 4 255 ++ 3 :: replicate 1019 0).
Definition fs_boot : lst bdisk := mkl (mklog 2 30 0 0 1 0 (replicate 30 0)) (bst_init fs_disk) 0.
Definition demo_sb : superblock := mksb FSMAGIC 200 166 16 30 2 32 33.

Lemma fs_disk_length m : length (fs_disk m) = 1024%nat.
Proof. unfold fs_disk, fset. destruct (m =? 33); [vm_compute; reflexivity|]. destruct (m =? 32); [by rewrite length_put_dinode|apply length_replicate]. Qed.

Lemma fs_boot_quiescent : quiescent fs_boot 2 (a_init fs_disk).
Proof.
  split; try done. split; cbn; try done.
  - change (bio_abs 1 7 1 (bst_init fs_disk) (a_init fs_disk)). apply bio_abs_init; [done|done|lia].
  - unfold in_log, blk, LOGSIZE. lia.
  - intros m _. apply fs_disk_length.
  - intros m Hm. by apply not_elem_of_nil in Hm.
  - constructor.
Qed.

Definition fs_view : Z -> list Z := a_view (a_init fs_disk).

Lemma demo_used b : 0 <= b < 200 -> used demo_sb fs_view b = (b <? 34).
Proof.
  intros Hb. assert (forallb (fun b => Bool.eqb (used demo_sb fs_view b) (b <? 34)) (seqZ 0 200) = true) as H by (vm_compute; reflexivity).
  rewrite forallb_forall in H. specialize (H b). rewrite Bool.eqb_true_iff in H. apply H, list_elem_of_In, elem_of_seqZ. lia.
Qed.

Lemma demo_bblock b : 0 <= b < 200 -> BBLOCK b demo_sb = 33.
Proof.
  intros Hb. unfold BBLOCK. replace (b / BPB) with 0 by (symmetry; apply Z.div_small; unfold BPB, BSIZE; lia). reflexivity.
Qed.

Lemma demo_layout : layout demo_sb fs_view.
Proof.
  split; cbn.
  - lia.
  - lia.
  - intros b Hb. rewrite demo_bblock by done. split; [unfold blk; lia|unfold in_log, LOGSIZE; lia].
  - intros b Hb. rewrite demo_used by done. intros H. apply Z.ltb_ge in H. split.
    + split; [unfold blk; lia|unfold in_log, LOGSIZE; lia].
    + intros b' Hb'. rewrite demo_bblock by done. lia.
Qed.

(** A transaction has begun. *)
Lemma demo_begin : exists s1, bs_abs s1 (tx_start (a_init fs_disk)).
Proof.
  destruct (begin_op_store 2 fs_boot (a_init fs_disk) (mret tt) 1 fs_boot_quiescent ltac:(lia)) as (s1 & _ & H & _).
  by exists s1.
Qed.

Definition demo_fs (s1 : lst bdisk) : fstate (lst bdisk) := mkfs s1 demo_sb [demo_ino] (mkkm (stb ∅ 5000 42) 0) [].

Lemma demo_alloc_ready s1 : bs_abs s1 (tx_start (a_init fs_disk)) -> alloc_ready (demo_fs s1) (tx_start (a_init fs_disk)).
Proof.
  intros H. split; try done.
  - exact demo_layout.
  - intros b _. apply not_elem_of_nil.
  - intros b _ _. apply not_elem_of_nil.
  - split; vm_compute; lia.
Qed.

Lemma baddr_empty V bn : baddr V (i_addrs demo_ino) bn = 0.
Proof.
  unfold baddr. destruct (bn <? NDIRECT); [|done]. unfold addr_at, zidx. destruct (0 <=? bn); [|done].
  destruct (i_addrs demo_ino !! Z.to_nat bn) as [v|] eqn:E; [|done]. by apply lookup_replicate in E as [-> _].
Qed.

Lemma demo_file s1 : bs_abs s1 (tx_start (a_init fs_disk)) -> file_state (demo_fs s1) (tx_start (a_init fs_disk)) 0 demo_ino.
Proof.
  intros H.
  pose proof (baddr_empty fs_view) as Hb.
  assert (forall n, ~ owns fs_view (i_addrs demo_ino) n) as Ho.
  { intros n [Hn [->|(bn & _ & E)]]; [done|]. rewrite Hb in E. done. }
  split.
  - split; try done; [exact demo_layout|]. split; [done| | |].
    + intros n Hn. by destruct (Ho n).
    + intros bn bn' _ _ _ Hn. by rewrite Hb in Hn.
    + intros bn _ Hn. by rewrite Hb in Hn.
  - split; [by vm_compute|]. split; [split; [by vm_compute|vm_compute; by intros []]|]. split; [by vm_compute|].
    intros b Hb'. rewrite demo_bblock by done. done.
  - apply Ho.
  - by vm_compute.
  - cbn. lia.
Qed.

Lemma demo_ino_range : ino_range demo_ino.
Proof.
  split; cbn [i_type i_major i_minor i_nlink i_size i_addrs demo_ino]; unfold T_FILE; try lia; [|reflexivity].
  apply Forall_replicate. lia.
Qed.

(** 166 blocks are free, a write to the first block lacks one. *)
Lemma demo_enough : ~ disk_short demo_sb fs_view (i_addrs demo_ino) (blocks_of 0 3).
Proof.
  assert (nfree demo_sb fs_view = 166 /\ lacks fs_view (i_addrs demo_ino) (blocks_of 0 3) = 1) as [E1 E2] by (vm_compute; done).
  unfold disk_short. rewrite E1, E2. lia.
Qed.

(** ** The theorems on this disk *)

Lemma block_allocator_correct_witness :
  exists s1 b x, bs_abs s1 (tx_start (a_init fs_disk)) /\ balloc (demo_fs s1) = Ok (b, set_s x (demo_fs s1)) /\
    first_free demo_sb fs_view b.
Proof.
  destruct demo_begin as (s1 & H). exists s1.
  destruct (block_allocator_correct (demo_fs s1) (tx_start (a_init fs_disk)) (demo_alloc_ready s1 H)) as [(b & x & y & E & _ & _ & Hf & _)|[Hu _]].
  - split; vm_compute; lia.
  - exists b, x. split; [exact H|]. split; [exact E|exact Hf].
  - specialize (Hu 100 ltac:(vm_compute; split; congruence)). vm_compute in Hu. discriminate Hu.
Defined.

Lemma writei_correct_witness :
  exists s1, bs_abs s1 (tx_start (a_init fs_disk)) /\
    exists s' a' ip', writei 0 1 0 false 5000 0 3 (demo_fs s1) = Ok (3, s') /\ file_state s' a' 0 ip' /\ i_size ip' = 3 /\
      file_byte (b_view a') (i_addrs ip') 0 = 42 /\ dinode demo_sb (b_view a') 5 = dinode demo_sb fs_view 5.
Proof.
  destruct demo_begin as (s1 & H). exists s1. split; [exact H|].
  destruct (writei_correct 0 1 1 (demo_fs s1) (tx_start (a_init fs_disk)) 0 demo_ino false 5000 [42; 0; 0] 0 (demo_file s1 H))
    as [(s' & a' & ip' & E & F & Hs & Hb & _ & [_ Hi] & _)|[_ E]].
  - exact demo_ino_range.
  - vm_compute. split; congruence.
  - vm_compute. congruence.
  - vm_compute. split; congruence.
  - apply (src_ok_kernel 0 1 (f_k (demo_fs s1)) 5000 3); lia.
  - vm_compute. congruence.
  - split; vm_compute; lia.
  - exists s', a', ip'. split; [exact E|]. split; [exact F|]. split; [exact Hs|]. rewrite Hb by (vm_compute; split; congruence).
    split; [reflexivity|]. apply Hi; vm_compute; congruence.
  - destruct (demo_enough E).
Defined.

Lemma writei_readi_witness :
  exists s1, bs_abs s1 (tx_start (a_init fs_disk)) /\
    exists s2 s3, writei 0 1 0 false 5000 0 3 (demo_fs s1) = Ok (3, s2) /\ readi 0 1 0 false 9000 0 3 s2 = Ok (3, s3) /\
      load_bytes 3 9000 (km_mem (f_k s3)) = [42; 0; 0].
Proof.
  destruct demo_begin as (s1 & H). exists s1. split; [exact H|].
  destruct (writei_readi 0 1 1 3 (demo_fs s1) (tx_start (a_init fs_disk)) 0 demo_ino 5000 9000 0 (demo_file s1 H))
    as [(s2 & s3 & E1 & E2 & E3)|[_ E]].
  - vm_compute. split; congruence.
  - vm_compute. congruence.
  - lia.
  - lia.
  - apply stb_ok. intros a. vm_compute. split; congruence.
  - vm_compute. congruence.
  - split; vm_compute; lia.
  - exists s2, s3. split; [exact E1|]. split; [exact E2|]. exact E3.
  - destruct (demo_enough E).
Defined.
