(* ===== verification/Exec.v ===== *)
(** * Running a program (kernel/exec.c)

    [exec] and [loadseg] over the memory, the page allocator and the page
    tables.  The file is given by its bytes: [fread] is [readi] of kernel/fs.c
    on them ([readi_is_fread] of ExecRead shows that it is).
    The locks and transactions around the reads ([begin_op], [ilock],
    [iunlockput], [end_op]) do not touch memory and are not in the model;
    [data] is [None] when [namei] finds no file.  [argv] are the addresses of
    the argument strings up to the null pointer, [ustack] is the address of
    that local array. *)

From S2P Require Import Prelude Riscv Mem Kalloc Vm Bytes Fs ProcMem.

Definition MAXARG : Z := 32.
Definition ELF_MAGIC : Z := 0x464C457F.
Definition ELF_PROG_LOAD : Z := 1.
Definition sizeof_elfhdr : Z := 64.
Definition sizeof_proghdr : Z := 56.
Definition off_a1 : Z := 120.

Definition get64 (d : list Z) (off : nat) : Z := get32 d off + 2 ^ 32 * get32 d (off + 4).

(** The fields of [struct elfhdr] and [struct proghdr] that are used. *)
Definition elf_magic (d : list Z) : Z := get32 d 0.
Definition elf_entry (d : list Z) : Z := get64 d 24.
Definition elf_phoff (d : list Z) : Z := get64 d 32.
Definition elf_phnum (d : list Z) : Z := get16 d 56.
Definition ph_type (d : list Z) : Z := get32 d 0.
Definition ph_off (d : list Z) : Z := get64 d 8.
Definition ph_vaddr (d : list Z) : Z := get64 d 16.
Definition ph_filesz (d : list Z) : Z := get64 d 32.
Definition ph_memsz (d : list Z) : Z := get64 d 40.

(** What [readi(ip, 0, dst, off, n)] puts at [dst]. *)
Definition fread (data : list Z) (off n : Z) : list Z :=
  let size := Z.of_nat (length data) in
  if (size <? off) || (u32 (off + n) <? off) then [] else
  let n := if size <? u32 (off + n) then size - off else n in
  take (Z.to_nat n) (drop (Z.to_nat off) data).

Record pimage : Type := mkpi { im : pmem; name : list Z }.

Section exec.
Context (end_ : Z) (fuel : nat) (trampoline : Z).
Notation K := (M km).

Definition kstore (a : Z) (l : list Z) : K unit := modify (fun k => set_mem (store_bytes a l (km_mem k)) k).

(** The loop of [loadseg]. *)
Fixpoint loadseg_from (n : nat) (pt va : Z) (data : list Z) (offset sz i : Z) : K Z :=
  match n with
  | O => hang
  | S n' =>
      if negb (i <? sz) then mret 0 else
      pa ← walkaddr pt (u64 (va + i));
      if pa =? 0 then panic "loadseg: address should exist" else
      let m := if sz - i <? PGSIZE then sz - i else PGSIZE in
      let l := fread data (u32 (offset + i)) m in
      kstore pa l;;
      if negb (Z.of_nat (length l) =? m) then mret (-1) else
      loadseg_from n' pt va data offset sz (u32 (i + PGSIZE))
  end.

Definition loadseg (pt va : Z) (data : list Z) (offset sz : Z) : K Z :=
  loadseg_from fuel pt va data offset sz 0.

(** The loop over the program headers: whether it ended well, and [sz]. *)
Fixpoint load_segs (n : nat) (pt : Z) (data : list Z) (off sz : Z) : K (bool * Z) :=
  match n with
  | O => mret (true, sz)
  | S n' =>
      let ph := fread data (u32 off) sizeof_proghdr in
      if negb (Z.of_nat (length ph) =? sizeof_proghdr) then mret (false, sz) else
      if negb (ph_type ph =? ELF_PROG_LOAD) then load_segs n' pt data (s32 (off + sizeof_proghdr)) sz else
      if ph_memsz ph <? ph_filesz ph then mret (false, sz) else
      if u64 (ph_vaddr ph + ph_memsz ph) <? ph_vaddr ph then mret (false, sz) else
      sz1 ← uvmalloc end_ fuel pt sz (u64 (ph_vaddr ph + ph_memsz ph));
      if sz1 =? 0 then mret (false, sz) else
      if negb (ph_vaddr ph mod PGSIZE =? 0) then mret (false, sz1) else
      r ← loadseg pt (ph_vaddr ph) data (u32 (ph_off ph)) (u32 (ph_filesz ph));
      if r <? 0 then mret (false, sz1) else
      load_segs n' pt data (s32 (off + sizeof_proghdr)) sz1
  end.

Definition put_ustack (ustack argc v : Z) : K unit :=
  if (0 <=? argc) && (argc <? MAXARG) then kst64 (ustack + 8 * argc) v else fault "ustack".

(** The loop over the arguments: [argc] and [sp], or the jump to [bad]. *)
Fixpoint push_args (argv : list Z) (pt ustack argc sp stackbase : Z) : K (option (Z * Z)) :=
  match argv with
  | [] => mret (Some (argc, sp))
  | s :: argv' =>
      if MAXARG <=? argc then mret None else
      len ← (fun k => lift (strlen fuel s (km_mem k)) k);
      let sp := u64 (sp - (len + 1)) in
      let sp := u64 (sp - sp mod 16) in
      if sp <? stackbase then mret None else
      r ← copyout fuel pt sp s (len + 1);
      if r <? 0 then mret None else
      put_ustack ustack argc sp;;
      push_args argv' pt ustack (argc + 1) sp stackbase
  end.

(** The last element of a path; [safestrcpy] to an array of 16 bytes. *)
Fixpoint last_elem (last path : list Z) : list Z :=
  match path with
  | [] => last
  | c :: path' => if c =? 47 then last_elem path' path' else last_elem last path'
  end.
Definition progname (path : list Z) : list Z := take 15 (last_elem path path).

Definition bad (pt sz : Z) (p : pimage) : K (Z * pimage) :=
  when (negb (pt =? 0)) (proc_freepagetable end_ fuel pt sz);;
  mret (-1, p).

(** From the arguments on; [sz] is the final size. *)
Definition exec_args (path argv : list Z) (ustack entry pt sz : Z) (p : pimage) : K (Z * pimage) :=
  let stackbase := u64 (sz - PGSIZE) in
  r ← push_args argv pt ustack 0 sz stackbase;
  match r with
  | None => bad pt sz p
  | Some (argc, sp) =>
      put_ustack ustack argc 0;;
      let sp := u64 (sp - (argc + 1) * 8) in
      let sp := u64 (sp - sp mod 16) in
      if sp <? stackbase then bad pt sz p else
      r ← copyout fuel pt sp ustack ((argc + 1) * 8);
      if r <? 0 then bad pt sz p else
      kst64 (trapframe (im p) + off_a1) sp;;
      kst64 (trapframe (im p) + off_epc) entry;;
      kst64 (trapframe (im p) + off_sp) sp;;
      proc_freepagetable end_ fuel (pagetable (im p)) (ProcMem.sz (im p));;
      mret (argc, mkpi (mkpm (trapframe (im p)) pt sz) (progname path))
  end.

(** From the stack on. *)
Definition exec_stack (path argv : list Z) (ustack entry pt sz : Z) (p : pimage) : K (Z * pimage) :=
  let sz := PGROUNDUP sz in
  sz1 ← uvmalloc end_ fuel pt sz (u64 (sz + 2 * PGSIZE));
  if sz1 =? 0 then bad pt sz p else
  uvmclear pt (u64 (sz1 - 2 * PGSIZE));;
  exec_args path argv ustack entry pt sz1 p.

Definition exec (path : list Z) (data : option (list Z)) (argv : list Z) (ustack : Z) (p : pimage) : K (Z * pimage) :=
  match data with
  | None => mret (-1, p)
  | Some data =>
      let elf := fread data 0 sizeof_elfhdr in
      if negb (Z.of_nat (length elf) =? sizeof_elfhdr) then bad 0 0 p else
      if negb (elf_magic elf =? ELF_MAGIC) then bad 0 0 p else
      pt ← proc_pagetable end_ fuel trampoline (im p);
      if pt =? 0 then bad 0 0 p else
      '(ok, sz) ← load_segs (Z.to_nat (elf_phnum elf)) pt data (s32 (elf_phoff elf)) 0;
      if negb ok then bad pt sz p else
      exec_stack path argv ustack (elf_entry elf) pt sz p
  end.
End exec.
