(* ===== verification/ExecLoad.v ===== *)
(** * Loading a program (kernel/exec.c, [loadseg] and the segments)

    While [exec] builds the new image its pages come from the free list; the
    image is the user bytes [ub] of the page table under construction.  The
    loop over the program headers never panics, whatever the file says, and
    when it ends well the image is the one the headers describe ([image]). *)

From S2P Require Import Prelude Riscv Mem Kalloc Vm VmSpec VmMap VmCopy VmFree AddrSpace Bytes Fs FsThms ProcMem Exec.

(** ** The file *)

Lemma store_bytes_ok l d m : mem_ok m -> mem_ok (store_bytes d l m).
Proof. revert d m. induction l as [|v l IH]; intros d m H; cbn [store_bytes]; [done|]. by apply IH, stb_ok. Qed.

Lemma fread_bytes data off n : bytes_ok data -> bytes_ok (fread data off n).
Proof. intros H. unfold fread. destruct (_ || _); [by constructor|]. by apply Forall_take, Forall_drop. Qed.

Lemma fread_length data off n : 0 <= off -> 0 <= n -> Z.of_nat (length (fread data off n)) <= n.
Proof.
  intros Ho Hn. unfold fread. destruct (Z.ltb_spec (Z.of_nat (length data)) off); [cbn; lia|]. cbn [orb].
  pose proof (Z.mod_le (off + n) (2 ^ 32) ltac:(lia) ltac:(lia)) as Hle. fold (u32 (off + n)) in Hle.
  destruct (u32 (off + n) <? off) eqn:E1; [cbn; lia|]. rewrite length_take, length_drop.
  destruct (Z.ltb_spec (Z.of_nat (length data)) (u32 (off + n))); lia.
Qed.

(** A read that is not short is in the file. *)
Lemma fread_full data off n :
  0 <= off < 2 ^ 32 -> 0 < n < 2 ^ 32 -> Z.of_nat (length (fread data off n)) = n ->
  off + n <= Z.of_nat (length data) /\ forall j, 0 <= j < n -> byte_at (fread data off n) (Z.to_nat j) = byte_at data (Z.to_nat (off + j)).
Proof.
  intros Ho Hn. unfold fread. destruct (Z.ltb_spec (Z.of_nat (length data)) off); [cbn; lia|]. cbn [orb].
  destruct (Z.ltb_spec (u32 (off + n)) off) as [|Hw]; [cbn; lia|].
  assert (Ew : u32 (off + n) = off + n).
  { unfold u32 in *. destruct (Z.lt_ge_cases (off + n) (2 ^ 32)); [by apply Z.mod_small; lia|].
    rewrite <- (Z.mod_add _ (-1)) in Hw by done. rewrite Z.mod_small in Hw by lia. lia. }
  rewrite Ew, length_take, length_drop. destruct (Z.ltb_spec (Z.of_nat (length data)) (off + n)); [lia|].
  intros _. split; [lia|]. intros j Hj. unfold byte_at. rewrite lookup_take_lt, lookup_drop by lia. do 2 f_equal. lia.
Qed.

Lemma fread_in data off n :
  0 <= off -> 0 < n -> off + n <= Z.of_nat (length data) < 2 ^ 32 -> Z.of_nat (length (fread data off n)) = n.
Proof.
  intros Ho Hn Hle. unfold fread. rewrite u32_small by lia. destruct (Z.ltb_spec (Z.of_nat (length data)) off); [lia|].
  destruct (Z.ltb_spec (off + n) off); [lia|]. destruct (Z.ltb_spec (Z.of_nat (length data)) (off + n)); [lia|]. cbn [orb].
  rewrite length_take, length_drop. lia.
Qed.

Lemma get64_range d off : bytes_ok d -> 0 <= get64 d off < 2 ^ 64.
Proof. intros H. unfold get64. pose proof (get32_range d off H). pose proof (get32_range d (off + 4) H). lia. Qed.

(** ** The bytes of an image *)

(** The byte at the user address [x]; 0 above the pages. *)
Definition ub (k : km) (es : list Z) (x : Z) : Z :=
  match es !! Z.to_nat (x / PGSIZE) with Some e => ldb (km_mem k) (PTE2PA e + x mod PGSIZE) | None => 0 end.

Definition user_ents (es : list Z) : Prop := Forall (fun e => has e PTE_U = true) es.
Definition sized (s : Z) (es : list Z) : Prop := 0 <= s <= MAXVA /\ PGROUNDUP s / PGSIZE = Z.of_nat (length es).

(** The file bytes from [off] on, at the addresses [va] to [va + n]. *)
Definition overlay (va off n : Z) (data : list Z) (m : Z -> Z) (x : Z) : Z :=
  if decide (va <= x < va + n) then byte_at data (Z.to_nat (off + (x - va))) else m x.

(** The image [n] program headers from [off] on describe, over [m], and its size. *)
Fixpoint image (n : nat) (data : list Z) (off : Z) (m : Z -> Z) : Z -> Z :=
  match n with
  | O => m
  | S n' =>
      let ph := fread data (u32 off) sizeof_proghdr in
      image n' data (s32 (off + sizeof_proghdr))
        (if ph_type ph =? ELF_PROG_LOAD then overlay (ph_vaddr ph) (u32 (ph_off ph)) (u32 (ph_filesz ph)) data m else m)
  end.

Fixpoint image_size (n : nat) (data : list Z) (off s : Z) : Z :=
  match n with
  | O => s
  | S n' =>
      let ph := fread data (u32 off) sizeof_proghdr in
      image_size n' data (s32 (off + sizeof_proghdr))
        (if ph_type ph =? ELF_PROG_LOAD then Z.max s (ph_vaddr ph + ph_memsz ph) else s)
  end.

(** The headers [exec] accepts, over an image of size [s]. *)
Fixpoint segs_ok (n : nat) (data : list Z) (off s : Z) : bool :=
  match n with
  | O => true
  | S n' =>
      let ph := fread data (u32 off) sizeof_proghdr in
      (Z.of_nat (length ph) =? sizeof_proghdr) &&
      if ph_type ph =? ELF_PROG_LOAD then
        (ph_filesz ph <=? ph_memsz ph) && (ph_vaddr ph + ph_memsz ph <? 2 ^ 64) && (0 <? Z.max s (ph_vaddr ph + ph_memsz ph)) &&
        (ph_vaddr ph mod PGSIZE =? 0) && (u32 (ph_off ph) + u32 (ph_filesz ph) <=? Z.of_nat (length data)) &&
        segs_ok n' data (s32 (off + sizeof_proghdr)) (Z.max s (ph_vaddr ph + ph_memsz ph))
      else segs_ok n' data (s32 (off + sizeof_proghdr)) s
  end.

Definition npages (s : Z) : Z := (s + PGSIZE - 1) / PGSIZE.

Lemma npages_spec s : (npages s - 1) * PGSIZE < s <= npages s * PGSIZE.
Proof. unfold npages. pose proof (Z.div_mod (s + PGSIZE - 1) PGSIZE). pose proof (Z.mod_pos_bound (s + PGSIZE - 1) PGSIZE). mlia. Qed.

Lemma npages_mono s s' : s <= s' -> npages s <= npages s'.
Proof. intros H. apply Z.div_le_mono; mlia. Qed.

Lemma image_size_ge n data off s : s <= image_size n data off s.
Proof.
  revert off s. induction n as [|n IH]; intros off s; cbn [image_size]; [done|].
  etransitivity; [|apply IH]. destruct (_ =? _); lia.
Qed.

Lemma image_ext n data off m m' x : m x = m' x -> image n data off m x = image n data off m' x.
Proof.
  revert off m m'. induction n as [|n IH]; intros off m m' E; cbn [image]; [done|]. apply IH.
  destruct (_ =? _); [|done]. unfold overlay. by case_decide.
Qed.

Lemma flags_has e : has (PTE_FLAGS e) PTE_U = has e PTE_U.
Proof. unfold has, PTE_FLAGS. by rewrite <- Z.land_assoc. Qed.

Lemma in_page_off q x : in_page q (q + x mod PGSIZE).
Proof. unfold in_page. pose proof (Z.mod_pos_bound x PGSIZE eq_refl). lia. Qed.

Lemma upages_lookup es j e : es !! j = Some e -> PTE2PA e ∈ upages es.
Proof. intros H. apply list_elem_of_lookup. exists j. unfold upages. by rewrite list_lookup_fmap, H. Qed.

(** Growth keeps the bytes. *)
Lemma ub_grow k k' es news x :
  keeps k k' (upages es) -> zeroed k' (upages news) -> ub k' (es ++ news) x = ub k es x.
Proof.
  intros K Z. unfold ub. destruct (es !! Z.to_nat (x / PGSIZE)) as [e|] eqn:E.
  - rewrite (lookup_app_l_Some _ _ _ _ E). eapply K; [by eapply upages_lookup|apply in_page_off].
  - rewrite lookup_app_r by (by apply lookup_ge_None). destruct (news !! _) as [e|] eqn:E2; [|done].
    eapply Z; [by eapply upages_lookup|apply in_page_off].
Qed.

Lemma ub_same k k' es x : keeps k k' (upages es) -> ub k' es x = ub k es x.
Proof. intros K. unfold ub. destruct (es !! _) as [e|] eqn:E; [|done]. eapply K; [by eapply upages_lookup|apply in_page_off]. Qed.

Section load.
Context (end_ : Z) (fuel : nat) (trampoline : Z).
Context (He : 0 <= end_) (Hend : KERNBASE <= end_) (Htr : 0 <= trampoline < 2 ^ 56) (Hta : trampoline mod PGSIZE = 0).
Context (tf : Z) (Htf : 0 <= tf < 2 ^ 56) (Htfa : tf mod PGSIZE = 0).
Context (ustack : Z).
Implicit Types (k : km) (F es : list Z) (T : gmap (Z * Z) Z).

Definition in_ustack (a : Z) : Prop := ustack <= a < ustack + 8 * MAXARG.

(** The image under construction in [k']: its pages come from [F], and only
    these and [ustack] were written since [k]. *)
Record img k F root k' F' T es : Prop := {
  i_as : AS end_ k' F' root T es (sysmap trampoline tf);
  i_pages : upages es ++ tabs T ++ F' ≡ₚ F;
  i_mem : forall a, ~ in_pages F a -> ~ in_ustack a -> ldb (km_mem k') a = ldb (km_mem k) a
}.

(** The pages used so far: at most three for a user page, and five for the empty table. *)
Definition spare F F1 es : Prop := (length F <= length F1 + 3 * length es + 5)%nat.

Lemma img_step k F root k1 F1 T1 es1 k2 F2 T2 es2 :
  img k F root k1 F1 T1 es1 -> astep end_ root k1 F1 T1 es1 (sysmap trampoline tf) k2 F2 T2 es2 (sysmap trampoline tf) ->
  img k F root k2 F2 T2 es2.
Proof.
  intros [A E W] [A' E' W']. split; [done|by rewrite E'|]. intros a Ha Hu. rewrite W'; [by apply W|]. by rewrite E.
Qed.

Lemma img_write k F root k1 F1 T es m' :
  img k F root k1 F1 T es -> mem_ok m' ->
  (forall a, ~ in_pages (upages es) a -> ~ in_ustack a -> ldb m' a = ldb (km_mem k1) a) ->
  (forall a, in_pages (tabs T ++ F1) a -> ldb m' a = ldb (km_mem k1) a) ->
  img k F root (set_mem m' k1) F1 T es.
Proof.
  intros [A E W] Hm W1 W2. split; [by apply AS_write|done|]. intros a Ha Hu. cbn [set_mem km_mem].
  rewrite W1; [by apply W| |done]. intros (q & Hq & Hi). apply Ha. exists q. split; [|done]. rewrite <- E. apply elem_of_app. by left.
Qed.

Lemma img_len k F root k1 F1 T es : img k F root k1 F1 T es -> (length es + length F1 <= length F)%nat /\ Z.of_nat (length es + length F1) <= 32768.
Proof.
  intros [A E _]. split; [|by eapply AS_bound]. rewrite <- E, !length_app. unfold upages. rewrite length_fmap. lia.
Qed.

Lemma img_free k F root k1 F1 T es s :
  img k F root k1 F1 T es -> sized s es -> (length F + 3 < fuel)%nat ->
  exists k' F', proc_freepagetable end_ fuel root s k1 = Ok (tt, k') /\ km_ok end_ k' F' /\ F' ≡ₚ F /\
    forall a, ~ in_pages F a -> ~ in_ustack a -> ldb (km_mem k') a = ldb (km_mem k) a.
Proof.
  intros I [Hs1 Hs2] Hf. destruct (img_len _ _ _ _ _ _ _ I) as [Hl _]. destruct I as [A E W].
  destruct (proc_freepagetable_spec end_ fuel trampoline He Htr Hta k1 F1 root T es tf s A) as (k' & F' & E' & Hk & P & W'); try done; [lia|lia|].
  exists k', F'. split_and!; [done|done|by rewrite P|]. intros a Ha Hu. rewrite W'; [by apply W|]. by rewrite E.
Qed.

(** Growing the image. *)
Lemma uvmalloc_img k F root k1 F1 T es s newsz :
  img k F root k1 F1 T es -> spare F F1 es -> sized s es -> 0 <= newsz -> (length F + 3 < fuel)%nat ->
  exists r k2 F2 T2 news, uvmalloc end_ fuel root s newsz k1 = Ok (r, k2) /\ img k F root k2 F2 T2 (es ++ news) /\
    fresh_ents news /\ (forall x, ub k2 (es ++ news) x = ub k1 es x) /\
    ((r = 0 /\ news = [] /\ (s = 0 /\ newsz = 0 \/ Z.of_nat (length F) <= 5 + 3 * npages newsz)) \/ (r = Z.max s newsz /\ sized r (es ++ news) /\ spare F F2 (es ++ news))).
Proof.
  intros I Hsp [Hs Hsz] Hn Hf. destruct (img_len _ _ _ _ _ _ _ I) as [Hl Hb].
  destruct (Z.lt_ge_cases newsz s) as [Hlt|Hge].
  { unfold uvmalloc. destruct (Z.ltb_spec newsz s); [|lia]. exists s, k1, F1, T, []. rewrite app_nil_r.
    split_and!; [done|done|by constructor|done|]. right. split; [lia|]. by split. }
  destruct (Z.eq_dec newsz 0) as [->|Hne].
  { assert (s = 0) as -> by lia. exists 0, k1, F1, T, []. rewrite app_nil_r. split_and!; [|done|by constructor|done|by left; auto].
    unfold uvmalloc. destruct fuel; [lia|]. done. }
  pose proof (npages_spec newsz) as Hnn. set (n := npages newsz) in *.
  assert (HT : 32768 <= TRAPN) by done.
  destruct (uvmalloc_as end_ fuel He k1 F1 root T es (sysmap trampoline tf) s newsz n (i_as _ _ _ _ _ _ _ I))
    as (r & k2 & F2 & T2 & E & [(-> & news & Hlen & Hfr & Hz & St & Kp & Hc)|(-> & St & Kp & Hc)]); try done; try lia.
  - pose proof (img_step _ _ _ _ _ _ _ _ _ _ _ I St) as I2. destruct (img_len _ _ _ _ _ _ _ I2) as [_ Hb2].
    exists newsz, k2, F2, T2, news. split_and!; [done|done|done|intros x; by apply ub_grow|]. right. split; [lia|].
    assert (0 <= newsz <= MAXVA) by mlia. split; [|unfold spare in *; lia]. split; [done|]. apply pgroundup_pages; [done|]. by rewrite Hlen.
  - exists 0, k2, F2, T2, []. rewrite app_nil_r. split_and!; [done|by eapply img_step|by constructor|intros x; by apply ub_same|]. left.
    split_and!; [done|done|]. right. unfold spare in *. fold n. mlia.
Qed.

Lemma fresh_user news : Forall (page_ok end_) (upages news) -> fresh_ents news -> user_ents news.
Proof.
  unfold upages, fresh_ents, user_ents. rewrite !Forall_forall. intros HP Hf e He'. destruct (Hf e He') as (q & -> & Eq).
  pose proof (HP q ltac:(rewrite <- Eq; by apply list_elem_of_fmap_2)) as Hq. destruct (page_ok_range end_ q He Hq) as [Hq1 Hq2].
  rewrite <- (flags_has (leaf q UPERM)). destruct (leaf_facts q UPERM Hq1 Hq2 ltac:(done)) as (_ & _ & _ & ->). done.
Qed.

(** Different pages of an address space do not overlap. *)
Lemma pages_differ k F root T es g j j' e e' :
  AS end_ k F root T es g -> es !! j = Some e -> es !! j' = Some e' -> j <> j' ->
  PTE2PA e + PGSIZE <= PTE2PA e' \/ PTE2PA e' + PGSIZE <= PTE2PA e.
Proof.
  intros A Ej E Hne. pose proof (a_pages _ _ _ _ _ _ _ A) as HP. rewrite Forall_forall in HP.
  destruct (HP _ (upages_lookup _ _ _ Ej)) as [H1 _]. destruct (HP _ (upages_lookup _ _ _ E)) as [H2 _].
  pose proof (a_nodup _ _ _ _ _ _ _ A) as HN. apply NoDup_app in HN as (HN & _ & _). apply (page_disjoint _ _ H1 H2).
  intros Eq. apply Hne. apply (NoDup_lookup (upages es) _ _ (PTE2PA e') HN); unfold upages; rewrite list_lookup_fmap; [rewrite Ej; cbn; by rewrite Eq|by rewrite E].
Qed.

(** Writing a page of the image. *)
Lemma ub_store k F root T es j e l x :
  AS end_ k F root T es (sysmap trampoline tf) -> es !! j = Some e -> Z.of_nat (length l) <= PGSIZE -> bytes_ok l -> 0 <= x ->
  ub (set_mem (store_bytes (PTE2PA e) l (km_mem k)) k) es x =
    if decide (Z.of_nat j * PGSIZE <= x < Z.of_nat j * PGSIZE + Z.of_nat (length l)) then byte_at l (Z.to_nat (x - Z.of_nat j * PGSIZE)) else ub k es x.
Proof.
  intros A Ej Hl Hb Hx. pose proof (Z.div_mod x PGSIZE ltac:(done)) as Hdm. pose proof (Z.mod_pos_bound x PGSIZE eq_refl) as Hm.
  pose proof (Z.div_pos x PGSIZE Hx eq_refl) as Hd.
  unfold ub. destruct (es !! Z.to_nat (x / PGSIZE)) as [e'|] eqn:E.
  2:{ rewrite decide_False; [done|]. intros Hi. rewrite lookup_ge_None in E. apply lookup_lt_Some in Ej. mlia. }
  cbn [km_mem set_mem]. rewrite ldb_store_bytes. destruct (decide (Z.to_nat (x / PGSIZE) = j)) as [Eq|Hne].
  - rewrite Eq, Ej in E. injection E as <-. destruct (Z.leb_spec (PTE2PA e) (PTE2PA e + x mod PGSIZE)); [|lia].
    replace (PTE2PA e + x mod PGSIZE - PTE2PA e) with (x - Z.of_nat j * PGSIZE) by mlia. unfold byte_at.
    destruct (l !! Z.to_nat (x - Z.of_nat j * PGSIZE)) as [v|] eqn:El.
    + pose proof (lookup_lt_Some _ _ _ El). rewrite decide_True by mlia. cbn. apply u8_small. by eapply (Forall_lookup_1 _ _ _ _ Hb).
    + apply lookup_ge_None in El. by rewrite decide_False by mlia.
  - rewrite (decide_False (P := _ <= x < _)) by mlia.
    destruct (Z.leb_spec (PTE2PA e) (PTE2PA e' + x mod PGSIZE)); [|done].
    destruct (l !! _) as [v|] eqn:El; [|done]. exfalso. apply lookup_lt_Some in El.
    destruct (pages_differ _ _ _ _ _ _ _ _ _ _ A Ej E (not_eq_sym Hne)); lia.
Qed.

(** The page of an address of the image, as [walkaddr] finds it. *)
Lemma walkaddr_img k F root k1 F1 T es va :
  img k F root k1 F1 T es -> user_ents es -> 0 <= va -> va / PGSIZE < Z.of_nat (length es) ->
  exists e, es !! Z.to_nat (va / PGSIZE) = Some e /\ walkaddr root va k1 = Ok (PTE2PA e, k1) /\ 0 < PTE2PA e /\ va < 2 ^ 30.
Proof.
  intros I U Hv Hl. destruct (img_len _ _ _ _ _ _ _ I) as [_ Hb]. destruct I as [A _ _].
  assert (Hd : 0 <= va / PGSIZE) by (by apply Z.div_pos).
  assert (va < 2 ^ 30) by (pose proof (Z.div_mod va PGSIZE ltac:(done)); pose proof (Z.mod_pos_bound va PGSIZE eq_refl); mlia).
  destruct (lookup_lt_is_Some_2 es (Z.to_nat (va / PGSIZE))) as [e Ee]; [lia|]. exists e. split; [done|].
  pose proof (a_pages _ _ _ _ _ _ _ A) as HP. rewrite Forall_forall in HP. destruct (HP _ (upages_lookup _ _ _ Ee)) as (_ & _ & Hp).
  split; [|lia]. rewrite (walkaddr_spec end_ k1 root T va He (a_pt _ _ _ _ _ _ _ A)) by mlia.
  rewrite (a_mp _ _ _ _ _ _ _ A) by done. unfold umap. rewrite Ee.
  rewrite (Forall_lookup_1 _ _ _ _ U Ee). done.
Qed.

(** ** [loadseg] *)

Lemma store_img k F root k1 F1 T es j e l :
  img k F root k1 F1 T es -> es !! j = Some e -> Z.of_nat (length l) <= PGSIZE ->
  img k F root (set_mem (store_bytes (PTE2PA e) l (km_mem k1)) k1) F1 T es.
Proof.
  intros I Ej Hl. pose proof (i_as _ _ _ _ _ _ _ I) as A. pose proof (upages_lookup _ _ _ Ej) as Hin.
  assert (Hout : forall a, ~ in_page (PTE2PA e) a -> ldb (store_bytes (PTE2PA e) l (km_mem k1)) a = ldb (km_mem k1) a).
  { intros a Ha. rewrite ldb_store_bytes. destruct (Z.leb_spec (PTE2PA e) a); [|done].
    destruct (l !! _) eqn:El; [|done]. exfalso. apply Ha. apply lookup_lt_Some in El. unfold in_page. lia. }
  apply img_write; [done|apply store_bytes_ok, (ko_mem _ _ _ (a_km _ _ _ _ _ _ _ A))| |].
  - intros a Ha _. apply Hout. intros Hi. apply Ha. by exists (PTE2PA e).
  - intros a Ha. apply Hout. intros Hi. by apply (user_page_apart end_ _ _ _ _ _ _ _ _ A Hin Hi).
Qed.

Context (data : list Z) (Hdata : bytes_ok data) (Hsize : Z.of_nat (length data) <= MAXFILE * BSIZE).

Lemma loadseg_loop k F root T F1 es va offset s fuel' :
  user_ents es -> va mod PGSIZE = 0 -> 0 <= va -> 0 <= offset < 2 ^ 32 -> 0 <= s < 2 ^ 32 -> va + s <= Z.of_nat (length es) * PGSIZE ->
  forall k1 i, img k F root k1 F1 T es -> i mod PGSIZE = 0 -> 0 <= i ->
  (0 < fuel')%nat -> s - i <= (Z.of_nat fuel' - 1) * PGSIZE -> i = 0 \/ s <= i \/ offset + i <= Z.of_nat (length data) ->
  exists r k2, loadseg_from fuel' root va data offset s i k1 = Ok (r, k2) /\ img k F root k2 F1 T es /\
    ((r = -1 /\ Z.of_nat (length data) < offset + s) \/ (r = 0 /\ forall x, 0 <= x -> ub k2 es x = overlay (va + i) (offset + i) (s - i) data (ub k1 es) x)).
Proof.
  intros U Hva Hv0 Ho Hs Hes. assert (HM : MAXFILE * BSIZE < 2 ^ 20) by done.
  induction fuel' as [|fuel' IH]; intros k1 i I Hi Hi0 Hf Hfs Hoi; [lia|]. cbn [loadseg_from].
  destruct (Z.ltb_spec i s) as [Hlt|Hge]; cbn [negb].
  2:{ exists 0, k1. split_and!; [done|done|]. right. split; [done|]. intros x Hx. unfold overlay. by rewrite decide_False by lia. }
  assert (Hdv : (va + i) / PGSIZE < Z.of_nat (length es)) by (apply Z.div_lt_upper_bound; mlia).
  destruct (walkaddr_img _ _ _ _ _ _ _ (va + i) I U ltac:(lia) Hdv) as (e & Ee & Ew & He0 & Hsm).
  rewrite (u64_small (va + i)) by lia. rewrite (M_bind_Ok _ _ _ _ _ Ew).
  destruct (Z.eqb_spec (PTE2PA e) 0); [lia|]. set (m := if s - i <? PGSIZE then s - i else PGSIZE).
  assert (Hm : 0 < m <= PGSIZE /\ m <= s - i /\ (m = s - i \/ m = PGSIZE)) by (unfold m; destruct (Z.ltb_spec (s - i) PGSIZE); mlia).
  clearbody m. rewrite (u32_small (offset + i)) by lia. cbv zeta. set (l := fread data (offset + i) m).
  assert (Hl : Z.of_nat (length l) <= m) by (apply fread_length; lia).
  pose proof (store_img _ _ _ _ _ _ _ _ _ l I Ee ltac:(lia)) as I2. set (k2 := set_mem _ k1) in I2.
  assert (E2 : kstore (PTE2PA e) l k1 = Ok (tt, k2)) by done. rewrite (M_bind_Ok _ _ _ _ _ E2).
  destruct (Z.eqb_spec (Z.of_nat (length l)) m) as [Hfull|]; cbn [negb].
  2:{ exists (-1), k2. split_and!; [done|done|]. left. split; [done|]. apply Z.nle_gt. intros Hle. apply n0, fread_in; lia. }
  destruct (fread_full data (offset + i) m ltac:(lia) ltac:(mlia) Hfull) as [Hin Hby].
  assert (Hub : forall x, 0 <= x -> ub k2 es x = overlay (va + i) (offset + i) m data (ub k1 es) x).
  { intros x Hx. unfold k2. rewrite (ub_store _ _ _ _ _ _ _ l x (i_as _ _ _ _ _ _ _ I) Ee); [|lia|by apply fread_bytes|done].
    assert (Z.of_nat (Z.to_nat ((va + i) / PGSIZE)) * PGSIZE = va + i) as ->.
    { pose proof (Z.div_pos (va + i) PGSIZE ltac:(lia) eq_refl). pose proof (Z.div_mod (va + i) PGSIZE ltac:(done)) as Hd.
      rewrite Zplus_mod, Hva, Hi in Hd. change ((0 + 0) mod PGSIZE) with 0 in Hd. rewrite Z2Nat.id by done. lia. }
    rewrite Hfull. unfold overlay. case_decide; [|done]. rewrite Hby by lia. done. }
  destruct Hm as (Hm1 & Hm2 & Hm3).
  destruct (IH k2 (i + PGSIZE)) as (r & k3 & E3 & I3 & R); try done.
  1:{ by rewrite Zplus_mod, Hi. } 1-4: mlia.
  rewrite (u32_small (i + PGSIZE)) by mlia. exists r, k3. split_and!; [done|done|]. destruct R as [R|[-> R]]; [by left|right].
  split; [done|]. intros x Hx. rewrite R by done. unfold overlay in *. rewrite Hub by done. repeat case_decide; try lia; try done.
  f_equal. lia.
Qed.

(** ** The program headers *)

Lemma u64_sum a b : 0 <= a < 2 ^ 64 -> 0 <= b < 2 ^ 64 -> a <= u64 (a + b) -> u64 (a + b) = a + b.
Proof.
  intros Ha Hb Hle. unfold u64 in *. destruct (Z.lt_ge_cases (a + b) (2 ^ 64)); [apply Z.mod_small; lia|].
  rewrite <- (Z.mod_add _ (-1)) in Hle by done. rewrite Z.mod_small in Hle by lia. lia.
Qed.

Lemma user_app es news k F root k1 F1 T : img k F root k1 F1 T (es ++ news) -> user_ents es -> fresh_ents news -> user_ents (es ++ news).
Proof.
  intros [A _ _] U Hf. apply Forall_app. split; [done|]. apply fresh_user; [|done].
  pose proof (a_pages _ _ _ _ _ _ _ A) as HP. unfold upages in *. rewrite fmap_app in HP. by apply Forall_app in HP as [_ ?].
Qed.

Lemma loadseg_img k F root k1 F1 T es va offset filesz s :
  img k F root k1 F1 T es -> user_ents es -> sized s es -> (length F + 3 < fuel)%nat -> va mod PGSIZE = 0 -> 0 <= va ->
  0 <= filesz -> va + filesz <= s -> 0 <= offset ->
  exists r k2, loadseg fuel root va data (u32 offset) (u32 filesz) k1 = Ok (r, k2) /\ img k F root k2 F1 T es /\
    ((r = -1 /\ Z.of_nat (length data) < u32 offset + u32 filesz) \/ (r = 0 /\ forall x, 0 <= x -> ub k2 es x = overlay va (u32 offset) (u32 filesz) data (ub k1 es) x)).
Proof.
  intros I U [Hs1 Hs2] Hf Hva Hv0 Hfs Hle Ho. destruct (img_len _ _ _ _ _ _ _ I) as [Hl _].
  apply pgroundup_pages in Hs2; [|done]. pose proof (u32_range offset). pose proof (u32_range filesz).
  pose proof (Z.mod_le filesz (2 ^ 32) Hfs ltac:(lia)) as Hfle. fold (u32 filesz) in Hfle.
  destruct (loadseg_loop k F root T F1 es va (u32 offset) (u32 filesz) fuel U Hva Hv0 ltac:(done) ltac:(done) ltac:(lia) k1 0)
    as (r & k2 & E & I2 & R); try done; [lia|mlia|by left|].
  exists r, k2. split_and!; [done|done|]. rewrite !Z.add_0_r, Z.sub_0_r in R. done.
Qed.

(** An outcome of the loop over [n] headers from [off] on, over the image [m]
    of size [s]. *)
Definition loaded k F root (n : nat) (off s : Z) (m : Z -> Z) (r : res (bool * Z * km)) : Prop :=
  exists (ok : bool) s' k2 F2 T2 es2, r = Ok ((ok, s'), k2) /\ img k F root k2 F2 T2 es2 /\ user_ents es2 /\ sized s' es2 /\
    if ok then s' = image_size n data off s /\ spare F F2 es2 /\ forall x, 0 <= x -> ub k2 es2 x = image n data off m x
    else segs_ok n data off s = true -> Z.of_nat (length F) <= 5 + 3 * npages (image_size n data off s).

Lemma loaded_bad k F root n off s m s' k2 F2 T2 es2 :
  img k F root k2 F2 T2 es2 -> user_ents es2 -> sized s' es2 ->
  (segs_ok n data off s = true -> Z.of_nat (length F) <= 5 + 3 * npages (image_size n data off s)) ->
  loaded k F root n off s m (Ok ((false, s'), k2)).
Proof. intros I U S. exists false, s', k2, F2, T2, es2. by split_and!. Qed.

(** [loaded_bad] for a segment to be loaded. *)
Lemma segment_bad k F root n off s m s' k2 F2 T2 es2 : let ph := fread data (u32 off) sizeof_proghdr in
  let s2 := Z.max s (ph_vaddr ph + ph_memsz ph) in
  img k F root k2 F2 T2 es2 -> user_ents es2 -> sized s' es2 -> (ph_type ph =? ELF_PROG_LOAD) = true ->
  (ph_filesz ph <= ph_memsz ph -> ph_vaddr ph + ph_memsz ph < 2 ^ 64 -> 0 < s2 -> ph_vaddr ph mod PGSIZE = 0 ->
    u32 (ph_off ph) + u32 (ph_filesz ph) <= Z.of_nat (length data) -> Z.of_nat (length F) <= 5 + 3 * npages s2) ->
  loaded k F root (S n) off s m (Ok ((false, s'), k2)).
Proof.
  intros ph s2 I U S Et H. eapply loaded_bad; try done. cbn [segs_ok image_size]. fold ph. rewrite Et. fold s2.
  rewrite !andb_true_iff, !Z.leb_le, !Z.ltb_lt, !Z.eqb_eq. intros (_ & ((((H1 & H2) & H3) & H4) & H5) & _).
  pose proof (npages_mono _ _ (image_size_ge n data (s32 (off + sizeof_proghdr)) s2)). specialize (H H1 H2 H3 H4 H5). lia.
Qed.

Lemma loaded_next k F root n off s s2 m m2 r : let ph := fread data (u32 off) sizeof_proghdr in
  s2 = (if ph_type ph =? ELF_PROG_LOAD then Z.max s (ph_vaddr ph + ph_memsz ph) else s) ->
  (forall x, 0 <= x -> m2 x = (if ph_type ph =? ELF_PROG_LOAD then overlay (ph_vaddr ph) (u32 (ph_off ph)) (u32 (ph_filesz ph)) data m else m) x) ->
  loaded k F root n (s32 (off + sizeof_proghdr)) s2 m2 r -> loaded k F root (S n) off s m r.
Proof.
  intros ph E2 B2 (ok & s3 & k3 & F3 & T3 & es3 & E3 & I3 & U3 & S3 & R3).
  exists ok, s3, k3, F3, T3, es3. split_and!; try done. cbn [image image_size segs_ok]. fold ph. destruct ok.
  - destruct R3 as (-> & Hsp & R). split_and!; [by rewrite E2|done|]. intros x Hx. rewrite R by done. apply image_ext. by apply B2.
  - rewrite E2 in R3. destruct (ph_type ph =? ELF_PROG_LOAD); intros Hok; apply R3; apply andb_prop in Hok as [_ Hok]; [|done].
    by apply andb_prop in Hok as [_ ?].
Qed.

Lemma load_segs_img n k F root : (length F + 3 < fuel)%nat -> forall off k1 F1 T es s,
  img k F root k1 F1 T es -> spare F F1 es -> user_ents es -> sized s es ->
  loaded k F root n off s (ub k1 es) (load_segs end_ fuel n root data off s k1).
Proof.
  intros Hf. induction n as [|n IH]; intros off k1 F1 T es s I Hsp U Hs; cbn [load_segs].
  { exists true, s, k1, F1, T, es. by split_and!. }
  assert (Hb : bytes_ok (fread data (u32 off) sizeof_proghdr)) by (by apply fread_bytes).
  pose proof (fun s2 m2 r => loaded_next k F root n off s s2 (ub k1 es) m2 r) as Next. cbv zeta in Next.
  pose proof (fun s' k2 F2 T2 es2 => loaded_bad k F root (S n) off s (ub k1 es) s' k2 F2 T2 es2) as Short. cbn [segs_ok image_size] in Short.
  pose proof (fun s' k2 F2 T2 es2 => segment_bad k F root n off s (ub k1 es) s' k2 F2 T2 es2) as Bad. cbv zeta in Bad.
  set (ph := fread data (u32 off) sizeof_proghdr) in *. clearbody ph.
  destruct (Z.of_nat (length ph) =? sizeof_proghdr); cbn [negb andb] in *; [clear Short|by eapply Short].
  destruct (ph_type ph =? ELF_PROG_LOAD); cbn [negb]; [|by eapply Next; [done|done|eapply IH]].
  pose proof (get64_range ph 16 Hb) as Hv. fold (ph_vaddr ph) in Hv. pose proof (get64_range ph 32 Hb) as Hfz. fold (ph_filesz ph) in Hfz.
  pose proof (get64_range ph 40 Hb) as Hmz. fold (ph_memsz ph) in Hmz. pose proof (get64_range ph 8 Hb) as Ho. fold (ph_off ph) in Ho.
  destruct (Z.ltb_spec (ph_memsz ph) (ph_filesz ph)) as [|Hfm]; [eapply Bad; try done; lia|].
  destruct (Z.ltb_spec (u64 (ph_vaddr ph + ph_memsz ph)) (ph_vaddr ph)) as [Hw|Hw].
  { eapply Bad; try done. intros _ Hlt. rewrite u64_small in Hw by lia. lia. }
  rewrite (u64_sum _ _ Hv Hmz Hw).
  destruct (uvmalloc_img _ _ _ _ _ _ _ s (ph_vaddr ph + ph_memsz ph) I Hsp Hs ltac:(lia) Hf) as (r & k2 & F2 & T2 & news & E2 & I2 & Hfr & B2 & R).
  pose proof (user_app _ _ _ _ _ _ _ _ I2 U Hfr) as U2. rewrite (M_bind_Ok _ _ _ _ _ E2). destruct R as [(-> & -> & Hc)|(-> & S2 & Hsp2)].
  { cbn [Z.eqb]. rewrite app_nil_r in *. eapply Bad; try done. intros _ _ Hpos _ _.
    pose proof (npages_mono (ph_vaddr ph + ph_memsz ph) (Z.max s (ph_vaddr ph + ph_memsz ph)) ltac:(lia)). lia. }
  set (s2 := Z.max s _) in *. destruct (Z.eqb_spec s2 0) as [E0|].
  { destruct Hs. eapply Bad; [done|done|replace s with s2 by lia; done|done|lia]. }
  destruct (Z.eqb_spec (ph_vaddr ph mod PGSIZE) 0) as [Hva|]; cbn [negb]; [|by eapply Bad].
  destruct (loadseg_img _ _ _ _ _ _ _ (ph_vaddr ph) (ph_off ph) (ph_filesz ph) s2 I2 U2 S2 Hf Hva) as (r & k3 & E3 & I3 & R3); try lia.
  rewrite (M_bind_Ok _ _ _ _ _ E3). destruct R3 as [[-> Hshort]|[-> R3]]; cbn [Z.ltb Z.compare]; [eapply Bad; try done; lia|].
  eapply Next; [done| |by eapply IH]. intros x Hx. rewrite R3 by done. unfold overlay. case_decide; [done|]. apply B2.
Qed.
End load.
