(* ===== verification/ExecStack.v ===== *)
(** * The stack of a new program (kernel/exec.c, kernel/vm.c [uvmclear])

    Two pages above the image: the lower one loses its user bit, the upper one
    gets the argument strings, from the top down, and the array of their
    addresses. *)

From S2P Require Import Prelude Riscv Mem Kalloc Vm VmSpec VmMap VmCopy VmUser VmFree AddrSpace Bytes Fs ProcMem Exec ExecLoad.

(** ** The guard page *)

Definition GPERM : Z := Z.lor (Z.lor PTE_W PTE_X) PTE_R.

Lemma clear_user q : 0 <= q < 2 ^ 56 -> Z.land (leaf q UPERM) (Z.lnot PTE_U) = leaf q GPERM.
Proof.
  intros Hq. rewrite <- !leaf_eq by done. rewrite !Z.land_lor_distr_l, <- Z.ldiff_land.
  destruct (PA2PTE_range q Hq) as [H1 H2]. f_equal. f_equal.
  assert (E : Z.land (PA2PTE q) PTE_U = 0).
  { change PTE_U with (Z.land (Z.ones 10) PTE_U). rewrite Z.land_assoc, Z.land_ones by lia. change (2 ^ 10) with 1024. by rewrite H2. }
  rewrite <- (Z.lor_0_r (Z.ldiff _ _)), <- E. apply Z.lor_ldiff_and.
Qed.

(** ** Where the arguments go *)

Definition align16 (a : Z) : Z := a - a mod 16.

Lemma align16_spec a : 0 <= a -> 0 <= align16 a <= a.
Proof. intros Ha. unfold align16. pose proof (Z.mod_pos_bound a 16 ltac:(lia)). pose proof (Z.mod_le a 16 Ha ltac:(lia)). lia. Qed.

(** The addresses of strings of the given lengths, below [sp]. *)
Fixpoint arg_addrs (sp : Z) (lens : list Z) : list Z :=
  match lens with
  | [] => []
  | len :: lens' => align16 (sp - (len + 1)) :: arg_addrs (align16 (sp - (len + 1))) lens'
  end.

Lemma last_cons {A} (u d : A) l : List.last (u :: l) d = List.last l u.
Proof. revert u d. induction l as [|v l IH]; intros u d; [done|]. change (List.last (v :: l) d = List.last (v :: l) u). by rewrite !IH. Qed.

(** The addresses go down. *)
Lemma arg_addrs_le lens d : Forall (fun len => 0 <= len) lens -> List.last (arg_addrs d lens) d <= d.
Proof.
  intros Hl. revert d. induction Hl as [|len lens H0 Hl IH]; intros d; [done|]. cbn [arg_addrs]. rewrite last_cons.
  etransitivity; [apply IH|]. unfold align16. pose proof (Z.mod_pos_bound (d - (len + 1)) 16). lia.
Qed.

Lemma arg_addrs_last sp lens i u : Forall (fun len => 0 <= len) lens -> arg_addrs sp lens !! i = Some u -> List.last (arg_addrs sp lens) sp <= u.
Proof.
  intros Hl. revert sp i. induction Hl as [|len lens H0 Hl IH]; intros sp [|i] E; cbn [arg_addrs] in *; try done; rewrite last_cons.
  - injection E as <-. by apply arg_addrs_le.
  - by apply (IH _ i).
Qed.

Section stack.
Context (end_ : Z) (fuel : nat) (trampoline : Z).
Context (He : 0 <= end_) (Hend : KERNBASE <= end_).
Context (tf ustack : Z).
Implicit Types (k : km) (F es : list Z) (T : gmap (Z * Z) Z).
Notation img := (img end_ trampoline tf ustack).

Lemma uvmclear_img k F root k1 F1 T es q e2 :
  img k F root k1 F1 T (es ++ [leaf q UPERM; e2]) -> page_ok end_ q ->
  exists k2, uvmclear root (Z.of_nat (length es) * PGSIZE) k1 = Ok (tt, k2) /\
    img k F root k2 F1 T (es ++ [leaf q GPERM; e2]) /\
    forall x, ub k2 (es ++ [leaf q GPERM; e2]) x = ub k1 (es ++ [leaf q UPERM; e2]) x.
Proof.
  intros I Hq. destruct (page_ok_range end_ q He Hq) as [Hq1 Hq2].
  destruct (img_len end_ trampoline Hend _ _ _ _ _ _ _ _ _ I) as [_ Hb]. rewrite length_app in Hb. cbn [length] in Hb.
  pose proof (i_as _ _ _ _ _ _ _ _ _ _ _ I) as A. set (va := Z.of_nat (length es) * PGSIZE).
  assert (Hva : 0 <= va < MAXVA) by (unfold va; mlia). assert (Hd : va / PGSIZE = Z.of_nat (length es)) by (by apply Z.div_mul).
  destruct (leaf_facts q UPERM Hq1 Hq2 ltac:(done)) as (U1 & U2 & U3 & U4). destruct (leaf_facts q GPERM Hq1 Hq2 ltac:(done)) as (G1 & G2 & G3 & G4).
  assert (Em : mp (km_mem k1) T (va / PGSIZE) = Some (leaf q UPERM)).
  { rewrite (a_mp _ _ _ _ _ _ _ A) by (rewrite Hd; lia). unfold umap. rewrite Hd, Nat2Z.id, lookup_app_r, Nat.sub_diag by lia. done. }
  unfold uvmclear. rewrite (M_bind_Ok _ _ _ _ _ (walk_lookup end_ k1 root T va He (a_pt _ _ _ _ _ _ _ A) Hva)).
  rewrite mp_lookup in Em by lia. destruct (T !! (0, tpre 0 va)) as [p|] eqn:Et; [|done].
  destruct (has (ent (km_mem k1) p (PX 0 va)) PTE_V); [|done]. injection Em as Ee. destruct (pt_page _ _ _ _ (a_pt _ _ _ _ _ _ _ A) _ _ Et) as (_ & _ & Hp).
  pose proof (PX_range 0 va). destruct (Z.eqb_spec (p + 8 * PX 0 va) 0); [lia|]. unfold kld64, kst64. mgo.
  fold (ent (km_mem k1) p (PX 0 va)). rewrite Ee, clear_user by done.
  pose proof (store_leaf end_ root k1 F1 T va _ (leaf q GPERM) (a_km _ _ _ _ _ _ _ A) (a_pt _ _ _ _ _ _ _ A) (AS_apart _ _ _ _ _ _ _ A)
    ltac:(lia) (ex_intro _ p (conj Et eq_refl)) G1) as V.
  assert (Eu : upages (es ++ [leaf q GPERM; e2]) = upages (es ++ [leaf q UPERM; e2])) by (unfold upages; rewrite !fmap_app; cbn; by rewrite G3, U3).
  destruct (evolves_ents end_ He root k1 F1 T _ _ _ _ _ _ (es ++ [leaf q GPERM; e2]) (sysmap trampoline tf) A V) as [St Kp]; [|apply A|done| |].
  { intros vpn Hv. rewrite G2, Hd. case_decide as Ev.
    - subst. unfold umap. rewrite Nat2Z.id, lookup_app_r, Nat.sub_diag by lia. done.
    - rewrite (a_mp _ _ _ _ _ _ _ A) by done. unfold umap. destruct (decide (Z.to_nat vpn < length es)%nat).
      + by rewrite !lookup_app_l by lia.
      + rewrite !lookup_app_r by lia. destruct (Z.to_nat vpn - length es)%nat eqn:E; [lia|done]. }
  { pose proof (a_ents _ _ _ _ _ _ _ A) as HE. apply Forall_app in HE as [HE1 HE2]. apply Forall_cons in HE2 as [_ HE2].
    apply Forall_app. split; [done|]. constructor; [|done]. rewrite G4. split; [done|lia]. }
  eexists. split; [done|]. split; [by eapply img_step|]. intros x. unfold ub.
  assert (Eo : PTE2PA <$> (es ++ [leaf q GPERM; e2]) !! Z.to_nat (x / PGSIZE) = PTE2PA <$> (es ++ [leaf q UPERM; e2]) !! Z.to_nat (x / PGSIZE)).
  { rewrite <- !list_lookup_fmap. by apply (f_equal (.!! Z.to_nat (x / PGSIZE))). }
  destruct (_ !! _) as [e|] eqn:E1 in Eo |- *; destruct ((es ++ [leaf q UPERM; e2]) !! _) as [e'|] eqn:E2 in Eo |- *; try done.
  injection Eo as ->. eapply Kp; [by eapply upages_lookup|apply in_page_off].
Qed.

(** ** The stack page *)

Lemma page_num n x : 0 <= n -> n * PGSIZE <= x < (n + 1) * PGSIZE -> x / PGSIZE = n /\ x mod PGSIZE = x - n * PGSIZE.
Proof.
  intros Hn Hx. assert (x / PGSIZE = n) as E by (symmetry; apply (Z.div_unique_pos _ _ _ (x - n * PGSIZE)); mlia).
  split; [done|]. pose proof (Z.div_mod x PGSIZE ltac:(done)). rewrite E in *. lia.
Qed.

Section args.
Context (k : km) (F : list Z) (root : Z) (F1 : list Z) (T : gmap (Z * Z) Z) (es : list Z) (g e2 : Z).
Context (Hu : has e2 PTE_U = true) (Hfuel : (1 < fuel)%nat).
Notation es' := (es ++ [g; e2]).
Notation stackbase := ((Z.of_nat (length es) + 1) * PGSIZE).
Notation img1 k1 := (img k F root k1 F1 T es').

Lemma stack_page k1 : img1 k1 -> es' !! S (length es) = Some e2 /\ 0 < PTE2PA e2 /\ PTE2PA e2 mod PGSIZE = 0 /\
  PTE2PA e2 ∈ upages es' /\ PTE2PA e2 ∈ F /\ stackbase + PGSIZE < 2 ^ 30.
Proof.
  intros I. assert (El : es' !! S (length es) = Some e2) by (by rewrite lookup_app_r, Nat.sub_succ_l, Nat.sub_diag by lia).
  destruct (img_len end_ trampoline Hend _ _ _ _ _ _ _ _ _ I) as [_ Hb]. rewrite length_app in Hb. cbn [length] in Hb. destruct I as [A E _].
  pose proof (upages_lookup _ _ _ El) as Hin. pose proof (a_pages _ _ _ _ _ _ _ A) as HP. rewrite Forall_forall in HP.
  destruct (HP _ Hin) as (H1 & _ & H2). split_and!; try done; [rewrite <- E; apply elem_of_app; by left|mlia].
Qed.

Lemma stack_range k1 sp len : img1 k1 -> stackbase <= sp -> 0 <= len -> sp + len <= stackbase + PGSIZE ->
  user_range T (fun _ => PTE2PA e2) (km_mem k1) sp len.
Proof.
  intros I H1 H2 H3. destruct (stack_page _ I) as (S1 & S2 & S3 & S4 & _ & S6). pose proof (i_as _ _ _ _ _ _ _ _ _ _ _ I) as A.
  assert (Hn : forall v, sp <= v < sp + len -> v / PGSIZE = Z.of_nat (length es) + 1) by (intros v Hv; apply page_num; mlia).
  split; [mlia|lia|mlia| |intros v w Hv Hw _; by rewrite !Hn].
  intros v Hv. exists e2. rewrite (Hn v Hv), (a_mp _ _ _ _ _ _ _ A) by lia. unfold umap.
  replace (Z.to_nat (Z.of_nat (length es) + 1)) with (S (length es)) by lia. rewrite S1. split_and!; try done.
  intros x p Hx ->. apply (user_page_apart end_ k1 F1 root T es' _ (PTE2PA e2) (PTE2PA e2) A S4); [unfold in_page; mlia|].
  exists (PTE2PA e2). split; [|unfold in_page; mlia]. apply elem_of_app. left. apply elem_of_tabs. eauto.
Qed.

Lemma copyout_img k1 sp src len :
  img1 k1 -> stackbase <= sp -> 0 <= len -> sp + len <= stackbase + PGSIZE ->
  0 <= src -> src + len < 2 ^ 64 -> (forall j, 0 <= j < len -> ~ in_pages F (src + j)) ->
  exists k2, copyout fuel root sp src len k1 = Ok (0, k2) /\ img1 k2 /\
    (forall x, 0 <= x -> ub k2 es' x = if decide (sp <= x < sp + len) then ldb (km_mem k1) (src + (x - sp)) else ub k1 es' x) /\
    (forall a, ~ in_pages F a -> ldb (km_mem k2) a = ldb (km_mem k1) a).
Proof.
  intros I H1 H2 H3 H4 H5 H6. destruct (stack_page _ I) as (S1 & S2 & S3 & S4 & S5 & S6). pose proof (i_as _ _ _ _ _ _ _ _ _ _ _ I) as A.
  set (q := PTE2PA e2) in *. assert (Ha : forall i, 0 <= i < len -> addr (fun _ => q) (sp + i) = q + (sp + i - stackbase) /\ in_page q (addr (fun _ => q) (sp + i))).
  { intros i Hi. unfold addr. destruct (page_num (Z.of_nat (length es) + 1) (sp + i)) as [_ ->]; [lia|mlia|]. unfold in_page. mlia. }
  destruct (copyout_from_spec end_ He root T (fun _ => q) 1 fuel k1 sp src len) as (m' & E & Hm' & W1 & W2); try done; try lia.
  { apply A. } { by apply stack_range. } { apply (ko_mem _ _ _ (a_km _ _ _ _ _ _ _ A)). }
  { intros i j Hi Hj Eq. apply (H6 j Hj). exists q. split; [done|]. rewrite Eq. by apply Ha. }
  { destruct (Z.eq_dec len 0) as [->|]; [pose proof (Z.mod_pos_bound sp PGSIZE eq_refl); mlia|].
    destruct (page_num (Z.of_nat (length es) + 1) sp) as [_ ->]; mlia. }
  assert (Hout : forall a, ~ in_page q a -> ldb m' a = ldb (km_mem k1) a).
  { intros a Hi. apply W2. intros i Hi' ->. by apply Hi, Ha. }
  exists (set_mem m' k1). split_and!; [done| | |].
  - apply img_write; [done|done| |].
    + intros a Hi _. apply Hout. intros Hq. apply Hi. by exists q.
    + intros a Hi. apply Hout. intros Hq. by apply (user_page_apart end_ _ _ _ _ _ _ _ _ A S4 Hq).
  - intros x Hx. pose proof (Z.mod_pos_bound x PGSIZE eq_refl) as Hmod. pose proof (Z.div_mod x PGSIZE ltac:(done)) as Hdm.
    pose proof (Z.div_pos x PGSIZE Hx eq_refl) as Hd0. unfold ub. cbn [km_mem set_mem].
    destruct (decide (x / PGSIZE = Z.of_nat (length es) + 1)) as [Ex|Ex].
    + rewrite Ex. replace (Z.to_nat (Z.of_nat (length es) + 1)) with (S (length es)) by lia. rewrite S1. fold q.
      case_decide as Hin.
      * replace (q + x mod PGSIZE) with (addr (fun _ => q) (sp + (x - sp))); [by apply W1; lia|]. destruct (Ha (x - sp)) as [-> _]; mlia.
      * apply W2. intros i Hi Eq. destruct (Ha i Hi) as [Eq2 _]. rewrite Eq2 in Eq. mlia.
    + rewrite (decide_False (P := _ <= x < _)) by mlia. destruct (es' !! Z.to_nat (x / PGSIZE)) as [e'|] eqn:E'; [|done].
      apply Hout. unfold in_page. destruct (pages_differ end_ _ _ _ _ _ _ _ _ _ _ A S1 E'); [lia|lia|lia].
  - intros a Hi. apply Hout. intros Hq. apply Hi. by exists q.
Qed.
(** ** The arguments *)

Context (Husf : forall a, in_ustack ustack a -> ~ in_pages F a).

Lemma put_ustack_img k1 i v : img1 k1 -> 0 <= i < MAXARG -> 0 <= v < 2 ^ 64 ->
  exists k2, put_ustack ustack i v k1 = Ok (tt, k2) /\ img1 k2 /\ (forall x, ub k2 es' x = ub k1 es' x) /\
    forall i', ld64 (km_mem k2) (ustack + 8 * i') = if decide (i' = i) then v else ld64 (km_mem k1) (ustack + 8 * i').
Proof.
  intros I Hi Hv. unfold put_ustack. destruct (Z.leb_spec 0 i), (Z.ltb_spec i MAXARG); try lia. cbn [andb].
  pose proof (i_as _ _ _ _ _ _ _ _ _ _ _ I) as A. pose proof (i_pages _ _ _ _ _ _ _ _ _ _ _ I) as E.
  assert (Hout : forall a, ~ in_ustack ustack a -> ldb (st64 (km_mem k1) (ustack + 8 * i) v) a = ldb (km_mem k1) a).
  { intros a Ha. apply (ldb_st_out 8). intros Hin. apply Ha. unfold in_ustack. lia. }
  assert (HinF : forall a l, (forall q, q ∈ l -> q ∈ F) -> in_pages l a -> ~ in_ustack ustack a).
  { intros a l Hl (q & Hq & Ha) Hin. apply (Husf a Hin). exists q. auto. }
  eexists. split; [done|]. split_and!.
  - apply img_write; [done|apply st64_ok, (ko_mem _ _ _ (a_km _ _ _ _ _ _ _ A))|intros a _ Ha; by apply Hout|].
    intros a Ha. apply Hout. revert Ha. apply HinF. intros q Hq. rewrite <- E. apply elem_of_app. by right.
  - intros x. apply ub_same. intros q a Hq Ha. apply Hout. apply (HinF a (upages es')); [|by exists q].
    intros q' Hq'. rewrite <- E. apply elem_of_app. by left.
  - intros i'. cbn [km_mem set_mem]. case_decide as Eq; [subst; by apply ld64_st64|]. apply ld64_st64_ne. lia.
Qed.

(** An argument: a string of the kernel, outside the pages of the image. *)
Definition arg_ok (a : Z * Z) : Prop :=
  let '(s, len) := a in cstr (km_mem k) s len /\ len < PGSIZE /\ (Z.to_nat len < fuel)%nat /\ 0 <= s /\ s + len + 1 < 2 ^ 64 /\
  forall j, 0 <= j <= len -> ~ in_pages F (s + j) /\ ~ in_ustack ustack (s + j).

Lemma arg_bytes k1 s len j : img1 k1 -> arg_ok (s, len) -> 0 <= j <= len -> ldb (km_mem k1) (s + j) = ldb (km_mem k) (s + j).
Proof. intros I (_ & _ & _ & _ & _ & H) Hj. apply (i_mem _ _ _ _ _ _ _ _ _ _ _ I); by apply H. Qed.

(** What [push_args] leaves: strings at [us], their addresses in [ustack]. *)
Definition pushed k2 (argc : Z) (args : list (Z * Z)) (us : list Z) : Prop :=
  forall i s len u, args !! i = Some (s, len) -> us !! i = Some u ->
    (forall j, 0 <= j <= len -> ub k2 es' (u + j) = ldb (km_mem k) (s + j)) /\ ld64 (km_mem k2) (ustack + 8 * (argc + Z.of_nat i)) = u.

Lemma push_args_img args : forall argc sp k1,
  img1 k1 -> Forall arg_ok args -> stackbase <= sp <= stackbase + PGSIZE -> 0 <= argc -> argc + Z.of_nat (length args) <= MAXARG ->
  let us := arg_addrs sp (args.*2) in
  exists r k2, push_args fuel (args.*1) root ustack argc sp stackbase k1 = Ok (r, k2) /\ img1 k2 /\
    if forallb (fun u => stackbase <=? u) us then
      r = Some (argc + Z.of_nat (length args), List.last us sp) /\ stackbase <= List.last us sp <= sp /\
      (forall x, 0 <= x -> ~ (stackbase <= x < sp) -> ub k2 es' x = ub k1 es' x) /\
      (forall i, 0 <= i < argc -> ld64 (km_mem k2) (ustack + 8 * i) = ld64 (km_mem k1) (ustack + 8 * i)) /\
      pushed k2 argc args us
    else r = None.
Proof.
  induction args as [|[s len] args IH]; intros argc sp k1 I Hok Hsp Hargc Hmax us.
  { exists (Some (argc, sp)), k1. cbn. rewrite Z.add_0_r. split_and!; try done; try lia. }
  apply Forall_cons in Hok as [Ha Hok]. pose proof Ha as ((Hl0 & Hcs) & Hl1 & Hlf & Hs0 & Hs1 & Hap).
  destruct (stack_page _ I) as (_ & _ & _ & _ & _ & Hsm). cbn [fmap list_fmap fst snd push_args arg_addrs length] in *.
  destruct (Z.leb_spec MAXARG argc); [lia|].
  assert (Es : strlen fuel s (km_mem k1) = Ok len).
  { apply strlen_spec; [|done]. split; [done|]. rewrite (arg_bytes k1 s len) by (done || lia).
    split; [apply Hcs|]. intros i Hi. rewrite (arg_bytes k1 s len) by (done || lia). by apply Hcs. }
  rewrite (M_bind_Ok (fun k0 => lift (strlen fuel s (km_mem k0)) k0) _ k1 len k1) by (by rewrite Es).
  rewrite (u64_small (sp - (len + 1))) by mlia. fold (align16 (sp - (len + 1))). pose proof (align16_spec (sp - (len + 1)) ltac:(mlia)) as Hal.
  set (u := align16 (sp - (len + 1))) in *. rewrite (u64_small u) by lia. unfold us. cbn [forallb].
  destruct (Z.ltb_spec u stackbase) as [Hlt|Hge]; destruct (Z.leb_spec stackbase u); try lia; cbn [andb]; [by exists None, k1|].
  destruct (copyout_img k1 u s (len + 1) I) as (k2 & E2 & I2 & B2 & W2); try lia; [intros j Hj; apply Hap; lia|].
  rewrite (M_bind_Ok _ _ _ _ _ E2). cbn [Z.ltb Z.compare].
  destruct (put_ustack_img k2 argc u I2) as (k3 & E3 & I3 & B3 & W3); [lia|lia|]. rewrite (M_bind_Ok _ _ _ _ _ E3).
  destruct (IH (argc + 1) u k3 I3 Hok) as (r & k4 & E4 & I4 & R); [lia|lia|lia|]. exists r, k4. split; [done|]. split; [done|].
  destruct (forallb _ _); [|done]. destruct R as (-> & Hlast & B4 & W4 & P4). rewrite last_cons.
  split_and!; [do 2 f_equal; lia|lia|lia| | |].
  - intros x Hx Hout. rewrite B4, B3, B2 by (done || lia). by rewrite decide_False by lia.
  - intros i Hi. rewrite W4, W3 by lia. rewrite decide_False by lia. unfold ld64. apply ld_ext.
    intros a Hin. apply W2, Husf. unfold in_ustack. lia.
  - intros [|i] s' len' u' Ei Eu; cbn in Ei, Eu.
    + injection Ei as <- <-. injection Eu as <-. split.
      * intros j Hj. rewrite B4, B3, B2 by lia. rewrite decide_True by lia.
        replace (s + (u + j - u)) with (s + j) by lia. by apply (arg_bytes k1 s len).
      * rewrite Z.add_0_r, W4, W3 by lia. by rewrite decide_True.
    + replace (argc + Z.of_nat (S i)) with (argc + 1 + Z.of_nat i) by lia. by apply (P4 i).
Qed.
End args.
End stack.
