(* ===== verification/ExecThms.v ===== *)
(** * [exec] is all or nothing (kernel/exec.c)

    Whatever the file holds, [exec] does not panic.  Either it returns -1 and
    the process and its memory are as before, or the process runs the image
    the program headers describe, with its arguments on the stack.  In both
    cases no page is lost. *)

From S2P Require Import Prelude Riscv Mem Kalloc Vm VmSpec VmMap VmCopy VmUser VmFree AddrSpace Bytes Fs FsThms ProcMem ProcFork Exec ExecLoad ExecStack.

(** A word of user memory. *)
Fixpoint uld (n : nat) (f : Z -> Z) (x : Z) : Z :=
  match n with
  | O => 0
  | S n' => f x + 256 * uld n' f (x + 1)
  end.

Lemma uld_ld n f m x a : (forall j, 0 <= j < Z.of_nat n -> f (x + j) = ldb m (a + j)) -> uld n f x = ld n m a.
Proof.
  revert x a. induction n as [|n IH]; intros x a H; cbn [uld ld]; [done|].
  rewrite (IH (x + 1) (a + 1)). { rewrite <- (Z.add_0_r x), H by lia. by rewrite Z.add_0_r. }
  intros j Hj. rewrite <- !Z.add_assoc. apply H. lia.
Qed.

(** The program a file holds: [phnum] headers from [phoff] on. *)
Definition ehdr (data : list Z) : list Z := fread data 0 sizeof_elfhdr.
Definition phnum (data : list Z) : nat := Z.to_nat (elf_phnum (ehdr data)).
Definition phoff (data : list Z) : Z := s32 (elf_phoff (ehdr data)).
Definition prog_pages (data : list Z) : Z := npages (image_size (phnum data) data (phoff data) 0).

(** The stack above it: its lowest address, the strings, and [argv]. *)
Definition stack_base (data : list Z) : Z := (prog_pages data + 1) * PGSIZE.
Definition str_addrs (data : list Z) (args : list (Z * Z)) : list Z := arg_addrs (stack_base data + PGSIZE) (args.*2).
Definition argv_addr (data : list Z) (args : list (Z * Z)) : Z :=
  align16 (List.last (str_addrs data args) (stack_base data + PGSIZE) - (Z.of_nat (length args) + 1) * 8).

(** When [exec] must not fail: the file is a program, the arguments fit on
    the stack and there is enough memory. *)
Definition runnable (data : list Z) (args : list (Z * Z)) (nfree : nat) : bool :=
  (Z.of_nat (length (ehdr data)) =? sizeof_elfhdr) && (elf_magic (ehdr data) =? ELF_MAGIC) &&
  segs_ok (phnum data) data (phoff data) 0 &&
  forallb (fun u => stack_base data <=? u) (str_addrs data args) && (stack_base data <=? argv_addr data args) &&
  (5 + 3 * (prog_pages data + 2) <? Z.of_nat nfree).

Section exec.
Context (end_ : Z) (fuel : nat) (trampoline : Z).
Context (He : 0 <= end_) (Hend : KERNBASE <= end_) (Htr : 0 <= trampoline < 2 ^ 56) (Hta : trampoline mod PGSIZE = 0).
Context (ustack : Z) (Hus : 0 <= ustack) (Hus2 : ustack + 8 * MAXARG < 2 ^ 64).
Implicit Types (k : km) (F es : list Z) (T : gmap (Z * Z) Z).
Notation PM := (PM end_ trampoline).

(** The new image: program, guard page, arguments and registers; [k] is the
    memory before, where the arguments come from. *)
Record new_image (data : list Z) (args : list (Z * Z)) k (p : pmem) k' es' : Prop := {
  ni_size : sz p = (prog_pages data + 2) * PGSIZE;
  ni_prog : forall x, 0 <= x < prog_pages data * PGSIZE -> ub k' es' x = image (phnum data) data (phoff data) (fun _ => 0) x;
  ni_user : forall j e, es' !! j = Some e -> has e PTE_U = negb (Z.of_nat j =? prog_pages data);
  ni_strs : forall i s len u, args !! i = Some (s, len) -> str_addrs data args !! i = Some u ->
    (forall j, 0 <= j <= len -> ub k' es' (u + j) = ldb (km_mem k) (s + j)) /\ uld 8 (ub k' es') (argv_addr data args + 8 * Z.of_nat i) = u;
  ni_null : uld 8 (ub k' es') (argv_addr data args + 8 * Z.of_nat (length args)) = 0;
  ni_a1 : ld64 (km_mem k') (trapframe p + off_a1) = argv_addr data args;
  ni_sp : ld64 (km_mem k') (trapframe p + off_sp) = argv_addr data args;
  ni_epc : ld64 (km_mem k') (trapframe p + off_epc) = elf_entry (ehdr data)
}.

(** ** Leaving the old image *)

Lemma set_regs k F p T es tf v1 v2 v3 :
  0 <= v1 < 2 ^ 64 -> 0 <= v2 < 2 ^ 64 -> 0 <= v3 < 2 ^ 64 -> AS end_ k F p T es (sysmap trampoline tf) -> page_ok end_ tf -> tf ∉ tabs T ++ F ->
  let k' := set_mem (st64 (st64 (st64 (km_mem k) (tf + off_a1) v1) (tf + off_epc) v2) (tf + off_sp) v3) k in
  AS end_ k' F p T es (sysmap trampoline tf) /\ (forall a, ~ in_page tf a -> ldb (km_mem k') a = ldb (km_mem k) a) /\
  ld64 (km_mem k') (tf + off_a1) = v1 /\ ld64 (km_mem k') (tf + off_epc) = v2 /\ ld64 (km_mem k') (tf + off_sp) = v3.
Proof.
  intros H1 H2 H3 A Htf Hn k'. assert (Hout : forall a, ~ in_page tf a -> ldb (km_mem k') a = ldb (km_mem k) a).
  { intros a Ha. unfold in_page, PGSIZE in Ha. unfold k', st64, off_a1, off_epc, off_sp. cbn [km_mem set_mem]. by rewrite !ldb_st_out by lia. }
  split_and!; [|done|..].
  - apply AS_write; [done|apply st64_ok, st64_ok, st64_ok, (ko_mem _ _ _ (a_km _ _ _ _ _ _ _ A))|].
    intros a (q & Hq & Ha). apply Hout. intros Hi.
    apply (page_not_in end_ tf (tabs T ++ F) a); [apply Htf| |done|done|by exists q].
    pose proof (AS_all_pages end_ _ _ _ _ _ _ A) as HP. by apply Forall_app in HP as [_ ?].
  - cbn [k' km_mem set_mem]. rewrite !ld64_st64_ne, ld64_st64 by (done || unfold off_a1, off_epc, off_sp; lia). done.
  - cbn [k' km_mem set_mem]. rewrite ld64_st64_ne, ld64_st64 by (done || unfold off_a1, off_epc, off_sp; lia). done.
  - cbn [k' km_mem set_mem]. by rewrite ld64_st64.
Qed.

(** The kernel's [ustack] is in no page of the process and in no free page. *)
Definition ustack_apart (p : pmem) F T es : Prop := forall a, in_ustack ustack a -> ~ in_pages (owned p T es ++ F) a.

(** The old process, after the new image was built from free pages. *)
Lemma old_kept k F p T es k' F' l :
  PM k F p T es -> ustack_apart p F T es -> (forall a, ~ in_pages F a -> ~ in_ustack ustack a -> ldb (km_mem k') a = ldb (km_mem k) a) ->
  km_ok end_ k' F' -> l ++ F' ≡ₚ F -> PM k' F' p T es /\ keeps k k' (owned p T es).
Proof.
  intros P Hu W Hk E. destruct (owned_pages end_ trampoline _ _ _ _ _ P) as [HP HN].
  assert (Kp : keeps k k' (owned p T es)).
  { intros q a Hq Ha. apply NoDup_app in HN as (_ & HN & _). pose proof HP as HP'. apply Forall_app in HP' as [HP1 HP2]. rewrite Forall_forall in HP1.
    apply W; [apply (page_not_in end_ q F a); [by apply HP1|done|by apply HN|done]|].
    intros Hi. apply (Hu a Hi). apply in_pages_app. left. by exists q. }
  split; [|done]. destruct P as [A Htf Hown Hs Hr]. rewrite <- E in HN, Hown. split; try done.
  - apply (AS_keep end_ k F); [done|done| |].
    + intros a (q & Hq & Ha). apply (Kp q a); [|done]. unfold owned. right. apply elem_of_app. by right.
    + unfold owned in HN. cbn [app] in HN. apply NoDup_cons in HN as [_ HN]. rewrite <- app_assoc in HN.
      rewrite (Permutation_app_comm l F'), !app_assoc in HN. apply NoDup_app in HN as [HN _]. by rewrite <- !app_assoc in HN.
  - rewrite !elem_of_app in *. tauto.
Qed.

Lemma commit {A} k F p T es root k1 F1 T1 es1 newsz entry sp (v : A) :
  PM k F p T es -> ustack_apart p F T es -> img end_ trampoline (trapframe p) ustack k F root k1 F1 T1 es1 ->
  sized newsz es1 -> newsz < 2 ^ 32 -> (S (length es) < fuel)%nat -> 0 <= entry < 2 ^ 64 -> 0 <= sp < 2 ^ 64 ->
  exists k2 F2, (kst64 (trapframe p + off_a1) sp;; kst64 (trapframe p + off_epc) entry;; kst64 (trapframe p + off_sp) sp;;
      proc_freepagetable end_ fuel (pagetable p) (sz p);; mret v) k1 = Ok (v, k2) /\
    PM k2 F2 (mkpm (trapframe p) root newsz) T1 es1 /\ owned (mkpm (trapframe p) root newsz) T1 es1 ++ F2 ≡ₚ owned p T es ++ F /\
    keeps k1 k2 (upages es1) /\ ld64 (km_mem k2) (trapframe p + off_a1) = sp /\ ld64 (km_mem k2) (trapframe p + off_sp) = sp /\
    ld64 (km_mem k2) (trapframe p + off_epc) = entry.
Proof.
  intros P Hu [A1 E1 W1] [Hs1 Hs2] Hs3 Hf Hen Hsp. pose proof (pm_own _ _ _ _ _ _ _ P) as Hown. pose proof (pm_tf _ _ _ _ _ _ _ P) as Htf.
  assert (Hn1 : trapframe p ∉ upages es1 ++ tabs T1 ++ F1) by (rewrite E1; rewrite !elem_of_app in Hown; tauto).
  destruct (set_regs k1 F1 root T1 es1 (trapframe p) sp entry sp Hsp Hen Hsp A1 Htf) as (A2 & W2 & R1 & R2 & R3).
  { rewrite !elem_of_app in *. tauto. }
  unfold kst64. mgo. set (k2 := set_mem _ k1) in *.
  match goal with |- context [(_ ≫= _) ?s = Ok _] => change s with k2 end. clearbody k2.
  destruct (old_kept k F p T es k1 F1 (upages es1 ++ tabs T1) P Hu W1 (a_km _ _ _ _ _ _ _ A1)) as [P1 _]; [by rewrite <- app_assoc|].
  destruct (owned_pages end_ trampoline _ _ _ _ _ P) as [HP HN]. rewrite <- E1 in HP, HN. unfold owned in HP, HN. cbn [app] in HP, HN.
  apply NoDup_cons in HN as [HN0 HN]. apply Forall_cons in HP as [_ HP].
  assert (HN' : NoDup ((upages es1 ++ tabs T1) ++ upages es ++ tabs T ++ F1)).
  { by rewrite (app_assoc (upages es1)), Permutation_app_swap_app, <- (app_assoc (upages es)) in HN. }
  assert (A3 : AS end_ k2 F1 (pagetable p) T es (sysmap trampoline (trapframe p))).
  { apply (AS_keep end_ k1 F1); [apply P1|apply A2| |apply P1]. intros a (q & Hq & Ha). apply W2. intros Hi.
    apply (page_not_in end_ (trapframe p) (tabs T) a); [apply Htf| | |done|by exists q].
    - apply Forall_app in HP as [HP _]. by apply Forall_app in HP as [_ ?].
    - rewrite !elem_of_app in Hown. tauto. }
  destruct (PM_tf_range end_ trampoline He _ _ _ _ _ P) as (Ht1 & Ht2 & _).
  destruct (proc_freepagetable_spec end_ fuel trampoline He Htr Hta k2 F1 (pagetable p) T es (trapframe p) (sz p) A3) as (k3 & F3 & E3 & Hk3 & P3 & W3);
    [done|done|apply P|apply P|lia|].
  rewrite (M_bind_Ok _ _ _ _ _ E3). exists k3, F3. split; [done|].
  assert (HX : Forall (page_ok end_) (upages es ++ tabs T ++ F1)).
  { revert HP. rewrite !Forall_app. tauto. }
  assert (Kp : forall q a, q = trapframe p \/ q ∈ upages es1 ++ tabs T1 -> in_page q a -> ldb (km_mem k3) a = ldb (km_mem k2) a).
  { intros q a Hq Ha. apply W3. apply (page_not_in end_ q (upages es ++ tabs T ++ F1) a); [|done| |done].
    - destruct Hq as [->|Hq]; [apply Htf|]. rewrite Forall_forall in HP. apply HP. rewrite !elem_of_app in *. tauto.
    - destruct Hq as [->|Hq]; [rewrite !elem_of_app in *; tauto|]. apply NoDup_app in HN' as (_ & HN' & _). by apply HN'. }
  split_and!.
  - split; cbn [trapframe pagetable sz]; try done; try lia; [|rewrite P3; rewrite !elem_of_app in *; tauto].
    apply (AS_keep end_ k2 F1); [done|done| |by rewrite P3, app_assoc].
    intros a (q & Hq & Ha). apply (Kp q a); [right; apply elem_of_app; by right|done].
  - unfold owned. cbn [trapframe app]. constructor.
    by rewrite P3, <- E1, (app_assoc (upages es1) (tabs T1)), (Permutation_app_swap_app (upages es ++ tabs T)), <- (app_assoc (upages es)).
  - intros q a Hq Ha. rewrite (Kp q a) by (done || right; apply elem_of_app; by left). apply W2. intros Hi.
    apply (page_not_in end_ (trapframe p) (upages es1) a); [apply Htf|apply A1| |done|by exists q]. rewrite !elem_of_app in Hn1. tauto.
  - rewrite <- R1. apply ld_ext. intros a Ha. apply (Kp (trapframe p)); [by left|]. unfold in_page, PGSIZE, off_a1 in *. lia.
  - rewrite <- R3. apply ld_ext. intros a Ha. apply (Kp (trapframe p)); [by left|]. unfold in_page, PGSIZE, off_sp in *. lia.
  - rewrite <- R2. apply ld_ext. intros a Ha. apply (Kp (trapframe p)); [by left|]. unfold in_page, PGSIZE, off_epc in *. lia.
Qed.

(** ** The outcomes *)

Section outcome.
Context (data : list Z) (Hdata : bytes_ok data) (Hsize : Z.of_nat (length data) <= MAXFILE * BSIZE) (path : list Z).
Context (k : km) (F : list Z) (p : pimage) (T : gmap (Z * Z) Z) (es : list Z).
Context (P : PM k F (im p) T es) (Hap : ustack_apart (im p) F T es).
Context (args : list (Z * Z)) (Hargs : Forall (arg_ok fuel ustack k F) args) (Hargc : Z.of_nat (length args) < MAXARG).
Context (Hf1 : (length F + 3 < fuel)%nat) (Hf2 : (S (length es) < fuel)%nat).
Notation img := (img end_ trampoline (trapframe (im p)) ustack k F).

Definition outcome (x : res (Z * pimage * km)) : Prop :=
  exists r p' k' F' T' es', x = Ok ((r, p'), k') /\ PM k' F' (im p') T' es' /\
    owned (im p') T' es' ++ F' ≡ₚ owned (im p) T es ++ F /\
    ((r = -1 /\ p' = p /\ T' = T /\ es' = es /\ keeps k k' (owned (im p) T es) /\ runnable data args (length F) = false) \/
     (r = Z.of_nat (length args) /\ trapframe (im p') = trapframe (im p) /\ name p' = progname path /\
      new_image data args k (im p') k' es')).

Lemma kept_outcome k' F' :
  km_ok end_ k' F' -> F' ≡ₚ F -> (forall a, ~ in_pages F a -> ~ in_ustack ustack a -> ldb (km_mem k') a = ldb (km_mem k) a) ->
  runnable data args (length F) = false -> outcome (Ok ((-1, p), k')).
Proof.
  intros Hk E W Hr. destruct (old_kept k F (im p) T es k' F' [] P Hap W Hk E) as [P' Kp].
  exists (-1), p, k', F', T, es. split_and!; [done|done|by rewrite E|]. left. by split_and!.
Qed.

Lemma bad_outcome root k1 F1 T1 es1 s :
  img root k1 F1 T1 es1 -> sized s es1 -> runnable data args (length F) = false -> outcome (bad end_ fuel root s p k1).
Proof.
  intros I Hs Hr. destruct (PM_tf_range end_ trampoline He _ _ _ _ _ P) as (Ht1 & Ht2 & _).
  pose proof (root_ne0 end_ _ _ _ _ _ _ (i_as _ _ _ _ _ _ _ _ _ _ _ I)) as Hr0.
  destruct (img_free end_ fuel trampoline He Hend Htr Hta (trapframe (im p)) Ht1 Ht2 ustack _ _ _ _ _ _ _ s I Hs Hf1) as (k' & F' & E & Hk & E' & W).
  unfold bad, when. destruct (Z.eqb_spec root 0); [done|]. cbn [negb]. rewrite (M_bind_Ok _ _ _ _ _ E). by apply (kept_outcome k' F').
Qed.

(** Reasons for [exec] to fail. *)
Lemma not_runnable :
  (segs_ok (phnum data) data (phoff data) 0 = true -> Z.of_nat (length F) <= 5 + 3 * (prog_pages data + 2)) \/
  forallb (fun u => stack_base data <=? u) (str_addrs data args) = false \/ argv_addr data args < stack_base data ->
  runnable data args (length F) = false.
Proof.
  intros H. unfold runnable. rewrite !andb_false_iff, Z.ltb_ge, Z.leb_gt. destruct H as [H|[H|H]]; [|tauto|tauto].
  destruct (segs_ok _ _ _ _); [right; by apply H|tauto].
Qed.

(** ** From the arguments on *)

Lemma guard_user es1 q e2 j e :
  page_ok end_ q -> has e2 PTE_U = true -> user_ents es1 -> (es1 ++ [leaf q GPERM; e2]) !! j = Some e ->
  has e PTE_U = negb (Z.of_nat j =? Z.of_nat (length es1)).
Proof.
  intros Hq Hu U E. destruct (page_ok_range end_ q He Hq) as [Hq1 Hq2]. destruct (leaf_facts q GPERM Hq1 Hq2 ltac:(done)) as (_ & _ & _ & G).
  destruct (decide (j < length es1)%nat) as [Hj|Hj].
  - rewrite lookup_app_l in E by done. rewrite (Forall_lookup_1 _ _ _ _ U E). destruct (Z.eqb_spec (Z.of_nat j) (Z.of_nat (length es1))); [lia|done].
  - rewrite lookup_app_r in E by lia. destruct (j - length es1)%nat as [|[|d]] eqn:Ed; cbn in E; [| |done]; injection E as <-.
    + replace (Z.of_nat j) with (Z.of_nat (length es1)) by lia. rewrite Z.eqb_refl, <- flags_has, G. done.
    + rewrite Hu. destruct (Z.eqb_spec (Z.of_nat j) (Z.of_nat (length es1))); [lia|done].
Qed.

(** The memory after the argument strings ([k2]), the array of their addresses
    ([k3], still in the kernel) and the copy of it ([k5]). *)
Lemma new_image_intro es1 q e2 k1 k2 k3 k5 p' :
  let es' := es1 ++ [leaf q GPERM; e2] in let sp := argv_addr data args in let n := Z.of_nat (length args) in
  page_ok end_ q -> has e2 PTE_U = true -> user_ents es1 -> Z.of_nat (length es1) = prog_pages data ->
  (forall x, 0 <= x -> ub k1 es' x = image (phnum data) data (phoff data) (fun _ => 0) x) ->
  (forall x, 0 <= x -> ~ (stack_base data <= x < stack_base data + PGSIZE) -> ub k2 es' x = ub k1 es' x) ->
  pushed ustack k es1 (leaf q GPERM) e2 k2 0 args (str_addrs data args) ->
  (forall i, ld64 (km_mem k3) (ustack + 8 * i) = if decide (i = n) then 0 else ld64 (km_mem k2) (ustack + 8 * i)) ->
  (forall x, 0 <= x -> ub k5 es' x = if decide (sp <= x < sp + (n + 1) * 8) then ldb (km_mem k3) (ustack + (x - sp)) else ub k2 es' x) ->
  stack_base data <= sp <= List.last (str_addrs data args) (stack_base data + PGSIZE) - (n + 1) * 8 ->
  sz p' = stack_base data + PGSIZE -> ld64 (km_mem k5) (trapframe p' + off_a1) = sp -> ld64 (km_mem k5) (trapframe p' + off_sp) = sp ->
  ld64 (km_mem k5) (trapframe p' + off_epc) = elf_entry (ehdr data) -> new_image data args k p' k5 es'.
Proof.
  intros es' sp n Hq Hu U En Hub B2 P2 W3 B5 Hsp Esz R1 R2 R3. assert (Hb0 : PGSIZE <= stack_base data) by (unfold stack_base; rewrite <- En; mlia).
  assert (Hlens : Forall (fun len => 0 <= len) (args.*2)).
  { apply Forall_fmap. eapply Forall_impl; [exact Hargs|]. intros [s len] H. cbn. apply H. }
  assert (Wd : forall i, 0 <= i <= n -> uld 8 (ub k5 es') (sp + 8 * i) = ld64 (km_mem k3) (ustack + 8 * i)).
  { intros i Hi. apply uld_ld. intros j Hj. rewrite B5 by mlia. rewrite decide_True by lia. f_equal. lia. }
  split; try done.
  - rewrite Esz. unfold stack_base. lia.
  - intros x Hx. rewrite B5 by lia. rewrite decide_False by (unfold stack_base in *; mlia). rewrite B2, Hub by (lia || unfold stack_base in *; mlia). done.
  - intros j e E. rewrite <- En. by apply (guard_user es1 q e2).
  - intros i s len u Ei Eu. destruct (P2 i s len u Ei Eu) as [Ps Pw]. pose proof (lookup_lt_Some _ _ _ Ei) as Hi. split.
    + intros j Hj. pose proof (arg_addrs_last _ _ i u Hlens Eu) as Hu'. fold (str_addrs data args) in Hu'.
      rewrite B5 by mlia. rewrite decide_False by lia. by apply Ps.
    + fold sp. rewrite Wd, W3 by lia. rewrite decide_False by lia. by rewrite <- Pw.
  - fold sp. fold n. rewrite Wd, W3 by lia. by rewrite decide_True.
Qed.

Lemma exec_args_outcome root k1 F1 T1 es1 q e2 :
  img root k1 F1 T1 (es1 ++ [leaf q GPERM; e2]) -> page_ok end_ q -> has e2 PTE_U = true -> user_ents es1 ->
  Z.of_nat (length es1) = prog_pages data ->
  (forall x, 0 <= x -> ub k1 (es1 ++ [leaf q GPERM; e2]) x = image (phnum data) data (phoff data) (fun _ => 0) x) ->
  outcome (exec_args end_ fuel path (args.*1) ustack (elf_entry (ehdr data)) root (stack_base data + PGSIZE) p k1).
Proof.
  intros I Hq Hu U En Hub. set (es' := es1 ++ [leaf q GPERM; e2]) in *.
  assert (Husf : forall a, in_ustack ustack a -> ~ in_pages F a).
  { intros a Ha Hi. apply (Hap a Ha), in_pages_app. by right. }
  destruct (stack_page end_ fuel trampoline Hend _ _ _ _ _ _ _ _ _ _ ltac:(lia) _ I) as (_ & _ & _ & _ & _ & Hsm).
  assert (Eb : (Z.of_nat (length es1) + 1) * PGSIZE = stack_base data) by (unfold stack_base; by rewrite En).
  rewrite Eb in Hsm. assert (Hb0 : PGSIZE <= stack_base data) by (unfold stack_base; rewrite <- En; mlia).
  assert (Hs : sized (stack_base data + PGSIZE) es').
  { unfold sized, es'. rewrite length_app. cbn [length]. split; [mlia|]. apply pgroundup_pages; unfold stack_base; rewrite <- En; mlia. }
  unfold exec_args. rewrite (u64_small (stack_base data + PGSIZE - PGSIZE)) by mlia.
  replace (stack_base data + PGSIZE - PGSIZE) with (stack_base data) by lia.
  destruct (push_args_img end_ fuel trampoline He Hend _ _ k F root F1 T1 es1 _ e2 Hu ltac:(lia) Husf args 0 (stack_base data + PGSIZE) k1 I Hargs)
    as (r & k2 & E2 & I2 & R); [mlia|lia|lia|]. rewrite Eb in E2, R. fold (str_addrs data args) in R.
  rewrite (M_bind_Ok _ _ _ _ _ E2). destruct (forallb _ _) eqn:Efit.
  2:{ rewrite R. apply (bad_outcome _ _ _ _ _ _ I2 Hs), not_runnable. by right; left. }
  destruct R as (-> & Hlast & B2 & _ & P2). rewrite Z.add_0_l in *. set (top := List.last _ _) in *.
  destruct (put_ustack_img end_ fuel trampoline _ _ k F root F1 T1 es1 _ e2 ltac:(lia) Husf k2 (Z.of_nat (length args)) 0 I2) as (k3 & E3 & I3 & B3 & W3); [lia|lia|].
  rewrite (M_bind_Ok _ _ _ _ _ E3). rewrite (u64_small (top - _)) by (unfold MAXARG in Hargc; mlia). fold (align16 (top - (Z.of_nat (length args) + 1) * 8)).
  pose proof (align16_spec (top - (Z.of_nat (length args) + 1) * 8) ltac:(unfold MAXARG in Hargc; mlia)) as Hal.
  change (align16 (top - _)) with (argv_addr data args) in *. set (sp := argv_addr data args) in *. rewrite (u64_small sp) by lia.
  destruct (Z.ltb_spec sp (stack_base data)) as [Hlt|Hge]; [apply (bad_outcome _ _ _ _ _ _ I3 Hs), not_runnable; by right; right|].
  destruct (copyout_img end_ fuel trampoline He Hend _ _ k F root F1 T1 es1 _ e2 Hu ltac:(lia) k3 sp ustack ((Z.of_nat (length args) + 1) * 8) I3)
    as (k4 & E4 & I4 & B4 & _); try lia.
  { intros j Hj. apply Husf. unfold in_ustack. lia. }
  rewrite (M_bind_Ok _ _ _ _ _ E4). cbn [Z.ltb Z.compare].
  destruct (commit k F (im p) T es root k4 F1 T1 es' (stack_base data + PGSIZE) (elf_entry (ehdr data)) sp
    (Z.of_nat (length args), mkpi (mkpm (trapframe (im p)) root (stack_base data + PGSIZE)) (progname path)) P Hap I4 Hs)
    as (k5 & F5 & E5 & P5 & C5 & K5 & R1 & R2 & R3); [lia|done|by apply get64_range, fread_bytes|lia|].
  eexists _, _, k5, F5, T1, es'. split; [exact E5|]. split_and!; [done|done|]. right. split_and!; [done|done|done|].
  assert (B5 : forall x, 0 <= x -> ub k5 es' x = if decide (sp <= x < sp + (Z.of_nat (length args) + 1) * 8) then ldb (km_mem k3) (ustack + (x - sp)) else ub k2 es' x).
  { intros x Hx. rewrite (ub_same _ _ _ _ K5), B4 by done. case_decide; [done|]. apply B3. }
  apply (new_image_intro es1 q e2 k1 k2 k3); try done. split; [done|]. fold sp. fold top. lia.
Qed.

(** ** From the stack on *)

Lemma stack_ents root k1 F1 T1 es1 e1 e2 : img root k1 F1 T1 (es1 ++ [e1; e2]) -> user_ents es1 -> fresh_ents [e1; e2] ->
  exists q, e1 = leaf q UPERM /\ page_ok end_ q /\ has e2 PTE_U = true.
Proof.
  intros I U Hfr. pose proof (user_app end_ trampoline He _ _ _ _ _ _ _ _ _ _ I U Hfr) as U2. apply Forall_app in U2 as [_ U2].
  apply Forall_cons in U2 as [_ U2]. apply Forall_cons in U2 as [U2 _]. apply Forall_cons in Hfr as [(q & -> & Eq) _]. exists q. split_and!; [done| |done].
  pose proof (a_pages _ _ _ _ _ _ _ (i_as _ _ _ _ _ _ _ _ _ _ _ I)) as HP. rewrite Forall_forall in HP. apply HP. rewrite <- Eq at 1.
  apply (upages_lookup _ (length es1)). by rewrite lookup_app_r, Nat.sub_diag by lia.
Qed.

Lemma exec_stack_outcome root k1 F1 T1 es1 s :
  img root k1 F1 T1 es1 -> spare F F1 es1 -> user_ents es1 -> sized s es1 -> s = image_size (phnum data) data (phoff data) 0 ->
  (forall x, 0 <= x -> ub k1 es1 x = image (phnum data) data (phoff data) (fun _ => 0) x) ->
  outcome (exec_stack end_ fuel path (args.*1) ustack (elf_entry (ehdr data)) root s p k1).
Proof.
  intros I Hsp U Hs Es Hub. destruct Hs as [Hs0 Hs1]. destruct (img_len end_ trampoline Hend _ _ _ _ _ _ _ _ _ I) as [_ Hb1].
  assert (En : Z.of_nat (length es1) = prog_pages data).
  { unfold prog_pages. rewrite <- Es. pose proof (proj1 (pgroundup_pages s _ Hs0) Hs1). pose proof (npages_spec s). mlia. }
  unfold exec_stack. rewrite (pgroundup_mul s _ Hs0 Hs1).
  set (n := Z.of_nat (length es1)) in *. assert (Hsz : forall l : list Z, Z.of_nat (length l) <= 32768 -> sized (Z.of_nat (length l) * PGSIZE) l).
  { intros l Hl. split; [mlia|]. apply pgroundup_pages; mlia. }
  rewrite (u64_small (n * PGSIZE + 2 * PGSIZE)) by mlia.
  destruct (uvmalloc_img end_ fuel trampoline He Hend _ _ _ _ _ _ _ _ _ (n * PGSIZE) (n * PGSIZE + 2 * PGSIZE) I Hsp) as (r & k2 & F2 & T2 & news & E2 & I2 & Hfr & B2 & R);
    [by apply Hsz; lia|mlia|done|].
  rewrite (M_bind_Ok _ _ _ _ _ E2). destruct R as [(-> & -> & Hc)|(-> & S2 & Hsp2)].
  { cbn [Z.eqb]. rewrite app_nil_r in I2. apply (bad_outcome _ _ _ _ _ _ I2); [by apply Hsz; lia|].
    apply not_runnable. left. intros _. destruct Hc as [|Hc]; [mlia|]. pose proof (npages_spec (n * PGSIZE + 2 * PGSIZE)). mlia. }
  assert (Em : Z.max (n * PGSIZE) (n * PGSIZE + 2 * PGSIZE) = stack_base data + PGSIZE) by (unfold stack_base; rewrite <- En; mlia).
  rewrite Em in *. assert (Hn2 : length news = 2%nat).
  { destruct S2 as [S2a S2b]. apply pgroundup_pages in S2b; [|done]. rewrite length_app in S2b. unfold stack_base in S2b. rewrite <- En in S2b. mlia. }
  destruct news as [|e1 [|e2 [|]]]; try done. destruct (stack_ents _ _ _ _ _ _ _ I2 U Hfr) as (q & -> & Hq & Hu).
  destruct (Z.eqb_spec (stack_base data + PGSIZE) 0); [unfold stack_base in *; mlia|].
  replace (stack_base data + PGSIZE - 2 * PGSIZE) with (n * PGSIZE) by (unfold stack_base; rewrite <- En; lia). rewrite (u64_small (n * PGSIZE)) by mlia.
  destruct (uvmclear_img end_ trampoline He Hend _ _ _ _ _ _ _ _ _ _ _ I2 Hq) as (k3 & E3 & I3 & B3). rewrite (M_bind_Ok _ _ _ _ _ E3).
  apply (exec_args_outcome root k3 F2 T2 es1 q e2); try done. intros x Hx. by rewrite B3, B2, Hub.
Qed.

(** ** The whole of [exec] *)

Lemma exec_outcome : outcome (exec end_ fuel trampoline path (Some data) (args.*1) ustack p k).
Proof.
  pose proof (a_km _ _ _ _ _ _ _ (pm_as _ _ _ _ _ _ _ P)) as Hk. unfold exec. fold (ehdr data).
  assert (Same : runnable data args (length F) = false -> outcome (bad end_ fuel 0 0 p k)) by (by apply kept_outcome with F).
  destruct (Z.of_nat (length (ehdr data)) =? sizeof_elfhdr) eqn:E1; cbn [negb]; [|apply Same; unfold runnable; by rewrite E1].
  destruct (elf_magic (ehdr data) =? ELF_MAGIC) eqn:E2; cbn [negb]; [|apply Same; unfold runnable; by rewrite E1, E2]. clear Same.
  destruct (PM_tf_range end_ trampoline He _ _ _ _ _ P) as (Ht1 & Ht2 & _).
  assert (Hpp : 0 <= prog_pages data) by (pose proof (image_size_ge (phnum data) data (phoff data) 0); pose proof (npages_spec (image_size (phnum data) data (phoff data) 0)); unfold prog_pages; mlia).
  destruct (proc_pagetable_spec end_ fuel trampoline He Htr Hta k F (im p) Hk Ht1 Ht2 ltac:(lia)) as (root & k1 & F1 & E3 & R).
  rewrite (M_bind_Ok _ _ _ _ _ E3). destruct R as [(-> & Hk1 & P1 & W1 & Hc)|(Hr & Hc & T1 & A1 & P1 & W1)].
  { cbn [Z.eqb]. apply (kept_outcome k1 F1); [done|done|intros a Ha _; by apply W1|]. apply not_runnable. left. lia. }
  destruct (Z.eqb_spec root 0); [done|].
  assert (I1 : img root k1 F1 T1 []) by (split; [done|done|intros a Ha _; by apply W1]).
  destruct (load_segs_img end_ fuel trampoline He Hend _ _ data Hdata Hsize (phnum data) k F root Hf1 (phoff data) k1 F1 T1 [] 0 I1)
    as (ok & s & k2 & F2 & T2 & es2 & E4 & I2 & U2 & S2 & R2); [unfold spare; cbn; lia|by constructor|done|].
  rewrite (M_bind_Ok _ _ _ _ _ E4). destruct ok; cbn [negb].
  - destruct R2 as (-> & Hsp & R2). apply (exec_stack_outcome root k2 F2 T2 es2); try done.
  - apply (bad_outcome _ _ _ _ _ _ I2 S2), not_runnable. left. intros Hok. specialize (R2 Hok). fold (prog_pages data) in R2. lia.
Qed.
End outcome.

(** C11: [exec] never panics, whatever the bytes of the file are.  Either it
    returns -1, and then the process has its old image, registers and pages,
    and the file is no valid program or the arguments or the image do not fit
    ([runnable]); or it returns the number of arguments and the process has
    the image the program headers describe, a guard page without user access,
    the argument strings on its stack with the array of their addresses below
    them, and the registers [a1], [sp] and [epc] set.  In both cases the pages
    of the process and the free pages together are the same as before. *)
Theorem exec_correct k F p T es data path args
  (P : PM k F (im p) T es) (Hap : ustack_apart (im p) F T es)
  (Hdata : bytes_ok data) (Hsize : Z.of_nat (length data) <= MAXFILE * BSIZE)
  (Hargs : Forall (arg_ok fuel ustack k F) args) (Hargc : Z.of_nat (length args) < MAXARG)
  (Hf1 : (length F + 3 < fuel)%nat) (Hf2 : (S (length es) < fuel)%nat) :
  exists r p' k' F' T' es',
    exec end_ fuel trampoline path (Some data) (args.*1) ustack p k = Ok ((r, p'), k') /\
    PM k' F' (im p') T' es' /\ owned (im p') T' es' ++ F' ≡ₚ owned (im p) T es ++ F /\
    ((r = -1 /\ p' = p /\ T' = T /\ es' = es /\ keeps k k' (owned (im p) T es) /\ runnable data args (length F) = false) \/
     (r = Z.of_nat (length args) /\ trapframe (im p') = trapframe (im p) /\ name p' = progname path /\
      new_image data args k (im p') k' es')).
Proof. by apply exec_outcome. Qed.
End exec.

(** ** Running a program of one segment *)

Definition le64 (v : Z) : list Z := (fun i => (v / 256 ^ i) mod 256) <$> seqZ 0 8.
Definition demo_prog : list Z :=
  [0x7F; 0x45; 0x4C; 0x46] ++ replicate 20 0 ++ le64 0x10 ++ le64 64 ++ replicate 16 0 ++ [1; 0] ++ replicate 6 0 ++
  [1; 0; 0; 0; 7; 0; 0; 0] ++ le64 120 ++ le64 0 ++ le64 0 ++ le64 4 ++ le64 5000 ++ le64 4096 ++ [0x13; 0x05; 0x70; 0x00].
Definition demo_arg : Z := KERNBASE + 0x100.
Definition demo_ustack : Z := KERNBASE + 0x200.

Lemma boot_pages k F p T es a : PM boot_end boot_trampoline k F p T es -> in_pages (owned p T es ++ F) a -> boot_end <= a.
Proof.
  intros P (q & Hq & Ha). destruct (owned_pages _ _ _ _ _ _ _ P) as [HP _]. rewrite Forall_forall in HP.
  destruct (HP q Hq) as (_ & ? & _). unfold in_page in Ha. lia.
Qed.

(** The first process, and the string "ls" of the kernel. *)
Lemma exec_process :
  exists k F p T, PM boot_end boot_trampoline k F p T [] /\ cstr (km_mem k) demo_arg 2 /\ (26 <= length F)%nat.
Proof.
  destruct boot_process as (k & F & p & T & P & _ & Hl).
  set (m := store_bytes demo_arg [108; 115; 0] (km_mem k)). exists (set_mem m k), F, p, T.
  pose proof (a_km _ _ _ _ _ _ _ (pm_as _ _ _ _ _ _ _ P)) as Hk. split; [|split; [|done]].
  - pose proof P as [A H1 H2 H3 H4]. split; try done. apply AS_write; [done|apply store_bytes_ok, Hk|].
    intros a Ha. assert (boot_end <= a).
    { apply (boot_pages _ _ _ _ _ _ P). unfold owned. cbn [app]. apply in_pages_cons. right.
      rewrite <- app_assoc, in_pages_app. by right. }
    unfold m. rewrite ldb_store_bytes. destruct (Z.leb_spec demo_arg a); [|done].
    rewrite lookup_ge_None_2; [done|]. cbn [length]. assert (demo_arg + 3 < boot_end) by done. lia.
  - unfold cstr, m. cbn [km_mem set_mem]. split; [done|]. rewrite !ldb_store_bytes. split; [done|].
    intros i Hi. rewrite ldb_store_bytes. assert (i = 0 \/ i = 1) as [->| ->] by lia; done.
Qed.

Lemma exec_correct_witness :
  exists fuel k F p T p' k', PM boot_end boot_trampoline k F (im p) T [] /\
    exec boot_end fuel boot_trampoline [47; 108; 115] (Some demo_prog) [demo_arg] demo_ustack p k = Ok ((1, p'), k') /\
    sz (im p') = 4 * PGSIZE /\ name p' = [108; 115] /\ ld64 (km_mem k') (trapframe (im p') + off_epc) = 0x10.
Proof.
  destruct exec_process as (k & F & p & T & P & Hs & Hl).
  destruct (exec_correct boot_end (length F + 10) boot_trampoline ltac:(done) ltac:(done) ltac:(done) ltac:(done) demo_ustack ltac:(done) ltac:(done)
    k F (mkpi p []) T [] demo_prog [47; 108; 115] [(demo_arg, 2)] P) as (r & p' & k' & F' & T' & es' & E & _ & _ & R).
  - intros a Ha Hi. apply (boot_pages _ _ _ _ _ _ P) in Hi. unfold in_ustack in Ha. assert (demo_ustack + 8 * MAXARG < boot_end) by done. lia.
  - apply (Forall_impl (fun b => (0 <=? b) && (b <? 256) = true)); [|intros b Hb; lia]. vm_compute. repeat constructor.
  - vm_compute. congruence.
  - constructor; [|constructor]. split_and!; try done; [lia|]. intros j Hj. split.
    + intros Hi. assert (boot_end <= demo_arg + j) by (apply (boot_pages _ _ _ _ _ _ P), in_pages_app; by right).
      assert (demo_arg + 2 < boot_end) by done. lia.
    + unfold in_ustack. assert (demo_arg + 2 < demo_ustack) by done. lia.
  - done.
  - lia.
  - cbn. lia.
  - destruct R as [(_ & _ & _ & _ & _ & Hr)|(-> & _ & Hn & N)].
    + exfalso. unfold runnable in Hr. rewrite !andb_false_iff in Hr. 
      destruct Hr as [[[[[Hr|Hr]|Hr]|Hr]|Hr]|Hr]; [by vm_compute in Hr..|].
      apply Z.ltb_ge in Hr. assert (prog_pages demo_prog = 2) as Ep by (by vm_compute). rewrite Ep in Hr. lia.
    + exists (length F + 10)%nat, k, F, (mkpi p []), T, p', k'. split_and!; [exact P|exact E| |exact Hn|].
      * rewrite (ni_size _ _ _ _ _ _ N). by vm_compute.
      * rewrite (ni_epc _ _ _ _ _ _ N). by vm_compute.
Defined.
