(* ===== verification/ExecRead.v ===== *)
(** * What [exec] reads (kernel/exec.c over kernel/fs.c)

    The model of [exec] takes the bytes of the file and reads them with
    [fread]; [readi] of the file system does the same, for every offset and
    length [exec] may find in a program. *)

From S2P Require Import Prelude Riscv Mem Kalloc Vm Cache Sleeplock Bytes Store Fs FsAlloc FsFile FsMap FsRw FsInode FsThms Exec.

Section read.
Context {S : Type} `{!BlockStore S}.
Context (pagetable : Z) (fuel : nat).
Implicit Types (s : fstate S) (a : ablk).

Lemma fbytes_sub V addrs size off n :
  0 <= off -> 0 <= n -> off + n <= size -> take (Z.to_nat n) (drop (Z.to_nat off) (fbytes V addrs 0 size)) = fbytes V addrs off n.
Proof.
  intros Ho Hn Hle. replace size with (off + (n + (size - off - n))) by lia. rewrite !fbytes_app by lia. rewrite Z.add_0_l.
  rewrite drop_app_length' by (by rewrite length_fbytes). by rewrite take_app_length' by (by rewrite length_fbytes).
Qed.

Lemma readi_is_fread s a i ip dst off n :
  file_state s a i ip -> room 1 a -> 0 <= off < 2 ^ 32 -> 0 <= n < 2 ^ 32 -> 0 <= dst -> dst + n < 2 ^ 64 ->
  let l := fread (fbytes (b_view a) (i_addrs ip) 0 (i_size ip)) off n in
  exists x, readi pagetable fuel i false dst off n s = Ok (Z.of_nat (length l), set_s x (got dst l s)) /\ bs_abs x a.
Proof.
  intros H Hr Ho Hn Hd Hd2 l. pose proof (fi_size _ _ _ _ H) as Hsz.
  assert (Hl : Z.of_nat (length (fbytes (b_view a) (i_addrs ip) 0 (i_size ip))) = i_size ip) by (rewrite length_fbytes; lia).
  destruct ((i_size ip <? off) || (u32 (off + n) <? off)) eqn:E0.
  - exists (f_s s). split; [|apply H]. unfold l, fread. rewrite Hl, E0. unfold readi.
    rewrite (M_bind_Ok _ _ _ _ _ (geti_Ok _ _ _ (of_ip _ _ _ _ (fi_open _ _ _ _ H)))). rewrite E0. by destruct s as [? ? ? [] ?].
  - pose proof E0 as E1. apply orb_false_iff in E1 as [E1 E2]. apply Z.ltb_ge in E1, E2.
    assert (Hw : off + n < 2 ^ 32).
    { destruct (Z.lt_ge_cases (off + n) (2 ^ 32)); [done|]. unfold u32 in E2. rewrite <- (Z.mod_add _ (-1)), Z.mod_small in E2 by lia. lia. }
    destruct (readi_spec pagetable fuel s a i ip dst off n H Hr ltac:(lia) ltac:(lia) Hw Hd Hd2) as (x & E & A).
    assert (El : l = fbytes (b_view a) (i_addrs ip) off (Z.min n (i_size ip - off))).
    { unfold l, fread. rewrite Hl, E0, u32_small by lia. rewrite <- (fbytes_sub _ _ (i_size ip) off) by lia. f_equal.
      destruct (Z.ltb_spec (i_size ip) (off + n)); lia. }
    exists x. rewrite El, length_fbytes, Z2Nat.id by lia. done.
Qed.
End read.
