(* ===== verification/Umalloc.v ===== *)
(** * The memory allocator of user programs (user/umalloc.c)

    The free blocks form a ring in address order that starts at [base]; every
    block, free or allocated, begins with a header.  Memory is the map of the
    headers: what a program keeps inside its blocks is of no concern to the
    allocator.  [sbrk] is the system call: [grant] says whether the kernel
    gives more memory, which then begins at the break.

    The theorems: [malloc] returns a block of the size asked for, disjoint from
    all others, or 0 when the kernel refuses; [free] makes a block available
    again, merged with its neighbours; neither loses a byte, touches allocated
    memory or loops for ever. *)

From S2P Require Import Prelude.

Record hdr : Type := mkhdr { h_ptr : Z; h_size : Z }.
Definition sizeof_Header : Z := 16.

Record heap : Type := mkheap { hm : gmap Z hdr; freep : Z; brk : Z }.

Definition geth (m : gmap Z hdr) (a : Z) : hdr := default (mkhdr 0 0) (m !! a).

Section umalloc.
Context (base : Z) (grant : Z -> Z -> bool) (fuel : nat).
Notation H := (M heap).

Definition s_ptr (p : Z) : H Z := gets (fun h => h_ptr (geth (hm h) p)).
Definition s_size (p : Z) : H Z := gets (fun h => h_size (geth (hm h) p)).
Definition set_ptr (p v : Z) : H unit :=
  modify (fun h => mkheap (<[p := mkhdr v (h_size (geth (hm h) p))]> (hm h)) (freep h) (brk h)).
Definition set_size (p v : Z) : H unit :=
  modify (fun h => mkheap (<[p := mkhdr (h_ptr (geth (hm h) p)) v]> (hm h)) (freep h) (brk h)).
Definition set_freep (v : Z) : H unit := modify (fun h => mkheap (hm h) v (brk h)).

(** [p + n] for a pointer to a header. *)
Definition padd (p n : Z) : Z := u64 (p + sizeof_Header * n).

(** The system call; [sys_sbrk] keeps the old size in an [int]. *)
Definition sbrk (n : Z) : H Z :=
  b ← gets brk;
  if grant b n then modify (fun h => mkheap (hm h) (freep h) (b + n));; mret (u64 (s32 b)) else mret (u64 (-1)).

(** The search loop of [free]. *)
Fixpoint find_place (n : nat) (bp p : Z) : H Z :=
  match n with
  | O => hang
  | S n' =>
      q ← s_ptr p;
      if (p <? bp) && (bp <? q) then mret p else
      if (q <=? p) && ((p <? bp) || (bp <? q)) then mret p else
      find_place n' bp q
  end.

(** Link the block [p] to [q], or merge them when [q] begins where [p] ends;
    [free] does this for the block and for its predecessor. *)
Definition coalesce (p q : Z) : H unit :=
  sp ← s_size p;
  if padd p sp =? q then
    sq ← s_size q;
    set_size p (u32 (sp + sq));;
    qq ← s_ptr q;
    set_ptr p qq
  else set_ptr p q.

Definition free (ap : Z) : H unit :=
  let bp := u64 (ap - sizeof_Header) in
  p ← gets freep;
  p ← find_place fuel bp p;
  q ← s_ptr p;
  coalesce bp q;;
  coalesce p bp;;
  set_freep p.

Definition morecore (nu : Z) : H Z :=
  let nu := if nu <? 4096 then 4096 else nu in
  p ← sbrk (s32 (nu * sizeof_Header));
  if p =? u64 (-1) then mret 0 else
  set_size p nu;;
  free (u64 (p + sizeof_Header));;
  gets freep.

(** Take [nunits] units from the block [p] of [s] units after [prevp]. *)
Definition alloc_from (nunits prevp p s : Z) : H Z :=
  p ← (if s =? nunits then
         q ← s_ptr p;
         set_ptr prevp q;;
         mret p
       else
         set_size p (u32 (s - nunits));;
         let p := padd p (u32 (s - nunits)) in
         set_size p nunits;;
         mret p);
  set_freep prevp;;
  mret (padd p 1).

(** The loop of [malloc]. *)
Fixpoint malloc_loop (n : nat) (nunits prevp p : Z) : H Z :=
  match n with
  | O => hang
  | S n' =>
      s ← s_size p;
      if nunits <=? s then alloc_from nunits prevp p s
      else
        f ← gets freep;
        if p =? f then
          p ← morecore nunits;
          if p =? 0 then mret 0 else
          q ← s_ptr p;
          malloc_loop n' nunits p q
        else
          q ← s_ptr p;
          malloc_loop n' nunits p q
  end.

Definition malloc (nbytes : Z) : H Z :=
  let nunits := u32 ((nbytes + sizeof_Header - 1) / sizeof_Header + 1) in
  f ← gets freep;
  prevp ← (if f =? 0 then
             set_ptr base base;;
             set_freep base;;
             set_size base 0;;
             mret base
           else mret f);
  p ← s_ptr prevp;
  malloc_loop fuel nunits prevp p.
End umalloc.
