(* ===== verification/UmallocSpec.v ===== *)
(** * The ring of free blocks (user/umalloc.c)

    The invariant of the allocator and what [free] and [malloc] do to it.  A
    block is its address and its size in units of a header. *)

From S2P Require Import Prelude Umalloc.

Implicit Types (m : gmap Z hdr) (B L R fb ab : list (Z * Z)).

(** ** Links *)

Definition hda (b : Z) B : Z := match B with [] => b | (a, _) :: _ => a end.

(** Every block of [B] has its size and points to the next, the last to [b]. *)
Fixpoint chain m B (b : Z) : Prop :=
  match B with
  | [] => True
  | (a, s) :: B' => geth m a = mkhdr (hda b B') s /\ chain m B' b
  end.

Lemma chain_app m L R b : chain m (L ++ R) b <-> chain m L (hda b R) /\ chain m R b.
Proof.
  induction L as [|[a s] L IH]; cbn; [tauto|]. rewrite IH. destruct L as [|[]]; cbn; tauto.
Qed.

Lemma geth_eq m a v : geth (<[a := v]> m) a = v.
Proof. unfold geth. by rewrite lookup_insert_eq. Qed.

Lemma geth_ne m a b v : a <> b -> geth (<[a := v]> m) b = geth m b.
Proof. intros Hne. unfold geth. by rewrite lookup_insert_ne. Qed.

Lemma links_ext m m' B b : (forall x, x ∈ B.*1 -> m' !! x = m !! x) -> chain m B b -> chain m' B b.
Proof.
  induction B as [|[a s] B IH]; cbn; [done|]. intros Hx [H1 H2]. split.
  - unfold geth. rewrite Hx by left. exact H1.
  - apply IH; [|done]. intros x Hi. apply Hx. by right.
Qed.

Lemma chain_upd m B b x v : x ∉ B.*1 -> chain m B b -> chain (<[x := v]> m) B b.
Proof. intros Hx. apply links_ext. intros y Hy. apply lookup_insert_ne. by intros ->. Qed.

Lemma chain_lookup m B b i a s : chain m B b -> B !! i = Some (a, s) ->
  geth m a = mkhdr (match B !! S i with Some (d, _) => d | None => b end) s.
Proof.
  revert i. induction B as [|[a' s'] B IH]; intros i; [done|]. cbn [chain]. intros [H1 H2]. destruct i as [|i].
  - intros [= -> ->]. rewrite H1. by destruct B as [|[]].
  - intros Hi. apply (IH i H2 Hi).
Qed.

(** ** Address order: a gap between a block and the next *)

Definition gap (x y : Z * Z) : Prop := fst x + 16 * snd x < fst y.

Fixpoint sorted B : Prop :=
  match B with
  | [] => True
  | x :: B' => Forall (gap x) B' /\ 0 <= snd x /\ sorted B'
  end.

Lemma sorted_app L R : sorted (L ++ R) <-> sorted L /\ sorted R /\ forall x y, x ∈ L -> y ∈ R -> gap x y.
Proof.
  induction L as [|x L IH]; cbn; [split; [intros; split_and!; [done|done|by intros x y Hx%not_elem_of_nil]|tauto]|].
  rewrite Forall_app, IH, !Forall_forall. setoid_rewrite elem_of_cons. naive_solver.
Qed.

Lemma sorted_lookup B i j x y : sorted B -> B !! i = Some x -> B !! j = Some y -> (i < j)%nat -> gap x y.
Proof.
  revert i j. induction B as [|z B IH]; intros [|i] [|j]; cbn; try done; try lia.
  - intros [H _] [= ->] Hj _. rewrite Forall_forall in H. apply H. by eapply list_elem_of_lookup_2.
  - intros (_ & _ & H) Hi Hj Hlt. apply (IH i j); [done|done|done|lia].
Qed.

Lemma sorted_nonneg B x : sorted B -> x ∈ B -> 0 <= snd x.
Proof. induction B as [|z B IH]; cbn; [by intros _ ?%not_elem_of_nil|]. intros (_ & H & HB) [->|Hx]%elem_of_cons; auto. Qed.

Lemma sorted_lt B i j x y : sorted B -> B !! i = Some x -> B !! j = Some y -> (i < j)%nat -> fst x < fst y.
Proof.
  intros HS Hi Hj Hlt. pose proof (sorted_lookup B i j x y HS Hi Hj Hlt) as Hg. unfold gap in Hg.
  pose proof (sorted_nonneg B x HS (list_elem_of_lookup_2 _ _ _ Hi)). lia.
Qed.

(** ** Merging neighbours *)

Definition glue (x : Z * Z) R : list (Z * Z) :=
  match R with
  | (q, t) :: R' => if fst x + 16 * snd x =? q then (fst x, snd x + t) :: R' else x :: R
  | [] => [x]
  end.

(** The bytes of the blocks. *)
Definition covers B (z : Z) : Prop := exists a s, (a, s) ∈ B /\ a <= z < a + 16 * s.

Lemma covers_cons x B z : covers (x :: B) z <-> fst x <= z < fst x + 16 * snd x \/ covers B z.
Proof.
  destruct x as [a s]. unfold covers. setoid_rewrite elem_of_cons. split.
  - intros (a' & s' & [[= -> ->]|H] & Hz); [by left|right; eauto].
  - intros [H|(a' & s' & H & Hz)]; [exists a, s; auto|exists a', s'; auto].
Qed.

Lemma covers_app L R z : covers (L ++ R) z <-> covers L z \/ covers R z.
Proof. unfold covers. setoid_rewrite elem_of_app. naive_solver. Qed.

Lemma covers_nil z : ~ covers [] z.
Proof. intros (a & s & H & _). by apply not_elem_of_nil in H. Qed.

Lemma glue_covers x R z : 0 <= snd x -> Forall (fun y => 0 <= snd y) R -> covers (glue x R) z <-> covers (x :: R) z.
Proof.
  intros Hx HR. unfold glue. destruct R as [|[q t] R]; [done|]. apply Forall_cons in HR as [Ht _]. cbn in Ht.
  destruct (Z.eqb_spec (fst x + 16 * snd x) q); [|done]. subst. rewrite !covers_cons. cbn. split; intros [|]; auto; [|lia|].
  - destruct (Z.lt_ge_cases z (fst x + 16 * snd x)); [lia|]. right. left. lia.
  - destruct H; auto. left. lia.
Qed.

Lemma glue_sorted x R : sorted R -> 0 <= snd x -> Forall (fun y => fst x + 16 * snd x <= fst y) R -> sorted (glue x R).
Proof.
  intros HS Hx HR. unfold glue. destruct R as [|[q t] R]; [by split_and!|]. cbn [sorted] in HS. destruct HS as (H1 & H2 & H3). cbn in H2.
  apply Forall_cons in HR as [H4 H5]. cbn in H4. destruct (Z.eqb_spec (fst x + 16 * snd x) q); cbn [sorted].
  - split_and!; [|cbn; lia|done]. eapply Forall_impl; [exact H1|]. intros y. unfold gap. cbn. lia.
  - split_and!; [|done|done|done|done]. constructor; [unfold gap; cbn; lia|]. eapply Forall_impl; [exact H1|]. intros y. unfold gap. cbn. lia.
Qed.

(** What lies below a block list lies below it after merging. *)
Lemma glue_above (P : Z * Z -> Prop) x R : P x -> Forall P R -> (forall s t, P (fst x, s) -> P (fst x, t)) -> Forall P (glue x R).
Proof.
  intros Hx HR HP. unfold glue. destruct R as [|[q t] R]; [by constructor|]. destruct (_ =? _); [|by constructor].
  apply Forall_cons in HR as [_ HR]. constructor; [|done]. apply (HP (snd x)). by destruct x.
Qed.

Lemma padd_small p n : 0 <= p -> 0 <= n -> p + 16 * n < 2 ^ 64 -> padd p n = p + 16 * n.
Proof. intros. unfold padd, sizeof_Header. apply u64_small. lia. Qed.

Lemma glue_incl x R y : y ∈ (glue x R).*1 -> y = fst x \/ y ∈ R.*1.
Proof.
  unfold glue. destruct R as [|[q t] R]; cbn; [rewrite list_elem_of_singleton; auto|]. destruct (_ =? _); cbn; rewrite !elem_of_cons; tauto.
Qed.

Lemma hda_glue b x R : hda b (glue x R) = fst x.
Proof. destruct x. unfold glue. destruct R as [|[q t] R]; [done|]. by destruct (_ =? _). Qed.

(** [k] is the index of the last block below [bp]; the others are above. *)
Definition below B (bp : Z) (k : nat) : Prop :=
  (k < length B)%nat /\ forall i x, B !! i = Some x -> if decide (i <= k)%nat then fst x < bp else bp < fst x.

Lemma split_below B (a : Z) : sorted B -> (forall x, B !! O = Some x -> fst x < a) -> B <> [] -> a ∉ B.*1 ->
  exists L x R, B = L ++ x :: R /\ Forall (fun y => fst y < a) (L ++ [x]) /\ Forall (fun y => a < fst y) R.
Proof.
  induction B as [|x B IH]; intros HS H0 Hne Ha; [done|]. cbn [sorted] in HS. destruct HS as (HS1 & HS2 & HS3). cbn in Ha. apply not_elem_of_cons in Ha as [Ha1 Ha2].
  pose proof (H0 x eq_refl) as Hx. destruct B as [|y B]; [exists [], x, []; split_and!; [done|by repeat constructor|constructor]|].
  destruct (Z.lt_ge_cases (fst y) a) as [Hy|Hy].
  - destruct IH as (L & x' & R & E & H1 & H2); [done|by intros ? [= <-]|done|done|]. exists (x :: L), x', R.
    split_and!; [by rewrite E|by constructor|done].
  - exists [], x, (y :: B). cbn in Ha2. apply not_elem_of_cons in Ha2 as [Ha2 _]. split_and!; [done|by repeat constructor|].
    cbn [sorted] in HS3. destruct HS3 as (HS3 & HS4 & _). constructor; [lia|]. eapply Forall_impl; [exact HS3|]. intros z Hz. unfold gap in Hz. lia.
Qed.

Lemma split_is_below L x R a : Forall (fun y => fst y < a) (L ++ [x]) -> Forall (fun y => a < fst y) R -> below (L ++ x :: R) a (length L).
Proof.
  intros H1 H2. split; [rewrite length_app; cbn; lia|]. intros i y Hi. case_decide as Hd.
  - apply (Forall_lookup_1 _ _ i y H1). rewrite cons_middle, app_assoc in Hi. rewrite lookup_app_l in Hi; [done|]. rewrite length_app. cbn. lia.
  - apply (Forall_lookup_1 _ _ (i - S (length L)) y H2). rewrite lookup_app_r in Hi by lia. 
    replace (i - length L)%nat with (S (i - S (length L))) in Hi by lia. done.
Qed.

(** Membership by address. *)
Lemma covers_block B x : x ∈ B -> 0 < snd x -> covers B (fst x).
Proof. destruct x as [a s]. intros H Hs. exists a, s. cbn in *. split; [done|lia]. Qed.

Lemma sorted_NoDup B : sorted B -> NoDup B.*1.
Proof.
  induction B as [|x B IH]; cbn; [constructor|]. intros (H1 & H2 & H3). constructor; [|auto]. intros Hi.
  apply list_elem_of_fmap in Hi as (y & E & Hy). rewrite Forall_forall in H1. specialize (H1 y Hy). unfold gap in H1. lia.
Qed.

Lemma glue_big x R y : 0 <= snd x -> Forall (fun z => 0 <= snd z) R -> y ∈ x :: R -> exists y', y' ∈ glue x R /\ snd y <= snd y'.
Proof.
  intros Hx HR Hy. unfold glue. destruct R as [|[q t] R]; [by exists y|]. apply Forall_cons in HR as [Ht _]. cbn in Ht.
  destruct (_ =? _); [|by exists y]. rewrite !elem_of_cons in Hy. destruct Hy as [->|[->|Hy]].
  - exists (fst x, snd x + t). split; [left|cbn; lia].
  - exists (fst x, snd x + t). split; [left|cbn; lia].
  - exists y. split; [by right|done].
Qed.

Lemma glue_length x R : (length (glue x R) <= S (length R))%nat.
Proof. unfold glue. destruct R as [|[q t] R]; [done|]. destruct (_ =? _); cbn; lia. Qed.

Lemma glue_in x R : fst x ∈ (glue x R).*1.
Proof. destruct x. unfold glue. destruct R as [|[q t] R]; [left|]. destruct (_ =? _); left. Qed.

(** ** The search of [free] *)

Section umalloc.
Context (base : Z) (fuel : nat).

Lemma find_place_spec B bp k h : chain (hm h) B base -> sorted B -> (forall x, B !! O = Some x -> fst x = base) -> below B bp k ->
  forall d n i x y, B !! i = Some x -> B !! k = Some y -> (i + d = k \/ i + d = k + length B)%nat -> (d < n)%nat -> (d < length B)%nat ->
  find_place n bp (fst x) h = Ok (fst y, h).
Proof.
  intros HC HS HB [Hk Hbel] d. induction d as [|d IH]; intros n i [c s] y Ei Ek Hd Hn Hdl; (destruct n as [|n]; [lia|]);
    pose proof (lookup_lt_Some _ _ _ Ei) as Hi; pose proof (Hbel i _ Ei) as Hc; cbn [find_place fst] in *; unfold s_ptr; mgo;
    rewrite (chain_lookup _ _ _ _ _ _ HC Ei); cbn [h_ptr].
  - assert (i = k) as -> by lia. rewrite Ei in Ek. injection Ek as <-. rewrite decide_True in Hc by lia.
    destruct (Z.ltb_spec c bp); [|lia]. cbn [andb orb]. destruct (B !! S k) as [[e t]|] eqn:E2.
    + pose proof (Hbel _ _ E2) as He. rewrite decide_False in He by lia. cbn in He. destruct (Z.ltb_spec bp e); [done|lia].
    + destruct (lookup_lt_is_Some_2 B 0) as [z Ez]; [lia|]. rewrite <- (HB z Ez). assert (fst z <= c).
      { destruct k as [|k']; [rewrite Ei in Ez; by injection Ez as <-|]. pose proof (sorted_lt B 0 (S k') z (c, s) HS Ez Ei ltac:(lia)). cbn in *. lia. }
      destruct (Z.leb_spec (fst z) c); [|lia]. by destruct (bp <? fst z).
  - destruct (B !! S i) as [[e t]|] eqn:E2.
    + pose proof (lookup_lt_Some _ _ _ E2). pose proof (sorted_lt B i (S i) _ _ HS Ei E2 ltac:(lia)) as Hlt. cbn in Hlt.
      pose proof (Hbel _ _ E2) as He. cbn in He. destruct (Z.ltb_spec c bp), (Z.ltb_spec bp e); cbn [andb].
      * exfalso. repeat case_decide; lia.
      * destruct (Z.leb_spec e c); [lia|]. apply (IH n (S i) (e, t)); [done|done|lia|lia|lia].
      * destruct (Z.leb_spec e c); [lia|]. apply (IH n (S i) (e, t)); [done|done|lia|lia|lia].
      * destruct (Z.leb_spec e c); [lia|]. apply (IH n (S i) (e, t)); [done|done|lia|lia|lia].
    + apply lookup_ge_None in E2. destruct (lookup_lt_is_Some_2 B 0) as [z Ez]; [lia|]. rewrite <- (HB z Ez).
      pose proof (Hbel _ _ Ez) as Hz. rewrite decide_True in Hz by lia. rewrite decide_False in Hc by lia.
      destruct (Z.ltb_spec c bp); [lia|]. cbn [andb orb]. destruct (Z.ltb_spec bp (fst z)); [lia|]. rewrite andb_false_r.
      apply (IH n O z); [done|done|lia|lia|lia].
Qed.

Lemma coalesce_spec a s R h :
  h_size (geth (hm h) a) = s -> chain (hm h) R base -> a ∉ R.*1 -> 0 <= a -> 0 <= s -> a + 16 * s <= 2 ^ 32 ->
  Forall (fun y => 0 <= snd y /\ fst y + 16 * snd y <= 2 ^ 32) R -> (R = [] -> a + 16 * s <> base) ->
  exists h', coalesce a (hda base R) h = Ok (tt, h') /\ chain (hm h') (glue (a, s) R) base /\
    freep h' = freep h /\ brk h' = brk h /\ forall x, x <> a -> hm h' !! x = hm h !! x.
Proof.
  intros Hs HC Ha Ha0 Hs0 Hb HR Hbase. unfold coalesce, s_size, s_ptr. mgo. rewrite Hs, padd_small by lia. unfold glue. cbn [fst snd].
  destruct R as [|[q t] R]; cbn [hda] in *.
  - destruct (Z.eqb_spec (a + 16 * s) base); [by apply Hbase in e|]. eexists. split; [done|]. cbn [hm freep brk].
    split_and!; [|done|done|intros x Hx; by rewrite lookup_insert_ne]. cbn. by rewrite geth_eq, Hs.
  - cbn in Ha. apply not_elem_of_cons in Ha as [Hne Ha]. destruct HC as [HC1 HC2]. apply Forall_cons in HR as [[Ht1 Ht2] _]. cbn in Ht1, Ht2.
    destruct (Z.eqb_spec (a + 16 * s) q).
    + unfold set_size, set_ptr. mgo. cbn [hm freep brk]. rewrite HC1, geth_ne, HC1 by done. cbn [h_ptr h_size]. rewrite u32_small by lia.
      eexists. split; [done|]. cbn [hm freep brk]. rewrite geth_eq, insert_insert_eq. cbn [h_size]. split_and!; [|done|done|intros x Hx; by rewrite lookup_insert_ne].
      split; [by rewrite geth_eq|]. by apply chain_upd.
    + eexists. split; [done|]. cbn [hm freep brk]. split_and!; [|done|done|intros x Hx; by rewrite lookup_insert_ne].
      split; [by rewrite geth_eq, Hs|]. apply chain_upd; [by apply not_elem_of_cons|by split].
Qed.

(** The end of [free], from the place [p] on. *)
Lemma free_insert L p u R bp s h :
  chain (hm h) (L ++ (p, u) :: R) base -> h_size (geth (hm h) bp) = s ->
  bp ∉ (L ++ (p, u) :: R).*1 -> NoDup (L ++ (p, u) :: R).*1 -> 0 <= p < bp -> 0 <= u -> 0 <= s ->
  p + 16 * u <= 2 ^ 32 -> Forall (fun y => 0 <= snd y /\ fst y + 16 * snd y <= 2 ^ 32) (glue (bp, s) R) -> bp + 16 * s <= 2 ^ 32 ->
  Forall (fun y => 0 <= snd y /\ fst y + 16 * snd y <= 2 ^ 32) R -> base < bp ->
  exists h', (q ← s_ptr p; coalesce bp q;; coalesce p bp;; set_freep p) h = Ok (tt, h') /\
    chain (hm h') (L ++ glue (p, u) (glue (bp, s) R)) base /\ freep h' = p /\ brk h' = brk h /\
    forall x, x <> p -> x <> bp -> hm h' !! x = hm h !! x.
Proof.
  intros HC Hs Hbp HN Hp Hu Hs0 Hb1 HG Hb2 HR Hbase. apply chain_app in HC as [HC1 [HC2 HC3]]. cbn [hda] in HC1.
  rewrite fmap_app, not_elem_of_app in Hbp. cbn in Hbp. rewrite not_elem_of_cons in Hbp. destruct Hbp as (Hn1 & Hn2 & Hn3).
  rewrite fmap_app, NoDup_app in HN. destruct HN as (HN1 & HN2 & HN3). cbn in HN3. apply NoDup_cons in HN3 as [HN3 HN4].
  assert (HpL : p ∉ L.*1) by (intros Hi; apply (HN2 p Hi); left).
  unfold s_ptr. mgo. rewrite HC2. cbn [h_ptr].
  destruct (coalesce_spec bp s R h Hs HC3 Hn3) as (h1 & E1 & C1 & F1 & B1 & W1); [lia|lia|lia|done|lia|]. rewrite (M_bind_Ok _ _ _ _ _ E1).
  assert (Hu1 : h_size (geth (hm h1) p) = u) by (unfold geth; rewrite W1 by lia; fold (geth (hm h) p); by rewrite HC2).
  assert (Hnp : p ∉ (glue (bp, s) R).*1) by (intros Hi; apply glue_incl in Hi as [Hi|Hi]; [cbn in Hi; lia|done]).
  destruct (coalesce_spec p u (glue (bp, s) R) h1 Hu1 C1 Hnp) as (h2 & E2 & C2 & F2 & B2 & W2); [lia|lia|lia|done| |].
  { intros Hg. pose proof (hda_glue base (bp, s) R) as Hh. rewrite Hg in Hh. cbn in Hh. lia. }
  rewrite hda_glue in E2. cbn [fst] in E2. rewrite (M_bind_Ok _ _ _ _ _ E2).
  eexists. split; [done|]. cbn [hm freep brk]. split_and!; [|done|by rewrite B2, B1|intros x H1 H2; by rewrite W2, W1].
  apply chain_app. rewrite hda_glue. cbn [fst]. split; [|done].
  apply (links_ext (hm h)); [|done]. intros x Hx. rewrite W2, W1; [done|intros ->; done|intros ->; done].
Qed.

(** ** The invariant: free blocks [fb] and allocated blocks [ab] *)

Fixpoint apart_all ab : Prop :=
  match ab with
  | [] => True
  | (a, s) :: ab' => (forall z, a <= z < a + 16 * s -> ~ covers ab' z) /\ apart_all ab'
  end.

Definition blk_ok (h : heap) (x : Z * Z) : Prop := base + 16 <= fst x /\ 0 < snd x /\ fst x + 16 * snd x <= brk h.

Record uinv (h : heap) fb ab : Prop := {
  ui_chain : chain (hm h) ((base, 0) :: fb) base;
  ui_sorted : sorted ((base, 0) :: fb);
  ui_freep : freep h ∈ ((base, 0) :: fb).*1;
  ui_fb : Forall (blk_ok h) fb;
  ui_ab : Forall (blk_ok h) ab;
  ui_asize : Forall (fun x => h_size (geth (hm h) (fst x)) = snd x) ab;
  ui_fa : forall z, covers fb z -> ~ covers ab z;
  ui_aa : apart_all ab;
  ui_rng : 0 < base /\ base + 16 <= brk h <= 2 ^ 31
}.

(** The place of an allocated block among the free ones. *)
Lemma place h fb a s ab : uinv h fb ((a, s) :: ab) ->
  exists L p u R, (base, 0) :: fb = L ++ (p, u) :: R /\ below (L ++ (p, u) :: R) a (length L) /\ a ∉ (L ++ (p, u) :: R).*1 /\
    0 <= p < a /\ 0 <= u /\ p + 16 * u <= a /\ Forall (fun y => a + 16 * s <= fst y /\ 0 < snd y /\ fst y + 16 * snd y <= brk h) R.
Proof.
  intros I. pose proof (ui_sorted _ _ _ I) as HS. pose proof (ui_ab _ _ _ I) as HA. apply Forall_cons in HA as [(A1 & A2 & A3) _]. cbn in A1, A2, A3.
  pose proof (ui_rng _ _ _ I) as [Hb Hbr].
  assert (Hno : forall x, x ∈ fb -> fst x + 16 * snd x <= a \/ a + 16 * s <= fst x).
  { intros x Hx. pose proof (ui_fb _ _ _ I) as HF. rewrite Forall_forall in HF. destruct (HF x Hx) as (F1 & F2 & F3).
    destruct (Z.le_gt_cases (fst x + 16 * snd x) a); [by left|]. destruct (Z.le_gt_cases (a + 16 * s) (fst x)); [by right|]. exfalso.
    apply (ui_fa _ _ _ I (Z.max a (fst x))); [exists (fst x), (snd x); destruct x; split; [done|cbn in *; lia]|].
    exists a, s. split; [left|lia]. }
  assert (Ha : a ∉ ((base, 0) :: fb).*1).
  { cbn. apply not_elem_of_cons. split; [lia|]. intros Hi. apply list_elem_of_fmap in Hi as (x & -> & Hx). 
    pose proof (ui_fb _ _ _ I) as HF. rewrite Forall_forall in HF. destruct (HF x Hx) as (F1 & F2 & F3). destruct (Hno x Hx); lia. }
  destruct (split_below ((base, 0) :: fb) a HS) as (L & [p u] & R & E & H1 & H2); [intros x [= <-]; cbn; lia|done|done|].
  exists L, p, u, R. rewrite <- E. pose proof (split_is_below _ _ _ _ H1 H2) as Hbel. rewrite <- E in Hbel. split; [done|]. split; [done|]. split; [done|].
  pose proof (ui_fb _ _ _ I) as HF. rewrite Forall_forall in HF. apply Forall_app in H1 as [_ H1]. apply Forall_cons in H1 as [H1 _]. cbn in H1.
  assert (Hp : (p, u) ∈ (base, 0) :: fb) by (rewrite E; apply elem_of_app; right; left). apply elem_of_cons in Hp. split_and!; try done.
  - destruct Hp as [[= -> ->]|Hp]; [lia|]. destruct (HF _ Hp). cbn in *. lia.
  - destruct Hp as [[= -> ->]|Hp]; [lia|]. destruct (HF _ Hp). cbn in *. lia.
  - destruct Hp as [[= -> ->]|Hp]; [lia|]. destruct (Hno _ Hp); cbn in *; lia.
  - rewrite Forall_forall in *. intros y Hy. pose proof (H2 y Hy). assert (Hy' : y ∈ (base, 0) :: fb) by (rewrite E; apply elem_of_app; right; by right).
    apply elem_of_cons in Hy' as [->|Hy']; [cbn in *; lia|]. destruct (HF y Hy') as (F1 & F2 & F3). destruct (Hno y Hy'); split_and!; lia.
Qed.

Lemma glue_blk h x R : blk_ok h x -> Forall (blk_ok h) R -> Forall (blk_ok h) (glue x R).
Proof.
  intros Hx HR. unfold glue. destruct R as [|[q t] R]; [by constructor|]. apply Forall_cons in HR as [Hq HR].
  destruct (Z.eqb_spec (fst x + 16 * snd x) q); [|by constructor; [|constructor]]. constructor; [|done].
  unfold blk_ok in *. cbn in *. lia.
Qed.

(** The new list of free blocks. *)
Lemma inserted h fb a s ab L p u R :
  uinv h fb ((a, s) :: ab) -> (base, 0) :: fb = L ++ (p, u) :: R -> 0 <= u -> p + 16 * u <= a ->
  Forall (fun y => a + 16 * s <= fst y) R -> exists fb', L ++ glue (p, u) (glue (a, s) R) = (base, 0) :: fb' /\
    sorted ((base, 0) :: fb') /\ Forall (blk_ok h) fb' /\ (forall z, covers fb' z <-> covers fb z \/ a <= z < a + 16 * s) /\
    (exists x, x ∈ fb' /\ s <= snd x) /\ (length fb' <= S (length fb))%nat.
Proof.
  intros I E Hu Hpa HR. pose proof (ui_sorted _ _ _ I) as HS. pose proof (ui_ab _ _ _ I) as HA. apply Forall_cons in HA as [Ha _].
  pose proof (ui_fb _ _ _ I) as HF. pose proof Ha as (A1 & A2 & A3). cbn in A1, A2, A3.
  rewrite E in HS. apply sorted_app in HS as (S1 & [S2 S3] & S4).
  assert (HRf : Forall (blk_ok h) R) by (destruct L; injection E; intros -> _; [done|by apply Forall_app in HF as [_ [_ ?]%Forall_cons]]).
  assert (Hpos : forall y, y ∈ R -> 0 <= snd y) by (intros y Hy; rewrite Forall_forall in HRf; destruct (HRf y Hy); lia).
  assert (HG : sorted (glue (a, s) R)) by (apply glue_sorted; [apply S3|cbn; lia|done]).
  assert (HGb : Forall (blk_ok h) (glue (a, s) R)) by (by apply glue_blk).
  assert (HGa : Forall (fun y => p + 16 * u <= fst y) (glue (a, s) R)).
  { apply glue_above; [done| |done]. eapply Forall_impl; [exact HR|]. cbn. intros y Hy. lia. }
  assert (HGc : forall z, covers (glue (a, s) R) z <-> a <= z < a + 16 * s \/ covers R z).
  { intros z. rewrite glue_covers, covers_cons; [done|cbn; lia|by rewrite Forall_forall]. }
  assert (Hbig : exists y, y ∈ glue (a, s) R /\ s <= snd y) by (apply (glue_big (a, s) R (a, s)); [cbn; lia|by rewrite Forall_forall|left]).
  destruct L as [|x L].
  - cbn [app] in E. injection E as E1 E2 E3. subst p u fb. exists (glue (a, s) R). assert (Eg : glue (base, 0) (glue (a, s) R) = (base, 0) :: glue (a, s) R).
    { pose proof (hda_glue base (a, s) R) as Hh. destruct (glue (a, s) R) as [|[q t] G]; [done|]. cbn in Hh. cbn [glue fst snd].
      destruct (Z.eqb_spec (base + 16 * 0) q); [lia|done]. }
    cbn [app]. rewrite Eg. split_and!; [done| |done|intros z; rewrite HGc; tauto|done|apply glue_length].
    rewrite <- Eg. apply glue_sorted; [done|done|]. eapply Forall_impl; [exact HGa|]. done.
  - cbn [app] in E. injection E as E1 E2. subst x fb. exists (L ++ glue (p, u) (glue (a, s) R)). apply Forall_app in HF as [F1 [F2 F3]%Forall_cons]. split_and!; [done| | | | |].
    + change ((base, 0) :: L ++ ?X) with (((base, 0) :: L) ++ X). apply sorted_app. split; [done|].
      split; [by apply glue_sorted|]. intros x y Hx Hy. pose proof (S4 x (p, u) Hx ltac:(left)) as Hg. unfold gap in *. cbn in Hg.
      assert (HP : Forall (fun y => p <= fst y) (glue (p, u) (glue (a, s) R))); [|rewrite Forall_forall in HP; specialize (HP y Hy); lia].
      apply glue_above; [done| |done]. eapply Forall_impl; [exact HGa|]. cbn. intros w Hw. lia.
    + apply Forall_app. split; [done|]. by apply glue_blk.
    + intros z. rewrite !covers_app, glue_covers, !covers_cons, HGc; [cbn; tauto|done|].
      rewrite Forall_forall in HGb |- *. intros y Hy. destruct (HGb y Hy). lia.
    + destruct Hbig as (y & Hy & Hsy). destruct (glue_big (p, u) (glue (a, s) R) y) as (y' & Hy' & Hsy'); [done| |by right|].
      { rewrite Forall_forall in HGb |- *. intros w Hw. destruct (HGb w Hw). lia. }
      exists y'. split; [apply elem_of_app; by right|lia].
    + rewrite !length_app. pose proof (glue_length (p, u) (glue (a, s) R)). pose proof (glue_length (a, s) R). cbn [length]. lia.
Qed.

(** The header of an allocated block. *)
Lemma alloc_header h fb ab c : uinv h fb ab -> c ∈ ab -> fst c ∉ ((base, 0) :: fb).*1 /\ covers ab (fst c).
Proof.
  intros I Hc. pose proof (ui_ab _ _ _ I) as HA. rewrite Forall_forall in HA.
  destruct (HA c Hc) as (C1 & C2 & C3). pose proof (covers_block ab c Hc C2) as Hcov. split; [|done].
  cbn. apply not_elem_of_cons. split; [lia|]. intros Hi. apply list_elem_of_fmap in Hi as (x & Ex & Hx).
  pose proof (ui_fb _ _ _ I) as HF. rewrite Forall_forall in HF. destruct (HF x Hx) as (_ & F2 & _).
  apply (ui_fa _ _ _ I (fst c)); [rewrite Ex; by apply covers_block|done].
Qed.

(** [free] gives the block back. *)
Lemma free_ok h fb a s ab : uinv h fb ((a, s) :: ab) -> (length fb < fuel)%nat ->
  exists h' fb', free fuel (a + 16) h = Ok (tt, h') /\ uinv h' fb' ab /\ brk h' = brk h /\
    (forall z, covers fb' z <-> covers fb z \/ a <= z < a + 16 * s) /\ (exists x, x ∈ fb' /\ s <= snd x) /\ (length fb' <= S (length fb))%nat /\
    forall x, x <> a -> x <> base -> x ∉ fb.*1 -> hm h' !! x = hm h !! x.
Proof.
  intros I Hf. destruct (place h fb a s ab I) as (L & p & u & R & E & Hbel & Ha & Hp & Hu & Hpa & HR).
  pose proof (ui_ab _ _ _ I) as HA. apply Forall_cons in HA as [(A1 & A2 & A3) HA]. cbn in A1, A2, A3. pose proof (ui_rng _ _ _ I) as [Hb Hbr].
  pose proof (ui_chain _ _ _ I) as HC. pose proof (ui_sorted _ _ _ I) as HS.
  assert (HN : NoDup (L ++ (p, u) :: R).*1) by (rewrite <- E; by apply sorted_NoDup).
  unfold free, sizeof_Header. rewrite u64_small by lia. replace (a + 16 - 16) with a by lia. mgo.
  assert (E1 : find_place fuel a (freep h) h = Ok (p, h)).
  { pose proof (ui_freep _ _ _ I) as Hfp. apply list_elem_of_fmap in Hfp as (x & -> & Hx). apply list_elem_of_lookup in Hx as [i Hi].
    rewrite E in Hi, HC, HS. pose proof (lookup_lt_Some _ _ _ Hi) as Hil. assert (Hlen : length (L ++ (p, u) :: R) = S (length fb)) by (by rewrite <- E).
    change p with (fst (p, u)).
    apply (find_place_spec (L ++ (p, u) :: R) a (length L) h HC HS) with
      (d := if decide (i <= length L)%nat then (length L - i)%nat else (length L + length (L ++ (p, u) :: R) - i)%nat) (i := i); try done.
    - intros y Hy. rewrite <- E in Hy. by injection Hy as <-.
    - by apply list_lookup_middle.
    - case_decide; lia.
    - case_decide; destruct Hbel; lia.
    - case_decide; destruct Hbel; lia. }
  rewrite (M_bind_Ok _ _ _ _ _ E1).
  destruct (inserted h fb a s ab L p u R I E Hu Hpa) as (fb' & E2 & S2 & B2 & C2 & Hbig & Hlen); [eapply Forall_impl; [exact HR|]; cbn; intros y Hy; lia|].
  pose proof (ui_asize _ _ _ I) as HZ. apply Forall_cons in HZ as [Hz HZ]. cbn in Hz. rewrite E in HC.
  destruct (free_insert L p u R a s h HC Hz Ha HN Hp Hu) as (h' & E3 & C3 & F3 & B3 & W3); try lia.
  { eapply Forall_impl; [apply (glue_blk h)|unfold blk_ok; intros y Hy; lia]; [done|].
    eapply Forall_impl; [exact HR|]. unfold blk_ok. cbn. intros y Hy. lia. }
  { eapply Forall_impl; [exact HR|]. cbn. intros y Hy. lia. }
  rewrite E2 in C3. exists h', fb'. split; [exact E3|].
  assert (Hother : forall x, x <> a -> x ∉ ((base, 0) :: fb).*1 -> hm h' !! x = hm h !! x).
  { intros x Hx Hn. apply W3; [|done]. intros ->. apply Hn. rewrite E, fmap_app. apply elem_of_app. right. left. }
  split_and!; [split|done|done|done|done|].
  - done.
  - done.
  - rewrite <- E2, F3, fmap_app. apply elem_of_app. right.
    apply (glue_in (p, u)).
  - unfold blk_ok in *. by rewrite B3.
  - unfold blk_ok in *. by rewrite B3.
  - rewrite Forall_forall in *. intros c Hc. rewrite <- (HZ c Hc). unfold geth. destruct (alloc_header h fb _ c I ltac:(by right)) as [Hh _].
    rewrite Hother; [done| |done]. intros Eq. pose proof (HA c Hc) as (_ & Hc2 & _).
    apply (proj1 (ui_aa _ _ _ I) (fst c)); [lia|by apply covers_block].
  - intros z Hz1 Hz2. apply C2 in Hz1 as [Hz1|Hz1].
    + apply (ui_fa _ _ _ I z Hz1). apply covers_cons. by right.
    + by apply (proj1 (ui_aa _ _ _ I) z).
  - apply (ui_aa _ _ _ I).
  - by rewrite B3.
  - intros x H1 H2 H3. apply Hother; [done|]. cbn. by apply not_elem_of_cons.
Qed.
End umalloc.
