(* ===== verification/UmallocThms.v ===== *)
(** * [malloc] and [free] (user/umalloc.c) *)

From S2P Require Import Prelude Umalloc UmallocSpec.

Implicit Types (m : gmap Z hdr) (B L R fb ab : list (Z * Z)).

Section umalloc.
Context (base : Z) (grant : Z -> Z -> bool) (fuel : nat).
Context (Hgrant : forall b n, grant b n = true -> 0 <= n -> b + n <= 2 ^ 31).
Notation uinv := (uinv base).
Notation blk_ok := (blk_ok base).

(** ** Taking a block *)

(** The free list without the last [n] units of a block. *)
Definition cut (p s n : Z) : list (Z * Z) := if s =? n then [] else [(p, s - n)].

Lemma cut_covers p s n z : 0 <= n <= s -> covers [(p, s)] z <-> covers (cut p s n) z \/ p + 16 * (s - n) <= z < p + 16 * (s - n) + 16 * n.
Proof.
  intros Hn. unfold cut. destruct (Z.eqb_spec s n); rewrite !covers_cons; pose proof (covers_nil z); cbn.
  - subst. replace (p + 16 * (n - n)) with p by lia. tauto.
  - split; [intros [|]; [|tauto]|intros [[|]|]; [|tauto|]]; lia.
Qed.

Lemma cut_sorted L pv R p s n : sorted (L ++ pv :: (p, s) :: R) -> 0 < n <= s -> sorted (L ++ pv :: cut p s n ++ R).
Proof.
  intros HS Hn. rewrite !(cons_middle pv), !app_assoc in *. apply sorted_app in HS as (S1 & (S2 & S3 & S4) & S5).
  rewrite <- (app_assoc (L ++ [pv])). apply sorted_app. split; [done|].
  assert (Hg : forall x y, fst y = p -> gap x (p, s) -> gap x y) by (unfold gap; cbn; intros; lia).
  unfold cut. destruct (s =? n) eqn:E; cbn [app]; split.
  - done.
  - intros x y Hx Hy. apply S5; [done|by right].
  - cbn [sorted]. split_and!; [|cbn; lia|done]. eapply Forall_impl; [exact S2|]. unfold gap. cbn. intros; lia.
  - intros x y Hx Hy. apply elem_of_cons in Hy as [->|Hy]; [apply Hg; [done|]; apply S5; [done|left]|apply S5; [done|by right]].
Qed.

(** What the rest of the list looks like to the block that is taken. *)
Lemma cut_side L pv R p s n y : sorted (L ++ pv :: (p, s) :: R) -> 0 < n <= s -> y ∈ L ++ pv :: cut p s n ++ R ->
  fst y + 16 * snd y <= p + 16 * (s - n) \/ p + 16 * s <= fst y.
Proof.
  intros HS Hn Hy. rewrite (cons_middle pv), app_assoc in HS. apply sorted_app in HS as (_ & (S2 & _) & S5).
  rewrite Forall_forall in S2. rewrite (cons_middle pv), app_assoc, !elem_of_app in Hy.
  destruct Hy as [Hy|[Hy|Hy]].
  - left. pose proof (S5 y (p, s) ltac:(by rewrite elem_of_app) ltac:(left)) as Hg. unfold gap in Hg. cbn in Hg. lia.
  - left. unfold cut in Hy. destruct (s =? n); [by apply not_elem_of_nil in Hy|]. apply list_elem_of_singleton in Hy as ->. cbn. lia.
  - right. pose proof (S2 y Hy) as Hg. unfold gap in Hg. cbn in Hg. lia.
Qed.

(** The links after the cut. *)
Lemma cut_chain m L pv sv p s R n : chain m (L ++ (pv, sv) :: (p, s) :: R) base -> sorted (L ++ (pv, sv) :: (p, s) :: R) -> 0 < n <= s ->
  let a := p + 16 * (s - n) in
  let m' := if s =? n then <[pv := mkhdr (hda base R) sv]> m
            else <[a := mkhdr (h_ptr (geth (<[p := mkhdr (hda base R) (s - n)]> m) a)) n]> (<[p := mkhdr (hda base R) (s - n)]> m) in
  chain m' (L ++ (pv, sv) :: cut p s n ++ R) base /\ h_size (geth m' a) = n.
Proof.
  intros HC HS Hn a m'. pose proof (sorted_NoDup _ HS) as HN.
  assert (Hside : forall y, y ∈ L ++ (pv, sv) :: cut p s n ++ R -> fst y + 16 * snd y <= a \/ p + 16 * s <= fst y) by (intros y; by apply cut_side).
  pose proof (cut_sorted L (pv, sv) R p s n HS Hn) as HS'.
  apply chain_app in HC as [HC1 (HC2 & HC3 & HC4)]. cbn [hda] in HC1, HC2.
  rewrite fmap_app in HN. cbn in HN. apply NoDup_app in HN as (HN1 & HN2 & HN3). apply NoDup_cons in HN3 as [HN3 HN4]. apply NoDup_cons in HN4 as [HN4 HN5].
  apply not_elem_of_cons in HN3 as [Hne HN3].
  assert (HpL : p ∉ L.*1 /\ pv ∉ L.*1) by (split; intros Hi; apply (HN2 _ Hi); [right; left|left]). destruct HpL as [HpL HpvL].
  unfold m', cut in *. destruct (Z.eqb_spec s n) as [->|Hsn]; cbn [app] in *.
  - split; [|unfold a; replace (p + 16 * (n - n)) with p by lia; rewrite geth_ne by done; by rewrite HC3].
    apply chain_app. cbn [hda]. split; [by apply chain_upd|]. split; [by rewrite geth_eq|by apply chain_upd].
  - assert (Ha : a ∉ (L ++ (pv, sv) :: (p, s - n) :: R).*1).
    { intros Hi. apply list_elem_of_fmap in Hi as (y & Ey & Hy). pose proof (sorted_nonneg _ _ HS' Hy).
      rewrite (cons_middle (pv, sv)), app_assoc in HS, Hy. apply sorted_app in HS as (_ & (S2 & _) & S5). rewrite Forall_forall in S2.
      apply elem_of_app in Hy as [Hy|[->|Hy]%elem_of_cons].
      - pose proof (S5 y (p, s) Hy ltac:(left)) as Hg. unfold gap in Hg. cbn in Hg. unfold a in *. lia.
      - cbn in Ey. unfold a in *. lia.
      - pose proof (S2 y Hy) as Hg. unfold gap in Hg. cbn in Hg. unfold a in *. lia. }
    split; [|by rewrite geth_eq]. apply chain_upd; [done|]. apply chain_app. cbn [hda].
    split; [by apply chain_upd|]. split; [rewrite geth_ne by done; by rewrite HC2|]. split; [by rewrite geth_eq|by apply chain_upd].
Qed.

(** The new list, and what it covers. *)
Lemma cut_list fb L pv sv p s R n : (base, 0) :: fb = L ++ (pv, sv) :: (p, s) :: R -> 0 < n <= s ->
  exists fb', (base, 0) :: fb' = L ++ (pv, sv) :: cut p s n ++ R /\ (p, s) ∈ fb /\
    (forall y, y ∈ fb' -> y ∈ fb \/ (y = (p, s - n) /\ n < s)) /\
    (forall z, covers fb z <-> covers fb' z \/ p + 16 * (s - n) <= z < p + 16 * (s - n) + 16 * n) /\ (length fb' <= length fb)%nat.
Proof.
  intros E Hn.
  assert (Hcut : forall y, y ∈ cut p s n -> y = (p, s - n) /\ n < s).
  { unfold cut. destruct (Z.eqb_spec s n); [by intros y Hy%not_elem_of_nil|]. intros y Hy%list_elem_of_singleton. split; [done|lia]. }
  assert (Hcov : forall L0 z, covers (L0 ++ (p, s) :: R) z <-> covers (L0 ++ cut p s n ++ R) z \/ p + 16 * (s - n) <= z < p + 16 * (s - n) + 16 * n).
  { intros L0 z. change ((p, s) :: R) with ([(p, s)] ++ R). pose proof (cut_covers p s n z ltac:(lia)). rewrite !covers_app. tauto. }
  assert (Hl : (length (cut p s n) <= 1)%nat) by (unfold cut; destruct (s =? n); cbn; lia).
  destruct L as [|x L].
  - cbn [app] in E. injection E as E1 E2 E3. subst pv sv fb. exists (cut p s n ++ R). split_and!; [done|left| |apply (Hcov [])|cbn [length]; rewrite length_app; lia].
    intros y [Hy|Hy]%elem_of_app; [right; auto|left; by right].
  - cbn [app] in E. injection E as E1 E2. subst x fb. exists (L ++ (pv, sv) :: cut p s n ++ R).
    split_and!; [done|apply elem_of_app; right; right; left| | |rewrite !length_app; cbn [length]; rewrite length_app; lia].
    + intros y. rewrite !elem_of_app, !elem_of_cons, !elem_of_app. intros [Hy|[Hy|[Hy|Hy]]]; [tauto|tauto|right; auto|tauto].
    + intros z. pose proof (Hcov (L ++ [(pv, sv)]) z) as H. by rewrite <- !app_assoc in H.
Qed.

(** The run of [alloc_from]. *)
Lemma alloc_from_run h L pv sv p s R n : chain (hm h) (L ++ (pv, sv) :: (p, s) :: R) base -> 0 < n <= s -> 0 <= p -> p + 16 * s <= 2 ^ 32 ->
  let a := p + 16 * (s - n) in
  alloc_from n pv p s h = Ok (a + 16, mkheap (if s =? n then <[pv := mkhdr (hda base R) sv]> (hm h)
    else <[a := mkhdr (h_ptr (geth (<[p := mkhdr (hda base R) (s - n)]> (hm h)) a)) n]> (<[p := mkhdr (hda base R) (s - n)]> (hm h))) pv (brk h)).
Proof.
  intros HC Hn Hp Hb a. apply chain_app in HC as [_ (HC2 & HC3 & _)]. cbn [hda] in HC2. unfold alloc_from.
  destruct (Z.eqb_spec s n) as [->|Hsn]; unfold s_ptr, set_ptr, set_size, set_freep; mgo; cbn [hm freep brk].
  - rewrite HC3, HC2. cbn [h_ptr h_size]. rewrite padd_small by lia. unfold a. replace (p + 16 * (n - n) + 16) with (p + 16 * 1) by lia. done.
  - rewrite HC3. cbn [h_ptr h_size]. rewrite !(u32_small (s - n)) by lia. rewrite !(padd_small p (s - n)) by lia. fold a.
    rewrite padd_small by (unfold a; lia). done.
Qed.

Lemma alloc_from_ok h fb ab L pv sv p s R n :
  uinv h fb ab -> (base, 0) :: fb = L ++ (pv, sv) :: (p, s) :: R -> 0 < n <= s ->
  let a := p + 16 * (s - n) in
  exists h' fb', alloc_from n pv p s h = Ok (a + 16, h') /\ uinv h' fb' ((a, n) :: ab) /\ brk h' = brk h /\
    (forall z, covers fb z <-> covers fb' z \/ a <= z < a + 16 * n) /\ (length fb' <= length fb)%nat /\
    forall x, x <> a -> x <> base -> x ∉ fb.*1 -> hm h' !! x = hm h !! x.
Proof.
  intros I E Hn a. pose proof (ui_chain _ _ _ _ I) as HC. pose proof (ui_sorted _ _ _ _ I) as HS. rewrite E in HC, HS.
  pose proof (ui_fb _ _ _ _ I) as HF. rewrite Forall_forall in HF. pose proof (ui_rng _ _ _ _ I) as [Hb Hbr].
  destruct (cut_chain _ _ _ _ _ _ _ _ HC HS Hn) as [HC' Hsz]. fold a in HC', Hsz. pose proof (cut_sorted _ _ _ _ _ _ HS Hn) as HS'.
  destruct (cut_list fb L pv sv p s R n E Hn) as (fb' & E' & Hp & Hin & C' & Hlen). fold a in C'.
  destruct (HF _ Hp) as (P1 & P2 & P3). cbn in P1, P2, P3.
  pose proof (alloc_from_run h L pv sv p s R n HC Hn ltac:(lia) ltac:(lia)) as Er. fold a in Er. cbv zeta in Er. set (m' := if s =? n then _ else _) in *.
  assert (Hpv : pv ∈ ((base, 0) :: fb).*1) by (rewrite E, fmap_app; apply elem_of_app; right; left).
  assert (Hother : forall x, x <> a -> x ∉ ((base, 0) :: fb).*1 -> m' !! x = hm h !! x).
  { intros x Hx Hn'. assert (x <> pv) by (by intros ->). assert (x <> p).
    { intros ->. apply Hn'. right. apply list_elem_of_fmap. by exists (p, s). }
    unfold m'. destruct (s =? n); rewrite ?lookup_insert_ne by done; done. }
  assert (Hside : forall z, covers fb' z -> ~ (a <= z < a + 16 * n)).
  { intros z (b & t & Hbt & Hz) Hza. destruct (cut_side L (pv, sv) R p s n (b, t) HS Hn) as [Hs|Hs]; cbn in *; [rewrite <- E'; by right|lia|unfold a in *; lia]. }
  exists (mkheap m' pv (brk h)), fb'. split; [done|]. cbn [hm freep brk].
  split_and!; [split; cbn [hm freep brk]|done|done|done|].
  - by rewrite E'.
  - by rewrite E'.
  - rewrite E', fmap_app. apply elem_of_app. right. left.
  - rewrite Forall_forall. intros y Hy. destruct (Hin y Hy) as [Hy'|[-> Hlt]]; [by apply HF|]. unfold UmallocSpec.blk_ok. cbn. lia.
  - constructor; [unfold UmallocSpec.blk_ok; cbn; unfold a; lia|]. apply (ui_ab _ _ _ _ I).
  - constructor; [done|]. pose proof (ui_asize _ _ _ _ I) as HZ. rewrite Forall_forall in *. intros c Hc. rewrite <- (HZ c Hc). unfold geth.
    destruct (alloc_header base h fb ab c I Hc) as [Hh Hcov]. rewrite Hother; [done| |done]. intros Eq.
    apply (ui_fa _ _ _ _ I (fst c)); [|done]. apply C'. right. lia.
  - intros z Hz Hz2. apply covers_cons in Hz2 as [Hz2|Hz2]; [by apply (Hside z)|]. apply (ui_fa _ _ _ _ I z); [|done]. apply C'. by left.
  - split; [|apply (ui_aa _ _ _ _ I)]. intros z Hz. apply (ui_fa _ _ _ _ I). apply C'. by right.
  - done.
  - intros x H1 H2 H3. apply Hother; [done|]. cbn. by apply not_elem_of_cons.
Qed.

(** ** More memory *)

(** The bytes [morecore] asks for. *)
Definition more (nu : Z) : Z := 16 * Z.max nu 4096.

Lemma morecore_ok h fb ab nu :
  uinv h fb ab -> 0 < nu -> more nu < 2 ^ 31 -> (length fb < fuel)%nat ->
  (morecore grant fuel nu h = Ok (0, h) /\ grant (brk h) (more nu) = false) \/
  exists h' fb', morecore grant fuel nu h = Ok (freep h', h') /\ uinv h' fb' ab /\ brk h' = brk h + more nu /\
    (forall z, covers fb' z <-> covers fb z \/ brk h <= z < brk h') /\ (exists x, x ∈ fb' /\ nu <= snd x) /\ (length fb' <= S (length fb))%nat /\
    forall x, x <> brk h -> x <> base -> x ∉ fb.*1 -> hm h' !! x = hm h !! x.
Proof.
  intros I Hnu Hm Hf. pose proof (ui_rng _ _ _ _ I) as [Hb Hbr]. unfold morecore, sbrk, sizeof_Header. set (n := if nu <? 4096 then 4096 else nu).
  assert (Hn : n = Z.max nu 4096) by (unfold n; destruct (Z.ltb_spec nu 4096); lia). unfold more in *. rewrite <- Hn in *. clearbody n.
  rewrite s32_small by lia. rewrite (Z.mul_comm n 16). mgo. destruct (grant (brk h) (16 * n)) eqn:Eg; [right|by left].
  pose proof (Hgrant _ _ Eg ltac:(lia)) as Hg. unfold set_size. mgo. cbn [hm freep brk]. rewrite (s32_small (brk h)), (u64_small (brk h)) by lia.
  destruct (Z.eqb_spec (brk h) (u64 (-1))) as [e|]; [change (u64 (-1)) with (2 ^ 64 - 1) in e; lia|]. mgo. cbn [hm freep brk].
  set (h1 := mkheap _ (freep h) (brk h + 16 * n)).
  assert (Hfar : forall B, Forall (blk_ok h) B -> brk h ∉ B.*1 /\ forall z, covers B z -> z < brk h).
  { intros B HB. rewrite Forall_forall in HB. split.
    - intros Hi. apply list_elem_of_fmap in Hi as (x & Ex & Hx). destruct (HB x Hx) as (_ & ? & ?). lia.
    - intros z (a & t & Ha & Hz). destruct (HB _ Ha) as (_ & _ & ?). cbn in *. lia. }
  destruct (Hfar fb (ui_fb _ _ _ _ I)) as [Ff1 Ff2]. destruct (Hfar ab (ui_ab _ _ _ _ I)) as [Fa1 Fa2].
  assert (Hmono : forall B, Forall (blk_ok h) B -> Forall (blk_ok h1) B).
  { intros B HB. eapply Forall_impl; [exact HB|]. unfold UmallocSpec.blk_ok. cbn. intros x Hx. lia. }
  assert (I1 : uinv h1 fb ((brk h, n) :: ab)).
  { split; unfold h1; cbn [hm freep brk].
    - apply chain_upd; [|apply (ui_chain _ _ _ _ I)]. cbn. apply not_elem_of_cons. split; [lia|done].
    - apply (ui_sorted _ _ _ _ I).
    - apply (ui_freep _ _ _ _ I).
    - apply (Hmono fb), (ui_fb _ _ _ _ I).
    - constructor; [unfold UmallocSpec.blk_ok; cbn; lia|apply (Hmono ab), (ui_ab _ _ _ _ I)].
    - constructor; [cbn; by rewrite geth_eq|]. pose proof (ui_asize _ _ _ _ I) as HZ. rewrite Forall_forall in *. intros c Hc. rewrite geth_ne; [auto|].
      intros Eq. apply Fa1. rewrite Eq. by apply list_elem_of_fmap_2.
    - intros z Hz Hz2. apply covers_cons in Hz2 as [Hz2|Hz2]; [apply Ff2 in Hz; cbn in Hz2; lia|by apply (ui_fa _ _ _ _ I z)].
    - split; [|apply (ui_aa _ _ _ _ I)]. intros z Hz Hz2. apply Fa2 in Hz2. lia.
    - lia. }
  destruct (free_ok base fuel h1 fb (brk h) n ab I1 Hf) as (h' & fb' & E' & I' & B' & C' & Hbig & Hlen & W').
  rewrite u64_small by lia. exists h', fb'. rewrite (M_bind_Ok _ _ _ _ _ E'). split_and!; try done.
  - intros z. rewrite C', B'. cbn. tauto.
  - destruct Hbig as (x & Hx & Hs). exists x. split; [done|lia].
  - intros x H1 H2 H3. rewrite W' by done. unfold h1. cbn [hm]. by rewrite lookup_insert_ne.
Qed.

(** ** The search of [malloc] *)

Notation ring fb := ((base, 0) :: fb).
Definition found_in fb n (c : M heap Z) h : Prop :=
  exists L pv sv p s R, ring fb = L ++ (pv, sv) :: (p, s) :: R /\ n <= s /\ c h = alloc_from n pv p s h.

Lemma next_index (i n : nat) : exists i', (S i <= n /\ i' = S i \/ n < S i /\ i' = 0)%nat.
Proof. destruct (decide (S i <= n)%nat); [exists (S i); lia|exists 0%nat; lia]. Qed.

Lemma adjacent B i x y : B !! i = Some y -> B !! S i = Some x -> B = take i B ++ y :: x :: drop (S (S i)) B.
Proof. intros Hy Hx. rewrite <- (drop_S B x (S i) Hx). symmetry. by apply take_drop_middle. Qed.

Lemma scan h fb ab n j f : uinv h fb ab -> 0 < n -> ring fb !! j = Some f -> fst f = freep h ->
  forall r i x y fuel', ring fb !! i = Some x -> ring fb !! (if decide (i = 0) then length fb else i - 1)%nat = Some y ->
  (i + r = j \/ i + r = j + S (length fb))%nat -> (r <= length fb)%nat -> (r < fuel')%nat ->
  found_in fb n (malloc_loop grant fuel fuel' n (fst y) (fst x)) h \/
  ((forall t w, (t <= r)%nat -> ring fb !! (if decide (i + t <= length fb) then i + t else i + t - S (length fb))%nat = Some w -> snd w < n) /\
   malloc_loop grant fuel fuel' n (fst y) (fst x) h =
     (p ← morecore grant fuel n; if p =? 0 then mret 0 else q ← s_ptr p; malloc_loop grant fuel (fuel' - S r) n p q) h).
Proof.
  intros I Hn Hj Hf r. pose proof (lookup_lt_Some _ _ _ Hj) as Hjl. cbn [length] in Hjl. pose proof (ui_chain _ _ _ _ I) as HC. pose proof (ui_sorted _ _ _ _ I) as HS.
  induction r as [|r IH]; intros i [p s] y fuel' Hi Hy Hr Hlr Hfu; (destruct fuel' as [|fuel']; [lia|]); cbn [malloc_loop fst];
    unfold s_size; pose proof (chain_lookup _ _ _ _ _ _ HC Hi) as Hh; pose proof (lookup_lt_Some _ _ _ Hi) as Hil; cbn [length] in Hil;
    (destruct (Z.leb_spec n s) as [Hle|Hgt];
     [left; destruct i as [|i]; [injection Hi as <- <-; lia|]; destruct y as [pv sv]; cbn [decide] in Hy;
      rewrite decide_False in Hy by lia; replace (S i - 1)%nat with i in Hy by lia;
      exists (take i (ring fb)), pv, sv, p, s, (drop (S (S i)) (ring fb)); split_and!; [by apply adjacent|done|];
      mgo; rewrite Hh; cbn [h_size]; destruct (Z.leb_spec n s); [done|lia]|]).
  - right. assert (i = j) as -> by lia. rewrite Hi in Hj. injection Hj as <-. cbn in Hf. split.
    + intros t w Ht Hw. assert (t = 0)%nat as -> by lia. rewrite Nat.add_0_r, decide_True, Hi in Hw by lia. by injection Hw as <-.
    + mgo. rewrite Hh. cbn [h_size]. destruct (Z.leb_spec n s); [lia|]. mgo. rewrite Hf, Z.eqb_refl. replace (S fuel' - 1)%nat with fuel' by lia. done.
  - assert (Hne : (p =? freep h) = false).
    { apply Z.eqb_neq. intros Eq. assert (i = j); [|lia]. apply (NoDup_lookup (ring fb).*1 i j p (sorted_NoDup _ HS)).
      - by rewrite list_lookup_fmap, Hi.
      - rewrite list_lookup_fmap, Hj. cbn. by rewrite Hf, Eq. }
    destruct (next_index i (length fb)) as (i' & Hi').
    destruct (lookup_lt_is_Some_2 (ring fb) i') as [x' Hx']; [cbn [length]; lia|].
    assert (Estep : malloc_loop grant fuel (S fuel') n (fst y) p h = malloc_loop grant fuel fuel' n p (fst x') h).
    { cbn [malloc_loop]. unfold s_size, s_ptr. mgo. rewrite Hh. cbn [h_size h_ptr]. destruct (Z.leb_spec n s); [lia|]. mgo. rewrite Hne.
      mgo. rewrite Hh. cbn [h_ptr]. f_equal. destruct Hi' as [[Hd ->]|[Hd ->]].
      - rewrite Hx'. by destruct x'.
      - rewrite lookup_ge_None_2 by (cbn [length]; lia). by injection Hx' as <-. }
    cbn [malloc_loop] in Estep. unfold s_size in Estep.
    destruct (IH i' x' (p, s) fuel' Hx') as [(L & pv & sv & p1 & s1 & R & E1 & E2 & E3)|[Hall Eq]]; try lia.
    + destruct Hi' as [[Hd ->]|[Hd ->]]; [rewrite decide_False by lia; by replace (S i - 1)%nat with i by lia|].
      rewrite decide_True by done. by replace (length fb) with i by lia.
    + left. exists L, pv, sv, p1, s1, R. split_and!; [done|done|]. by rewrite Estep.
    + right. split.
      * intros [|t] w Ht Hw; [rewrite Nat.add_0_r, decide_True, Hi in Hw by lia; by injection Hw as <-|].
        apply (Hall t w); [lia|]. rewrite <- Hw. f_equal. destruct Hi' as [[Hd ->]|[Hd ->]]; repeat case_decide; lia.
      * rewrite Estep. cbn [fst] in Eq. rewrite Eq. done.
Qed.

(** Once around the ring. *)
Lemma scan_all h fb ab n fuel' : uinv h fb ab -> 0 < n -> (length fb < fuel')%nat ->
  let c := q ← s_ptr (freep h); malloc_loop grant fuel fuel' n (freep h) q in
  found_in fb n c h \/ ((forall x, x ∈ fb -> snd x < n) /\
    c h = (p ← morecore grant fuel n; if p =? 0 then mret 0 else q ← s_ptr p; malloc_loop grant fuel (fuel' - S (length fb)) n p q) h).
Proof.
  intros I Hn Hfu c. pose proof (ui_chain _ _ _ _ I) as HC. pose proof (ui_freep _ _ _ _ I) as Hf.
  apply list_elem_of_fmap in Hf as ([f s] & Ef & Hf). apply list_elem_of_lookup in Hf as [j Hj]. pose proof (lookup_lt_Some _ _ _ Hj) as Hjl. cbn [length] in Hjl.
  destruct (next_index j (length fb)) as (i & Hi).
  destruct (lookup_lt_is_Some_2 (ring fb) i) as [x Hx]; [cbn [length]; lia|].
  assert (Ec : c h = malloc_loop grant fuel fuel' n (fst (f, s)) (fst x) h).
  { unfold c, s_ptr. mgo. rewrite Ef. cbn [fst]. rewrite (chain_lookup _ _ _ _ _ _ HC Hj). cbn [h_ptr]. f_equal. destruct Hi as [[Hd ->]|[Hd ->]].
    - rewrite Hx. by destruct x.
    - rewrite lookup_ge_None_2 by (cbn [length]; lia). by injection Hx as <-. }
  destruct (scan h fb ab n j (f, s) I Hn Hj (eq_sym Ef) (length fb) i x (f, s) fuel' Hx) as [(L & pv & sv & p1 & s1 & R & E1 & E2 & E3)|[Hall Eq]]; try lia.
  - destruct Hi as [[Hd ->]|[Hd ->]]; [rewrite decide_False by lia; by replace (S j - 1)%nat with j by lia|].
    rewrite decide_True by done. by replace (length fb) with j by lia.
  - left. exists L, pv, sv, p1, s1, R. split_and!; [done|done|]. by rewrite Ec.
  - right. split; [|by rewrite Ec].
    intros w Hw. apply list_elem_of_lookup in Hw as [k Hk]. pose proof (lookup_lt_Some _ _ _ Hk) as Hkl.
    apply (Hall (if decide (i <= S k)%nat then S k - i else S k + S (length fb) - i)%nat).
    + case_decide; lia.
    + rewrite <- Hk. change (fb !! k) with (ring fb !! S k). f_equal. repeat case_decide; lia.
Qed.

(** ** The theorems *)

Lemma freep_ne0 h fb ab : uinv h fb ab -> freep h <> 0.
Proof.
  intros I. pose proof (ui_rng _ _ _ _ I) as [Hb _]. pose proof (ui_freep _ _ _ _ I) as Hf. cbn in Hf. apply elem_of_cons in Hf as [->|Hf]; [lia|].
  apply list_elem_of_fmap in Hf as (x & -> & Hx). pose proof (ui_fb _ _ _ _ I) as HF. rewrite Forall_forall in HF. destruct (HF x Hx). lia.
Qed.

(** Allocated memory is left alone. *)
Definition undisturbed ab h h' : Prop := forall x, covers ab x -> hm h' !! x = hm h !! x.

Lemma undisturbed_intro h fb ab0 ab h' a : uinv h fb ab0 -> (forall z, covers ab z -> covers ab0 z /\ z <> a) ->
  (forall x, x <> a -> x <> base -> x ∉ fb.*1 -> hm h' !! x = hm h !! x) -> undisturbed ab h h'.
Proof.
  intros I Ha W x Hx0. destruct (Ha x Hx0) as [Hx Hxa]. pose proof Hx as (b & t & Hb & Hbx). pose proof (ui_ab _ _ _ _ I) as HA. rewrite Forall_forall in HA. destruct (HA _ Hb) as (A1 & _). cbn in A1.
  apply W; [done|lia|]. intros Hi. apply list_elem_of_fmap in Hi as (y & -> & Hy).
  pose proof (ui_fb _ _ _ _ I) as HF. rewrite Forall_forall in HF. destruct (HF _ Hy) as (_ & F2 & _).
  apply (ui_fa _ _ _ _ I (fst y)); [by apply covers_block|done].
Qed.

(** The heap of a program that has not called [malloc] yet, or the invariant. *)
Definition heap_ok h fb ab : Prop :=
  uinv h fb ab \/ (freep h = 0 /\ fb = [] /\ ab = [] /\ 0 < base /\ base + 16 <= brk h <= 2 ^ 31).

Definition units (nbytes : Z) : Z := (nbytes + 15) / 16 + 1.

(** What a successful search gives. *)
Definition got_block h fb ab n (r : Z) h' (len : nat) : Prop :=
  exists fb', uinv h' fb' ((r - 16, n) :: ab) /\ (length fb' <= len)%nat /\
    (forall z, covers fb z \/ brk h <= z < brk h' <-> covers fb' z \/ r - 16 <= z < r - 16 + 16 * n).

Lemma found_ok h fb ab n c : uinv h fb ab -> 0 < n -> found_in fb n c h ->
  exists r h', c h = Ok (r, h') /\ r <> 0 /\ brk h' = brk h /\ got_block h fb ab n r h' (length fb) /\ undisturbed ab h h'.
Proof.
  intros I Hn (L & pv & sv & p & s & R & E & Hs & Ec). rewrite Ec.
  destruct (alloc_from_ok h fb ab L pv sv p s R n I E ltac:(lia)) as (h' & fb' & E' & I' & B' & C' & Hlen & W').
  pose proof (ui_ab _ _ _ _ I') as HA. apply Forall_cons in HA as [(A1 & _) _]. cbn in A1. pose proof (ui_rng _ _ _ _ I) as [Hb _].
  eexists _, h'. split; [exact E'|]. split_and!; [lia|done| |].
  - exists fb'. replace (p + 16 * (s - n) + 16 - 16) with (p + 16 * (s - n)) by lia. split_and!; [done|lia|].
    intros z. rewrite B', C'. intuition lia.
  - eapply undisturbed_intro; [exact I| |exact W']. intros z Hz. split; [done|]. intros ->. apply (ui_fa _ _ _ _ I (p + 16 * (s - n))); [|exact Hz]. apply C'. right. lia.
Qed.

Lemma malloc_ok h fb ab n : uinv h fb ab -> 0 < n -> more n < 2 ^ 31 -> (2 * length fb + 2 < fuel)%nat ->
  exists r h', (q ← s_ptr (freep h); malloc_loop grant fuel fuel n (freep h) q) h = Ok (r, h') /\ undisturbed ab h h' /\
    ((r = 0 /\ h' = h /\ grant (brk h) (more n) = false /\ forall x, x ∈ fb -> snd x < n) \/
     (r <> 0 /\ (brk h' = brk h \/ brk h' = brk h + more n) /\ got_block h fb ab n r h' (S (length fb)))).
Proof.
  intros I Hn Hm Hf. destruct (scan_all h fb ab n fuel I Hn ltac:(lia)) as [Hfound|[Hall Ec]].
  { destruct (found_ok h fb ab n _ I Hn Hfound) as (r & h' & E & Hr & B & (fb' & I' & Hl & C) & U). exists r, h'. split; [done|]. split; [done|]. right.
    split; [done|]. split; [by left|]. exists fb'. split_and!; [done|lia|done]. }
  rewrite Ec. destruct (morecore_ok h fb ab n I Hn Hm ltac:(lia)) as [[E Hg]|(h1 & fb1 & E & I1 & B1 & C1 & Hbig & Hlen & W1)].
  { rewrite (M_bind_Ok _ _ _ _ _ E). exists 0, h. split; [done|]. split; [by intros x Hx|]. by left. }
  rewrite (M_bind_Ok _ _ _ _ _ E). pose proof (freep_ne0 _ _ _ I1) as Hne. destruct (Z.eqb_spec (freep h1) 0); [done|].
  destruct (scan_all h1 fb1 ab n (fuel - S (length fb)) I1 Hn ltac:(lia)) as [Hfound|[Hall1 _]].
  2:{ exfalso. destruct Hbig as (x & Hx & Hs). specialize (Hall1 x Hx). lia. }
  destruct (found_ok h1 fb1 ab n _ I1 Hn Hfound) as (r & h' & E' & Hr & B & (fb' & I' & Hlen' & C') & U). exists r, h'. split; [done|]. split.
  - intros x Hx. rewrite (U x Hx). apply (undisturbed_intro h fb ab ab h1 (brk h) I); [|done|done].
    intros z Hz. split; [done|]. intros ->. destruct Hz as (b & t & Hb & Hz). pose proof (ui_ab _ _ _ _ I) as HA. rewrite Forall_forall in HA. destruct (HA _ Hb) as (_ & _ & A3). cbn in A3. lia.
  - right. split; [done|]. split; [right; by rewrite B|]. exists fb'. split_and!; [done| |].
    + lia.
    + intros z. rewrite <- C', C1, B. split; [tauto|]. intros [?|?]; [tauto|lia].
Qed.

(** C29: [malloc] returns a block of the size asked for that was free or is new
    memory, or 0, and then only when no free block is large enough and the
    kernel gives no more memory.  The free blocks and the new block make up
    just the memory that was free before or is new, they overlap no allocated
    block, and no allocated block is written.  (The bound on [nbytes] is the
    largest request for which [morecore] does not pass a negative number to
    [sbrk].) *)
Theorem malloc_correct h fb ab nbytes
  (HI : heap_ok h fb ab) (Hn : 0 <= nbytes <= 2 ^ 31 - 32) (Hf : (2 * length fb + 2 < fuel)%nat) :
  exists r h', malloc base grant fuel nbytes h = Ok (r, h') /\ undisturbed ab h h' /\ nbytes <= 16 * (units nbytes - 1) < nbytes + 16 /\
    ((r = 0 /\ uinv h' fb ab /\ brk h' = brk h /\ grant (brk h) (more (units nbytes)) = false /\ forall x, x ∈ fb -> snd x < units nbytes) \/
     (r <> 0 /\ (brk h' = brk h \/ brk h' = brk h + more (units nbytes)) /\ got_block h fb ab (units nbytes) r h' (S (length fb)))).
Proof.
  assert (Hu : nbytes <= 16 * (units nbytes - 1) < nbytes + 16 /\ 0 < units nbytes).
  { unfold units. pose proof (Z.div_mod (nbytes + 15) 16 ltac:(done)). pose proof (Z.mod_pos_bound (nbytes + 15) 16 eq_refl). lia. }
  unfold malloc, sizeof_Header. replace (nbytes + 16 - 1) with (nbytes + 15) by lia. fold (units nbytes). set (n := units nbytes) in *.
  rewrite (u32_small n) by lia. assert (Hm : more n < 2 ^ 31) by (unfold more; lia). mgo.
  destruct HI as [I|(F0 & -> & -> & Hb & Hbr)].
  - pose proof (freep_ne0 _ _ _ I) as Hne. destruct (Z.eqb_spec (freep h) 0); [done|]. mgo.
    destruct (malloc_ok h fb ab n I ltac:(lia) Hm Hf) as (r & h' & E & U & R). exists r, h'. split; [exact E|]. split_and!; [done|lia|lia|].
    destruct R as [(-> & -> & Hg & Hall)|R]; [left|by right]. by split_and!.
  - rewrite F0. cbn [Z.eqb]. unfold set_ptr, set_freep, set_size. mgo. cbn [hm freep brk]. set (h1 := mkheap _ base (brk h)).
    assert (I1 : uinv h1 [] []).
    { split; unfold h1; cbn [hm freep brk]; try done; try lia.
      - cbn. by rewrite !geth_eq.
      - cbn. apply list_elem_of_singleton. done.
      - intros z Hz. by apply covers_nil in Hz. }
    destruct (malloc_ok h1 [] [] n I1 ltac:(lia) Hm Hf) as (r & h' & E & U & R). exists r, h'. split; [exact E|]. split_and!; [|lia|lia|].
    + intros x Hx. by apply covers_nil in Hx.
    + destruct R as [(-> & -> & Hg & Hall)|R]; [left|by right]. by split_and!.
Qed.

(** C30: [free] of a block [malloc] returned: the block is free again, merged with
    the free blocks next to it (no two free blocks touch), and nothing else
    changes; it always returns. *)
Theorem free_correct h fb a s ab (HI : uinv h fb ((a, s) :: ab)) (Hf : (length fb < fuel)%nat) :
  exists h' fb', free fuel (a + 16) h = Ok (tt, h') /\ uinv h' fb' ab /\ brk h' = brk h /\ undisturbed ab h h' /\
    (forall z, covers fb' z <-> covers fb z \/ a <= z < a + 16 * s) /\
    (forall i x y, fb' !! i = Some x -> fb' !! S i = Some y -> fst x + 16 * snd x < fst y).
Proof.
  destruct (free_ok base fuel h fb a s ab HI Hf) as (h' & fb' & E & I' & B & C & _ & _ & W). exists h', fb'. split_and!; try done.
  - intros x Hx. apply (undisturbed_intro h fb ((a, s) :: ab) ab h' a HI); [|done|done].
    intros z Hz. split; [apply covers_cons; by right|]. intros ->. pose proof (ui_ab _ _ _ _ HI) as HA. apply Forall_cons in HA as [(_ & A2 & _) _].
    cbn in A2. apply (proj1 (ui_aa _ _ _ _ HI) a); [lia|done].
  - intros i x y Hx Hy. pose proof (ui_sorted _ _ _ _ I') as HS. apply (sorted_lookup _ (S i) (S (S i)) x y HS); [done|done|lia].
Qed.
End umalloc.

(** ** Examples *)

Definition demo_grant (b n : Z) : bool := b + n <=? 2 ^ 31.

Lemma demo_grant_ok b n : demo_grant b n = true -> 0 <= n -> b + n <= 2 ^ 31.
Proof. unfold demo_grant. intros H _. by apply Z.leb_le. Qed.

(** The first call of [malloc] of a program. *)
Lemma malloc_correct_witness :
  exists r h' fb', malloc 0x1000 demo_grant 10 100 (mkheap ∅ 0 0x2000) = Ok (r, h') /\ r <> 0 /\ uinv 0x1000 h' fb' [(r - 16, 8)].
Proof.
  destruct (malloc_correct 0x1000 demo_grant 10 demo_grant_ok (mkheap ∅ 0 0x2000) [] [] 100) as (r & h' & E & _ & _ & R).
  - right. split_and!; done.
  - lia.
  - cbn. lia.
  - destruct R as [(_ & _ & _ & Hg & _)|(Hr & _ & fb' & I & _)]; [vm_compute in Hg; discriminate|].
    exists r, h', fb'. split_and!; [exact E|exact Hr|exact I].
Defined.

(** A heap with two allocated blocks, and the first one freed. *)
Definition demo_heap : heap := mkheap (list_to_map [(0x1000, mkhdr 0x1000 0); (0x2000, mkhdr 0 4); (0x2040, mkhdr 0 8)]) 0x1000 0x20C0.

Lemma demo_heap_ok : uinv 0x1000 demo_heap [] [(0x2000, 4); (0x2040, 8)].
Proof.
  split.
  - by vm_compute.
  - by vm_compute.
  - left.
  - constructor.
  - repeat constructor; unfold blk_ok; cbn; lia.
  - repeat constructor.
  - intros z Hz. by apply covers_nil in Hz.
  - split; [|split; [|done]]; intros z Hz Hc; [apply covers_cons in Hc as [Hc|Hc]; [cbn in Hc; lia|]|]; by apply covers_nil in Hc.
  - cbn. lia.
Qed.

Lemma free_correct_witness :
  exists h' fb', free 10 (0x2000 + 16) demo_heap = Ok (tt, h') /\ uinv 0x1000 h' fb' [(0x2040, 8)] /\ covers fb' 0x2000.
Proof.
  destruct (free_correct 0x1000 10 demo_heap [] 0x2000 4 [(0x2040, 8)] demo_heap_ok ltac:(cbn; lia)) as (h' & fb' & E & I & _ & _ & C & _).
  exists h', fb'. split_and!; [exact E|exact I|]. apply C. right. lia.
Defined.
