(* ===== verification/File.v ===== *)
(** * Open files and file descriptors (kernel/file.c, kernel/sysfile.c)

    [struct file], the table [ftable] and the functions on it, with what they
    call: the inode functions of Fs inside transactions of the log, and the
    functions of Pipe.  On top of them the system calls that work on
    descriptors, and what [fork] and [exit] do with them.

    A pointer to a file is an index into [ftable.file]; [ftable.lock] makes
    the functions that hold it atomic.  A pipe is a record under the address
    of its page.  [sleep] and [psleep] are the times another process runs
    while this one waits for an inode or a pipe, [killed] is [p->killed] in
    the [n]-th wait and turn of a loop on a pipe; the drivers in [devsw] are
    function pointers and arguments here. *)

From S2P Require Import Prelude Riscv Mem Kalloc Vm Sleeplock Bytes Store Log Fs Pipe ProcMem.

Definition NFILE : Z := 100.
Definition NOFILE : Z := 16.
Definition NDEV : Z := 10.

Inductive ftype : Type := FD_NONE | FD_PIPE | FD_INODE | FD_DEVICE.
#[export] Instance ftype_eq_dec : EqDecision ftype.
Proof. solve_decision. Defined.

Record file : Type := mkfile {
  f_type : ftype; f_ref : Z; f_readable : bool; f_writable : bool; f_pipe : Z; f_ip : Z; f_off : Z; f_major : Z
}.

Definition set_fref v f := mkfile (f_type f) v (f_readable f) (f_writable f) (f_pipe f) (f_ip f) (f_off f) (f_major f).
Definition set_ftype v f := mkfile v (f_ref f) (f_readable f) (f_writable f) (f_pipe f) (f_ip f) (f_off f) (f_major f).
Definition set_off v f := mkfile (f_type f) (f_ref f) (f_readable f) (f_writable f) (f_pipe f) (f_ip f) v (f_major f).

(** The file system, [ftable.file], the pipes by the address of their page,
    and [ofile] of every process. *)
Record sys (S : Type) : Type := mksys {
  y_fs : fstate S; ftable : list file; y_pipes : gmap Z pipe; ofile : list (list (option Z))
}.
Arguments mksys {S} y_fs ftable y_pipes ofile.
Arguments y_fs {S} _.
Arguments ftable {S} _.
Arguments y_pipes {S} _.
Arguments ofile {S} _.

Definition set_fs {S} (v : fstate S) (s : sys S) := mksys v (ftable s) (y_pipes s) (ofile s).
Definition set_ftable {S} v (s : sys S) := mksys (y_fs s) v (y_pipes s) (ofile s).
Definition set_pipes {S} v (s : sys S) := mksys (y_fs s) (ftable s) v (ofile s).
Definition set_ofile {S} v (s : sys S) := mksys (y_fs s) (ftable s) (y_pipes s) v.

(** The type of the functions in [struct devsw]. *)
Notation driver := (bool -> Z -> Z -> M km Z).

(** [struct stat] as bytes; [pad] is what the stack holds between [nlink] and
    [size]. *)
Definition stat_bytes (pad : Z) (st : stat) : list Z :=
  let d := replicate 24 0 in
  let d := put32 d 0 (st_dev st) in
  let d := put32 d 4 (st_ino st) in
  let d := put16 d 8 (st_type st) in
  let d := put16 d 10 (st_nlink st) in
  let d := put32 d 12 pad in
  let d := put32 d 16 (st_size st) in
  put32 d 20 (st_size st / 2 ^ 32).

Section file.
Context {S : Type} `{!BlockStore S}.
Context (end_ me pagetable : Z) (fuel : nat) (sleep : M (fstate S) unit) (psleep : M (sys S) unit) (killed : nat -> Z -> bool).
Context (devsw : list (option driver * option driver)).
Notation Y := (M (sys S)).

Definition on_fs {A} (m : M (fstate S) A) : Y A := zoom y_fs set_fs m.
Definition on_km {A} (m : M km A) : Y A := on_fs (on_k m).
Definition getf (f : Z) : Y file := M_rd ftable f.
Definition updf (f : Z) (g : file -> file) : Y unit := M_alter ftable set_ftable f g.

Definition y_begin_op : Y unit := on_fs (on_s bs_begin_op).
Definition y_end_op : Y unit := on_fs (on_s bs_end_op).

(** ** Pipes *)

Definition getp (pi : Z) : Y pipe :=
  m ← gets y_pipes;
  match m !! pi with Some p => mret p | None => fault "pipe" end.
Definition putp (pi : Z) (p : pipe) : Y unit := modify (fun s => set_pipes (<[pi := p]> (y_pipes s)) s).

(** [copyin] and [copyout] of one byte: the byte, and whether it succeeds. *)
Definition copyin1 (k : km) (a : Z) : option Z :=
  match copyin_bytes pagetable fuel a 1 [] k with Ok ((0, [ch]), _) => Some ch | _ => None end.
Definition copyout1 (k : km) (a : Z) : bool :=
  match copyout_bytes pagetable fuel a [0] k with Ok (0, _) => true | _ => false end.

(** The bytes [piperead] has taken, stored one by one. *)
Fixpoint put_user (addr : Z) (l : list Z) : M km unit :=
  match l with
  | [] => mret tt
  | ch :: l' => copyout_bytes pagetable fuel (u64 addr) [ch];; put_user (addr + 1) l'
  end.

(** [pipewrite] and [piperead], with at most [n] waits. *)
Fixpoint pipewrite_run (n : nat) (pi addr len i : Z) : Y Z :=
  match n with
  | O => hang
  | Datatypes.S n' =>
      p ← getp pi;
      k ← gets (fun s => f_k (y_fs s));
      '(o, _, p) ← lift (pipewrite (copyin1 k) (killed n) addr len i p);
      putp pi p;;
      match o with
      | WRet r _ => mret r
      | WSleep i => psleep;; pipewrite_run n' pi addr len i
      end
  end.

Fixpoint piperead_run (n : nat) (pi addr len : Z) : Y Z :=
  match n with
  | O => hang
  | Datatypes.S n' =>
      p ← getp pi;
      k ← gets (fun s => f_k (y_fs s));
      '(o, bs, p) ← lift (piperead (copyout1 k) (killed n) addr len p);
      putp pi p;;
      match o with
      | RRet r _ => on_km (put_user addr (take (Z.to_nat r) bs));; mret r
      | RSleep => psleep;; piperead_run n' pi addr len
      end
  end.

(** [pipeclose]: the page is freed when both ends are closed. *)
Definition close_pipe (pi : Z) (writable : bool) : Y unit :=
  p ← getp pi;
  let '(p, free) := pipeclose writable p in
  if free then
    modify (fun s => set_pipes (delete pi (y_pipes s)) s);;
    on_km (kfree end_ pi)
  else putp pi p.

(** ** Files *)

(** [for(f = ftable.file; f < ftable.file + NFILE; f++)] *)
Fixpoint filealloc_from (k : nat) (f : Z) : Y (option Z) :=
  match k with
  | O => mret None
  | Datatypes.S k' =>
      x ← getf f;
      if f_ref x =? 0 then updf f (set_fref 1);; mret (Some f)
      else filealloc_from k' (f + 1)
  end.

Definition filealloc : Y (option Z) := filealloc_from (Z.to_nat NFILE) 0.

Definition filedup (f : Z) : Y Z :=
  x ← getf f;
  if f_ref x <? 1 then panic "filedup" else
  updf f (set_fref (s32 (f_ref x + 1)));;
  mret f.

(** The part of [fileclose] that holds [ftable.lock]: the copy [ff] when the
    last reference is gone. *)
Definition fileclose_ref (f : Z) : Y (option file) :=
  x ← getf f;
  if f_ref x <? 1 then panic "fileclose" else
  updf f (set_fref (f_ref x - 1));;
  if 0 <? f_ref x - 1 then mret None else
  ff ← getf f;
  updf f (fun x => set_ftype FD_NONE (set_fref 0 x));;
  mret (Some ff).

Definition fileclose (f : Z) : Y unit :=
  r ← fileclose_ref f;
  match r with
  | None => mret tt
  | Some ff =>
      match f_type ff with
      | FD_PIPE => close_pipe (f_pipe ff) (f_writable ff)
      | FD_INODE | FD_DEVICE =>
          y_begin_op;;
          on_fs (iput me fuel sleep (f_ip ff));;
          y_end_op
      | FD_NONE => mret tt
      end
  end.

Definition filestat (pad f addr : Z) : Y Z :=
  x ← getf f;
  match f_type x with
  | FD_INODE | FD_DEVICE =>
      on_fs (ilock me fuel sleep (f_ip x));;
      st ← on_fs (stati (f_ip x));
      on_fs (iunlock me (f_ip x));;
      r ← on_km (copyout_bytes pagetable fuel addr (stat_bytes pad st));
      if r <? 0 then mret (-1) else mret 0
  | _ => mret (-1)
  end.

Definition fileread (f addr n : Z) : Y Z :=
  x ← getf f;
  if negb (f_readable x) then mret (-1) else
  match f_type x with
  | FD_PIPE => piperead_run fuel (f_pipe x) addr n
  | FD_DEVICE =>
      if (f_major x <? 0) || (NDEV <=? f_major x) then mret (-1) else
      d ← lift (rd devsw (f_major x));
      match fst d with
      | None => mret (-1)
      | Some read => on_km (read true addr n)
      end
  | FD_INODE =>
      on_fs (ilock me fuel sleep (f_ip x));;
      x ← getf f;
      r ← on_fs (readi pagetable fuel (f_ip x) true addr (f_off x) (u32 n));
      (if 0 <? r then updf f (fun x => set_off (u32 (f_off x + r)) x) else mret tt);;
      on_fs (iunlock me (f_ip x));;
      mret r
  | FD_NONE => panic "fileread"
  end.

(** [max] of [filewrite] *)
Definition write_max : Z := (MAXOPBLOCKS - 1 - 1 - 2) / 2 * BSIZE.

(** One turn of the loop of [filewrite]: a transaction. *)
Definition write_chunk (f addr n1 : Z) : Y Z :=
  x ← getf f;
  y_begin_op;;
  on_fs (ilock me fuel sleep (f_ip x));;
  x ← getf f;
  r ← on_fs (writei pagetable fuel (f_ip x) true addr (f_off x) n1);
  (if 0 <? r then updf f (fun x => set_off (u32 (f_off x + r)) x) else mret tt);;
  on_fs (iunlock me (f_ip x));;
  y_end_op;;
  mret r.

(** [while(i < n)]: the value of [i] after the loop. *)
Fixpoint filewrite_from (k : nat) (f addr n i : Z) : Y Z :=
  match k with
  | O => hang
  | Datatypes.S k' =>
      if negb (i <? n) then mret i else
      let n1 := if write_max <? n - i then write_max else n - i in
      r ← write_chunk f (u64 (addr + i)) n1;
      if negb (r =? n1) then mret i else filewrite_from k' f addr n (i + r)
  end.

Definition filewrite (f addr n : Z) : Y Z :=
  x ← getf f;
  if negb (f_writable x) then mret (-1) else
  match f_type x with
  | FD_PIPE => pipewrite_run fuel (f_pipe x) addr n 0
  | FD_DEVICE =>
      if (f_major x <? 0) || (NDEV <=? f_major x) then mret (-1) else
      d ← lift (rd devsw (f_major x));
      match snd d with
      | None => mret (-1)
      | Some write => on_km (write true addr n)
      end
  | FD_INODE =>
      i ← filewrite_from (Datatypes.S (Z.to_nat n)) f addr n 0;
      mret (if i =? n then n else -1)
  | FD_NONE => panic "filewrite"
  end.

(** [pipealloc] of kernel/pipe.c: the two files, or [None]. *)
Definition pipealloc : Y (option (Z * Z)) :=
  f0 ← filealloc;
  match f0 with
  | None => mret None
  | Some f0 =>
      f1 ← filealloc;
      match f1 with
      | None => fileclose f0;; mret None
      | Some f1 =>
          pi ← on_km kalloc;
          if pi =? 0 then fileclose f0;; fileclose f1;; mret None else
          page ← on_fs (on_mem (load_bytes (Z.to_nat PIPESIZE) (pi + 24)));
          putp pi (pipe_init page);;
          updf f0 (fun x => mkfile FD_PIPE (f_ref x) true false pi (f_ip x) (f_off x) (f_major x));;
          updf f1 (fun x => mkfile FD_PIPE (f_ref x) false true pi (f_ip x) (f_off x) (f_major x));;
          mret (Some (f0, f1))
      end
  end.

(** ** Descriptors of the process [p], whose trap frame is at [tf] *)

Section proc.
Context (p tf : Z).

(** [argraw] of kernel/syscall.c, and [argint], [argaddr] *)
Definition argraw (n : Z) : Y Z :=
  if (0 <=? n) && (n <=? 5) then on_fs (on_mem (fun m => ld64 m (tf + off_a0 + 8 * n))) else panic "argraw".
Definition argint (n : Z) : Y Z := v ← argraw n; mret (s32 v).
Definition argaddr (n : Z) : Y Z := argraw n.

(** [p->ofile[fd]] *)
Definition get_fd (q fd : Z) : Y (option Z) := t ← M_rd ofile q; lift (rd t fd).
Definition set_fd (q fd : Z) (v : option Z) : Y unit :=
  t ← M_rd ofile q;
  t ← lift (wr t fd v);
  M_wr ofile set_ofile q t.

Definition argfd (n : Z) : Y (option (Z * Z)) :=
  fd ← argint n;
  if (fd <? 0) || (NOFILE <=? fd) then mret None else
  f ← get_fd p fd;
  mret (match f with None => None | Some f => Some (fd, f) end).

(** [for(fd = 0; fd < NOFILE; fd++)] *)
Fixpoint fdalloc_from (k : nat) (fd f : Z) : Y Z :=
  match k with
  | O => mret (-1)
  | Datatypes.S k' =>
      o ← get_fd p fd;
      match o with
      | None => set_fd p fd (Some f);; mret fd
      | Some _ => fdalloc_from k' (fd + 1) f
      end
  end.

Definition fdalloc (f : Z) : Y Z := fdalloc_from (Z.to_nat NOFILE) 0 f.

Definition sys_dup : Y Z :=
  r ← argfd 0;
  match r with
  | None => mret (-1)
  | Some (_, f) =>
      fd ← fdalloc f;
      if fd <? 0 then mret (-1) else
      filedup f;;
      mret fd
  end.

Definition sys_read : Y Z :=
  r ← argfd 0;
  match r with
  | None => mret (-1)
  | Some (_, f) =>
      n ← argint 2;
      a ← argaddr 1;
      fileread f a n
  end.

Definition sys_write : Y Z :=
  r ← argfd 0;
  match r with
  | None => mret (-1)
  | Some (_, f) =>
      n ← argint 2;
      a ← argaddr 1;
      filewrite f a n
  end.

Definition sys_close : Y Z :=
  r ← argfd 0;
  match r with
  | None => mret (-1)
  | Some (fd, f) =>
      set_fd p fd None;;
      fileclose f;;
      mret 0
  end.

Definition sys_fstat (pad : Z) : Y Z :=
  r ← argfd 0;
  match r with
  | None => mret (-1)
  | Some (_, f) =>
      st ← argaddr 1;
      filestat pad f st
  end.

(** An [int] as bytes. *)
Definition int_bytes (v : Z) : list Z := put32 (replicate 4 0) 0 v.

Definition sys_pipe : Y Z :=
  fdarray ← argaddr 0;
  r ← pipealloc;
  match r with
  | None => mret (-1)
  | Some (rf, wf) =>
      fd0 ← fdalloc rf;
      if fd0 <? 0 then fileclose rf;; fileclose wf;; mret (-1) else
      fd1 ← fdalloc wf;
      if fd1 <? 0 then set_fd p fd0 None;; fileclose rf;; fileclose wf;; mret (-1) else
      r ← on_km (copyout_bytes pagetable fuel fdarray (int_bytes fd0));
      r ← (if r <? 0 then mret r else on_km (copyout_bytes pagetable fuel (u64 (fdarray + 4)) (int_bytes fd1)));
      if r <? 0 then
        set_fd p fd0 None;;
        set_fd p fd1 None;;
        fileclose rf;;
        fileclose wf;;
        mret (-1)
      else mret 0
  end.

(** The loop of [fork] that gives the child [np] the files of [p]. *)
Fixpoint fork_files (k : nat) (np i : Z) : Y unit :=
  match k with
  | O => mret tt
  | Datatypes.S k' =>
      o ← get_fd p i;
      match o with
      | None => mret tt
      | Some f => f ← filedup f; set_fd np i (Some f)
      end;;
      fork_files k' np (i + 1)
  end.

(** The loop of [exit] that closes the files of [p]. *)
Fixpoint exit_files (k : nat) (fd : Z) : Y unit :=
  match k with
  | O => mret tt
  | Datatypes.S k' =>
      o ← get_fd p fd;
      match o with
      | None => mret tt
      | Some f => fileclose f;; set_fd p fd None
      end;;
      exit_files k' (fd + 1)
  end.
End proc.
End file.

(** ** Running the operations *)

Section run.
Context {S : Type}.
Implicit Types (y : sys S).

Lemma on_fs_Ok {A} (m : M (fstate S) A) y r x : m (y_fs y) = Ok (r, x) -> on_fs m y = Ok (r, set_fs x y).
Proof. intros E. unfold on_fs. by erewrite zoom_Ok. Qed.

Lemma on_fs_Panic {A} (m : M (fstate S) A) y e : m (y_fs y) = Panic e -> on_fs m y = Panic e.
Proof. intros E. unfold on_fs, zoom. by rewrite E. Qed.

Lemma getf_Ok y f x : zidx (ftable y) f = Some x -> getf f y = Ok (x, y).
Proof. apply M_rd_Ok. Qed.

Lemma updf_Ok y f x g : zidx (ftable y) f = Some x -> updf f g y = Ok (tt, set_ftable (<[Z.to_nat f := g x]> (ftable y)) y).
Proof. apply M_alter_insert. Qed.
End run.
