(* ===== verification/FileRest.v ===== *)
(** * Files between transactions

    What a file is when the log is idle: the facts that [writei] needs, about
    the disk, with the inode unlocked and equal to its copy on disk.  The
    facts depend on the blocks outside the log only, so a transaction can be
    entered and left with them. *)

From S2P Require Import Prelude Cache Sleeplock Kalloc Bytes Log LogSpec LogCrash LogTx Store FsLog Fs FsAlloc FsFile FsMap FsRw FsInode FsThms.

(** ** A file on disk *)

Section good.
Context {S : Type} `{!BlockStore S}.
Implicit Types (V : Z -> list Z) (sb : superblock).

Record good_file sb V (ip : inode) : Prop := {
  gf_lay : layout sb V;
  gf_boot : used sb V 0 = true;
  gf_ok : file_ok sb V (i_addrs ip);
  gf_iblk : data_block sb V (IBLOCK (i_inum ip) sb);
  gf_own : ~ owns V (i_addrs ip) (IBLOCK (i_inum ip) sb);
  gf_size : 0 <= i_size ip <= MAXFILE * BSIZE;
  gf_dense : forall o, 0 <= o < i_size ip -> baddr V (i_addrs ip) (o / BSIZE) <> 0
}.

Lemma good_file_state s a i ip :
  good_file (f_sb s) (b_view a) ip -> bs_abs (f_s s) a -> zidx (f_it s) i = Some ip -> b_mod a = [] -> b_held a = [] ->
  file_state s a i ip.
Proof. intros [] A Hi Hm Hh. by split; [split|..]. Qed.

Lemma file_state_good s a i ip : file_state s a i ip -> good_file (f_sb s) (b_view a) ip.
Proof. intros [[] ? ? ? ?]. by split. Qed.

Section ext.
Context sb V V' ip (G : good_file sb V ip) (HV : forall m, bs_blk m -> V' m = V m).

Lemma used_same b : 0 <= b < sb_size sb -> used sb V' b = used sb V b.
Proof. intros Hb. unfold used. by rewrite HV by (by apply (ly_bblk _ _ (gf_lay _ _ _ G))). Qed.

Lemma data_block_same n : data_block sb V' n <-> data_block sb V n.
Proof. unfold data_block. split; intros (H1 & H2 & H3 & H4); (split_and!; [lia|lia|done| |done]); [rewrite <- used_same|rewrite used_same]; done || lia. Qed.

Lemma baddr_same bn : baddr V' (i_addrs ip) bn = baddr V (i_addrs ip) bn.
Proof.
  unfold baddr. destruct (bn <? NDIRECT); [done|]. destruct (Z.eqb_spec (addr_at (i_addrs ip) NDIRECT) 0) as [|Hn]; [done|].
  destruct (fo_data _ _ _ (gf_ok _ _ _ G) _ (owns_ind V _ Hn)) as (_ & Hb & _). by rewrite HV.
Qed.

Lemma owns_same n : owns V' (i_addrs ip) n <-> owns V (i_addrs ip) n.
Proof.
  unfold owns. split; intros (Hn & [H|(bn & Hbn & H)]); (split; [done|]); try (by left); right; exists bn; (split; [done|]);
    by rewrite <- H, baddr_same.
Qed.

Lemma file_byte_same o : 0 <= o < MAXFILE * BSIZE -> file_byte V' (i_addrs ip) o = file_byte V (i_addrs ip) o.
Proof.
  intros Ho. unfold file_byte. rewrite baddr_same. destruct (Z.eqb_spec (baddr V (i_addrs ip) (o / BSIZE)) 0) as [|Hn]; [done|].
  destruct (fo_data _ _ _ (gf_ok _ _ _ G) _ (owns_baddr V (i_addrs ip) (o / BSIZE) (block_of o Ho) Hn)) as (_ & Hb & _).
  by rewrite HV.
Qed.

Lemma nfree_file : nfree sb V' = nfree sb V.
Proof. apply nfree_same. exact used_same. Qed.

Lemma lacks_file l : lacks V' (i_addrs ip) l = lacks V (i_addrs ip) l.
Proof. apply lacks_same. exact baddr_same. Qed.

Lemma dinode_same k : IBLOCK k sb = IBLOCK (i_inum ip) sb -> dinode sb V' k = dinode sb V k.
Proof. intros Ek. destruct (gf_iblk _ _ _ G) as (_ & Hb & _). unfold dinode. by rewrite Ek, HV. Qed.

Lemma good_file_ext : good_file sb V' ip.
Proof.
  pose proof G as [L B [O1 O2 O3 O4] I W Z D]. destruct L as [L1 L2 L3 L4]. split.
  - split; [done|done|done|]. intros b Hb. rewrite used_same by done. by apply L4.
  - destruct I as (? & _). by rewrite used_same by lia.
  - split; [done| | |].
    + intros n Hn. apply data_block_same, O2. by apply owns_same.
    + intros bn bn'. rewrite !baddr_same. apply O3.
    + intros bn. rewrite baddr_same. apply O4.
  - by apply data_block_same.
  - by rewrite owns_same.
  - done.
  - intros o Ho. rewrite baddr_same. by apply D.
Qed.
End ext.

(** Blocks that belong to something else than the file [ip]. *)
Definition foreign sb V (ip : inode) (n : Z) : Prop :=
  bs_blk n /\ 0 <= n < sb_size sb /\ used sb V n = true /\ (forall b, 0 <= b < sb_size sb -> BBLOCK b sb <> n) /\
  ~ owns V (i_addrs ip) n /\ n <> IBLOCK (i_inum ip) sb.

Lemma foreign_grown sb V ip V' ip' n :
  grown sb V (i_addrs ip) V' (i_addrs ip') -> i_inum ip' = i_inum ip -> foreign sb V ip n -> foreign sb V' ip' n.
Proof.
  intros [G1 G2] Ei (H1 & H2 & H3 & H4 & H5 & H6). split_and!; [done|lia|lia|by apply G1|done| |by rewrite Ei].
  intros [H|H]%G2; [done|congruence].
Qed.
End good.

(** On the disk [V] the file [inum] has the contents [f] and the size [size]. *)
Definition holds_file (sb : superblock) (V : Z -> list Z) (inum : Z) (f : Z -> Z) (size : Z) : Prop :=
  i_size (dinode sb V inum) = size /\
  forall o, 0 <= o < MAXFILE * BSIZE -> file_byte V (i_addrs (dinode sb V inum)) o = f o.

(** ** The log idle *)

Section rest.
Context {C : Type} `{!BufferCache C}.
Context (st : Z) (lsleep : M (lst C) unit) (lfuel : nat).
Notation LS := (log_store st lsleep lfuel).
Implicit Types (a : acache).

Record at_rest (s : fstate (lst C)) a (i : Z) (ip : inode) : Prop := {
  rs_q : quiescent (f_s s) st a;
  rs_sized : sized (a_disk a);
  rs_ip : zidx (f_it s) i = Some ip;
  rs_lock : sl_locked (i_lock ip) = 0;
  rs_ref : 1 <= i_ref ip;
  rs_valid : i_valid ip <> 0;
  rs_range : ino_range ip;
  rs_disk : get_dinode (dip (i_inum ip)) (a_disk a (IBLOCK (i_inum ip) (f_sb s))) ip = ip;
  rs_file : good_file (BlockStore0 := LS) (f_sb s) (a_disk a) ip
}.

Lemma at_rest_holds s a i ip :
  at_rest s a i ip -> holds_file (f_sb s) (a_disk a) (i_inum ip) (file_byte (a_disk a) (i_addrs ip)) (i_size ip).
Proof.
  intros R. pose proof (rs_disk _ _ _ _ R) as E. unfold holds_file, dinode. split.
  - rewrite <- E at 3. done.
  - intros o _. rewrite <- E at 3. done.
Qed.

(** ** Crashes in a sequence of transactions *)

(** After a crash at any of the writes [tr] to the disk [d0], recovery ends
    with one of the disks of [P], outside the log. *)
Definition crash_among (d0 : Z -> list Z) (tr : list (Z * list Z)) (P : (Z -> list Z) -> Prop) : Prop :=
  forall j d d' (s0 : lst C) a0,
    (forall m, blk m -> d m = apply_tr (take j tr) d0 m) ->
    rtc (reboot st) d d' -> fresh s0 st d' a0 ->
    exists s1 a1 V, recover_from_log s0 = Ok (tt, s1) /\ bc_abs (lc s1) a1 /\ lh_n (lg s1) = 0 /\
      hd_n (a_disk a1 st) = 0 /\ P V /\
      forall m, blk m -> ~ in_log st m -> a_view a1 m = a_disk a1 m /\ a_disk a1 m = V m.

Lemma crash_safe_among d0 tr k V W (P : (Z -> list Z) -> Prop) :
  crash_safe st d0 tr k V W -> P V -> P W -> crash_among d0 tr P.
Proof.
  intros H HV HW j d d' s0 a0 Hd Hr F. destruct (H j d d' s0 a0 Hd Hr F) as (s1 & a1 & E1 & A1 & N1 & H1 & K).
  destruct (decide (j <= k)%nat); [exists s1, a1, V|exists s1, a1, W]; by split_and!.
Qed.

Lemma crash_among_app d0 tr d1 tr' (P : (Z -> list Z) -> Prop) :
  crash_among d0 tr P -> (forall m, blk m -> d1 m = apply_tr tr d0 m) -> crash_among d1 tr' P -> crash_among d0 (tr ++ tr') P.
Proof.
  intros H1 Hd H2 j d d' s0 a0 Hj Hr F. destruct (decide (j <= length tr)%nat) as [Hle|Hgt].
  - apply (H1 j d d' s0 a0); [|done|done]. intros m Hm. by rewrite Hj, take_app_le by done.
  - apply (H2 (j - length tr)%nat d d' s0 a0); [|done|done]. intros m Hm. rewrite Hj, take_app_ge, apply_tr_app by (done || lia).
    apply apply_tr_ext. by rewrite Hd.
Qed.

Lemma crash_among_idle s a i ip (P : (Z -> list Z) -> Prop) : at_rest s a i ip -> P (a_disk a) -> crash_among (a_disk a) [] P.
Proof.
  intros R HP. pose proof (rs_q _ _ _ _ R) as Q. eapply crash_safe_among; [apply crash_safe_idle|exact HP|exact HP]; [|apply Q].
  apply clear_log_ok; [apply (ti_area _ _ _ (q_inv _ _ _ Q))|apply R|apply Q].
Qed.
End rest.
