(* ===== verification/FileWrite.v ===== *)
(** * Writing to a file through a descriptor

    [filewrite] writes in pieces of 3072 bytes, each in a transaction of its
    own.  The theorem puts file.c, fs.c, log.c and bio.c together. *)

From S2P Require Import Prelude Cache Sleeplock Kalloc Bytes Log LogSpec LogCrash LogTx Store FsLog Fs FsAlloc FsFile FsMap FsRw FsInode FsThms.
From S2P Require Import File FileRest.

(** ** Locking an inode nobody has locked *)

Section lock.
Context {S : Type} `{!BlockStore S}.
Context (me : Z) (fuel : nat) (sleep : M (fstate S) unit).
Implicit Types (s : fstate S).

Lemma ilock_rest s i ip :
  zidx (f_it s) i = Some ip -> sl_locked (i_lock ip) = 0 -> 1 <= i_ref ip -> i_valid ip <> 0 -> (1 <= fuel)%nat ->
  ilock me fuel sleep i s = Ok (tt, upd_ino i (set_ilock (mksl 1 me) ip) s).
Proof.
  intros Hi Hl Hr Hv Hf. unfold ilock. mrun (geti_Ok _ _ _ Hi). destruct (Z.ltb_spec (i_ref ip) 1); [lia|].
  set (ip1 := set_ilock _ _).
  assert (iacquire me fuel sleep i s = Ok (tt, upd_ino i ip1 s)) as E.
  { apply (acquiresleep_free _ _ _ fuel me s (i_lock ip)); [done| |done|by rewrite (updi_Ok _ _ _ _ Hi)].
    by mrun (geti_Ok _ _ _ Hi). }
  mrun E. mrun (geti_Ok _ _ _ (upd_ino_lookup s i ip ip1 Hi)). apply Z.eqb_neq in Hv. change (i_valid ip1) with (i_valid ip). by rewrite Hv.
Qed.

Lemma iunlock_mine s i ip :
  zidx (f_it s) i = Some ip -> i_lock ip = mksl 1 me -> 1 <= i_ref ip ->
  iunlock me i s = Ok (tt, mkfs (f_s s) (f_sb s) (f_it (upd_ino i (set_ilock (mksl 0 0) ip) s)) (f_k s) (i :: f_woken s)).
Proof.
  intros Hi Hl Hr. unfold iunlock, irelease. mrun (geti_Ok _ _ _ Hi). unfold holdingsleep. rewrite Hl. cbn [sl_locked sl_pid]. rewrite Z.eqb_refl.
  destruct (Z.ltb_spec (i_ref ip) 1); [lia|]. cbn [Z.eqb negb andb orb]. by mrun (updi_Ok _ _ _ (fun x => set_ilock (releasesleep (i_lock x)) x) Hi).
Qed.

Lemma good_file_lock sb V ip lk : good_file sb V ip -> good_file sb V (set_ilock lk ip).
Proof. intros []. by split. Qed.
End lock.

(** ** Pieces of the data *)

Lemma src_ok_slice pt fuel k user src data i m :
  src_ok pt fuel k user src data -> 0 <= i -> 0 <= m -> i + m <= Z.of_nat (length data) ->
  src_ok pt fuel k user (u64 (src + i)) (slice i m data).
Proof.
  intros H Hi Hm Hl j l Hj Hl' Hjl. rewrite length_slice in Hjl by lia.
  replace (u64 (u64 (src + i) + j)) with (u64 (src + (i + j))).
  2:{ unfold u64. rewrite Zplus_mod_idemp_l. f_equal. lia. }
  rewrite H by lia. do 3 f_equal. unfold slice.
  replace (Z.to_nat m) with (Z.to_nat j + Z.to_nat (m - j))%nat by lia.
  rewrite <- take_drop_commute, take_take, drop_drop. f_equal; [lia|f_equal; lia].
Qed.

Lemma patch_nil f off o : patch f off [] o = f o.
Proof. unfold patch. case_decide as H; [cbn in H; lia|done]. Qed.

Lemma patch_app f off i m data o :
  0 <= i -> 0 <= m -> i + m <= Z.of_nat (length data) ->
  patch (patch f off (take (Z.to_nat i) data)) (off + i) (slice i m data) o = patch f off (take (Z.to_nat (i + m)) data) o.
Proof.
  intros Hi Hm Hl. unfold patch. rewrite length_slice, !length_take by lia.
  destruct (decide (off + i <= o < off + i + Z.of_nat (Z.to_nat m))).
  - rewrite decide_True by lia. rewrite byte_at_slice by lia. unfold byte_at. rewrite lookup_take_lt by lia. do 2 f_equal. lia.
  - destruct (decide (off <= o < off + Z.of_nat (Z.to_nat i `min` length data))).
    + rewrite decide_True by lia. unfold byte_at. by rewrite !lookup_take_lt by lia.
    + by rewrite decide_False by lia.
Qed.

Section write.
Context {C : Type} `{!BufferCache C}.
Context (st : Z) (lsleep : M (lst C) unit) (lfuel : nat).
#[local] Instance the_store : BlockStore (lst C) := log_store st lsleep lfuel.
Implicit Types (a : acache).
Notation at_rest := (at_rest st lsleep lfuel).

(** ** Into and out of a transaction *)

Lemma rest_begin s a i ip :
  at_rest s a i ip -> (1 <= lfuel)%nat ->
  exists x, on_s bs_begin_op s = Ok (tt, set_s x s) /\ bs_abs x (tx_start a) /\ good_file (f_sb s) (a_view a) ip.
Proof.
  intros R Hf. destruct (begin_op_store st (f_s s) a lsleep lfuel (rs_q _ _ _ _ _ _ _ R) Hf) as (x & E & B & _).
  exists x. split; [|split; [exact B|]].
  - unfold on_s. by rewrite (zoom_Ok _ _ _ _ _ _ E).
  - eapply good_file_ext; [apply (rs_file _ _ _ _ _ _ _ R)|]. intros m [Hm _]. by apply (quiescent_disk _ _ _ m (rs_q _ _ _ _ _ _ _ R)).
Qed.

Lemma rest_end s a i ip s2 b ip2 :
  at_rest s a i ip -> file_state s2 b i ip2 -> b_disk b = a_disk a -> b_tr b = a_tr a ->
  exists x a' tr k, on_s bs_end_op s2 = Ok (tt, set_s x s2) /\ quiescent x st a' /\ sized (a_disk a') /\
    (forall m, bs_blk m -> a_disk a' m = b_view b m) /\ good_file (f_sb s2) (a_disk a') ip2 /\
    bc_tr (lc x) = bc_tr (lc (f_s s)) ++ tr /\
    crash_safe st (a_disk a) tr k (a_disk a) (b_view b) /\ (forall m, blk m -> a_disk a' m = apply_tr tr (a_disk a) m).
Proof.
  intros R F Hd Ht. pose proof (fi_open _ _ _ _ F) as O.
  assert (store_abs st (f_s s2) (mkb (b_view b) [] (b_log b) [] (a_disk a) (a_tr a))) as B.
  { pose proof (of_abs _ _ _ _ O) as A. rewrite <- Hd, <- Ht, <- (of_mod _ _ _ _ O). rewrite <- (of_held _ _ _ _ O) at 1. by destruct b. }
  destruct (end_op_store st (f_s s) (f_s s2) a (b_view b) (b_log b) (rs_q _ _ _ _ _ _ _ R) (rs_sized _ _ _ _ _ _ _ R) B)
    as (x & a' & tr & k & E & Q' & Hs' & Et & Hdk & _ & Hcs & Htr).
  exists x, a', tr, k. split_and!; try done.
  - unfold on_s. by rewrite (zoom_Ok _ _ _ _ _ _ E).
  - intros m [Hm Hl]. by apply Hdk.
  - eapply good_file_ext; [apply (file_state_good _ _ _ _ F)|]. intros m [Hm Hl]. by apply Hdk.
Qed.
(** ** One transaction *)

Lemma rest_intro s2 b i ip y a' :
  file_state s2 b i ip -> quiescent y st a' -> sized (a_disk a') -> (forall m, bs_blk m -> a_disk a' m = b_view b m) ->
  sl_locked (i_lock ip) = 0 -> 1 <= i_ref ip -> i_valid ip <> 0 -> ino_range ip ->
  (exists d, b_view b (IBLOCK (i_inum ip) (f_sb s2)) = put_dinode (dip (i_inum ip)) ip d) -> at_rest (set_s y s2) a' i ip.
Proof.
  intros F Q Hs Hdk Hl Hr Hv R (d & Ed). split; try done; [apply F| |].
  - change (f_sb (set_s y s2)) with (f_sb s2). destruct (fi_iblk _ _ _ _ F) as (_ & Hb & _). rewrite Hdk by done. by eapply written_back.
  - eapply good_file_ext; [apply (file_state_good _ _ _ _ F)|done].
Qed.

(** A transaction has written [data] at [off] to the file [ip]: the states
    before and after it, and its writes to the disk. *)
Record wrote s a (i : Z) (ip : inode) (off : Z) (data : list Z) s' a' (ip' : inode) tr : Prop := {
  wr_rest : at_rest s' a' i ip';
  wr_sb : f_sb s' = f_sb s;
  wr_k : f_k s' = f_k s;
  wr_inum : i_inum ip' = i_inum ip;
  wr_size : i_size ip' = Z.max (i_size ip) (off + Z.of_nat (length data));
  wr_byte : forall o, 0 <= o < MAXFILE * BSIZE ->
    file_byte (a_disk a') (i_addrs ip') o = patch (file_byte (a_disk a) (i_addrs ip)) off data o;
  wr_grown : grown (f_sb s) (a_disk a) (i_addrs ip) (a_disk a') (i_addrs ip');
  wr_same : forall n, foreign (f_sb s) (a_disk a) ip n -> a_disk a' n = a_disk a n;
  wr_inodes : other_inodes (f_sb s) (a_disk a) (a_disk a') (i_inum ip);
  wr_spends : forall l, in_file l -> covers off (Z.of_nat (length data)) l ->
    spends (f_sb s) (a_disk a) (i_addrs ip) (a_disk a') (i_addrs ip') l;
  wr_tr : bc_tr (lc (f_s s')) = bc_tr (lc (f_s s)) ++ tr;
  wr_crash : exists k, crash_safe st (a_disk a) tr k (a_disk a) (a_disk a');
  wr_disk : forall m, blk m -> a_disk a' m = apply_tr tr (a_disk a) m
}.

Lemma grown_ext sb V V1 ip V2 V' ip' :
  good_file sb V ip -> (forall m, bs_blk m -> V1 m = V m) -> good_file sb V2 ip' -> (forall m, bs_blk m -> V' m = V2 m) ->
  grown sb V1 (i_addrs ip) V2 (i_addrs ip') -> grown sb V (i_addrs ip) V' (i_addrs ip').
Proof.
  intros G H1 G2 H2 [A B]. split.
  - intros b Hb Hu. rewrite (used_same sb V2 V' ip' G2 H2) by done. apply A; [done|]. by rewrite (used_same sb V V1 ip G H1).
  - intros n Hn. apply (owns_same sb V2 V' ip' G2 H2) in Hn. destruct (fo_data _ _ _ (gf_ok _ _ _ G2) n Hn) as (Hr & _).
    destruct (B n Hn) as [Ho|Hu]; [left; by apply (owns_same sb V V1 ip G H1)|right]. by rewrite <- (used_same sb V V1 ip G H1) by lia.
Qed.

Lemma wrote_intro s a i ip off data s2 b ip2 y a' tr k :
  at_rest s a i ip -> at_rest (set_s y s2) a' i ip2 -> file_state s2 b i ip2 -> f_sb s2 = f_sb s -> f_k s2 = f_k s ->
  i_inum ip2 = i_inum ip -> i_size ip2 = Z.max (i_size ip) (off + Z.of_nat (length data)) ->
  (forall o, 0 <= o < MAXFILE * BSIZE -> file_byte (b_view b) (i_addrs ip2) o = patch (file_byte (a_view a) (i_addrs ip)) off data o) ->
  grown (f_sb s) (a_view a) (i_addrs ip) (b_view b) (i_addrs ip2) -> others_same s (tx_start a) ip b ->
  (forall l, in_file l -> covers off (Z.of_nat (length data)) l -> spends (f_sb s) (a_view a) (i_addrs ip) (b_view b) (i_addrs ip2) l) ->
  (forall m, bs_blk m -> a_disk a' m = b_view b m) -> bc_tr (lc y) = bc_tr (lc (f_s s)) ++ tr ->
  crash_safe st (a_disk a) tr k (a_disk a) (b_view b) -> (forall m, blk m -> a_disk a' m = apply_tr tr (a_disk a) m) ->
  wrote s a i ip off data (set_s y s2) a' ip2 tr.
Proof.
  intros R R' F Esb Ek Ei Es Hb Hg [Hsame Hinos] Hsp Hdk Etr Hcs Hap.
  pose proof (rs_file _ _ _ _ _ _ _ R) as G0. pose proof (file_state_good _ _ _ _ F) as G. rewrite Esb in G.
  assert (forall m, bs_blk m -> a_view a m = a_disk a m) as Hv.
  { intros m [Hm _]. by apply (quiescent_disk _ _ _ m (rs_q _ _ _ _ _ _ _ R)). }
  split; try done.
  - intros o Ho. rewrite (file_byte_same (f_sb s) (b_view b) (a_disk a') ip2 G Hdk o Ho), Hb by done. unfold patch. case_decide; [done|].
    by apply (file_byte_same (f_sb s) (a_disk a) (a_view a) ip G0 Hv).
  - by apply (grown_ext (f_sb s) (a_disk a) (a_view a) ip (b_view b) (a_disk a') ip2).
  - intros m (H1 & H2 & H3 & H4 & H5 & H6). rewrite Hdk, <- (Hv m) by done. apply (Hsame m); try done.
    + cbn. by rewrite (used_same (f_sb s) (a_disk a) (a_view a) ip G0 Hv).
    + intros H. apply H5. by apply (owns_same (f_sb s) (a_disk a) (a_view a) ip G0 Hv).
  - intros m Em Hm. rewrite (dinode_same (f_sb s) (b_view b) (a_disk a') ip2 G Hdk) by (by rewrite Ei).
    rewrite (Hinos m Em Hm). by apply (dinode_same (f_sb s) (a_disk a) (a_view a) ip G0 Hv).
  - intros l Hl1 Hl2. specialize (Hsp l Hl1 Hl2). unfold spends in *. cbn [set_s f_sb] in *.
    rewrite (nfree_file _ _ _ ip2 G Hdk), (lacks_file _ _ _ ip2 G Hdk).
    by rewrite (nfree_file _ _ _ ip G0 Hv), (lacks_file _ _ _ ip G0 Hv) in Hsp.
  - exists k. eapply crash_safe_ext; [exact Hcs|]. intros m Hm Hno. symmetry. by apply Hdk.
Qed.

Section tx.
Context (me pt : Z) (fuel : nat) (sleep : M (fstate (lst C)) unit).

(** The inode in memory after [writei], and unlocked again. *)
Definition after (ip : inode) (l : list Z) (size : Z) : inode := set_ilock (mksl 0 0) (set_isize size (set_addrs l (set_ilock (mksl 1 me) ip))).

Lemma write_tx s a i ip addr data off :
  at_rest s a i ip -> (1 <= lfuel)%nat -> (1 <= fuel)%nat -> 0 <= off <= i_size ip -> off + Z.of_nat (length data) <= MAXFILE * BSIZE -> 0 <= addr < 2 ^ 64 ->
  src_ok pt fuel (f_k s) true addr data -> Z.of_nat (length data) <= 3 * BSIZE ->
  exists s1 s2, on_s bs_begin_op s = Ok (tt, s1) /\ ilock me fuel sleep i s1 = Ok (tt, s2) /\
    ((exists s3 s4 s5 a' ip' tr, writei pt fuel i true addr off (Z.of_nat (length data)) s2 = Ok (Z.of_nat (length data), s3) /\ iunlock me i s3 = Ok (tt, s4) /\
        on_s bs_end_op s4 = Ok (tt, s5) /\ wrote s a i ip off data s5 a' ip' tr) \/
     (writei pt fuel i true addr off (Z.of_nat (length data)) s2 = Panic "balloc: out of blocks" /\
      forall l, in_file l -> covers off (Z.of_nat (length data)) l -> disk_short (f_sb s) (a_disk a) (i_addrs ip) l)).
Proof.
  intros R Hl Hf Hoff Hmax Ha Hsrc Hn. destruct (rest_begin s a i ip R Hl) as (x & E1 & B & G).
  set (s1 := set_s x s) in *. set (ip1 := set_ilock (mksl 1 me) ip). set (s2 := upd_ino i ip1 s1).
  assert (zidx (f_it s1) i = Some ip) as Hi1 by apply R.
  exists s1, s2. split; [done|]. split; [by apply ilock_rest; first [done|apply R]|].
  assert (file_state s2 (tx_start a) i ip1) as F2.
  { apply good_file_state; [by apply good_file_lock|exact B|by eapply upd_ino_lookup|done|done]. }
  pose proof (Z.mod_pos_bound off BSIZE ltac:(done)) as Hmod.
  destruct (writei_spec pt fuel 4 s2 (tx_start a) i ip1 true addr data off F2 Hoff Hmax Ha Hsrc) as
    [(s3 & b & ip3 & E3 & F3 & Esb & Ek & (l & El) & _ & Hd & Ht & Hb & (d & Ed) & Hsame & Hg & Hsp)|[E3 Hsh]];
    [lia|split; cbn; unfold LOGCAP; lia| |right; split; [done|]].
  2:{ intros k Hk1 Hk2. specialize (Hsh k Hk1 Hk2). unfold disk_short in *. pose proof (rs_file _ _ _ _ _ _ _ R) as G0.
      assert (forall m, bs_blk m -> a_view a m = a_disk a m) as Hv
        by (intros m [Hm _]; by apply (quiescent_disk _ _ _ m (rs_q _ _ _ _ _ _ _ R))).
      change (nfree (f_sb s) (a_view a) < lacks (a_view a) (i_addrs ip) k) in Hsh.
      by rewrite (nfree_file _ _ _ ip G0 Hv), (lacks_file _ _ _ ip G0 Hv) in Hsh. }
  left. set (ip4 := after ip l (Z.max (i_size ip) (off + Z.of_nat (length data)))).
  assert (ip4 = set_ilock (mksl 0 0) ip3) as E4 by (by rewrite El).
  pose proof (of_ip _ _ _ _ (fi_open _ _ _ _ F3)) as Hi3.
  pose proof (iunlock_mine me s3 i ip3 Hi3 ltac:(by rewrite El) ltac:(rewrite El; apply R)) as EU.
  set (s4 := mkfs _ _ _ _ _) in EU.
  assert (file_state s4 b i ip4) as F4.
  { apply good_file_state; [rewrite E4; apply good_file_lock, (file_state_good _ _ _ _ F3)|apply F3| |apply F3|apply F3].
    rewrite E4. by eapply (upd_ino_lookup s3). }
  destruct (rest_end s a i ip s4 b ip4 R F4 Hd Ht) as (y & a' & tr & k & E5 & Q' & Hs' & Hdk & G' & Etr & Hcs & Hap).
  exists s3, s4, (set_s y s4), a', ip4, tr. split; [done|]. split; [done|]. split; [done|].
  assert (at_rest (set_s y s4) a' i ip4) as R'.
  { eapply rest_intro; try done; [apply R|apply R| |exists d; change (f_sb s4) with (f_sb s3); rewrite Esb; rewrite El in Ed; exact Ed].
    destruct (rs_range _ _ _ _ _ _ _ R). by eapply file_ino_range. }
  eapply wrote_intro; try done; [by rewrite El in Hb|by rewrite El in Hg|by rewrite El in Hsp].
Qed.

(** ** The loop of [filewrite] *)

Implicit Types (y : sys (lst C)).


(** [y'] is [y] with the file [f] replaced by [x], and another file system. *)
Definition advanced y (f : Z) (x : file) y' : Prop :=
  ftable y' = <[Z.to_nat f := x]> (ftable y) /\ y_pipes y' = y_pipes y /\ ofile y' = ofile y.


Lemma write_chunk_spec y a f x ip addr data :
  zidx (ftable y) f = Some x -> at_rest (y_fs y) a (f_ip x) ip -> (1 <= lfuel)%nat -> (1 <= fuel)%nat ->
  0 <= f_off x <= i_size ip -> f_off x + Z.of_nat (length data) <= MAXFILE * BSIZE -> 0 <= addr < 2 ^ 64 ->
  src_ok pt fuel (f_k (y_fs y)) true addr data -> 0 < Z.of_nat (length data) <= 3 * BSIZE ->
  (exists y' a' ip' tr, write_chunk me pt fuel sleep f addr (Z.of_nat (length data)) y = Ok (Z.of_nat (length data), y') /\
     wrote (y_fs y) a (f_ip x) ip (f_off x) data (y_fs y') a' ip' tr /\ advanced y f (set_off (f_off x + Z.of_nat (length data)) x) y') \/
  (write_chunk me pt fuel sleep f addr (Z.of_nat (length data)) y = Panic "balloc: out of blocks" /\
   forall l, in_file l -> covers (f_off x) (Z.of_nat (length data)) l -> disk_short (f_sb (y_fs y)) (a_disk a) (i_addrs ip) l).
Proof.
  intros Hx R Hl Hf Hoff Hmax Ha Hsrc Hn. destruct (write_tx (y_fs y) a (f_ip x) ip addr data (f_off x) R Hl Hf Hoff Hmax Ha Hsrc ltac:(lia))
    as (s1 & s2 & E1 & E2 & W). unfold write_chunk, getf, y_begin_op, y_end_op. mrun (M_rd_Ok ftable f y x Hx). mrun (on_fs_Ok _ y _ _ E1).
  mrun (on_fs_Ok (ilock me fuel sleep (f_ip x)) (set_fs s1 y) _ _ E2). change (set_fs s2 (set_fs s1 y)) with (set_fs s2 y).
  mrun (M_rd_Ok ftable f (set_fs s2 y) x Hx).
  destruct W as [(s3 & s4 & s5 & a' & ip' & tr & E3 & E4 & E5 & W)|[E3 Hsh]].
  2:{ right. split; [|done]. unfold mbind at 1, M_bind at 1. by rewrite (on_fs_Panic _ (set_fs s2 y) _ E3). }
  left. mrun (on_fs_Ok _ (set_fs s2 y) _ _ E3). change (set_fs s3 (set_fs s2 y)) with (set_fs s3 y).
  destruct (Z.ltb_spec 0 (Z.of_nat (length data))); [|lia]. mrun (updf_Ok (set_fs s3 y) f x (fun x => set_off (u32 (f_off x + Z.of_nat (length data))) x) Hx).
  change (MAXFILE * BSIZE) with 274432 in Hmax. rewrite u32_small by lia. set (y3 := set_ftable _ _).
  mrun (on_fs_Ok (iunlock me (f_ip x)) y3 _ _ E4). mrun (on_fs_Ok (on_s bs_end_op) (set_fs s4 y3) _ _ E5).
  exists (set_fs s5 (set_fs s4 y3)), a', ip', tr. split_and!; done.
Qed.

(** The disk [V] holds the first [c] bytes of [data], written at [off] to the
    file [ip] of the disk [V0], and whatever else [V0] held. *)
Record prefix_on (sb : superblock) (V0 : Z -> list Z) (ip : inode) (off : Z) (data : list Z) (c : Z) (V : Z -> list Z) : Prop := {
  px_file : holds_file sb V (i_inum ip) (patch (file_byte V0 (i_addrs ip)) off (take (Z.to_nat c) data)) (Z.max (i_size ip) (off + c));
  px_same : forall n, foreign sb V0 ip n -> V n = V0 n;
  px_inodes : other_inodes sb V0 V (i_inum ip)
}.

Section loop.
Context (sb : superblock) (V0 : Z -> list Z) (ip0 : inode) (off : Z) (data : list Z) (k0 : km) (f addr : Z).
Context (Hl : (1 <= lfuel)%nat) (Hf : (1 <= fuel)%nat) (Ha : 0 <= addr < 2 ^ 64) (Hoff : 0 <= off <= i_size ip0).
Context (Hmax : off + Z.of_nat (length data) <= MAXFILE * BSIZE) (Hsrc : src_ok pt fuel k0 true addr data).
Notation n := (Z.of_nat (length data)).

(** The state of the loop when [i] bytes are written. *)
Record progress y a (x : file) (ip : inode) (i : Z) : Prop := {
  pg_x : zidx (ftable y) f = Some x;
  pg_rest : at_rest (y_fs y) a (f_ip x) ip;
  pg_off : f_off x = off + i;
  pg_i : 0 <= i <= n;
  pg_step : i = n \/ (write_max | i);
  pg_size : i_size ip = Z.max (i_size ip0) (off + i);
  pg_byte : forall o, 0 <= o < MAXFILE * BSIZE ->
    file_byte (a_disk a) (i_addrs ip) o = patch (file_byte V0 (i_addrs ip0)) off (take (Z.to_nat i) data) o;
  pg_sb : f_sb (y_fs y) = sb;
  pg_k : f_k (y_fs y) = k0;
  pg_inum : i_inum ip = i_inum ip0;
  pg_same : forall m, foreign sb V0 ip0 m -> foreign sb (a_disk a) ip m /\ a_disk a m = V0 m;
  pg_inodes : other_inodes sb V0 (a_disk a) (i_inum ip0);
  pg_spends : spends sb V0 (i_addrs ip0) (a_disk a) (i_addrs ip) (blocks_of off n)
}.

Lemma progress_prefix y a x ip i : progress y a x ip i -> prefix_on sb V0 ip0 off data i (a_disk a).
Proof.
  intros []. split; [|intros m Hm; by apply pg_same0|done]. destruct (at_rest_holds _ _ _ _ _ _ _ pg_rest0) as [H1 H2].
  rewrite pg_sb0, pg_inum0 in H1, H2. split; [by rewrite H1|]. intros o Ho. by rewrite H2, pg_byte0.
Qed.

(** How much the next transaction writes. *)
Definition piece (i : Z) : Z := if write_max <? n - i then write_max else n - i.

Lemma piece_range i : 0 <= i < n -> 0 < piece i <= 3 * BSIZE /\ i + piece i <= n.
Proof. intros Hi. unfold piece. change write_max with 3072. change BSIZE with 1024. destruct (Z.ltb_spec 3072 (n - i)); lia. Qed.

Lemma progress_chunk y a x ip i :
  progress y a x ip i -> i < n ->
  (exists y' a' ip' tr, write_chunk me pt fuel sleep f (u64 (addr + i)) (piece i) y = Ok (piece i, y') /\
     progress y' a' (set_off (off + (i + piece i)) x) ip' (i + piece i) /\ advanced y f (set_off (off + (i + piece i)) x) y' /\
     bc_tr (lc (f_s (y_fs y'))) = bc_tr (lc (f_s (y_fs y))) ++ tr /\
     (exists k, crash_safe st (a_disk a) tr k (a_disk a) (a_disk a')) /\ (forall m, blk m -> a_disk a' m = apply_tr tr (a_disk a) m)) \/
  (write_chunk me pt fuel sleep f (u64 (addr + i)) (piece i) y = Panic "balloc: out of blocks" /\
   disk_short sb V0 (i_addrs ip0) (blocks_of off n)).
Proof.
  intros P Hi. pose proof (pg_i _ _ _ _ _ P) as Hi0. destruct (piece_range i ltac:(lia)) as [Hp1 Hp2].
  assert (Z.of_nat (length (slice i (piece i) data)) = piece i) as El by (rewrite length_slice by lia; lia).
  assert (in_file (blocks_of off n)) as HL by (apply blocks_of_in_file; lia).
  assert (covers (off + i) (piece i) (blocks_of off n)) as HC by (intros o Ho; apply blocks_of_covers; lia).
  pose proof (pg_off _ _ _ _ _ P) as Eo. pose proof (pg_size _ _ _ _ _ P) as Es.
  destruct (write_chunk_spec y a f x ip (u64 (addr + i)) (slice i (piece i) data) (pg_x _ _ _ _ _ P) (pg_rest _ _ _ _ _ P) Hl Hf)
    as [(y' & a' & ip' & tr & E & W & A)|[E Hsh]]; rewrite ?El, ?Eo in *; try lia.
  { apply Z.mod_pos_bound. done. }
  { rewrite (pg_k _ _ _ _ _ P). apply src_ok_slice; done || lia. }
  2:{ right. split; [done|]. eapply spends_short; [apply P|]. rewrite <- (pg_sb _ _ _ _ _ P). by apply Hsh. }
  left. exists y', a', ip', tr. replace (off + i + piece i) with (off + (i + piece i)) in A by lia. split_and!; try done; try apply W.
  destruct W as [W1 W2 W3 W4 W5 W6 W7 W8 W9 W10 _ _ _]. destruct P as [P1 P2 P3 P4 P5 P6 P7 P8 P9 P10 P11 P12 P13]. destruct A as (A1 & A2 & A3). split; try done.
  - rewrite A1. apply zidx_insert_eq. by eapply zidx_lt.
  - lia.
  - unfold piece. destruct (Z.ltb_spec write_max (n - i)); [|left; lia]. right. destruct P5 as [|P5]; [lia|]. by apply Z.divide_add_r.
  - rewrite W5, P6, El. lia.
  - intros o Ho. rewrite W6 by done. rewrite <- patch_app by lia. unfold patch at 1 2. case_decide; [done|]. by apply P7.
  - congruence.
  - congruence.
  - congruence.
  - intros m Hm. destruct (P11 m Hm) as [H1 H2]. rewrite <- P8 in H1. rewrite W8 by done. split; [|done].
    rewrite <- P8. by eapply foreign_grown.
  - intros m Em Hm. rewrite <- (P12 m Em Hm), <- P8. rewrite P10 in W9. apply W9; by rewrite ?P8.
  - eapply spends_trans; [exact P13|]. rewrite <- P8. rewrite El in W10. by apply W10.
Qed.

(** A crash leaves a prefix of whole pieces, of at least [i] bytes. *)
Definition some_prefix (i : Z) (V : Z -> list Z) : Prop :=
  exists c, i <= c <= n /\ (c = n \/ (write_max | c)) /\ prefix_on sb V0 ip0 off data c V.

Lemma progress_some y a x ip i : progress y a x ip i -> some_prefix i (a_disk a).
Proof. intros P. exists i. pose proof (pg_i _ _ _ _ _ P). split; [lia|]. split; [apply P|by eapply progress_prefix]. Qed.

Lemma some_prefix_le i j V : i <= j -> some_prefix j V -> some_prefix i V.
Proof. intros Hij (c & Hc & H). exists c. split; [lia|done]. Qed.

Lemma crash_among_impl d tr (P Q : (Z -> list Z) -> Prop) : (forall V, P V -> Q V) -> crash_among st d tr P -> crash_among st d tr Q.
Proof.
  intros H K j d1 d2 s0 a0 Hj Hr F. destruct (K j d1 d2 s0 a0 Hj Hr F) as (s1 & a1 & V & E & A & N & Hd & HP & Hm). exists s1, a1, V.
  split_and!; try done. by apply H.
Qed.

Lemma filewrite_loop k y a x ip i :
  progress y a x ip i -> (Z.to_nat (n - i) < k)%nat ->
  (exists y' a' ip' tr, filewrite_from me pt fuel sleep k f addr n i y = Ok (n, y') /\
     progress y' a' (set_off (off + n) x) ip' n /\ advanced y f (set_off (off + n) x) y' /\
     bc_tr (lc (f_s (y_fs y'))) = bc_tr (lc (f_s (y_fs y))) ++ tr /\ crash_among st (a_disk a) tr (some_prefix i)) \/
  (filewrite_from me pt fuel sleep k f addr n i y = Panic "balloc: out of blocks" /\
   disk_short sb V0 (i_addrs ip0) (blocks_of off n)).
Proof.
  revert y a x ip i. induction k as [|k IH]; intros y a x ip i P Hk; [lia|]. cbn [filewrite_from].
  pose proof (pg_i _ _ _ _ _ P) as Hi. destruct (Z.ltb_spec i n) as [Hlt|Hge]; cbn [negb].
  2:{ assert (i = n) as -> by lia. left. exists y, a, ip, []. pose proof (pg_off _ _ _ _ _ P) as Eo.
      assert (set_off (off + n) x = x) as -> by (rewrite <- Eo; by destruct x).
      split_and!; [done|done| |by rewrite app_nil_r|].
      - split; [|done]. symmetry. apply list_insert_id. by apply zidx_Some, (pg_x _ _ _ _ _ P).
      - eapply crash_among_idle; [apply P|]. by eapply progress_some. }
  destruct (piece_range i ltac:(lia)) as [Hp1 Hp2]. fold (piece i).
  destruct (progress_chunk y a x ip i P Hlt) as [(y1 & a1 & ip1 & tr1 & E1 & P1 & A1 & T1 & (c & C1) & D1)|[E1 Hsh]].
  2:{ right. split; [|done]. unfold mbind at 1, M_bind at 1. by rewrite E1. }
  mrun E1. rewrite Z.eqb_refl. cbn [negb].
  destruct (IH y1 a1 _ ip1 _ P1 ltac:(lia)) as [(y' & a' & ip' & tr & E & P' & A & T & K)|E]; [left|by right].
  exists y', a', ip', (tr1 ++ tr). split; [done|]. split; [done|]. split_and!.
  - destruct A1 as (B1 & B2 & B3), A as (F1 & F2 & F3). split_and!; [|congruence|congruence]. by rewrite F1, B1, list_insert_insert_eq.
  - by rewrite T, T1, app_assoc.
  - eapply crash_among_app; [eapply crash_safe_among; [exact C1|by eapply progress_some|]|exact D1|].
    + apply (some_prefix_le i (i + piece i)); [lia|]. by eapply progress_some.
    + eapply crash_among_impl; [|exact K]. intros V. apply some_prefix_le. lia.
Qed.
End loop.

(** C3: [write] to a file on disk, from the descriptor to the disk.  For an open,
    writable file whose inode nobody has locked, no transaction in progress,
    an offset within the file and a user buffer that can be read, [filewrite]
    returns the number of bytes and advances the offset; the disk then holds
    the old file with the data at the old offset, its size in the inode, and
    every block and every inode of anything else as it was.  After a crash at
    any write to the disk on the way, recovery ends with a disk that holds the
    file with some prefix of the data (all of it, or whole pieces of 3072
    bytes), and again everything else as it was.  Otherwise [balloc] panics,
    and then the disk had fewer free blocks than the file lacked to cover the
    bytes written. *)
Theorem filewrite_correct psleep killed devsw y a f x ip addr data
    (Hx : zidx (ftable y) f = Some x) (Ht : f_type x = FD_INODE) (Hw : f_writable x = true)
    (R : at_rest (y_fs y) a (f_ip x) ip) (Hl : (1 <= lfuel)%nat) (Hf : (1 <= fuel)%nat)
    (Hoff : 0 <= f_off x <= i_size ip) (Hmax : f_off x + Z.of_nat (length data) <= MAXFILE * BSIZE)
    (Ha : 0 <= addr < 2 ^ 64) (Hsrc : src_ok pt fuel (f_k (y_fs y)) true addr data) :
  let n := Z.of_nat (length data) in
  let sb := f_sb (y_fs y) in
  (exists y' a' ip' tr, filewrite me pt fuel sleep psleep killed devsw f addr n y = Ok (n, y') /\
     advanced y f (set_off (f_off x + n) x) y' /\ at_rest (y_fs y') a' (f_ip x) ip' /\ i_inum ip' = i_inum ip /\
     prefix_on sb (a_disk a) ip (f_off x) data n (a_disk a') /\
     bc_tr (lc (f_s (y_fs y'))) = bc_tr (lc (f_s (y_fs y))) ++ tr /\
     crash_among st (a_disk a) tr (some_prefix sb (a_disk a) ip (f_off x) data 0)) \/
  (filewrite me pt fuel sleep psleep killed devsw f addr n y = Panic "balloc: out of blocks" /\
   disk_short sb (a_disk a) (i_addrs ip) (blocks_of (f_off x) n)).
Proof.
  intros n sb. unfold filewrite, getf. mrun (M_rd_Ok ftable f y x Hx). rewrite Ht, Hw. cbn [negb].
  assert (progress sb (a_disk a) ip (f_off x) data (f_k (y_fs y)) f y a x ip 0) as P.
  { split; try done; try lia; [right; apply Z.divide_0_r|intros o _; by rewrite patch_nil|unfold spends; lia]. }
  destruct (filewrite_loop _ _ _ _ _ _ f addr Hl Hf Ha Hoff Hmax Hsrc (Datatypes.S (Z.to_nat n)) y a x ip 0 P ltac:(fold n; lia))
    as [(y' & a' & ip' & tr & E & P' & A & T & K)|[E Hsh]]; fold n in E.
  - left. exists y', a', ip', tr. mrun E. rewrite Z.eqb_refl. split_and!; try done; [by destruct P'|by destruct P'|by eapply progress_prefix].
  - right. split; [|done]. unfold mbind at 1, M_bind at 1. by rewrite E.
Qed.
End tx.
End write.
