(* ===== verification/FileRefs.v ===== *)
(** * Descriptors, reference counts and the ends of pipes

    The reference count of an open file is the number of descriptors that name
    it, and a pipe lives as long as a file names one of its ends.  The system
    calls on descriptors, [fork] and [exit] keep this, so no file and no pipe
    is used after it was freed, and none is lost. *)

From S2P Require Import Prelude Riscv Mem Kalloc Vm Sleeplock Bytes Store Fs ProcMem Pipe File.

(** ** Counting *)

(** Descriptors of one table, and of all tables, that name [f]. *)
Fixpoint occ (f : Z) (t : list (option Z)) : Z :=
  match t with
  | [] => 0
  | o :: t' => (if decide (o = Some f) then 1 else 0) + occ f t'
  end.

Fixpoint refs (tabs : list (list (option Z))) (f : Z) : Z :=
  match tabs with
  | [] => 0
  | t :: tabs' => occ f t + refs tabs' f
  end.

Lemma occ_range f t : 0 <= occ f t <= Z.of_nat (length t).
Proof. induction t as [|o t IH]; cbn [occ length]; [lia|]. case_decide; lia. Qed.

Lemma occ_insert f t i o v :
  t !! i = Some o -> occ f (<[i := v]> t) = occ f t - (if decide (o = Some f) then 1 else 0) + (if decide (v = Some f) then 1 else 0).
Proof.
  revert i. induction t as [|w t IH]; intros [|i] H; try done.
  - injection H as ->. cbn. lia.
  - change (<[Datatypes.S i := v]> (w :: t)) with (w :: <[i := v]> t). cbn [occ]. rewrite (IH i) by done. lia.
Qed.

Lemma refs_insert f tabs p t t' : tabs !! p = Some t -> refs (<[p := t']> tabs) f = refs tabs f - occ f t + occ f t'.
Proof.
  revert p. induction tabs as [|w tabs IH]; intros [|p] H; try done.
  - injection H as ->. cbn. lia.
  - change (<[Datatypes.S p := t']> (w :: tabs)) with (w :: <[p := t']> tabs). cbn [refs]. rewrite (IH p) by done. lia.
Qed.

Lemma refs_range f tabs : Forall (fun t => length t = 16%nat) tabs -> 0 <= refs tabs f <= 16 * Z.of_nat (length tabs).
Proof. induction 1 as [|t tabs Ht _ IH]; cbn [refs length]; [lia|]. pose proof (occ_range f t). lia. Qed.

Lemma refs_pos f tabs p t i : tabs !! p = Some t -> t !! i = Some (Some f) -> 0 < refs tabs f.
Proof.
  intros Hp Hi. pose proof (refs_insert f tabs p t (<[i := None]> t) Hp) as E. rewrite (occ_insert f t i _ None Hi) in E.
  rewrite decide_True, decide_False in E by done.
  assert (forall tb, 0 <= refs tb f) as Hn by (induction tb as [|w tb IH]; cbn; [lia|pose proof (occ_range f w); lia]).
  specialize (Hn (<[p := <[i := None]> t]> tabs)). lia.
Qed.

(** The slot [fd] of the process [p]. *)
Definition slot (tabs : list (list (option Z))) (p fd : Z) : option (option Z) := t ← zidx tabs p; zidx t fd.
Definition set_slot (tabs : list (list (option Z))) (p fd : Z) (v : option Z) : list (list (option Z)) :=
  match zidx tabs p with Some t => <[Z.to_nat p := <[Z.to_nat fd := v]> t]> tabs | None => tabs end.

Lemma slot_inv tabs p fd o : slot tabs p fd = Some o -> exists t, zidx tabs p = Some t /\ zidx t fd = Some o.
Proof. unfold slot. destruct (zidx tabs p) as [t|] eqn:E; [|done]. intros H. by exists t. Qed.

Lemma refs_set_slot tabs p fd o v f :
  slot tabs p fd = Some o ->
  refs (set_slot tabs p fd v) f = refs tabs f - (if decide (o = Some f) then 1 else 0) + (if decide (v = Some f) then 1 else 0).
Proof.
  intros (t & Hp & Ht)%slot_inv. unfold set_slot. rewrite Hp. apply zidx_Some in Hp as [_ Hp], Ht as [_ Ht].
  rewrite (refs_insert f _ _ t _ Hp), (occ_insert f t _ o v Ht). lia.
Qed.

Lemma slot_set_eq tabs p fd o v : slot tabs p fd = Some o -> slot (set_slot tabs p fd v) p fd = Some v.
Proof.
  intros (t & Hp & Ht)%slot_inv. unfold slot, set_slot. rewrite Hp. rewrite zidx_insert_eq by (by eapply zidx_lt).
  cbn. apply zidx_insert_eq. by eapply zidx_lt.
Qed.

Lemma slot_set_ne tabs p fd o v q fd' :
  slot tabs p fd = Some o -> (q, fd') <> (p, fd) -> slot (set_slot tabs p fd v) q fd' = slot tabs q fd'.
Proof.
  intros (t & Hp & Ht)%slot_inv Hne. unfold slot, set_slot. rewrite Hp. pose proof (zidx_lt _ _ _ Hp). pose proof (zidx_lt _ _ _ Ht).
  destruct (decide (q = p)) as [->|Hq].
  - rewrite zidx_insert_eq, Hp by done. cbn. apply zidx_insert_ne; [lia|]. congruence.
  - by rewrite zidx_insert_ne by lia.
Qed.

Lemma refs_slot tabs p fd f : slot tabs p fd = Some (Some f) -> 0 < refs tabs f.
Proof. intros (t & Hp & Ht)%slot_inv. apply zidx_Some in Hp as [_ Hp], Ht as [_ Ht]. by eapply refs_pos. Qed.

(** All tables have 16 slots. *)
Definition tabs_ok (tabs : list (list (option Z))) : Prop := (length tabs <= 64)%nat /\ Forall (fun t => length t = 16%nat) tabs.

Lemma tabs_ok_set tabs p fd v : tabs_ok tabs -> tabs_ok (set_slot tabs p fd v).
Proof.
  intros [H1 H2]. unfold set_slot. destruct (zidx tabs p) as [t|] eqn:E; [|done]. split; [by rewrite length_insert|].
  apply Forall_insert; [done|]. rewrite length_insert. apply zidx_Some in E as [_ E]. by apply (Forall_lookup_1 _ _ _ _ H2 E).
Qed.

Lemma slot_is tabs p fd : tabs_ok tabs -> 0 <= p < Z.of_nat (length tabs) -> 0 <= fd < 16 -> exists o, slot tabs p fd = Some o.
Proof.
  intros [_ H] Hp Hfd. destruct (zidx_is_Some tabs p Hp) as [t Ht]. unfold slot. rewrite Ht. cbn. apply zidx_Some in Ht as [_ Ht].
  pose proof (Forall_lookup_1 _ _ _ _ H Ht) as Hl. cbn in Hl. apply zidx_is_Some. lia.
Qed.

(** ** The invariant *)

(** Reference counts: [x] is how many more references to a file the code in
    progress has than there are descriptors. *)
Record tab_inv (x : Z -> Z) (ft : list file) (tabs : list (list (option Z))) : Prop := {
  tv_len : length ft = 100%nat;
  tv_tabs : tabs_ok tabs;
  tv_x : forall f, -2 <= x f <= 2;
  tv_fd : forall p fd f, slot tabs p fd = Some (Some f) -> 0 <= f < NFILE;
  tv_ref : forall f y, zidx ft f = Some y -> f_ref y = refs tabs f + x f;
  tv_none : forall f y, zidx ft f = Some y -> f_ref y = 0 -> f_type y = FD_NONE
}.

Definition end_open (w : bool) (pi : pipe) : Z := if w then writeopen pi else readopen pi.

(** The files that name the end [w] of the pipe [a]. *)
Definition names_end (y : file) (a : Z) (w : bool) : Prop := f_type y = FD_PIPE /\ f_pipe y = a /\ f_writable y = w.

(** An end of a pipe is open as long as just one file names it, and a pipe
    lives as long as one of its ends is open. *)
Record pipe_inv (ft : list file) (pipes : gmap Z pipe) : Prop := {
  pv_pipe : forall f y a w, zidx ft f = Some y -> names_end y a w -> exists pi, pipes !! a = Some pi /\ end_open w pi <> 0;
  pv_uniq : forall f f' y y' a w, zidx ft f = Some y -> zidx ft f' = Some y' -> names_end y a w -> names_end y' a w -> f = f';
  pv_open : forall a pi w, pipes !! a = Some pi -> end_open w pi <> 0 -> exists f y, zidx ft f = Some y /\ names_end y a w;
  pv_live : forall a pi, pipes !! a = Some pi -> exists w, end_open w pi <> 0
}.

(** The pages of pipes are allocated pages. *)
Definition pages_inv (end_ : Z) (k : km) (pipes : gmap Z pipe) : Prop :=
  0 <= end_ /\ exists l, km_ok end_ k l /\ forall a pi, pipes !! a = Some pi -> page_ok end_ a /\ a ∉ l.

Section inv.
Context {S : Type} (end_ : Z).
Implicit Types (s : sys S) (x : Z -> Z).

Record fd_inv x s : Prop := {
  fv_tab : tab_inv x (ftable s) (ofile s);
  fv_pipe : pipe_inv (ftable s) (y_pipes s);
  fv_page : pages_inv end_ (f_k (y_fs s)) (y_pipes s)
}.

Definition bump x (f d : Z) : Z -> Z := fun g => if decide (g = f) then x g + d else x g.

Lemma file_is x s f : fd_inv x s -> 0 <= f < NFILE -> exists y, zidx (ftable s) f = Some y.
Proof. intros [[H _ _ _ _ _] _ _] Hf. apply zidx_is_Some. rewrite H. unfold NFILE in Hf. lia. Qed.

(** *** One file changes and keeps its end of a pipe *)

Lemma pipe_inv_same ft pipes f y y' :
  pipe_inv ft pipes -> zidx ft f = Some y -> (forall a w, names_end y' a w <-> names_end y a w) -> pipe_inv (<[Z.to_nat f := y']> ft) pipes.
Proof.
  intros [P1 P2 P3 P4] Hf Hn. pose proof (zidx_lt _ _ _ Hf) as Hlt.
  assert (forall g z, zidx (<[Z.to_nat f := y']> ft) g = Some z -> exists z', zidx ft g = Some z' /\ forall a w, names_end z a w <-> names_end z' a w) as Hz.
  { intros g z. destruct (decide (g = f)) as [->|Hne].
    - rewrite zidx_insert_eq by done. intros [= ->]. by exists y.
    - rewrite zidx_insert_ne by lia. intros H. by exists z. }
  split; [| | |done].
  - intros g z a w (z' & Hz' & Hw)%Hz Ha. eapply P1; [exact Hz'|]. by apply Hw.
  - intros g g' z z' a w (z1 & H1 & W1)%Hz (z2 & H2 & W2)%Hz Ha Ha'. eapply P2; [exact H1|exact H2|by apply W1|by apply W2].
  - intros a pi w Ha Ho. destruct (P3 a pi w Ha Ho) as (g & z & Hg & Hw). destruct (decide (g = f)) as [->|Hne].
    + exists f, y'. rewrite zidx_insert_eq by done. split; [done|]. apply Hn. congruence.
    + exists g, z. by rewrite zidx_insert_ne by lia.
Qed.

(** The count of one file changes. *)
Lemma tab_inv_ref x ft tabs f y y' d :
  tab_inv x ft tabs -> zidx ft f = Some y -> f_ref y' = f_ref y + d -> (f_ref y' = 0 -> f_type y' = FD_NONE) -> -2 <= x f + d <= 2 ->
  tab_inv (bump x f d) (<[Z.to_nat f := y']> ft) tabs.
Proof.
  intros [T1 T2 T3 T4 T5 T6] Hf Er En Hd. pose proof (zidx_lt _ _ _ Hf) as Hlt. split; try done.
  - by rewrite length_insert.
  - intros g. unfold bump. destruct (decide (g = f)) as [->|]; [done|apply T3].
  - intros g z. unfold bump. destruct (decide (g = f)) as [->|Hne].
    + rewrite zidx_insert_eq by done. intros [= <-]. rewrite Er, (T5 f y Hf). lia.
    + rewrite zidx_insert_ne by lia. apply T5.
  - intros g z. destruct (decide (g = f)) as [->|Hne].
    + rewrite zidx_insert_eq by done. by intros [= <-].
    + rewrite zidx_insert_ne by lia. apply T6.
Qed.

(** A slot changes. *)
Definition moved x (o v : option Z) : Z -> Z :=
  fun g => x g + (if decide (o = Some g) then 1 else 0) - (if decide (v = Some g) then 1 else 0).

Lemma tab_inv_slot x ft tabs p fd o v :
  tab_inv x ft tabs -> slot tabs p fd = Some o -> (forall f, v = Some f -> 0 <= f < NFILE) -> (forall f, -2 <= moved x o v f <= 2) ->
  tab_inv (moved x o v) ft (set_slot tabs p fd v).
Proof.
  intros [T1 T2 T3 T4 T5 T6] Hs Hv Hm. split; try done.
  - by apply tabs_ok_set.
  - intros q fd' f. destruct (decide ((q, fd') = (p, fd))) as [[= -> ->]|Hne].
    + rewrite (slot_set_eq _ _ _ _ _ Hs). intros [= ->]. by apply Hv.
    + rewrite (slot_set_ne _ _ _ _ _ _ _ Hs Hne). apply T4.
  - intros f y Hf. rewrite (refs_set_slot _ _ _ _ _ _ Hs), (T5 f y Hf). unfold moved. lia.
Qed.

Lemma tab_inv_ext x x' ft tabs : (forall f, x f = x' f) -> tab_inv x ft tabs -> tab_inv x' ft tabs.
Proof. intros E []. split; try done; intros; rewrite <- E; auto. Qed.

Lemma fd_inv_ext x x' s : (forall f, x f = x' f) -> fd_inv x s -> fd_inv x' s.
Proof. intros E []. split; [by eapply tab_inv_ext|done|done]. Qed.

(** *** The last file of an end of a pipe is closed *)

Definition close_end (w : bool) (pi : pipe) : pipe := fst (pipeclose w pi).

Lemma end_close_eq w pi : end_open w (close_end w pi) = 0.
Proof. by destruct w. Qed.

Lemma end_close_ne w pi : end_open (negb w) (close_end w pi) = end_open (negb w) pi.
Proof. by destruct w. Qed.

Lemma pipeclose_free w pi : snd (pipeclose w pi) = (end_open (negb w) pi =? 0).
Proof. destruct w; cbn; [by rewrite andb_true_r|done]. Qed.

Lemma other_end (v w : bool) : v <> w -> v = negb w.
Proof. by destruct v, w. Qed.

Lemma pipe_inv_close ft pipes f y a w pi y' :
  pipe_inv ft pipes -> zidx ft f = Some y -> names_end y a w -> pipes !! a = Some pi -> f_type y' = FD_NONE ->
  pipe_inv (<[Z.to_nat f := y']> ft) (if end_open (negb w) pi =? 0 then delete a pipes else <[a := close_end w pi]> pipes).
Proof.
  intros [P1 P2 P3 P4] Hf Hn Ha Hy'. pose proof (zidx_lt _ _ _ Hf) as Hlt.
  assert (forall g z b v, zidx (<[Z.to_nat f := y']> ft) g = Some z -> names_end z b v ->
    g <> f /\ zidx ft g = Some z /\ (b = a -> v = negb w /\ end_open (negb w) pi <> 0)) as Hold.
  { intros g z b v Hg Hz. destruct (decide (g = f)) as [->|Hne].
    { rewrite zidx_insert_eq in Hg by done. injection Hg as <-. destruct Hz as [Hz _]. congruence. }
    rewrite zidx_insert_ne in Hg by lia. split; [done|]. split; [done|]. intros ->.
    assert (v = negb w) as -> by (apply other_end; intros ->; apply Hne; by eapply P2). split; [done|].
    destruct (P1 g z a _ Hg Hz) as (pi' & Hpi' & Ho). rewrite Ha in Hpi'. by injection Hpi' as <-. }
  assert (forall b pi' v, pipes !! b = Some pi' -> end_open v pi' <> 0 -> (b, v) <> (a, w) ->
    exists g z, zidx (<[Z.to_nat f := y']> ft) g = Some z /\ names_end z b v) as Hkeep.
  { intros b pi' v Hb Ho Hbv. destruct (P3 b pi' v Hb Ho) as (g & z & Hg & Hz). exists g, z. split; [|done].
    rewrite zidx_insert_ne; [done|lia|]. intros <-. apply Hbv. rewrite Hf in Hg. injection Hg as <-.
    destruct Hn as (_ & <- & <-), Hz as (_ & -> & ->). done. }
  destruct (Z.eqb_spec (end_open (negb w) pi) 0) as [E0|E0]; split.
  - intros g z b v Hg Hz. destruct (Hold g z b v Hg Hz) as (_ & Hg' & Hb). destruct (decide (b = a)) as [->|Hba]; [by destruct (Hb eq_refl)|].
    rewrite lookup_delete_ne by done. by eapply P1.
  - intros g g' z z' b v Hg Hg' Hz Hz'. destruct (Hold _ _ _ _ Hg Hz) as (_ & K & _), (Hold _ _ _ _ Hg' Hz') as (_ & K' & _). by eapply P2.
  - intros b pi' v [Hba Hb]%lookup_delete_Some Ho. eapply Hkeep; [done|done|congruence].
  - intros b pi' [Hba Hb]%lookup_delete_Some. by eapply P4.
  - intros g z b v Hg Hz. destruct (Hold g z b v Hg Hz) as (_ & Hg' & Hb). destruct (decide (b = a)) as [->|Hba].
    + destruct (Hb eq_refl) as [-> Ho]. exists (close_end w pi). rewrite lookup_insert_eq. split; [done|]. by rewrite end_close_ne.
    + rewrite lookup_insert_ne by done. by eapply P1.
  - intros g g' z z' b v Hg Hg' Hz Hz'. destruct (Hold _ _ _ _ Hg Hz) as (_ & K & _), (Hold _ _ _ _ Hg' Hz') as (_ & K' & _). by eapply P2.
  - intros b pi' v [[<- <-]|[Hba Hb]]%lookup_insert_Some Ho; [|eapply Hkeep; [done|done|congruence]].
    destruct (decide (v = w)) as [->|Hv]; [by rewrite end_close_eq in Ho|]. apply other_end in Hv as ->. rewrite end_close_ne in Ho.
    eapply Hkeep; [done|done|]. intros [= Hv]. by destruct w.
  - intros b pi' [[<- <-]|[Hba Hb]]%lookup_insert_Some; [|by eapply P4]. exists (negb w). by rewrite end_close_ne.
Qed.

Lemma pages_inv_free k pipes a pi :
  pages_inv end_ k pipes -> pipes !! a = Some pi -> exists k', kfree end_ a k = Ok (tt, k') /\ pages_inv end_ k' (delete a pipes).
Proof.
  intros (He & l & K & Hp) Ha. destruct (Hp a pi Ha) as [Hok Hni]. destruct (kfree_spec end_ k a l K Hok Hni He) as (k' & E & K' & _).
  exists k'. split; [done|]. split; [done|]. exists (a :: l). split; [done|]. intros b pb [Hne Hb]%lookup_delete_Some.
  destruct (Hp b pb Hb). split; [done|]. by apply not_elem_of_cons.
Qed.

Lemma pages_inv_set k pipes a pi pi' : pages_inv end_ k pipes -> pipes !! a = Some pi -> pages_inv end_ k (<[a := pi']> pipes).
Proof.
  intros (He & l & K & Hp) Ha. split; [done|]. exists l. split; [done|]. intros b pb [[<- <-]|[_ Hb]]%lookup_insert_Some; by eapply Hp.
Qed.
End inv.
