(* ===== verification/FileFd.v ===== *)
(** * The system calls on descriptors keep the reference counts *)

From S2P Require Import Prelude Riscv Mem Kalloc Vm Sleeplock Bytes Store Fs FsRw ProcMem Pipe File FileRefs.

Section ops.
Context {S : Type} `{!BlockStore S}.
Context (end_ me pagetable : Z) (fuel : nat) (sleep : M (fstate S) unit).
Implicit Types (s : sys S) (x : Z -> Z).
Notation fd_inv := (fd_inv end_).

Lemma filedup_spec x s f y :
  fd_inv x s -> zidx (ftable s) f = Some y -> 1 <= f_ref y -> x f <= 1 ->
  let s' := set_ftable (<[Z.to_nat f := set_fref (f_ref y + 1) y]> (ftable s)) s in
  filedup f s = Ok (f, s') /\ fd_inv (bump x f 1) s'.
Proof.
  intros [T P K] Hf Hr Hx s'. pose proof (tv_ref _ _ _ T f y Hf) as Er. pose proof (tv_x _ _ _ T f) as Hxf.
  destruct (tv_tabs _ _ _ T) as [Hl Ht]. pose proof (refs_range f _ Ht) as Hrr. unfold filedup. mrun (getf_Ok _ _ _ Hf).
  destruct (Z.ltb_spec (f_ref y) 1); [lia|]. rewrite s32_small by lia. mrun (updf_Ok s f y (set_fref (f_ref y + 1)) Hf).
  split; [done|]. split; [|by eapply pipe_inv_same|done]. eapply tab_inv_ref; [done|done|done| |lia]. cbn. lia.
Qed.

Lemma get_fd_Ok s p fd o : slot (ofile s) p fd = Some o -> get_fd p fd s = Ok (o, s).
Proof.
  intros (t & Hp & Ht)%slot_inv. unfold get_fd. mrun (M_rd_Ok ofile p s t Hp). unfold lift. by rewrite (rd_Ok _ _ _ Ht).
Qed.

Lemma set_fd_Ok s p fd o v : slot (ofile s) p fd = Some o -> set_fd p fd v s = Ok (tt, set_ofile (set_slot (ofile s) p fd v) s).
Proof.
  intros (t & Hp & Ht)%slot_inv. unfold set_fd. mrun (M_rd_Ok ofile p s t Hp).
  erewrite M_bind_lift by (apply wr_Ok; by eapply zidx_lt). unfold M_wr, set_slot. by rewrite (M_alter_insert _ _ _ _ _ _ Hp), Hp.
Qed.

Lemma set_fd_inv x s p fd o v :
  fd_inv x s -> slot (ofile s) p fd = Some o -> (forall f, v = Some f -> 0 <= f < NFILE) -> (forall f, -2 <= moved x o v f <= 2) ->
  fd_inv (moved x o v) (set_ofile (set_slot (ofile s) p fd v) s).
Proof. intros [T P K] Hs Hv Hm. split; [by apply tab_inv_slot|done|done]. Qed.

(** ** [fileclose] *)

(** What [fileclose] does after the tables are in order: the last reference to
    an inode is given back in a transaction. *)
Definition put_back (y : file) : M (sys S) unit :=
  match f_type y with
  | FD_INODE | FD_DEVICE => if f_ref y =? 1 then y_begin_op;; on_fs (iput me fuel sleep (f_ip y));; y_end_op else mret tt
  | _ => mret tt
  end.

(** [s1] is [s] with the file [f] of the process closed. *)
Record closed s (f : Z) (y : file) s1 : Prop := {
  cl_file : exists y1, ftable s1 = <[Z.to_nat f := y1]> (ftable s) /\ f_ref y1 = f_ref y - 1 /\ (f_ref y1 <> 0 -> y1 = set_fref (f_ref y - 1) y);
  cl_fd : ofile s1 = ofile s;
  cl_pipes : f_ref y <> 1 \/ f_type y <> FD_PIPE -> y_pipes s1 = y_pipes s;
  cl_fs : f_ref y <> 1 \/ f_type y <> FD_PIPE -> y_fs s1 = y_fs s
}.

Lemma close_pipe_spec k s (f : Z) y y' :
  pipe_inv (ftable s) (y_pipes s) -> pages_inv end_ (f_k (y_fs s)) (y_pipes s) -> zidx (ftable s) f = Some y -> f_type y = FD_PIPE ->
  f_type y' = FD_NONE -> k = set_ftable (<[Z.to_nat f := y']> (ftable s)) s ->
  exists s1, close_pipe end_ (f_pipe y) (f_writable y) k = Ok (tt, s1) /\ ftable s1 = ftable k /\ ofile s1 = ofile s /\
    pipe_inv (ftable s1) (y_pipes s1) /\ pages_inv end_ (f_k (y_fs s1)) (y_pipes s1).
Proof.
  intros P K Hf Ht Hy' ->. destruct (pv_pipe _ _ P f y (f_pipe y) (f_writable y) Hf) as (pi & Ha & Ho); [done|].
  pose proof (pipe_inv_close _ _ f y (f_pipe y) (f_writable y) pi y' P Hf ltac:(done) Ha Hy') as P'.
  set (k := set_ftable _ s). assert (getp (f_pipe y) k = Ok (pi, k)) as Eg by (unfold getp; mgo; change (y_pipes k) with (y_pipes s); by rewrite Ha).
  unfold close_pipe. mrun Eg. pose proof (pipeclose_free (f_writable y) pi) as Ef. unfold close_end in P'.
  destruct (pipeclose (f_writable y) pi) as [pc fr]. cbn in Ef, P'. subst fr. destruct (end_open (negb (f_writable y)) pi =? 0).
  - mgo. destruct (pages_inv_free end_ _ _ _ _ K Ha) as (k' & E & K'). unfold on_km.
    eexists. split; [apply on_fs_Ok, on_k_Ok, E|]. done.
  - unfold putp. eexists. split; [done|]. split_and!; [done|done|done|]. by eapply pages_inv_set.
Qed.

Lemma fileclose_spec x s f y :
  fd_inv x s -> zidx (ftable s) f = Some y -> 1 <= f_ref y -> -1 <= x f ->
  exists s1, fileclose end_ me fuel sleep f s = put_back y s1 /\ fd_inv (bump x f (-1)) s1 /\ closed s f y s1.
Proof.
  intros [T P K] Hf Hr Hx. pose proof (tv_x _ _ _ T f) as Hxf. pose proof (zidx_lt _ _ _ Hf) as Hlt. unfold fileclose, fileclose_ref.
  mgo. mrun (getf_Ok _ _ _ Hf). destruct (Z.ltb_spec (f_ref y) 1); [lia|]. mgo. mrun (updf_Ok s f y (set_fref (f_ref y - 1)) Hf).
  set (y1 := set_fref (f_ref y - 1) y). set (s1 := set_ftable _ s). destruct (Z.ltb_spec 0 (f_ref y - 1)) as [Hlast|Hlast].
  { mgo. exists s1. unfold put_back. destruct (Z.eqb_spec (f_ref y) 1); [lia|]. split; [by destruct (f_type y)|]. split; [split|].
    - eapply tab_inv_ref; [done|done|cbn; lia|cbn; lia|lia].
    - by eapply pipe_inv_same.
    - done.
    - split; try done. exists y1. done. }
  assert (f_ref y = 1) as E1 by lia. assert (zidx (ftable s1) f = Some y1) as Hf1 by (by apply zidx_insert_eq).
  mgo. mrun (getf_Ok _ _ _ Hf1). mgo. mrun (updf_Ok s1 f y1 (fun z : file => set_ftype FD_NONE (set_fref 0 z)) Hf1). mgo.
  set (y2 := set_ftype _ _).
  assert (set_ftable (<[Z.to_nat f := y2]> (ftable s1)) s1 = set_ftable (<[Z.to_nat f := y2]> (ftable s)) s) as ->.
  { unfold s1. cbn [ftable set_ftable]. by rewrite list_insert_insert_eq. }
  set (s2 := set_ftable _ s). change (f_type y1) with (f_type y). change (f_pipe y1) with (f_pipe y).
  change (f_writable y1) with (f_writable y). change (f_ip y1) with (f_ip y).
  assert (tab_inv (bump x f (-1)) (ftable s2) (ofile s2)) as T2 by (eapply tab_inv_ref; [done|done|cbn; lia|done|lia]).
  unfold put_back. rewrite E1. cbn [Z.eqb].
  destruct (f_type y) eqn:Et.
  2:{ destruct (close_pipe_spec s2 s f y y2 P K Hf Et eq_refl eq_refl) as (s3 & E & F1 & F2 & P3 & K3). rewrite E. exists s3.
      split; [done|]. split; [split; [by rewrite F1, F2|done|done]|]. split; [|done|intros []; congruence..].
      exists y2. rewrite F1. split_and!; [done|cbn; lia|done]. }
  all: exists s2; split; [done|]; split; [split; [done| |done]|split; try done; exists y2; split_and!; [done|cbn; lia|done]].
  all: eapply pipe_inv_same; [done|done|]; intros a w; split; intros (H1 & _); cbn in H1; congruence.
Qed.

(** ** Descriptors *)

(** The first argument of a system call, as a descriptor. *)
Definition fd_arg s (tf : Z) : Z := s32 (ld64 (km_mem (f_k (y_fs s))) (tf + off_a0)).

(** [p] is a process. *)
Definition is_proc s (p : Z) : Prop := 0 <= p < Z.of_nat (length (ofile s)).

Lemma argfd_spec x s p tf :
  fd_inv x s -> is_proc s p ->
  (exists f y, 0 <= fd_arg s tf < 16 /\ slot (ofile s) p (fd_arg s tf) = Some (Some f) /\ zidx (ftable s) f = Some y /\
     argfd p tf 0 s = Ok (Some (fd_arg s tf, f), s)) \/
  (~ (exists f, slot (ofile s) p (fd_arg s tf) = Some (Some f)) /\ argfd p tf 0 s = Ok (None, s)).
Proof.
  intros I Hp. assert (argint tf 0 s = Ok (fd_arg s tf, s)) as Ea.
  { unfold argint, argraw. cbn [Z.leb Z.compare andb].
    rewrite (M_bind_Ok _ _ _ _ _ (on_fs_Ok (on_mem (fun m => ld64 m (tf + off_a0 + 8 * 0))) s _ (y_fs s) eq_refl)).
    unfold mret, M_ret. unfold fd_arg. rewrite Z.mul_0_r, Z.add_0_r. by destruct s. }
  unfold argfd. mrun Ea. pose proof (tv_tabs _ _ _ (fv_tab _ _ _ I)) as HT.
  destruct (Z.ltb_spec (fd_arg s tf) 0); cbn [orb]; [|destruct (Z.leb_spec NOFILE (fd_arg s tf))].
  1,2: right; split; [|done]; intros (f & (t & Ht & Hs)%slot_inv); pose proof (zidx_lt _ _ _ Hs) as Hl; apply zidx_Some in Ht as [_ Ht];
    pose proof (Forall_lookup_1 _ _ _ _ (proj2 HT) Ht) as H16; cbn in H16; unfold NOFILE in *; lia.
  destruct (slot_is (ofile s) p (fd_arg s tf) HT Hp ltac:(unfold NOFILE in *; lia)) as (o & Ho). mrun (get_fd_Ok _ _ _ _ Ho).
  destruct o as [f|].
  - left. destruct (file_is end_ x s f I (tv_fd _ _ _ (fv_tab _ _ _ I) _ _ _ Ho)) as [y Hy]. exists f, y. unfold NOFILE in *. split_and!; try done; lia.
  - right. split; [|done]. rewrite Ho. by intros [f [=]].
Qed.

(** [fdalloc] takes the lowest free slot. *)
Lemma fdalloc_from_spec k s p fd f :
  tabs_ok (ofile s) -> is_proc s p -> 0 <= fd -> fd + Z.of_nat k = 16 ->
  (exists r, fd <= r < 16 /\ slot (ofile s) p r = Some None /\ (forall i, fd <= i < r -> slot (ofile s) p i <> Some None) /\
     fdalloc_from p k fd f s = Ok (r, set_ofile (set_slot (ofile s) p r (Some f)) s)) \/
  ((forall i, fd <= i < 16 -> slot (ofile s) p i <> Some None) /\ fdalloc_from p k fd f s = Ok (-1, s)).
Proof.
  intros HT Hp. revert fd. induction k as [|k IH]; intros fd H0 Hk; cbn [fdalloc_from].
  { right. split; [lia|done]. }
  destruct (slot_is (ofile s) p fd HT Hp ltac:(lia)) as (o & Ho). mrun (get_fd_Ok _ _ _ _ Ho). destruct o as [g|].
  - destruct (IH (fd + 1) ltac:(lia) ltac:(lia)) as [(r & Hr & Hs & Hlow & E)|[Hall E]]; [left; exists r|right]; split_and!; try done; try lia.
    + intros i Hi. destruct (decide (i = fd)) as [->|]; [by rewrite Ho|apply Hlow; lia].
    + intros i Hi. destruct (decide (i = fd)) as [->|]; [by rewrite Ho|apply Hall; lia].
  - left. exists fd. mrun (set_fd_Ok s p fd None (Some f) Ho). split_and!; try done; lia.
Qed.

Lemma fdalloc_spec s p f :
  tabs_ok (ofile s) -> is_proc s p ->
  (exists r, 0 <= r < 16 /\ slot (ofile s) p r = Some None /\ (forall i, 0 <= i < r -> slot (ofile s) p i <> Some None) /\
     fdalloc p f s = Ok (r, set_ofile (set_slot (ofile s) p r (Some f)) s)) \/
  ((forall i, 0 <= i < 16 -> slot (ofile s) p i <> Some None) /\ fdalloc p f s = Ok (-1, s)).
Proof. intros HT Hp. by apply fdalloc_from_spec. Qed.

Definition zero : Z -> Z := fun _ => 0.

(** [dup]: the lowest free descriptor names the same file, whose count goes up
    by one; or nothing happens, when the argument is no open descriptor or all
    descriptors are in use. *)
Theorem sys_dup_correct s p tf (I : fd_inv zero s) (Hp : is_proc s p) :
  (exists f y r s', slot (ofile s) p (fd_arg s tf) = Some (Some f) /\ zidx (ftable s) f = Some y /\
     sys_dup p tf s = Ok (r, s') /\ fd_inv zero s' /\ 0 <= r < 16 /\ slot (ofile s) p r = Some None /\
     (forall i, 0 <= i < r -> slot (ofile s) p i <> Some None) /\
     s' = set_ofile (set_slot (ofile s) p r (Some f)) (set_ftable (<[Z.to_nat f := set_fref (f_ref y + 1) y]> (ftable s)) s)) \/
  (sys_dup p tf s = Ok (-1, s) /\
     (~ (exists f, slot (ofile s) p (fd_arg s tf) = Some (Some f)) \/ forall i, 0 <= i < 16 -> slot (ofile s) p i <> Some None)).
Proof.
  unfold sys_dup. destruct (argfd_spec zero s p tf I Hp) as [(f & y & Hfd & Hs & Hy & E)|[Hn E]]; mrun E; [|right; by split; [|left]].
  destruct (fdalloc_spec s p f (tv_tabs _ _ _ (fv_tab _ _ _ I)) Hp) as [(r & Hr & Hrs & Hlow & E2)|[Hall E2]]; mrun E2; [left|right; by split; [|right]].
  destruct (Z.ltb_spec r 0); [lia|]. pose proof (tv_ref _ _ _ (fv_tab _ _ _ I) f y Hy) as Er. pose proof (refs_slot _ _ _ _ Hs) as Hpos.
  pose proof (tv_fd _ _ _ (fv_tab _ _ _ I) _ _ _ Hs) as Hf. unfold zero in Er.
  assert (fd_inv (moved zero None (Some f)) (set_ofile (set_slot (ofile s) p r (Some f)) s)) as I1.
  { apply set_fd_inv; [done|done|congruence|]. intros g. unfold moved, zero. repeat case_decide; lia. }
  destruct (filedup_spec _ _ f y I1 Hy ltac:(lia)) as [E3 I3]; [unfold moved, zero; repeat case_decide; lia|]. mrun E3.
  exists f, y, r. eexists. split_and!; try done; try lia. eapply fd_inv_ext; [|exact I3].
  intros g. unfold bump, moved, zero. destruct (decide (g = f)) as [->|Hne]; repeat case_decide; try lia; congruence.
Qed.

(** C18: [close]: the descriptor is free, the count goes down by one; with the last
    descriptor the file is free and its end of a pipe closed (a pipe without
    open ends is freed), or its inode given back in a transaction, which finds
    all tables in order; or nothing happens, when the argument is no open
    descriptor. *)
Theorem sys_close_correct s p tf (I : fd_inv zero s) (Hp : is_proc s p) :
  (exists f y s1, slot (ofile s) p (fd_arg s tf) = Some (Some f) /\ zidx (ftable s) f = Some y /\
     sys_close end_ me fuel sleep p tf s = (put_back y;; mret 0) s1 /\ fd_inv zero s1 /\
     closed (set_ofile (set_slot (ofile s) p (fd_arg s tf) None) s) f y s1) \/
  (sys_close end_ me fuel sleep p tf s = Ok (-1, s) /\ ~ exists f, slot (ofile s) p (fd_arg s tf) = Some (Some f)).
Proof.
  unfold sys_close. destruct (argfd_spec zero s p tf I Hp) as [(f & y & Hfd & Hs & Hy & E)|[Hn E]]; mrun E; [left|by right].
  mrun (set_fd_Ok s p (fd_arg s tf) _ None Hs). pose proof (tv_ref _ _ _ (fv_tab _ _ _ I) f y Hy) as Er.
  pose proof (refs_slot _ _ _ _ Hs) as Hpos. unfold zero in Er.
  assert (fd_inv (moved zero (Some f) None) (set_ofile (set_slot (ofile s) p (fd_arg s tf) None) s)) as I1.
  { apply set_fd_inv; [done|done|done|]. intros g. unfold moved, zero. repeat case_decide; lia. }
  destruct (fileclose_spec _ _ f y I1 Hy ltac:(lia)) as (s1 & E1 & I2 & C); [unfold moved, zero; repeat case_decide; lia|].
  exists f, y, s1. split_and!; try done.
  - unfold mbind, M_bind. by rewrite E1.
  - eapply fd_inv_ext; [|exact I2]. intros g. unfold bump, moved, zero.
    destruct (decide (g = f)) as [->|Hne]; repeat case_decide; try lia; congruence.
Qed.

(** ** [fork] *)

Lemma is_proc_set s p fd v q : is_proc (set_ofile (set_slot (ofile s) p fd v) s) q <-> is_proc s q.
Proof. unfold is_proc. cbn [ofile set_ofile]. unfold set_slot. destruct (zidx (ofile s) p); [by rewrite length_insert|done]. Qed.

(** The child gets the descriptor [i] of the parent. *)
Lemma fork_one s p np i f :
  fd_inv zero s -> slot (ofile s) p i = Some (Some f) -> slot (ofile s) np i = Some None ->
  exists s', (f ← filedup f; set_fd np i (Some f)) s = Ok (tt, s') /\ fd_inv zero s' /\ y_fs s' = y_fs s /\ y_pipes s' = y_pipes s /\
    ofile s' = set_slot (ofile s) np i (Some f).
Proof.
  intros I Hp Hnp. pose proof (tv_fd _ _ _ (fv_tab _ _ _ I) _ _ _ Hp) as Hf. destruct (file_is end_ zero s f I Hf) as [y Hy].
  pose proof (tv_ref _ _ _ (fv_tab _ _ _ I) f y Hy) as Er. pose proof (refs_slot _ _ _ _ Hp) as Hpos. unfold zero in Er.
  destruct (filedup_spec zero s f y I Hy ltac:(lia)) as [E1 I1]; [unfold zero; lia|]. mrun E1.
  set (s1 := set_ftable _ s) in *. rewrite (set_fd_Ok s1 np i None (Some f) Hnp). eexists. split; [done|]. split; [|done].
  eapply fd_inv_ext; [|eapply set_fd_inv; [exact I1|exact Hnp|congruence|]]; intros g; unfold moved, bump, zero.
  all: destruct (decide (g = f)) as [->|Hne]; repeat case_decide; try lia; congruence.
Qed.

Lemma fork_files_loop k s p np i :
  fd_inv zero s -> is_proc s p -> p <> np -> 0 <= i -> i + Z.of_nat k = 16 ->
  (forall j, i <= j < 16 -> slot (ofile s) np j = Some None) ->
  exists s', fork_files p k np i s = Ok (tt, s') /\ fd_inv zero s' /\ y_fs s' = y_fs s /\ y_pipes s' = y_pipes s /\
    (forall j, i <= j < 16 -> slot (ofile s') np j = slot (ofile s) p j) /\
    (forall q j, q <> np \/ j < i -> slot (ofile s') q j = slot (ofile s) q j).
Proof.
  intros I Hp Hne. revert s i I Hp. induction k as [|k IH]; intros s i I Hp H0 Hk Hnp; cbn [fork_files].
  { exists s. split_and!; try done. lia. }
  destruct (slot_is (ofile s) p i (tv_tabs _ _ _ (fv_tab _ _ _ I)) Hp ltac:(lia)) as (o & Ho). mrun (get_fd_Ok _ _ _ _ Ho).
  pose proof (Hnp i ltac:(lia)) as Hi. destruct o as [f|].
  - destruct (fork_one s p np i f I Ho Hi) as (s1 & E1 & I1 & F1 & Q1 & O1). mrun E1.
    destruct (IH s1 (i + 1) I1) as (s' & E & I' & F & Q & O & R); try lia.
    { unfold is_proc. rewrite O1. by apply (is_proc_set s np i (Some f) p). }
    { intros j Hj. rewrite O1, (slot_set_ne _ _ _ _ _ _ _ Hi) by (intros [=]; lia). apply Hnp. lia. }
    exists s'. split_and!; try done; try congruence.
    + intros j Hj. destruct (decide (j = i)) as [->|].
      * rewrite R, O1, (slot_set_eq _ _ _ _ _ Hi), Ho by lia. done.
      * rewrite O, O1 by lia. apply (slot_set_ne _ _ _ _ _ _ _ Hi). congruence.
    + intros q j Hq. rewrite R, O1 by (destruct Hq; [by left|right; lia]). apply (slot_set_ne _ _ _ _ _ _ _ Hi). intros [=]. destruct Hq; [done|lia].
  - mgo. destruct (IH s (i + 1) I Hp) as (s' & E & I' & F & Q & O & R); try lia.
    { intros j Hj. apply Hnp. lia. }
    exists s'. split_and!; try done.
    + intros j Hj. destruct (decide (j = i)) as [->|]; [|apply O; lia]. rewrite R, Hi, Ho by lia. done.
    + intros q j Hq. apply R. destruct Hq; [by left|right; lia].
Qed.

(** [fork]: the child, whose table was empty, has the descriptors of its
    parent, all counts are right again, and nothing else changes. *)
Theorem fork_files_correct s p np (I : fd_inv zero s) (Hp : is_proc s p) (Hne : p <> np)
    (Hnp : forall j, 0 <= j < 16 -> slot (ofile s) np j = Some None) :
  exists s', fork_files p (Z.to_nat NOFILE) np 0 s = Ok (tt, s') /\ fd_inv zero s' /\ y_fs s' = y_fs s /\ y_pipes s' = y_pipes s /\
    (forall j, 0 <= j < 16 -> slot (ofile s') np j = slot (ofile s) p j) /\
    (forall q j, q <> np -> slot (ofile s') q j = slot (ofile s) q j).
Proof.
  destruct (fork_files_loop (Z.to_nat NOFILE) s p np 0 I Hp Hne) as (s' & E & I' & F & Q & O & R); try done.
  exists s'. split_and!; try done. intros q j Hq. apply R. by left.
Qed.
End ops.

(** ** [pipealloc] opens the two ends of a pipe *)

(** Two free files become the ends of a new pipe. *)
Lemma pipe_inv_new ft pipes f0 f1 y0 y1 a pi y0' y1' :
  pipe_inv ft pipes -> pipes !! a = None -> f0 <> f1 -> zidx ft f0 = Some y0 -> zidx ft f1 = Some y1 -> f_type y0 = FD_NONE -> f_type y1 = FD_NONE ->
  names_end y0' a false -> names_end y1' a true -> readopen pi = 1 -> writeopen pi = 1 ->
  pipe_inv (<[Z.to_nat f1 := y1']> (<[Z.to_nat f0 := y0']> ft)) (<[a := pi]> pipes).
Proof.
  intros [P1 P2 P3 P4] Ha Hne H0 H1 T0 T1 N0 N1 Ro Wo. pose proof (zidx_lt _ _ _ H0) as L0. pose proof (zidx_lt _ _ _ H1) as L1.
  set (ft' := <[Z.to_nat f1 := y1']> _).
  assert (zidx ft' f0 = Some y0') as E0 by (unfold ft'; rewrite zidx_insert_ne by lia; by apply zidx_insert_eq).
  assert (zidx ft' f1 = Some y1') as E1 by (apply zidx_insert_eq; by rewrite length_insert).
  assert (forall g, g <> f0 -> g <> f1 -> zidx ft' g = zidx ft g) as Eg by (intros g ? ?; unfold ft'; by rewrite !zidx_insert_ne by lia).
  assert (forall g z b w, zidx ft' g = Some z -> names_end z b w -> (b = a /\ g = if w then f1 else f0) \/ (b <> a /\ zidx ft g = Some z)) as Hold.
  { intros g z b w Hg Hz. destruct (decide (g = f0)) as [->|]; [|destruct (decide (g = f1)) as [->|]].
    - rewrite E0 in Hg. injection Hg as <-. destruct N0 as (_ & <- & Nw), Hz as (_ & <- & <-). left. by rewrite Nw.
    - rewrite E1 in Hg. injection Hg as <-. destruct N1 as (_ & <- & Nw), Hz as (_ & <- & <-). left. by rewrite Nw.
    - right. rewrite Eg in Hg by done. split; [|done]. intros ->. destruct (P1 g z a w Hg Hz) as (pi' & Hpi' & _). congruence. }
  split.
  - intros g z b w Hg Hz. destruct (Hold g z b w Hg Hz) as [[-> _]|[Hb Hg']].
    + exists pi. rewrite lookup_insert_eq. split; [done|]. destruct w; cbn; lia.
    + rewrite lookup_insert_ne by done. by eapply P1.
  - intros g g' z z' b w Hg Hg' Hz Hz'. destruct (Hold g z b w Hg Hz) as [[-> ->]|[Hb K]], (Hold g' z' _ w Hg' Hz') as [[? ->]|[Hb' K']]; try done.
    by eapply P2.
  - intros b pi' w [[<- <-]|[Hb Hpi]]%lookup_insert_Some Ho; [destruct w; [by exists f1, y1'|by exists f0, y0']|].
    destruct (P3 b pi' w Hpi Ho) as (g & z & Hg & Hz). exists g, z. rewrite Eg; [done| |]; intros ->; destruct Hz as [Hz _]; congruence.
  - intros b pi' [[<- <-]|[Hb Hpi]]%lookup_insert_Some; [exists true; cbn; lia|by eapply P4].
Qed.

Section pipe.
Context {S : Type} `{!BlockStore S}.
Context (end_ me : Z) (fuel : nat) (sleep : M (fstate S) unit).
Implicit Types (s : sys S) (x : Z -> Z).
Notation fd_inv := (fd_inv end_).

(** A file that just got its first reference. *)
Definition taken s (f : Z) (y : file) : sys S := set_ftable (<[Z.to_nat f := set_fref 1 y]> (ftable s)) s.

Lemma filealloc_from_spec k x s f :
  fd_inv x s -> 0 <= f -> f + Z.of_nat k = 100 ->
  (exists g y, f <= g < 100 /\ zidx (ftable s) g = Some y /\ f_ref y = 0 /\ filealloc_from k f s = Ok (Some g, taken s g y)) \/
  ((forall g y, f <= g -> zidx (ftable s) g = Some y -> f_ref y <> 0) /\ filealloc_from k f s = Ok (None, s)).
Proof.
  intros I. revert f. induction k as [|k IH]; intros f H0 Hk; cbn [filealloc_from].
  { right. split; [|done]. intros g y Hg Hy. apply zidx_lt in Hy. rewrite (tv_len _ _ _ (fv_tab _ _ _ I)) in Hy. lia. }
  destruct (file_is end_ x s f I ltac:(unfold NFILE; lia)) as [y Hy]. mrun (getf_Ok _ _ _ Hy). destruct (Z.eqb_spec (f_ref y) 0) as [E|E].
  - left. exists f, y. mrun (updf_Ok s f y (set_fref 1) Hy). split_and!; try done; lia.
  - destruct (IH (f + 1) ltac:(lia) ltac:(lia)) as [(g & z & Hg & H)|[Hall H]]; [left; exists g, z; split; [lia|done]|right]. split; [|done].
    intros g z Hg Hz. destruct (decide (g = f)) as [->|]; [congruence|]. apply (Hall g z); [lia|done].
Qed.

Lemma taken_inv x s f y : fd_inv x s -> zidx (ftable s) f = Some y -> f_ref y = 0 -> x f <= 1 -> fd_inv (bump x f 1) (taken s f y).
Proof.
  intros [T P K] Hy Hr Hx. pose proof (tv_x _ _ _ T f). unfold taken. split; cbn [ftable ofile y_pipes y_fs set_ftable]; [|by eapply pipe_inv_same|done].
  eapply tab_inv_ref; [done|done|cbn; lia|done|lia].
Qed.

Lemma filealloc_spec x s :
  fd_inv x s -> (forall f, x f <= 1) ->
  (exists f y, zidx (ftable s) f = Some y /\ f_ref y = 0 /\ filealloc s = Ok (Some f, taken s f y) /\ fd_inv (bump x f 1) (taken s f y)) \/
  ((forall f y, zidx (ftable s) f = Some y -> f_ref y <> 0) /\ filealloc s = Ok (None, s)).
Proof.
  intros I Hx. destruct (filealloc_from_spec (Z.to_nat NFILE) x s 0 I ltac:(lia) eq_refl) as [(f & y & _ & Hy & Hr & E)|[Hall E]]; [left|right].
  - exists f, y. split_and!; try done. by apply taken_inv.
  - split; [|done]. intros f y Hy. apply (Hall f y); [|done]. apply zidx_lt in Hy. lia.
Qed.

(** Closing a file that was just taken undoes it. *)
Lemma close_taken x s f y :
  fd_inv x s -> zidx (ftable s) f = Some y -> f_ref y = 1 -> f_type y = FD_NONE -> -1 <= x f ->
  exists s', fileclose end_ me fuel sleep f s = Ok (tt, s') /\ fd_inv (bump x f (-1)) s' /\ ofile s' = ofile s /\ y_pipes s' = y_pipes s /\
    y_fs s' = y_fs s /\ forall g, g <> f -> zidx (ftable s') g = zidx (ftable s) g.
Proof.
  intros I Hy Hr Ht Hx. destruct (fileclose_spec end_ me fuel sleep x s f y I Hy ltac:(lia) Hx) as (s' & E & I' & [(y1 & F & _) C2 C3 C4]).
  unfold put_back in E. rewrite Ht in E. exists s'. split_and!; try done; [apply C3; right; congruence|apply C4; right; congruence|].
  intros g Hg. rewrite F. apply zidx_lt in Hy. apply zidx_insert_ne; [lia|done].
Qed.

(** *** A page for the pipe *)

Lemma pages_kalloc k pipes :
  pages_inv end_ k pipes ->
  (freelist k = 0 /\ kalloc k = Ok (0, k)) \/
  exists a k', kalloc k = Ok (a, k') /\ a <> 0 /\ pipes !! a = None /\ forall pi, pages_inv end_ k' (<[a := pi]> pipes).
Proof.
  intros (He & l & K & Hp). destruct l as [|a l].
  - left. split; [by destruct K|by apply (kalloc_empty end_)].
  - right. destruct (kalloc_page end_ k a l K) as (k' & E & K' & Hni & Ha & _). exists a, k'. split; [done|].
    split; [destruct Ha; lia|]. split.
    + destruct (pipes !! a) as [pi|] eqn:Ea; [|done]. destruct (Hp a pi Ea) as [_ H]. exfalso. apply H. left.
    + intros pi. split; [done|]. exists l. split; [done|]. intros b pb [[<- _]|[_ Hb]]%lookup_insert_Some; [done|].
      destruct (Hp b pb Hb) as [H1 H2]. split; [done|]. apply not_elem_of_cons in H2. tauto.
Qed.

Definition read_end (a : Z) (y : file) : file := mkfile FD_PIPE (f_ref y) true false a (f_ip y) (f_off y) (f_major y).
Definition write_end (a : Z) (y : file) : file := mkfile FD_PIPE (f_ref y) false true a (f_ip y) (f_off y) (f_major y).

(** The files [f0], [f1] become the ends of the pipe in the page [a]. *)
Definition piped s (f0 f1 : Z) (y0 y1 : file) (a : Z) (k : km) (pi : pipe) : sys S :=
  mksys (set_k k (y_fs s)) (<[Z.to_nat f1 := write_end a y1]> (<[Z.to_nat f0 := read_end a y0]> (ftable s))) (<[a := pi]> (y_pipes s)) (ofile s).

Lemma piped_inv x s f0 f1 y0 y1 a k pi :
  fd_inv x s -> f0 <> f1 -> zidx (ftable s) f0 = Some y0 -> zidx (ftable s) f1 = Some y1 -> f_type y0 = FD_NONE -> f_type y1 = FD_NONE ->
  f_ref y0 = 1 -> f_ref y1 = 1 -> y_pipes s !! a = None -> pages_inv end_ k (<[a := pi]> (y_pipes s)) -> readopen pi = 1 -> writeopen pi = 1 ->
  fd_inv x (piped s f0 f1 y0 y1 a k pi).
Proof.
  intros [T P K] Hne H0 H1 T0 T1 R0 R1 Ha K' Ro Wo. pose proof (tv_x _ _ _ T). split; [|by eapply pipe_inv_new|done].
  eapply (tab_inv_ext (bump (bump x f0 0) f1 0)); [intros g; unfold bump; repeat case_decide; lia|]. unfold piped. cbn [ftable ofile].
  pose proof (zidx_lt _ _ _ H0). 
  assert (tab_inv (bump x f0 0) (<[Z.to_nat f0 := read_end a y0]> (ftable s)) (ofile s)) as T'.
  { eapply tab_inv_ref; [exact T|exact H0|cbn; lia|cbn; lia|by rewrite Z.add_0_r]. }
  eapply tab_inv_ref; [exact T'|rewrite zidx_insert_ne by lia; exact H1|cbn; lia|cbn; lia|]. rewrite Z.add_0_r. apply T'.
Qed.

(** *** Two files *)

(** At most one file is free. *)
Definition full s : Prop :=
  forall f f' y y', zidx (ftable s) f = Some y -> zidx (ftable s) f' = Some y' -> f_ref y = 0 -> f_ref y' = 0 -> f = f'.

(** [s'] has the descriptors, pipes and file system of [s]. *)
Definition undone s s' : Prop := fd_inv zero s' /\ ofile s' = ofile s /\ y_pipes s' = y_pipes s /\ y_fs s' = y_fs s.

Lemma alloc_two s :
  fd_inv zero s ->
  (exists f0 f1 y0 y1, let s1 := taken s f0 y0 in let s2 := taken s1 f1 y1 in
     filealloc s = Ok (Some f0, s1) /\ filealloc s1 = Ok (Some f1, s2) /\ fd_inv (bump (bump zero f0 1) f1 1) s2 /\ f0 <> f1 /\
     zidx (ftable s) f0 = Some y0 /\ f_ref y0 = 0 /\ zidx (ftable s) f1 = Some y1 /\ f_ref y1 = 0 /\
     zidx (ftable s2) f0 = Some (set_fref 1 y0) /\ zidx (ftable s2) f1 = Some (set_fref 1 y1)) \/
  (full s /\ (filealloc s = Ok (None, s) \/
     exists f0 s1 s', filealloc s = Ok (Some f0, s1) /\ filealloc s1 = Ok (None, s1) /\ fileclose end_ me fuel sleep f0 s1 = Ok (tt, s') /\ undone s s')).
Proof.
  intros I. destruct (filealloc_spec zero s I) as [(f0 & y0 & H0 & R0 & E0 & I0)|[Hall E0]]; [intros; unfold zero; lia| |].
  2:{ right. split; [|by left]. intros f f' y y' Hy _ Hr _. by destruct (Hall f y). }
  pose proof (zidx_lt _ _ _ H0) as L0. pose proof (tv_none _ _ _ (fv_tab _ _ _ I) _ _ H0 R0) as N0.
  assert (zidx (ftable (taken s f0 y0)) f0 = Some (set_fref 1 y0)) as H0' by (by apply zidx_insert_eq).
  assert (forall g, g <> f0 -> zidx (ftable (taken s f0 y0)) g = zidx (ftable s) g) as Hg by (intros g Hg; apply zidx_insert_ne; [lia|done]).
  destruct (filealloc_spec _ _ I0) as [(f1 & y1 & H1 & R1 & E1 & I1)|[Hall E1]]; [intros; unfold bump, zero; case_decide; lia| |].
  - left. assert (f1 <> f0) as Hne by (intros ->; rewrite H0' in H1; injection H1 as <-; done). rewrite (Hg f1 Hne) in H1.
    exists f0, f1, y0, y1. cbv zeta. split_and!; try done.
    + unfold taken at 1. cbn [ftable set_ftable]. rewrite zidx_insert_ne; [done|by apply zidx_lt in H1 as []|done].
    + apply zidx_insert_eq. cbn [ftable set_ftable taken]. rewrite length_insert. by apply zidx_lt in H1.
  - right. split.
    + intros f f' y y' Hy Hy' Hr Hr'. destruct (decide (f = f0)) as [->|Hf]; [|by destruct (Hall f y); [rewrite Hg|]].
      destruct (decide (f' = f0)) as [->|Hf]; [done|]. by destruct (Hall f' y'); [rewrite Hg|].
    + destruct (close_taken _ _ f0 _ I0 H0' eq_refl N0) as (s' & E & I' & O' & P' & F' & _); [unfold bump, zero; case_decide; lia|].
      right. exists f0, (taken s f0 y0), s'. split; [done|]. split; [done|]. split; [done|]. split; [|done]. eapply fd_inv_ext; [|exact I'].
      intros g. unfold bump, zero. repeat case_decide; lia.
Qed.

Lemma close_two s f0 f1 y0 y1 :
  fd_inv (bump (bump zero f0 1) f1 1) s -> f0 <> f1 -> zidx (ftable s) f0 = Some y0 -> zidx (ftable s) f1 = Some y1 ->
  f_ref y0 = 1 -> f_ref y1 = 1 -> f_type y0 = FD_NONE -> f_type y1 = FD_NONE ->
  exists s1 s', fileclose end_ me fuel sleep f0 s = Ok (tt, s1) /\ fileclose end_ me fuel sleep f1 s1 = Ok (tt, s') /\ undone s s'.
Proof.
  intros I Hne H0 H1 R0 R1 N0 N1.
  destruct (close_taken _ s f0 y0 I H0 R0 N0) as (s1 & E1 & I1 & O1 & P1 & F1 & G1); [unfold bump, zero; repeat case_decide; lia|].
  rewrite <- (G1 f1) in H1 by congruence.
  destruct (close_taken _ s1 f1 y1 I1 H1 R1 N1) as (s' & E2 & I2 & O2 & P2 & F2 & _); [unfold bump, zero; repeat case_decide; lia|].
  exists s1, s'. split_and!; [done|done|]. split_and!; [|congruence..]. eapply fd_inv_ext; [|exact I2].
  intros g. unfold bump, zero. repeat case_decide; lia.
Qed.

(** C20: [pipealloc] returns the files of the two ends of a new, empty pipe, each
    with one reference, in a page that was free; or it fails, when there are
    not two free files or no free page, and then all is as it was. *)
Theorem pipealloc_correct s (I : fd_inv zero s) :
  (exists f0 f1 y0 y1 a k pi, pipealloc end_ me fuel sleep s = Ok (Some (f0, f1), piped (taken (taken s f0 y0) f1 y1) f0 f1 (set_fref 1 y0) (set_fref 1 y1) a k pi) /\
     f0 <> f1 /\ zidx (ftable s) f0 = Some y0 /\ f_ref y0 = 0 /\ zidx (ftable s) f1 = Some y1 /\ f_ref y1 = 0 /\
     kalloc (f_k (y_fs s)) = Ok (a, k) /\ y_pipes s !! a = None /\ contents pi = [] /\ end_open true pi = 1 /\ end_open false pi = 1 /\
     fd_inv (bump (bump zero f0 1) f1 1) (piped (taken (taken s f0 y0) f1 y1) f0 f1 (set_fref 1 y0) (set_fref 1 y1) a k pi)) \/
  (exists s', pipealloc end_ me fuel sleep s = Ok (None, s') /\ fd_inv zero s' /\ ofile s' = ofile s /\ y_pipes s' = y_pipes s /\ y_fs s' = y_fs s /\
     (freelist (f_k (y_fs s)) = 0 \/ full s)).
Proof.
  unfold pipealloc. destruct (alloc_two s I) as [(f0 & f1 & y0 & y1 & E0 & E1 & I2 & Hne & H0 & R0 & H1 & R1 & K0 & K1)|[Hf [E0|(f0 & s1 & s' & E0 & E1 & E2 & U)]]].
  2:{ mrun E0. right. exists s. split_and!; try done. by right. }
  2:{ mrun E0. mrun E1. mrun E2. right. exists s'. destruct U as (U1 & U2 & U3 & U4). split_and!; try done. by right. }
  mrun E0. mrun E1. set (s2 := taken (taken s f0 y0) f1 y1) in *.
  pose proof (tv_none _ _ _ (fv_tab _ _ _ I) _ _ H0 R0) as N0. pose proof (tv_none _ _ _ (fv_tab _ _ _ I) _ _ H1 R1) as N1.
  destruct (pages_kalloc _ _ (fv_page _ _ _ I)) as [[Hl E2]|(a & k & E2 & Ha0 & Ha & Kp)];
    rewrite (M_bind_Ok _ _ _ _ _ (on_fs_Ok (on_k kalloc) s2 _ _ (on_k_Ok _ (y_fs s2) _ _ E2))).
  - cbn [Z.eqb]. assert (set_fs (set_k (f_k (y_fs s)) (y_fs s2)) s2 = s2) as -> by (by destruct s as [[]]).
    destruct (close_two s2 f0 f1 _ _ I2 Hne K0 K1 eq_refl eq_refl N0 N1) as (s3 & s' & E3 & E4 & U1 & U2 & U3 & U4). mrun E3. mrun E4.
    right. exists s'. split_and!; try done. by left.
  - left. apply Z.eqb_neq in Ha0 as Ha0'. rewrite Ha0'. set (s3 := set_fs _ s2).
    rewrite (M_bind_Ok _ _ _ _ _ (on_fs_Ok (on_mem (load_bytes (Z.to_nat PIPESIZE) (a + 24))) s3 _ (y_fs s3) eq_refl)).
    set (page := load_bytes _ _ _). unfold putp. mgo. change (set_fs (y_fs s3) s3) with s3.
    mrun (updf_Ok (set_pipes (<[a := pipe_init page]> (y_pipes s3)) s3) f0 _ (fun y : file => read_end a y) K0).
    set (s4 := set_ftable _ _). assert (zidx (ftable s4) f1 = Some (set_fref 1 y1)) as K1' by (unfold s4; cbn [ftable set_ftable]; rewrite zidx_insert_ne; [done|by apply zidx_lt in H0 as []|done]).
    mrun (updf_Ok s4 f1 _ (fun y : file => write_end a y) K1').
    exists f0, f1, y0, y1, a, k, (pipe_init page). split_and!; try done. by eapply piped_inv.
Qed.
End pipe.
