(* ===== verification/FileExit.v ===== *)
(** * [exit] closes all descriptors *)

From S2P Require Import Prelude Riscv Mem Kalloc Vm Sleeplock Bytes Store Fs FsRw ProcMem Pipe File FileRefs FileFd.

(** ** Giving back an inode leaves memory alone *)

Create HintDb km_keeps.

Section km_keeps.
Context {S : Type} `{!BlockStore S}.

Definition km_keeps {A} (m : M (fstate S) A) : Prop := forall s r s', m s = Ok (r, s') -> f_k s' = f_k s.

Lemma km_keeps_ret {A} (v : A) : km_keeps (mret v).
Proof. by intros s r s' [= _ <-]. Qed.

Lemma km_keeps_bind {A B} (m : M (fstate S) A) (f : A -> M (fstate S) B) : km_keeps m -> (forall v, km_keeps (f v)) -> km_keeps (m ≫= f).
Proof. intros Hm Hf s r s' (v & s1 & H1 & H2)%M_bind_inv. rewrite (Hf v s1 r s' H2). by apply (Hm s v). Qed.

Lemma km_keeps_panic {A} e : km_keeps (A := A) (panic e).
Proof. by intros s r s' [=]. Qed.

Lemma km_keeps_hang {A} : km_keeps (A := A) hang.
Proof. by intros s r s' [=]. Qed.

Lemma km_keeps_gets {A} (f : fstate S -> A) : km_keeps (gets f).
Proof. by intros s r s' [= _ <-]. Qed.

Lemma km_keeps_on_s {A} (m : M S A) : km_keeps (on_s m).
Proof. intros s r s' (t & _ & ->)%zoom_inv. done. Qed.

Lemma km_keeps_lift {A} (v : res A) : km_keeps (lift v).
Proof. intros s r s'. unfold lift. by destruct v; intros [=]; subst. Qed.

Lemma km_keeps_geti i : km_keeps (geti i).
Proof. intros s r s'. unfold geti, M_rd. apply km_keeps_lift. Qed.

Lemma km_keeps_updi i f : km_keeps (updi i f).
Proof. intros s r s'. unfold updi, M_alter. destruct (_ && _); [|done]. by intros [= _ <-]. Qed.

Lemma km_keeps_woken i : km_keeps (modify (fun s : fstate S => mkfs (f_s s) (f_sb s) (f_it s) (f_k s) (i :: f_woken s))).
Proof. by intros s r s' [= _ <-]. Qed.
End km_keeps.

#[export] Hint Resolve km_keeps_ret km_keeps_panic km_keeps_hang km_keeps_gets km_keeps_on_s km_keeps_lift km_keeps_geti km_keeps_updi km_keeps_woken : km_keeps.

Ltac km_keeps_step :=
  first [ solve [auto with km_keeps]
        | apply km_keeps_bind; [|intros ?]
        | match goal with
          | |- km_keeps (if ?b then _ else _) => destruct b
          | |- km_keeps (let '(_, _) := ?p in _) => destruct p
          end ].
Ltac keep := repeat km_keeps_step.

Section iput.
Context {S : Type} `{!BlockStore S}.
Context (me : Z) (fuel : nat) (sleep : M (fstate S) unit) (Hsleep : km_keeps sleep).
Notation km_keeps := (km_keeps (S := S)).

Lemma km_keeps_bfree b : km_keeps (bfree b).
Proof. unfold bfree. keep. Qed.
Hint Resolve km_keeps_bfree : km_keeps.

Lemma km_keeps_get_addr i bn : km_keeps (get_addr i bn).
Proof. unfold get_addr. keep. Qed.
Hint Resolve km_keeps_get_addr : km_keeps.

Lemma km_keeps_set_addr i bn v : km_keeps (set_addr i bn v).
Proof. unfold set_addr. keep. Qed.
Hint Resolve km_keeps_set_addr : km_keeps.

Lemma km_keeps_iupdate i : km_keeps (iupdate i).
Proof. unfold iupdate. keep. Qed.
Hint Resolve km_keeps_iupdate : km_keeps.

Lemma km_keeps_free_direct k i j : km_keeps (free_direct k i j).
Proof. revert j. induction k as [|k IH]; intros j; cbn [free_direct]; keep. Qed.

Lemma km_keeps_free_indirect k bp j : km_keeps (free_indirect k bp j).
Proof. revert j. induction k as [|k IH]; intros j; cbn [free_indirect]; keep. Qed.
Hint Resolve km_keeps_free_direct km_keeps_free_indirect : km_keeps.

Lemma km_keeps_itrunc i : km_keeps (itrunc i).
Proof. unfold itrunc. keep. Qed.
Hint Resolve km_keeps_itrunc : km_keeps.

Lemma km_keeps_iacquire i : km_keeps (iacquire me fuel sleep i).
Proof. unfold iacquire. induction fuel as [|k IH]; cbn [acquiresleep]; keep. Qed.
Hint Resolve km_keeps_iacquire : km_keeps.

Lemma km_keeps_irelease i : km_keeps (irelease i).
Proof. unfold irelease. keep. Qed.
Hint Resolve km_keeps_irelease : km_keeps.

Lemma km_keeps_iput i : km_keeps (iput me fuel sleep i).
Proof. unfold iput. keep. Qed.

(** [put_back] changes the file system only, and not memory. *)
Lemma put_back_keeps y (s : sys S) r s' :
  put_back me fuel sleep y s = Ok (r, s') ->
  ftable s' = ftable s /\ ofile s' = ofile s /\ y_pipes s' = y_pipes s /\ f_k (y_fs s') = f_k (y_fs s).
Proof.
  assert (forall (t t' : sys S) v, (y_begin_op;; on_fs (iput me fuel sleep (f_ip y));; y_end_op) t = Ok (v, t') ->
    ftable t' = ftable t /\ ofile t' = ofile t /\ y_pipes t' = y_pipes t /\ f_k (y_fs t') = f_k (y_fs t)) as H.
  { intros t t' v (v1 & t1 & H1 & (v2 & t2 & H2 & H3)%M_bind_inv)%M_bind_inv. unfold y_begin_op, y_end_op, on_fs in *.
    apply zoom_inv in H1 as (a & H1 & ->), H2 as (b & H2 & ->), H3 as (c & H3 & ->). cbn in *.
    apply km_keeps_on_s in H1, H3. apply km_keeps_iput in H2. split_and!; congruence. }
  unfold put_back. destruct (f_type y); try (by intros [= _ <-]); (destruct (f_ref y =? 1); [apply H|by intros [= _ <-]]).
Qed.
End iput.

(** ** [exit] *)

Section exit.
Context {S : Type} `{!BlockStore S}.
Context (end_ me : Z) (fuel : nat) (sleep : M (fstate S) unit) (Hsleep : km_keeps sleep).
Implicit Types (s : sys S) (x : Z -> Z).
Notation fd_inv := (fd_inv end_).
Notation put_back := (put_back me fuel sleep).

Lemma fd_inv_keeps x s s' :
  fd_inv x s -> ftable s' = ftable s -> ofile s' = ofile s -> y_pipes s' = y_pipes s -> f_k (y_fs s') = f_k (y_fs s) -> fd_inv x s'.
Proof. intros [T P K] E1 E2 E3 E4. split; by rewrite ?E1, ?E2, ?E3, ?E4. Qed.

(** [m] fails the way [e] does. *)
Definition fails_as {A B} (e : res A) (m : res B) : Prop :=
  match e, m with
  | Panic a, Panic b => a = b
  | Fault a, Fault b => a = b
  | Hang, Hang => True
  | _, _ => False
  end.

Lemma fails_as_bind {A B C} (e : res C) (m : M (sys S) A) (f : A -> M (sys S) B) s :
  fails_as e (m s) -> fails_as e ((m ≫= f) s).
Proof. unfold mbind, M_bind. by destruct e, (m s) as [[]| | |]. Qed.

(** What [fileclose] runs to give back the inode [ip]. *)
Definition put_inode (ip : Z) : M (sys S) unit := y_begin_op;; on_fs (iput me fuel sleep ip);; y_end_op.

(** [exit_files] of [k] descriptors from [fd] on fails as [m] does: the
    descriptors before [fd + n] are closed, that one names an inode or a
    device of which it is the last reference, the file is taken out of the
    table, and the transaction that gives back the inode fails. *)
Definition stopped (p : Z) (k : nat) (fd : Z) s (m : res (unit * sys S)) : Prop :=
  exists n f y s0 s1, (n < k)%nat /\ slot (ofile s) p (fd + Z.of_nat n) = Some (Some f) /\
    zidx (ftable s) f = Some y /\ (f_type y = FD_INODE \/ f_type y = FD_DEVICE) /\
    exit_files end_ me fuel sleep p n fd s = Ok (tt, s0) /\ zidx (ftable s0) f = Some (set_fref 1 y) /\
    closed s0 f (set_fref 1 y) s1 /\ fd_inv (bump zero f (-1)) s1 /\ fails_as (put_inode (f_ip y) s1) m.

(** The files still in use are those there were, but for the counts. *)
Definition same_files s s' : Prop :=
  forall g z', zidx (ftable s') g = Some z' -> f_ref z' <> 0 -> exists z, zidx (ftable s) g = Some z /\ z' = set_fref (f_ref z') z.

Lemma same_files_refl s : same_files s s.
Proof. intros g z Hz _. exists z. split; [done|]. by destruct z. Qed.

Lemma closed_files s f y s1 : zidx (ftable s) f = Some y -> closed s f y s1 -> same_files s s1.
Proof.
  intros Hf [(y1 & E & Er & H1) _ _ _] g z' Hg Hr. rewrite E in Hg. destruct (decide (g = f)) as [->|Hne].
  - rewrite zidx_insert_eq in Hg by (by eapply zidx_lt). injection Hg as <-. exists y. split; [done|]. rewrite Er. by apply H1.
  - pose proof (zidx_lt _ _ _ Hf). destruct (proj1 (zidx_Some _ _ _) Hg) as [? _]. rewrite zidx_insert_ne in Hg by lia.
    exists z'. split; [done|]. by destruct z'.
Qed.

Lemma put_back_fails {B} y s1 (m : res B) :
  fails_as (put_back y s1) m -> (f_type y = FD_INODE \/ f_type y = FD_DEVICE) /\ y = set_fref 1 y /\ fails_as (put_inode (f_ip y) s1) m.
Proof.
  unfold put_back. intros H. destruct (f_type y) eqn:Ht; try done; (destruct (Z.eqb_spec (f_ref y) 1) as [E|]; [|done]);
    (split; [auto|split; [|done]]); destruct y; cbn in *; by subst.
Qed.

(** One descriptor. *)
Lemma exit_one s p fd f :
  fd_inv zero s -> slot (ofile s) p fd = Some (Some f) ->
  let m := fileclose end_ me fuel sleep f;; set_fd p fd None in
  (exists s', m s = Ok (tt, s') /\ fd_inv zero s' /\ ofile s' = set_slot (ofile s) p fd None /\ same_files s s') \/
  (exists y s1, zidx (ftable s) f = Some y /\ (f_type y = FD_INODE \/ f_type y = FD_DEVICE) /\ y = set_fref 1 y /\
     closed s f y s1 /\ fd_inv (bump zero f (-1)) s1 /\ fails_as (put_inode (f_ip y) s1) (m s)).
Proof.
  intros I Hs m. destruct (file_is end_ zero s f I (tv_fd _ _ _ (fv_tab _ _ _ I) _ _ _ Hs)) as [y Hy].
  pose proof (tv_ref _ _ _ (fv_tab _ _ _ I) f y Hy) as Er. pose proof (refs_slot _ _ _ _ Hs) as Hpos. unfold zero in Er.
  destruct (fileclose_spec end_ me fuel sleep zero s f y I Hy ltac:(lia)) as (s1 & E1 & I1 & C); [unfold zero; lia|].
  destruct (put_back y s1) as [[[] s2]| | |] eqn:E2; [left|right..].
  2-4: assert (fails_as (put_back y s1) (m s)) as (F1 & F2 & F3)%put_back_fails
         by (rewrite E2; apply fails_as_bind; by rewrite E1); by exists y, s1.
  unfold m. mrun E1. destruct (put_back_keeps me fuel sleep Hsleep y s1 _ _ E2) as (K1 & K2 & K3 & K4).
  pose proof (fd_inv_keeps _ s1 s2 I1 K1 K2 K3 K4) as I2. rewrite (cl_fd _ _ _ _ C) in K2. rewrite <- K2 in Hs |- *.
  rewrite (set_fd_Ok s2 p fd _ None Hs). eexists. split; [done|]. split; [|split; [done|]].
  - eapply fd_inv_ext; [|eapply set_fd_inv; [exact I2|exact Hs|done|]]; intros g; unfold moved, bump, zero.
    all: destruct (decide (g = f)) as [->|Hne]; repeat case_decide; try lia; congruence.
  - intros g z' Hg. apply (closed_files s f y s1 Hy C). rewrite <- K1. exact Hg.
Qed.

(** Failing later: the descriptor before was closed. *)
Lemma stopped_later s s1 p k fd m :
  (forall n, exit_files end_ me fuel sleep p (Datatypes.S n) fd s = exit_files end_ me fuel sleep p n (fd + 1) s1) ->
  (forall j, fd < j -> slot (ofile s1) p j = slot (ofile s) p j) -> same_files s s1 -> fd_inv zero s1 ->
  stopped p k (fd + 1) s1 m -> stopped p (Datatypes.S k) fd s m.
Proof.
  intros Hstep Hslot Hsame I1 (n & f & y & s0 & s2 & Hn & Hs & Hy & Ht & E & Hy0 & C & I & F).
  assert (f_ref y <> 0) as Hr.
  { pose proof (tv_ref _ _ _ (fv_tab _ _ _ I1) f y Hy) as Er. pose proof (refs_slot _ _ _ _ Hs). unfold zero in Er. lia. }
  destruct (Hsame f y Hy Hr) as (z & Hz & Ez). assert (set_fref 1 y = set_fref 1 z) as E1 by (by rewrite Ez).
  assert (f_type z = f_type y /\ f_ip z = f_ip y) as [Et Ei] by (by rewrite Ez).
  exists (Datatypes.S n), f, z, s0, s2. rewrite Hstep, <- E1, Et, Ei.
  replace (fd + Z.of_nat (Datatypes.S n)) with (fd + 1 + Z.of_nat n) by lia. rewrite <- Hslot by lia. split; [lia|done].
Qed.

Lemma exit_files_loop k s p fd :
  fd_inv zero s -> is_proc s p -> 0 <= fd -> fd + Z.of_nat k = 16 ->
  (exists s', exit_files end_ me fuel sleep p k fd s = Ok (tt, s') /\ fd_inv zero s' /\
     (forall j, fd <= j < 16 -> slot (ofile s') p j = Some None) /\
     (forall q j, q <> p \/ j < fd -> slot (ofile s') q j = slot (ofile s) q j)) \/
  stopped p k fd s (exit_files end_ me fuel sleep p k fd s).
Proof.
  revert s fd. induction k as [|k IH]; intros s fd I Hp H0 Hk.
  { left. exists s. split_and!; try done. lia. }
  destruct (slot_is (ofile s) p fd (tv_tabs _ _ _ (fv_tab _ _ _ I)) Hp ltac:(lia)) as (o & Ho).
  assert ((exists s1, (forall n, exit_files end_ me fuel sleep p (Datatypes.S n) fd s = exit_files end_ me fuel sleep p n (fd + 1) s1) /\
      fd_inv zero s1 /\ slot (ofile s1) p fd = Some None /\ is_proc s1 p /\ same_files s s1 /\
      (forall q j, (q, j) <> (p, fd) -> slot (ofile s1) q j = slot (ofile s) q j)) \/
    stopped p (Datatypes.S k) fd s (exit_files end_ me fuel sleep p (Datatypes.S k) fd s)) as [H|F]; [| |by right].
  { destruct o as [f|].
    2:{ left. exists s. split_and!; try done; [|apply same_files_refl]. intros n. cbn [exit_files]. by mrun (get_fd_Ok _ _ _ _ Ho). }
    destruct (exit_one s p fd f I Ho) as [(s1 & E1 & I1 & O1 & Z1)|(y & s1 & Hy & Ht & Ey & C & I1 & F)]; [left|right].
    - exists s1. split; [intros n; cbn [exit_files]; mrun (get_fd_Ok _ _ _ _ Ho); by mrun E1|]. rewrite O1. split_and!; try done.
      + by eapply slot_set_eq.
      + unfold is_proc. rewrite O1. by apply (is_proc_set s p fd None p).
      + intros q j Hq. apply (slot_set_ne _ _ _ _ _ _ _ Ho). congruence.
    - exists O, f, y, s, s1. rewrite Z.add_0_r, <- Ey. split; [lia|]. split_and!; try done. cbn [exit_files].
      mrun (get_fd_Ok _ _ _ _ Ho). by apply fails_as_bind. }
  destruct H as (s1 & E1 & I1 & S1 & P1 & Z1 & R1). rewrite E1.
  destruct (IH s1 (fd + 1) I1 P1 ltac:(lia) ltac:(lia)) as [(s' & E & I' & S' & R)|F]; [left|right].
  2:{ eapply stopped_later; try done. intros j Hj. apply R1. intros [=]. lia. }
  exists s'. split_and!; try done.
  - intros j Hj. destruct (decide (j = fd)) as [->|]; [|apply S'; lia]. rewrite R by lia. done.
  - intros q j Hq. rewrite R by (destruct Hq; [by left|right; lia]). apply R1. intros [=]. destruct Hq; [done|lia].
Qed.

(** C19: [exit]: all descriptors of the process are closed, the counts of the files
    they named are right, pipes without open ends are freed, and the
    descriptors of other processes stay.  Otherwise the loop stopped at a
    descriptor of the process whose file is an inode or a device with no
    other reference: the descriptors before it were closed, and the outcome
    is that of the failing transaction that gives back this inode.  The
    [sleep] a lock of that transaction may need leaves memory alone. *)
Theorem exit_files_correct s p (I : fd_inv zero s) (Hp : is_proc s p) :
  (exists s', exit_files end_ me fuel sleep p (Z.to_nat NOFILE) 0 s = Ok (tt, s') /\ fd_inv zero s' /\
     (forall j, 0 <= j < 16 -> slot (ofile s') p j = Some None) /\ (forall q j, q <> p -> slot (ofile s') q j = slot (ofile s) q j)) \/
  stopped p (Z.to_nat NOFILE) 0 s (exit_files end_ me fuel sleep p (Z.to_nat NOFILE) 0 s).
Proof.
  destruct (exit_files_loop (Z.to_nat NOFILE) s p 0 I Hp ltac:(lia) eq_refl) as [(s' & E & I' & S' & R)|F]; [left|by right].
  exists s'. split_and!; try done. intros q j Hq. apply R. by left.
Qed.
End exit.
