(* ===== verification/FileDemo.v ===== *)
(** * Files and descriptors on a concrete disk and memory *)

From S2P Require Import Prelude Disk Bio BioThms Cache BioCache Bytes Log LogSpec LogCrash LogTx Store FsLog.
From S2P Require Import Riscv Mem Kalloc Sleeplock Vm VmDemo Fs FsAlloc FsFile FsMap FsRw FsInode FsThms FsDemo File FileRest FileWrite.
From S2P Require Import ProcMem Pipe FileRefs FileFd FileExit.

(** The file system of FsDemo at rest, with the memory of VmDemo, and its file
    open for writing. *)
Definition rest_fs : fstate (lst bdisk) := mkfs fs_boot demo_sb [demo_ino] demo_km [].
Definition demo_open : file := mkfile FD_INODE 1 true true 0 0 0 0.
Definition demo_sys : sys (lst bdisk) := mksys rest_fs [demo_open] ∅ [].

Lemma demo_at_rest : at_rest 2 (mret tt) 1 rest_fs (a_init fs_disk) 0 demo_ino.
Proof.
  destruct demo_begin as (s1 & H). split.
  - exact fs_boot_quiescent.
  - intros m _. apply fs_disk_length.
  - reflexivity.
  - reflexivity.
  - cbn. lia.
  - cbn. lia.
  - exact demo_ino_range.
  - vm_compute. reflexivity.
  - exact (file_state_good _ _ _ _ (demo_file s1 H)).
Qed.

(** The bytes at the user address 100. *)
Lemma demo_src : src_ok (P 0) 10 demo_km true 100 [42; 0; 0].
Proof.
  intros j m Hj Hm Hl. cbn in Hl.
  assert (exists x y : nat, (x + y <= 3)%nat /\ j = Z.of_nat x /\ m = Z.of_nat y) as (x & y & Hxy & -> & ->).
  { exists (Z.to_nat j), (Z.to_nat m). lia. }
  do 4 (destruct x as [|x]; [do 4 (destruct y as [|y]; [first [lia|vm_compute; reflexivity]|]); lia|]). lia.
Qed.

Lemma filewrite_correct_witness :
  let w := filewrite (BlockStore0 := log_store 2 (mret tt) 1) 7 (P 0) 10 (mret tt) (mret tt) (fun _ _ => false) [] 0 100 3 demo_sys in
  exists y' a' ip' tr, w = Ok (3, y') /\ at_rest 2 (mret tt) 1 (y_fs y') a' 0 ip' /\
     holds_file demo_sb (a_disk a') 2 (patch (fun _ => 0) 0 [42; 0; 0]) 3 /\
     bc_tr (lc (f_s (y_fs y'))) = bc_tr (lc fs_boot) ++ tr /\
     crash_among 2 fs_disk tr (some_prefix 2 (mret tt) 1 demo_sb fs_disk demo_ino 0 [42; 0; 0] 0).
Proof.
  destruct (filewrite_correct 2 (mret tt) 1 7 (P 0) 10 (mret tt) (mret tt) (fun _ _ => false) [] demo_sys (a_init fs_disk) 0 demo_open demo_ino
    100 [42; 0; 0]) as [(y' & a' & ip' & tr & E & _ & R & _ & [[H1 H2] _ _] & T & K)|[_ E]].
  - reflexivity.
  - reflexivity.
  - reflexivity.
  - exact demo_at_rest.
  - lia.
  - lia.
  - vm_compute. split; congruence.
  - vm_compute. congruence.
  - lia.
  - exact demo_src.
  - exists y', a', ip', tr. split; [exact E|]. split; [exact R|]. split; [|split; [exact T|exact K]].
    split; [exact H1|]. intros o Ho. etransitivity; [exact (H2 o Ho)|]. unfold patch. destruct (decide _); [reflexivity|].
    unfold file_byte. rewrite baddr_empty. reflexivity.
  - destruct (demo_enough E).
Defined.

(** ** Descriptors of two processes *)

(** The first process has both ends of a pipe, the second has no file. *)
Definition rfile : file := mkfile FD_PIPE 1 true false (P 9) 0 0 0.
Definition wfile : file := mkfile FD_PIPE 1 false true (P 9) 0 0 0.
Definition nofile : file := mkfile FD_NONE 0 false false 0 0 0 0.
Definition two_tabs : list (list (option Z)) := [Some 0 :: Some 1 :: replicate 14 None; replicate 16 None].
Definition two_sys : sys (lst bdisk) :=
  mksys rest_fs (rfile :: wfile :: replicate 98 nofile) {[P 9 := pipe_init (replicate 512 0)]} two_tabs.

Lemma two_file f y :
  zidx (ftable two_sys) f = Some y -> (f = 0 /\ y = rfile) \/ (f = 1 /\ y = wfile) \/ (2 <= f /\ y = nofile).
Proof.
  intros [H0 H]%zidx_Some. destruct (Z.to_nat f) as [|[|n]] eqn:E; [left|right; left|right; right]; (split; [lia|]); [by injection H..|].
  by apply (lookup_replicate 98 nofile) in H as [-> _].
Qed.

Lemma occ_none f k : occ f (replicate k None) = 0.
Proof. induction k as [|k IH]; cbn; [done|]. by rewrite IH. Qed.

Lemma two_tab : tab_inv zero (ftable two_sys) (ofile two_sys).
Proof.
  split.
  - reflexivity.
  - split; [cbn; lia|repeat constructor].
  - intros f. unfold zero. lia.
  - intros p fd f (t & [_ Ht]%zidx_Some & [_ Hs]%zidx_Some)%slot_inv.
    assert (Forall (Forall (fun o => match o with Some g => 0 <= g < NFILE | None => True end)) two_tabs) as HF by (repeat constructor; done).
    exact (Forall_lookup_1 _ _ _ _ (Forall_lookup_1 _ _ _ _ HF Ht) Hs).
  - intros f y Hy. unfold zero. cbn [ofile two_sys two_tabs refs occ]. rewrite !occ_none.
    apply two_file in Hy as [[-> ->]|[[-> ->]|[Hf ->]]]; [reflexivity..|]. rewrite !decide_False by (intros [=]; lia). reflexivity.
  - intros f y Hy Hr. apply two_file in Hy as [[-> ->]|[[-> ->]|[Hf ->]]]; [discriminate Hr..|reflexivity].
Qed.

Lemma two_names f y a w : zidx (ftable two_sys) f = Some y -> names_end y a w -> a = P 9 /\ f = (if w then 1 else 0).
Proof.
  intros [[-> ->]|[[-> ->]|[Hf ->]]]%two_file (Ht & <- & <-); [done|done|discriminate Ht].
Qed.

Lemma two_only a pi : y_pipes two_sys !! a = Some pi -> P 9 = a /\ pipe_init (replicate 512 0) = pi.
Proof. intros H. exact (proj1 (lookup_singleton_Some (P 9) a (pipe_init (replicate 512 0)) pi) H). Qed.

Lemma two_pipe : pipe_inv (ftable two_sys) (y_pipes two_sys).
Proof.
  split.
  - intros f y a w Hf [-> _]%(two_names f y a w Hf). exists (pipe_init (replicate 512 0)). split; [apply lookup_singleton_eq|by destruct w].
  - intros f f' y y' a w Hf Hf' H H'. destruct (two_names _ _ _ _ Hf H) as [_ ->], (two_names _ _ _ _ Hf' H') as [_ ->]. reflexivity.
  - intros a pi w [<- <-]%two_only _. destruct w; [exists 1, wfile|exists 0, rfile]; split; reflexivity || (split_and!; reflexivity).
  - intros a pi [<- <-]%two_only. by exists true.
Qed.

Lemma two_pages : pages_inv demo_end (f_k (y_fs two_sys)) (y_pipes two_sys).
Proof.
  split; [vm_compute; congruence|]. exists demo_free. split; [exact demo_km_ok|]. intros a pi [<- _]%two_only.
  split; [by apply demo_page_ok|]. apply (bool_decide_unpack _). vm_compute. exact Logic.I.
Qed.

Lemma two_inv : fd_inv demo_end zero two_sys.
Proof. split; [exact two_tab|exact two_pipe|exact two_pages]. Qed.

Lemma two_proc p : p = 0 \/ p = 1 -> is_proc two_sys p.
Proof. unfold is_proc. cbn. lia. Qed.

(** The argument in a trap frame full of zeros. *)
Lemma two_arg : fd_arg two_sys (P 10) = 0.
Proof. vm_compute. reflexivity. Qed.

Lemma sys_dup_correct_witness :
  exists s', sys_dup 0 (P 10) two_sys = Ok (2, s') /\ fd_inv demo_end zero s'.
Proof.
  destruct (sys_dup_correct demo_end two_sys 0 (P 10) two_inv (two_proc 0 ltac:(left; reflexivity)))
    as [(f & y & r & s' & _ & _ & E & I & Hr & Hs & Hlow & _)|[_ [Hn|Hn]]].
  - exists s'. split; [|exact I]. rewrite E. f_equal. f_equal.
    destruct (Z.lt_trichotomy r 2) as [H|[->|H]]; [|reflexivity|exfalso; apply (Hlow 2); [lia|reflexivity]].
    exfalso. assert (r = 0 \/ r = 1) as [-> | ->] by lia; vm_compute in Hs; discriminate Hs.
  - exfalso. apply Hn. rewrite two_arg. exists 0. reflexivity.
  - exfalso. apply (Hn 2); [lia|reflexivity].
Defined.

Lemma sys_close_correct_witness :
  exists s1, sys_close demo_end 7 10 (mret tt) 0 (P 10) two_sys = (put_back 7 10 (mret tt) rfile;; mret 0) s1 /\ fd_inv demo_end zero s1.
Proof.
  destruct (sys_close_correct demo_end 7 10 (mret tt) two_sys 0 (P 10) two_inv (two_proc 0 ltac:(left; reflexivity)))
    as [(f & y & s1 & Hs & Hy & E & I & _)|[_ Hn]].
  - exists s1. split; [|exact I]. rewrite two_arg in Hs. vm_compute in Hs. injection Hs as <-. injection Hy as <-. exact E.
  - exfalso. apply Hn. rewrite two_arg. exists 0. reflexivity.
Defined.

Lemma fork_files_correct_witness :
  exists s', fork_files 0 16 1 0 two_sys = Ok (tt, s') /\ fd_inv demo_end zero s' /\ slot (ofile s') 1 1 = Some (Some 1).
Proof.
  destruct (fork_files_correct demo_end two_sys 0 1 two_inv (two_proc 0 ltac:(left; reflexivity)) ltac:(discriminate)) as (s' & E & I & _ & _ & H & _).
  - intros j Hj. unfold slot. cbn. apply zidx_Some. split; [lia|]. apply (lookup_replicate_2 16). lia.
  - exists s'. split; [exact E|]. split; [exact I|]. rewrite H by lia. reflexivity.
Defined.

(** Both files are pipes, so that no transaction can fail. *)
Lemma exit_files_correct_witness :
  exists s', exit_files demo_end 7 10 (mret tt) 0 16 0 two_sys = Ok (tt, s') /\ fd_inv demo_end zero s' /\ slot (ofile s') 0 1 = Some None.
Proof.
  destruct (exit_files_correct demo_end 7 10 (mret tt) (km_keeps_ret tt) two_sys 0 two_inv (two_proc 0 ltac:(left; reflexivity)))
    as [(s' & E & I & H & _)|(n & f & y & s0 & s1 & _ & _ & Hy & Ht & _)].
  - exists s'. split; [exact E|]. split; [exact I|]. apply H. lia.
  - exfalso. apply two_file in Hy as [[_ ->]|[[_ ->]|[_ ->]]]; destruct Ht as [Ht|Ht]; discriminate Ht.
Defined.

Lemma pipealloc_correct_witness :
  exists f0 f1 s', pipealloc demo_end 7 10 (mret tt) two_sys = Ok (Some (f0, f1), s') /\ fd_inv demo_end (bump (bump zero f0 1) f1 1) s'.
Proof.
  destruct (pipealloc_correct demo_end 7 10 (mret tt) two_sys two_inv)
    as [(f0 & f1 & y0 & y1 & a & k & pi & E & _ & _ & _ & _ & _ & _ & _ & _ & _ & _ & I)|(s' & _ & _ & _ & _ & _ & [H|H])].
  - exists f0, f1. eexists. split; [exact E|exact I].
  - exfalso. vm_compute in H. discriminate H.
  - exfalso. assert (2 = 3) as H'; [|discriminate H']. apply (H 2 3 nofile nofile); reflexivity.
Defined.
